(* ===== verification/_CoqProject ===== *)
-Q . S2P
Prelude.v
Policy.v
Domain.v
Text.v
Store.v
StoreRuns.v
EventLog.v
Loop.v
Waits.v
Batcher.v
Tools.v
Step.v
Api.v
ResourceStore.v
OperatorTx.v
ResourceWork.v
Frames.v
Invariants.v
RunStates.v
System.v
Spawning.v
WorkSteps.v
Scenario.v
Guarantees.v
Redelivery.v
WaitSpec.v
Tenancy.v
ResourceSpec.v
Commit.v
ToolSpec.v
Strings.v
Redact.v
GoJson.v
ToolCache.v
InprocQueue.v
ResourceApi.v
ResourceToolSpec.v
ResourceApiSpec.v
AdminAuthz.v
AdminQuery.v
Descriptors.v
QuerySpec.v
Plans.v
Paging.v
Registry.v
Tunnel.v
TunnelSpec.v
TunnelGuarantees.v
TunnelBroker.v
BrokerSpec.v
Handles.v
NullProvider.v
LocalDocker.v
AdapterSpec.v
Nomad.v
NomadSpec.v
K8s.v
K8sSpec.v
StaticProvider.v
StaticSpec.v
Accounts.v
Wiring.v
AccountSpec.v
AdminCommands.v
CommandSpec.v
AdminReads.v
ReadSpec.v
TimelineSpec.v
AdminHttp.v
ReadSecrecy.v
AdminHttpSpec.v
Environment.v
Processes.v
ProcessSpec.v
DevStack.v
EventBus.v
Wire.v
Sdk.v
SdkSpec.v
Findings.v
