(* ===== verification/Prelude.v ===== *)
(** * ultracore: a verification development

    The program under [src/] is a multi-tenant service that runs language-model
    agents durably.  A session is an append-only log of events; a run is an agent
    at work in a session, executed one model step per queue job; runs spawn child
    runs under narrower policies, park until their children are done, use
    resources (development environments) that provider adapters create, and
    share the memory of their session.  Everything that must survive a crash is
    in Postgres, and every process (step workers, the wait sweeper, resource
    jobs, API handlers, operators' commands) works through transactions on it.

    ** How the program is modelled

    A Go function is a definition of the same name.  A function that returns an
    error returns a [result]; one that uses the store is in the state-and-error
    monad [M] over the tables ([DB] for the core, [World] with accounts and
    redactor, [AdminWorld] with the audit table, the queue and the engine's
    counters).  A transaction keeps nothing when it fails ([Tx]).  The clock,
    fresh ids and random bytes are arguments.  A 64-bit integer is a [Z]: the
    values the code computes are counts, indices and times, and where a bound
    matters it is a theorem or part of the definition ([in_int64] for parsed
    integers).  Bytes are [Z] below 256.  Shared mutable objects that the code
    hands out (tool clients) live in a heap.

    Concurrency is interleaving.  One transaction with its inputs is an [op] of
    [System]; a history is any sequence of them, so which worker runs when, what
    the model answers, and what is delivered twice or never are all choices of
    the next [op].  The theorems about reachable databases and histories hold for
    every interleaving; a worker's whole step ([Work]) and an operator's whole
    command are shown to be such sequences.

    ** The files

    The prelude (this file): results, the monad, its notation and lemmas, and the
    list lemmas the components share.

    Core data and store:
    - [Policy]: [policy.go], the policy part of [loop/spawn.go].
    - [Domain]: the types of [event.go], [run.go], [multiplayer.go],
      [resource.go], [capability.go].
    - [Text]: memory keys, labels, the actor header ([multiplayer.go],
      [ultra.go], [auth.go]).
    - [Store], [StoreRuns], [ResourceStore]: package [postgres], one definition
      per method, with the [WHERE] clauses and unique indexes written out.
    - [EventLog]: the log and its readers ([postgres/eventbus.go], the paged read
      of [http/session_handler.go], the attempt counter of [loop/step.go]).
      [EventBus]: waiters, notifications and subscriptions of
      [postgres/eventbus.go] as interleaving steps.

    The loop:
    - [Loop], [Waits], [Batcher], [Tools], [Step]: package [loop] (histories and
      keys, durable waits and the sweeper, the delta batcher, the native tools,
      the step worker).
    - [Api]: the session and run services of package [http].
    - [ResourceWork]: package [resourcework].

    The system and its guarantees:
    - [Frames], [Invariants], [RunStates]: what every handler preserves, proved
      once per relation through the classes [StorePrim] and [StoreCore].
    - [System]: transactions, histories, reachability.  [Spawning],
      [WorkSteps], [Guarantees], [Redelivery], [WaitSpec], [Tenancy],
      [ResourceSpec], [Commit], [ToolSpec]: the theorems.  [Scenario]: a concrete
      history for the witnesses.

    The services around the core:
    - [Strings], [Redact]: the string functions of the standard library and
      [secrets/redact.go].  [GoJson]: what the code uses of [encoding/json].
    - [ToolCache]: package [mcp].  [InprocQueue]: package [jobqueue/inproc].
    - [ResourceApi]: [loop/resourcetools.go], [http/resource_handler.go] and the
      tool clients of [resourcework]; [ResourceToolSpec] and [ResourceApiSpec]
      hold the theorems.
    - [AdminQuery], [Descriptors]: package [admin/query] and the page loop of
      [admin/store/store.go].  [QuerySpec] gives the compiled SQL a meaning;
      [Plans], [Paging], [Registry] hold the theorems.
    - [Tunnel]: the protocol, the agent and the provider of [provider/tunnel];
      [TunnelSpec], [TunnelGuarantees].  [TunnelBroker], [BrokerSpec]: its broker
      and the agent's dialer.
    - [Handles] ([provider/handlefmt]) and the adapters of control planes:
      [NullProvider], [LocalDocker], [Nomad], [K8s], [StaticProvider], with what
      they promise in [AdapterSpec], [NomadSpec], [K8sSpec] and [StaticSpec].
      [Wiring]: [provider/wiring.go].
    - [Accounts]: tenants, API keys, credentials, periodic prompts, the provider
      registry and model resolution ([postgres/org.go], [postgres/periodic.go],
      [auth.go], [http/org_handler.go], [http/automation_handler.go],
      [loop/model.go], [secrets/secrets.go], [provider/registry.go]).
      [AccountSpec] holds the theorems.
    - [AdminAuthz]: package [admin/authz] and the admin interceptor.
      [OperatorTx], [AdminCommands]: [admin/command/engine.go].  [CommandSpec]
      holds the theorems.
    - [AdminReads]: the reads of [admin/store/store.go], over views of the tables
      ([ReadSpec], [TimelineSpec]).  [AdminHttp]: package [adminhttp]
      and [admin/query/proto.go] ([AdminHttpSpec], [ReadSecrecy]).
    - [Environment]: package [config].  [Processes]: the start of the commands
      [cored], [coreworker], [coreadmin] and [ultra-env-agent], the routing of
      [http/server.go] and the configuration of [jobqueue/river]
      ([ProcessSpec]).  [DevStack]: the seed of [cmd/devstack].
    - [Wire]: [http/convert.go] and the messages of [proto/core/v1].  [Sdk]: the
      event stream of [http/session_handler.go] and package [sdk].  [SdkSpec]:
      what a client sees.
    - [Findings]: evaluations where the code departs from its
      comments.

    ** What the theorems show

    - Histories: runs move along their state machine, a recorded cancellation is
      never overtaken by a commit, logs are gapless and append-only, no step
      commits twice, waits close and resume once, the tree of runs stays within
      its policies, and a tenant's requests touch no other tenant.
    - Delivery: redelivered work and repeated spawns change nothing; closing a
      wait resumes the parent with exactly one job; a sweep leaves no due wait
      open unless it queued another; in-process jobs are delivered until one
      success or the attempt limit, and draining terminates.
    - Equivalence and refinement: [IsSubset] is containment of authority; a
      worker's step and an operator's command are sequences of system
      transactions; the compiled search selects what the request asks for.
    - Reading: a subscription delivers every event once and misses no wake-up,
      under every interleaving of the bus; following the cursors of an admin
      search or of a session's timeline enumerates its result and ends; the
      listings, single reads and related objects of the admin store report what
      the tables hold.
    - Clients: an event reaches a client under its kind with every field; through
      any number of broken connections a client of the SDK sees the log once and
      in order, and only while its key is valid; paged reads return the range
      asked for; waiting for a run ends.
    - Processes: each starts in exactly the environments it should, requests are
      routed to their service, and the admin server is closed unless operators or
      the development mode are configured.
    - Resources: identity, epoch and token, allowed states, at most one live
      thing per resource (against the contract [adopting], which the null, Docker
      and Nomad adapters are shown to meet), reconciliation that re-arms.
    - Resource tools and handlers: an agent is offered the tools its policy
      grants and reaches only ready resources of its tenant; a caller of the
      resource service touches its own tenant only.
    - The tunnel: over a working wire it is the agent's own provider; control
      requests are bound to their path, body and time; a revoked agent serves
      nothing more; an agent that is away suspends its environments and fails
      none; and the broker gives every connection an agent offers to one request
      for that agent, whatever the interleaving.
    - Adapters: what a provision made is gone once its handle is terminated, a
      restart replaces the runtime and rotates its token, nothing of another
      environment is touched, node ports come from the configured range, and a
      deployment offers and builds exactly the kinds it enables.
    - Secrets and authority: registered secrets leave log records, revealed ones
      never reach the audit trail, API keys work until they are revoked and not
      after, credentials reach the client unchanged, search values never reach
      the SQL text, rotated tool clients send nothing, operators run what their
      role allows, the admin server answers nobody else, its reads show no secret
      and its replies only a revealed one, and commands need a fresh confirmation, are audited, replay
      under their key and respect the rate limit.

    ** Bounds and fuel

    Loops that are not structural take fuel, and the theorems show that the fuel
    given is enough: [countAttempts] and [read_pages] one more than the number
    of events, [drain] of a subscription the events left, the sweep loop one
    round per batch of due waits, [InprocQueue.drain] one more than the attempts
    left, [pages] and [timeline_pages] one more than the rows they run through,
    [get_pages] of the SDK one more than the events of the session, [AwaitRun]
    timeout / interval + 1 polls, [awaitHealthy] the number
    of polls the deadline allows.  Where code polls until a deadline ([inspect] of
    Docker, [awaitJobAbsent], [awaitPodAbsent], [awaitReady]) the number of polls is
    an argument and the theorems hold for every number; Docker's retries of a
    taken port are five, as in the code; the provisioning tool reads one view of
    the database per tick, and the list of views is its fuel; the scan of node
    ports has one more round than ports are taken, which is enough.  [utf8_fuel]
    and [json_escape_fuel] take the length of their input.

    ** Parameters

    Code outside the repository is a parameter with its documented behaviour as
    a named class: [Uuid] (SHA-1 UUIDs), [Durations] and [DurationText] (parsing
    and printing durations), [Fantasy] and [WorkEnv] (the agent framework and the
    model), [Service] and [ResourceProvider] (control planes), [GoTime] (RFC
    3339), [Mac], [CursorCodec], [Digest] (HMAC, JSON and SHA-256 of a cursor),
    [SqlOrder] and [CaseFold] (collation and [ILIKE]), [Sha256], [Aead],
    [CredentialJSON], [River] (the job queue client), [PreviewDigest],
    [EvidenceText], [JsonText] (the text of JSON documents), [RowText], [GoFmt] and
    [Structpb] (the text of JSON columns, [fmt] and protobuf structs in the admin
    store), [Protojson] (the JSON mapping of protocol buffers).  The control planes of
    the adapters are records of calls on a world of their own ([Docker], [Nomad],
    [Kube], [Host]), with what they document as records of laws ([docker_engine],
    [nomad_api], [kube_api], [host_api]); the link of the tunnel is a [Wire].  Each
    hypothesis about a parameter is instantiated in a witness.

    ** Not modelled

    Code that is generated (the protocol buffer and connect packages under
    [gen/]), the conformance suites, the test kit and the seed of the end-to-end
    tests, the command line client (flags and printing around the generated
    client), and the web clients.  Of the processes, what comes after their start:
    listeners, signals, shutdown, and the supervision of the development stack.
    Sockets, the [LISTEN] connection, tickers and goroutine pools are inputs of
    the models that use them; the River queue itself is third-party.  Failures of
    the database connection in the admin reads have no counterpart.  Of the objects
    the adapters create, the parts that do not depend on the request are left out.
    Error texts that quote a value with [%q] are modelled without the quotes. *)
From stdpp Require Export base gmap strings list sorting fin_maps pretty.


(** ** Results: a Go [(value, error)] pair *)

(** The errors the modelled code creates or inspects.  The first three are
    the sentinels of [store.go]; the next ones are the control signals of the
    loop package ([loop/step.go], [loop/spawn.go]); [DeniedError] is the
    [deniedError] type of [loop/spawn.go]; [CodeError] is a [connect.Error]
    with its code; every other error is known by its text. *)
Inductive err : Type :=
  | ErrNotFound
  | ErrAlreadyExists
  | ErrPermissionDenied
  | ErrStale
  | ErrCancelledCommit
  | ErrAdoptedChild
  | ErrMissingChildPrompt
  | DeniedError (reason : string)
  | CodeError (code msg : string)
  | ErrorText (msg : string).

#[export] Instance err_eq_dec : EqDecision err.
Proof. solve_decision. Defined.

Inductive result (A : Type) : Type :=
  | Ok (a : A)
  | Err (e : err).
Arguments Ok {A} a.
Arguments Err {A} e.

#[export] Instance result_eq_dec {A} `{EqDecision A} : EqDecision (result A).
Proof. solve_decision. Defined.

(** ** A state and error monad

    [M S A] is a computation on a store of type [S].  A failing computation
    still returns the store it reached: statements executed outside a
    transaction are not undone by a later error. *)
Definition M (S A : Type) : Type := S → S * result A.

#[export] Instance M_ret {S} : MRet (M S) := λ A a s, (s, Ok a).
#[export] Instance M_bind {S} : MBind (M S) := λ A B f m s,
  match m s with
  | (s', Ok a) => f a s'
  | (s', Err e) => (s', Err e)
  end.

Definition throw {S A} (e : err) : M S A := λ s, (s, Err e).
Definition get {S} : M S S := λ s, (s, Ok s).
Definition put {S} (s : S) : M S unit := λ _, (s, Ok tt).

Definition gets {S A} (f : S → A) : M S A := λ s, (s, Ok (f s)).
Definition modify {S} (f : S → S) : M S unit := λ s, (f s, Ok tt).

(** Runs [m] and hands its result, error or not, to the caller: the Go idiom
    [x, err := f(); if errors.Is(err, ...)]. *)
Definition attempt {S A} (m : M S A) : M S (result A) := λ s,
  let '(s', r) := m s in (s', Ok r).

(** Runs [m] for its effect and discards the error: [_ = f()]. *)
Definition ignore {S A} (m : M S A) : M S unit := λ s, ((m s).1, Ok tt).

(** All or nothing: an error rolls the store back. *)
Definition atomically {S A} (m : M S A) : M S A := λ s,
  match m s with
  | (s', Ok a) => (s', Ok a)
  | (_, Err e) => (s, Err e)
  end.

Definition of_option {S A} (e : err) (o : option A) : M S A :=
  match o with Some a => mret a | None => throw e end.

Definition of_result {S A} (r : result A) : M S A := λ s, (s, r).

(** [for _, x := range l { if err := f(x); err != nil { return err } }] *)
Fixpoint for_each {S A} (f : A → M S unit) (l : list A) : M S unit :=
  match l with
  | [] => mret ()
  | x :: l' => f x ≫= λ _, for_each f l'
  end.

(** A fold whose body may fail or change the store. *)
Fixpoint foldM {S A B} (f : B → A → M S B) (l : list A) (b : B) : M S B :=
  match l with
  | [] => mret b
  | x :: l' => f b x ≫= foldM f l'
  end.

(** ** Weakest preconditions for [M] *)

Definition wp {S A} (m : M S A) (Q : result A → S → Prop) (s : S) : Prop :=
  Q (m s).2 (m s).1.

Section wp_lemmas.
Context {S : Type}.

Lemma wp_unfold {A} (m : M S A) Q s s' r :
  m s = (s', r) → wp m Q s → Q r s'.
Proof. unfold wp. intros ->. done. Qed.

Lemma wp_ret {A} (a : A) (Q : result A → S → Prop) s :
  Q (Ok a) s → wp (mret a) Q s.
Proof. done. Qed.

Lemma wp_throw {A} e (Q : result A → S → Prop) s :
  Q (Err e) s → wp (throw e) Q s.
Proof. done. Qed.

Lemma wp_get (Q : result S → S → Prop) s : Q (Ok s) s → wp get Q s.
Proof. done. Qed.

Lemma wp_put t (Q : result unit → S → Prop) s : Q (Ok tt) t → wp (put t) Q s.
Proof. done. Qed.

Lemma wp_gets {A} (f : S → A) (Q : result A → S → Prop) s : Q (Ok (f s)) s → wp (gets f) Q s.
Proof. done. Qed.

Lemma wp_modify (f : S → S) (Q : result unit → S → Prop) s : Q (Ok tt) (f s) → wp (modify f) Q s.
Proof. done. Qed.

Lemma wp_bind {A B} (m : M S A) (f : A → M S B) Q s :
  wp m (λ r s', match r with Ok a => wp (f a) Q s' | Err e => Q (Err e) s' end) s →
  wp (m ≫= f) Q s.
Proof.
  unfold wp, mbind, M_bind. destruct (m s) as [s' [a|e]]; done.
Qed.

Lemma wp_attempt {A} (m : M S A) Q s :
  wp m (λ r s', Q (Ok r) s') s → wp (attempt m) Q s.
Proof. unfold wp, attempt. destruct (m s); done. Qed.

Lemma wp_ignore {A} (m : M S A) Q s :
  wp m (λ _ s', Q (Ok tt) s') s → wp (ignore m) Q s.
Proof. done. Qed.

Lemma wp_atomically {A} (m : M S A) Q s :
  wp m (λ r s', match r with Ok a => Q (Ok a) s' | Err e => Q (Err e) s end) s →
  wp (atomically m) Q s.
Proof. unfold wp, atomically. destruct (m s) as [s' [a|e]]; done. Qed.

Lemma wp_of_option {A} e (o : option A) (Q : result A → S → Prop) s :
  (∀ a, o = Some a → Q (Ok a) s) → (o = None → Q (Err e) s) →
  wp (of_option e o) Q s.
Proof. destruct o; unfold wp; simpl; auto. Qed.

Lemma wp_of_result {A} (r : result A) (Q : result A → S → Prop) s : Q r s → wp (of_result r) Q s.
Proof. done. Qed.

Lemma wp_mono {A} (m : M S A) (P Q : result A → S → Prop) s :
  wp m P s → (∀ r s', P r s' → Q r s') → wp m Q s.
Proof. unfold wp. auto. Qed.

Lemma wp_and {A} (m : M S A) (P Q : result A → S → Prop) s :
  wp m P s → wp m Q s → wp m (λ r s', P r s' ∧ Q r s') s.
Proof. unfold wp. auto. Qed.

(** Loops keep an invariant that their body keeps, also when they fail. *)
Lemma wp_for_each {A} (f : A → M S unit) (l : list A) (I : S → Prop) s :
  (∀ x t, x ∈ l → I t → wp (f x) (λ _, I) t) →
  I s → wp (for_each f l) (λ _, I) s.
Proof.
  revert s. induction l as [|x l IH]; intros s Hf Hs; simpl.
  { by apply wp_ret. }
  apply wp_bind. eapply wp_mono; [apply Hf; [set_solver|done]|].
  intros [[]|e] t Ht; [|done]. apply IH; [|done].
  intros y u Hy. apply Hf. set_solver.
Qed.

Lemma wp_foldM {A B} (f : B → A → M S B) (l : list A) (I : S → Prop) b s :
  (∀ b x t, I t → wp (f b x) (λ _, I) t) →
  I s → wp (foldM f l b) (λ _, I) s.
Proof.
  intros Hf. revert b s. induction l as [|x l IH]; intros b s Hs; simpl.
  { by apply wp_ret. }
  apply wp_bind. eapply wp_mono; [by apply Hf|].
  intros [b'|e] t Ht; [by apply IH|done].
Qed.

End wp_lemmas.

(** ** Preservation of a preorder on stores

    [keeps R m] says that [m] relates the store it starts in to the store it
    ends in.  With a preorder [R] it composes, so an invariant or a
    monotonicity property of a long handler follows from that of its calls. *)
Definition keeps {S A} (R : relation S) (m : M S A) : Prop :=
  ∀ s, R s (m s).1.

Section keeps_lemmas.
Context {S : Type} (R : relation S) `{!PreOrder R}.

Lemma keeps_ret {A} (a : A) : keeps R (mret a).
Proof. intros s. simpl. reflexivity. Qed.
Lemma keeps_throw {A} e : keeps R (throw (A:=A) e).
Proof. intros s. simpl. reflexivity. Qed.
Lemma keeps_get : keeps R get.
Proof. intros s. simpl. reflexivity. Qed.
Lemma keeps_gets {A} (f : S → A) : keeps R (gets f).
Proof. intros s. simpl. reflexivity. Qed.
Lemma keeps_modify (f : S → S) : (∀ s, R s (f s)) → keeps R (modify f).
Proof. intros Hf s. apply Hf. Qed.
Lemma keeps_of_option {A} e (o : option A) : keeps R (of_option e o).
Proof. intros s. destruct o; simpl; reflexivity. Qed.
Lemma keeps_of_result {A} (r : result A) : keeps R (of_result r).
Proof. intros s. simpl. reflexivity. Qed.
Lemma keeps_bind {A B} (m : M S A) (f : A → M S B) :
  keeps R m → (∀ a, keeps R (f a)) → keeps R (m ≫= f).
Proof.
  intros Hm Hf s. unfold mbind, M_bind. specialize (Hm s).
  destruct (m s) as [s' [a|e]]; simpl in *; [|done].
  etrans; [done|apply Hf].
Qed.
(** As [keeps_bind], when something is known of the values [m] returns. *)
Lemma keeps_bind_val {A B} (P : A → Prop) (m : M S A) (f : A → M S B) :
  keeps R m → (∀ s a, (m s).2 = Ok a → P a) → (∀ a, P a → keeps R (f a)) → keeps R (m ≫= f).
Proof.
  intros Hm HP Hf s. unfold mbind, M_bind. specialize (Hm s). specialize (HP s).
  destruct (m s) as [s' [a|e]]; simpl in *; [|done].
  etrans; [done|by apply Hf, HP].
Qed.
Lemma keeps_attempt {A} (m : M S A) : keeps R m → keeps R (attempt m).
Proof. intros Hm s. specialize (Hm s). unfold attempt. destruct (m s); done. Qed.
Lemma keeps_ignore {A} (m : M S A) : keeps R m → keeps R (ignore m).
Proof. intros Hm s. apply Hm. Qed.
Lemma keeps_atomically {A} (m : M S A) : keeps R m → keeps R (atomically m).
Proof.
  intros Hm s. specialize (Hm s). unfold atomically.
  destruct (m s) as [s' [a|e]]; simpl in *; [done|reflexivity].
Qed.
Lemma keeps_for_each {A} (f : A → M S unit) l :
  (∀ x, keeps R (f x)) → keeps R (for_each f l).
Proof.
  intros Hf. induction l as [|x l IH]; simpl; [apply keeps_ret|].
  by apply keeps_bind.
Qed.
Lemma keeps_foldM {A B} (f : B → A → M S B) l b :
  (∀ b x, keeps R (f b x)) → keeps R (foldM f l b).
Proof.
  intros Hf. revert b. induction l as [|x l IH]; intros b; simpl; [apply keeps_ret|].
  by apply keeps_bind.
Qed.

End keeps_lemmas.

Create HintDb keeps discriminated.
#[export] Hint Resolve keeps_ret keeps_throw keeps_get keeps_gets keeps_of_option
  keeps_of_result keeps_attempt keeps_ignore keeps_atomically : keeps.

(** Splits a computation along its binds, conditionals and matches and closes
    the leaves with the [keeps] hints. *)
Ltac keeps_step :=
  match goal with
  | |- keeps _ (mbind _ _) => apply keeps_bind; [try done| |intros ?]
  | |- keeps _ (attempt _) => apply keeps_attempt
  | |- keeps _ (ignore _) => apply keeps_ignore
  | |- keeps _ (atomically _) => apply keeps_atomically; [try done|]
  | |- keeps _ (for_each _ _) => apply keeps_for_each; [try done|intros ?]
  | |- keeps _ (foldM _ _ _) => apply keeps_foldM; [try done|intros ? ?]
  | |- keeps _ (if ?b then _ else _) => destruct b
  | |- keeps _ (match ?x with _ => _ end) => destruct x
  end.
Ltac solve_keeps := repeat first [ solve [eauto 3 with keeps typeclass_instances] | keeps_step ].

(** ** Lists and maps *)

Lemma elem_of_map_to_list_values `{Countable K} {A} (m : gmap K A) (x : A) :
  x ∈ (map_to_list m).*2 ↔ ∃ k, m !! k = Some x.
Proof.
  rewrite list_elem_of_fmap. split.
  - intros ([k y] & -> & Hin). exists k. by apply elem_of_map_to_list.
  - intros [k Hk]. exists (k, x). split; [done|]. by apply elem_of_map_to_list.
Qed.

Definition bool_filter {A} (f : A → bool) (l : list A) : list A :=
  filter (λ x, f x = true) l.

Lemma elem_of_bool_filter {A} (f : A → bool) (l : list A) x :
  x ∈ bool_filter f l ↔ f x = true ∧ x ∈ l.
Proof. unfold bool_filter. by rewrite list_elem_of_filter. Qed.

Lemma bool_filter_app {A} (f : A → bool) (l k : list A) :
  bool_filter f (l ++ k) = bool_filter f l ++ bool_filter f k.
Proof. unfold bool_filter. by rewrite filter_app. Qed.

Lemma bool_filter_all {A} (f : A → bool) (l : list A) : (∀ x, x ∈ l → f x = true) → bool_filter f l = l.
Proof.
  intros Hf. induction l as [|x l IH]; [done|]. unfold bool_filter in *.
  rewrite filter_cons_True by (apply Hf; left). f_equal. apply IH. intros y Hy. apply Hf. by right.
Qed.

Lemma forallb_elem {A} (f : A → bool) (l : list A) :
  forallb f l = true ↔ ∀ x, x ∈ l → f x = true.
Proof. rewrite forallb_forall. by setoid_rewrite list_elem_of_In. Qed.

Lemma take_length_take {A} (l : list A) n : take (length (take n l)) l = take n l.
Proof.
  rewrite length_take. destruct (decide (n ≤ length l)); [by rewrite Nat.min_l|].
  by rewrite Nat.min_r, !take_ge by lia.
Qed.
