(* ===== verification/Policy.v ===== *)
(** * Run policies ([policy.go]) and their inheritance ([loop/spawn.go])

    A run carries an immutable [RunPolicy]: a tool allowlist, a denylist that
    always wins, the resource kinds it may provision and a cap on children.
    A spawn may hand a child any policy that passes [IsSubset].  The theorems
    show that [IsSubset] decides containment of authority exactly (it neither
    lets a wider child through nor refuses a narrower one), and that authority
    can only shrink along a chain of spawns. *)
From S2P Require Import Prelude.

Record RunPolicy := MkRunPolicy {
  AllowTools : list string;
  DenyTools : list string;
  ResourceKinds : list string;
  MaxChildren : Z;
  ChildInherit : bool;
}.

#[export] Instance RunPolicy_eq_dec : EqDecision RunPolicy.
Proof. solve_decision. Defined.

Definition DefaultRunPolicy : RunPolicy :=
  {| AllowTools := ["*"]; DenyTools := []; ResourceKinds := ["*"];
     MaxChildren := 16; ChildInherit := false |}.

(** [map[string]bool] built from a slice: a set; [m[k]] is membership. *)
Definition stringSet (values : list string) : gset string := list_to_set values.
Definition kindSet (values : list string) : gset string := list_to_set values.
Definition has (s : gset string) (k : string) : bool := bool_decide (k ∈ s).

Definition AllowsTool (p : RunPolicy) (name : string) : bool :=
  let deny := stringSet (DenyTools p) in
  if has deny name || has deny "*" then false
  else let allow := stringSet (AllowTools p) in has allow "*" || has allow name.

Definition AllowsResourceKind (p : RunPolicy) (kind : string) : bool :=
  if bool_decide (ResourceKinds p = []) then false
  else let s := kindSet (ResourceKinds p) in has s "*" || has s kind.

Definition effectiveAllow (p : RunPolicy) : gset string :=
  let allow := stringSet (AllowTools p) in
  let deny := stringSet (DenyTools p) in
  if has deny "*" then ∅
  else if has allow "*" then {["*"]}
  else filter (λ t, t ∉ deny) allow.

Definition allowHasStar (p : RunPolicy) : bool :=
  if has (stringSet (DenyTools p)) "*" then false
  else has (stringSet (AllowTools p)) "*".

Definition kindsSubset (child parent : list string) : bool :=
  if bool_decide (child = []) then true
  else
    let ps := kindSet parent in
    if has ps "*" then true
    else
      let cs := kindSet child in
      if has cs "*" then false
      else forallb (has ps) (elements cs).

Definition IsSubset (p parent : RunPolicy) : bool :=
  if bool_decide (MaxChildren parent < MaxChildren p)%Z then false
  else if allowHasStar p && negb (allowHasStar parent) then false
  else if
    (if negb (allowHasStar p) then
       let parentAllow := effectiveAllow parent in
       let parentStar := allowHasStar parent in
       let parentDeny := stringSet (DenyTools parent) in
       forallb (λ t,
         if bool_decide (t = "*") then true
         else if has parentDeny t then false
         else negb (negb parentStar && negb (has parentAllow t)))
         (elements (effectiveAllow p))
     else
       let childDeny := stringSet (DenyTools p) in
       forallb (λ d,
         if bool_decide (d = "*") then true
         else negb (negb (has childDeny d) && negb (has childDeny "*")))
         (DenyTools parent))
  then kindsSubset (ResourceKinds p) (ResourceKinds parent)
  else false.

(** The tools a run can be granted by name. *)
Definition CanonicalTools : list string :=
  [ "ask_user"; "post_event";
    "session_memory_get"; "session_memory_list"; "session_memory_set"; "session_memory_delete";
    "spawn_agent"; "wait_for_agents"; "run_agent_cohort";
    "provision_resource"; "list_resources"; "terminate_resource";
    "provision_env"; "list_envs"; "terminate_env";
    "bash"; "view"; "write"; "edit"; "multiedit"; "delete"; "ls"; "glob"; "grep";
    "job_output"; "job_kill"; "download"; "fetch"; "web_fetch";
    "lsp_diagnostics"; "lsp_references"; "lsp_restart" ].

(** ** Child policies ([childSpec.resolvePolicy]) *)

(** [csTools] and [csPolicy] are the optional fields of the tool input: a nil
    slice and a nil pointer are [None]. *)
Record childSpec := MkChildSpec {
  csPrompt : string;
  csTools : option (list string);
  csPolicy : option RunPolicy;
}.

Definition withAllowTools (tools : list string) (p : RunPolicy) : RunPolicy :=
  {| AllowTools := tools; DenyTools := DenyTools p; ResourceKinds := ResourceKinds p;
     MaxChildren := MaxChildren p; ChildInherit := ChildInherit p |}.

Definition resolvePolicy (s : childSpec) (parent : RunPolicy) : result RunPolicy :=
  if ChildInherit parent then Ok parent
  else
    let child :=
      match csPolicy s, csTools s with
      | Some p, _ => p
      | None, Some tools => withAllowTools tools parent
      | None, None => withAllowTools (AllowTools parent) parent
      end in
    if IsSubset child parent then Ok child
    else Err (DeniedError "child policy escapes parent").

(** ** The abstract meaning of a policy *)

(** [p] grants no more than [q]: every tool, every kind, and the child cap. *)
Definition narrower (p q : RunPolicy) : Prop :=
  (∀ t, AllowsTool p t = true → AllowsTool q t = true) ∧
  (∀ k, AllowsResourceKind p k = true → AllowsResourceKind q k = true) ∧
  (MaxChildren p ≤ MaxChildren q)%Z.

#[export] Instance narrower_preorder : PreOrder narrower.
Proof.
  split.
  - intros p. unfold narrower. naive_solver.
  - intros p q r. unfold narrower. naive_solver lia.
Qed.

(** One spawn: the policy a child gets from a parent's. *)
Inductive spawned_policy : RunPolicy → RunPolicy → Prop :=
  | spawned_resolve s parent child :
      resolvePolicy s parent = Ok child → spawned_policy parent child.

(** ** Lemmas *)

Lemma has_spec s k : has s k = true ↔ k ∈ s.
Proof. unfold has. apply bool_decide_eq_true. Qed.
Lemma has_false s k : has s k = false ↔ k ∉ s.
Proof. unfold has. apply bool_decide_eq_false. Qed.
Lemma elem_of_stringSet k l : k ∈ stringSet l ↔ k ∈ l.
Proof. unfold stringSet. apply elem_of_list_to_set. Qed.
Lemma elem_of_kindSet k l : k ∈ kindSet l ↔ k ∈ l.
Proof. unfold kindSet. apply elem_of_list_to_set. Qed.

Lemma AllowsTool_spec p t :
  AllowsTool p t = true ↔
  t ∉ DenyTools p ∧ "*" ∉ DenyTools p ∧ ("*" ∈ AllowTools p ∨ t ∈ AllowTools p).
Proof.
  unfold AllowsTool. destruct (has _ t || has _ "*") eqn:E.
  - apply orb_true_iff in E. rewrite !has_spec, !elem_of_stringSet in E. naive_solver.
  - apply orb_false_iff in E. rewrite !has_false, !elem_of_stringSet in E.
    rewrite orb_true_iff, !has_spec, !elem_of_stringSet. naive_solver.
Qed.

Lemma AllowsResourceKind_spec p k :
  AllowsResourceKind p k = true ↔ "*" ∈ ResourceKinds p ∨ k ∈ ResourceKinds p.
Proof.
  unfold AllowsResourceKind. case_bool_decide as E.
  - rewrite E. set_solver.
  - by rewrite orb_true_iff, !has_spec, !elem_of_kindSet.
Qed.

Lemma allowHasStar_spec p :
  allowHasStar p = true ↔ "*" ∉ DenyTools p ∧ "*" ∈ AllowTools p.
Proof.
  unfold allowHasStar. destruct (has _ "*") eqn:E.
  - rewrite has_spec, elem_of_stringSet in E. naive_solver.
  - rewrite has_false, elem_of_stringSet in E. rewrite has_spec, elem_of_stringSet. naive_solver.
Qed.

Lemma allowHasStar_false p :
  allowHasStar p = false ↔ "*" ∈ DenyTools p ∨ "*" ∉ AllowTools p.
Proof.
  pose proof (allowHasStar_spec p) as H.
  destruct (allowHasStar p); [|destruct (decide ("*" ∈ DenyTools p))]; naive_solver.
Qed.

(** Without a star, the effective set is exactly the allowed names. *)
Lemma effectiveAllow_no_star p t :
  allowHasStar p = false → t ∈ effectiveAllow p ↔ AllowsTool p t = true.
Proof.
  rewrite allowHasStar_false, AllowsTool_spec. unfold effectiveAllow.
  destruct (has (stringSet (DenyTools p)) "*") eqn:E1.
  { rewrite has_spec, elem_of_stringSet in E1. set_solver. }
  rewrite has_false, elem_of_stringSet in E1.
  destruct (has (stringSet (AllowTools p)) "*") eqn:E2.
  { rewrite has_spec, elem_of_stringSet in E2. naive_solver. }
  rewrite has_false, elem_of_stringSet in E2.
  rewrite elem_of_filter, !elem_of_stringSet. naive_solver.
Qed.

(** A finite list of names never covers every name. *)
Lemma fresh_name (l : list string) : ∃ t, t ∉ l.
Proof. exists (fresh l). apply infinite_is_fresh. Qed.

Lemma kindsSubset_spec child parent :
  kindsSubset child parent = true ↔
  (∀ k, "*" ∈ child ∨ k ∈ child → "*" ∈ parent ∨ k ∈ parent).
Proof.
  unfold kindsSubset. case_bool_decide as E; [subst; set_solver|].
  destruct (has (kindSet parent) "*") eqn:E1.
  { rewrite has_spec, elem_of_kindSet in E1. naive_solver. }
  rewrite has_false, elem_of_kindSet in E1.
  destruct (has (kindSet child) "*") eqn:E2.
  { rewrite has_spec, elem_of_kindSet in E2. split; [done|].
    destruct (fresh_name parent) as [k Hk]. naive_solver. }
  rewrite has_false, elem_of_kindSet in E2.
  rewrite forallb_forall. setoid_rewrite <-list_elem_of_In.
  setoid_rewrite elem_of_elements. setoid_rewrite has_spec.
  setoid_rewrite elem_of_kindSet. naive_solver.
Qed.

(** The two loop bodies of [IsSubset], as propositions. *)
Lemma subset_tool_test q t :
  (if bool_decide (t = "*") then true
   else if has (stringSet (DenyTools q)) t then false
   else negb (negb (allowHasStar q) && negb (has (effectiveAllow q) t))) = true ↔
  (t ≠ "*" → t ∉ DenyTools q ∧ (allowHasStar q = true ∨ t ∈ effectiveAllow q)).
Proof.
  case_bool_decide; [naive_solver|].
  destruct (has (stringSet (DenyTools q)) t) eqn:D.
  - rewrite has_spec, elem_of_stringSet in D. naive_solver.
  - rewrite has_false, elem_of_stringSet in D.
    rewrite negb_true_iff, andb_false_iff, !negb_false_iff, has_spec. naive_solver.
Qed.

Lemma subset_deny_test p d :
  (if bool_decide (d = "*") then true
   else negb (negb (has (stringSet (DenyTools p)) d) && negb (has (stringSet (DenyTools p)) "*"))) = true ↔
  (d ≠ "*" → d ∈ DenyTools p ∨ "*" ∈ DenyTools p).
Proof.
  case_bool_decide; [naive_solver|].
  rewrite negb_true_iff, andb_false_iff, !negb_false_iff, !has_spec, !elem_of_stringSet.
  naive_solver.
Qed.

Lemma IsSubset_cases p q :
  IsSubset p q = true ↔
  (MaxChildren p ≤ MaxChildren q)%Z ∧
  (if allowHasStar p then allowHasStar q = true ∧
     ∀ d, d ∈ DenyTools q → d ≠ "*" → d ∈ DenyTools p ∨ "*" ∈ DenyTools p
   else ∀ t, t ∈ effectiveAllow p → t ≠ "*" →
     t ∉ DenyTools q ∧ (allowHasStar q = true ∨ t ∈ effectiveAllow q)) ∧
  kindsSubset (ResourceKinds p) (ResourceKinds q) = true.
Proof.
  unfold IsSubset. case_bool_decide as Hm; [naive_solver lia|].
  destruct (allowHasStar p); simpl.
  - setoid_rewrite <-(subset_deny_test p). rewrite <-forallb_elem.
    destruct (allowHasStar q); simpl; [|naive_solver].
    destruct (forallb _ _); naive_solver lia.
  - setoid_rewrite <-(subset_tool_test q). setoid_rewrite <-elem_of_elements.
    rewrite <-forallb_elem. destruct (forallb _ _); naive_solver lia.
Qed.

Lemma narrower_tools_cases p q :
  (∀ t, AllowsTool p t = true → AllowsTool q t = true) ↔
  (if allowHasStar p then allowHasStar q = true ∧
     ∀ d, d ∈ DenyTools q → d ≠ "*" → d ∈ DenyTools p ∨ "*" ∈ DenyTools p
   else ∀ t, t ∈ effectiveAllow p → t ≠ "*" →
     t ∉ DenyTools q ∧ (allowHasStar q = true ∨ t ∈ effectiveAllow q)).
Proof.
  destruct (allowHasStar p) eqn:Ep.
  - apply allowHasStar_spec in Ep as [Hd Ha]. setoid_rewrite AllowsTool_spec. split.
    + intros H. destruct (fresh_name ("*" :: DenyTools p ++ AllowTools q)) as [t Ht].
      assert ("*" ∉ DenyTools q ∧ "*" ∈ AllowTools q) as [Hdq Haq].
      { destruct (H t) as (_ & ? & [?|?]); set_solver. }
      split; [by apply allowHasStar_spec|]. intros d Hdd Hne.
      destruct (decide (d ∈ DenyTools p)); [auto|]. destruct (H d) as [? _]; naive_solver.
    + intros [[Hdq Haq]%allowHasStar_spec H] t (Ht & _ & _). split_and!; [|done|by left].
      intros Htq. destruct (decide (t = "*")) as [->|Hne]; [done|].
      destruct (H t Htq Hne); naive_solver.
  - setoid_rewrite (effectiveAllow_no_star p); [|done]. split.
    + intros H t Ht Hne. apply H in Ht.
      destruct (allowHasStar q) eqn:Eq.
      * apply AllowsTool_spec in Ht. naive_solver.
      * rewrite effectiveAllow_no_star by done.
        split; [apply AllowsTool_spec in Ht; naive_solver|by right].
    + intros H t Ht. destruct (decide (t = "*")) as [->|Hne].
      { apply AllowsTool_spec in Ht. apply allowHasStar_false in Ep. naive_solver. }
      destruct (H t Ht Hne) as [Hd Hq]. destruct (allowHasStar q) eqn:Eq.
      * apply allowHasStar_spec in Eq. apply AllowsTool_spec. naive_solver.
      * destruct Hq as [|Hq]; [done|]. by apply effectiveAllow_no_star.
Qed.

Lemma IsSubset_narrower p q : IsSubset p q = true ↔ narrower p q.
Proof.
  rewrite IsSubset_cases, <-narrower_tools_cases, kindsSubset_spec. unfold narrower.
  setoid_rewrite AllowsResourceKind_spec. naive_solver.
Qed.

Lemma resolvePolicy_narrower s parent child :
  resolvePolicy s parent = Ok child → narrower child parent.
Proof.
  unfold resolvePolicy. destruct (ChildInherit parent); [by intros [= ->]|].
  destruct (IsSubset _ parent) eqn:E; [|done]. intros [= <-].
  by apply IsSubset_narrower.
Qed.

(** ** Properties *)

(** C35: [RunPolicy.IsSubset] is exact.  It accepts a child policy precisely
    when the child grants no tool and no resource kind the parent does not
    grant and its child cap is no larger: no policy escapes it, and no
    narrower policy is refused, whatever stars and denials the two contain. *)
Theorem IsSubset_exact p q : IsSubset p q = true ↔ narrower p q.
Proof. apply IsSubset_narrower. Qed.

(** Authority only shrinks along a spawn chain.  However deep the run tree
    grows and whatever policies or tool lists the spawning agents ask for, a
    descendant may use no tool and provision no kind its root may not, and its
    child cap is at most the root's. *)
Theorem spawn_chain_narrower root descendant :
  rtc spawned_policy root descendant → narrower descendant root.
Proof.
  induction 1 as [|p q r [s ? ? Hr] _ IH]; [reflexivity|].
  etrans; [exact IH|]. by eapply resolvePolicy_narrower.
Qed.

Lemma spawn_chain_narrower_witness :
  narrower
    {| AllowTools := ["post_event"]; DenyTools := []; ResourceKinds := ["*"];
       MaxChildren := 16; ChildInherit := false |} DefaultRunPolicy.
Proof.
  apply (spawn_chain_narrower DefaultRunPolicy).
  apply rtc_once.
  apply (spawned_resolve (MkChildSpec "note" (Some ["post_event"]) None)).
  vm_compute. reflexivity.
Defined.

(** A spawn that names a policy is granted exactly that policy when it is
    no wider than the parent's, and is refused with the typed denial in every
    other case; a parent with [ChildInherit] hands down its own policy whatever
    is asked for. *)
Theorem resolvePolicy_complete s parent want :
  csPolicy s = Some want →
  (ChildInherit parent = true → resolvePolicy s parent = Ok parent) ∧
  (ChildInherit parent = false → narrower want parent → resolvePolicy s parent = Ok want) ∧
  (ChildInherit parent = false → ¬ narrower want parent →
     resolvePolicy s parent = Err (DeniedError "child policy escapes parent")).
Proof.
  intros Hs. unfold resolvePolicy. rewrite Hs.
  destruct (ChildInherit parent); [naive_solver|].
  rewrite <-(IsSubset_narrower want parent). destruct (IsSubset want parent); naive_solver.
Qed.

Lemma resolvePolicy_complete_witness :
  resolvePolicy (MkChildSpec "p" None (Some DefaultRunPolicy)) DefaultRunPolicy = Ok DefaultRunPolicy.
Proof.
  apply (resolvePolicy_complete (MkChildSpec "p" None (Some DefaultRunPolicy)) DefaultRunPolicy
           DefaultRunPolicy); reflexivity.
Defined.
