(* ===== verification/Domain.v ===== *)
(** * The domain types of package core

    Data of [event.go], [run.go], [multiplayer.go], [resource.go] and
    [credential.go]: identifiers, actors, events and their typed payloads,
    runs, steps, waits, resources and providers, with the small total
    functions that live beside them.

    Conventions.  Identifiers are strings.  A [time.Time] is a [Z] (ns); a
    pointer or a nullable column is an [option].  A Go [int] or [int64] is a
    [Z].  A [json.RawMessage] whose structure the code inspects is the JSON
    document it encodes ([json]); [None] is the empty message.  A run's history
    is what [json.Unmarshal] makes of it ([raw_history]). *)
From S2P Require Import Prelude Policy.

Notation TenantID := string (only parsing).
Notation SessionID := string (only parsing).
Notation RunID := string (only parsing).
Notation ResourceID := string (only parsing).
Notation ProviderInstanceID := string (only parsing).
Notation ResourceKind := string (only parsing).
Notation time := Z (only parsing).

(** ** JSON documents *)

(** [JNum] is an integer literal, [JFloat] any other number literal. *)
Inductive json : Type :=
  | JNull
  | JBool (b : bool)
  | JNum (z : Z)
  | JFloat (lit : string)
  | JStr (s : string)
  | JArr (l : list json)
  | JObj (fields : list (string * json)).

Definition lower_ascii (c : Ascii.ascii) : Ascii.ascii :=
  let n := Ascii.nat_of_ascii c in
  if (65 <=? n)%nat && (n <=? 90)%nat then Ascii.ascii_of_nat (n + 32) else c.

Fixpoint lower (s : string) : string :=
  match s with
  | EmptyString => EmptyString
  | String c s' => String (lower_ascii c) (lower s')
  end.

(** [encoding/json] matches object keys to struct fields ignoring case. *)
Definition key_matches (field key : string) : bool :=
  bool_decide (lower field = lower key).

Definition int64_min : Z := - 2 ^ 63.
Definition int64_max : Z := 2 ^ 63 - 1.

(** [int32(x)] of a 64-bit value keeps the low 32 bits. *)
Definition int32 (z : Z) : Z := ((z + 2 ^ 31) mod 2 ^ 32 - 2 ^ 31)%Z.

(** ** Actors *)

Record Actor := MkActor { actKind : string; actID : string; actDisplay : string }.

#[export] Instance Actor_eq_dec : EqDecision Actor.
Proof. solve_decision. Defined.

Definition ActorSystem : Actor := MkActor "system" "core" "".
Definition ActorAgent (id : RunID) : Actor := MkActor "agent" id "".

(** ** Runs *)

Inductive RunState :=
  | RunPending | RunRunning | RunAwaiting | RunCompleted | RunFailed | RunCancelled.

#[export] Instance RunState_eq_dec : EqDecision RunState.
Proof. solve_decision. Defined.

Definition Terminal (s : RunState) : bool :=
  match s with RunCompleted | RunFailed | RunCancelled => true | _ => false end.

Definition FailureCredentialMissing : string := "credential_missing".
Definition FailureCredentialInvalid : string := "credential_invalid".
Definition FailureProviderError : string := "provider_error".
Definition FailureInternal : string := "internal".

Inductive ModelConfig : Type :=
  MkModelConfig (Provider ModelID Credential : string) (Fallbacks : list ModelConfig).

(** The text of a tool result: plain text, or the text of a JSON document. *)
Inductive content :=
  | ContentText (s : string)
  | ContentJSON (j : json).

(** The messages of a run's history.  The loop itself writes user messages and
    tool results; what a model step returns is opaque to it. *)
Inductive message :=
  | UserMessage (text : string)
  | ToolResultMessage (toolCallID : string) (output : content) (isError : bool)
  | ModelMessage (repr : string).

Record Compaction := MkCompaction {
  cpAtStep : Z; cpCoveredMessages : Z; cpSummary : string;
}.

Record Envelope := MkEnvelope {
  envV : Z; envMessages : list message; envCompactions : list Compaction;
}.

(** A serialized envelope: nothing, a document that decodes into the envelope
    shape, or bytes [json.Unmarshal] rejects. *)
Inductive raw_history :=
  | RawEmpty
  | RawEnvelope (env : Envelope)
  | RawCorrupt.

Record AgentRun := MkAgentRun {
  ar_id : RunID;
  ar_session : SessionID;
  ar_tenant : TenantID;
  ar_parent : option RunID;
  ar_spawn_key : string;
  ar_cohort_id : string;
  ar_cohort_ordinal : Z;
  ar_policy : RunPolicy;
  ar_actor : Actor;
  ar_result : option json;
  ar_state : RunState;
  ar_loop_kind : string;
  ar_loop_version : Z;
  ar_model : ModelConfig;
  ar_prompt : string;
  ar_history : raw_history;
  ar_failure_reason : string;
  ar_failure_message : string;
  ar_cancel_requested_at : option time;
  ar_created_at : time;
  ar_updated_at : time;
}.

Record RunStep := MkRunStep {
  rs_run : RunID; rs_step_index : Z; rs_attempt : Z;
  rs_tokens_in : Z; rs_tokens_out : Z; rs_finish_reason : string; rs_created_at : time;
}.

(** ** Session memory *)

(** [me_value] is the encoded JSON, as bytes: the store only measures it. *)
Record SessionMemoryEntry := MkMemoryEntry {
  me_session : SessionID; me_key : string; me_value : string;
  me_updated_by : Actor; me_updated_at : time;
}.

Definition MaxMemoryKeys : Z := 200.
Definition MaxMemoryValue : Z := Z.shiftl 64 10.
Definition MaxMemoryKeyBytes : Z := 256.

(** ** Waits *)

Inductive WaitState := WaitOpen | WaitResolved | WaitTimedOut | WaitAbandoned.

#[export] Instance WaitState_eq_dec : EqDecision WaitState.
Proof. solve_decision. Defined.

Definition WaitKindWait : string := "wait".
Definition WaitKindCohort : string := "cohort".
Definition TimeoutPolicyResolve : string := "resolve".
Definition TimeoutPolicyFail : string := "fail".

Record RunWait := MkRunWait {
  rw_id : string;
  rw_parent : RunID;
  rw_step_index : Z;
  rw_tool_call_id : string;
  rw_kind : string;
  rw_state : WaitState;
  rw_timeout_policy : string;
  rw_deadline : time;
  rw_result : option json;
  rw_resumed_at : option time;
}.

(** [RunWait.Terminal] *)
Definition WaitTerminal (w : RunWait) : bool := negb (bool_decide (rw_state w = WaitOpen)).

Record RunWaitMember := MkRunWaitMember {
  wm_wait : string; wm_run : RunID; wm_ordinal : Z;
}.

#[export] Instance RunWaitMember_eq_dec : EqDecision RunWaitMember.
Proof. solve_decision. Defined.

Record WaitMemberResult := MkWaitMemberResult {
  wr_ordinal : Z; wr_run : RunID; wr_state : RunState; wr_result : option json;
  wr_failure_reason : string; wr_failure_message : string;
}.

Record WaitOutcome := MkWaitOutcome {
  wo_wait : string; wo_kind : string; wo_state : option WaitState; wo_timed_out : bool;
  wo_members : list WaitMemberResult;
  wo_completed : Z; wo_failed : Z; wo_cancelled : Z; wo_pending : Z;
}.

(** ** Resources and providers *)

Inductive ResourceState :=
  | ResourceRequested | ResourceProvisioning | ResourceReady | ResourceSuspended
  | ResourceTerminating | ResourceTerminated | ResourceFailed.

#[export] Instance ResourceState_eq_dec : EqDecision ResourceState.
Proof. solve_decision. Defined.

(** [ResourceState.Terminal] *)
Definition ResTerminal (s : ResourceState) : bool :=
  match s with ResourceTerminated | ResourceFailed => true | _ => false end.

Definition ResourceKindDevEnv : string := "dev_env".

Record Resource := MkResource {
  r_id : ResourceID;
  r_tenant : TenantID;
  r_session : SessionID;
  r_kind : ResourceKind;
  r_provider : ProviderInstanceID;
  r_state : ResourceState;
  r_spec : option json;
  r_handle : option json;
  r_endpoint : string;
  r_token_hash : string;
  r_token_enc : string;
  r_epoch : Z;
  r_failure_message : string;
  r_created_by : option RunID;
  r_created_at : time;
  r_updated_at : time;
  r_ready_at : option time;
  r_terminated_at : option time;
}.

(** [capability.go]: what one registration's control plane can do. *)
Record ProviderCapabilities := MkCapabilities {
  capKind : string; capSupported : list string; capNotes : gmap string string;
}.

Definition CapabilityServesToolEndpoint : string := "serves_tool_endpoint".

Fixpoint has_capability (supported : list string) (capability : string) : bool :=
  match supported with
  | [] => false
  | c :: rest => if bool_decide (c = capability) then true else has_capability rest capability
  end.

Definition Has (c : ProviderCapabilities) (capability : string) : bool :=
  has_capability (capSupported c) capability.

Definition Reason (c : ProviderCapabilities) (capability : string) : string :=
  if Has c capability then ""
  else match capNotes c !! capability with
       | Some note => note
       | None => "the provider does not support this capability"
       end.

Record ProviderInstance := MkProviderInstance {
  pi_id : ProviderInstanceID; pi_tenant : TenantID; pi_kind : string; pi_name : string;
  pi_config : json; pi_state : string; pi_capabilities : ProviderCapabilities;
  pi_last_healthy_at : option time; pi_created_at : time;
}.

(** [HandlePresent]: the first [json.Unmarshal] reads the [version] field as a
    Go [int]; [None] is its error. *)
Fixpoint probe_version (fields : list (string * json)) (acc : option Z) : option Z :=
  match fields with
  | [] => acc
  | (k, v) :: rest =>
      probe_version rest
        (if key_matches "version" k then
           match v, acc with
           | JNum z, Some _ =>
               if bool_decide (int64_min ≤ z ≤ int64_max)%Z then Some z else None
           | JNull, _ => acc
           | _, _ => None
           end
         else acc)
  end.

Definition HandlePresent (h : option json) : bool :=
  match h with
  | None | Some JNull | Some (JObj []) => false
  | Some (JObj fields) =>
      match probe_version fields (Some 0%Z) with
      | Some v =>
          if bool_decide (0 < v)%Z then true
          else negb (existsb (λ f, bool_decide (f.1 = "version")) fields)
      | None => true
      end
  | Some _ => true
  end.

(** ** Events *)

Definition EventKindUserMessage : string := "user_message".
Definition EventKindAnnotation : string := "annotation".
Definition EventKindRunStarted : string := "run_started".
Definition EventKindStepStarted : string := "step_started".
Definition EventKindTextDelta : string := "text_delta".
Definition EventKindReasoningDelta : string := "reasoning_delta".
Definition EventKindToolCallStart : string := "tool_call_started".
Definition EventKindToolResult : string := "tool_result".
Definition EventKindStepFinished : string := "step_finished".
Definition EventKindRunAwaiting : string := "run_awaiting".
Definition EventKindRunCompleted : string := "run_completed".
Definition EventKindRunFailed : string := "run_failed".
Definition EventKindRunCancelled : string := "run_cancelled".
Definition EventKindResourceRequested : string := "resource_requested".
Definition EventKindResourceProvisioning : string := "resource_provisioning".
Definition EventKindResourceReady : string := "resource_ready".
Definition EventKindResourceFailed : string := "resource_failed".
Definition EventKindResourceSuspended : string := "resource_suspended".
Definition EventKindResourceTerminating : string := "resource_terminating".
Definition EventKindResourceTerminated : string := "resource_terminated".
Definition EventKindExecPreviewRan : string := "exec_preview_ran".
Definition EventKindRunSpawned : string := "run_spawned".
Definition EventKindMemorySet : string := "memory_set".
Definition EventKindMemoryDeleted : string := "memory_deleted".
Definition EventKindPermissionDenied : string := "permission_denied".
Definition EventKindHistoryCompacted : string := "history_compacted".
Definition EventKindModelFallback : string := "model_fallback".
Definition EventKindHookFired : string := "hook_fired".
Definition EventKindPeriodicPromptFired : string := "periodic_prompt_fired".
Definition EventKindSessionLabelsChanged : string := "session_labels_changed".

Record ResourceEventPayload := MkResourceEventPayload {
  rep_resource : ResourceID; rep_kind : ResourceKind; rep_name : string;
  rep_provider : ProviderInstanceID; rep_endpoint : string; rep_message : string; rep_epoch : Z;
}.

Record MemoryEventPayload := MkMemoryEventPayload {
  mep_key : string; mep_updated_by_type : string; mep_updated_by_id : string; mep_value_json : string;
}.

Definition NewMemoryEventPayload (key : string) (updatedBy : Actor) (value : string) : MemoryEventPayload :=
  {| mep_key := key; mep_updated_by_type := actKind updatedBy;
     mep_updated_by_id := actID updatedBy; mep_value_json := value |}.

Record Question := MkQuestion { qText : string; qChoices : list string }.

Inductive payload :=
  | UserMessagePayload (text : string)
  | AnnotationPayload (text : string)
  | RunStartedPayload (run : RunID) (prompt : string)
  | StepStartedPayload (run : RunID) (stepIndex attempt : Z)
  | TextDeltaPayload (run : RunID) (stepIndex attempt deltaIndex : Z) (text : string)
  | ReasoningDeltaPayload (run : RunID) (stepIndex attempt deltaIndex : Z) (text : string)
  | ToolCallStartedPayload (run : RunID) (stepIndex : Z) (toolCallID name input : string)
  | ToolResultPayload (run : RunID) (stepIndex : Z) (toolCallID name : string) (c : content) (isError : bool)
  | StepFinishedPayload (run : RunID) (stepIndex tokensIn tokensOut : Z) (finishReason : string)
  | RunAwaitingPayload (run : RunID) (q : Question)
  | RunCompletedPayload (run : RunID) (finalText : string)
  | RunFailedPayload (run : RunID) (reason message : string)
  | RunCancelledPayload (run : RunID)
  | ResourcePayload (p : ResourceEventPayload)
  | ExecPreviewRanPayload (resource : ResourceID) (command output : string) (isError : bool)
  | RunSpawnedPayload (parent child : RunID)
  | MemoryPayload (p : MemoryEventPayload)
  | HistoryCompactedPayload (run : RunID) (coveredMessages summaryTokens : Z)
  | ModelFallbackPayload (run : RunID) (from to reason : string)
  | HookFiredPayload (hook : string) (run : RunID)
  | PeriodicPromptFiredPayload (run : RunID) (prompt : string)
  | PermissionDeniedPayload (run : RunID) (tool : string) (resource : option ResourceID) (reason : string)
  | SessionLabelsChangedPayload (labels : gmap string string)
  | RawPayload (bytes : string).

Record Event := MkEvent {
  ev_session : SessionID; ev_seq : Z; ev_ts : time; ev_actor : Actor;
  ev_kind : string; ev_payload : payload;
}.

(** What a caller passes to [Append]: the store fills in the rest. *)
Definition NewEvent (actor : Actor) (kind : string) (p : payload) : Event :=
  MkEvent "" 0 0 actor kind p.

(** ** Sessions *)

Record Session := MkSession {
  se_id : SessionID; se_tenant : TenantID; se_title : string;
  se_labels : gmap string string; se_last_seq : Z;
  se_created_at : time; se_archived_at : option time;
}.
