(* ===== verification/Text.v ===== *)
(** * Validated text: memory keys, session labels and the actor header

    [ValidMemoryKey] ([multiplayer.go]), [ValidateLabels] ([ultra.go]) with the
    UTF-8 rune count it relies on, and the [X-Core-Actor] header codec
    ([EncodeActorHeader], [ParseActorHeader], [split2] of [auth.go]) with the
    unpadded URL-safe base64 of its display part.

    A Go string is its bytes: a [string] whose characters are read as numbers
    below 256. *)
From S2P Require Import Prelude Policy Domain.

Definition byte_of (c : Ascii.ascii) : Z := Z.of_N (Ascii.N_of_ascii c).
Definition of_byte (n : Z) : Ascii.ascii := Ascii.ascii_of_N (Z.to_N n).
Definition slen (s : string) : Z := Z.of_nat (String.length s).

Fixpoint bytes_of (s : string) : list Z :=
  match s with EmptyString => [] | String c s' => byte_of c :: bytes_of s' end.
Fixpoint of_bytes (l : list Z) : string :=
  match l with [] => EmptyString | b :: l' => String (of_byte b) (of_bytes l') end.

Definition between (lo n hi : Z) : bool := (lo <=? n)%Z && (n <=? hi)%Z.

(** ** Memory keys *)

(** The characters of a segment: letters, digits, underscore and dash. *)
Definition key_char (c : Z) : bool :=
  between 97 c 122 || between 65 c 90 || between 48 c 57 || (c =? 95)%Z || (c =? 45)%Z.

(** The loop over the key's bytes, with the length of the current segment. *)
Fixpoint memory_key_loop (key : list Z) (segment : Z) : bool :=
  match key with
  | [] => (0 <? segment)%Z
  | c :: rest =>
      if (c =? 46)%Z then
        if (segment =? 0)%Z then false else memory_key_loop rest 0
      else if key_char c then memory_key_loop rest (segment + 1)
      else false
  end.

Definition ValidMemoryKey (key : string) : bool :=
  if bool_decide (key = "") || (MaxMemoryKeyBytes <? slen key)%Z then false
  else memory_key_loop (bytes_of key) 0.

(** The reference reading of the convention: split at every dot. *)
Fixpoint split_dots (l : list Z) : list (list Z) :=
  match l with
  | [] => [[]]
  | c :: rest =>
      if (c =? 46)%Z then [] :: split_dots rest
      else match split_dots rest with
           | seg :: segs => (c :: seg) :: segs
           | [] => [[c]]
           end
  end.

Definition good_segment (seg : list Z) : Prop :=
  seg ≠ [] ∧ Forall (λ c, key_char c = true) seg.

(** ** UTF-8: the number of runes of a string *)

(** The size in bytes of the rune at the head; an invalid byte is one rune. *)
Definition rune_size (l : list Z) : nat :=
  let cont c := between 128 c 191 in
  match l with
  | [] => 0
  | b0 :: rest =>
      if (b0 <? 128)%Z then 1
      else if between 194 b0 223 then
        match rest with b1 :: _ => if cont b1 then 2 else 1 | _ => 1 end
      else if between 224 b0 239 then
        match rest with
        | b1 :: b2 :: _ =>
            let lo := if (b0 =? 224)%Z then 160%Z else 128%Z in
            let hi := if (b0 =? 237)%Z then 159%Z else 191%Z in
            if between lo b1 hi && cont b2 then 3 else 1
        | _ => 1
        end
      else if between 240 b0 244 then
        match rest with
        | b1 :: b2 :: b3 :: _ =>
            let lo := if (b0 =? 240)%Z then 144%Z else 128%Z in
            let hi := if (b0 =? 244)%Z then 143%Z else 191%Z in
            if between lo b1 hi && cont b2 && cont b3 then 4 else 1
        | _ => 1
        end
      else 1
  end.

(** Every rune takes at least one byte, so the length is enough fuel. *)
Fixpoint rune_count_fuel (fuel : nat) (l : list Z) : Z :=
  match fuel with
  | O => 0
  | S fuel' =>
      match l with
      | [] => 0
      | _ => 1 + rune_count_fuel fuel' (drop (rune_size l) l)
      end
  end.

Definition RuneCountInString (s : string) : Z :=
  rune_count_fuel (String.length s) (bytes_of s).

(** ** Session labels *)

Definition MaxSessionLabels : Z := 16.
Definition MaxSessionLabelKeyLen : Z := 128.
Definition MaxSessionLabelValLen : Z := 128.

Inductive label_error :=
  | TooManyLabels
  | EmptyLabelKey
  | LabelKeyTooLong (k : string)
  | LabelValueTooLong (k : string).

Definition check_label (kv : string * string) : option label_error :=
  let '(k, v) := kv in
  if bool_decide (k = "") then Some EmptyLabelKey
  else if (MaxSessionLabelKeyLen <? RuneCountInString k)%Z then Some (LabelKeyTooLong k)
  else if (MaxSessionLabelValLen <? RuneCountInString v)%Z then Some (LabelValueTooLong k)
  else None.

Fixpoint check_labels (l : list (string * string)) : option label_error :=
  match l with
  | [] => None
  | kv :: rest => match check_label kv with Some e => Some e | None => check_labels rest end
  end.

(** [None] is success.  Go ranges over the map in an unspecified order, so
    which of several errors is reported is unspecified too. *)
Definition ValidateLabels (labels : gmap string string) : option label_error :=
  if (MaxSessionLabels <? Z.of_nat (size labels))%Z then Some TooManyLabels
  else check_labels (map_to_list labels).

(** ** Unpadded URL-safe base64 *)

(** The alphabet A-Z a-z 0-9 - _ . *)
Definition b64_char (n : Z) : Z :=
  if (n <? 26)%Z then n + 65
  else if (n <? 52)%Z then n + 71
  else if (n <? 62)%Z then n - 4
  else if (n =? 62)%Z then 45 else 95.

Definition b64_value (c : Z) : option Z :=
  if between 65 c 90 then Some (c - 65)%Z
  else if between 97 c 122 then Some (c - 71)%Z
  else if between 48 c 57 then Some (c + 4)%Z
  else if (c =? 45)%Z then Some 62%Z
  else if (c =? 95)%Z then Some 63%Z
  else None.

Fixpoint b64_encode (l : list Z) : list Z :=
  match l with
  | [] => []
  | [a] => [b64_char (Z.shiftr a 2); b64_char (Z.shiftl (Z.land a 3) 4)]
  | [a; b] =>
      [b64_char (Z.shiftr a 2);
       b64_char (Z.lor (Z.shiftl (Z.land a 3) 4) (Z.shiftr b 4));
       b64_char (Z.shiftl (Z.land b 15) 2)]
  | a :: b :: c :: rest =>
      b64_char (Z.shiftr a 2)
      :: b64_char (Z.lor (Z.shiftl (Z.land a 3) 4) (Z.shiftr b 4))
      :: b64_char (Z.lor (Z.shiftl (Z.land b 15) 2) (Z.shiftr c 6))
      :: b64_char (Z.land c 63)
      :: b64_encode rest
  end.

(** The sextets of the input; carriage returns and newlines are skipped and
    any other foreign byte is an error. *)
Fixpoint b64_sextets (l : list Z) : option (list Z) :=
  match l with
  | [] => Some []
  | c :: rest =>
      if (c =? 10)%Z || (c =? 13)%Z then b64_sextets rest
      else match b64_value c, b64_sextets rest with
           | Some v, Some vs => Some (v :: vs)
           | _, _ => None
           end
  end.

Definition byte_mask (n : Z) : Z := Z.land n 255.

Fixpoint b64_join (l : list Z) : option (list Z) :=
  match l with
  | [] => Some []
  | [_] => None
  | [p; q] => Some [byte_mask (Z.lor (Z.shiftl p 2) (Z.shiftr q 4))]
  | [p; q; r] =>
      Some [byte_mask (Z.lor (Z.shiftl p 2) (Z.shiftr q 4));
            byte_mask (Z.lor (Z.shiftl q 4) (Z.shiftr r 2))]
  | p :: q :: r :: s :: rest =>
      match b64_join rest with
      | Some bytes =>
          Some (byte_mask (Z.lor (Z.shiftl p 2) (Z.shiftr q 4))
                :: byte_mask (Z.lor (Z.shiftl q 4) (Z.shiftr r 2))
                :: byte_mask (Z.lor (Z.shiftl r 6) s)
                :: bytes)
      | None => None
      end
  end.

Definition b64_decode (l : list Z) : option (list Z) :=
  match b64_sextets l with Some vs => b64_join vs | None => None end.

(** ** The actor header *)

(** Byte 47. *)
Definition slash : Ascii.ascii := Ascii.Ascii true true true true false true false false.

(** [split2]: cut at the first separator. *)
Fixpoint split2 (s : string) (sep : Ascii.ascii) : string * string * bool :=
  match s with
  | EmptyString => (EmptyString, EmptyString, false)
  | String c rest =>
      if Ascii.eqb c sep then (EmptyString, rest, true)
      else let '(l, r, ok) := split2 rest sep in (String c l, r, ok)
  end.

Definition EncodeActorHeader (a : Actor) : string :=
  if bool_decide (actDisplay a = "") then String.append (actKind a) (String.append "/" (actID a))
  else String.append (actKind a) (String.append "/" (String.append (actID a) (String.append "/"
         (of_bytes (b64_encode (bytes_of (actDisplay a))))))).

Definition ParseActorHeader (s : string) : Actor :=
  if bool_decide (s = "") then MkActor "" "" ""
  else
    let '(kind, rest, ok) := split2 s slash in
    if negb ok then MkActor s "" ""
    else
      let '(id, enc, ok2) := split2 rest slash in
      if negb ok2 then MkActor kind rest ""
      else match b64_decode (bytes_of enc) with
           | Some display => MkActor kind id (of_bytes display)
           | None => MkActor kind id enc
           end.

(** The separator does not occur in the string. *)
Fixpoint lacks (sep : Ascii.ascii) (s : string) : bool :=
  match s with
  | EmptyString => true
  | String c rest => negb (Ascii.eqb c sep) && lacks sep rest
  end.

(** ** Lemmas *)

Lemma byte_of_range c : (0 ≤ byte_of c < 256)%Z.
Proof.
  unfold byte_of. pose proof (Ascii.N_ascii_bounded c). lia.
Qed.

Lemma of_byte_byte_of c : of_byte (byte_of c) = c.
Proof. unfold of_byte, byte_of. rewrite N2Z.id. apply Ascii.ascii_N_embedding. Qed.

Lemma byte_of_of_byte n : (0 ≤ n < 256)%Z → byte_of (of_byte n) = n.
Proof.
  intros Hn. unfold of_byte, byte_of. rewrite Ascii.N_ascii_embedding by lia. lia.
Qed.

Lemma of_bytes_bytes_of s : of_bytes (bytes_of s) = s.
Proof. induction s as [|c s IH]; simpl; [done|]. by rewrite of_byte_byte_of, IH. Qed.

Lemma bytes_of_of_bytes l : Forall (λ n, 0 ≤ n < 256)%Z l → bytes_of (of_bytes l) = l.
Proof.
  induction 1 as [|n l Hn _ IH]; simpl; [done|]. by rewrite byte_of_of_byte, IH.
Qed.

Lemma bytes_of_range s : Forall (λ n, 0 ≤ n < 256)%Z (bytes_of s).
Proof. induction s; simpl; constructor; auto using byte_of_range. Qed.

Lemma length_bytes_of s : length (bytes_of s) = String.length s.
Proof. induction s; simpl; congruence. Qed.

Lemma split_dots_nonempty l : split_dots l ≠ [].
Proof. destruct l as [|c l]; simpl; [done|]. case_match; [done|]. by case_match. Qed.

(** The loop checks the rest of the current segment and all later segments. *)
Lemma memory_key_loop_spec l n : (0 ≤ n)%Z →
  memory_key_loop l n = true ↔
  match split_dots l with
  | seg :: segs => (0 < n + Z.of_nat (length seg))%Z ∧ Forall (λ c, key_char c = true) seg ∧
                   Forall good_segment segs
  | [] => False
  end.
Proof.
  revert n. induction l as [|c l IH]; intros n Hn; simpl.
  { rewrite Z.ltb_lt. split; [|intros [? _]; lia].
    intros ?. split_and!; [lia|constructor..]. }
  pose proof (split_dots_nonempty l) as Hne. revert IH Hne.
  destruct (split_dots l) as [|seg segs]; [done|]. intros IH _.
  destruct (Z.eqb_spec c 46) as [->|Hc].
  - destruct (Z.eqb_spec n 0) as [->|Hn0]; simpl.
    + split; [done|]. intros [? _]. lia.
    + rewrite IH by lia. split.
      * intros (? & ? & ?). split_and!; [lia|constructor|]. constructor; [|done].
        split; [|done]. intros ->. simpl in *. lia.
      * intros (_ & _ & [[? ?] ?]%Forall_cons). split_and!; [|done..].
        destruct seg; [done|]. simpl. lia.
  - simpl. destruct (key_char c) eqn:Ek; [|split; [done|]; rewrite Forall_cons; naive_solver].
    rewrite IH by lia. rewrite Forall_cons. naive_solver lia.
Qed.

Lemma rune_size_pos l : l ≠ [] → (1 ≤ rune_size l ≤ length l)%nat.
Proof.
  destruct l as [|b0 rest]; [done|]. intros _. unfold rune_size. simpl.
  repeat case_match; simpl; lia.
Qed.

(** The length of the input is enough fuel: more never changes the count. *)
Lemma rune_count_fuel_enough fuel l :
  (length l ≤ fuel)%nat → rune_count_fuel fuel l = rune_count_fuel (length l) l.
Proof.
  revert fuel. induction l as [l IH] using (induction_ltof1 _ length). unfold ltof in IH.
  intros fuel Hf. destruct l as [|b l']; [by destruct fuel|].
  destruct fuel as [|fuel]; [simpl in Hf; lia|].
  pose proof (rune_size_pos (b :: l') ltac:(done)) as Hs. simpl length in *.
  cbn [rune_count_fuel]. f_equal.
  set (k := rune_size (b :: l')) in *. clearbody k.
  assert (length (drop k (b :: l')) < S (length l'))%nat by (rewrite length_drop; simpl; lia).
  assert (length (drop k (b :: l')) ≤ length l')%nat by lia.
  rewrite (IH (drop k (b :: l'))) by lia.
  symmetry. apply IH; lia.
Qed.

Lemma rune_count_step l :
  l ≠ [] → rune_count_fuel (length l) l =
  (1 + rune_count_fuel (length (drop (rune_size l) l)) (drop (rune_size l) l))%Z.
Proof.
  destruct l as [|b l']; [done|]. intros _. cbn [length rune_count_fuel]. f_equal.
  apply rune_count_fuel_enough. pose proof (rune_size_pos (b :: l') ltac:(done)).
  rewrite length_drop. simpl in *. lia.
Qed.

Lemma rune_count_bounds l :
  (0 ≤ rune_count_fuel (length l) l ≤ Z.of_nat (length l))%Z.
Proof.
  induction l as [l IH] using (induction_ltof1 _ length). unfold ltof in IH.
  destruct l as [|b l']; [done|]. rewrite rune_count_step by done.
  pose proof (rune_size_pos (b :: l') ltac:(done)) as Hs.
  specialize (IH (drop (rune_size (b :: l')) (b :: l'))).
  rewrite !length_drop in *. simpl length in *. lia.
Qed.

Lemma check_labels_None l : check_labels l = None ↔ Forall (λ kv, check_label kv = None) l.
Proof.
  induction l as [|kv l IH]; simpl; [by split; constructor|].
  rewrite Forall_cons. destruct (check_label kv); naive_solver.
Qed.

Lemma check_label_None k v :
  check_label (k, v) = None ↔
  k ≠ "" ∧ (RuneCountInString k ≤ MaxSessionLabelKeyLen)%Z ∧
  (RuneCountInString v ≤ MaxSessionLabelValLen)%Z.
Proof.
  unfold check_label. case_bool_decide; [naive_solver|].
  destruct (Z.ltb_spec MaxSessionLabelKeyLen (RuneCountInString k)); [naive_solver lia|].
  destruct (Z.ltb_spec MaxSessionLabelValLen (RuneCountInString v)); naive_solver lia.
Qed.

(** Finite checks, decided by evaluation. *)
Definition below (n : nat) : list Z := Z.of_nat <$> seq 0 n.

Lemma elem_of_below k n : (0 ≤ n < Z.of_nat k)%Z → n ∈ below k.
Proof.
  intros Hn. unfold below. apply list_elem_of_fmap. exists (Z.to_nat n).
  split; [lia|]. apply elem_of_seq. lia.
Qed.

Lemma check3 (f : Z → Z → Z → bool) i j k a b c :
  forallb (λ a, forallb (λ b, forallb (f a b) (below k)) (below j)) (below i) = true →
  (0 ≤ a < Z.of_nat i)%Z → (0 ≤ b < Z.of_nat j)%Z → (0 ≤ c < Z.of_nat k)%Z →
  f a b c = true.
Proof.
  rewrite forallb_elem. setoid_rewrite forallb_elem. setoid_rewrite forallb_elem.
  intros H Ha Hb Hc. apply H; by apply elem_of_below.
Qed.

(** A sextet survives the alphabet, and is not one of the skipped bytes. *)
Lemma b64_sextets_char n l : (0 ≤ n < 64)%Z →
  b64_sextets (b64_char n :: l) = (cons n) <$> b64_sextets l.
Proof.
  intros Hn.
  pose proof (check3 (λ a _ _,
    negb (b64_char a =? 10)%Z && negb (b64_char a =? 13)%Z &&
     match b64_value (b64_char a) with Some v => (v =? a)%Z | None => false end) 64 1 1 n 0 0
     ltac:(vm_compute; reflexivity) ltac:(lia) ltac:(lia) ltac:(lia)) as H.
  simpl in H. apply andb_true_iff in H as [[H1 H2]%andb_true_iff H3].
  destruct (b64_value (b64_char n)) as [v|] eqn:E; [|done]. apply Z.eqb_eq in H3 as ->.
  simpl. apply negb_true_iff in H1, H2. rewrite H1, H2, E. simpl.
  by destruct (b64_sextets l).
Qed.

Definition sextet (n : Z) : bool := between 0 n 63.

Lemma sextet_range n : sextet n = true → (0 ≤ n < 64)%Z.
Proof. unfold sextet, between. rewrite andb_true_iff, !Z.leb_le. lia. Qed.

(** The shifts of the encoder, undone by those of the decoder. *)
Lemma b64_first a v : (0 ≤ a < 256)%Z → (0 ≤ v < 16)%Z →
  sextet (Z.shiftr a 2) = true ∧ sextet (Z.lor (Z.shiftl (Z.land a 3) 4) v) = true ∧
  byte_mask (Z.lor (Z.shiftl (Z.shiftr a 2) 2)
                   (Z.shiftr (Z.lor (Z.shiftl (Z.land a 3) 4) v) 4)) = a.
Proof.
  intros Ha Hv. pose proof (check3 (λ a v _,
    sextet (Z.shiftr a 2) && sextet (Z.lor (Z.shiftl (Z.land a 3) 4) v) &&
    (byte_mask (Z.lor (Z.shiftl (Z.shiftr a 2) 2)
       (Z.shiftr (Z.lor (Z.shiftl (Z.land a 3) 4) v) 4)) =? a)%Z) 256 16 1 a v 0
    ltac:(vm_compute; reflexivity) ltac:(lia) ltac:(lia) ltac:(lia)) as H.
  simpl in H. apply andb_true_iff in H as [[? ?]%andb_true_iff ?%Z.eqb_eq]. done.
Qed.

Lemma b64_second u b v : (0 ≤ u < 4)%Z → (0 ≤ b < 256)%Z → (0 ≤ v < 4)%Z →
  sextet (Z.lor (Z.shiftl (Z.land b 15) 2) v) = true ∧
  byte_mask (Z.lor (Z.shiftl (Z.lor (Z.shiftl u 4) (Z.shiftr b 4)) 4)
                   (Z.shiftr (Z.lor (Z.shiftl (Z.land b 15) 2) v) 2)) = b.
Proof.
  intros Hu Hb Hv. pose proof (check3 (λ u b v,
    sextet (Z.lor (Z.shiftl (Z.land b 15) 2) v) &&
    (byte_mask (Z.lor (Z.shiftl (Z.lor (Z.shiftl u 4) (Z.shiftr b 4)) 4)
       (Z.shiftr (Z.lor (Z.shiftl (Z.land b 15) 2) v) 2)) =? b)%Z) 4 256 4 u b v
    ltac:(vm_compute; reflexivity) ltac:(lia) ltac:(lia) ltac:(lia)) as H.
  simpl in H. apply andb_true_iff in H as [? ?%Z.eqb_eq]. done.
Qed.

Lemma b64_third u c : (0 ≤ u < 16)%Z → (0 ≤ c < 256)%Z →
  sextet (Z.land c 63) = true ∧
  byte_mask (Z.lor (Z.shiftl (Z.lor (Z.shiftl u 2) (Z.shiftr c 6)) 6) (Z.land c 63)) = c.
Proof.
  intros Hu Hc. pose proof (check3 (λ u c _,
    sextet (Z.land c 63) &&
    (byte_mask (Z.lor (Z.shiftl (Z.lor (Z.shiftl u 2) (Z.shiftr c 6)) 6) (Z.land c 63)) =? c)%Z)
    16 256 1 u c 0
    ltac:(vm_compute; reflexivity) ltac:(lia) ltac:(lia) ltac:(lia)) as H.
  simpl in H. apply andb_true_iff in H as [? ?%Z.eqb_eq]. done.
Qed.

Lemma byte_parts a : (0 ≤ a < 256)%Z →
  (0 ≤ Z.land a 3 < 4)%Z ∧ (0 ≤ Z.land a 15 < 16)%Z ∧ (0 ≤ Z.shiftr a 4 < 16)%Z ∧
  (0 ≤ Z.shiftr a 6 < 4)%Z.
Proof.
  intros Ha. change 3%Z with (Z.ones 2). change 15%Z with (Z.ones 4).
  rewrite !Z.land_ones, !Z.shiftr_div_pow2 by lia.
  change (2 ^ 2)%Z with 4%Z. change (2 ^ 4)%Z with 16%Z. change (2 ^ 6)%Z with 64%Z.
  pose proof (Z.mod_pos_bound a 4). pose proof (Z.mod_pos_bound a 16).
  split_and!; try lia; try (apply Z.div_pos; lia); apply Z.div_lt_upper_bound; lia.
Qed.

Lemma b64_roundtrip l : Forall (λ n, 0 ≤ n < 256)%Z l → b64_decode (b64_encode l) = Some l.
Proof.
  unfold b64_decode. induction l as [l IH] using (induction_ltof1 _ length). unfold ltof in IH.
  destruct l as [|a [|b [|c rest]]]; [done|..]; rewrite ?Forall_cons; intros; destruct_and!;
    pose proof (byte_parts a ltac:(done)) as (Ha1 & Ha2 & Ha3 & Ha4).
  - destruct (b64_first a 0) as (?%sextet_range & E2 & E3); [done|lia|].
    rewrite Z.lor_0_r in E2, E3. apply sextet_range in E2. cbn [b64_encode].
    rewrite !b64_sextets_char by done. cbn. by rewrite E3.
  - pose proof (byte_parts b ltac:(done)) as (Hb1 & Hb2 & Hb3 & Hb4).
    destruct (b64_first a (Z.shiftr b 4)) as (?%sextet_range & ?%sextet_range & E3); [done..|].
    destruct (b64_second (Z.land a 3) b 0) as (E4 & E5); [done|done|lia|].
    rewrite Z.lor_0_r in E4, E5. apply sextet_range in E4. cbn [b64_encode].
    rewrite !b64_sextets_char by done. cbn. by rewrite E3, E5.
  - pose proof (byte_parts b ltac:(done)) as (Hb1 & Hb2 & Hb3 & Hb4).
    pose proof (byte_parts c ltac:(done)) as (Hc1 & Hc2 & Hc3 & Hc4).
    destruct (b64_first a (Z.shiftr b 4)) as (?%sextet_range & ?%sextet_range & E3); [done..|].
    destruct (b64_second (Z.land a 3) b (Z.shiftr c 6)) as (?%sextet_range & E5); [done..|].
    destruct (b64_third (Z.land b 15) c) as (?%sextet_range & E7); [done..|].
    specialize (IH rest ltac:(simpl; lia) ltac:(done)). cbn [b64_encode].
    rewrite !b64_sextets_char by done.
    destruct (b64_sextets (b64_encode rest)); [|done]. cbn in *. by rewrite IH, E3, E5, E7.
Qed.

Lemma split2_app sep l r :
  lacks sep l = true → split2 (String.append l (String sep r)) sep = (l, r, true).
Proof.
  induction l as [|c l IH]; simpl.
  - by rewrite Ascii.eqb_refl.
  - intros [Hc Hl]%andb_true_iff. apply negb_true_iff in Hc. by rewrite Hc, IH.
Qed.

Lemma split2_slash l r :
  lacks slash l = true → split2 (String.append l (String.append "/" r)) slash = (l, r, true).
Proof. exact (split2_app slash l r). Qed.

Lemma split2_lacks sep s : lacks sep s = true → split2 s sep = (s, "", false).
Proof.
  induction s as [|c s IH]; simpl; [done|].
  intros [Hc Hl]%andb_true_iff. apply negb_true_iff in Hc. by rewrite Hc, IH.
Qed.

Lemma b64_char_byte n : (0 ≤ n)%Z → (0 ≤ b64_char n < 256)%Z.
Proof. intros Hn. unfold b64_char. repeat case_match; rewrite ?Z.ltb_lt, ?Z.ltb_ge in *; lia. Qed.

Lemma b64_encode_bytes l :
  Forall (λ n, 0 ≤ n < 256)%Z l → Forall (λ n, 0 ≤ n < 256)%Z (b64_encode l).
Proof.
  induction l as [l IH] using (induction_ltof1 _ length). unfold ltof in IH.
  destruct l as [|a [|b [|c rest]]]; rewrite ?Forall_cons; intros; destruct_and?;
    cbn [b64_encode]; repeat (apply Forall_cons; split); try done;
    try (apply b64_char_byte; repeat first
      [ apply Z.lor_nonneg; split | apply Z.shiftr_nonneg | apply Z.shiftl_nonneg
      | apply Z.land_nonneg; right ]; lia).
  apply IH; [simpl; lia|done].
Qed.

(** ** Properties *)

(** [ValidMemoryKey] is the dotted-namespace convention.  A key is
    accepted exactly when it is not empty, has at most 256 bytes, and every
    segment between dots is a non-empty run of letters, digits, underscores
    and dashes. *)
Theorem ValidMemoryKey_spec key :
  ValidMemoryKey key = true ↔
  key ≠ "" ∧ (slen key ≤ 256)%Z ∧ Forall good_segment (split_dots (bytes_of key)).
Proof.
  unfold ValidMemoryKey, MaxMemoryKeyBytes.
  destruct (Z.ltb_spec 256 (slen key)); [rewrite orb_true_r; naive_solver lia|].
  rewrite orb_false_r. case_bool_decide as He; [naive_solver|].
  rewrite memory_key_loop_spec by lia.
  pose proof (split_dots_nonempty (bytes_of key)) as Hne.
  destruct (split_dots (bytes_of key)) as [|seg segs]; [done|].
  rewrite Forall_cons. unfold good_segment at 2.
  split; intros; destruct_and!; split_and!; try done.
  - intros ->. simpl in *. lia.
  - destruct seg; [done|simpl; lia].
Qed.

(** [ValidateLabels] accepts a label map exactly when it has at most 16
    pairs, no empty key, and no key or value of more than 128 characters,
    counted in runes. *)
Theorem ValidateLabels_spec labels :
  ValidateLabels labels = None ↔
  (Z.of_nat (size labels) ≤ 16)%Z ∧
  map_Forall (λ k v, k ≠ "" ∧ (RuneCountInString k ≤ 128)%Z ∧ (RuneCountInString v ≤ 128)%Z) labels.
Proof.
  unfold ValidateLabels, MaxSessionLabels.
  destruct (Z.ltb_spec 16 (Z.of_nat (size labels))); [naive_solver lia|].
  rewrite check_labels_None, Forall_forall. unfold map_Forall.
  setoid_rewrite <-elem_of_map_to_list. setoid_rewrite <-check_label_None.
  split; [naive_solver|]. intros [_ H'] [k v]. apply H'.
Qed.

(** The actor header is reversible.  Whatever the display text, encoding
    an actor and parsing the header gives the actor back, as long as the kind
    and the id contain no slash. *)
Theorem actor_header_roundtrip a :
  lacks slash (actKind a) = true → lacks slash (actID a) = true →
  ParseActorHeader (EncodeActorHeader a) = a.
Proof.
  destruct a as [kind id display]; simpl. intros Hk Hi.
  assert (∀ r, String.append kind (String.append "/" r) ≠ "") as Hne by (by destruct kind).
  unfold EncodeActorHeader; simpl. destruct (decide (display = "")) as [->|Hd].
  - rewrite (bool_decide_eq_true_2 _ eq_refl). unfold ParseActorHeader.
    rewrite (bool_decide_eq_false_2 _ (Hne id)).
    by rewrite split2_slash, split2_lacks by done.
  - rewrite (bool_decide_eq_false_2 _ Hd). unfold ParseActorHeader.
    rewrite (bool_decide_eq_false_2 _ (Hne _)).
    rewrite split2_slash, split2_slash by done. simpl.
    rewrite bytes_of_of_bytes by (apply b64_encode_bytes, bytes_of_range).
    rewrite b64_roundtrip by apply bytes_of_range. by rewrite of_bytes_bytes_of.
Qed.

Lemma actor_header_roundtrip_witness :
  ParseActorHeader (EncodeActorHeader (MkActor "user" "u-1" "Ada/L.")) = MkActor "user" "u-1" "Ada/L.".
Proof. apply (actor_header_roundtrip (MkActor "user" "u-1" "Ada/L.")); reflexivity. Defined.

(** The header's wire form, on the example the encoder's comment gives. *)
Example encode_actor_example :
  EncodeActorHeader (MkActor "user" "u-1" "Ada") = "user/u-1/QWRh".
Proof. vm_compute. reflexivity. Qed.

(** Runes, not bytes: a two-byte and a four-byte character count once each,
    and a lone continuation byte counts as one. *)
Example rune_count_example :
  rune_count_fuel 7 [195; 169; 240; 159; 152; 128; 128]%Z = 3%Z.
Proof. vm_compute. reflexivity. Qed.
