(* ===== verification/Store.v ===== *)
(** * The Postgres store (package [postgres])

    The database is a record of tables ([DB]).  Every store method is one
    definition in the state-and-error monad over [DB], with the tenant of the
    scope as an argument; the [WHERE] clauses, unique indexes, foreign keys
    and [RowsAffected] checks of the SQL are spelled out.  A transaction is
    all or nothing ([Tx]), and a nested transaction joins the outer one.

    [now()] is the [db_now] field: it does not move inside a transaction.
    Row locks ([FOR UPDATE]) have no counterpart: a definition of this file
    runs to completion, and the interleavings a lock admits are sequences of
    whole transactions.  The order of a result without [ORDER BY] is the map's
    enumeration order, and nothing proved below depends on it. *)
From S2P Require Import Prelude Policy Domain Text.

(** ** Jobs ([jobqueue]): a row of the queue, written by the same transaction *)

Inductive Job :=
  | StepJob (run : RunID) (tenant : TenantID) (session : SessionID) (stepIndex : Z)
  | WaitTimeoutJob (tenant : TenantID)
  | ProvisionJob (tenant : TenantID) (resource : ResourceID)
  | TerminateJob (tenant : TenantID) (resource : ResourceID)
  | ReconcileJob (tenant : TenantID) (resource : ResourceID)
  | RestartJob (tenant : TenantID) (resource : ResourceID).

#[export] Instance Job_eq_dec : EqDecision Job.
Proof. solve_decision. Defined.

(** [qj_at] is [WithScheduledAt]; [None] is immediate. *)
Record QueuedJob := MkQueuedJob { qj_job : Job; qj_at : option time }.

(** ** The database *)

Record DB := MkDB {
  db_now : time;
  db_sessions : gmap SessionID Session;
  db_events : list Event;
  db_runs : gmap RunID AgentRun;
  db_steps : list RunStep;
  db_waits : gmap string RunWait;
  db_members : list RunWaitMember;
  db_memory : gmap (SessionID * string) SessionMemoryEntry;
  db_resources : gmap ResourceID Resource;
  db_providers : gmap ProviderInstanceID ProviderInstance;
  db_jobs : list QueuedJob;
}.

Definition empty_db : DB := MkDB 0 ∅ [] ∅ [] ∅ [] ∅ ∅ ∅ [].

Definition with_sessions (x : gmap SessionID Session) (d : DB) : DB :=
  MkDB (db_now d) x (db_events d) (db_runs d) (db_steps d) (db_waits d) (db_members d)
    (db_memory d) (db_resources d) (db_providers d) (db_jobs d).
Definition with_events (x : list Event) (d : DB) : DB :=
  MkDB (db_now d) (db_sessions d) x (db_runs d) (db_steps d) (db_waits d) (db_members d)
    (db_memory d) (db_resources d) (db_providers d) (db_jobs d).
Definition with_runs (x : gmap RunID AgentRun) (d : DB) : DB :=
  MkDB (db_now d) (db_sessions d) (db_events d) x (db_steps d) (db_waits d) (db_members d)
    (db_memory d) (db_resources d) (db_providers d) (db_jobs d).
Definition with_steps (x : list RunStep) (d : DB) : DB :=
  MkDB (db_now d) (db_sessions d) (db_events d) (db_runs d) x (db_waits d) (db_members d)
    (db_memory d) (db_resources d) (db_providers d) (db_jobs d).
Definition with_waits (x : gmap string RunWait) (d : DB) : DB :=
  MkDB (db_now d) (db_sessions d) (db_events d) (db_runs d) (db_steps d) x (db_members d)
    (db_memory d) (db_resources d) (db_providers d) (db_jobs d).
Definition with_members (x : list RunWaitMember) (d : DB) : DB :=
  MkDB (db_now d) (db_sessions d) (db_events d) (db_runs d) (db_steps d) (db_waits d) x
    (db_memory d) (db_resources d) (db_providers d) (db_jobs d).
Definition with_memory (x : gmap (SessionID * string) SessionMemoryEntry) (d : DB) : DB :=
  MkDB (db_now d) (db_sessions d) (db_events d) (db_runs d) (db_steps d) (db_waits d)
    (db_members d) x (db_resources d) (db_providers d) (db_jobs d).
Definition with_resources (x : gmap ResourceID Resource) (d : DB) : DB :=
  MkDB (db_now d) (db_sessions d) (db_events d) (db_runs d) (db_steps d) (db_waits d)
    (db_members d) (db_memory d) x (db_providers d) (db_jobs d).
Definition with_providers (x : gmap ProviderInstanceID ProviderInstance) (d : DB) : DB :=
  MkDB (db_now d) (db_sessions d) (db_events d) (db_runs d) (db_steps d) (db_waits d)
    (db_members d) (db_memory d) (db_resources d) x (db_jobs d).
Definition with_jobs (x : list QueuedJob) (d : DB) : DB :=
  MkDB (db_now d) (db_sessions d) (db_events d) (db_runs d) (db_steps d) (db_waits d)
    (db_members d) (db_memory d) (db_resources d) (db_providers d) x.

(** ** Transactions ([Store.Tx], [TxEnqueuer.EnqueueInTx]) *)

(** A [*Store] value is bound to a transaction or not. *)
Inductive handle := Pool | TxBound.

Definition Tx {A} (h : handle) (fn : handle → M DB A) : M DB A :=
  match h with
  | TxBound => fn TxBound
  | Pool => atomically (fn TxBound)
  end.

Definition EnqueueInTx (h : handle) (job : Job) (at_ : option time) : M DB unit :=
  match h with
  | Pool => throw (ErrorText "postgres: EnqueueInTx requires a transaction-bound store")
  | TxBound => modify (λ d, with_jobs (db_jobs d ++ [MkQueuedJob job at_]) d)
  end.

(** ** SQL helpers *)

Definition rows {K A} `{Countable K} (m : gmap K A) : list A := (map_to_list m).*2.

(** [ORDER BY key] *)
Definition key_le {A} (key : A → Z) : relation A := λ x y, (key x ≤ key y)%Z.
#[export] Instance key_le_dec {A} (key : A → Z) : RelDecision (key_le key).
Proof. unfold key_le. intros x y. apply _. Defined.
Definition order_by {A} (key : A → Z) (l : list A) : list A := merge_sort (key_le key) l.

(** [ORDER BY k1, k2] *)
Definition key2_le {A} (k1 k2 : A → Z) : relation A := λ x y,
  (k1 x < k1 y ∨ (k1 x = k1 y ∧ k2 x ≤ k2 y))%Z.
#[export] Instance key2_le_dec {A} (k1 k2 : A → Z) : RelDecision (key2_le k1 k2).
Proof. unfold key2_le. intros x y. apply _. Defined.
Definition order_by2 {A} (k1 k2 : A → Z) (l : list A) : list A := merge_sort (key2_le k1 k2) l.

(** [ORDER BY key] on text, compared byte by byte. *)
Definition text_le {A} (key : A → string) : relation A := λ x y, String.leb (key x) (key y) = true.
#[export] Instance text_le_dec {A} (key : A → string) : RelDecision (text_le key).
Proof. unfold text_le. intros x y. apply _. Defined.
Definition order_by_text {A} (key : A → string) (l : list A) : list A := merge_sort (text_le key) l.

(** The session row of a tenant. *)
Definition session_of (d : DB) (tenant : TenantID) (id : SessionID) : option Session :=
  s ← db_sessions d !! id; if bool_decide (se_tenant s = tenant) then Some s else None.

(** ** Sessions ([sessionStore]) *)

Definition label_err (e : label_error) : err :=
  ErrorText match e with
            | TooManyLabels => "labels: at most 16 pairs"
            | EmptyLabelKey => "labels: empty key"
            | LabelKeyTooLong _ => "labels: key exceeds 128 characters"
            | LabelValueTooLong _ => "labels: value exceeds 128 characters"
            end.

Definition SessionCreate (tenant : TenantID) (s : Session) : M DB unit :=
  match ValidateLabels (se_labels s) with
  | Some e => throw (label_err e)
  | None =>
      d ← get;
      match db_sessions d !! se_id s with
      | Some _ => throw ErrAlreadyExists
      | None => put (with_sessions (<[se_id s := MkSession (se_id s) tenant (se_title s)
                        (se_labels s) 0 (db_now d) None]> (db_sessions d)) d)
      end
  end.

Definition SessionGet (tenant : TenantID) (id : SessionID) : M DB Session :=
  d ← get; of_option ErrNotFound (session_of d tenant id).

Record LabelSelector := MkLabelSelector { lsKey : string; lsOp : string; lsValues : list string }.

(** [labels @> '{"k":"v"}'] *)
Definition label_is (key value : string) (s : Session) : bool :=
  bool_decide (se_labels s !! key = Some value).

(** The [WHERE] clause the selector loop builds: [inr None] is the early
    [return nil, nil] of an empty [in] list. *)
Fixpoint selector_clause (sels : list LabelSelector) : err + option (Session → bool) :=
  match sels with
  | [] => inr (Some (λ _, true))
  | sel :: rest =>
      if bool_decide (lsOp sel ∈ ["="; "eq"; ""]) then
        match lsValues sel with
        | [v] =>
            match selector_clause rest with
            | inr (Some f) => inr (Some (λ s, label_is (lsKey sel) v s && f s))
            | r => r
            end
        | _ => inl (ErrorText "postgres: equality selector needs one value")
        end
      else if bool_decide (lsOp sel = "in") then
        match lsValues sel with
        | [] => inr None
        | vs =>
            match selector_clause rest with
            | inr (Some f) => inr (Some (λ s, existsb (λ v, label_is (lsKey sel) v s) vs && f s))
            | r => r
            end
        end
      else inl (ErrorText "postgres: unknown selector op")
  end.

Definition SessionList (tenant : TenantID) (sels : list LabelSelector) : M DB (list Session) :=
  match selector_clause sels with
  | inl e => throw e
  | inr None => mret []
  | inr (Some f) =>
      d ← get;
      mret (order_by (λ s, - se_created_at s)%Z
              (bool_filter (λ s, bool_decide (se_tenant s = tenant) && f s) (rows (db_sessions d))))
  end.

Definition set_labels (labels : gmap string string) (s : Session) : Session :=
  MkSession (se_id s) (se_tenant s) (se_title s) labels (se_last_seq s) (se_created_at s)
    (se_archived_at s).
Definition set_archived (at_ : time) (s : Session) : Session :=
  MkSession (se_id s) (se_tenant s) (se_title s) (se_labels s) (se_last_seq s) (se_created_at s)
    (Some match se_archived_at s with Some t => t | None => at_ end).
Definition set_last_seq (n : Z) (s : Session) : Session :=
  MkSession (se_id s) (se_tenant s) (se_title s) (se_labels s) n (se_created_at s)
    (se_archived_at s).

Definition UpdateLabels (tenant : TenantID) (id : SessionID) (labels : gmap string string) : M DB Session :=
  match ValidateLabels labels with
  | Some e => throw (label_err e)
  | None =>
      d ← get;
      match session_of d tenant id with
      | None => throw ErrNotFound
      | Some s => _ ← put (with_sessions (<[id := set_labels labels s]> (db_sessions d)) d);
                  SessionGet tenant id
      end
  end.

Definition Archive (tenant : TenantID) (id : SessionID) : M DB Session :=
  d ← get;
  match session_of d tenant id with
  | None => throw ErrNotFound
  | Some s => _ ← put (with_sessions (<[id := set_archived (db_now d) s]> (db_sessions d)) d);
              SessionGet tenant id
  end.

(** [Store.SessionTenant] *)
Definition SessionTenant (id : SessionID) : M DB TenantID :=
  d ← get; of_option ErrNotFound (se_tenant <$> db_sessions d !! id).

(** ** Events ([eventStore]) *)

(** The event row the [INSERT] writes. *)
Definition event_row (d : DB) (session : SessionID) (seq : Z) (e : Event) : Event :=
  MkEvent session seq (db_now d) (ev_actor e) (ev_kind e) (ev_payload e).

(** The body of the transaction: bump [last_seq] (a [bigint], whose overflow
    is an error), insert under the primary key (session, seq). *)
Definition append_body (tenant : TenantID) (session : SessionID) (e : Event) : M DB Z :=
  d ← get;
  match session_of d tenant session with
  | None => throw ErrNotFound
  | Some s =>
      let seq := (se_last_seq s + 1)%Z in
      if bool_decide (int64_max < seq)%Z then throw (ErrorText "postgres: bump seq: bigint out of range")
      else
        let d' := with_sessions (<[session := set_last_seq seq s]> (db_sessions d)) d in
        _ ← put d';
        if existsb (λ ev, bool_decide (ev_session ev = session) && bool_decide (ev_seq ev = seq)) (db_events d')
        then throw (ErrorText "postgres: insert event: duplicate key")
        else _ ← put (with_events (db_events d' ++ [event_row d session seq e]) d');
             mret seq
  end.

Definition Append (h : handle) (tenant : TenantID) (session : SessionID) (e : Event) : M DB Z :=
  Tx h (λ _, append_body tenant session e).

Definition Range (tenant : TenantID) (session : SessionID) (fromSeq limit : Z) : M DB (list Event) :=
  let limit := if bool_decide (limit ≤ 0)%Z then 256%Z else limit in
  d ← get;
  match session_of d tenant session with
  | None => mret []
  | Some _ =>
      mret (take (Z.to_nat limit)
              (order_by ev_seq
                 (bool_filter (λ ev, bool_decide (ev_session ev = session) &&
                                     bool_decide (fromSeq < ev_seq ev)%Z) (db_events d))))
  end.
