(* ===== verification/StoreRuns.v ===== *)
(** * The Postgres store: runs, steps, session memory and waits

    [runStore] ([postgres/run.go]), [memoryStore] and [waitStore]
    ([postgres/multiplayer.go]), on the tables of [Store]. *)
From S2P Require Import Prelude Policy Domain Text Store.

(** ** Row updates *)

Definition upd_history (h : raw_history) (now : time) (r : AgentRun) : AgentRun :=
  MkAgentRun (ar_id r) (ar_session r) (ar_tenant r) (ar_parent r) (ar_spawn_key r) (ar_cohort_id r)
    (ar_cohort_ordinal r) (ar_policy r) (ar_actor r) (ar_result r) (ar_state r) (ar_loop_kind r)
    (ar_loop_version r) (ar_model r) (ar_prompt r) h (ar_failure_reason r) (ar_failure_message r)
    (ar_cancel_requested_at r) (ar_created_at r) now.
Definition upd_state (st : RunState) (reason msg : string) (now : time) (r : AgentRun) : AgentRun :=
  MkAgentRun (ar_id r) (ar_session r) (ar_tenant r) (ar_parent r) (ar_spawn_key r) (ar_cohort_id r)
    (ar_cohort_ordinal r) (ar_policy r) (ar_actor r) (ar_result r) st (ar_loop_kind r)
    (ar_loop_version r) (ar_model r) (ar_prompt r) (ar_history r) reason msg
    (ar_cancel_requested_at r) (ar_created_at r) now.
Definition upd_result (j : json) (now : time) (r : AgentRun) : AgentRun :=
  MkAgentRun (ar_id r) (ar_session r) (ar_tenant r) (ar_parent r) (ar_spawn_key r) (ar_cohort_id r)
    (ar_cohort_ordinal r) (ar_policy r) (ar_actor r) (Some j) (ar_state r) (ar_loop_kind r)
    (ar_loop_version r) (ar_model r) (ar_prompt r) (ar_history r) (ar_failure_reason r)
    (ar_failure_message r) (ar_cancel_requested_at r) (ar_created_at r) now.
Definition upd_cancel (now : time) (r : AgentRun) : AgentRun :=
  MkAgentRun (ar_id r) (ar_session r) (ar_tenant r) (ar_parent r) (ar_spawn_key r) (ar_cohort_id r)
    (ar_cohort_ordinal r) (ar_policy r) (ar_actor r) (ar_result r) (ar_state r) (ar_loop_kind r)
    (ar_loop_version r) (ar_model r) (ar_prompt r) (ar_history r) (ar_failure_reason r)
    (ar_failure_message r)
    (Some match ar_cancel_requested_at r with Some t => t | None => now end) (ar_created_at r) now.

(** ** Runs ([runStore]) *)

Definition run_of (d : DB) (tenant : TenantID) (id : RunID) : option AgentRun :=
  r ← db_runs d !! id; if bool_decide (ar_tenant r = tenant) then Some r else None.

(** The row [INSERT INTO agent_runs] writes. *)
Definition run_row (d : DB) (tenant : TenantID) (r : AgentRun) : AgentRun :=
  MkAgentRun (ar_id r) (ar_session r) tenant (ar_parent r) (ar_spawn_key r) (ar_cohort_id r)
    (ar_cohort_ordinal r) (ar_policy r) (ar_actor r) None RunPending (ar_loop_kind r)
    (ar_loop_version r) (ar_model r) (ar_prompt r)
    match ar_history r with RawEmpty => RawEnvelope (MkEnvelope 1 [] []) | h => h end
    "" "" None (db_now d) (db_now d).

Definition spawn_key_taken (d : DB) (tenant : TenantID) (key : string) : bool :=
  negb (bool_decide (key = "")) &&
  existsb (λ r, bool_decide (ar_tenant r = tenant) && bool_decide (ar_spawn_key r = key))
    (rows (db_runs d)).

Definition RunCreate (tenant : TenantID) (r : AgentRun) : M DB unit :=
  d ← get;
  match session_of d tenant (ar_session r) with
  | None => throw ErrNotFound
  | Some _ =>
      if bool_decide (is_Some (db_runs d !! ar_id r)) || spawn_key_taken d tenant (ar_spawn_key r)
      then throw ErrAlreadyExists
      else if match ar_parent r with
              | Some p => negb (bool_decide (is_Some (db_runs d !! p)) || bool_decide (p = ar_id r))
              | None => false
              end
      then throw (ErrorText "postgres: create run: foreign key violation")
      else put (with_runs (<[ar_id r := run_row d tenant r]> (db_runs d)) d)
  end.

Definition RunGet (tenant : TenantID) (id : RunID) : M DB AgentRun :=
  d ← get; of_option ErrNotFound (run_of d tenant id).

Definition RunGetForUpdate (tenant : TenantID) (id : RunID) : M DB AgentRun :=
  d ← get; of_option ErrNotFound (run_of d tenant id).

Definition RunList (tenant : TenantID) (session : SessionID) : M DB (list AgentRun) :=
  d ← get;
  mret (order_by ar_created_at
          (bool_filter (λ r, bool_decide (ar_session r = session) && bool_decide (ar_tenant r = tenant))
             (rows (db_runs d)))).

(** [runStore.exec]: an update that affects no row is [ErrNotFound]. *)
Definition run_exec (tenant : TenantID) (id : RunID) (f : time → AgentRun → AgentRun) : M DB unit :=
  d ← get;
  match run_of d tenant id with
  | None => throw ErrNotFound
  | Some r => put (with_runs (<[id := f (db_now d) r]> (db_runs d)) d)
  end.

Definition SetHistory (tenant : TenantID) (id : RunID) (h : raw_history) : M DB unit :=
  run_exec tenant id (upd_history h).
Definition SetState (tenant : TenantID) (id : RunID) (st : RunState) (reason msg : string) : M DB unit :=
  run_exec tenant id (upd_state st reason msg).
Definition SetResult (tenant : TenantID) (id : RunID) (j : json) : M DB unit :=
  run_exec tenant id (upd_result j).
Definition RequestCancel (tenant : TenantID) (id : RunID) : M DB unit :=
  run_exec tenant id upd_cancel.

(** An unset spawn key is NULL, which no key equals. *)
Definition spawn_key_row (d : DB) (tenant : TenantID) (key : string) : option AgentRun :=
  head (bool_filter (λ r, negb (bool_decide (ar_spawn_key r = "")) &&
                          bool_decide (ar_spawn_key r = key) && bool_decide (ar_tenant r = tenant))
          (rows (db_runs d))).

Definition GetBySpawnKey (tenant : TenantID) (key : string) : M DB AgentRun :=
  d ← get; of_option ErrNotFound (spawn_key_row d tenant key).

Definition children_of (d : DB) (tenant : TenantID) (id : RunID) : list AgentRun :=
  bool_filter (λ r, bool_decide (ar_parent r = Some id) && bool_decide (ar_tenant r = tenant))
    (rows (db_runs d)).

Definition Children (tenant : TenantID) (id : RunID) : M DB (list AgentRun) :=
  d ← get; mret (order_by2 ar_cohort_ordinal ar_created_at (children_of d tenant id)).

Definition CountChildren (tenant : TenantID) (id : RunID) : M DB Z :=
  d ← get; mret (Z.of_nat (length (children_of d tenant id))).

(** ** Steps *)

(** The insert selects from [agent_runs]: a run outside the tenant inserts no
    row, and that is not an error. *)
Definition InsertStep (tenant : TenantID) (s : RunStep) : M DB unit :=
  d ← get;
  match run_of d tenant (rs_run s) with
  | None => mret ()
  | Some _ =>
      if existsb (λ t, bool_decide (rs_run t = rs_run s) &&
                       bool_decide (rs_step_index t = rs_step_index s)) (db_steps d)
      then throw ErrAlreadyExists
      else put (with_steps (db_steps d ++
             [MkRunStep (rs_run s) (rs_step_index s) (rs_attempt s) (rs_tokens_in s)
                (rs_tokens_out s) (rs_finish_reason s) (db_now d)]) d)
  end.

Definition steps_of (d : DB) (id : RunID) : list RunStep :=
  bool_filter (λ s, bool_decide (rs_run s = id)) (db_steps d).

Definition Steps (tenant : TenantID) (id : RunID) : M DB (list RunStep) :=
  d ← get;
  match run_of d tenant id with
  | None => mret []
  | Some _ => mret (order_by rs_step_index (steps_of d id))
  end.

(** ** Session memory ([memoryStore]) *)

Definition memory_of (d : DB) (session : SessionID) : list SessionMemoryEntry :=
  bool_filter (λ e, bool_decide (me_session e = session)) (rows (db_memory d)).

Definition MemoryGet (tenant : TenantID) (session : SessionID) (key : string) : M DB SessionMemoryEntry :=
  d ← get;
  match session_of d tenant session with
  | None => throw ErrNotFound
  | Some _ => of_option ErrNotFound (db_memory d !! (session, key))
  end.

Definition MemoryList (tenant : TenantID) (session : SessionID) : M DB (list SessionMemoryEntry) :=
  d ← get;
  match session_of d tenant session with
  | None => mret []
  | Some _ => mret (order_by_text me_key (memory_of d session))
  end.

Definition MemorySet (tenant : TenantID) (e : SessionMemoryEntry) : M DB unit :=
  if negb (ValidMemoryKey (me_key e)) then
    throw (ErrorText "memory key must be dot-separated alphanumeric segments")
  else if bool_decide (MaxMemoryValue < slen (me_value e))%Z then
    throw (ErrorText "memory value exceeds 64KiB")
  else
    d ← get;
    let exists_ := bool_decide (is_Some (db_memory d !! (me_session e, me_key e))) in
    let count := Z.of_nat (length (memory_of d (me_session e))) in
    if negb exists_ && bool_decide (MaxMemoryKeys ≤ count)%Z then
      throw (ErrorText "session memory limit reached")
    else
      match session_of d tenant (me_session e) with
      | None => throw ErrNotFound
      | Some _ =>
          put (with_memory (<[(me_session e, me_key e) :=
                 MkMemoryEntry (me_session e) (me_key e) (me_value e)
                   (MkActor (actKind (me_updated_by e)) (actID (me_updated_by e)) "")
                   (db_now d)]> (db_memory d)) d)
      end.

Definition MemoryDelete (tenant : TenantID) (session : SessionID) (key : string) : M DB unit :=
  d ← get;
  match session_of d tenant session, db_memory d !! (session, key) with
  | Some _, Some _ => put (with_memory (delete (session, key) (db_memory d)) d)
  | _, _ => throw ErrNotFound
  end.

(** ** Waits ([waitStore]) *)

Definition upd_wait_state (st : WaitState) (w : RunWait) : RunWait :=
  MkRunWait (rw_id w) (rw_parent w) (rw_step_index w) (rw_tool_call_id w) (rw_kind w) st
    (rw_timeout_policy w) (rw_deadline w) (rw_result w) (rw_resumed_at w).
Definition upd_wait_result (j : json) (w : RunWait) : RunWait :=
  MkRunWait (rw_id w) (rw_parent w) (rw_step_index w) (rw_tool_call_id w) (rw_kind w) (rw_state w)
    (rw_timeout_policy w) (rw_deadline w) (Some j) (rw_resumed_at w).
Definition upd_wait_resumed (now : time) (w : RunWait) : RunWait :=
  MkRunWait (rw_id w) (rw_parent w) (rw_step_index w) (rw_tool_call_id w) (rw_kind w) (rw_state w)
    (rw_timeout_policy w) (rw_deadline w) (rw_result w) (Some now).

(** The wait's parent belongs to the tenant. *)
Definition wait_of (d : DB) (tenant : TenantID) (id : string) : option RunWait :=
  w ← db_waits d !! id; _ ← run_of d tenant (rw_parent w); Some w.

Definition is_open (w : RunWait) : bool := bool_decide (rw_state w = WaitOpen).

(** Any unique index of [run_waits]: the primary key, the originating tool
    call, or the partial index on open waits per parent. *)
Definition wait_conflict (d : DB) (w : RunWait) : bool :=
  existsb (λ v,
    bool_decide (rw_id v = rw_id w) ||
    (bool_decide (rw_parent v = rw_parent w) && bool_decide (rw_step_index v = rw_step_index w) &&
     bool_decide (rw_tool_call_id v = rw_tool_call_id w)) ||
    (is_open v && bool_decide (rw_parent v = rw_parent w))) (rows (db_waits d)).

Definition member_conflict (ms : list RunWaitMember) (m : RunWaitMember) : bool :=
  existsb (λ n, bool_decide (wm_wait n = wm_wait m) &&
                (bool_decide (wm_run n = wm_run m) || bool_decide (wm_ordinal n = wm_ordinal m))) ms.

(** [ON CONFLICT DO NOTHING]; an unknown run violates the foreign key. *)
Definition insert_member (waitID : string) (m : RunWaitMember) : M DB unit :=
  let row := MkRunWaitMember waitID (wm_run m) (wm_ordinal m) in
  d ← get;
  if member_conflict (db_members d) row then mret ()
  else if bool_decide (is_Some (db_runs d !! wm_run m)) then
    put (with_members (db_members d ++ [row]) d)
  else throw (ErrorText "postgres: create wait member: foreign key violation").

Definition default_string (s dflt : string) : string := if bool_decide (s = "") then dflt else s.

Definition WaitGet (tenant : TenantID) (id : string) : M DB RunWait :=
  d ← get; of_option ErrNotFound (wait_of d tenant id).

Definition WaitGetForUpdate (tenant : TenantID) (id : string) : M DB RunWait :=
  d ← get; of_option ErrNotFound (wait_of d tenant id).

(** [ON CONFLICT DO NOTHING] covers every unique index of the table, so a
    conflict of any kind inserts no row; only the follow-up [Get] tells a
    redelivered wait from the other cases. *)
Definition WaitCreate (tenant : TenantID) (w : RunWait) (members : list RunWaitMember) : M DB unit :=
  d ← get;
  let row := MkRunWait (rw_id w) (rw_parent w) (rw_step_index w) (rw_tool_call_id w)
               (default_string (rw_kind w) WaitKindWait) WaitOpen
               (default_string (rw_timeout_policy w) TimeoutPolicyResolve)
               (rw_deadline w) None None in
  if bool_decide (run_of d tenant (rw_parent w) = None) || wait_conflict d row then
    got ← attempt (WaitGet tenant (rw_id w));
    match got with
    | Ok _ => mret ()
    | Err _ => throw ErrNotFound
    end
  else
    _ ← put (with_waits (<[rw_id w := row]> (db_waits d)) d);
    for_each (insert_member (rw_id w)) members.

Definition member_of (d : DB) (wait : string) (run : RunID) : bool :=
  existsb (λ m, bool_decide (wm_wait m = wait) && bool_decide (wm_run m = run)) (db_members d).

Definition ListOpenForChild (tenant : TenantID) (id : RunID) : M DB (list RunWait) :=
  d ← get;
  mret (bool_filter (λ w, member_of d (rw_id w) id &&
                          negb (bool_decide (run_of d tenant (rw_parent w) = None)) && is_open w)
          (rows (db_waits d))).

Definition ListOpenForParent (tenant : TenantID) (id : RunID) : M DB (list RunWait) :=
  d ← get;
  mret (bool_filter (λ w, bool_decide (rw_parent w = id) &&
                          negb (bool_decide (run_of d tenant (rw_parent w) = None)) && is_open w)
          (rows (db_waits d))).

Definition ListForParent (tenant : TenantID) (id : RunID) : M DB (list RunWait) :=
  d ← get;
  mret (order_by rw_step_index
          (bool_filter (λ w, bool_decide (rw_parent w = id) &&
                             negb (bool_decide (run_of d tenant (rw_parent w) = None)))
             (rows (db_waits d)))).

(** The waits one claim takes: open, due, of this tenant, oldest deadlines
    first, at most [limit]. *)
Definition due_waits (d : DB) (tenant : TenantID) (now : time) (limit : Z) : list RunWait :=
  take (Z.to_nat limit)
    (order_by rw_deadline
       (bool_filter (λ w, negb (bool_decide (run_of d tenant (rw_parent w) = None)) && is_open w &&
                          bool_decide (rw_deadline w ≤ now)%Z) (rows (db_waits d)))).

(** Claiming is the transition to [timed_out]; the returned rows carry it. *)
Definition ClaimDue (tenant : TenantID) (now : time) (limit : Z) : M DB (list RunWait) :=
  d ← get;
  let due := upd_wait_state WaitTimedOut <$> due_waits d tenant now limit in
  _ ← put (with_waits (foldr (λ w m, <[rw_id w := w]> m) (db_waits d) due) d);
  mret due.

Definition Members (id : string) : M DB (list RunWaitMember) :=
  d ← get;
  mret (order_by wm_ordinal (bool_filter (λ m, bool_decide (wm_wait m = id)) (db_members d))).

Definition WaitClose (tenant : TenantID) (id : string) (st : WaitState) (j : json) : M DB bool :=
  d ← get;
  match wait_of d tenant id with
  | Some w =>
      if is_open w then
        _ ← put (with_waits (<[id := upd_wait_result j (upd_wait_state st w)]> (db_waits d)) d);
        mret true
      else mret false
  | None => mret false
  end.

Definition WaitSetResult (tenant : TenantID) (id : string) (j : json) : M DB unit :=
  d ← get;
  match wait_of d tenant id with
  | Some w => put (with_waits (<[id := upd_wait_result j w]> (db_waits d)) d)
  | None => throw ErrNotFound
  end.

Definition MarkResumed (tenant : TenantID) (id : string) : M DB bool :=
  d ← get;
  match wait_of d tenant id with
  | Some w =>
      match rw_resumed_at w with
      | None => _ ← put (with_waits (<[id := upd_wait_resumed (db_now d) w]> (db_waits d)) d);
                mret true
      | Some _ => mret false
      end
  | None => mret false
  end.
