(* ===== verification/EventLog.v ===== *)
(** * The session event log and its readers

    What the store promises of the log ([eventStore] of [postgres/session.go])
    and what its readers make of it: the subscription loop of
    [postgres/eventbus.go], the attempt counter of [loop/step.go] and the
    paged [EventService.Get] of [http/session_handler.go].

    The invariant is [gapless]: the events of a session, in the order they
    were inserted, carry the numbers 1, 2, ..., [last_seq].  Under it every
    [Range] is a contiguous slice, so a reader that resumes from the last
    number it saw misses nothing and repeats nothing. *)
From S2P Require Import Prelude Policy Domain Text Store.

(** ** Readers *)

(** One [Range] of the reader loops, with the number the reader resumes from:
    [for _, e := range batch { ...; from = e.Seq }]. *)
Definition last_seq_of (from : Z) (batch : list Event) : Z :=
  foldl (λ _ e, ev_seq e) from batch.

(** The catch-up loop of [EventBus.Subscribe]: read batches until one is
    empty (or fails), delivering every event.  [None] is out of fuel. *)
Fixpoint drain (fuel : nat) (tenant : TenantID) (session : SessionID) (next : Z) (d : DB)
  : option (list Event * Z) :=
  match fuel with
  | O => None
  | S fuel' =>
      match (Range tenant session next 256 d).2 with
      | Err _ | Ok [] => Some ([], next)
      | Ok batch =>
          match drain fuel' tenant session (last_seq_of next batch) d with
          | Some (rest, n) => Some (batch ++ rest, n)
          | None => None
          end
      end
  end.

(** The subscription goroutine over time: each wake-up drains what the store
    holds at that moment.  The list is the store at the successive wake-ups. *)
Fixpoint subscribe (fuel : nat) (tenant : TenantID) (session : SessionID) (next : Z) (wakes : list DB)
  : option (list Event * Z) :=
  match wakes with
  | [] => Some ([], next)
  | d :: rest =>
      match drain fuel tenant session next d with
      | Some (out, n) =>
          match subscribe fuel tenant session n rest with
          | Some (out', n') => Some (out ++ out', n')
          | None => None
          end
      | None => None
      end
  end.

(** [StepWorker.countAttempts]: batches of 512. *)
Definition is_attempt (run : RunID) (stepIndex : Z) (e : Event) : bool :=
  bool_decide (ev_kind e = EventKindStepStarted) &&
  match ev_payload e with
  | StepStartedPayload r i _ => bool_decide (r = run) && bool_decide (i = stepIndex)
  | _ => false
  end.

Fixpoint countAttempts (fuel : nat) (tenant : TenantID) (session : SessionID) (run : RunID)
    (stepIndex : Z) (from : Z) (d : DB) : option Z :=
  match fuel with
  | O => None
  | S fuel' =>
      match (Range tenant session from 512 d).2 with
      | Err _ | Ok [] => Some 0%Z
      | Ok batch =>
          match countAttempts fuel' tenant session run stepIndex (last_seq_of from batch) d with
          | Some n => Some (Z.of_nat (length (bool_filter (is_attempt run stepIndex) batch)) + n)%Z
          | None => None
          end
      end
  end.

(** ** [EventService.Get]: pages *)

(** Two's complement wrap-around of an [int64]. *)
Definition wrap64 (n : Z) : Z := ((n + 2 ^ 63) mod 2 ^ 64 - 2 ^ 63)%Z.

(** The decimal loop over the page token; [None] is the invalid argument. *)
Fixpoint parse_token (acc : Z) (tok : string) : option Z :=
  match tok with
  | EmptyString => Some acc
  | String c rest =>
      let b := byte_of c in
      if between 48 b 57 then parse_token (wrap64 (wrap64 (acc * 10) + (b - 48))) rest else None
  end.

(** The response loop: stop after [to], and hand out a token when a page is
    full and another event is at hand. *)
Fixpoint get_loop (to limit : Z) (page : list Event) (events : list Event) : list Event * string :=
  match events with
  | [] => (page, "")
  | e :: rest =>
      if bool_decide (0 < to)%Z && bool_decide (to < ev_seq e)%Z then (page, "")
      else if bool_decide (limit ≤ Z.of_nat (length page))%Z then
        (page, match last page with Some l => pretty (ev_seq l) | None => "" end)
      else get_loop to limit (page ++ [e]) rest
  end.

Definition GetEvents (tenant : TenantID) (session : SessionID) (fromSeq : Z) (pageToken : string)
    (pageSize toSeq : Z) (d : DB) : result (list Event * string) :=
  let from := if bool_decide (pageToken = "") then Some fromSeq else parse_token 0 pageToken in
  match from with
  | None => Err (CodeError "invalid_argument" "invalid page_token")
  | Some from =>
      let limit := if bool_decide (pageSize ≤ 0)%Z || bool_decide (256 < pageSize)%Z then 256%Z else pageSize in
      match (Range tenant session from (limit + 1) d).2 with
      | Err e => Err e
      | Ok events => Ok (get_loop toSeq limit [] events)
      end
  end.

(** A client that follows [next_page_token] to the end. *)
Fixpoint read_pages (fuel : nat) (tenant : TenantID) (session : SessionID) (token : string) (size : Z) (d : DB)
  : option (list Event) :=
  match fuel with
  | O => None
  | S fuel' =>
      match GetEvents tenant session 0 token size 0 d with
      | Err _ => None
      | Ok (page, next) =>
          if bool_decide (next = "") then Some page
          else match read_pages fuel' tenant session next size d with
               | Some rest => Some (page ++ rest)
               | None => None
               end
      end
  end.

(** ** The invariant *)

(** A session's events in insertion order. *)
Definition session_log (d : DB) (session : SessionID) : list Event :=
  bool_filter (λ e, bool_decide (ev_session e = session)) (db_events d).

Definition gapless (d : DB) : Prop :=
  ∀ sid, match db_sessions d !! sid with
         | Some s => (0 ≤ se_last_seq s ≤ int64_max)%Z ∧
                     ev_seq <$> session_log d sid = seqZ 1 (se_last_seq s)
         | None => session_log d sid = []
         end.

(** A computation that keeps an invariant, as a preorder on stores. *)
Definition inv {S} (I : S → Prop) : relation S := λ s t, I s → I t.
#[export] Instance inv_preorder {S} (I : S → Prop) : PreOrder (inv I).
Proof. split; unfold inv; [intros ?|intros ???]; auto. Qed.

(** ** Lemmas *)

Lemma session_log_app d session e :
  session_log (with_events (db_events d ++ [e]) d) session =
  session_log d session ++ (if bool_decide (ev_session e = session) then [e] else []).
Proof.
  unfold session_log. simpl. rewrite bool_filter_app. f_equal.
  unfold bool_filter. rewrite filter_cons, filter_nil. case_bool_decide; by case_decide.
Qed.

(** Anything that leaves sessions and events alone leaves the log alone. *)
Lemma gapless_frame d d' :
  db_sessions d' = db_sessions d → db_events d' = db_events d → gapless d → gapless d'.
Proof. unfold gapless, session_log. by intros -> ->. Qed.

Lemma session_of_Some d tenant id s :
  session_of d tenant id = Some s ↔ db_sessions d !! id = Some s ∧ se_tenant s = tenant.
Proof.
  unfold session_of. destruct (db_sessions d !! id) as [t|]; simpl; [|naive_solver].
  case_bool_decide; naive_solver.
Qed.

(** Under the invariant the primary key is never violated. *)
Lemma gapless_fresh d session s n :
  gapless d → db_sessions d !! session = Some s → (se_last_seq s < n)%Z →
  existsb (λ ev, bool_decide (ev_session ev = session) && bool_decide (ev_seq ev = n)) (db_events d) = false.
Proof.
  intros Hg Hs Hn. apply not_true_iff_false. rewrite existsb_exists.
  intros (e & He%list_elem_of_In & [H1%bool_decide_eq_true H2%bool_decide_eq_true]%andb_true_iff).
  specialize (Hg session). rewrite Hs in Hg. destruct Hg as [_ Hg].
  assert (ev_seq e ∈ ev_seq <$> session_log d session) as Hin.
  { apply list_elem_of_fmap. exists e. split; [done|]. apply elem_of_bool_filter.
    by rewrite bool_decide_eq_true. }
  rewrite Hg, elem_of_seqZ in Hin. lia.
Qed.

(** The database after a successful append. *)
Definition appended (d : DB) (session : SessionID) (s : Session) (e : Event) : DB :=
  let d' := with_sessions (<[session := set_last_seq (se_last_seq s + 1) s]> (db_sessions d)) d in
  with_events (db_events d ++ [event_row d session (se_last_seq s + 1) e]) d'.

Lemma append_body_eq d tenant session e :
  gapless d →
  append_body tenant session e d =
  match session_of d tenant session with
  | None => (d, Err ErrNotFound)
  | Some s =>
      if bool_decide (int64_max < se_last_seq s + 1)%Z
      then (d, Err (ErrorText "postgres: bump seq: bigint out of range"))
      else (appended d session s e, Ok (se_last_seq s + 1)%Z)
  end.
Proof.
  intros Hg. unfold append_body, mbind, M_bind, get. simpl.
  destruct (session_of d tenant session) as [s|] eqn:Hs; [|done].
  case_bool_decide; [done|]. simpl.
  rewrite (gapless_fresh d session s); [done|done| |lia].
  by apply session_of_Some in Hs as [? _].
Qed.

Lemma appended_log d session s e sid :
  session_log (appended d session s e) sid =
  session_log d sid ++
  (if bool_decide (session = sid) then [event_row d session (se_last_seq s + 1) e] else []).
Proof.
  unfold appended, session_log. simpl. rewrite bool_filter_app. f_equal.
  unfold bool_filter. rewrite filter_cons, filter_nil. simpl.
  case_bool_decide; by case_decide.
Qed.

Lemma appended_gapless d session s e :
  gapless d → db_sessions d !! session = Some s → (se_last_seq s + 1 ≤ int64_max)%Z →
  gapless (appended d session s e).
Proof.
  intros Hg Hs Hle sid. rewrite appended_log. pose proof (Hg sid) as Hsid. unfold appended; simpl.
  rewrite lookup_insert. case_decide as E.
  - subst sid. rewrite Hs in Hsid. destruct Hsid as [? Hlog].
    rewrite bool_decide_eq_true_2 by done. simpl. split; [lia|].
    rewrite fmap_app, Hlog. simpl. rewrite (seqZ_app 1 (se_last_seq s) 1) by lia.
    f_equal. by rewrite Z.add_comm.
  - rewrite bool_decide_eq_false_2 by done. rewrite app_nil_r. done.
Qed.

Lemma Append_gapless h tenant session e : keeps (inv gapless) (Append h tenant session e).
Proof.
  assert (keeps (inv gapless) (append_body tenant session e)) as Hb.
  { intros d Hg. rewrite append_body_eq by done.
    destruct (session_of d tenant session) as [s|] eqn:Hs; [|done].
    apply session_of_Some in Hs as [Hs _]. case_bool_decide; [done|].
    apply appended_gapless; [done..|lia]. }
  destruct h; simpl; [by apply keeps_atomically; [apply _|]|done].
Qed.
#[export] Hint Resolve Append_gapless : keeps.

(** Lists numbered consecutively from [a]. *)
Lemma consecutive_cons (e : Event) (l : list Event) a n :
  ev_seq <$> (e :: l) = seqZ a n → ev_seq e = a ∧ ev_seq <$> l = seqZ (a + 1) (n - 1) ∧ (0 < n)%Z.
Proof.
  intros Hl. destruct (decide (0 < n)%Z); [|by rewrite seqZ_nil in Hl by lia].
  rewrite seqZ_cons in Hl by done. rewrite fmap_cons in Hl. by simplify_eq.
Qed.

Lemma consecutive_elem (l : list Event) a n e :
  ev_seq <$> l = seqZ a n → e ∈ l → (a ≤ ev_seq e < a + n)%Z.
Proof.
  intros Hl He. apply (list_elem_of_fmap_2 ev_seq) in He. by rewrite Hl, elem_of_seqZ in He.
Qed.

Lemma consecutive_sorted (l : list Event) a n :
  ev_seq <$> l = seqZ a n → StronglySorted (key_le ev_seq) l.
Proof.
  revert a n. induction l as [|e l IH]; intros a n Hl; [constructor|].
  apply consecutive_cons in Hl as (He & Hl & Hn). constructor; [by eapply IH|].
  apply Forall_forall. intros e' He'. unfold key_le.
  pose proof (consecutive_elem l _ _ e' Hl He'). lia.
Qed.

Lemma consecutive_inj (l : list Event) a n e e' :
  ev_seq <$> l = seqZ a n → e ∈ l → e' ∈ l → ev_seq e = ev_seq e' → e = e'.
Proof.
  intros Hl [i Hi]%list_elem_of_lookup [j Hj]%list_elem_of_lookup Heq.
  assert ((ev_seq <$> l) !! i = Some (ev_seq e)) as H1 by (by rewrite list_lookup_fmap, Hi).
  assert ((ev_seq <$> l) !! j = Some (ev_seq e')) as H2 by (by rewrite list_lookup_fmap, Hj).
  rewrite Hl in H1, H2. rewrite lookup_seqZ in H1, H2.
  assert (i = j) as -> by lia. congruence.
Qed.

(** A lower bound cuts off a prefix. *)
Lemma consecutive_filter (l : list Event) a n from :
  ev_seq <$> l = seqZ a n →
  bool_filter (λ e, bool_decide (from < ev_seq e)%Z) l = drop (Z.to_nat (from + 1 - a)) l.
Proof.
  unfold bool_filter. revert a n. induction l as [|e l IH]; intros a n Hl; [by rewrite drop_nil|].
  apply consecutive_cons in Hl as (He & Hl & Hn). specialize (IH _ _ Hl).
  destruct (decide (from < a)%Z).
  - rewrite filter_cons_True by (apply bool_decide_eq_true; lia). rewrite IH.
    replace (Z.to_nat (from + 1 - (a + 1))) with 0 by lia.
    by replace (Z.to_nat (from + 1 - a)) with 0 by lia.
  - rewrite filter_cons_False by (rewrite bool_decide_eq_true; lia). rewrite IH.
    by replace (Z.to_nat (from + 1 - a)) with (S (Z.to_nat (from + 1 - (a + 1)))) by lia.
Qed.

Lemma consecutive_drop (l : list Event) a n k :
  ev_seq <$> l = seqZ a n → (0 ≤ n)%Z → ev_seq <$> drop k l = seqZ (a + Z.of_nat k) (n - Z.of_nat k).
Proof.
  revert l a n. induction k as [|k IH]; intros l a n Hl Hn.
  { rewrite drop_0, Hl. f_equal; lia. }
  destruct l as [|e l].
  - simpl. symmetry. apply seqZ_nil. apply (f_equal length) in Hl.
    rewrite length_seqZ in Hl. simpl in Hl. lia.
  - apply consecutive_cons in Hl as (He & Hl & ?). simpl. rewrite (IH _ _ _ Hl) by lia. f_equal; lia.
Qed.

(** [order_by] does nothing to a list whose keys are consecutive. *)
Lemma order_by_sorted {A} (key : A → Z) (l : list A) :
  (∀ x y, x ∈ l → y ∈ l → key x = key y → x = y) →
  StronglySorted (key_le key) l → order_by key l = l.
Proof.
  intros Hinj Hs. unfold order_by.
  assert (Transitive (key_le key)) by (intros ???; unfold key_le; lia).
  assert (Total (key_le key)) by (intros x y; unfold key_le; lia).
  apply (StronglySorted_unique_strong (key_le key));
    [|by apply StronglySorted_merge_sort|done|apply merge_sort_Permutation].
  intros x y Hx Hy ??. rewrite merge_sort_Permutation in Hx. apply Hinj; [done..|].
  unfold key_le in *. lia.
Qed.

Lemma bool_filter_and {A} (f g : A → bool) (l : list A) :
  bool_filter (λ x, f x && g x) l = bool_filter g (bool_filter f l).
Proof.
  unfold bool_filter. rewrite list_filter_filter. apply list_filter_iff.
  intros x. rewrite andb_true_iff. tauto.
Qed.

(** The log of a session the tenant owns. *)
Definition owns_log (d : DB) (tenant : TenantID) (session : SessionID) (n : Z) : Prop :=
  ∃ s, session_of d tenant session = Some s ∧ se_last_seq s = n.

Lemma gapless_log d tenant session n :
  gapless d → owns_log d tenant session n →
  ev_seq <$> session_log d session = seqZ 1 n ∧ (0 ≤ n ≤ int64_max)%Z ∧
  length (session_log d session) = Z.to_nat n.
Proof.
  intros Hg (s & Hs & <-). apply session_of_Some in Hs as [Hs _].
  specialize (Hg session). rewrite Hs in Hg. destruct Hg as [Hr Hlog].
  split_and!; [done|lia..|]. by rewrite <-(length_fmap ev_seq), Hlog, length_seqZ.
Qed.

(** Under the invariant a [Range] is a slice of the log. *)
Lemma Range_slice d tenant session n from limit :
  gapless d → owns_log d tenant session n → (0 < limit)%Z →
  Range tenant session from limit d =
  (d, Ok (take (Z.to_nat limit) (drop (Z.to_nat from) (session_log d session)))).
Proof.
  intros Hg Hn Hlim. destruct (gapless_log d tenant session n) as (Hlog & _ & _); [done..|].
  destruct Hn as (s & Hs & _). unfold Range. rewrite bool_decide_eq_false_2 by lia.
  unfold mbind, M_bind, get. simpl. rewrite Hs.
  unfold mret, M_ret. do 2 f_equal.
  rewrite bool_filter_and. fold (session_log d session).
  rewrite (consecutive_filter _ 1 n) by done.
  replace (from + 1 - 1)%Z with from by lia. f_equal.
  apply order_by_sorted.
  - intros x y Hx Hy. eapply consecutive_inj; [done|by eapply subseteq_drop..].
  - destruct (decide (0 ≤ n)%Z) as [Hn|Hn].
    + eapply consecutive_sorted. by apply consecutive_drop.
    + rewrite seqZ_nil in Hlog by lia. destruct (session_log d session); [|done].
      rewrite drop_nil. constructor.
Qed.

Lemma last_seq_of_slice (l : list Event) a n from :
  ev_seq <$> l = seqZ a n → l ≠ [] → last_seq_of from l = (a + n - 1)%Z.
Proof.
  intros Hl Hne. destruct l as [|e l _] using rev_ind; [done|].
  unfold last_seq_of. rewrite foldl_app. simpl.
  assert ((ev_seq <$> (l ++ [e])) !! length l = Some (ev_seq e)) as H.
  { by rewrite list_lookup_fmap, lookup_app_r, Nat.sub_diag by done. }
  pose proof (f_equal length Hl) as Hlen. rewrite length_fmap, length_app, length_seqZ in Hlen.
  simpl in Hlen. rewrite Hl, lookup_seqZ in H. lia.
Qed.

(** One page: its last number, what is left, and progress. *)
Lemma page_step d tenant session n from L (b := take L (drop (Z.to_nat from) (session_log d session))) :
  gapless d → owns_log d tenant session n → (0 ≤ from)%Z → b ≠ [] →
  last_seq_of from b = (from + Z.of_nat (length b))%Z ∧
  b ++ drop (Z.to_nat (from + Z.of_nat (length b))) (session_log d session) =
    drop (Z.to_nat from) (session_log d session) ∧
  (0 < Z.of_nat (length b) ≤ n - from)%Z.
Proof.
  intros Hg Ho Hf Hb. destruct (gapless_log d tenant session n) as (Hlog & Hn & Hlen); [done..|].
  assert (0 < length b)%nat by (destruct b; [done|simpl; lia]).
  assert (length b = min L (Z.to_nat n - Z.to_nat from)) as Hlb.
  { unfold b. by rewrite length_take, length_drop, Hlen. }
  split_and!; [| |lia..].
  - rewrite (last_seq_of_slice b (from + 1) (Z.of_nat (length b))); [lia| |done].
    pose proof (consecutive_drop _ _ _ (Z.to_nat from) Hlog ltac:(lia)) as Hd.
    assert (ev_seq <$> b = take L (seqZ (1 + Z.of_nat (Z.to_nat from)) (n - Z.of_nat (Z.to_nat from)))) as ->.
    { unfold b. by rewrite fmap_take, Hd. }
    replace (n - Z.of_nat (Z.to_nat from))%Z
      with (Z.of_nat (length b) + (n - from - Z.of_nat (length b)))%Z by lia.
    rewrite seqZ_app by lia. rewrite Z2Nat.id, (Z.add_comm 1 from) by done.
    destruct (decide (n - from = Z.of_nat (length b))%Z) as [E|E].
    + rewrite E, Z.sub_diag, (seqZ_nil _ 0), app_nil_r by lia. apply take_ge. rewrite length_seqZ. lia.
    + rewrite take_app_length'; [done|]. rewrite length_seqZ. lia.
  - rewrite Z2Nat.inj_add, <-drop_drop, Nat2Z.id by lia.
    rewrite <-(take_drop (length b) (drop (Z.to_nat from) (session_log d session))) at 2.
    f_equal. symmetry. apply take_length_take.
Qed.

Lemma empty_page d tenant session n from L :
  gapless d → owns_log d tenant session n → (0 ≤ from)%Z →
  take (S L) (drop (Z.to_nat from) (session_log d session)) = [] →
  drop (Z.to_nat from) (session_log d session) = [] ∧ (n ≤ from)%Z.
Proof.
  intros Hg Ho Hf Hb. destruct (gapless_log d tenant session n) as (_ & Hn & Hlen); [done..|].
  destruct (drop _ _) as [|e l] eqn:E; [|done]. split; [done|].
  apply (f_equal length) in E. rewrite length_drop, Hlen in E. simpl in E. lia.
Qed.

Lemma drain_spec fuel d tenant session n from :
  gapless d → owns_log d tenant session n → (0 ≤ from)%Z → (Z.to_nat (n - from) < fuel)%nat →
  drain fuel tenant session from d =
  Some (drop (Z.to_nat from) (session_log d session), Z.max from n).
Proof.
  intros Hg Ho. revert from. induction fuel as [|fuel IH]; intros from Hf Hfuel; [lia|].
  cbn [drain]. rewrite (Range_slice d tenant session n) by (done || lia). cbn [snd].
  change (Z.to_nat 256) with (S 255).
  destruct (take (S 255) _) as [|e b'] eqn:E.
  - eapply empty_page in E as [-> ?]; [|done..]. do 2 f_equal. lia.
  - rewrite <-E in *. edestruct (page_step d tenant session n from (S 255)) as (H1 & H2 & H3);
      [done..|by rewrite E|].
    rewrite H1, IH by lia. rewrite H2. do 2 f_equal. lia.
Qed.

Lemma countAttempts_spec fuel d tenant session n run i from :
  gapless d → owns_log d tenant session n → (0 ≤ from)%Z → (Z.to_nat (n - from) < fuel)%nat →
  countAttempts fuel tenant session run i from d =
  Some (Z.of_nat (length (bool_filter (is_attempt run i) (drop (Z.to_nat from) (session_log d session))))).
Proof.
  intros Hg Ho. revert from. induction fuel as [|fuel IH]; intros from Hf Hfuel; [lia|].
  cbn [countAttempts]. rewrite (Range_slice d tenant session n) by (done || lia). cbn [snd].
  change (Z.to_nat 512) with (S 511).
  destruct (take (S 511) _) as [|e b'] eqn:E.
  - by eapply empty_page in E as [-> ?].
  - rewrite <-E in *. edestruct (page_step d tenant session n from (S 511)) as (H1 & H2 & H3);
      [done..|by rewrite E|].
    rewrite H1, IH by lia. rewrite <-H2 at 3. rewrite bool_filter_app, length_app. f_equal. lia.
Qed.

(** ** Page tokens *)

Lemma wrap64_id n : (int64_min ≤ n ≤ int64_max)%Z → wrap64 n = n.
Proof.
  unfold wrap64, int64_min, int64_max. intros Hn. rewrite Z.mod_small by lia. lia.
Qed.

Lemma parse_digit acc d rest :
  (d < 10)%N →
  parse_token acc (String (pretty_N_char d) rest) =
  parse_token (wrap64 (wrap64 (acc * 10) + Z.of_N d)) rest.
Proof.
  intros Hd. assert (d = 0 ∨ d = 1 ∨ d = 2 ∨ d = 3 ∨ d = 4 ∨ d = 5 ∨ d = 6 ∨ d = 7 ∨ d = 8 ∨ d = 9)%N
    as Hcases by lia.
  repeat destruct Hcases as [->|Hcases]; try subst d; reflexivity.
Qed.

Lemma parse_pretty_go x rest :
  (Z.of_N x ≤ int64_max)%Z → parse_token 0 (pretty_N_go x rest) = parse_token (Z.of_N x) rest.
Proof.
  revert rest. induction (N.lt_wf_0 x) as [x _ IH]; intros rest Hx.
  destruct (decide (x = 0)%N) as [->|Hne]; [by rewrite pretty_N_go_0|].
  rewrite pretty_N_go_step by lia.
  pose proof (N.div_mod x 10 ltac:(lia)) as Hdm. pose proof (N.mod_lt x 10 ltac:(lia)) as Hm.
  pose proof (N.div_lt x 10 ltac:(lia) ltac:(lia)) as Hlt. specialize (IH _ Hlt).
  revert IH Hdm Hm Hlt. generalize (x / 10)%N (x mod 10)%N. intros q m IH Hdm Hm Hlt.
  rewrite IH by (unfold int64_max in *; lia). rewrite parse_digit by done. f_equal.
  assert (Z.of_N q * 10 + Z.of_N m = Z.of_N x)%Z as Hz by lia.
  rewrite (wrap64_id (Z.of_N q * 10)) by (unfold int64_min, int64_max in *; lia).
  rewrite Hz. apply wrap64_id. unfold int64_min, int64_max in *. lia.
Qed.

(** A page token is the decimal of a sequence number, read back exactly. *)
Lemma parse_token_pretty n :
  (0 < n ≤ int64_max)%Z → pretty n ≠ "" ∧ parse_token 0 (pretty n) = Some n.
Proof.
  intros Hn. destruct n as [|p|p]; try lia.
  change (pretty (Z.pos p)) with (pretty (N.pos p)). unfold pretty, pretty_N.
  case_decide as E; [lia|]. split.
  - rewrite pretty_N_go_step by lia. intros H.
    assert (∀ x s, s ≠ "" → pretty_N_go x s ≠ "") as Hgo.
    { clear. intros x. induction (N.lt_wf_0 x) as [x _ IH]; intros s Hs.
      destruct (decide (x = 0)%N) as [->|]; [by rewrite pretty_N_go_0|].
      rewrite pretty_N_go_step by lia. apply IH; [apply N.div_lt; lia|done]. }
    by eapply Hgo in H.
  - by rewrite parse_pretty_go by lia.
Qed.

Lemma get_loop_spec limit page events :
  (Z.of_nat (length page) ≤ limit)%Z →
  get_loop 0 limit page events =
  if bool_decide (Z.of_nat (length page + length events) ≤ limit)%Z then (page ++ events, "")
  else (take (Z.to_nat limit) (page ++ events),
        match last (take (Z.to_nat limit) (page ++ events)) with Some l => pretty (ev_seq l) | None => "" end).
Proof.
  revert page. induction events as [|e rest IH]; intros page Hp; simpl.
  { rewrite app_nil_r, Nat.add_0_r. by rewrite bool_decide_eq_true_2. }
  case_bool_decide as Hfull.
  - rewrite bool_decide_eq_false_2 by lia.
    assert (Z.to_nat limit = length page) as -> by lia. by rewrite take_app_length.
  - rewrite IH by (rewrite length_app; simpl; lia). rewrite length_app, <-app_assoc. simpl.
    by replace (length page + 1 + length rest) with (length page + S (length rest)) by lia.
Qed.

Lemma last_of_page d tenant session n from L e :
  gapless d → owns_log d tenant session n → (0 ≤ from)%Z →
  last (take L (drop (Z.to_nat from) (session_log d session))) = Some e →
  ev_seq e = last_seq_of from (take L (drop (Z.to_nat from) (session_log d session))).
Proof.
  intros _ _ _ He. unfold last_seq_of.
  apply last_Some in He as [l ->]. by rewrite foldl_app.
Qed.

Lemma take_last_exists {A} (l : list A) n : (0 < n)%nat → l ≠ [] → is_Some (last (take n l)).
Proof. intros Hn Hl. apply last_is_Some. destruct n, l; naive_solver lia. Qed.

Lemma read_pages_spec fuel d tenant session n token from size :
  gapless d → owns_log d tenant session n → (0 ≤ from)%Z →
  (if bool_decide (token = "") then from = 0%Z else parse_token 0 token = Some from) →
  (Z.to_nat (n - from) < fuel)%nat →
  read_pages fuel tenant session token size d = Some (drop (Z.to_nat from) (session_log d session)).
Proof.
  intros Hg Ho. revert token from. induction fuel as [|fuel IH]; intros token from Hf Htok Hfuel; [lia|].
  cbn [read_pages]. unfold GetEvents.
  replace (if bool_decide (token = "") then Some 0%Z else parse_token 0 token) with (Some from)
    by (case_bool_decide; naive_solver). clear Htok.
  assert (1 ≤ if bool_decide (size ≤ 0)%Z || bool_decide (256 < size)%Z then 256 else size)%Z as Hlim
    by (repeat case_bool_decide; simpl; lia).
  revert Hlim. generalize (if bool_decide (size ≤ 0)%Z || bool_decide (256 < size)%Z then 256%Z else size).
  intros limit Hlim. rewrite (Range_slice d tenant session n) by (done || lia). cbn [snd].
  rewrite get_loop_spec by (simpl; lia). simpl app.
  destruct (gapless_log d tenant session n) as (Hlog & Hn & Hlen); [done..|].
  rewrite length_take, length_drop, Hlen. case_bool_decide as Hfit.
  - rewrite bool_decide_eq_true_2 by done. f_equal. apply take_ge.
    rewrite length_drop, Hlen. simpl in Hfit. lia.
  - simpl in Hfit. rewrite take_take, Nat.min_l by lia.
    destruct (take_last_exists (drop (Z.to_nat from) (session_log d session)) (Z.to_nat limit)) as [e He];
      [lia|intros E; apply (f_equal length) in E; rewrite length_drop, Hlen in E; simpl in E; lia|].
    rewrite He. pose proof (last_of_page d tenant session n from _ e Hg Ho Hf He) as Hseq.
    edestruct (page_step d tenant session n from (Z.to_nat limit)) as (H1 & H2 & H3);
      [done..|by intros E; rewrite E in He|].
    rewrite H1 in Hseq. destruct (parse_token_pretty (ev_seq e)) as [Hne Hparse]; [lia|].
    rewrite bool_decide_eq_false_2 by done.
    rewrite (IH _ (ev_seq e)); [|lia|by rewrite bool_decide_eq_false_2|lia].
    by rewrite Hseq, H2.
Qed.

Lemma drain_across (l k : list Event) from n :
  length l = Z.to_nat n → (0 ≤ n)%Z → (0 ≤ from)%Z → l `prefix_of` k →
  drop (Z.to_nat from) l ++ drop (Z.to_nat (Z.max from n)) k = drop (Z.to_nat from) k.
Proof.
  intros Hl Hn Hf [x ->]. destruct (decide (from ≤ n)%Z).
  - rewrite Z.max_r by done. rewrite (drop_app_le l x (Z.to_nat from)) by lia. f_equal. by rewrite <-Hl, drop_app_length.
  - rewrite Z.max_l by lia. by rewrite (drop_ge l) by lia.
Qed.

(** Session writes other than [Append] keep the numbering. *)
Lemma put_session_gapless d id s s' :
  gapless d → db_sessions d !! id = Some s → se_last_seq s' = se_last_seq s →
  gapless (with_sessions (<[id := s']> (db_sessions d)) d).
Proof.
  intros Hg Hs Hseq sid. specialize (Hg sid). unfold session_log in *. simpl.
  rewrite lookup_insert. case_decide; subst; [|done]. by rewrite Hs, <-Hseq in Hg.
Qed.

Lemma SessionCreate_gapless tenant s : keeps (inv gapless) (SessionCreate tenant s).
Proof.
  intros d Hg. unfold SessionCreate. destruct (ValidateLabels _); [done|].
  unfold mbind, M_bind, get. simpl. destruct (db_sessions d !! se_id s) eqn:Hs; [done|].
  intros sid. specialize (Hg sid). unfold session_log in *. simpl.
  rewrite lookup_insert. case_decide; subst; [|done].
  rewrite Hs in Hg. rewrite Hg. simpl. split; [unfold int64_max; lia|done].
Qed.

Lemma UpdateLabels_gapless tenant id labels : keeps (inv gapless) (UpdateLabels tenant id labels).
Proof.
  intros d Hg. unfold UpdateLabels, SessionGet. destruct (ValidateLabels _); [done|].
  unfold mbind, M_bind, get. simpl. destruct (session_of d tenant id) as [s|] eqn:Hs; [|done].
  apply session_of_Some in Hs as [Hs _]. simpl. destruct (session_of _ _ _); simpl;
    by eapply put_session_gapless.
Qed.

Lemma Archive_gapless tenant id : keeps (inv gapless) (Archive tenant id).
Proof.
  intros d Hg. unfold Archive, SessionGet. unfold mbind, M_bind, get. simpl.
  destruct (session_of d tenant id) as [s|] eqn:Hs; [|done].
  apply session_of_Some in Hs as [Hs _]. simpl. destruct (session_of _ _ _); simpl;
    by eapply put_session_gapless.
Qed.
#[export] Hint Resolve SessionCreate_gapless UpdateLabels_gapless Archive_gapless : keeps.

Lemma empty_gapless : gapless empty_db.
Proof. intros sid. done. Qed.

Lemma subscribe_spec fuel tenant session from wakes final :
  Forall (λ d, gapless d ∧ (∃ n, owns_log d tenant session n) ∧
               (length (session_log d session) < fuel)%nat) wakes →
  StronglySorted (λ d d', session_log d session `prefix_of` session_log d' session) wakes →
  (0 ≤ from)%Z → last wakes = Some final →
  fst <$> subscribe fuel tenant session from wakes = Some (drop (Z.to_nat from) (session_log final session)).
Proof.
  revert from. induction wakes as [|d wakes IH]; intros from Hok Hs Hf Hlast; [done|].
  apply Forall_cons in Hok as [(Hg & [n Ho] & Hfuel) Hok].
  apply StronglySorted_inv in Hs as [Hs Hpre].
  destruct (gapless_log d tenant session n) as (_ & Hn & Hlen); [done..|].
  cbn [subscribe]. rewrite (drain_spec fuel d tenant session n) by (done || lia).
  destruct wakes as [|d' wakes].
  { injection Hlast as <-. simpl. by rewrite app_nil_r. }
  specialize (IH (Z.max from n) Hok Hs ltac:(lia) Hlast).
  destruct (subscribe fuel tenant session (Z.max from n) (d' :: wakes)) as [[out m]|]; [|done].
  simpl in *. injection IH as ->. f_equal. apply drain_across; [lia..|].
  rewrite Forall_forall in Hpre. apply Hpre. by apply last_Some_elem_of.
Qed.

(** A small log to evaluate the readers on. *)
Definition demo_session : Session := MkSession "s1" "t1" "demo" ∅ 0 0 None.
Definition demo_events (n : nat) : M DB unit :=
  _ ← SessionCreate "t1" demo_session;
  for_each (λ i, _ ← Append Pool "t1" "s1"
                   (NewEvent ActorSystem EventKindStepStarted (StepStartedPayload "r1" (Z.of_nat i) 0));
                 mret ()) (seq 0 n).
Definition demo_log (n : nat) : DB := (demo_events n empty_db).1.

Lemma demo_gapless n : gapless (demo_log n).
Proof.
  assert (keeps (inv gapless) (demo_events n)) as H by (unfold demo_events; solve_keeps).
  apply H, empty_gapless.
Qed.

(** ** Properties *)

(** Appending to the log.  Under [gapless], an append to a session the
    tenant owns returns the next number, adds exactly that event at the end of
    that session's log, changes no other log, and keeps the invariant; a
    session of another tenant, or none, is [ErrNotFound] and changes nothing. *)
Theorem Append_spec h tenant session e d :
  gapless d →
  match session_of d tenant session with
  | Some s =>
      (se_last_seq s < int64_max)%Z →
      let '(d', r) := Append h tenant session e d in
      r = Ok (se_last_seq s + 1)%Z ∧ gapless d' ∧
      session_log d' session = session_log d session ++ [event_row d session (se_last_seq s + 1) e] ∧
      ∀ other, other ≠ session → session_log d' other = session_log d other
  | None => Append h tenant session e d = (d, Err ErrNotFound)
  end.
Proof.
  intros Hg. assert (Append h tenant session e d = append_body tenant session e d) as ->.
  { destruct h; [|done]. unfold Append, Tx, atomically. rewrite append_body_eq by done.
    destruct (session_of d tenant session); [|done]. by case_bool_decide. }
  rewrite append_body_eq by done. destruct (session_of d tenant session) as [s|] eqn:Hs; [|done].
  intros Hlt. rewrite bool_decide_eq_false_2 by lia.
  apply session_of_Some in Hs as [Hs _]. split_and!; [done| | |].
  - apply appended_gapless; [done..|lia].
  - rewrite appended_log. by rewrite bool_decide_eq_true_2.
  - intros other Hne. rewrite appended_log, bool_decide_eq_false_2 by done. apply app_nil_r.
Qed.

Lemma Append_spec_witness :
  gapless (demo_log 2) ∧
  (Append Pool "t1" "s1" (NewEvent ActorSystem EventKindAnnotation (AnnotationPayload "x")) (demo_log 2)).2 = Ok 3%Z.
Proof.
  split; [apply demo_gapless|].
  pose proof (Append_spec Pool "t1" "s1" (NewEvent ActorSystem EventKindAnnotation (AnnotationPayload "x"))
    (demo_log 2) (demo_gapless 2)) as H.
  assert (session_of (demo_log 2) "t1" "s1" = Some (set_last_seq 2 demo_session)) as Hs by reflexivity.
  rewrite Hs in H. destruct (Append _ _ _ _ _) as [d' r]. apply H. reflexivity.
Defined.

(** A subscription delivers the log exactly once, in order.  Over any
    sequence of wake-ups of a growing log, the events sent are those after
    [from], up to the log at the last wake-up: none skipped, none repeated,
    whatever grew between two wake-ups. *)
Theorem subscribe_exactly_once fuel tenant session from wakes final :
  Forall (λ d, gapless d ∧ (∃ n, owns_log d tenant session n) ∧
               (length (session_log d session) < fuel)%nat) wakes →
  StronglySorted (λ d d', session_log d session `prefix_of` session_log d' session) wakes →
  (0 ≤ from)%Z → last wakes = Some final →
  fst <$> subscribe fuel tenant session from wakes = Some (drop (Z.to_nat from) (session_log final session)).
Proof. apply subscribe_spec. Qed.

Lemma subscribe_exactly_once_witness :
  gapless (demo_log 3) ∧
  fst <$> subscribe 10 "t1" "s1" 1 [demo_log 1; demo_log 1; demo_log 3] =
  Some (drop 1 (session_log (demo_log 3) "s1")).
Proof.
  split; [apply demo_gapless|].
  apply (subscribe_exactly_once 10 "t1" "s1" 1 [demo_log 1; demo_log 1; demo_log 3] (demo_log 3));
    [|repeat constructor; vm_compute; eexists; reflexivity|lia|reflexivity].
  repeat constructor; try apply demo_gapless; try (vm_compute; lia);
    eexists _, _; (split; [reflexivity|reflexivity]).
Defined.

(** The pages of [EventService.Get].  A client that starts without a
    token and follows [next_page_token] reads the whole log, once and in
    order, whatever page size it asks for, and gets an empty token at the end. *)
Theorem read_pages_complete d tenant session s size :
  gapless d → session_of d tenant session = Some s →
  read_pages (S (Z.to_nat (se_last_seq s))) tenant session "" size d = Some (session_log d session).
Proof.
  intros Hg Hs. rewrite (read_pages_spec _ d tenant session (se_last_seq s) "" 0);
    [by rewrite drop_0|done|by exists s|lia|done|lia].
Qed.

Lemma read_pages_complete_witness :
  gapless (demo_log 5) ∧
  read_pages 6 "t1" "s1" "" 2 (demo_log 5) = Some (session_log (demo_log 5) "s1") ∧
  length (session_log (demo_log 5) "s1") = 5%nat.
Proof.
  split; [apply demo_gapless|]. split; [|reflexivity].
  apply (read_pages_complete (demo_log 5) "t1" "s1" (set_last_seq 5 demo_session) 2);
    [apply demo_gapless|reflexivity].
Defined.

(** [countAttempts] counts the attempts.  Its batched scan returns the
    number of [step_started] events of the run and step in the whole log, so
    the attempt number of a redelivered step is the number of attempts that
    were announced before. *)
Theorem countAttempts_exact d tenant session s run stepIndex :
  gapless d → session_of d tenant session = Some s →
  countAttempts (S (Z.to_nat (se_last_seq s))) tenant session run stepIndex 0 d =
  Some (Z.of_nat (length (bool_filter (is_attempt run stepIndex) (session_log d session)))).
Proof.
  intros Hg Hs. rewrite (countAttempts_spec _ d tenant session (se_last_seq s));
    [by rewrite drop_0|done|by exists s|lia|lia].
Qed.

Lemma countAttempts_exact_witness :
  gapless (demo_log 5) ∧ countAttempts 6 "t1" "s1" "r1" 3 0 (demo_log 5) = Some 1%Z.
Proof.
  split; [apply demo_gapless|].
  apply (countAttempts_exact (demo_log 5) "t1" "s1" (set_last_seq 5 demo_session) "r1" 3);
    [apply demo_gapless|reflexivity].
Defined.
