(* ===== verification/Loop.v ===== *)
(** * The loop package: envelopes, registry and the step recorder

    [loop/loop.go]: the versioned history of a run ([Envelope]), the registry
    of loop definitions, and the record in which a step's tools leave what the
    commit has to act on; the key and id derivations of [loop/spawn.go] and
    [loop/waits.go].

    The SHA-1 UUIDs of [github.com/google/uuid] are the operation of the class
    [Uuid]: the code relies on them being a function of namespace and name,
    and where it relies on distinct names giving distinct ids that is the
    hypothesis [NewSHA1_inj]. *)
From Stdlib Require Import Ascii.
From S2P Require Import Prelude Policy Domain Text Store StoreRuns.

(** ** Envelopes *)

Definition DecodeEnvelope (raw : raw_history) : result Envelope :=
  match raw with
  | RawEmpty => Ok (MkEnvelope 1 [] [])
  | RawCorrupt => Err (ErrorText "loop: decode envelope")
  | RawEnvelope env =>
      if negb (bool_decide (envV env = 1%Z)) && negb (bool_decide (envV env = 2%Z))
      then Err (ErrorText "loop: unsupported envelope version")
      else Ok env
  end.

Definition Encode (e : Envelope) : raw_history :=
  RawEnvelope (MkEnvelope
    (if bool_decide (0 < length (envCompactions e))%nat then 2
     else if bool_decide (envV e = 0%Z) then 1 else envV e)
    (envMessages e) (envCompactions e)).

Definition InitialEnvelope (prompt : string) : raw_history :=
  Encode (MkEnvelope 1 [UserMessage prompt] []).

Definition append_message (m : message) (env : Envelope) : Envelope :=
  MkEnvelope (envV env) (envMessages env ++ [m]) (envCompactions env).

Definition AppendUserMessage (raw : raw_history) (text : string) : result raw_history :=
  match DecodeEnvelope raw with
  | Err e => Err e
  | Ok env => Ok (Encode (append_message (UserMessage text) env))
  end.

(** ** The registry of loop definitions *)

Record Definition_ := MkDefinition { defKind : string; defVersion : Z; defSystemPrompt : string }.

Definition DefaultLoopKind : string := "default".
Definition DefaultLoopVersion : Z := 1.

Definition registry_key (kind : string) (version : Z) : string := kind +:+ "@" +:+ pretty version.

Definition Registry : Type := gmap string Definition_.

Definition register (d : Definition_) (r : Registry) : Registry :=
  <[registry_key (defKind d) (defVersion d) := d]> r.

Definition NewRegistry (prompt : string) : Registry :=
  register (MkDefinition DefaultLoopKind DefaultLoopVersion prompt) ∅.

Definition Resolve (r : Registry) (kind : string) (version : Z) : result Definition_ :=
  match r !! registry_key kind version with
  | Some d => Ok d
  | None => Err (ErrorText "loop: unknown loop")
  end.

(** ** The step recorder *)

Record stepRecorder := MkRecorder {
  question : option Question;
  waitRunIDs : list RunID;
  waitToolCallID : string;
  waitTimeout : Z;
  waitKind : string;
  waitPolicy : string;
  toolsCalled : Z;
}.

Definition new_recorder : stepRecorder := MkRecorder None [] "" 0 "" "" 0.

Definition set_question (q : Question) (r : stepRecorder) : stepRecorder :=
  MkRecorder (Some q) (waitRunIDs r) (waitToolCallID r) (waitTimeout r) (waitKind r) (waitPolicy r)
    (toolsCalled r).
Definition set_wait (ids : list RunID) (call : string) (timeout : Z) (kind policy : string)
    (r : stepRecorder) : stepRecorder :=
  MkRecorder (question r) ids call timeout kind policy (toolsCalled r).
Definition count_tool (r : stepRecorder) : stepRecorder :=
  MkRecorder (question r) (waitRunIDs r) (waitToolCallID r) (waitTimeout r) (waitKind r)
    (waitPolicy r) (toolsCalled r + 1).

(** ** Derived keys and ids *)

Definition spawnKey (parent : RunID) (stepIndex : Z) (toolCallID : string) : string :=
  parent +:+ ":" +:+ pretty stepIndex +:+ ":" +:+ toolCallID.

(** The call id of a cohort's i-th child. *)
Definition cohortCallID (callID : string) (i : Z) : string := callID +:+ "#" +:+ pretty i.

Class Uuid := NewSHA1 : string → string → string.

Definition waitNamespace : string := "2c4d6e80-9a3b-4c5d-8e7f-1a2b3c4d5e6f".
Definition cohortNamespace : string := "6f2b1a54-6a1b-4b7f-9a1a-6d0f1b2c3d4e".

Definition deterministicWaitID `{Uuid} (parent : RunID) (stepIndex : Z) (toolCallID : string) : string :=
  NewSHA1 waitNamespace (spawnKey parent stepIndex toolCallID).

Definition cohort_id `{Uuid} (run : RunID) (stepIndex : Z) (callID : string) : string :=
  NewSHA1 cohortNamespace (spawnKey run stepIndex callID).

Definition waitToolName (kind : string) : string :=
  if bool_decide (kind = WaitKindCohort) then "run_agent_cohort" else "wait_for_agents".

(** ** Lemmas: the derived keys are injective where they have to be *)

(** The characters of a string. *)
Definition chars (s : string) : list Ascii.ascii := String.list_ascii_of_string s.

Lemma chars_app s t : chars (s +:+ t) = chars s ++ chars t.
Proof. induction s as [|c s IH]; simpl; [done|]. by rewrite <-IH. Qed.

Lemma chars_inj s t : chars s = chars t → s = t.
Proof.
  intros H. rewrite <-(String.string_of_list_ascii_of_string s), <-(String.string_of_list_ascii_of_string t).
  unfold chars in H. by rewrite H.
Qed.

(** A separator splits in one way when the parts before it do not contain it. *)
Lemma separator_inj {A} (c : A) (p q r s : list A) :
  c ∉ p → c ∉ r → p ++ c :: q = r ++ c :: s → p = r ∧ q = s.
Proof.
  revert r. induction p as [|x p IH]; intros [|y r] Hp Hr Heq; simplify_eq/=;
    [done|set_solver|set_solver|].
  edestruct (IH r) as [-> ->]; [set_solver|set_solver|done|done].
Qed.

Lemma pretty_N_go_chars x s c :
  c ∈ chars (pretty_N_go x s) → (∃ d, (d < 10)%N ∧ c = pretty_N_char d) ∨ c ∈ chars s.
Proof.
  revert s. induction (N.lt_wf_0 x) as [x _ IH]; intros s Hc.
  destruct (decide (x = 0)%N) as [->|]; [rewrite pretty_N_go_0 in Hc; by right|].
  rewrite pretty_N_go_step in Hc by lia.
  apply IH in Hc as [?|Hc]; [by left| |apply N.div_lt; lia].
  simpl in Hc. apply elem_of_cons in Hc as [->|?]; [left|by right].
  exists (x `mod` 10)%N. split; [|done]. apply N.mod_lt. lia.
Qed.

(** A printed integer consists of digits and a minus sign. *)
Lemma pretty_Z_chars (z : Z) c :
  c ∈ chars (pretty z) → (∃ d, (d < 10)%N ∧ c = pretty_N_char d) ∨ c = "-"%char.
Proof.
  assert (∀ n : N, c ∈ chars (pretty n) → (∃ d, (d < 10)%N ∧ c = pretty_N_char d)) as Hn.
  { intros n. unfold pretty, pretty_N. case_decide.
    - intros Hc. exists 0%N. simpl in Hc. set_solver.
    - intros Hc. apply pretty_N_go_chars in Hc as [?|Hc]; [done|]. simpl in Hc. set_solver. }
  intros Hc. destruct z as [|p|p].
  - left. apply (Hn 0%N Hc).
  - left. apply (Hn (N.pos p) Hc).
  - change (pretty (Z.neg p)) with ("-" +:+ pretty (N.pos p)) in Hc.
    rewrite chars_app in Hc. simpl in Hc. apply elem_of_cons in Hc as [->|Hc]; [by right|left].
    by apply (Hn (N.pos p)).
Qed.

Lemma pretty_Z_no (z : Z) c :
  (∀ d, (d < 10)%N → c ≠ pretty_N_char d) → c ≠ "-"%char → c ∉ chars (pretty z).
Proof. intros Hd Hm Hc. apply pretty_Z_chars in Hc as [(d & ? & ->)| ->]; naive_solver. Qed.

Lemma digit_is_not c d :
  c = ":"%char ∨ c = "@"%char ∨ c = "#"%char → (d < 10)%N → c ≠ pretty_N_char d.
Proof.
  intros Hc Hd. assert (d = 0 ∨ d = 1 ∨ d = 2 ∨ d = 3 ∨ d = 4 ∨ d = 5 ∨ d = 6 ∨ d = 7 ∨ d = 8 ∨ d = 9)%N
    as Hcases by lia.
  destruct Hc as [->|[->| ->]]; repeat destruct Hcases as [->|Hcases]; try subst d; discriminate.
Qed.

Lemma pretty_no_colon (z : Z) : ":"%char ∉ chars (pretty z).
Proof. apply pretty_Z_no; [|done]. intros d. apply digit_is_not. tauto. Qed.
Lemma pretty_no_at (z : Z) : "@"%char ∉ chars (pretty z).
Proof. apply pretty_Z_no; [|done]. intros d. apply digit_is_not. tauto. Qed.
Lemma pretty_no_hash (z : Z) : "#"%char ∉ chars (pretty z).
Proof. apply pretty_Z_no; [|done]. intros d. apply digit_is_not. tauto. Qed.

(** The last separator splits in one way when the parts after it do not
    contain it. *)
Lemma last_separator_inj {A} (c : A) (p q r s : list A) :
  c ∉ q → c ∉ s → p ++ c :: q = r ++ c :: s → p = r ∧ q = s.
Proof.
  intros Hq Hs Heq. apply (f_equal reverse) in Heq.
  rewrite !reverse_app, !reverse_cons, <-!app_assoc in Heq. simpl in Heq.
  apply separator_inj in Heq as [H1 H2]; [|by rewrite elem_of_reverse..].
  apply (inj reverse) in H1, H2. done.
Qed.

(** What encoding writes, decoding reads: same messages and compactions, and a
    version the decoder accepts. *)
Lemma Decode_Encode env :
  (0 ≤ envV env ≤ 2)%Z →
  ∃ v, DecodeEnvelope (Encode env) = Ok (MkEnvelope v (envMessages env) (envCompactions env)) ∧
       (1 ≤ v ≤ 2)%Z.
Proof.
  intros Hv. unfold Encode, DecodeEnvelope. simpl.
  repeat case_bool_decide; simpl; try lia; eexists; (split; [done|lia]).
Qed.

Lemma Decode_version raw env : DecodeEnvelope raw = Ok env → (1 ≤ envV env ≤ 2)%Z.
Proof.
  unfold DecodeEnvelope. destruct raw as [|e|]; [by intros [= <-]| |done].
  repeat case_bool_decide; simpl; intros [= <-]; lia.
Qed.

(** ** Properties *)

(** The history survives every write of the loop.  Whatever history
    decodes, appending a user message gives a history that decodes to the same
    messages followed by the new one, with the same compactions: no version or
    compaction state makes a run's own history unreadable. *)
Theorem AppendUserMessage_readable raw text env :
  DecodeEnvelope raw = Ok env →
  ∃ raw' v, AppendUserMessage raw text = Ok raw' ∧
    DecodeEnvelope raw' = Ok (MkEnvelope v (envMessages env ++ [UserMessage text]) (envCompactions env)).
Proof.
  intros Henv. unfold AppendUserMessage. rewrite Henv.
  destruct (Decode_Encode (append_message (UserMessage text) env)) as (v & Hv & _).
  { apply Decode_version in Henv. simpl. lia. }
  by exists (Encode (append_message (UserMessage text) env)), v.
Qed.

Lemma AppendUserMessage_readable_witness :
  ∃ raw' v, AppendUserMessage (InitialEnvelope "hi") "more" = Ok raw' ∧
    DecodeEnvelope raw' = Ok (MkEnvelope v [UserMessage "hi"; UserMessage "more"] []).
Proof.
  apply (AppendUserMessage_readable (InitialEnvelope "hi") "more" (MkEnvelope 1 [UserMessage "hi"] [])).
  reflexivity.
Defined.

(** Spawn keys identify the tool call.  Two spawns share a key only when
    parent, step and call id are all the same; parent ids are UUIDs, which
    contain no colon. *)
Theorem spawnKey_inj p i c p' i' c' :
  ":"%char ∉ chars p → ":"%char ∉ chars p' →
  spawnKey p i c = spawnKey p' i' c' → p = p' ∧ i = i' ∧ c = c'.
Proof.
  intros Hp Hp' H. apply (f_equal chars) in H. unfold spawnKey in H. rewrite !chars_app in H. simpl in H.
  apply separator_inj in H as [H1 H]; [|done..]. apply chars_inj in H1.
  apply separator_inj in H as [H2 H]; [|apply pretty_no_colon..].
  apply chars_inj in H2, H. apply (inj pretty) in H2. done.
Qed.

Lemma spawnKey_inj_witness :
  spawnKey "p1" 2 "c" = spawnKey "p1" 2 "c" ∧ ("p1" = "p1" ∧ 2%Z = 2%Z ∧ "c" = "c").
Proof.
  split; [reflexivity|]. apply (spawnKey_inj "p1" 2 "c" "p1" 2 "c"); [| |reflexivity];
    vm_compute; set_solver.
Defined.

(** The registry is keyed by kind and version.  Registering a definition
    makes it what its own identity resolves to and changes no other loop's
    definition, even for kinds that contain the separator, so a deploy that
    adds a version never changes the behaviour of a run stamped with another. *)
Lemma Resolve_register d r kind version :
  Resolve (register d r) kind version =
  if bool_decide (kind = defKind d) && bool_decide (version = defVersion d) then Ok d
  else Resolve r kind version.
Proof.
  unfold Resolve, register, Registry in *. rewrite lookup_insert. case_decide as E.
  - apply (f_equal chars) in E. unfold registry_key in E. rewrite !chars_app in E. simpl in E.
    apply last_separator_inj in E as [H1 H2]; [|apply pretty_no_at..].
    apply chars_inj in H1, H2. apply (inj pretty) in H2.
    by rewrite !bool_decide_eq_true_2 by done.
  - case_bool_decide; simpl; [|done]. case_bool_decide; [by subst|done].
Qed.
