(* ===== verification/Waits.v ===== *)
(** * Durable waits: parking a parent and resuming it once

    [loop/waits.go] and [loop/waittimeout.go]: creating a wait, closing it when
    its members are terminal or its deadline passed, resuming the parent with
    the aggregate as the result of its tool call, abandoning the waits of a
    terminal run, and the deadline sweep.

    [txs] is the store handle the code passes around; the worker's clock
    ([time.Now()]) is an argument. *)
From S2P Require Import Prelude Policy Domain Text Store StoreRuns EventLog Loop.

(** ** The aggregate, as JSON *)

Definition run_state_name (s : RunState) : string :=
  match s with
  | RunPending => "pending" | RunRunning => "running" | RunAwaiting => "awaiting"
  | RunCompleted => "completed" | RunFailed => "failed" | RunCancelled => "cancelled"
  end.

Definition wait_state_name (s : option WaitState) : string :=
  match s with
  | None => ""
  | Some WaitOpen => "open" | Some WaitResolved => "resolved"
  | Some WaitTimedOut => "timed_out" | Some WaitAbandoned => "abandoned"
  end.

(** [omitempty] *)
Definition omit_string (k v : string) : list (string * json) :=
  if bool_decide (v = "") then [] else [(k, JStr v)].
Definition omit_raw (k : string) (v : option json) : list (string * json) :=
  match v with None => [] | Some j => [(k, j)] end.

Definition marshal_member (m : WaitMemberResult) : json :=
  JObj ([("ordinal", JNum (wr_ordinal m)); ("run_id", JStr (wr_run m));
         ("state", JStr (run_state_name (wr_state m)))] ++
        omit_raw "result" (wr_result m) ++
        omit_string "failure_reason" (wr_failure_reason m) ++
        omit_string "failure_message" (wr_failure_message m)).

Definition marshal_outcome (o : WaitOutcome) : json :=
  JObj ([("wait_id", JStr (wo_wait o)); ("kind", JStr (wo_kind o));
         ("state", JStr (wait_state_name (wo_state o)))] ++
        (if wo_timed_out o then [("timed_out", JBool true)] else []) ++
        [("members", JArr (marshal_member <$> wo_members o));
         ("completed", JNum (wo_completed o)); ("failed", JNum (wo_failed o));
         ("cancelled", JNum (wo_cancelled o))] ++
        (if bool_decide (wo_pending o = 0%Z) then [] else [("pending", JNum (wo_pending o))])).

(** ** Closing and resuming *)

Inductive closeReason := closeReasonChild | closeReasonTimeout.

#[export] Instance closeReason_eq_dec : EqDecision closeReason.
Proof. solve_decision. Defined.

(** The loop over the members: the results of the terminal ones, in member
    order, with the counts per state, and the number still running. *)
Record tally := MkTally {
  t_members : list WaitMemberResult; t_completed : Z; t_failed : Z; t_cancelled : Z; t_pending : Z;
}.

Definition empty_tally : tally := MkTally [] 0 0 0 0.

Definition tally_member (t : tally) (m : RunWaitMember) (child : AgentRun) : tally :=
  if negb (Terminal (ar_state child)) then
    MkTally (t_members t) (t_completed t) (t_failed t) (t_cancelled t) (t_pending t + 1)
  else
    let members := t_members t ++
      [MkWaitMemberResult (wm_ordinal m) (ar_id child) (ar_state child) (ar_result child)
         (ar_failure_reason child) (ar_failure_message child)] in
    match ar_state child with
    | RunCompleted => MkTally members (t_completed t + 1) (t_failed t) (t_cancelled t) (t_pending t)
    | RunFailed => MkTally members (t_completed t) (t_failed t + 1) (t_cancelled t) (t_pending t)
    | RunCancelled => MkTally members (t_completed t) (t_failed t) (t_cancelled t + 1) (t_pending t)
    | _ => MkTally members (t_completed t) (t_failed t) (t_cancelled t) (t_pending t)
    end.

Definition tally_members (org : TenantID) (members : list RunWaitMember) : M DB tally :=
  foldM (λ t m, child ← RunGet org (wm_run m); mret (tally_member t m child)) members empty_tally.

(** [for _, s := range steps { if s.StepIndex >= next { next = s.StepIndex + 1 } }] *)
Definition next_step (steps : list RunStep) : Z :=
  foldl (λ next s, if bool_decide (next ≤ rs_step_index s)%Z then (rs_step_index s + 1)%Z else next)
    0%Z steps.

(** The parent's tool call fails only when the deadline passed under the
    [fail] policy. *)
Definition outcome_is_error (wait : RunWait) (outcome : WaitOutcome) : bool :=
  wo_timed_out outcome && bool_decide (rw_timeout_policy wait = TimeoutPolicyFail).

Definition appendWaitResult (raw : raw_history) (wait : RunWait) (outcome : WaitOutcome) (encoded : json)
  : result raw_history :=
  match DecodeEnvelope raw with
  | Err e => Err e
  | Ok env =>
      Ok (Encode (append_message
            (ToolResultMessage (rw_tool_call_id wait) (ContentJSON encoded) (outcome_is_error wait outcome))
            env))
  end.

Definition resumeParent (txs : handle) (org : TenantID) (wait : RunWait) (outcome : WaitOutcome) (raw : json)
  : M DB bool :=
  first ← MarkResumed org (rw_id wait);
  if negb first then mret false
  else
    parent ← RunGetForUpdate org (rw_parent wait);
    if Terminal (ar_state parent) then mret false
    else
      history ← of_result (appendWaitResult (ar_history parent) wait outcome raw);
      _ ← SetHistory org (ar_id parent) history;
      _ ← SetState org (ar_id parent) RunRunning "" "";
      _ ← Append txs org (ar_session parent)
            (NewEvent ActorSystem EventKindToolResult
               (ToolResultPayload (ar_id parent) (rw_step_index wait) (rw_tool_call_id wait)
                  (waitToolName (rw_kind wait)) (ContentJSON raw) (outcome_is_error wait outcome)));
      steps ← Steps org (ar_id parent);
      _ ← EnqueueInTx txs (StepJob (ar_id parent) (ar_tenant parent) (ar_session parent) (next_step steps)) None;
      mret true.

(** The aggregate a wait closes with. *)
Definition wait_outcome (waitID : string) (wait : RunWait) (reason : closeReason) (t : tally) : WaitOutcome :=
  let timedOut := bool_decide (reason = closeReasonTimeout) && bool_decide (0 < t_pending t)%Z in
  MkWaitOutcome waitID (rw_kind wait) (Some (if timedOut then WaitTimedOut else WaitResolved)) timedOut
    (t_members t) (t_completed t) (t_failed t) (t_cancelled t) (t_pending t).

Definition tryCloseWait (txs : handle) (org : TenantID) (waitID : string) (reason : closeReason) : M DB bool :=
  got ← attempt (WaitGetForUpdate org waitID);
  match got with
  | Err ErrNotFound => mret false
  | Err e => throw e
  | Ok wait =>
      members ← Members waitID;
      t ← tally_members org members;
      if bool_decide (0 < t_pending t)%Z && negb (bool_decide (reason = closeReasonTimeout)) then mret false
      else
        let outcome := wait_outcome waitID wait reason t in
        let state := default WaitOpen (wo_state outcome) in
        let raw := marshal_outcome outcome in
        if is_open wait then
          closed ← WaitClose org waitID state raw;
          if negb closed then mret false
          else resumeParent txs org wait outcome raw
        else
          _ ← WaitSetResult org waitID raw;
          resumeParent txs org wait outcome raw
  end.

(** ** Creating a wait *)

Definition waitTimeoutSlack : Z := 250000000.

(** The member rows: ordinals in the order the ids were named. *)
Definition wait_members (waitID : string) (ids : list RunID) : list RunWaitMember :=
  imap (λ i id, MkRunWaitMember waitID id (Z.of_nat i)) ids.

Definition createWait `{Uuid} (txs : handle) (clock : time) (run : AgentRun) (stepIndex : Z) (rec : stepRecorder)
  : M DB bool :=
  let waitID := deterministicWaitID (ar_id run) stepIndex (waitToolCallID rec) in
  let deadline := (clock + waitTimeout rec)%Z in
  _ ← WaitCreate (ar_tenant run)
        (MkRunWait waitID (ar_id run) stepIndex (waitToolCallID rec) (waitKind rec) WaitOpen
           (waitPolicy rec) deadline None None)
        (wait_members waitID (waitRunIDs rec));
  resumed ← tryCloseWait txs (ar_tenant run) waitID closeReasonChild;
  if resumed : bool then mret false
  else
    _ ← EnqueueInTx txs (WaitTimeoutJob (ar_tenant run)) (Some (deadline + waitTimeoutSlack)%Z);
    mret true.

(** ** The two directions of a terminal run *)

Definition resolveChildWaits (txs : handle) (child : AgentRun) : M DB unit :=
  waits ← ListOpenForChild (ar_tenant child) (ar_id child);
  for_each (λ w, _ ← tryCloseWait txs (ar_tenant child) (rw_id w) closeReasonChild; mret ()) waits.

Definition abandonParentWaits (org : TenantID) (parent : RunID) : M DB unit :=
  waits ← ListOpenForParent org parent;
  for_each (λ w,
    let outcome := MkWaitOutcome (rw_id w) (rw_kind w) (Some WaitAbandoned) false [] 0 0 0 0 in
    _ ← WaitClose org (rw_id w) WaitAbandoned (marshal_outcome outcome);
    _ ← MarkResumed org (rw_id w);
    mret ()) waits.

Definition AbandonWaits (org : TenantID) (parent : RunID) : M DB unit := abandonParentWaits org parent.

(** ** The deadline sweep ([WaitSweeper]) *)

Record WaitSweeper := MkWaitSweeper { Batch : Z; Retry : Z }.

Definition batch (s : WaitSweeper) : Z := if bool_decide (0 < Batch s)%Z then Batch s else 32.
Definition retry (s : WaitSweeper) : Z := if bool_decide (0 < Retry s)%Z then Retry s else 2000000000.

Definition rearm (s : WaitSweeper) (clock : time) (org : TenantID) : M DB unit :=
  Tx Pool (λ txs, EnqueueInTx txs (WaitTimeoutJob org) (Some (clock + retry s)%Z)).

(** The loop over the claimed waits; [true] is the early re-arm after an error. *)
Fixpoint sweep_loop (org : TenantID) (due : list RunWait) : M DB bool :=
  match due with
  | [] => mret false
  | w :: rest =>
      r ← attempt (Tx Pool (λ txs, tryCloseWait txs org (rw_id w) closeReasonTimeout));
      match r with
      | Err _ => mret true
      | Ok _ => sweep_loop org rest
      end
  end.

Definition Sweep (s : WaitSweeper) (clock : time) (org : TenantID) : M DB unit :=
  due ← Tx Pool (λ _, ClaimDue org clock (batch s));
  failed ← sweep_loop org due;
  if failed : bool then rearm s clock org
  else if bool_decide (Z.of_nat (length due) = batch s) then rearm s clock org
  else mret ().
