(* ===== verification/Batcher.v ===== *)
(** * The delta batcher of a streaming step

    [deltaBatcher] of [loop/step.go]: streamed text and reasoning are collected
    in two buffers and written to the event log when the buffers are full, when
    the timer fires, before a tool call, and at the end of the stream.  Every
    method runs under the batcher's mutex, so a run of the batcher is a
    sequence of method calls; the timer's callback is one of them. *)
From S2P Require Import Prelude Policy Domain Text.

Record deltaBatcher := MkBatcher {
  bRun : RunID; bStep : Z; bAttempt : Z; bMaxBytes : Z;
  bText : string; bReason : string; bDeltaIndex : Z; bTimer : bool;
}.

(** The flush interval only matters to the timer, whose firing is an input. *)
Definition newDeltaBatcher (run : RunID) (stepIndex attempt maxBytes : Z) : deltaBatcher :=
  MkBatcher run stepIndex attempt (if bool_decide (maxBytes ≤ 0)%Z then 512 else maxBytes) "" "" 0 false.

(** What a call emits: kind and payload, in order. *)
Definition emission : Type := string * payload.

Definition flushLocked (b : deltaBatcher) : list emission * deltaBatcher :=
  let b := MkBatcher (bRun b) (bStep b) (bAttempt b) (bMaxBytes b) (bText b) (bReason b) (bDeltaIndex b) false in
  let '(out1, b) :=
    if bool_decide (0 < slen (bReason b))%Z then
      ([(EventKindReasoningDelta,
         ReasoningDeltaPayload (bRun b) (bStep b) (bAttempt b) (bDeltaIndex b) (bReason b))],
       MkBatcher (bRun b) (bStep b) (bAttempt b) (bMaxBytes b) (bText b) "" (bDeltaIndex b + 1) (bTimer b))
    else ([], b) in
  let '(out2, b) :=
    if bool_decide (0 < slen (bText b))%Z then
      ([(EventKindTextDelta,
         TextDeltaPayload (bRun b) (bStep b) (bAttempt b) (bDeltaIndex b) (bText b))],
       MkBatcher (bRun b) (bStep b) (bAttempt b) (bMaxBytes b) "" (bReason b) (bDeltaIndex b + 1) (bTimer b))
    else ([], b) in
  (out1 ++ out2, b).

(** After the append to one of the buffers: flush when full, else arm the timer. *)
Definition settle (b : deltaBatcher) : list emission * deltaBatcher :=
  if bool_decide (bMaxBytes b ≤ slen (bText b) + slen (bReason b))%Z then flushLocked b
  else ([], MkBatcher (bRun b) (bStep b) (bAttempt b) (bMaxBytes b) (bText b) (bReason b) (bDeltaIndex b) true).

Definition addText (delta : string) (b : deltaBatcher) : list emission * deltaBatcher :=
  settle (MkBatcher (bRun b) (bStep b) (bAttempt b) (bMaxBytes b) (bText b +:+ delta) (bReason b)
            (bDeltaIndex b) (bTimer b)).
Definition addReasoning (delta : string) (b : deltaBatcher) : list emission * deltaBatcher :=
  settle (MkBatcher (bRun b) (bStep b) (bAttempt b) (bMaxBytes b) (bText b) (bReason b +:+ delta)
            (bDeltaIndex b) (bTimer b)).

(** The timer's callback does something only while it is armed. *)
Definition timerFires (b : deltaBatcher) : list emission * deltaBatcher :=
  if bTimer b then flushLocked b else ([], b).

Definition flushAll (b : deltaBatcher) : list emission * deltaBatcher := flushLocked b.

(** ** Runs of the batcher *)

Inductive batch_call := CallText (delta : string) | CallReasoning (delta : string) | CallTimer | CallFlush.

Definition batch_step (c : batch_call) (b : deltaBatcher) : list emission * deltaBatcher :=
  match c with
  | CallText d => addText d b
  | CallReasoning d => addReasoning d b
  | CallTimer => timerFires b
  | CallFlush => flushAll b
  end.

Fixpoint batch_run (cs : list batch_call) (b : deltaBatcher) : list emission * deltaBatcher :=
  match cs with
  | [] => ([], b)
  | c :: rest => let '(out, b) := batch_step c b in
                 let '(out', b) := batch_run rest b in (out ++ out', b)
  end.

(** ** What the log receives *)

Definition emitted_text (e : emission) : string :=
  match e.2 with TextDeltaPayload _ _ _ _ t => t | _ => "" end.
Definition emitted_reason (e : emission) : string :=
  match e.2 with ReasoningDeltaPayload _ _ _ _ t => t | _ => "" end.
Definition emitted_index (e : emission) : Z :=
  match e.2 with
  | TextDeltaPayload _ _ _ i _ | ReasoningDeltaPayload _ _ _ i _ => i
  | _ => (-1)%Z
  end.
Definition streamed_text (c : batch_call) : string := match c with CallText d => d | _ => "" end.
Definition streamed_reason (c : batch_call) : string := match c with CallReasoning d => d | _ => "" end.

Definition concat_str (l : list string) : string := foldr String.append "" l.

(** ** Lemmas *)

Lemma str_app_assoc (s t u : string) : (s +:+ t) +:+ u = s +:+ (t +:+ u).
Proof. induction s as [|c s IH]; [done|]. change (String c ((s +:+ t) +:+ u) = String c (s +:+ (t +:+ u))). by rewrite IH. Qed.
Lemma str_app_nil (s : string) : s +:+ "" = s.
Proof. induction s as [|c s IH]; [done|]. change (String c (s +:+ "") = String c s). by rewrite IH. Qed.
Lemma concat_str_app l k : concat_str (l ++ k) = concat_str l +:+ concat_str k.
Proof. induction l as [|s l IH]; simpl; [done|]. by rewrite IH, str_app_assoc. Qed.
Lemma slen_zero s : ¬ (0 < slen s)%Z → s = "".
Proof. unfold slen. destruct s; simpl; [done|lia]. Qed.

(** One call: nothing is lost or reordered within a stream, indices go on
    from the batcher's counter. *)
Definition call_ok (streamed_t streamed_r : string) (b : deltaBatcher) (r : list emission * deltaBatcher) : Prop :=
  concat_str (emitted_text <$> r.1) +:+ bText r.2 = bText b +:+ streamed_t ∧
  concat_str (emitted_reason <$> r.1) +:+ bReason r.2 = bReason b +:+ streamed_r ∧
  emitted_index <$> r.1 = seqZ (bDeltaIndex b) (bDeltaIndex r.2 - bDeltaIndex b) ∧
  (bDeltaIndex b ≤ bDeltaIndex r.2)%Z ∧ bMaxBytes r.2 = bMaxBytes b.

Lemma flushLocked_ok b :
  call_ok "" "" b (flushLocked b) ∧ bText (flushLocked b).2 = "" ∧ bReason (flushLocked b).2 = "".
Proof.
  unfold flushLocked, call_ok. simpl.
  destruct (bool_decide (0 < slen (bReason b))%Z) eqn:Hr; simpl;
    destruct (bool_decide (0 < slen (bText b))%Z) eqn:Ht; simpl; rewrite ?str_app_nil;
    try apply bool_decide_eq_false, slen_zero in Hr; try apply bool_decide_eq_false, slen_zero in Ht;
    rewrite ?Hr, ?Ht; split_and!; try done; try lia.
  - replace (bDeltaIndex b + 1 + 1 - bDeltaIndex b)%Z with 2%Z by lia.
    by rewrite !seqZ_cons, seqZ_nil by lia.
  - by rewrite seqZ_cons, seqZ_nil by lia.
  - by rewrite seqZ_cons, seqZ_nil by lia.
  - by rewrite Z.sub_diag.
Qed.

Lemma settle_ok b : call_ok "" "" b (settle b).
Proof.
  unfold settle. case_bool_decide; [apply flushLocked_ok|].
  unfold call_ok. simpl. rewrite !str_app_nil, Z.sub_diag. split_and!; try done; lia.
Qed.

Lemma batch_step_ok c b : call_ok (streamed_text c) (streamed_reason c) b (batch_step c b).
Proof.
  destruct c as [d|d| |]; simpl.
  - destruct (settle_ok (MkBatcher (bRun b) (bStep b) (bAttempt b) (bMaxBytes b) (bText b +:+ d) (bReason b)
      (bDeltaIndex b) (bTimer b))) as (H1 & H2 & H3). simpl in *. unfold addText.
    split_and!; [by rewrite H1, str_app_nil|done|apply H3..].
  - destruct (settle_ok (MkBatcher (bRun b) (bStep b) (bAttempt b) (bMaxBytes b) (bText b) (bReason b +:+ d)
      (bDeltaIndex b) (bTimer b))) as (H1 & H2 & H3). simpl in *. unfold addReasoning.
    split_and!; [done|by rewrite H2, str_app_nil|apply H3..].
  - unfold timerFires. destruct (bTimer b); [apply flushLocked_ok|].
    unfold call_ok. simpl. rewrite !str_app_nil, Z.sub_diag. split_and!; try done; lia.
  - apply flushLocked_ok.
Qed.

Lemma batch_run_ok cs b :
  call_ok (concat_str (streamed_text <$> cs)) (concat_str (streamed_reason <$> cs)) b (batch_run cs b).
Proof.
  revert b. induction cs as [|c cs IH]; intros b; simpl.
  { unfold call_ok. simpl. rewrite !str_app_nil, Z.sub_diag. split_and!; try done; lia. }
  pose proof (batch_step_ok c b) as Hc. destruct (batch_step c b) as [out b'].
  specialize (IH b'). destruct (batch_run cs b') as [out' b'']. unfold call_ok in *. simpl in *.
  destruct Hc as (T & R & I & L & N), IH as (T' & R' & I' & L' & N').
  rewrite !fmap_app, !concat_str_app, !str_app_assoc, T', R', <-!str_app_assoc, T, R, !str_app_assoc, I, I'.
  split_and!; [done|done| |lia|congruence].
  replace (bDeltaIndex b'' - bDeltaIndex b)%Z
    with ((bDeltaIndex b' - bDeltaIndex b) + (bDeltaIndex b'' - bDeltaIndex b'))%Z by lia.
  rewrite seqZ_app by lia. do 2 f_equal. lia.
Qed.

(** ** Properties *)

(** The batcher loses and reorders nothing.  For any sequence of text and
    reasoning deltas, timer firings and flushes, followed by the final flush,
    the text events concatenate to the streamed text, the reasoning events to
    the streamed reasoning, and the delta indices are 0, 1, 2, ... without a
    gap; the buffers end empty. *)
Theorem batcher_lossless run stepIndex attempt maxBytes cs :
  let '(out, b) := batch_run (cs ++ [CallFlush]) (newDeltaBatcher run stepIndex attempt maxBytes) in
  concat_str (emitted_text <$> out) = concat_str (streamed_text <$> cs) ∧
  concat_str (emitted_reason <$> out) = concat_str (streamed_reason <$> cs) ∧
  emitted_index <$> out = seqZ 0 (Z.of_nat (length out)) ∧
  bText b = "" ∧ bReason b = "".
Proof.
  set (b0 := newDeltaBatcher run stepIndex attempt maxBytes).
  pose proof (batch_run_ok (cs ++ [CallFlush]) b0) as H.
  assert (∀ b, bText (batch_run (cs ++ [CallFlush]) b).2 = "" ∧ bReason (batch_run (cs ++ [CallFlush]) b).2 = "") as He.
  { clear. induction cs as [|c cs IH]; intros b; simpl.
    - destruct (flushLocked_ok b) as (_ & H1 & H2). unfold flushAll. by destruct (flushLocked b).
    - destruct (batch_step c b) as [o b']. specialize (IH b'). by destruct (batch_run _ b'). }
  specialize (He b0). destruct (batch_run _ b0) as [out b]. unfold call_ok in H. simpl in *.
  destruct H as (T & R & I & L & _), He as [He1 He2]. rewrite He1, str_app_nil in T. rewrite He2, str_app_nil in R.
  rewrite !fmap_app, !concat_str_app in T, R. simpl in T, R. rewrite !str_app_nil in T, R.
  split_and!; [done..| |done|done]. rewrite I. f_equal.
  apply (f_equal length) in I. rewrite length_fmap, length_seqZ in I. simpl in *. lia.
Qed.

(** Buffering is bounded.  After any sequence of calls the two buffers
    together hold fewer bytes than the flush threshold, and whenever they hold
    anything the timer is armed, so buffered text is always on its way out. *)
Theorem batcher_bounded run stepIndex attempt maxBytes cs :
  let b := (batch_run cs (newDeltaBatcher run stepIndex attempt maxBytes)).2 in
  (slen (bText b) + slen (bReason b) < bMaxBytes b)%Z ∧
  (bTimer b = true ∨ (bText b = "" ∧ bReason b = "")).
Proof.
  set (good := λ b, (0 < bMaxBytes b)%Z ∧ (slen (bText b) + slen (bReason b) < bMaxBytes b)%Z ∧
    (bTimer b = true ∨ (bText b = "" ∧ bReason b = ""))).
  assert (∀ b, (0 < bMaxBytes b)%Z → good (flushLocked b).2) as Hflush.
  { intros b Hb. destruct (flushLocked_ok b) as ((_ & _ & _ & _ & Hm) & Ht & Hr). unfold good.
    rewrite Ht, Hr, Hm. unfold slen. simpl. split_and!; [lia..|by right]. }
  assert (∀ b, (0 < bMaxBytes b)%Z → good (settle b).2) as Hsettle.
  { intros b Hb. unfold settle. case_bool_decide; [by apply Hflush|]. unfold good; simpl.
    split_and!; [lia..|by left]. }
  assert (∀ c b, good b → good (batch_step c b).2) as Hstep.
  { intros [d|d| |] b Hb; simpl; [apply Hsettle, Hb|apply Hsettle, Hb| |apply Hflush, Hb].
    unfold timerFires. destruct (bTimer b); [apply Hflush, Hb|done]. }
  assert (∀ b, good b → good (batch_run cs b).2) as Hrun.
  { induction cs as [|c cs IH]; intros b Hb; simpl; [done|]. specialize (Hstep c b Hb).
    destruct (batch_step c b) as [o b']. specialize (IH b' Hstep). by destruct (batch_run cs b'). }
  assert (good (newDeltaBatcher run stepIndex attempt maxBytes)) as H0.
  { unfold good, newDeltaBatcher, slen. simpl. case_bool_decide; split_and!; try lia; by right. }
  destruct (Hrun _ H0) as (_ & H1 & H2). done.
Qed.
