(* ===== verification/Tools.v ===== *)
(** * The native tools of a run

    [loop/spawn.go], [loop/memorytools.go] and the native tools of
    [loop/loop.go]: spawning a child, waiting for children, running a cohort,
    session memory, [ask_user], [post_event], and the denial stubs.

    A tool body runs outside any transaction of its caller; it opens its own.
    [uuid.NewString()] is the argument [fresh].  [time.ParseDuration] is the
    operation of the class [Durations]. *)
From S2P Require Import Prelude Policy Domain Text Store StoreRuns EventLog Loop Waits.

(** ** Tool responses *)

(** A response is text, the text of a JSON document, or the JSON array of
    memory entries. *)
Inductive response_content :=
  | RespText (c : content)
  | RespEntries (l : list SessionMemoryEntry).

Record ToolResponse := MkToolResponse {
  respContent : response_content; respIsError : bool; respStopTurn : bool;
}.

Definition NewTextResponse (s : string) : ToolResponse :=
  MkToolResponse (RespText (ContentText s)) false false.
Definition NewTextErrorResponse (s : string) : ToolResponse :=
  MkToolResponse (RespText (ContentText s)) true false.
Definition stop_turn (r : ToolResponse) : ToolResponse :=
  MkToolResponse (respContent r) (respIsError r) true.

Definition permissionDenied (run : AgentRun) (tool reason : string) : M DB ToolResponse :=
  _ ← ignore (Append Pool (ar_tenant run) (ar_session run)
        (NewEvent ActorSystem EventKindPermissionDenied
           (PermissionDeniedPayload (ar_id run) tool None reason)));
  mret (NewTextErrorResponse "permission denied").

(** ** Spawning *)

Definition defaultWaitTimeout : Z := 300000000000.
Definition maxCohortSize : Z := 16.
Definition waitOnAllChildren : string := "*".

Class Durations := ParseDuration : string → option Z.

Definition parseWaitTimeout `{Durations} (raw : string) : Z :=
  match ParseDuration raw with
  | Some d => if bool_decide (0 < d)%Z then d else defaultWaitTimeout
  | None => defaultWaitTimeout
  end.

Definition normalizeTimeoutPolicy (raw : string) : string :=
  if bool_decide (raw = TimeoutPolicyFail) then TimeoutPolicyFail else TimeoutPolicyResolve.

(** [strings.TrimSpace(s) == ""]: every rune is white space in the sense of
    [unicode.IsSpace]. *)
Fixpoint all_space (s : string) : bool :=
  match s with
  | EmptyString => true
  | String a s1 =>
      let x := byte_of a in
      if bool_decide (x = 32%Z) || between 9 x 13 then all_space s1
      else
        match s1 with
        | EmptyString => false
        | String b s2 =>
            let y := byte_of b in
            if bool_decide (x = 194%Z) && (bool_decide (y = 133%Z) || bool_decide (y = 160%Z)) then all_space s2
            else
              match s2 with
              | EmptyString => false
              | String c s3 =>
                  let z := byte_of c in
                  if (bool_decide (x = 225%Z) && bool_decide (y = 154%Z) && bool_decide (z = 128%Z)) ||
                     (bool_decide (x = 226%Z) && bool_decide (y = 128%Z) &&
                        (between 128 z 138 || bool_decide (z = 168%Z) || bool_decide (z = 169%Z) ||
                         bool_decide (z = 175%Z))) ||
                     (bool_decide (x = 226%Z) && bool_decide (y = 129%Z) && bool_decide (z = 159%Z)) ||
                     (bool_decide (x = 227%Z) && bool_decide (y = 128%Z) && bool_decide (z = 128%Z))
                  then all_space s3 else false
              end
        end
  end.

Record spawnRequest := MkSpawnRequest {
  sqSpec : childSpec; sqToolCallID : string; sqCohortID : string; sqOrdinal : Z;
}.

(** The arguments of a step job. *)
Record StepJob_ := MkStepJob {
  sj_run : RunID; sj_tenant : TenantID; sj_session : SessionID; sj_step : Z;
}.

(** The child row a spawn writes. *)
Definition child_row (fresh : RunID) (run : AgentRun) (key : string) (policy : RunPolicy) (req : spawnRequest)
  : AgentRun :=
  MkAgentRun fresh (ar_session run) (ar_tenant run) (Some (ar_id run)) key (sqCohortID req) (sqOrdinal req)
    policy (ar_actor run) None RunPending (ar_loop_kind run) (ar_loop_version run) (ar_model run)
    (csPrompt (sqSpec req)) (InitialEnvelope (csPrompt (sqSpec req))) "" "" None 0 0.

(** The spawn transaction.  The flag is [adopted]: [errAdoptedChild] rolls back
    a transaction that has written nothing, which is the same as committing it. *)
Definition spawn_tx (run : AgentRun) (job_tenant job_session : string) (key : string) (child : AgentRun)
  : M DB (AgentRun * bool) :=
  Tx Pool (λ txs,
    _ ← RunGetForUpdate (ar_tenant run) (ar_id run);
    n ← CountChildren (ar_tenant run) (ar_id run);
    if bool_decide (MaxChildren (ar_policy run) ≤ n)%Z then throw (DeniedError "max children reached")
    else
      existing ← attempt (GetBySpawnKey (ar_tenant run) key);
      match existing with
      | Ok c => mret (c, true)
      | Err ErrNotFound =>
          _ ← RunCreate (ar_tenant run) child;
          _ ← Append txs (ar_tenant run) (ar_session run)
                (NewEvent (ActorAgent (ar_id run)) EventKindRunSpawned
                   (RunSpawnedPayload (ar_id run) (ar_id child)));
          _ ← EnqueueInTx txs (StepJob (ar_id child) job_tenant job_session 0) None;
          mret (child, false)
      | Err e => throw e
      end).

Definition spawnChild (fresh : RunID) (run : AgentRun) (job : StepJob_) (req : spawnRequest)
  : M DB (AgentRun * bool) :=
  if all_space (csPrompt (sqSpec req)) then throw ErrMissingChildPrompt
  else
    policy ← of_result (resolvePolicy (sqSpec req) (ar_policy run));
    if bool_decide (MaxChildren (ar_policy run) ≤ 0)%Z then throw (DeniedError "spawning not permitted")
    else
      let key := spawnKey (ar_id run) (sj_step job) (sqToolCallID req) in
      existing ← attempt (GetBySpawnKey (ar_tenant run) key);
      match existing with
      | Ok c => mret (c, true)
      | Err ErrNotFound =>
          spawn_tx run (sj_tenant job) (sj_session job) key (child_row fresh run key policy req)
      | Err e => throw e
      end.

(** ** Tools *)

(** A tool body: the recorder of the step and the database. *)
Definition tool_body : Type := stepRecorder → M DB (ToolResponse * stepRecorder).

(** A tool that leaves the recorder alone. *)
Definition plain (m : M DB ToolResponse) : tool_body := λ rec, resp ← m; mret (resp, rec).

Definition spawnOutcome (id : RunID) (adopted : bool) : json :=
  JObj ([("run_id", JStr id)] ++ (if adopted then [("adopted", JBool true)] else [])).

Definition errMissingChildPrompt_text : string :=
  "loop: a spawn requires either a prompt or an agent_ref".

(** How the spawn tools answer a failed spawn. *)
Definition spawn_failed (run : AgentRun) (tool other : string) (e : err) : M DB ToolResponse :=
  match e with
  | DeniedError reason => permissionDenied run tool reason
  | ErrMissingChildPrompt => mret (NewTextErrorResponse errMissingChildPrompt_text)
  | _ => mret (NewTextErrorResponse other)
  end.

Definition spawnAgentTool (fresh : RunID) (run : AgentRun) (job : StepJob_) (callID : string) (in_ : childSpec)
  : tool_body :=
  plain (if negb (AllowsTool (ar_policy run) "spawn_agent") then
           permissionDenied run "spawn_agent" "tool not granted"
         else
           r ← attempt (spawnChild fresh run job (MkSpawnRequest in_ callID "" 0));
           match r with
           | Err e => spawn_failed run "spawn_agent" "spawn failed" e
           | Ok (child, adopted) =>
               mret (MkToolResponse (RespText (ContentJSON (spawnOutcome (ar_id child) adopted))) false false)
           end).

(** The ids a wait names, in order, ["*"] replaced by every child; [None] is a
    run that is not a child. *)
Fixpoint wait_ids (children : list RunID) (raw : list string) : option (list RunID) :=
  match raw with
  | [] => Some []
  | r :: rest =>
      if bool_decide (r = waitOnAllChildren) then (λ ids, children ++ ids) <$> wait_ids children rest
      else if bool_decide (r ∈ children) then (λ ids, r :: ids) <$> wait_ids children rest
      else None
  end.

(** The deduplication loop: the first occurrence of each id. *)
Fixpoint unique (seen : list RunID) (ids : list RunID) : list RunID :=
  match ids with
  | [] => []
  | id :: rest =>
      if bool_decide (id ∈ seen) then unique seen rest else id :: unique (id :: seen) rest
  end.

Definition waitForAgentsTool `{Durations} (run : AgentRun) (callID : string) (runIDs : list string)
    (timeout policy : string) : tool_body := λ rec,
  if bool_decide (runIDs = []) then
    mret (NewTextErrorResponse "wait_for_agents requires at least one run id", rec)
  else
    children ← Children (ar_tenant run) (ar_id run);
    match wait_ids (ar_id <$> children) runIDs with
    | None =>
        resp ← permissionDenied run "wait_for_agents" "run is not a child of this agent";
        mret (resp, rec)
    | Some [] => mret (NewTextErrorResponse "wait_for_agents matched no child agents", rec)
    | Some ids =>
        mret (stop_turn (NewTextResponse "waiting for child agents"),
              set_wait (unique [] ids) callID (parseWaitTimeout timeout) WaitKindWait
                (normalizeTimeoutPolicy policy) rec)
    end.

(** The cohort's spawn loop: the ids spawned so far and the first error. *)
Fixpoint spawn_cohort (fresh : Z → RunID) (run : AgentRun) (job : StepJob_) (callID cohortID : string)
    (i : Z) (specs : list childSpec) : M DB (list RunID + err) :=
  match specs with
  | [] => mret (inl [])
  | spec :: rest =>
      r ← attempt (spawnChild (fresh i) run job (MkSpawnRequest spec (cohortCallID callID i) cohortID i));
      match r with
      | Err e => mret (inr e)
      | Ok (child, _) =>
          more ← spawn_cohort fresh run job callID cohortID (i + 1) rest;
          mret (match more with inl ids => inl (ar_id child :: ids) | inr e => inr e end)
      end
  end.

Definition runAgentCohortTool `{Uuid} `{Durations} (fresh : Z → RunID) (run : AgentRun) (job : StepJob_)
    (callID : string) (specs : list childSpec) (timeout policy : string) : tool_body := λ rec,
  if negb (AllowsTool (ar_policy run) "run_agent_cohort") then
    resp ← permissionDenied run "run_agent_cohort" "tool not granted"; mret (resp, rec)
  else if bool_decide (specs = []) then
    mret (NewTextErrorResponse "run_agent_cohort requires at least one spec", rec)
  else if bool_decide (maxCohortSize < Z.of_nat (length specs))%Z then
    mret (NewTextErrorResponse ("cohort size " +:+ pretty (Z.of_nat (length specs)) +:+
            " exceeds the limit of " +:+ pretty maxCohortSize), rec)
  else
    r ← spawn_cohort fresh run job callID (cohort_id (ar_id run) (sj_step job) callID) 0 specs;
    match r with
    | inr e => resp ← spawn_failed run "run_agent_cohort" "cohort spawn failed" e; mret (resp, rec)
    | inl ids =>
        mret (stop_turn (NewTextResponse "cohort launched; waiting for members"),
              set_wait ids callID (parseWaitTimeout timeout) WaitKindCohort
                (normalizeTimeoutPolicy policy) rec)
    end.

(** ** Session memory tools *)

Definition maxInlineMemoryValue : Z := 1024.

Definition appendMemoryEvent (txs : handle) (run : AgentRun) (kind key value : string) (actor : Actor)
  : M DB unit :=
  let inline := if bool_decide (maxInlineMemoryValue < slen value)%Z then "" else value in
  _ ← Append txs (ar_tenant run) (ar_session run)
        (NewEvent actor kind (MemoryPayload (NewMemoryEventPayload key actor inline)));
  mret ().

Definition err_text (e : err) : string :=
  match e with
  | ErrNotFound => "not found"
  | ErrAlreadyExists => "already exists"
  | ErrPermissionDenied => "permission denied"
  | ErrStale => "loop: stale step delivery"
  | ErrCancelledCommit => "loop: run cancelled"
  | ErrAdoptedChild => "loop: child already spawned for this tool call"
  | ErrMissingChildPrompt => errMissingChildPrompt_text
  | DeniedError r => r
  | CodeError _ m => m
  | ErrorText m => m
  end.

Definition memory_get (run : AgentRun) (key : string) : M DB ToolResponse :=
  r ← attempt (MemoryGet (ar_tenant run) (ar_session run) key);
  match r with
  | Err _ => mret (NewTextErrorResponse "memory not found")
  | Ok e => mret (NewTextResponse (me_value e))
  end.

Definition memory_list (run : AgentRun) : M DB ToolResponse :=
  r ← attempt (MemoryList (ar_tenant run) (ar_session run));
  match r with
  | Err _ => mret (NewTextErrorResponse "memory list failed")
  | Ok items => mret (MkToolResponse (RespEntries items) false false)
  end.

(** [value] is the encoding of the input's value; [None] when it has none. *)
Definition memory_set (run : AgentRun) (key : string) (value : option string) : M DB ToolResponse :=
  match value with
  | None => mret (NewTextErrorResponse "invalid value")
  | Some b =>
      let actor := ActorAgent (ar_id run) in
      r ← attempt (Tx Pool (λ txs,
            _ ← MemorySet (ar_tenant run) (MkMemoryEntry (ar_session run) key b actor 0);
            appendMemoryEvent txs run EventKindMemorySet key b actor));
      match r with
      | Err e => mret (NewTextErrorResponse (err_text e))
      | Ok _ => mret (NewTextResponse "stored")
      end
  end.

Definition memory_delete (run : AgentRun) (key : string) : M DB ToolResponse :=
  let actor := ActorAgent (ar_id run) in
  r ← attempt (Tx Pool (λ txs,
        _ ← MemoryDelete (ar_tenant run) (ar_session run) key;
        appendMemoryEvent txs run EventKindMemoryDeleted key "" actor));
  match r with
  | Err _ => mret (NewTextErrorResponse "delete failed")
  | Ok _ => mret (NewTextResponse "deleted")
  end.

(** ** [ask_user] and [post_event] *)

Definition askUserTool (q : Question) : tool_body := λ rec,
  mret (stop_turn (NewTextResponse
          "Question posed to the user; their answer will arrive as the next user message."),
        set_question q rec).

Definition postEventTool (tenant : TenantID) (session : SessionID) (runID : RunID) (text : string)
  : M DB ToolResponse :=
  r ← attempt (Append Pool tenant session
        (NewEvent (ActorAgent runID) EventKindAnnotation (AnnotationPayload text)));
  match r with
  | Err _ => mret (NewTextErrorResponse "failed to post note")
  | Ok _ => mret (NewTextResponse "posted")
  end.

(** ** Which tools a step offers *)

Definition native_tools (p : RunPolicy) : list string :=
  (if AllowsTool p "ask_user" then ["ask_user"] else []) ++
  (if AllowsTool p "post_event" then ["post_event"] else []).

Definition memoryTools (p : RunPolicy) : list string :=
  bool_filter (AllowsTool p)
    ["session_memory_get"; "session_memory_list"; "session_memory_set"; "session_memory_delete"].

Definition spawnTools (p : RunPolicy) : list string :=
  if negb (AllowsTool p "spawn_agent") then []
  else ["spawn_agent"; "wait_for_agents"] ++
       (if AllowsTool p "run_agent_cohort" then ["run_agent_cohort"] else []).

Definition denialStubs (offered : list string) : list string :=
  bool_filter (λ name, negb (bool_decide (name ∈ offered))) CanonicalTools.

(** The tools a step runs, without the stubs; [dynamic] are those of the
    [ToolResolver]. *)
Definition step_tools (p : RunPolicy) (dynamic : list string) : list string :=
  native_tools p ++ memoryTools p ++ spawnTools p ++ dynamic.
