(* ===== verification/Step.v ===== *)
(** * The step worker

    [loop/step.go] and the cost hook of [loop/automation.go]: claiming a run,
    executing one model step, committing its outcome, and the terminal paths.

    The agent framework ([charm.land/fantasy]) and the model are not under the
    repository: what one [agent.Stream] call does is the argument [Stream], a
    sequence of callbacks and tool calls ending in a result or an error, and
    everything else a step needs from outside is a field of [WorkEnv]. *)
From S2P Require Import Prelude Policy Domain Text Store StoreRuns EventLog Loop Waits Batcher Tools.

(** ** What the framework returns *)

Record StepResult := MkStepResult {
  stMessages : list message; stInputTokens : Z; stOutputTokens : Z; stFinishReason : string;
}.

(** A part of the response: text, or something else. *)
Inductive response_part := TextContent (text : string) | OtherContent.

Record AgentResult := MkAgentResult { arSteps : list StepResult; arContent : list response_part }.

(** The framework's constant for a step that ended in tool calls. *)
Class Fantasy := FinishReasonToolCalls : string.

Inductive stream_error :=
  | ProviderError (status : Z) (auth retryable : bool)
  | OtherError.

Fixpoint finalText (content : list response_part) : string :=
  match content with
  | [] => ""
  | TextContent t :: _ => t
  | OtherContent :: rest => finalText rest
  end.

(** [Redact] is the process-wide redactor. *)
Definition ClassifyProviderError (Redact : string → string) (e : stream_error) : string * string :=
  match e with
  | ProviderError status auth _ =>
      if bool_decide (status = 401%Z) || bool_decide (status = 403%Z) || auth then
        (FailureCredentialInvalid,
         "the inference credential was rejected by the provider — rotate it in org settings")
      else (FailureProviderError, Redact ("provider error (HTTP " +:+ pretty status +:+ ")"))
  | OtherError => (FailureProviderError, "provider error")
  end.

(** ** Terminal paths *)

(** [txStale]: a cancellation commits, and is then reported as stale. *)
Definition txStale {A} (fn : handle → M DB A) : M DB A :=
  r ← Tx Pool (λ txs,
        r ← attempt (fn txs);
        match r with
        | Ok a => mret (Some a)
        | Err ErrCancelledCommit => mret None
        | Err e => throw e
        end);
  match r with
  | Some a => mret a
  | None => throw ErrStale
  end.

Definition settleTerminalRun (txs : handle) (org : TenantID) (runID : RunID) : M DB unit :=
  _ ← abandonParentWaits org runID;
  run ← RunGet org runID;
  resolveChildWaits txs run.

Definition markCancelledTx {A} (txs : handle) (job : StepJob_) : M DB A :=
  _ ← SetState (sj_tenant job) (sj_run job) RunCancelled "" "";
  _ ← Append txs (sj_tenant job) (sj_session job)
        (NewEvent ActorSystem EventKindRunCancelled (RunCancelledPayload (sj_run job)));
  _ ← settleTerminalRun txs (sj_tenant job) (sj_run job);
  throw ErrCancelledCommit.

Definition failRun (job : StepJob_) (reason message : string) : M DB unit :=
  Tx Pool (λ txs,
    got ← attempt (RunGetForUpdate (sj_tenant job) (sj_run job));
    match got with
    | Err _ => mret ()
    | Ok run =>
        if Terminal (ar_state run) then mret ()
        else
          _ ← SetState (sj_tenant job) (ar_id run) RunFailed reason message;
          _ ← Append txs (sj_tenant job) (sj_session job)
                (NewEvent ActorSystem EventKindRunFailed (RunFailedPayload (ar_id run) reason message));
          settleTerminalRun txs (sj_tenant job) (ar_id run)
    end).

(** [cancelled] is [errors.Is(context.Cause(stepCtx), errCancelRequested)],
    [interrupted] is [ctx.Err() != nil]. *)
Definition handleStreamError (Redact : string → string) (job : StepJob_) (cancelled interrupted : bool)
    (streamErr : stream_error) : M DB unit :=
  if cancelled then
    r ← attempt (txStale (A:=unit) (λ txs, markCancelledTx txs job));
    match r with
    | Err ErrStale | Ok _ => mret ()
    | Err e => throw e
    end
  else if interrupted then throw (ErrorText "loop: step interrupted")
  else
    let '(reason, message) := ClassifyProviderError Redact streamErr in
    failRun job reason message.

(** ** Claiming *)

(** The scan terminates: each batch moves [from] forward through the events
    the session has, so the number of events bounds the iterations. *)
Definition attempts_so_far (job : StepJob_) (d : DB) : Z :=
  default 0%Z (countAttempts (S (length (db_events d))) (sj_tenant job) (sj_session job) (sj_run job)
                 (sj_step job) 0 d).

Definition claim (job : StepJob_) : M DB (AgentRun * Z) :=
  r ← attempt (txStale (λ txs,
        run ← RunGetForUpdate (sj_tenant job) (sj_run job);
        if negb (bool_decide (ar_state run = RunPending)) && negb (bool_decide (ar_state run = RunRunning))
        then throw ErrStale
        else if bool_decide (is_Some (ar_cancel_requested_at run)) then markCancelledTx txs job
        else
          steps ← Steps (sj_tenant job) (ar_id run);
          if existsb (λ s, bool_decide (rs_step_index s = sj_step job)) steps then throw ErrStale
          else
            n ← gets (attempts_so_far job);
            _ ← (if bool_decide (ar_state run = RunPending)
                 then SetState (sj_tenant job) (ar_id run) RunRunning "" "" else mret ());
            mret (run, (n + 1)%Z)));
  match r with
  | Ok x => mret x
  | Err ErrNotFound => throw ErrStale
  | Err e => throw e
  end.

(** ** Committing *)

(** The value is [json.Marshal] of a map, keys sorted. *)
Definition quoted (s : string) : string :=
  let q := String (Ascii.ascii_of_nat 34) EmptyString in q +:+ s +:+ q.
Definition cost_json (tokensIn tokensOut : Z) : string :=
  "{" +:+ quoted "input_tokens" +:+ ":" +:+ pretty tokensIn +:+ "," +:+
  quoted "output_tokens" +:+ ":" +:+ pretty tokensOut +:+ "}".

Definition AccountStepCost (h : handle) (run : AgentRun) (step : RunStep) : M DB unit :=
  Tx h (λ txs,
    _ ← MemorySet (ar_tenant run)
          (MkMemoryEntry (ar_session run) "system.cost.latest"
             (cost_json (rs_tokens_in step) (rs_tokens_out step)) ActorSystem 0);
    _ ← Append txs (ar_tenant run) (ar_session run)
          (NewEvent ActorSystem EventKindHookFired (HookFiredPayload "cost-accounting" (ar_id run)));
    mret ()).

Definition waitAwaitingText (rec : stepRecorder) : string :=
  if bool_decide (waitKind rec = WaitKindCohort) then "Waiting for agent cohort"
  else "Waiting for child agents".

Definition final_json (final : string) : json := JObj [("final_text", JStr final)].

Definition set_state (st : RunState) (res : option json) (r : AgentRun) : AgentRun :=
  MkAgentRun (ar_id r) (ar_session r) (ar_tenant r) (ar_parent r) (ar_spawn_key r) (ar_cohort_id r)
    (ar_cohort_ordinal r) (ar_policy r) (ar_actor r) res st (ar_loop_kind r) (ar_loop_version r)
    (ar_model r) (ar_prompt r) (ar_history r) (ar_failure_reason r) (ar_failure_message r)
    (ar_cancel_requested_at r) (ar_created_at r) (ar_updated_at r).

(** [appendTx]: an event of the agent in the commit's transaction. *)
Definition appendTx (txs : handle) (job : StepJob_) (kind : string) (p : payload) : M DB unit :=
  _ ← Append txs (sj_tenant job) (sj_session job) (NewEvent (ActorAgent (sj_run job)) kind p);
  mret ().

(** The classification: park on children, park on a human, continue, or
    complete. *)
Definition classify_outcome `{Uuid} `{Fantasy} (txs : handle) (clock : time) (run : AgentRun) (job : StepJob_)
    (step : StepResult) (content : list response_part) (rec : stepRecorder) : M DB unit :=
  if bool_decide (0 < length (waitRunIDs rec))%nat then
    park ← createWait txs clock run (sj_step job) rec;
    if negb park then mret ()
    else
      _ ← SetState (sj_tenant job) (sj_run job) RunAwaiting "" "";
      appendTx txs job EventKindRunAwaiting
        (RunAwaitingPayload (sj_run job) (MkQuestion (waitAwaitingText rec) []))
  else
    match question rec with
    | Some q =>
        _ ← SetState (sj_tenant job) (sj_run job) RunAwaiting "" "";
        appendTx txs job EventKindRunAwaiting (RunAwaitingPayload (sj_run job) q)
    | None =>
        if bool_decide (stFinishReason step = FinishReasonToolCalls) then
          EnqueueInTx txs (StepJob (sj_run job) (sj_tenant job) (sj_session job) (sj_step job + 1)) None
        else
          _ ← SetState (sj_tenant job) (sj_run job) RunCompleted "" "";
          let final := finalText content in
          _ ← SetResult (sj_tenant job) (sj_run job) (final_json final);
          _ ← appendTx txs job EventKindRunCompleted (RunCompletedPayload (sj_run job) final);
          _ ← abandonParentWaits (ar_tenant run) (sj_run job);
          resolveChildWaits txs (set_state RunCompleted (Some (final_json final)) run)
    end.

Definition commit_tx `{Uuid} `{Fantasy} (clock : time) (job : StepJob_) (attempt_ : Z) (encoded : raw_history)
    (step : StepResult) (content : list response_part) (rec : stepRecorder) (txs : handle) : M DB unit :=
  run ← RunGetForUpdate (sj_tenant job) (sj_run job);
  if negb (bool_decide (ar_state run = RunRunning)) then throw ErrStale
  else if bool_decide (is_Some (ar_cancel_requested_at run)) then markCancelledTx txs job
  else
    _ ← SetHistory (sj_tenant job) (sj_run job) encoded;
    let record := MkRunStep (sj_run job) (sj_step job) attempt_ (stInputTokens step) (stOutputTokens step)
                    (stFinishReason step) 0 in
    ins ← attempt (InsertStep (sj_tenant job) record);
    match ins with
    | Err ErrAlreadyExists => throw ErrStale
    | Err e => throw e
    | Ok _ =>
        _ ← ignore (AccountStepCost txs run record);
        _ ← appendTx txs job EventKindStepFinished
              (StepFinishedPayload (sj_run job) (sj_step job) (stInputTokens step) (stOutputTokens step)
                 (stFinishReason step));
        classify_outcome txs clock run job step content rec
    end.

Definition commitOutcome `{Uuid} `{Fantasy} (clock : time) (job : StepJob_) (attempt_ : Z) (env : Envelope)
    (result : AgentResult) (rec : stepRecorder) : M DB unit :=
  match arSteps result with
  | [] => failRun job FailureProviderError "model returned no step"
  | step :: _ =>
      let encoded := Encode (MkEnvelope (envV env) (envMessages env ++ stMessages step) (envCompactions env)) in
      r ← attempt (txStale (commit_tx clock job attempt_ encoded step (arContent result) rec));
      match r with
      | Err ErrStale => mret ()
      | Err e => throw e
      | Ok _ => mret ()
      end
  end.

(** ** One step ([StepWorker.Work]) *)

(** The decoded input of a native tool call. *)
Inductive tool_input :=
  | InAskUser (q : Question)
  | InPostEvent (text : string)
  | InMemoryGet (key : string)
  | InMemoryList
  | InMemorySet (key : string) (value : option string)
  | InMemoryDelete (key : string)
  | InSpawn (spec : childSpec)
  | InWait (runIDs : list string) (timeout policy : string)
  | InCohort (specs : list childSpec) (timeout policy : string).

Definition input_tool (i : tool_input) : string :=
  match i with
  | InAskUser _ => "ask_user"
  | InPostEvent _ => "post_event"
  | InMemoryGet _ => "session_memory_get"
  | InMemoryList => "session_memory_list"
  | InMemorySet _ _ => "session_memory_set"
  | InMemoryDelete _ => "session_memory_delete"
  | InSpawn _ => "spawn_agent"
  | InWait _ _ _ => "wait_for_agents"
  | InCohort _ _ _ => "run_agent_cohort"
  end.

(** What happens while a stream runs: callbacks, the batcher's timer, tool
    calls ([ActNative] carries the ids the call's spawns would take), a tick of
    [pollCancel], and the transactions of other processes ([ActOthers]). *)
Inductive stream_action :=
  | ActText (delta : string)
  | ActReasoning (delta : string)
  | ActTimer
  | ActToolCall (callID name input : string)
  | ActToolResult (callID name : string) (c : content) (isError : bool)
  | ActNative (callID : string) (fresh : Z → RunID) (i : tool_input)
  | ActOther (callID name input : string)
  | ActPoll
  | ActOthers (f : DB → DB).

(** What a stream carries: the recorder, the batcher, and whether the step
    context was cancelled with [errCancelRequested]. *)
Record stream_state := MkStreamState {
  ssRec : stepRecorder; ssBatcher : deltaBatcher; ssCancelled : bool;
}.

Definition Stream : Type := list stream_action * (AgentResult + stream_error).

Inductive resolved_model := ModelOK | CredentialErr (reason message : string) | ModelErr (e : err).

Record WorkEnv := MkWorkEnv {
  weResolve : ModelConfig → resolved_model;
  weRegistry : Registry;
  weHistoryBytes : raw_history → Z;
  weDynamic : AgentRun → result (list string);
  weDynamicCall : AgentRun → string → string → string → M DB unit;
  weDeltaFlushBytes : Z;
  weRedact : string → string;
  weStream : ModelConfig → Envelope → Stream;
  weInterrupted : bool;
  weClock : time;
}.

(** [appendEvent]: failures are logged, not returned. *)
Definition appendEvent (job : StepJob_) (kind : string) (p : payload) : M DB unit :=
  ignore (Append Pool (sj_tenant job) (sj_session job) (NewEvent (ActorAgent (sj_run job)) kind p)).

Definition emit_all (job : StepJob_) (out : list emission) : M DB unit :=
  for_each (λ e, appendEvent job e.1 e.2) out.

Section stream.
Context `{Uuid} `{Durations}.

Definition native_call (run : AgentRun) (job : StepJob_) (callID : string) (fresh : Z → RunID) (i : tool_input)
  : tool_body :=
  match i with
  | InAskUser q => askUserTool q
  | InPostEvent text => plain (postEventTool (sj_tenant job) (sj_session job) (sj_run job) text)
  | InMemoryGet k => plain (memory_get run k)
  | InMemoryList => plain (memory_list run)
  | InMemorySet k v => plain (memory_set run k v)
  | InMemoryDelete k => plain (memory_delete run k)
  | InSpawn spec => spawnAgentTool (fresh 0%Z) run job callID spec
  | InWait ids timeout policy => waitForAgentsTool run callID ids timeout policy
  | InCohort specs timeout policy => runAgentCohortTool fresh run job callID specs timeout policy
  end.

(** Dispatch by name: the tools of the step, then the stubs.  A name nothing
    offers is answered by the framework itself. *)
Definition dispatch (env : WorkEnv) (dynamic : list string) (run : AgentRun) (job : StepJob_)
    (a : stream_action) (rec : stepRecorder) : M DB stepRecorder :=
  match a with
  | ActNative callID fresh i =>
      if bool_decide (input_tool i ∈ native_tools (ar_policy run) ++ memoryTools (ar_policy run) ++
                                     spawnTools (ar_policy run)) then
        r ← native_call run job callID fresh i rec; mret r.2
      else if bool_decide (input_tool i ∈ dynamic) then mret rec
      else _ ← permissionDenied run (input_tool i) "tool not granted"; mret rec
  | ActOther callID name input =>
      if bool_decide (name ∈ dynamic) then _ ← ignore (weDynamicCall env run callID name input); mret rec
      else if bool_decide (name ∈ denialStubs (step_tools (ar_policy run) dynamic)) then
        _ ← permissionDenied run name "tool not granted"; mret rec
      else mret rec
  | _ => mret rec
  end.

(** One tick of [pollCancel], which stops once it has cancelled the step. *)
Definition pollCancel (job : StepJob_) (cancelled : bool) : M DB bool :=
  if cancelled then mret true
  else
    r ← attempt (RunGet (sj_tenant job) (sj_run job));
    mret match r with
         | Ok run => bool_decide (is_Some (ar_cancel_requested_at run))
         | Err _ => false
         end.

(** One action.  [main] distinguishes the first stream from the fallback, which
    registers only the text callback. *)
Definition stream_step (env : WorkEnv) (dynamic : list string) (run : AgentRun) (job : StepJob_) (main : bool)
    (s : stream_state) (a : stream_action) : M DB stream_state :=
  let '(MkStreamState rec b c) := s in
  match a with
  | ActText delta => let '(out, b) := addText delta b in _ ← emit_all job out; mret (MkStreamState rec b c)
  | ActReasoning delta =>
      if main then let '(out, b) := addReasoning delta b in _ ← emit_all job out; mret (MkStreamState rec b c)
      else mret s
  | ActTimer => let '(out, b) := timerFires b in _ ← emit_all job out; mret (MkStreamState rec b c)
  | ActToolCall callID name input =>
      if main then
        let '(out, b) := flushAll b in
        _ ← emit_all job out;
        _ ← appendEvent job EventKindToolCallStart
              (ToolCallStartedPayload (sj_run job) (sj_step job) callID name input);
        mret (MkStreamState (count_tool rec) b c)
      else mret s
  | ActToolResult callID name result isError =>
      if main then
        _ ← appendEvent job EventKindToolResult
              (ToolResultPayload (sj_run job) (sj_step job) callID name result isError);
        mret s
      else mret s
  | ActNative _ _ _ | ActOther _ _ _ =>
      rec ← dispatch env dynamic run job a rec; mret (MkStreamState rec b c)
  | ActPoll => c ← pollCancel job c; mret (MkStreamState rec b c)
  | ActOthers f => _ ← modify f; mret s
  end.

(** A stream, and the flush after it. *)
Definition run_stream (env : WorkEnv) (dynamic : list string) (run : AgentRun) (job : StepJob_) (main : bool)
    (s : stream_state) (actions : list stream_action) : M DB stream_state :=
  s ← foldM (stream_step env dynamic run job main) actions s;
  let '(out, b) := flushAll (ssBatcher s) in
  _ ← emit_all job out;
  mret (MkStreamState (ssRec s) b (ssCancelled s)).

(** The marker written before a long history is first sent. *)
Definition compact (env : WorkEnv) (run : AgentRun) (job : StepJob_) (e : Envelope) : M DB Envelope :=
  if bool_decide (32 * 1024 < weHistoryBytes env (ar_history run))%Z && bool_decide (envCompactions e = []) then
    let covered := Z.max 0 (Z.of_nat (length (envMessages e)) - 8) in
    let e' := MkEnvelope (envV e) (envMessages e)
                (envCompactions e ++ [MkCompaction (sj_step job) covered
                   "Earlier conversation compacted; full history retained."]) in
    _ ← ignore (SetHistory (sj_tenant job) (sj_run job) (Encode e'));
    _ ← appendEvent job EventKindHistoryCompacted (HistoryCompactedPayload (sj_run job) covered 8);
    mret e'
  else mret e.

Definition model_name (m : ModelConfig) : string :=
  match m with MkModelConfig p id _ _ => p +:+ "/" +:+ id end.
Definition model_fallbacks (m : ModelConfig) : list ModelConfig :=
  match m with MkModelConfig _ _ _ f => f end.

(** The first stream, and the fallback after a retryable provider error. *)
Definition stream_with_fallback (env : WorkEnv) (dynamic : list string) (run : AgentRun) (job : StepJob_)
    (e : Envelope) (s : stream_state) : M DB (stream_state * (AgentResult + stream_error)) :=
  let '(actions, outcome) := weStream env (ar_model run) e in
  s ← run_stream env dynamic run job true s actions;
  match outcome, model_fallbacks (ar_model run) with
  | inr (ProviderError _ _ true), fallback :: _ =>
      _ ← appendEvent job EventKindModelFallback
            (ModelFallbackPayload (sj_run job) (model_name (ar_model run)) (model_name fallback)
               "retryable provider error");
      match weResolve env fallback with
      | ModelOK =>
          let '(actions, outcome) := weStream env fallback e in
          s ← run_stream env dynamic run job false s actions;
          mret (s, outcome)
      | _ => mret (s, outcome)
      end
  | _, _ => mret (s, outcome)
  end.

Context `{Fantasy}.

Definition work_claimed (env : WorkEnv) (job : StepJob_) (run : AgentRun) (attempt_ : Z) : M DB unit :=
  _ ← appendEvent job EventKindStepStarted (StepStartedPayload (sj_run job) (sj_step job) attempt_);
  match weResolve env (ar_model run) with
  | CredentialErr reason message => failRun job reason message
  | ModelErr e => throw e
  | ModelOK =>
      match Resolve (weRegistry env) (ar_loop_kind run) (ar_loop_version run) with
      | Err _ => failRun job FailureInternal "unknown loop version — contact support"
      | Ok _ =>
          match DecodeEnvelope (ar_history run) with
          | Err _ => failRun job FailureInternal "corrupt run history"
          | Ok e =>
              e ← compact env run job e;
              match weDynamic env run with
              | Err er => throw er
              | Ok dynamic =>
                  r ← stream_with_fallback env dynamic run job e
                        (MkStreamState new_recorder
                           (newDeltaBatcher (sj_run job) (sj_step job) attempt_ (weDeltaFlushBytes env)) false);
                  let '(s, outcome) := r in
                  match outcome with
                  | inr streamErr =>
                      handleStreamError (weRedact env) job (ssCancelled s) (weInterrupted env) streamErr
                  | inl result => commitOutcome (weClock env) job attempt_ e result (ssRec s)
                  end
              end
          end
      end
  end.

Definition Work (env : WorkEnv) (job : StepJob_) : M DB unit :=
  r ← attempt (claim job);
  match r with
  | Err ErrStale => mret ()
  | Err e => throw e
  | Ok (run, attempt_) => work_claimed env job run attempt_
  end.

End stream.
