(* ===== verification/Api.v ===== *)
(** * The session and run services (package [http])

    [http/auth.go] (tenant checks), [http/session_handler.go] and
    [http/agent_handler.go]: every handler of the two services that reads or
    writes the store.  The authenticated identity of the request context is the
    argument [who]; [None] is a context without one.  A response is the domain
    value the handler converts for the wire. *)
From S2P Require Import Prelude Policy Domain Text Store StoreRuns EventLog Loop Waits.

(** ** Identity *)

Record authContext := MkAuthContext {
  auTenant : TenantID; auKey : string; auScope : string; auActor : Actor;
}.

Definition KeyScopeAdmin : string := "admin".

Definition errUnauthenticated : err := CodeError "unauthenticated" "missing or invalid credentials".
Definition errNotFound : err := CodeError "not_found" "not found".

Definition mapStoreErr (e : err) : err :=
  match e with
  | ErrNotFound => errNotFound
  | ErrAlreadyExists => CodeError "already_exists" "already exists"
  | ErrPermissionDenied => CodeError "permission_denied" "permission denied"
  | _ => CodeError "internal" "internal error"
  end.

Definition identityFrom (who : option authContext) : M DB authContext := of_option errUnauthenticated who.

Definition actorFrom (who : option authContext) : Actor :=
  match who with Some a => auActor a | None => MkActor "" "" "" end.

Definition requireTenant (who : option authContext) (tenant : TenantID) : M DB authContext :=
  a ← identityFrom who;
  if bool_decide (auTenant a = tenant) then mret a else throw errNotFound.

Definition requireAdmin (who : option authContext) (tenant : TenantID) : M DB unit :=
  a ← requireTenant who tenant;
  if bool_decide (auScope a = KeyScopeAdmin) then mret ()
  else throw (CodeError "permission_denied" "requires admin key").

(** Runs a store call, mapping its error. *)
Definition stored {A} (f : err → err) (m : M DB A) : M DB A :=
  r ← attempt m; match r with Ok a => mret a | Err e => throw (f e) end.

Definition resolveSessionTenant (who : option authContext) (session : SessionID) : M DB (TenantID * authContext) :=
  a ← identityFrom who;
  tenant ← stored (λ _, errNotFound) (SessionTenant session);
  if bool_decide (auTenant a = tenant) then mret (tenant, a) else throw errNotFound.

Definition resolveRun (who : option authContext) (id : RunID) : M DB AgentRun :=
  a ← identityFrom who;
  stored mapStoreErr (RunGet (auTenant a) id).

(** A [connect.Error] from inside the transaction passes through. *)
Definition handlerErr (e : err) : err :=
  match e with CodeError _ _ => e | _ => mapStoreErr e end.

(** ** Sessions *)

Definition invalidArgument (e : err) : err :=
  CodeError "invalid_argument"
    match e with
    | ErrNotFound => "not found" | ErrAlreadyExists => "already exists"
    | ErrPermissionDenied => "permission denied" | ErrorText m => m | CodeError _ m => m
    | DeniedError m => m | _ => ""
    end.

Definition CreateSession (who : option authContext) (fresh : SessionID) (tenant : TenantID) (title : string)
    (labels : gmap string string) : M DB Session :=
  _ ← requireTenant who tenant;
  match ValidateLabels labels with
  | Some e => throw (invalidArgument (label_err e))
  | None =>
      _ ← stored mapStoreErr (SessionCreate tenant (MkSession fresh "" title labels 0 0 None));
      stored mapStoreErr (SessionGet tenant fresh)
  end.

Definition GetSession (who : option authContext) (id : SessionID) : M DB Session :=
  '(org, _) ← resolveSessionTenant who id; stored mapStoreErr (SessionGet org id).

Definition ListSessions (who : option authContext) (tenant : TenantID) (sels : list LabelSelector)
  : M DB (list Session) :=
  _ ← requireTenant who tenant;
  stored mapStoreErr
    (SessionList tenant
       ((λ s, MkLabelSelector (lsKey s) (if bool_decide (lsOp s = "") then "=" else lsOp s) (lsValues s)) <$> sels)).

Definition UpdateSessionLabels (who : option authContext) (id : SessionID) (labels : gmap string string)
  : M DB (Session * Z) :=
  '(org, a) ← resolveSessionTenant who id;
  match ValidateLabels labels with
  | Some e => throw (invalidArgument (label_err e))
  | None =>
      stored mapStoreErr (Tx Pool (λ txs,
        updated ← UpdateLabels org id labels;
        seq ← Append txs org id
                (NewEvent (auActor a) EventKindSessionLabelsChanged (SessionLabelsChangedPayload labels));
        mret (updated, seq)))
  end.

Definition ArchiveSession (who : option authContext) (id : SessionID) : M DB Session :=
  '(org, _) ← resolveSessionTenant who id; stored mapStoreErr (Archive org id).

(** [eventHandler.Append]; the decoded kind and payload of the request. *)
Definition AppendEvent (who : option authContext) (id : SessionID) (kind : string) (p : payload) : M DB Z :=
  '(org, a) ← resolveSessionTenant who id;
  stored mapStoreErr (Append Pool org id (NewEvent (auActor a) kind p)).

(** ** Session memory *)

Definition appendTransition (txs : handle) (tenant : TenantID) (session : SessionID) (kind : string) (p : payload)
  : M DB Z :=
  Append txs tenant session (NewEvent ActorSystem kind p).

(** [valid] is [json.Valid] of the value. *)
Definition SetMemory (valid : string → bool) (who : option authContext) (session : SessionID) (key value : string)
  : M DB Z :=
  '(org, a) ← resolveSessionTenant who session;
  if negb (valid value) then throw (CodeError "invalid_argument" "value_json is invalid")
  else
    stored invalidArgument (Tx Pool (λ txs,
      _ ← MemorySet org (MkMemoryEntry session key value (auActor a) 0);
      appendTransition txs org session EventKindMemorySet
        (MemoryPayload (NewMemoryEventPayload key (auActor a)
           (if bool_decide (1024 < slen value)%Z then "" else value))))).

Definition GetMemory (who : option authContext) (session : SessionID) (key : string) : M DB SessionMemoryEntry :=
  '(org, _) ← resolveSessionTenant who session; stored mapStoreErr (MemoryGet org session key).

Definition ListMemory (who : option authContext) (session : SessionID) : M DB (list SessionMemoryEntry) :=
  '(org, _) ← resolveSessionTenant who session; stored mapStoreErr (MemoryList org session).

Definition DeleteMemory (who : option authContext) (session : SessionID) (key : string) : M DB Z :=
  '(org, a) ← resolveSessionTenant who session;
  stored mapStoreErr (Tx Pool (λ txs,
    _ ← MemoryDelete org session key;
    appendTransition txs org session EventKindMemoryDeleted
      (MemoryPayload (NewMemoryEventPayload key (auActor a) "")))).

(** ** Runs *)

(** The request's policy: [None] when the message is absent. *)
Definition policyFromProto (g : option RunPolicy) : RunPolicy :=
  match g with
  | None => DefaultRunPolicy
  | Some p =>
      if bool_decide (AllowTools p = []) then p
      else if bool_decide (MaxChildren p = 0%Z) then
        {| AllowTools := AllowTools p; DenyTools := DenyTools p; ResourceKinds := ResourceKinds p;
           MaxChildren := MaxChildren DefaultRunPolicy; ChildInherit := ChildInherit p |}
      else p
  end.

Definition override_model (base : ModelConfig) (req : option (string * string * string)) : ModelConfig :=
  match base, req with
  | MkModelConfig p m c f, Some (p', m', c') =>
      MkModelConfig (default_string p' p) (default_string m' m) (default_string c' c) f
  | _, None => base
  end.

Definition new_run (fresh : RunID) (org : TenantID) (session : SessionID) (actor : Actor) (model : ModelConfig)
    (prompt : string) (policy : RunPolicy) : AgentRun :=
  MkAgentRun fresh session org None "" "" 0 policy actor None RunPending DefaultLoopKind DefaultLoopVersion
    model prompt (InitialEnvelope prompt) "" "" None 0 0.

Definition StartRun (who : option authContext) (fresh : RunID) (defaultModel : ModelConfig) (session : SessionID)
    (prompt : string) (model : option (string * string * string)) (policy : option RunPolicy)
  : M DB (AgentRun * Z) :=
  '(org, _) ← resolveSessionTenant who session;
  if bool_decide (prompt = "") then throw (CodeError "invalid_argument" "prompt is required")
  else
    let run := new_run fresh org session (actorFrom who) (override_model defaultModel model) prompt
                 (match policy with None => DefaultRunPolicy | Some p => policyFromProto (Some p) end) in
    seq ← stored mapStoreErr (Tx Pool (λ txs,
      _ ← RunCreate org run;
      seq ← Append txs org session
              (NewEvent (ActorAgent (ar_id run)) EventKindRunStarted (RunStartedPayload (ar_id run) prompt));
      _ ← EnqueueInTx txs (StepJob (ar_id run) org session 0) None;
      mret seq));
    created ← stored mapStoreErr (RunGet org (ar_id run));
    mret (created, seq).

Definition answer_tx (run : AgentRun) (caller : Actor) (message : string) (txs : handle) : M DB Z :=
  locked ← RunGetForUpdate (ar_tenant run) (ar_id run);
  if negb (bool_decide (ar_state locked = RunAwaiting)) && negb (bool_decide (ar_state locked = RunCompleted))
  then throw (CodeError "failed_precondition" "run is not awaiting input or completed")
  else
    history ← of_result (AppendUserMessage (ar_history locked) message);
    _ ← SetHistory (ar_tenant run) (ar_id run) history;
    _ ← SetState (ar_tenant run) (ar_id run) RunRunning "" "";
    seq ← Append txs (ar_tenant run) (ar_session run)
            (NewEvent caller EventKindUserMessage (UserMessagePayload message));
    steps ← Steps (ar_tenant run) (ar_id run);
    _ ← EnqueueInTx txs (StepJob (ar_id run) (ar_tenant run) (ar_session run) (next_step steps)) None;
    mret seq.

Definition AnswerRun (who : option authContext) (id : RunID) (message : string) : M DB Z :=
  run ← resolveRun who id;
  if bool_decide (message = "") then throw (CodeError "invalid_argument" "message is required")
  else stored handlerErr (Tx Pool (answer_tx run (actorFrom who) message)).

Definition cancel_tx (run : AgentRun) (txs : handle) : M DB unit :=
  locked ← RunGetForUpdate (ar_tenant run) (ar_id run);
  if Terminal (ar_state locked) then throw (CodeError "failed_precondition" "run already finished")
  else
    _ ← RequestCancel (ar_tenant run) (ar_id run);
    if bool_decide (ar_state locked = RunAwaiting) then
      _ ← SetState (ar_tenant run) (ar_id run) RunCancelled "" "";
      _ ← AbandonWaits (ar_tenant run) (ar_id run);
      _ ← Append txs (ar_tenant run) (ar_session run)
            (NewEvent ActorSystem EventKindRunCancelled (RunCancelledPayload (ar_id run)));
      mret ()
    else mret ().

Definition CancelRun (who : option authContext) (id : RunID) : M DB unit :=
  run ← resolveRun who id;
  stored handlerErr (Tx Pool (cancel_tx run)).

Definition GetRun (who : option authContext) (id : RunID) : M DB AgentRun := resolveRun who id.

Definition ListRuns (who : option authContext) (session : SessionID) : M DB (list AgentRun) :=
  '(org, _) ← resolveSessionTenant who session; stored mapStoreErr (RunList org session).

(** [GetRunTree]: every run of the session with its waits, and the roots.  A
    node's children are the runs that name it as parent, in list order. *)
Record RunTreeNode := MkRunTreeNode {
  ntRun : AgentRun; ntWaits : list (RunWait * list RunWaitMember);
}.

Definition in_session (runs : list AgentRun) (r : AgentRun) : bool :=
  match ar_parent r with
  | Some p => negb (bool_decide (p = "")) && existsb (λ q, bool_decide (ar_id q = p)) runs
  | None => false
  end.

Definition tree_roots (nodes : list RunTreeNode) : list RunTreeNode :=
  bool_filter (λ n, negb (in_session (ntRun <$> nodes) (ntRun n))) nodes.
Definition tree_children (nodes : list RunTreeNode) (id : RunID) : list RunTreeNode :=
  bool_filter (λ n, in_session (ntRun <$> nodes) (ntRun n) && bool_decide (ar_parent (ntRun n) = Some id)) nodes.

Definition tree_node (org : TenantID) (run : AgentRun) : M DB RunTreeNode :=
  waits ← ListForParent org (ar_id run);
  ws ← foldM (λ acc w, ms ← Members (rw_id w); mret (acc ++ [(w, ms)])) waits [];
  mret (MkRunTreeNode run ws).

Definition GetRunTree (who : option authContext) (session : SessionID) : M DB (list RunTreeNode) :=
  '(org, _) ← resolveSessionTenant who session;
  runs ← stored mapStoreErr (RunList org session);
  stored mapStoreErr (foldM (λ acc r, n ← tree_node org r; mret (acc ++ [n])) runs []).
