(* ===== verification/ResourceStore.v ===== *)
(** * The Postgres store: resources and provider registrations

    [resourceStore] and [providerStore] of [postgres/resource.go], on the
    tables of [Store]. *)
From S2P Require Import Prelude Policy Domain Text Store StoreRuns.

(** ** Row updates *)

Definition upd_res_state (st : ResourceState) (now : time) (r : Resource) : Resource :=
  MkResource (r_id r) (r_tenant r) (r_session r) (r_kind r) (r_provider r) st (r_spec r) (r_handle r)
    (r_endpoint r) (r_token_hash r) (r_token_enc r) (r_epoch r) (r_failure_message r) (r_created_by r)
    (r_created_at r) now (r_ready_at r) (r_terminated_at r).
Definition upd_res_handle (h : option json) (now : time) (r : Resource) : Resource :=
  MkResource (r_id r) (r_tenant r) (r_session r) (r_kind r) (r_provider r) (r_state r) (r_spec r) h
    (r_endpoint r) (r_token_hash r) (r_token_enc r) (r_epoch r) (r_failure_message r) (r_created_by r)
    (r_created_at r) now (r_ready_at r) (r_terminated_at r).
Definition upd_res_ready (h : option json) (endpoint : string) (now : time) (r : Resource) : Resource :=
  MkResource (r_id r) (r_tenant r) (r_session r) (r_kind r) (r_provider r) ResourceReady (r_spec r) h
    endpoint (r_token_hash r) (r_token_enc r) (r_epoch r) "" (r_created_by r)
    (r_created_at r) now (Some match r_ready_at r with Some t => t | None => now end) (r_terminated_at r).
Definition upd_res_failed (message : string) (now : time) (r : Resource) : Resource :=
  MkResource (r_id r) (r_tenant r) (r_session r) (r_kind r) (r_provider r) ResourceFailed (r_spec r)
    (r_handle r) (r_endpoint r) (r_token_hash r) (r_token_enc r) (r_epoch r) message (r_created_by r)
    (r_created_at r) now (r_ready_at r) (Some now).
Definition upd_res_suspended (message : string) (now : time) (r : Resource) : Resource :=
  MkResource (r_id r) (r_tenant r) (r_session r) (r_kind r) (r_provider r) ResourceSuspended (r_spec r)
    (r_handle r) (r_endpoint r) (r_token_hash r) (r_token_enc r) (r_epoch r) message (r_created_by r)
    (r_created_at r) now (r_ready_at r) (r_terminated_at r).
Definition upd_res_terminated (now : time) (r : Resource) : Resource :=
  MkResource (r_id r) (r_tenant r) (r_session r) (r_kind r) (r_provider r) ResourceTerminated (r_spec r)
    (r_handle r) (r_endpoint r) (r_token_hash r) (r_token_enc r) (r_epoch r) (r_failure_message r)
    (r_created_by r) (r_created_at r) now (r_ready_at r) (Some now).
Definition upd_res_token (hash enc : string) (now : time) (r : Resource) : Resource :=
  MkResource (r_id r) (r_tenant r) (r_session r) (r_kind r) (r_provider r) (r_state r) (r_spec r)
    (r_handle r) (r_endpoint r) hash enc (r_epoch r + 1) (r_failure_message r) (r_created_by r)
    (r_created_at r) now (r_ready_at r) (r_terminated_at r).

(** ** Resources *)

Definition resource_of (d : DB) (tenant : TenantID) (id : ResourceID) : option Resource :=
  r ← db_resources d !! id; if bool_decide (r_tenant r = tenant) then Some r else None.

Definition provider_of (d : DB) (tenant : TenantID) (id : ProviderInstanceID) : option ProviderInstance :=
  p ← db_providers d !! id; if bool_decide (pi_tenant p = tenant) then Some p else None.

Definition or_empty (j : option json) : option json := Some match j with Some x => x | None => JObj [] end.

(** The column default [{"version":0,"data":null}]. *)
Definition no_handle : json := JObj [("version", JNum 0); ("data", JNull)].

Definition resource_row (d : DB) (tenant : TenantID) (r : Resource) : Resource :=
  MkResource (r_id r) tenant (r_session r)
    (if bool_decide (r_kind r = "") then ResourceKindDevEnv else r_kind r) (r_provider r) ResourceRequested
    (or_empty (r_spec r)) (Some no_handle) "" (r_token_hash r) (r_token_enc r) 1 "" (r_created_by r)
    (db_now d) (db_now d) None None.

(** The insert selects from [sessions] joined with [provider_instances] of the
    same tenant: either missing inserts no row. *)
Definition ResourceCreate (tenant : TenantID) (r : Resource) : M DB unit :=
  d ← get;
  match session_of d tenant (r_session r), provider_of d tenant (r_provider r) with
  | Some _, Some _ =>
      if bool_decide (is_Some (db_resources d !! r_id r)) then throw ErrAlreadyExists
      else if match r_created_by r with
              | Some run => negb (bool_decide (is_Some (db_runs d !! run)))
              | None => false
              end
      then throw (ErrorText "postgres: create resource: foreign key violation")
      else put (with_resources (<[r_id r := resource_row d tenant r]> (db_resources d)) d)
  | _, _ => throw ErrNotFound
  end.

Definition ResourceGet (tenant : TenantID) (id : ResourceID) : M DB Resource :=
  d ← get; of_option ErrNotFound (resource_of d tenant id).
Definition ResourceGetForUpdate (tenant : TenantID) (id : ResourceID) : M DB Resource :=
  d ← get; of_option ErrNotFound (resource_of d tenant id).

Definition ResourceList (tenant : TenantID) (session : SessionID) (kinds : list ResourceKind)
  : M DB (list Resource) :=
  d ← get;
  mret (order_by r_created_at
          (bool_filter (λ r, bool_decide (r_session r = session) && bool_decide (r_tenant r = tenant) &&
                             (bool_decide (kinds = []) || bool_decide (r_kind r ∈ kinds)))
             (rows (db_resources d)))).

Definition ListActive (tenant : TenantID) : M DB (list Resource) :=
  d ← get;
  mret (order_by r_created_at
          (bool_filter (λ r, bool_decide (r_tenant r = tenant) && negb (ResTerminal (r_state r)))
             (rows (db_resources d)))).

(** [resourceStore.update]: no row is [ErrNotFound]. *)
Definition resource_update (tenant : TenantID) (id : ResourceID) (f : time → Resource → Resource) : M DB unit :=
  d ← get;
  match resource_of d tenant id with
  | None => throw ErrNotFound
  | Some r => put (with_resources (<[id := f (db_now d) r]> (db_resources d)) d)
  end.

Definition SetProvisioning (tenant : TenantID) (id : ResourceID) : M DB unit :=
  resource_update tenant id (upd_res_state ResourceProvisioning).
Definition SetHandle (tenant : TenantID) (id : ResourceID) (h : option json) : M DB unit :=
  resource_update tenant id (upd_res_handle (or_empty h)).
Definition SetReady (tenant : TenantID) (id : ResourceID) (h : option json) (endpoint : string) : M DB unit :=
  resource_update tenant id (upd_res_ready (or_empty h) endpoint).
Definition SetFailed (tenant : TenantID) (id : ResourceID) (message : string) : M DB unit :=
  resource_update tenant id (upd_res_failed message).
Definition SetTerminating (tenant : TenantID) (id : ResourceID) : M DB unit :=
  resource_update tenant id (upd_res_state ResourceTerminating).
Definition SetTerminated (tenant : TenantID) (id : ResourceID) : M DB unit :=
  resource_update tenant id upd_res_terminated.
Definition RotateToken (tenant : TenantID) (id : ResourceID) (hash enc : string) : M DB unit :=
  resource_update tenant id (upd_res_token hash enc).

(** Guarded by [state IN ('ready','suspended')]; losing a race is a no-op. *)
Definition SetSuspended (tenant : TenantID) (id : ResourceID) (message : string) : M DB unit :=
  d ← get;
  match resource_of d tenant id with
  | Some r =>
      if bool_decide (r_state r = ResourceReady) || bool_decide (r_state r = ResourceSuspended)
      then put (with_resources (<[id := upd_res_suspended message (db_now d) r]> (db_resources d)) d)
      else mret ()
  | None => throw ErrNotFound
  end.

(** ** Provider registrations ([providerStore]) *)

(** [UNIQUE (tenant_id, name)] and the primary key. *)
Definition provider_taken (d : DB) (tenant : TenantID) (p : ProviderInstance) : bool :=
  bool_decide (is_Some (db_providers d !! pi_id p)) ||
  existsb (λ q, bool_decide (pi_tenant q = tenant) && bool_decide (pi_name q = pi_name p)) (rows (db_providers d)).

Definition ProviderCreate (tenant : TenantID) (p : ProviderInstance) : M DB unit :=
  d ← get;
  if provider_taken d tenant p then throw ErrAlreadyExists
  else put (with_providers (<[pi_id p := MkProviderInstance (pi_id p) tenant (pi_kind p) (pi_name p)
              (pi_config p) (pi_state p) (pi_capabilities p) None (db_now d)]> (db_providers d)) d).

Definition ProviderGet (tenant : TenantID) (id : ProviderInstanceID) : M DB ProviderInstance :=
  d ← get; of_option ErrNotFound (provider_of d tenant id).

Definition ProviderGetByName (tenant : TenantID) (name : string) : M DB ProviderInstance :=
  d ← get;
  of_option ErrNotFound
    (head (bool_filter (λ p, bool_decide (pi_name p = name) && bool_decide (pi_tenant p = tenant))
             (rows (db_providers d)))).

Definition ProviderList (tenant : TenantID) : M DB (list ProviderInstance) :=
  d ← get;
  mret (order_by_text pi_name (bool_filter (λ p, bool_decide (pi_tenant p = tenant)) (rows (db_providers d)))).

(** The delete's [NOT EXISTS] guard; a terminal resource still references the
    registration, and then the foreign key refuses. *)
Definition ProviderDelete (tenant : TenantID) (id : ProviderInstanceID) : M DB unit :=
  d ← get;
  match provider_of d tenant id with
  | None => throw ErrNotFound
  | Some _ =>
      if existsb (λ r, bool_decide (r_provider r = id) && negb (ResTerminal (r_state r))) (rows (db_resources d))
      then throw ErrNotFound
      else if existsb (λ r, bool_decide (r_provider r = id)) (rows (db_resources d))
      then throw (ErrorText "postgres: delete provider: foreign key violation")
      else put (with_providers (delete id (db_providers d)) d)
  end.

Definition MarkHealthy (tenant : TenantID) (id : ProviderInstanceID) : M DB unit :=
  d ← get;
  match provider_of d tenant id with
  | None => throw ErrNotFound
  | Some p => put (with_providers (<[id := MkProviderInstance (pi_id p) (pi_tenant p) (pi_kind p) (pi_name p)
                (pi_config p) "ready" (pi_capabilities p) (Some (db_now d)) (pi_created_at p)]> (db_providers d)) d)
  end.
