(* ===== verification/OperatorTx.v ===== *)
(** * The operator's transactions on runs and resources

    The transactions inside the commands of [admin/command/engine.go]: what they
    write is part of every history of the system.  The commands themselves are in
    [AdminCommands].  [run] is the row the command loaded before its transaction. *)
From S2P Require Import Prelude Policy Domain Text Store StoreRuns EventLog Loop Waits Api ResourceStore.

(** [CancelRun]: a run that ended in between is left alone. *)
Definition operator_cancel_tx (run : AgentRun) (txs : handle) : M DB unit :=
  locked ← RunGetForUpdate (ar_tenant run) (ar_id run);
  if Terminal (ar_state locked) then mret ()
  else
    _ ← RequestCancel (ar_tenant run) (ar_id run);
    if bool_decide (ar_state locked = RunAwaiting) then
      _ ← SetState (ar_tenant run) (ar_id run) RunCancelled "" "";
      _ ← AbandonWaits (ar_tenant run) (ar_id run);
      _ ← Append txs (ar_tenant run) (ar_session run)
            (NewEvent ActorSystem EventKindRunCancelled (RunCancelledPayload (ar_id run)));
      mret ()
    else mret ().

(** [AnswerAwait] *)
Definition operator_answer_tx (run : AgentRun) (operator : Actor) (message : string) (txs : handle) : M DB unit :=
  locked ← RunGetForUpdate (ar_tenant run) (ar_id run);
  if negb (bool_decide (ar_state locked = RunAwaiting)) && negb (bool_decide (ar_state locked = RunCompleted))
  then throw (ErrorText "run is not awaiting input or completed")
  else
    history ← of_result (AppendUserMessage (ar_history locked) message);
    _ ← SetHistory (ar_tenant run) (ar_id run) history;
    _ ← SetState (ar_tenant run) (ar_id run) RunRunning "" "";
    _ ← Append txs (ar_tenant run) (ar_session run) (NewEvent operator EventKindUserMessage (UserMessagePayload message));
    steps ← Steps (ar_tenant run) (ar_id run);
    EnqueueInTx txs (StepJob (ar_id run) (ar_tenant run) (ar_session run) (next_step steps)) None.

(** [ExpireAwait] *)
Definition operator_expire_tx (run : AgentRun) (txs : handle) : M DB unit :=
  locked ← RunGetForUpdate (ar_tenant run) (ar_id run);
  if negb (bool_decide (ar_state locked = RunAwaiting)) then throw (ErrorText "run is not awaiting")
  else
    _ ← RequestCancel (ar_tenant run) (ar_id run);
    _ ← SetState (ar_tenant run) (ar_id run) RunCancelled "expired" "operator expired await";
    _ ← AbandonWaits (ar_tenant run) (ar_id run);
    _ ← Append txs (ar_tenant run) (ar_session run)
          (NewEvent ActorSystem EventKindRunCancelled (RunCancelledPayload (ar_id run)));
    mret ().

(** [enqueueResourceJob] *)
Definition enqueueResourceJob (job : Job) : M DB unit := Tx Pool (λ txs, EnqueueInTx txs job None).

(** [ResourceRestart] without a resource service. *)
Definition operator_restart (org : TenantID) (id : ResourceID) : M DB unit :=
  Tx Pool (λ txs,
    locked ← ResourceGetForUpdate org id;
    if ResTerminal (r_state locked) || bool_decide (r_state locked = ResourceTerminating)
    then throw (ErrorText "resource cannot restart")
    else
      _ ← SetProvisioning org id;
      EnqueueInTx txs (RestartJob org id) None).

(** [ResourceTerminate] without a resource service. *)
Definition operator_terminate (org : TenantID) (id : ResourceID) : M DB unit :=
  Tx Pool (λ txs,
    locked ← ResourceGetForUpdate org id;
    if bool_decide (r_state locked = ResourceTerminated) then mret ()
    else
      _ ← SetTerminating org id;
      EnqueueInTx txs (TerminateJob org id) None).

(** [ResourceSuspend] *)
Definition operator_suspend (org : TenantID) (id : ResourceID) (message : string) : M DB unit :=
  Tx Pool (λ _,
    _ ← ResourceGetForUpdate org id;
    SetSuspended org id message).

(** [ReprobeProvider] *)
Definition operator_healthy (org : TenantID) (id : ProviderInstanceID) : M DB unit := Tx Pool (λ _, MarkHealthy org id).
