(* ===== verification/ResourceWork.v ===== *)
(** * Resource lifecycle jobs (package [resourcework])

    [Service] of [resourcework/resourcework.go]: requesting, provisioning,
    restarting, terminating and reconciling a resource.

    A provider adapter is the record [ResourceProvider], the interface of
    [resource.go]: its calls change a world [W], the control plane, which only
    they touch.  The jobs run in the store and the world together; a store
    statement leaves the world alone and a provider call leaves the store
    alone.  The minted token, its hash and its encryption are arguments, as is
    the worker's clock.  The cache of tool clients is not part of the state. *)
From S2P Require Import Prelude Policy Domain Text Store StoreRuns EventLog Loop Waits Api ResourceStore OperatorTx.

(** ** Providers *)

Record ResourceProvider (W : Type) := MkResourceProvider {
  prKind : ResourceKind;
  prValidateSpec : option json → option err;
  prProvision : Resource → string → M W json;
  prStatus : Resource → M W (ResourceState * string);
  prEndpoint : Resource → M W string;
  prRestart : Resource → string → M W json;
  prTerminate : Resource → M W unit;
  (** [ResourceAdopter], when the provider implements it. *)
  prAdopt : option (Resource → M W (option json));
}.
Arguments prKind {W}. Arguments prValidateSpec {W}. Arguments prProvision {W}.
Arguments prStatus {W}. Arguments prEndpoint {W}. Arguments prRestart {W}.
Arguments prTerminate {W}. Arguments prAdopt {W}.

(** What a service is configured with. *)
Record Service (W : Type) := MkService {
  svBuild : string → json → result (ResourceProvider W);
  svDecrypt : string → result string;
  svHealthy : string → M W unit;
  svReconcileInterval : Z;
  svProvisionTimeout : Z;
}.
Arguments svBuild {W}. Arguments svDecrypt {W}. Arguments svHealthy {W}.
Arguments svReconcileInterval {W}. Arguments svProvisionTimeout {W}.

Definition interval {W} (s : Service W) : Z :=
  if bool_decide (0 < svReconcileInterval s)%Z then svReconcileInterval s else 5000000000.
Definition provisionTimeout {W} (s : Service W) : Z :=
  if bool_decide (0 < svProvisionTimeout s)%Z then svProvisionTimeout s else 60000000000.

(** A minted token: clear text, hash, encryption. *)
Record Token := MkToken { tkClear : string; tkHash : string; tkEnc : string }.

(** ** The store and the world *)

Definition db {W A} (m : M DB A) : M (DB * W) A := λ s, let '(d, r) := m s.1 in ((d, s.2), r).
Definition ext {W A} (m : M W A) : M (DB * W) A := λ s, let '(w, r) := m s.2 in ((s.1, w), r).

(** ** Payloads *)

(** The [name] field of a spec, as [json.Unmarshal] fills it. *)
Definition name_field (spec : option json) : string :=
  match spec with
  | Some (JObj fields) =>
      foldl (λ acc f, if key_matches "name" f.1 then match f.2 with JStr s => s | _ => acc end else acc) "" fields
  | _ => ""
  end.

Definition resourceName (r : Resource) : string := name_field (r_spec r).

Definition eventPayload (r : Resource) (message : string) : ResourceEventPayload :=
  MkResourceEventPayload (r_id r) (r_kind r) (resourceName r) (r_provider r) (r_endpoint r) message (r_epoch r).

Definition resource_event (txs : handle) (org : TenantID) (session : SessionID) (kind : string)
    (r : Resource) (message : string) : M DB Z :=
  Append txs org session (NewEvent ActorSystem kind (ResourcePayload (eventPayload r message))).

(** ** Requests *)

Definition new_resource (fresh : ResourceID) (org : TenantID) (session : SessionID) (kind : ResourceKind)
    (provider : ProviderInstanceID) (spec : option json) (tk : Token) (createdBy : option RunID) : Resource :=
  MkResource fresh org session kind provider ResourceRequested spec None "" (tkHash tk) (tkEnc tk) 1 ""
    createdBy 0 0 None None.

(** The kind a request resolves to, or the mismatch error. *)
Definition request_kind (declared asked : ResourceKind) : result ResourceKind :=
  if negb (bool_decide (declared = "")) then
    if negb (bool_decide (asked = "")) && negb (bool_decide (asked = declared))
    then Err (ErrorText "resourcework: provider hosts another kind") else Ok declared
  else Ok (if bool_decide (asked = "") then ResourceKindDevEnv else asked).

Definition Request {W} (s : Service W) (clock : time) (fresh : ResourceID) (tk : Token) (org : TenantID)
    (session : SessionID) (kind : ResourceKind) (spec : option json) (providerName : string)
    (createdBy : option RunID) : M DB (Resource * Z) :=
  instance_ ← ProviderGetByName org (if bool_decide (providerName = "") then "default" else providerName);
  provider ← of_result (svBuild s (pi_kind instance_) (pi_config instance_));
  match prValidateSpec provider spec with
  | Some _ => throw (ErrorText "resourcework: invalid spec")
  | None =>
      kind ← of_result (request_kind (prKind provider) kind);
      let r := new_resource fresh org session kind (pi_id instance_) spec tk createdBy in
      seq ← Tx Pool (λ txs,
        _ ← ResourceCreate org r;
        seq ← resource_event txs org session EventKindResourceRequested r "";
        _ ← EnqueueInTx txs (ProvisionJob org fresh) None;
        _ ← EnqueueInTx txs (ReconcileJob org fresh) (Some (clock + provisionTimeout s)%Z);
        mret seq);
      mret (r, seq)
  end.

Definition RequestTerminate (org : TenantID) (id : ResourceID) : M DB unit :=
  Tx Pool (λ txs,
    r ← ResourceGetForUpdate org id;
    if bool_decide (r_state r = ResourceTerminated) then mret ()
    else
      _ ← SetTerminating org id;
      _ ← resource_event txs org (r_session r) EventKindResourceTerminating r "";
      EnqueueInTx txs (TerminateJob org id) None).

Definition RequestRestart (org : TenantID) (id : ResourceID) : M DB Z :=
  Tx Pool (λ txs,
    r ← ResourceGetForUpdate org id;
    if ResTerminal (r_state r) || bool_decide (r_state r = ResourceTerminating) then
      throw (ErrorText "resourcework: resource cannot restart")
    else
      _ ← SetProvisioning org id;
      seq ← resource_event txs org (r_session r) EventKindResourceProvisioning
              (upd_res_state ResourceProvisioning (r_updated_at r) r) "restart requested";
      _ ← EnqueueInTx txs (RestartJob org id) None;
      mret seq).

(** ** Shared steps of the jobs *)

Section jobs.
Context {W : Type} (s : Service W).

Definition provider (org : TenantID) (r : Resource) : M DB (ResourceProvider W * ProviderInstance) :=
  instance_ ← ProviderGet org (r_provider r);
  p ← of_result (svBuild s (pi_kind instance_) (pi_config instance_));
  mret (p, instance_).

Definition rWithHandle (r : Resource) (h : json) : Resource := upd_res_handle (Some h) (r_updated_at r) r.

Definition acquire (p : ResourceProvider W) (r : Resource) (clearToken : string) : M W json :=
  if HandlePresent (r_handle r) then of_option ErrNotFound (r_handle r)
  else
    match prAdopt p with
    | Some adopt =>
        found ← adopt r;
        match found with
        | Some h => mret h
        | None => prProvision p r clearToken
        end
    | None => prProvision p r clearToken
    end.

Inductive await_error := AwaitCancelled | AwaitTimeout.

(** One poll: [Some endpoint] when the resource is healthy. *)
Definition poll_healthy (p : ResourceProvider W) (r : Resource) (servesTools : bool) : M W (option string) :=
  status ← attempt (prStatus p r);
  match status with
  | Ok (ResourceReady, _) =>
      endpoint ← attempt (prEndpoint p r);
      match endpoint with
      | Err _ => mret None
      | Ok e =>
          if servesTools && negb (bool_decide (e = "")) then
            h ← attempt (svHealthy s e);
            mret match h with Ok _ => Some e | Err _ => None end
          else mret (Some e)
      end
  | _ => mret None
  end.

(** [polls] is the number of polls the deadline or the context leaves room
    for, [cancelled] whether it is the context that ends the wait. *)
Fixpoint awaitHealthy (polls : nat) (cancelled : bool) (p : ResourceProvider W) (r : Resource)
    (caps : ProviderCapabilities) : M W (string + await_error) :=
  match polls with
  | O => mret (inr (if cancelled then AwaitCancelled else AwaitTimeout))
  | S n =>
      got ← poll_healthy p r (Has caps CapabilityServesToolEndpoint);
      match got with
      | Some e => mret (inl e)
      | None => awaitHealthy n cancelled p r caps
      end
  end.

Definition fail (org : TenantID) (r : Resource) (message : string) : M DB unit :=
  Tx Pool (λ txs,
    _ ← SetFailed org (r_id r) message;
    _ ← resource_event txs org (r_session r) EventKindResourceFailed r message;
    mret ()).

Definition rearmReconcile (clock : time) (org : TenantID) (id : ResourceID) : M DB unit :=
  Tx Pool (λ txs, EnqueueInTx txs (ReconcileJob org id) (Some (clock + interval s)%Z)).

Definition err_message (e : err) : string :=
  match e with ErrNotFound => "not found" | ErrorText m => m | _ => "" end.

(** ** Provisioning *)

Definition ready_row (h : json) (endpoint : string) (r : Resource) : Resource :=
  MkResource (r_id r) (r_tenant r) (r_session r) (r_kind r) (r_provider r) ResourceReady (r_spec r) (Some h)
    endpoint (r_token_hash r) (r_token_enc r) (r_epoch r) (r_failure_message r) (r_created_by r)
    (r_created_at r) (r_updated_at r) (r_ready_at r) (r_terminated_at r).

(** The final transaction: only a resource still provisioning becomes ready. *)
Definition provision_commit (clock : time) (org : TenantID) (r : Resource) (h : json) (endpoint : string)
  : M DB unit :=
  Tx Pool (λ txs,
    locked ← ResourceGetForUpdate org (r_id r);
    if negb (bool_decide (r_state locked = ResourceProvisioning)) then mret ()
    else
      _ ← SetReady org (r_id r) (Some h) endpoint;
      _ ← resource_event txs org (r_session r) EventKindResourceReady (ready_row h endpoint locked) "";
      EnqueueInTx txs (ReconcileJob org (r_id r)) (Some (clock + interval s)%Z)).

(** After the handle is persisted. *)
Definition provision_await (polls : nat) (cancelled : bool) (clock : time) (org : TenantID)
    (p : ResourceProvider W) (instance_ : ProviderInstance) (r : Resource) (h : json) : M (DB * W) unit :=
  let r := rWithHandle r h in
  e ← ext (awaitHealthy polls cancelled p r (pi_capabilities instance_));
  match e with
  | inr AwaitCancelled => throw (ErrorText "context canceled")
  | inr AwaitTimeout =>
      _ ← ext (ignore (prTerminate p r));
      db (fail org r "resource did not become healthy")
  | inl endpoint => db (provision_commit clock org r h endpoint)
  end.

(** The job after its first read: [r] is the row it saw. *)
Definition provision_rest (polls : nat) (cancelled : bool) (clock : time) (org : TenantID) (r : Resource)
  : M (DB * W) unit :=
  if bool_decide (r_state r = ResourceReady) || ResTerminal (r_state r) then mret ()
  else
    _ ← db (SetProvisioning org (r_id r));
    _ ← db (ignore (resource_event Pool org (r_session r) EventKindResourceProvisioning r ""));
    got ← attempt (db (provider org r));
    match got with
    | Err e => db (fail org r (err_message e))
    | Ok (p, instance_) =>
        clear ← db (of_result (svDecrypt s (r_token_enc r)));
        h ← attempt (ext (acquire p r clear));
        match h with
        | Err _ => db (fail org r "resource provisioning failed")
        | Ok h =>
            _ ← db (SetHandle org (r_id r) (Some h));
            provision_await polls cancelled clock org p instance_ r h
        end
    end.

Definition Provision (polls : nat) (cancelled : bool) (clock : time) (org : TenantID) (id : ResourceID)
  : M (DB * W) unit :=
  r ← db (ResourceGet org id); provision_rest polls cancelled clock org r.

(** ** Restarting *)

Definition restart_commit (clock : time) (org : TenantID) (id : ResourceID) (h : json) (endpoint : string)
  : M DB unit :=
  Tx Pool (λ txs,
    locked ← ResourceGetForUpdate org id;
    if ResTerminal (r_state locked) then mret ()
    else
      _ ← SetReady org id (Some h) endpoint;
      _ ← resource_event txs org (r_session locked) EventKindResourceReady (ready_row h endpoint locked) "restarted";
      EnqueueInTx txs (ReconcileJob org id) (Some (clock + interval s)%Z)).

Definition Restart (polls : nat) (cancelled : bool) (clock : time) (tk : Token) (org : TenantID) (id : ResourceID)
  : M (DB * W) unit :=
  r ← db (ResourceGet org id);
  if ResTerminal (r_state r) then mret ()
  else
    got ← attempt (db (provider org r));
    match got with
    | Err e => db (fail org r (err_message e))
    | Ok (p, instance_) =>
        _ ← db (RotateToken org id (tkHash tk) (tkEnc tk));
        h ← attempt (ext (prRestart p r (tkClear tk)));
        match h with
        | Err _ => db (fail org r "resource restart failed")
        | Ok h =>
            e ← ext (awaitHealthy polls cancelled p (rWithHandle r h) (pi_capabilities instance_));
            match e with
            | inr _ =>
                _ ← ext (ignore (prTerminate p (rWithHandle r h)));
                db (fail org r "resource did not become healthy after restart")
            | inl endpoint => db (restart_commit clock org id h endpoint)
            end
        end
    end.

(** ** Terminating *)

Definition terminate_commit (org : TenantID) (r : Resource) : M DB unit :=
  Tx Pool (λ txs,
    _ ← SetTerminated org (r_id r);
    _ ← resource_event txs org (r_session r) EventKindResourceTerminated r "";
    mret ()).

(** The job after its first read. *)
Definition terminate_rest (org : TenantID) (r : Resource) : M (DB * W) unit :=
  if bool_decide (r_state r = ResourceTerminated) then mret ()
  else
    '(p, _) ← db (provider org r);
    _ ← (if HandlePresent (r_handle r) then ext (prTerminate p r) else mret ());
    db (terminate_commit org r).

Definition Terminate (org : TenantID) (id : ResourceID) : M (DB * W) unit :=
  r ← db (ResourceGet org id); terminate_rest org r.

(** ** Reconciling *)

Definition suspend (clock : time) (org : TenantID) (r : Resource) (message : string) : M DB unit :=
  let message := if bool_decide (message = "") then "the resource host is unreachable" else message in
  _ ← Tx Pool (λ txs,
    locked ← ResourceGetForUpdate org (r_id r);
    if negb (bool_decide (r_state locked = ResourceReady)) then mret ()
    else
      _ ← SetSuspended org (r_id r) message;
      _ ← resource_event txs org (r_session r) EventKindResourceSuspended
            (upd_res_state ResourceSuspended (r_updated_at r) r) message;
      mret ());
  rearmReconcile clock org (r_id r).

(** Whether a status probe, and the tool endpoint where there is one, are healthy. *)
Definition probe_healthy (r : Resource) (instance_ : ProviderInstance) (status : result (ResourceState * string))
  : M W bool :=
  match status with
  | Ok (ResourceReady, _) =>
      if Has (pi_capabilities instance_) CapabilityServesToolEndpoint && negb (bool_decide (r_endpoint r = "")) then
        h ← attempt (svHealthy s (r_endpoint r));
        mret match h with Ok _ => true | Err _ => false end
      else mret true
  | _ => mret false
  end.

Definition resume_commit (clock : time) (org : TenantID) (r : Resource) : M DB unit :=
  Tx Pool (λ txs,
    locked ← ResourceGetForUpdate org (r_id r);
    if negb (bool_decide (r_state locked = ResourceSuspended)) then mret ()
    else
      _ ← SetReady org (r_id r) (r_handle locked) (r_endpoint locked);
      _ ← resource_event txs org (r_session r) EventKindResourceReady
            (upd_res_state ResourceReady (r_updated_at locked) locked) "resumed";
      EnqueueInTx txs (ReconcileJob org (r_id r)) (Some (clock + interval s)%Z)).

Definition reconcileSuspended (clock : time) (org : TenantID) (r : Resource) : M (DB * W) unit :=
  got ← attempt (db (provider org r));
  match got with
  | Err _ => db (rearmReconcile clock org (r_id r))
  | Ok (p, instance_) =>
      status ← attempt (ext (prStatus p r));
      healthy ← ext (probe_healthy r instance_ status);
      if negb healthy then
        match status with
        | Ok (st, _) => if ResTerminal st then db (fail org r "resource is no longer healthy")
                        else db (rearmReconcile clock org (r_id r))
        | Err _ => db (rearmReconcile clock org (r_id r))
        end
      else db (resume_commit clock org r)
  end.

Definition recoverProvisioning (clock : time) (org : TenantID) (r : Resource) : M DB unit :=
  let timeout := provisionTimeout s in
  let stalled := (clock - r_updated_at r)%Z in
  if bool_decide (stalled < timeout)%Z then
    Tx Pool (λ txs, EnqueueInTx txs (ReconcileJob org (r_id r)) (Some (clock + timeout)%Z))
  else if bool_decide (10 * timeout < stalled)%Z then fail org r "resource provisioning did not converge"
  else
    Tx Pool (λ txs,
      locked ← ResourceGetForUpdate org (r_id r);
      if negb (bool_decide (r_state locked = ResourceRequested)) &&
         negb (bool_decide (r_state locked = ResourceProvisioning)) then mret ()
      else
        _ ← EnqueueInTx txs (ProvisionJob org (r_id r)) None;
        EnqueueInTx txs (ReconcileJob org (r_id r)) (Some (clock + timeout)%Z)).

Definition healthy_commit (clock : time) (org : TenantID) (r : Resource) : M DB unit :=
  Tx Pool (λ txs,
    locked ← ResourceGetForUpdate org (r_id r);
    if negb (bool_decide (r_state locked = ResourceReady)) then mret ()
    else
      _ ← ignore (MarkHealthy org (r_provider r));
      EnqueueInTx txs (ReconcileJob org (r_id r)) (Some (clock + interval s)%Z)).

Definition Reconcile (clock : time) (org : TenantID) (id : ResourceID) : M (DB * W) unit :=
  got ← attempt (db (ResourceGet org id));
  match got with
  | Err ErrNotFound => mret ()
  | Err e => throw e
  | Ok r =>
      match r_state r with
      | ResourceRequested | ResourceProvisioning => db (recoverProvisioning clock org r)
      | ResourceSuspended => reconcileSuspended clock org r
      | ResourceReady =>
          '(p, instance_) ← db (provider org r);
          status ← attempt (ext (prStatus p r));
          match status with
          | Ok (ResourceSuspended, message) => db (suspend clock org r message)
          | _ =>
              healthy ← ext (probe_healthy r instance_ status);
              if negb healthy then db (fail org r "resource is no longer healthy")
              else db (healthy_commit clock org r)
          end
      | _ => mret ()
      end
  end.

(** ** The transactions of the service, one by one *)

Inductive res_op :=
  (* the registrations, written by the organisation service *)
  | RoRegister (org : TenantID) (p : ProviderInstance)
  | RoUnregister (org : TenantID) (id : ProviderInstanceID)
  | RoRequest (clock : time) (fresh : ResourceID) (tk : Token) (org : TenantID) (session : SessionID)
      (kind : ResourceKind) (spec : option json) (providerName : string) (createdBy : option RunID)
  | RoRequestTerminate (org : TenantID) (id : ResourceID)
  | RoRequestRestart (org : TenantID) (id : ResourceID)
  | RoSetProvisioning (org : TenantID) (id : ResourceID)
  | RoSetHandle (org : TenantID) (id : ResourceID) (h : option json)
  | RoProvisionCommit (clock : time) (org : TenantID) (r : Resource) (h : json) (endpoint : string)
  | RoRotateToken (org : TenantID) (id : ResourceID) (tk : Token)
  | RoRestartCommit (clock : time) (org : TenantID) (id : ResourceID) (h : json) (endpoint : string)
  | RoFail (org : TenantID) (r : Resource) (message : string)
  | RoTerminated (org : TenantID) (r : Resource)
  | RoSuspend (clock : time) (org : TenantID) (r : Resource) (message : string)
  | RoResume (clock : time) (org : TenantID) (r : Resource)
  | RoRecover (clock : time) (org : TenantID) (r : Resource)
  | RoHealthy (clock : time) (org : TenantID) (r : Resource)
  | RoRearm (clock : time) (org : TenantID) (id : ResourceID)
  (* the operator's commands *)
  | RoOperatorReconcile (org : TenantID) (id : ResourceID)
  | RoOperatorRestart (org : TenantID) (id : ResourceID)
  | RoOperatorTerminate (org : TenantID) (id : ResourceID)
  | RoOperatorSuspend (org : TenantID) (id : ResourceID) (message : string)
  | RoOperatorHealthy (org : TenantID) (id : ProviderInstanceID).

Definition run_res_op (o : res_op) : M DB unit :=
  match o with
  | RoRegister org p => ProviderCreate org p
  | RoUnregister org id => ProviderDelete org id
  | RoRequest clock fresh tk org session kind spec name by_ =>
      _ ← Request s clock fresh tk org session kind spec name by_; mret ()
  | RoRequestTerminate org id => RequestTerminate org id
  | RoRequestRestart org id => _ ← RequestRestart org id; mret ()
  | RoSetProvisioning org id => SetProvisioning org id
  | RoSetHandle org id h => SetHandle org id h
  | RoProvisionCommit clock org r h e => provision_commit clock org r h e
  | RoRotateToken org id tk => RotateToken org id (tkHash tk) (tkEnc tk)
  | RoRestartCommit clock org id h e => restart_commit clock org id h e
  | RoFail org r message => fail org r message
  | RoTerminated org r => terminate_commit org r
  | RoSuspend clock org r message => suspend clock org r message
  | RoResume clock org r => resume_commit clock org r
  | RoRecover clock org r => recoverProvisioning clock org r
  | RoHealthy clock org r => healthy_commit clock org r
  | RoRearm clock org id => rearmReconcile clock org id
  | RoOperatorReconcile org id => enqueueResourceJob (ReconcileJob org id)
  | RoOperatorRestart org id => operator_restart org id
  | RoOperatorTerminate org id => operator_terminate org id
  | RoOperatorSuspend org id message => operator_suspend org id message
  | RoOperatorHealthy org id => operator_healthy org id
  end.

End jobs.
