(* ===== verification/Frames.v ===== *)
(** * What every operation preserves, once

    Most of what has to be shown of a handler does not depend on its control
    flow: an event log only grows, a wait leaves [open] once, a run's identity
    never changes, because each statement of the store has that property.  The
    class [StorePrim R] is the interface between the two levels: it says that
    every writing method of the store relates the database before it to the
    database after it by the preorder [R].  The lemmas of this file carry any
    such [R] through every handler of the loop and the API; the components'
    own relations are instances. *)
From S2P Require Import Prelude Policy Domain Text Store StoreRuns EventLog Loop Waits Batcher Tools Step Api.

Definition with_now (t : time) (d : DB) : DB :=
  MkDB t (db_sessions d) (db_events d) (db_runs d) (db_steps d) (db_waits d) (db_members d)
    (db_memory d) (db_resources d) (db_providers d) (db_jobs d).

(** Every method but the creation of a run. *)
Class StoreWrites (R : relation DB) : Prop := {
  prim_preorder :: PreOrder R;
  prim_now t d : R d (with_now t d);
  prim_Append h t s e : keeps R (Append h t s e);
  prim_SessionCreate t s : keeps R (SessionCreate t s);
  prim_UpdateLabels t i l : keeps R (UpdateLabels t i l);
  prim_Archive t i : keeps R (Archive t i);
  prim_SetHistory t i h : keeps R (SetHistory t i h);
  prim_SetState t i st m n : keeps R (SetState t i st m n);
  prim_SetResult t i j : keeps R (SetResult t i j);
  prim_RequestCancel t i : keeps R (RequestCancel t i);
  prim_InsertStep t s : keeps R (InsertStep t s);
  prim_MemorySet t e : keeps R (MemorySet t e);
  prim_MemoryDelete t s k : keeps R (MemoryDelete t s k);
  prim_WaitCreate t w ms : keeps R (WaitCreate t w ms);
  prim_ClaimDue t n l : keeps R (ClaimDue t n l);
  prim_WaitClose t i st j : keeps R (WaitClose t i st j);
  prim_WaitSetResult t i j : keeps R (WaitSetResult t i j);
  prim_MarkResumed t i : keeps R (MarkResumed t i);
  prim_jobs x d : R d (with_jobs (db_jobs d ++ x) d);
}.

(** Every method of the session, run, memory and wait stores. *)
Class StoreCore (R : relation DB) : Prop := {
  prim_writes :: StoreWrites R;
  prim_RunCreate t r : keeps R (RunCreate t r);
}.

(** Also those of the resource and provider stores. *)
Class StorePrim (R : relation DB) : Prop := {
  prim_core :: StoreCore R;
  prim_resources x d : R d (with_resources x d);
  prim_providers x d : R d (with_providers x d);
}.

#[export] Hint Resolve prim_Append prim_SessionCreate prim_UpdateLabels prim_Archive prim_RunCreate
  prim_SetHistory prim_SetState prim_SetResult prim_RequestCancel prim_InsertStep prim_MemorySet
  prim_MemoryDelete prim_WaitCreate prim_ClaimDue prim_WaitClose prim_WaitSetResult prim_MarkResumed : keeps.

(** ** Footprints: which tables a method can write *)

Definition touches_log : relation DB := λ d d', ∃ s e, d' = with_events e (with_sessions s d).
Definition touches_runs : relation DB := λ d d', ∃ x, d' = with_runs x d.
Definition touches_steps : relation DB := λ d d', ∃ x, d' = with_steps x d.
Definition touches_memory : relation DB := λ d d', ∃ x, d' = with_memory x d.
Definition touches_waits : relation DB := λ d d', ∃ x y, d' = with_members y (with_waits x d).

Ltac preorder_fp :=
  split; [intros []; repeat eexists|
    intros ???; first [intros (? & ->) (? & ->) | intros (? & ? & ->) (? & ? & ->)]; repeat eexists].
#[export] Instance touches_log_pre : PreOrder touches_log. Proof. preorder_fp. Qed.
#[export] Instance touches_runs_pre : PreOrder touches_runs. Proof. preorder_fp. Qed.
#[export] Instance touches_steps_pre : PreOrder touches_steps. Proof. preorder_fp. Qed.
#[export] Instance touches_memory_pre : PreOrder touches_memory. Proof. preorder_fp. Qed.
#[export] Instance touches_waits_pre : PreOrder touches_waits. Proof. preorder_fp. Qed.

Lemma keeps_mono {A} (R R' : relation DB) (m : M DB A) : subrelation R R' → keeps R m → keeps R' m.
Proof. intros Hsub Hm d. apply Hsub, Hm. Qed.

(** Runs a store method symbolically. *)
Ltac run_method :=
  unfold mbind, M_bind, get, put, mret, M_ret, throw, of_option, attempt, ignore; simpl;
  repeat (case_match; simplify_eq/=).

Ltac footprint := intros d; run_method; try reflexivity; repeat eexists.

Lemma log_Append h t s e : keeps touches_log (Append h t s e).
Proof.
  assert (keeps touches_log (append_body t s e)) as Hb by (unfold append_body; footprint).
  destruct h; simpl; [by apply keeps_atomically; [apply _|]|done].
Qed.
Lemma log_SessionCreate t s : keeps touches_log (SessionCreate t s).
Proof. unfold SessionCreate. destruct (ValidateLabels _); footprint. Qed.
Lemma log_UpdateLabels t i l : keeps touches_log (UpdateLabels t i l).
Proof. unfold UpdateLabels, SessionGet. destruct (ValidateLabels _); footprint. Qed.
Lemma log_Archive t i : keeps touches_log (Archive t i).
Proof. unfold Archive, SessionGet. footprint. Qed.
Lemma runs_RunCreate t r : keeps touches_runs (RunCreate t r).
Proof. unfold RunCreate. footprint. Qed.
Lemma runs_exec t i f : keeps touches_runs (run_exec t i f).
Proof. unfold run_exec. footprint. Qed.
Lemma steps_InsertStep t s : keeps touches_steps (InsertStep t s).
Proof. unfold InsertStep. footprint. Qed.
Lemma memory_MemorySet t e : keeps touches_memory (MemorySet t e).
Proof. unfold MemorySet. repeat case_match; footprint. Qed.
Lemma memory_MemoryDelete t s k : keeps touches_memory (MemoryDelete t s k).
Proof. unfold MemoryDelete. footprint. Qed.
Lemma touch_waits x d : touches_waits d (with_waits x d).
Proof. exists x, (db_members d). by destruct d. Qed.
Lemma touch_members y d : touches_waits d (with_members y d).
Proof. exists (db_waits d), y. by destruct d. Qed.
Lemma waits_insert_member i m : keeps touches_waits (insert_member i m).
Proof. unfold insert_member. intros d. run_method; try reflexivity. apply touch_members. Qed.
Lemma waits_WaitCreate t w ms : keeps touches_waits (WaitCreate t w ms).
Proof.
  intros d. unfold WaitCreate, mbind, M_bind, get. simpl. case_match.
  - unfold WaitGet, attempt, mbind, M_bind, get. destruct (wait_of d t (rw_id w)); reflexivity.
  - simpl. etrans; [|apply (keeps_for_each touches_waits (insert_member (rw_id w)) ms); apply waits_insert_member].
    apply touch_waits.
Qed.
Lemma waits_ClaimDue t n l : keeps touches_waits (ClaimDue t n l).
Proof. unfold ClaimDue. intros d. run_method. apply touch_waits. Qed.
Lemma waits_WaitClose t i st j : keeps touches_waits (WaitClose t i st j).
Proof. unfold WaitClose. intros d. run_method; try reflexivity; apply touch_waits. Qed.
Lemma waits_WaitSetResult t i j : keeps touches_waits (WaitSetResult t i j).
Proof. unfold WaitSetResult. intros d. run_method; try reflexivity; apply touch_waits. Qed.
Lemma waits_MarkResumed t i : keeps touches_waits (MarkResumed t i).
Proof. unfold MarkResumed. intros d. run_method; try reflexivity; apply touch_waits. Qed.

Section reads.
Context (R : relation DB) `{!PreOrder R}.

Lemma keeps_RunGet t i : keeps R (RunGet t i).
Proof. unfold RunGet. solve_keeps. Qed.
Lemma keeps_RunGetForUpdate t i : keeps R (RunGetForUpdate t i).
Proof. unfold RunGetForUpdate. solve_keeps. Qed.
Lemma keeps_RunList t s : keeps R (RunList t s).
Proof. unfold RunList. solve_keeps. Qed.
Lemma keeps_GetBySpawnKey t k : keeps R (GetBySpawnKey t k).
Proof. unfold GetBySpawnKey. solve_keeps. Qed.
Lemma keeps_Children t i : keeps R (Children t i).
Proof. unfold Children. solve_keeps. Qed.
Lemma keeps_CountChildren t i : keeps R (CountChildren t i).
Proof. unfold CountChildren. solve_keeps. Qed.
Lemma keeps_Steps t i : keeps R (Steps t i).
Proof. unfold Steps. solve_keeps. Qed.
Lemma keeps_MemoryGet t s k : keeps R (MemoryGet t s k).
Proof. unfold MemoryGet. solve_keeps. Qed.
Lemma keeps_MemoryList t s : keeps R (MemoryList t s).
Proof. unfold MemoryList. solve_keeps. Qed.
Lemma keeps_WaitGet t i : keeps R (WaitGet t i).
Proof. unfold WaitGet. solve_keeps. Qed.
Lemma keeps_WaitGetForUpdate t i : keeps R (WaitGetForUpdate t i).
Proof. unfold WaitGetForUpdate. solve_keeps. Qed.
Lemma keeps_ListOpenForChild t i : keeps R (ListOpenForChild t i).
Proof. unfold ListOpenForChild. solve_keeps. Qed.
Lemma keeps_ListOpenForParent t i : keeps R (ListOpenForParent t i).
Proof. unfold ListOpenForParent. solve_keeps. Qed.
Lemma keeps_ListForParent t i : keeps R (ListForParent t i).
Proof. unfold ListForParent. solve_keeps. Qed.
Lemma keeps_Members i : keeps R (Members i).
Proof. unfold Members. solve_keeps. Qed.
Lemma keeps_SessionGet t i : keeps R (SessionGet t i).
Proof. unfold SessionGet. solve_keeps. Qed.
Lemma keeps_SessionTenant i : keeps R (SessionTenant i).
Proof. unfold SessionTenant. solve_keeps. Qed.
Lemma keeps_SessionList t s : keeps R (SessionList t s).
Proof. unfold SessionList. solve_keeps. Qed.

End reads.

#[export] Hint Resolve keeps_RunGet keeps_RunGetForUpdate keeps_RunList keeps_GetBySpawnKey keeps_Children
  keeps_CountChildren keeps_Steps keeps_MemoryGet keeps_MemoryList keeps_WaitGet keeps_WaitGetForUpdate
  keeps_ListOpenForChild keeps_ListOpenForParent keeps_ListForParent keeps_Members keeps_SessionGet
  keeps_SessionTenant keeps_SessionList : keeps.

Lemma keeps_Tx {A} (R : relation DB) `{!PreOrder R} h (fn : handle → M DB A) :
  (∀ h, keeps R (fn h)) → keeps R (Tx h fn).
Proof. intros Hfn. destruct h; simpl; [apply keeps_atomically; [done|apply Hfn]|apply Hfn]. Qed.

Lemma keeps_modify_fun (R : relation DB) (f : DB → DB) : (∀ d, R d (f d)) → keeps R (modify f).
Proof. intros Hf d. apply Hf. Qed.

(** Also splits transactions and the pairs of the stream functions. *)
Ltac handler_step :=
  match goal with
  | |- keeps _ (Tx _ _) => apply keeps_Tx; [try apply _|intros ?]
  | |- keeps _ (let '_ := ?x in _) => destruct x
  | _ => keeps_step
  end.
Ltac solve_handler :=
  repeat first [ solve [eauto 5 with keeps typeclass_instances] | handler_step; try apply _ ].

(** ** The handlers *)

Section handlers.
Context (R : relation DB) `{!StoreWrites R}.

Lemma keeps_EnqueueInTx h j t : keeps R (EnqueueInTx h j t).
Proof. destruct h; simpl; [apply keeps_throw; apply _|]. intros d. apply prim_jobs. Qed.
Hint Resolve keeps_EnqueueInTx : keeps.

Context `{Uuid} `{Fantasy}.

Lemma keeps_resumeParent h org w o j : keeps R (resumeParent h org w o j).
Proof. unfold resumeParent. solve_handler. Qed.
Hint Resolve keeps_resumeParent : keeps.

Lemma keeps_tally_members org ms : keeps R (tally_members org ms).
Proof. unfold tally_members. solve_handler. Qed.
Hint Resolve keeps_tally_members : keeps.

Lemma keeps_tryCloseWait h org i r : keeps R (tryCloseWait h org i r).
Proof. unfold tryCloseWait. solve_handler. Qed.
Hint Resolve keeps_tryCloseWait : keeps.

Lemma keeps_createWait h c run i rec : keeps R (createWait h c run i rec).
Proof. unfold createWait. solve_handler. Qed.
Lemma keeps_resolveChildWaits h child : keeps R (resolveChildWaits h child).
Proof. unfold resolveChildWaits. solve_handler. Qed.
Lemma keeps_abandonParentWaits org p : keeps R (abandonParentWaits org p).
Proof. unfold abandonParentWaits. solve_handler. Qed.
Hint Resolve keeps_createWait keeps_resolveChildWaits keeps_abandonParentWaits : keeps.

Lemma keeps_sweep_loop org due : keeps R (sweep_loop org due).
Proof. induction due; simpl; solve_handler. Qed.
Hint Resolve keeps_sweep_loop : keeps.
Lemma keeps_Sweep s c org : keeps R (Sweep s c org).
Proof. unfold Sweep, rearm. solve_handler. Qed.

Lemma keeps_permissionDenied run tool reason : keeps R (permissionDenied run tool reason).
Proof. unfold permissionDenied. solve_handler. Qed.
Hint Resolve keeps_permissionDenied : keeps.

Lemma keeps_appendEvent job k p : keeps R (appendEvent job k p).
Proof. unfold appendEvent. solve_handler. Qed.
Hint Resolve keeps_appendEvent : keeps.
Lemma keeps_emit_all job out : keeps R (emit_all job out).
Proof. unfold emit_all. solve_handler. Qed.
Hint Resolve keeps_emit_all : keeps.

Lemma keeps_markCancelledTx {A} h job : keeps R (markCancelledTx (A:=A) h job).
Proof. unfold markCancelledTx, settleTerminalRun. solve_handler. Qed.
Hint Resolve keeps_markCancelledTx : keeps.
Lemma keeps_txStale {A} (fn : handle → M DB A) : (∀ h, keeps R (fn h)) → keeps R (txStale fn).
Proof. intros Hfn. unfold txStale. solve_handler. Qed.
Lemma keeps_failRun job r m : keeps R (failRun job r m).
Proof. unfold failRun, settleTerminalRun. solve_handler. Qed.
Hint Resolve keeps_failRun : keeps.
Lemma keeps_handleStreamError red job c i e : keeps R (handleStreamError red job c i e).
Proof.
  unfold handleStreamError. destruct c; [|solve_handler].
  apply keeps_bind; [apply _|apply keeps_attempt, keeps_txStale; intros; apply keeps_markCancelledTx|].
  intros; solve_handler.
Qed.
Hint Resolve keeps_handleStreamError : keeps.

Lemma keeps_claim job : keeps R (claim job).
Proof.
  unfold claim. apply keeps_bind; [apply _| |intros; solve_handler].
  apply keeps_attempt, keeps_txStale. intros. solve_handler.
Qed.
Hint Resolve keeps_claim : keeps.

Lemma keeps_commitOutcome c job a e res rec : keeps R (commitOutcome c job a e res rec).
Proof.
  unfold commitOutcome. destruct (arSteps res); [solve_handler|].
  apply keeps_bind; [apply _| |intros; solve_handler].
  apply keeps_attempt, keeps_txStale. intros. unfold commit_tx, classify_outcome, AccountStepCost, appendTx.
  solve_handler.
Qed.
Hint Resolve keeps_commitOutcome : keeps.

End handlers.

#[export] Hint Resolve keeps_EnqueueInTx keeps_resumeParent keeps_tally_members keeps_tryCloseWait
  keeps_createWait keeps_resolveChildWaits keeps_abandonParentWaits keeps_sweep_loop keeps_Sweep
  keeps_permissionDenied keeps_appendEvent keeps_emit_all keeps_markCancelledTx keeps_failRun
  keeps_handleStreamError keeps_claim keeps_commitOutcome : keeps.

(** ** The handlers that create runs *)

Section spawning.
Context (R : relation DB) `{!StoreCore R} `{Uuid} `{Durations}.

Lemma keeps_spawnChild fresh run job req : keeps R (spawnChild fresh run job req).
Proof. unfold spawnChild, spawn_tx. solve_handler. Qed.
#[local] Hint Resolve keeps_spawnChild : keeps.
Lemma keeps_spawn_failed run t o e : keeps R (spawn_failed run t o e).
Proof. unfold spawn_failed. solve_handler. Qed.
Hint Resolve keeps_spawn_failed : keeps.
Lemma keeps_spawn_cohort fresh run job c k i specs : keeps R (spawn_cohort fresh run job c k i specs).
Proof. revert i. induction specs; intros i; simpl; solve_handler. Qed.
Hint Resolve keeps_spawn_cohort : keeps.

Lemma keeps_native_call run job c fresh i rec : keeps R (native_call run job c fresh i rec).
Proof.
  destruct i; unfold native_call, plain, askUserTool, postEventTool, memory_get, memory_list, memory_set,
    memory_delete, appendMemoryEvent, spawnAgentTool, waitForAgentsTool, runAgentCohortTool, plain;
    solve_handler.
Qed.
Hint Resolve keeps_native_call : keeps.

End spawning.

#[export] Hint Resolve keeps_spawnChild keeps_spawn_failed keeps_spawn_cohort keeps_native_call : keeps.
