(* ===== verification/Invariants.v ===== *)
(** * Store invariants and monotonicity, for every handler

    The relations the components promise, each an instance of [StorePrim], so
    each holds of every handler: the log is gapless and only grows, committed
    steps are never lost or duplicated, a run's identity is immutable and a
    cancellation request permanent, a wait leaves [open] once and is resumed
    once, a parent has at most one open wait, session memory stays within its
    limits, and runs stay inside their tenant. *)
From S2P Require Import Prelude Policy Domain Text Store StoreRuns EventLog Loop Waits Batcher Tools Step Api Frames.

(** ** Building instances *)

Class Ignores (F R : relation DB) : Prop := ignores : subrelation F R.

Lemma keeps_ignored {A} (F R : relation DB) `{!Ignores F R} (m : M DB A) : keeps F m → keeps R m.
Proof. apply keeps_mono. apply ignores. Qed.

Ltac ignored :=
  lazymatch goal with
  | |- keeps ?R _ =>
      first [ apply (keeps_ignored touches_log R);
              first [apply log_Append|apply log_SessionCreate|apply log_UpdateLabels|apply log_Archive]
            | apply (keeps_ignored touches_runs R); first [apply runs_RunCreate|apply runs_exec]
            | apply (keeps_ignored touches_steps R); apply steps_InsertStep
            | apply (keeps_ignored touches_memory R); first [apply memory_MemorySet|apply memory_MemoryDelete]
            | apply (keeps_ignored touches_waits R);
              first [apply waits_WaitCreate|apply waits_ClaimDue|apply waits_WaitClose
                    |apply waits_WaitSetResult|apply waits_MarkResumed] ]
  end.
(** Fills the fields of [StorePrim] that concern tables [R] does not read. *)
Ltac build_prim := constructor; [constructor; [constructor; try apply _|]|..]; intros; try solve [ignored].

(** ** Gapless logs *)

#[export] Instance gapless_ignores_runs : Ignores touches_runs (inv gapless).
Proof. intros d d' [x ->] Hg. by apply (gapless_frame d). Qed.
#[export] Instance gapless_ignores_steps : Ignores touches_steps (inv gapless).
Proof. intros d d' [x ->] Hg. by apply (gapless_frame d). Qed.
#[export] Instance gapless_ignores_memory : Ignores touches_memory (inv gapless).
Proof. intros d d' [x ->] Hg. by apply (gapless_frame d). Qed.
#[export] Instance gapless_ignores_waits : Ignores touches_waits (inv gapless).
Proof. intros d d' (x & y & ->) Hg. by apply (gapless_frame d). Qed.

#[export] Instance gapless_prim : StorePrim (inv gapless).
Proof. build_prim; try solve [eauto with keeps]; intros Hg; by apply (gapless_frame d). Qed.

(** ** Logs only grow *)

Definition session_le (s s' : Session) : Prop :=
  se_id s' = se_id s ∧ se_tenant s' = se_tenant s ∧ se_created_at s' = se_created_at s ∧
  (se_last_seq s ≤ se_last_seq s')%Z ∧ ∀ t, se_archived_at s = Some t → se_archived_at s' = Some t.

#[export] Instance session_le_pre : PreOrder session_le.
Proof.
  split; [intros s; unfold session_le; split_and!; auto; lia|].
  intros a b c (?&?&?&?&?) (?&?&?&?&?). unfold session_le. split_and!; try congruence; eauto. lia.
Qed.

(** Rows of a table persist, related by [le]. *)
Definition rows_le {K A} `{Countable K} (le : relation A) (m m' : gmap K A) : Prop :=
  ∀ k x, m !! k = Some x → ∃ x', m' !! k = Some x' ∧ le x x'.

Section rows_le.
Context {K A : Type} `{Countable K} (le : relation A) `{!PreOrder le}.

#[export] Instance rows_le_pre : PreOrder (rows_le (K:=K) le).
Proof.
  split; [intros m k x Hx; by exists x|].
  intros m1 m2 m3 H1 H2 k x Hx. destruct (H1 k x Hx) as (y & Hy & ?). destruct (H2 k y Hy) as (z & Hz & ?).
  exists z. split; [done|by etrans].
Qed.

Lemma rows_le_insert (m : gmap K A) k x : (∀ y, m !! k = Some y → le y x) → rows_le le m (<[k:=x]> m).
Proof.
  intros Hle j y Hy. destruct (decide (j = k)) as [->|Hne].
  - exists x. rewrite lookup_insert_eq. auto.
  - exists y. by rewrite lookup_insert_ne.
Qed.
End rows_le.

Definition log_grows : relation DB := λ d d',
  (∀ sid, session_log d sid `prefix_of` session_log d' sid) ∧
  rows_le session_le (db_sessions d) (db_sessions d').

#[export] Instance log_grows_pre : PreOrder log_grows.
Proof.
  split; [by intros d|]. intros d1 d2 d3 [H1 H2] [H3 H4]. split; [intros sid; etrans; [apply H1|apply H3]|by etrans].
Qed.

#[export] Instance log_grows_ignores_runs : Ignores touches_runs log_grows.
Proof. by intros d d' [x ->]. Qed.
#[export] Instance log_grows_ignores_steps : Ignores touches_steps log_grows.
Proof. by intros d d' [x ->]. Qed.
#[export] Instance log_grows_ignores_memory : Ignores touches_memory log_grows.
Proof. by intros d d' [x ->]. Qed.
#[export] Instance log_grows_ignores_waits : Ignores touches_waits log_grows.
Proof. by intros d d' (x & y & ->). Qed.

Lemma log_grows_put_session d k s s' :
  db_sessions d !! k = Some s → session_le s s' →
  log_grows d (with_sessions (<[k := s']> (db_sessions d)) d).
Proof.
  intros Hs Hle. split; [done|]. apply rows_le_insert; [apply _|]. intros y Hy. by simplify_eq.
Qed.

Lemma log_grows_append t s e : keeps log_grows (append_body t s e).
Proof.
  intros d. unfold append_body, mbind, M_bind, get. simpl.
  destruct (session_of d t s) as [se|] eqn:Hs; [|done]. apply session_of_Some in Hs as [Hs _].
  case_bool_decide; [done|]. simpl.
  assert (log_grows d (with_sessions (<[s := set_last_seq (se_last_seq se + 1) se]> (db_sessions d)) d)) as Hg.
  { eapply log_grows_put_session; [done|]. unfold session_le. simpl. split_and!; auto; lia. }
  case_match; [done|]. etrans; [exact Hg|]. split; [|done]. intros sid.
  unfold session_log. simpl. rewrite bool_filter_app. by apply prefix_app_r.
Qed.

#[export] Instance log_grows_prim : StorePrim log_grows.
Proof.
  build_prim; try done.
  - destruct h; simpl; [apply keeps_atomically; [apply _|]|]; apply log_grows_append.
  - unfold SessionCreate. destruct (ValidateLabels _); [done|]. intros d. run_method; try done.
    split; [done|]. apply rows_le_insert; [apply _|]. intros y Hy. by simplify_eq.
  - unfold UpdateLabels, SessionGet. destruct (ValidateLabels _); [done|]. intros d.
    run_method; try done;
      (eapply log_grows_put_session; [by eapply session_of_Some|unfold session_le; simpl; split_and!; auto; lia]).
  - unfold Archive, SessionGet. intros d. run_method; try done;
      (eapply log_grows_put_session; [by eapply session_of_Some|]);
      unfold session_le; simpl; split_and!; auto; try lia; intros ? ->; done.
Qed.

(** ** Waits leave [open] once and are resumed once *)

Definition wait_le (w w' : RunWait) : Prop :=
  rw_id w' = rw_id w ∧ rw_parent w' = rw_parent w ∧ rw_step_index w' = rw_step_index w ∧
  rw_tool_call_id w' = rw_tool_call_id w ∧ rw_kind w' = rw_kind w ∧
  rw_timeout_policy w' = rw_timeout_policy w ∧ rw_deadline w' = rw_deadline w ∧
  (rw_state w ≠ WaitOpen → rw_state w' = rw_state w) ∧
  (∀ t, rw_resumed_at w = Some t → rw_resumed_at w' = Some t).

#[export] Instance wait_le_pre : PreOrder wait_le.
Proof.
  split; [intros w; unfold wait_le; split_and!; auto|].
  intros a b c (?&?&?&?&?&?&?&Hs&Hr) (?&?&?&?&?&?&?&Hs'&Hr'). unfold wait_le.
  split_and!; try congruence; eauto. intros Ha. rewrite Hs'; [by apply Hs|]. by rewrite Hs.
Qed.

Lemma wait_of_Some d t i w : wait_of d t i = Some w → db_waits d !! i = Some w.
Proof.
  unfold wait_of. destruct (db_waits d !! i) as [v|]; simpl; [|done].
  destruct (run_of d t (rw_parent v)); simpl; congruence.
Qed.

Lemma insert_member_waits i m : keeps (λ d d', db_waits d' = db_waits d) (insert_member i m).
Proof. intros d. unfold insert_member. run_method; done. Qed.

Lemma for_each_member_waits i ms d : db_waits (for_each (insert_member i) ms d).1 = db_waits d.
Proof.
  assert (PreOrder (λ d d', db_waits d' = db_waits d)) by (split; [done|intros ???; congruence]).
  apply (keeps_for_each (λ d d', db_waits d' = db_waits d) (insert_member i) ms).
  intros m. apply insert_member_waits.
Qed.

(** The waits a claim takes are rows of the table. *)
Lemma due_waits_open d t n l w :
  w ∈ due_waits d t n l → is_open w = true ∧ w ∈ rows (db_waits d) ∧ (rw_deadline w ≤ n)%Z.
Proof.
  unfold due_waits. intros Hw. apply subseteq_take in Hw. unfold order_by in Hw.
  rewrite merge_sort_Permutation in Hw. apply elem_of_bool_filter in Hw as [Hb Hw].
  apply andb_true_iff in Hb as [Hb H1]. apply andb_true_iff in Hb as [_ H2].
  split_and!; [done|done|]. by apply bool_decide_eq_true in H1.
Qed.

Definition waits_keyed (d : DB) : Prop := ∀ i w, db_waits d !! i = Some w → rw_id w = i.

(** What a claim writes, row by row. *)
Lemma foldr_claim_lookup (ws : list RunWait) (m : gmap string RunWait) i w' :
  foldr (λ w m, <[rw_id w := w]> m) m ws !! i = Some w' →
  (w' ∈ ws ∧ rw_id w' = i) ∨ m !! i = Some w'.
Proof.
  induction ws as [|w ws IH]; simpl; [by right|]. rewrite lookup_insert. case_decide as E.
  - intros [= <-]. left. split; [left|done].
  - intros Hi. destruct (IH Hi) as [[H ?]|?]; [left; split; [by right|done]|by right].
Qed.

Lemma foldr_claim_dom (ws : list RunWait) (m : gmap string RunWait) i :
  is_Some (m !! i) → is_Some (foldr (λ w m, <[rw_id w := w]> m) m ws !! i).
Proof.
  intros Hi. induction ws as [|w ws IH]; simpl; [done|]. rewrite lookup_insert. case_decide; eauto.
Qed.

(** At most one open wait per parent, and rows under their own id. *)
Definition waits_wf (d : DB) : Prop :=
  waits_keyed d ∧
  ∀ i j w v, db_waits d !! i = Some w → db_waits d !! j = Some v →
    is_open w = true → is_open v = true → rw_parent w = rw_parent v → i = j.

(** Updates that keep identity and open no closed wait. *)
Definition waits_shrink (m m' : gmap string RunWait) : Prop :=
  ∀ i w', m' !! i = Some w' → ∃ w, m !! i = Some w ∧ rw_id w' = rw_id w ∧ rw_parent w' = rw_parent w ∧
    (is_open w' = true → is_open w = true).

Lemma waits_shrink_wf d d' : waits_shrink (db_waits d) (db_waits d') → waits_wf d → waits_wf d'.
Proof.
  intros Hs [Hk Ho]. split.
  - intros i w' Hw'. destruct (Hs i w' Hw') as (w & Hw & Hid & _). rewrite Hid. by apply Hk.
  - intros i j w' v' Hw' Hv' How Hov Hp.
    destruct (Hs i w' Hw') as (w & Hw & _ & Hpw & Hop). destruct (Hs j v' Hv') as (v & Hv & _ & Hpv & Hop').
    apply (Ho i j w v); auto. congruence.
Qed.

Lemma waits_shrink_insert m i w w' :
  m !! i = Some w → rw_id w' = rw_id w → rw_parent w' = rw_parent w →
  (is_open w' = true → is_open w = true) → waits_shrink m (<[i := w']> m).
Proof.
  intros Hw ??? j v. rewrite lookup_insert. case_decide as E.
  - intros [= <-]. subst. by exists w.
  - intros Hv. exists v. auto.
Qed.

Lemma claim_shrink d t n l :
  waits_keyed d →
  waits_shrink (db_waits d) (foldr (λ w m, <[rw_id w := w]> m) (db_waits d) (upd_wait_state WaitTimedOut <$> due_waits d t n l)).
Proof.
  intros Hk i w' Hi. apply foldr_claim_lookup in Hi as [[Hin <-]|Hi]; [|by exists w'].
  apply list_elem_of_fmap in Hin as (w & -> & Hw). apply due_waits_open in Hw as (_ & Hw & _).
  apply elem_of_map_to_list_values in Hw as [k Hk'].
  exists w. simpl. by rewrite (Hk k w Hk').
Qed.

Definition waits_evolve : relation DB := λ d d',
  waits_wf d → waits_wf d' ∧ rows_le wait_le (db_waits d) (db_waits d').
#[export] Instance waits_evolve_pre : PreOrder waits_evolve.
Proof.
  split; [intros d Hd; split; [done|reflexivity]|].
  intros a b c H1 H2 Ha. destruct (H1 Ha) as [Hb Hab]. destruct (H2 Hb) as [Hc Hbc]. split; [done|by etrans].
Qed.

Lemma waits_evolve_frame d d' : db_waits d' = db_waits d → waits_evolve d d'.
Proof. intros E Hd. unfold waits_wf, waits_keyed in *. rewrite E. split; [done|reflexivity]. Qed.

#[export] Instance waits_ignores_log : Ignores touches_log waits_evolve.
Proof. intros d d' (x & y & ->). by apply waits_evolve_frame. Qed.
#[export] Instance waits_ignores_runs : Ignores touches_runs waits_evolve.
Proof. intros d d' [x ->]. by apply waits_evolve_frame. Qed.
#[export] Instance waits_ignores_steps : Ignores touches_steps waits_evolve.
Proof. intros d d' [x ->]. by apply waits_evolve_frame. Qed.
#[export] Instance waits_ignores_memory : Ignores touches_memory waits_evolve.
Proof. intros d d' [x ->]. by apply waits_evolve_frame. Qed.

Lemma waits_evolve_update d i w w' :
  db_waits d !! i = Some w → wait_le w w' → (is_open w' = true → is_open w = true) →
  waits_evolve d (with_waits (<[i := w']> (db_waits d)) d).
Proof.
  intros Hw Hle Ho Hd. split.
  - eapply (waits_shrink_wf d); [|done]. apply (waits_shrink_insert _ _ w); [done|apply Hle..|done].
  - apply rows_le_insert; [apply _|]. intros y Hy. by simplify_eq.
Qed.

Lemma wait_conflict_false d r :
  wait_conflict d r = false → ∀ i w, db_waits d !! i = Some w →
  rw_id w ≠ rw_id r ∧ (is_open w = true → rw_parent w ≠ rw_parent r).
Proof.
  unfold wait_conflict. intros Hc i w Hw. apply not_true_iff_false in Hc. rewrite existsb_exists in Hc.
  assert (In w (rows (db_waits d))) as Hin
    by (apply list_elem_of_In; apply elem_of_map_to_list_values; eauto).
  split; [intros E|intros Ho E]; apply Hc; exists w; (split; [done|]).
  - by rewrite bool_decide_eq_true_2.
  - rewrite Ho, (bool_decide_eq_true_2 (rw_parent w = _)) by done. apply orb_true_r.
Qed.

Lemma waits_evolve_create d r :
  wait_conflict d r = false → waits_evolve d (with_waits (<[rw_id r := r]> (db_waits d)) d).
Proof.
  intros Hc Hd. pose proof (wait_conflict_false d r Hc) as Hno. destruct Hd as [Hk Ho].
  assert (db_waits d !! rw_id r = None) as Hnone.
  { destruct (db_waits d !! rw_id r) as [w|] eqn:E; [|done]. destruct (Hno _ _ E) as [Hid _].
    by rewrite (Hk _ _ E) in Hid. }
  split; [split|].
  - intros i w. simpl. rewrite lookup_insert. case_decide; [by intros [= <-]|apply Hk].
  - intros i j w v. simpl. rewrite !lookup_insert. repeat case_decide; subst.
    + done.
    + intros [= <-] Hv _ Hov Hp. exfalso. apply (proj2 (Hno _ _ Hv) Hov). done.
    + intros Hw [= <-] How _ Hp. exfalso. apply (proj2 (Hno _ _ Hw) How). done.
    + intros; by eapply Ho.
  - apply rows_le_insert; [apply _|]. intros y Hy. simpl in *. congruence.
Qed.

#[export] Instance waits_evolve_prim : StorePrim waits_evolve.
Proof.
  build_prim; try by apply waits_evolve_frame.
  - intros d. unfold WaitCreate, mbind, M_bind, get. simpl. destruct (_ || _) eqn:E.
    + unfold WaitGet, attempt, mbind, M_bind, get. destruct (wait_of d t (rw_id w)); reflexivity.
    + apply orb_false_iff in E as [_ E]. etrans; [apply (waits_evolve_create _ _ E)|].
      apply waits_evolve_frame. by rewrite for_each_member_waits.
  - intros d Hd. unfold ClaimDue, mbind, M_bind, get. simpl. split.
    + eapply (waits_shrink_wf d); [|done]. apply claim_shrink, Hd.
    + intros i w Hi. simpl. destruct (foldr_claim_dom (upd_wait_state WaitTimedOut <$> due_waits d t n l) _ i
        ltac:(eauto)) as [w' Hw']. exists w'. split; [done|].
      apply foldr_claim_lookup in Hw' as [[Hin Hid]|Hw']; [|simplify_eq; reflexivity].
      apply list_elem_of_fmap in Hin as (v & -> & Hv). apply due_waits_open in Hv as (Hov & Hv & _).
      apply elem_of_map_to_list_values in Hv as [k Hk]. simpl in Hid.
      assert (k = i) as -> by (by rewrite <-Hid, (proj1 Hd k v Hk)). simplify_eq.
      unfold wait_le; simpl; split_and!; auto. apply bool_decide_eq_true in Hov. done.
  - intros d. unfold WaitClose. run_method; try reflexivity.
    apply wait_of_Some in H. eapply waits_evolve_update; [done| |done].
    unfold wait_le, is_open in *. simpl. split_and!; auto. by apply bool_decide_eq_true in H0.
  - intros d. unfold WaitSetResult. run_method; try reflexivity.
    apply wait_of_Some in H. eapply waits_evolve_update; [done| |done].
    unfold wait_le. simpl. split_and!; auto.
  - intros d. unfold MarkResumed. run_method; try reflexivity.
    apply wait_of_Some in H. eapply waits_evolve_update; [done| |done].
    unfold wait_le. simpl. split_and!; auto. congruence.
Qed.

(** ** Runs: identity is immutable, a cancellation request is permanent *)

Definition run_le (r r' : AgentRun) : Prop :=
  ar_id r' = ar_id r ∧ ar_session r' = ar_session r ∧ ar_tenant r' = ar_tenant r ∧
  ar_parent r' = ar_parent r ∧ ar_spawn_key r' = ar_spawn_key r ∧ ar_policy r' = ar_policy r ∧
  ar_actor r' = ar_actor r ∧ ar_loop_kind r' = ar_loop_kind r ∧ ar_loop_version r' = ar_loop_version r ∧
  ar_model r' = ar_model r ∧ ar_prompt r' = ar_prompt r ∧ ar_created_at r' = ar_created_at r ∧
  (∀ t, ar_cancel_requested_at r = Some t → ar_cancel_requested_at r' = Some t).

#[export] Instance run_le_pre : PreOrder run_le.
Proof.
  split; [intros r; unfold run_le; split_and!; auto|].
  intros a b c (?&?&?&?&?&?&?&?&?&?&?&?&?) (?&?&?&?&?&?&?&?&?&?&?&?&?). unfold run_le.
  split_and!; try congruence; eauto.
Qed.

(** Rows under their own id, one run per spawn key of a tenant, no dangling
    parent. *)
Definition runs_wf (d : DB) : Prop :=
  (∀ i r, db_runs d !! i = Some r → ar_id r = i) ∧
  (∀ i j r q, db_runs d !! i = Some r → db_runs d !! j = Some q →
     ar_tenant r = ar_tenant q → ar_spawn_key r = ar_spawn_key q → ar_spawn_key r ≠ "" → i = j) ∧
  (∀ i r p, db_runs d !! i = Some r → ar_parent r = Some p → is_Some (db_runs d !! p)).

Definition runs_evolve : relation DB := λ d d',
  runs_wf d → runs_wf d' ∧ rows_le run_le (db_runs d) (db_runs d').
#[export] Instance runs_evolve_pre : PreOrder runs_evolve.
Proof.
  split; [intros d Hd; split; [done|reflexivity]|].
  intros a b c H1 H2 Ha. destruct (H1 Ha) as [Hb Hab]. destruct (H2 Hb) as [Hc Hbc]. split; [done|by etrans].
Qed.

Lemma runs_evolve_frame d d' : db_runs d' = db_runs d → runs_evolve d d'.
Proof. intros E Hd. unfold runs_wf in *. rewrite E. split; [done|reflexivity]. Qed.

#[export] Instance runs_ignores_log : Ignores touches_log runs_evolve.
Proof. intros d d' (x & y & ->). by apply runs_evolve_frame. Qed.
#[export] Instance runs_ignores_steps : Ignores touches_steps runs_evolve.
Proof. intros d d' [x ->]. by apply runs_evolve_frame. Qed.
#[export] Instance runs_ignores_memory : Ignores touches_memory runs_evolve.
Proof. intros d d' [x ->]. by apply runs_evolve_frame. Qed.
#[export] Instance runs_ignores_waits : Ignores touches_waits runs_evolve.
Proof. intros d d' (x & y & ->). by apply runs_evolve_frame. Qed.

Lemma run_of_Some d t i r : run_of d t i = Some r ↔ db_runs d !! i = Some r ∧ ar_tenant r = t.
Proof.
  unfold run_of. destruct (db_runs d !! i) as [q|]; simpl; [|naive_solver].
  case_bool_decide; naive_solver.
Qed.

Lemma runs_evolve_update d i r r' :
  db_runs d !! i = Some r → run_le r r' → runs_evolve d (with_runs (<[i := r']> (db_runs d)) d).
Proof.
  intros Hr Hle (Hk & Hu & Hp).
  assert (∀ j q, <[i := r']> (db_runs d) !! j = Some q → ∃ q0, db_runs d !! j = Some q0 ∧ run_le q0 q) as Hback.
  { intros j q. rewrite lookup_insert. case_decide; [intros [= <-]; subst; eauto|]. intros Hq. by exists q. }
  split; [split_and!|].
  - intros j q Hq. destruct (Hback j q Hq) as (q0 & Hq0 & Hl). rewrite (proj1 Hl). by apply Hk.
  - intros j k q p Hq Hp' Ht Hs Hne. destruct (Hback j q Hq) as (q0 & Hq0 & (_&_&Ht0&_&Hs0&_)).
    destruct (Hback k p Hp') as (p0 & Hp0 & (_&_&Ht1&_&Hs1&_)).
    apply (Hu j k q0 p0); [done|done|congruence..].
  - intros j q p Hq Hpar. destruct (Hback j q Hq) as (q0 & Hq0 & (_&_&_&Hpp&_)). simpl.
    rewrite lookup_insert_is_Some'. right. apply (Hp j q0); congruence.
  - apply rows_le_insert; [apply _|]. intros y Hy. by simplify_eq.
Qed.

Lemma runs_evolve_exec t i f : (∀ now r, run_le r (f now r)) → keeps runs_evolve (run_exec t i f).
Proof.
  intros Hf d. unfold run_exec. run_method; [|reflexivity].
  apply run_of_Some in H as [H _]. eapply runs_evolve_update; [done|apply Hf].
Qed.

Lemma spawn_key_taken_false d t k i r :
  spawn_key_taken d t k = false → db_runs d !! i = Some r → ar_tenant r = t → ar_spawn_key r = k → k = "".
Proof.
  intros Hs Hr Ht Hk. destruct (decide (k = "")) as [|Hne]; [done|exfalso].
  unfold spawn_key_taken in Hs. rewrite bool_decide_eq_false_2 in Hs by done. simpl in Hs.
  apply not_true_iff_false in Hs. apply Hs, existsb_exists. exists r. split.
  - apply list_elem_of_In, elem_of_map_to_list_values. eauto.
  - by rewrite !bool_decide_eq_true_2.
Qed.

Lemma runs_evolve_create d t r :
  db_runs d !! ar_id r = None → spawn_key_taken d t (ar_spawn_key r) = false →
  (∀ p, ar_parent r = Some p → is_Some (db_runs d !! p) ∨ p = ar_id r) →
  runs_evolve d (with_runs (<[ar_id r := run_row d t r]> (db_runs d)) d).
Proof.
  intros Hnone Hkey Hpar (Hk & Hu & Hp). split; [split_and!|].
  - intros j q. simpl. rewrite lookup_insert. case_decide; [by intros [= <-]|apply Hk].
  - intros j k q p. simpl. rewrite !lookup_insert. repeat case_decide; subst; try done.
    + intros [= <-] Hq Ht Hs Hne. simpl in *. exfalso. apply Hne. symmetry in Ht, Hs.
      by eapply spawn_key_taken_false.
    + intros Hq [= <-] Ht Hs Hne. simpl in *. exfalso. apply Hne. rewrite Hs.
      by eapply spawn_key_taken_false.
    + by apply Hu.
  - intros j q p. simpl. rewrite lookup_insert. case_decide.
    + intros [= <-] Hq. simpl in Hq. apply lookup_insert_is_Some'. destruct (Hpar p Hq) as [?| ->]; auto.
    + intros Hq Hqp. apply lookup_insert_is_Some'. right. by eapply Hp.
  - apply rows_le_insert; [apply _|]. intros y Hy. simpl in *. congruence.
Qed.

#[export] Instance runs_evolve_prim : StorePrim runs_evolve.
Proof.
  build_prim; try by apply runs_evolve_frame.
  - apply runs_evolve_exec. intros; unfold run_le, upd_history; simpl; split_and!; auto.
  - apply runs_evolve_exec. intros; unfold run_le, upd_state; simpl; split_and!; auto.
  - apply runs_evolve_exec. intros; unfold run_le, upd_result; simpl; split_and!; auto.
  - apply runs_evolve_exec. intros; unfold run_le, upd_cancel; simpl; split_and!; auto. intros ? ->. done.
  - intros d. unfold RunCreate. unfold mbind, M_bind, get; simpl.
    destruct (session_of _ _ _); [|reflexivity]. destruct (_ || _) eqn:E; [reflexivity|].
    apply orb_false_iff in E as [E1 E2]. apply bool_decide_eq_false in E1.
    destruct (match ar_parent r with Some _ => _ | None => _ end) eqn:E3; [reflexivity|].
    simpl. apply runs_evolve_create; [by apply eq_None_not_Some|done|].
    intros p Hp. rewrite Hp in E3. apply negb_false_iff, orb_true_iff in E3 as [E3|E3];
      apply bool_decide_eq_true in E3; auto.
Qed.

(** ** Committed steps are kept, and there is one per run and index *)

Definition step_key (s : RunStep) : RunID * Z := (rs_run s, rs_step_index s).

Definition steps_evolve : relation DB := λ d d',
  db_steps d `prefix_of` db_steps d' ∧
  (NoDup (step_key <$> db_steps d) → NoDup (step_key <$> db_steps d')).
#[export] Instance steps_evolve_pre : PreOrder steps_evolve.
Proof.
  split; [by intros d|]. intros a b c [H1 H2] [H3 H4]. split; [by etrans|auto].
Qed.

#[export] Instance steps_ignores_log : Ignores touches_log steps_evolve.
Proof. by intros d d' (x & y & ->). Qed.
#[export] Instance steps_ignores_runs : Ignores touches_runs steps_evolve.
Proof. by intros d d' [x ->]. Qed.
#[export] Instance steps_ignores_memory : Ignores touches_memory steps_evolve.
Proof. by intros d d' [x ->]. Qed.
#[export] Instance steps_ignores_waits : Ignores touches_waits steps_evolve.
Proof. by intros d d' (x & y & ->). Qed.

#[export] Instance steps_evolve_prim : StorePrim steps_evolve.
Proof.
  build_prim; try done. intros d. unfold InsertStep. run_method; try done. split; [by apply prefix_app_r|].
  simpl. intros Hnd. rewrite fmap_app. apply NoDup_app. split_and!; [done| |apply NoDup_singleton].
  intros k Hk Hin. simpl in Hin. apply list_elem_of_singleton in Hin as ->.
  apply list_elem_of_fmap in Hk as (st & Hst & Hin). apply not_true_iff_false in H0. apply H0.
  apply existsb_exists. exists st. split; [by apply list_elem_of_In|].
  unfold step_key in Hst; simpl in Hst. simplify_eq. by rewrite !bool_decide_eq_true_2.
Qed.

(** ** Session memory stays within its limits *)

Definition memory_wf (d : DB) : Prop :=
  (∀ k e, db_memory d !! k = Some e →
     k = (me_session e, me_key e) ∧ ValidMemoryKey (me_key e) = true ∧ (slen (me_value e) ≤ MaxMemoryValue)%Z) ∧
  ∀ session, (Z.of_nat (length (memory_of d session)) ≤ MaxMemoryKeys)%Z.

#[export] Instance memory_ignores_log : Ignores touches_log (inv memory_wf).
Proof. intros d d' (x & y & ->) Hd. exact Hd. Qed.
#[export] Instance memory_ignores_runs : Ignores touches_runs (inv memory_wf).
Proof. intros d d' [x ->] Hd. exact Hd. Qed.
#[export] Instance memory_ignores_steps : Ignores touches_steps (inv memory_wf).
Proof. intros d d' [x ->] Hd. exact Hd. Qed.
#[export] Instance memory_ignores_waits : Ignores touches_waits (inv memory_wf).
Proof. intros d d' (x & y & ->) Hd. exact Hd. Qed.

(** Entries of a session, counted in the rows of a table. *)
Definition session_count (session : SessionID) (l : list SessionMemoryEntry) : nat :=
  length (bool_filter (λ e, bool_decide (me_session e = session)) l).

Lemma session_count_perm session l k : l ≡ₚ k → session_count session l = session_count session k.
Proof. intros Hp. unfold session_count, bool_filter. by rewrite Hp. Qed.

Lemma session_count_cons session e l :
  session_count session (e :: l) =
  ((if bool_decide (me_session e = session) then 1 else 0) + session_count session l)%nat.
Proof.
  unfold session_count, bool_filter. rewrite filter_cons. repeat case_bool_decide; repeat case_decide; done.
Qed.

Lemma rows_insert_fresh `{Countable K} {A} (m : gmap K A) k x : m !! k = None → rows (<[k:=x]> m) ≡ₚ x :: rows m.
Proof. intros Hk. unfold rows. by rewrite map_to_list_insert. Qed.

Lemma rows_delete `{Countable K} {A} (m : gmap K A) k x : m !! k = Some x → rows m ≡ₚ x :: rows (delete k m).
Proof. intros Hk. unfold rows. rewrite <-(map_to_list_delete m k x) by done. done. Qed.

Lemma rows_update `{Countable K} {A} (m : gmap K A) k x y :
  m !! k = Some x → ∃ l, rows m ≡ₚ x :: l ∧ rows (<[k:=y]> m) ≡ₚ y :: l.
Proof.
  intros Hk. exists (rows (delete k m)). split; [by apply rows_delete|].
  rewrite <-insert_delete_eq. apply rows_insert_fresh. apply lookup_delete_eq.
Qed.

Lemma memory_put_wf d e e' :
  memory_wf d → me_session e' = me_session e → me_key e' = me_key e → me_value e' = me_value e →
  ValidMemoryKey (me_key e) = true → (slen (me_value e) ≤ MaxMemoryValue)%Z →
  (is_Some (db_memory d !! (me_session e, me_key e)) ∨
   (Z.of_nat (length (memory_of d (me_session e))) < MaxMemoryKeys)%Z) →
  memory_wf (with_memory (<[(me_session e, me_key e) := e']> (db_memory d)) d).
Proof.
  intros [Hrow Hcap] Hs Hk Hv Hvalid Hlen Hroom. split.
  - intros k x. simpl. rewrite lookup_insert. case_decide; [|apply Hrow].
    intros [= <-]. subst k. by rewrite Hs, Hk, Hv.
  - intros session. change (Z.of_nat (session_count session (rows (<[(me_session e, me_key e) := e']> (db_memory d))))
      ≤ MaxMemoryKeys)%Z.
    pose proof (Hcap session) as Hc. change (Z.of_nat (session_count session (rows (db_memory d))) ≤ MaxMemoryKeys)%Z in Hc.
    destruct (db_memory d !! (me_session e, me_key e)) as [old|] eqn:Hold.
    + destruct (rows_update _ _ old e' Hold) as (l & H1 & H2).
      rewrite (session_count_perm _ _ _ H1), session_count_cons in Hc.
      rewrite (session_count_perm _ _ _ H2), session_count_cons.
      destruct (Hrow _ _ Hold) as [Heq _]. injection Heq as Hsess _.
      rewrite Hs. rewrite <-Hsess in Hc. done.
    + destruct Hroom as [[? ?]|Hroom]; [done|].
      rewrite (session_count_perm _ _ _ (rows_insert_fresh _ _ e' Hold)), session_count_cons.
      rewrite Hs. case_bool_decide; [subst session|simpl; lia].
      change (Z.of_nat (session_count (me_session e) (rows (db_memory d))) < MaxMemoryKeys)%Z in Hroom. lia.
Qed.

#[export] Instance memory_prim : StorePrim (inv memory_wf).
Proof.
  build_prim; try (intros Hd; exact Hd).
  - intros d Hd. unfold MemorySet. destruct (negb _) eqn:Hvalid; [done|]. case_bool_decide as Hlen; [done|].
    unfold mbind, M_bind, get. simpl. destruct (_ && _) eqn:Hroom; [done|].
    destruct (session_of _ _ _); [|done]. simpl. apply memory_put_wf; try done; [|lia|].
    + by apply negb_false_iff in Hvalid.
    + apply andb_false_iff in Hroom as [Hr|Hr].
      * left. apply negb_false_iff, bool_decide_eq_true in Hr. done.
      * right. apply bool_decide_eq_false in Hr. lia.
  - intros d [Hrow Hcap]. unfold MemoryDelete. run_method; try done. split.
    + intros j e. simpl. rewrite lookup_delete. case_decide; [done|]. apply Hrow.
    + intros session. pose proof (Hcap session) as Hc.
      change (Z.of_nat (session_count session (rows (db_memory d))) ≤ MaxMemoryKeys)%Z in Hc.
      change (Z.of_nat (session_count session (rows (delete (s, k) (db_memory d)))) ≤ MaxMemoryKeys)%Z.
      rewrite (session_count_perm _ _ _ (rows_delete _ _ _ H0)), session_count_cons in Hc. lia.
Qed.

(** ** Runs stay inside their tenant *)

Definition tenant_wf (d : DB) : Prop :=
  ∀ i r, db_runs d !! i = Some r → ∃ s, db_sessions d !! ar_session r = Some s ∧ se_tenant s = ar_tenant r.

#[export] Instance tenant_ignores_steps : Ignores touches_steps (inv tenant_wf).
Proof. intros d d' [x ->] Hd. exact Hd. Qed.
#[export] Instance tenant_ignores_memory : Ignores touches_memory (inv tenant_wf).
Proof. intros d d' [x ->] Hd. exact Hd. Qed.
#[export] Instance tenant_ignores_waits : Ignores touches_waits (inv tenant_wf).
Proof. intros d d' (x & y & ->) Hd. exact Hd. Qed.

Lemma tenant_log {A} (m : M DB A) :
  keeps log_grows m → keeps touches_log m → keeps (inv tenant_wf) m.
Proof.
  intros H1 H2 d Hd i r. specialize (H1 d) as [_ Hs]. specialize (H2 d) as (x & y & E). rewrite E in *. simpl in *.
  intros Hr. destruct (Hd i r Hr) as (s & Hs0 & <-). destruct (Hs _ _ Hs0) as (s' & Hs' & Hle). exists s'.
  split; [done|apply Hle].
Qed.

Lemma tenant_exec t i f : (∀ now r, run_le r (f now r)) → keeps (inv tenant_wf) (run_exec t i f).
Proof.
  intros Hf d Hd. unfold run_exec. run_method; try done. apply run_of_Some in H as [H _].
  intros j q. simpl. rewrite lookup_insert. case_decide; [|apply Hd]. intros [= <-].
  destruct (Hf (db_now d) a) as (_ & -> & -> & _). by eapply Hd.
Qed.

#[export] Instance tenant_prim : StorePrim (inv tenant_wf).
Proof.
  build_prim; try (intros Hd; exact Hd).
  - apply tenant_log; [apply log_grows_prim|apply log_Append].
  - apply tenant_log; [apply log_grows_prim|apply log_SessionCreate].
  - apply tenant_log; [apply log_grows_prim|apply log_UpdateLabels].
  - apply tenant_log; [apply log_grows_prim|apply log_Archive].
  - apply tenant_exec. intros; unfold run_le, upd_history; simpl; split_and!; auto.
  - apply tenant_exec. intros; unfold run_le, upd_state; simpl; split_and!; auto.
  - apply tenant_exec. intros; unfold run_le, upd_result; simpl; split_and!; auto.
  - apply tenant_exec. intros; unfold run_le, upd_cancel; simpl; split_and!; auto. intros ? ->. done.
  - intros d Hd. unfold RunCreate, mbind, M_bind, get. simpl.
    destruct (session_of d t (ar_session r)) as [s|] eqn:Hs; [|done].
    destruct (_ || _); [done|]. destruct (match ar_parent r with Some _ => _ | None => _ end); [done|].
    intros j q. simpl. rewrite lookup_insert. case_decide; [|apply Hd]. intros [= <-]. simpl.
    exists s. by apply session_of_Some.
Qed.
