(* ===== verification/RunStates.v ===== *)
(** * The run state machine

    [run_edge] is the state machine of a run.  No store method enforces it:
    [SetState] writes any state, and the guards are in the handlers, under the
    row lock of their transaction.  This file shows that every transaction of
    the loop and of the run API moves every run along [run_edge] only, the run
    it is about as well as the parents it resumes on the way. *)
From S2P Require Import Prelude Policy Domain Text Store StoreRuns EventLog Loop Waits Batcher Tools Step Api ResourceStore OperatorTx Frames Invariants.

(** ** The state machine *)

Inductive run_edge : RunState → RunState → Prop :=
  | edge_refl st : run_edge st st
  (** claimed, or resumed by a closed wait, or answered *)
  | edge_run st : Terminal st = false → run_edge st RunRunning
  (** a completed run that gets another message *)
  | edge_again : run_edge RunCompleted RunRunning
  | edge_park : run_edge RunRunning RunAwaiting
  | edge_complete : run_edge RunRunning RunCompleted
  | edge_fail st : Terminal st = false → run_edge st RunFailed
  | edge_cancel st : Terminal st = false → run_edge st RunCancelled
  (** a worker that saw the cancellation after another one failed the run *)
  | edge_cancel_failed : run_edge RunFailed RunCancelled.

(** A completed run was never asked to stop. *)
Definition clean (r : AgentRun) : Prop := ar_state r = RunCompleted → ar_cancel_requested_at r = None.
Definition all_clean (d : DB) : Prop := ∀ i r, db_runs d !! i = Some r → clean r.

(** Rows sit under their own id. *)
Definition keyed (d : DB) : Prop := ∀ i r, db_runs d !! i = Some r → ar_id r = i.

(** What one transaction may do to the runs. *)
Definition runs_step (d d' : DB) : Prop :=
  keyed d → all_clean d →
  keyed d' ∧ all_clean d' ∧
  rows_le (λ r r', run_edge (ar_state r) (ar_state r')) (db_runs d) (db_runs d').

(** ** Relations that compose *)

(** Existing rows are related by [le], new ones are clean. *)
Definition table_le (le : relation AgentRun) : relation DB := λ d d',
  keyed d →
  keyed d' ∧ rows_le le (db_runs d) (db_runs d') ∧
  ∀ i r', db_runs d' !! i = Some r' → db_runs d !! i = None → clean r'.

Class CleanLe (le : relation AgentRun) : Prop := {
  clean_le_pre :: PreOrder le;
  clean_le r r' : le r r' → clean r → clean r';
  clean_le_id r r' : le r r' → ar_id r' = ar_id r;
}.

#[export] Instance table_le_pre le `{!CleanLe le} : PreOrder (table_le le).
Proof.
  split.
  - intros d Hk. split_and!; [done|reflexivity|]. intros i r' H1 H2. congruence.
  - intros a b c Hab Hbc Hk. destruct (Hab Hk) as (Hk' & H1 & H2). destruct (Hbc Hk') as (Hk'' & H3 & H4).
    split_and!; [done|by etrans|]. intros i r' Hc Ha.
    destruct (db_runs b !! i) as [r|] eqn:Hb; [|by eapply H4].
    destruct (H3 i r Hb) as (r'' & ? & Hle). simplify_eq. eapply clean_le; [done|]. by eapply H2.
Qed.

(** Nothing about the state changes. *)
Definition same_row (r r' : AgentRun) : Prop :=
  ar_state r' = ar_state r ∧ ar_cancel_requested_at r' = ar_cancel_requested_at r ∧ ar_id r' = ar_id r.
(** A parked or running run may be set running. *)
Definition resume_row (r r' : AgentRun) : Prop :=
  (ar_state r' = ar_state r ∨ (Terminal (ar_state r) = false ∧ ar_state r' = RunRunning)) ∧
  ar_cancel_requested_at r' = ar_cancel_requested_at r ∧ ar_id r' = ar_id r.

#[export] Instance same_row_le : CleanLe same_row.
Proof.
  split; [split; [by intros r|intros a b c (?&?&?) (?&?&?); split_and!; congruence]| |].
  - intros r r' (E1 & E2 & _). unfold clean. by rewrite E1, E2.
  - by intros r r' (_ & _ & ?).
Qed.
#[export] Instance resume_row_le : CleanLe resume_row.
Proof.
  split; [split| |].
  - intros r. split_and!; auto.
  - intros a b c ([Ea|[Ha Ea]] & Hc & Hi) ([Eb|[Hb Eb]] & Hc' & Hi'); (split_and!; [|congruence..]);
      rewrite ?Eb, ?Ea; auto. right. by rewrite <-Ea.
  - intros r r' ([E|[_ E]] & Hc & _); unfold clean; rewrite E, Hc; [done|discriminate].
  - by intros r r' (_ & _ & ?).
Qed.

Notation same_states := (table_le same_row).
Notation resumes := (table_le resume_row).

Lemma same_resumes : subrelation same_states resumes.
Proof.
  intros d d' H Hk. destruct (H Hk) as (Hk' & H1 & H2). split_and!; [done| |done].
  intros i r Hr. destruct (H1 i r Hr) as (r' & ? & (?&?&?)). exists r'. split; [done|]. split_and!; auto.
Qed.

Lemma table_le_frame le `{!CleanLe le} d d' : db_runs d' = db_runs d → table_le le d d'.
Proof.
  intros E Hk. unfold keyed in *. rewrite E. split_and!; [done|reflexivity|]. intros i r' H1 H2. congruence.
Qed.

#[export] Instance table_ignores_log le `{!CleanLe le} : Ignores touches_log (table_le le).
Proof. intros d d' (x & y & ->). by apply table_le_frame. Qed.
#[export] Instance table_ignores_steps le `{!CleanLe le} : Ignores touches_steps (table_le le).
Proof. intros d d' [x ->]. by apply table_le_frame. Qed.
#[export] Instance table_ignores_memory le `{!CleanLe le} : Ignores touches_memory (table_le le).
Proof. intros d d' [x ->]. by apply table_le_frame. Qed.
#[export] Instance table_ignores_waits le `{!CleanLe le} : Ignores touches_waits (table_le le).
Proof. intros d d' (x & y & ->). by apply table_le_frame. Qed.

Lemma table_le_update le `{!CleanLe le} d i r r' :
  db_runs d !! i = Some r → le r r' → table_le le d (with_runs (<[i := r']> (db_runs d)) d).
Proof.
  intros Hr Hle Hk. split_and!.
  - intros j q. simpl. rewrite lookup_insert. case_decide; [|apply Hk]. intros [= <-]. subst.
    rewrite (clean_le_id _ _ Hle). by apply Hk.
  - apply rows_le_insert; [apply _|]. intros y Hy. by simplify_eq.
  - intros j q. simpl. rewrite lookup_insert. case_decide; [subst; congruence|intros; congruence].
Qed.

Section prims.
Context (le : relation AgentRun) `{!CleanLe le} (Hsame : subrelation same_row le).

Lemma table_Append h t s e : keeps (table_le le) (Append h t s e).
Proof. ignored. Qed.
Lemma table_InsertStep t s : keeps (table_le le) (InsertStep t s).
Proof. ignored. Qed.
Lemma table_MemorySet t e : keeps (table_le le) (MemorySet t e).
Proof. ignored. Qed.
Lemma table_WaitCreate t w ms : keeps (table_le le) (WaitCreate t w ms).
Proof. ignored. Qed.
Lemma table_ClaimDue t n l : keeps (table_le le) (ClaimDue t n l).
Proof. ignored. Qed.
Lemma table_WaitClose t i st j : keeps (table_le le) (WaitClose t i st j).
Proof. ignored. Qed.
Lemma table_WaitSetResult t i j : keeps (table_le le) (WaitSetResult t i j).
Proof. ignored. Qed.
Lemma table_MarkResumed t i : keeps (table_le le) (MarkResumed t i).
Proof. ignored. Qed.
Lemma table_EnqueueInTx h j t : keeps (table_le le) (EnqueueInTx h j t).
Proof. destruct h; intros d; by apply table_le_frame. Qed.
Lemma table_exec t i f : (∀ now r, le r (f now r)) → keeps (table_le le) (run_exec t i f).
Proof.
  intros Hf d. unfold run_exec. run_method; [|reflexivity]. apply run_of_Some in H as [H _].
  eapply table_le_update; [done|done|apply Hf].
Qed.
Lemma table_SetHistory t i h : keeps (table_le le) (SetHistory t i h).
Proof. apply table_exec. intros. by apply Hsame. Qed.
Lemma table_SetResult t i j : keeps (table_le le) (SetResult t i j).
Proof. apply table_exec. intros. by apply Hsame. Qed.
Lemma table_RunCreate t r : keeps (table_le le) (RunCreate t r).
Proof.
  intros d. unfold RunCreate, mbind, M_bind, get. simpl. destruct (session_of _ _ _); [|reflexivity].
  destruct (_ || _) eqn:E; [reflexivity|]. apply orb_false_iff in E as [E _]. apply bool_decide_eq_false in E.
  destruct (match ar_parent r with Some _ => _ | None => _ end); [reflexivity|]. simpl. intros Hk. split_and!.
  - intros i q. simpl. rewrite lookup_insert. case_decide; [by intros [= <-]|apply Hk].
  - apply rows_le_insert; [apply _|]. intros y Hy. destruct E. eauto.
  - intros i q. simpl. rewrite lookup_insert. case_decide; [by intros [= <-]|congruence].
Qed.
End prims.

Lemma same_same : subrelation same_row same_row.
Proof. by intros r r'. Qed.
Lemma same_resume : subrelation same_row resume_row.
Proof. intros r r' (?&?&?). split_and!; auto. Qed.
#[export] Hint Resolve same_same same_resume : keeps.
#[export] Hint Resolve table_Append table_InsertStep table_MemorySet table_WaitCreate table_ClaimDue
  table_WaitClose table_WaitSetResult table_MarkResumed table_EnqueueInTx table_SetHistory
  table_SetResult table_RunCreate : keeps.

Lemma wp_keeps {A} (R : relation DB) (m : M DB A) (Q : result A → DB → Prop) d :
  keeps R m → (∀ r d', R d d' → Q r d') → wp m Q d.
Proof. intros Hk HQ. apply HQ, Hk. Qed.

Lemma wp_run_exec t i f (Q : result unit → DB → Prop) d :
  (∀ r, run_of d t i = Some r → Q (Ok ()) (with_runs (<[i := f (db_now d) r]> (db_runs d)) d)) →
  (run_of d t i = None → Q (Err ErrNotFound) d) → wp (run_exec t i f) Q d.
Proof.
  intros H1 H2. unfold wp, run_exec, mbind, M_bind, get. simpl. destruct (run_of d t i) eqn:E; [by apply H1|by apply H2].
Qed.

Lemma wp_RunGet t i (Q : result AgentRun → DB → Prop) d :
  (∀ r, run_of d t i = Some r → Q (Ok r) d) → (run_of d t i = None → Q (Err ErrNotFound) d) → wp (RunGet t i) Q d.
Proof. intros H1 H2. unfold wp, RunGet, mbind, M_bind, get. simpl. destruct (run_of d t i) eqn:E; [by apply H1|by apply H2]. Qed.
Lemma wp_RunGetForUpdate t i (Q : result AgentRun → DB → Prop) d :
  (∀ r, run_of d t i = Some r → Q (Ok r) d) → (run_of d t i = None → Q (Err ErrNotFound) d) →
  wp (RunGetForUpdate t i) Q d.
Proof. apply wp_RunGet. Qed.

(** ** Resuming a parent *)

(** A computation whose proof may use that rows sit under their own ids. *)
Lemma keeps_table_wp le {A} (m : M DB A) :
  (∀ d, keyed d → wp m (λ _, table_le le d) d) → keeps (table_le le) m.
Proof. intros Hm d Hk. by apply (Hm d Hk). Qed.

Lemma run_of_keyed d t i r : keyed d → run_of d t i = Some r → ar_id r = i.
Proof. intros Hk [Hr _]%run_of_Some. by apply Hk. Qed.

Lemma resumes_resumeParent h org w o j : keeps resumes (resumeParent h org w o j).
Proof.
  apply keeps_table_wp. intros d Hk. unfold resumeParent.
  apply wp_bind. eapply (wp_keeps resumes); [eauto with keeps typeclass_instances|].
  intros [[]|e] d1 H1; simpl; [|done..].
  destruct (H1 Hk) as (Hk1 & _).
  apply wp_bind, wp_RunGetForUpdate; [intros parent Hp|done].
  destruct (Terminal (ar_state parent)) eqn:Ht; [done|].
  apply wp_bind, wp_of_result. destruct (appendWaitResult _ _ _ _) as [hist|e]; [|done].
  rewrite (run_of_keyed _ _ _ _ Hk1 Hp). apply run_of_Some in Hp as [Hp Htn].
  apply wp_bind, wp_run_exec; [intros r Hr|done]. apply run_of_Some in Hr as [Hr _]. simplify_eq.
  apply wp_bind, wp_run_exec; [intros r Hr|intros _; etrans; [done|]; eapply table_le_update; [apply _|done|]; split_and!; auto].
  apply run_of_Some in Hr as [Hr _]. simpl in Hr. rewrite lookup_insert_eq in Hr. simplify_eq.
  set (d2 := with_runs _ _).
  assert (resumes d d2) as H2.
  { etrans; [done|]. unfold d2. simpl. rewrite insert_insert_eq.
    apply (table_le_update _ d1 _ parent); [done|]. split_and!; auto. }
  clearbody d2. eapply (wp_keeps resumes); [solve_handler|]. intros r d3 H3. by etrans.
Qed.
#[export] Hint Resolve resumes_resumeParent : keeps.

Lemma resumes_tryCloseWait h org i r : keeps resumes (tryCloseWait h org i r).
Proof. unfold tryCloseWait, tally_members. solve_handler. Qed.
#[export] Hint Resolve resumes_tryCloseWait : keeps.
Lemma resumes_createWait `{Uuid} h c run i rec : keeps resumes (createWait h c run i rec).
Proof. unfold createWait. solve_handler. Qed.
Lemma resumes_resolveChildWaits h child : keeps resumes (resolveChildWaits h child).
Proof. unfold resolveChildWaits. solve_handler. Qed.
Lemma same_abandonParentWaits le `{!CleanLe le} org p : keeps (table_le le) (abandonParentWaits org p).
Proof. unfold abandonParentWaits. solve_handler. Qed.
#[export] Hint Resolve resumes_createWait resumes_resolveChildWaits same_abandonParentWaits : keeps.
Lemma resumes_settle h org i : keeps resumes (settleTerminalRun h org i).
Proof. unfold settleTerminalRun. solve_handler. Qed.
#[export] Hint Resolve resumes_settle : keeps.

(** ** One transition inside a transaction *)

(** [d1] is reached without changing the state of [X], which is then set to
    [st], after which nothing but resumptions of other runs happens. *)
Lemma transition_step (X : RunID) st d d1 r1 r2 d3 :
  resumes d d1 →
  (∀ r, db_runs d !! X = Some r → same_row r r1 ∧ run_edge (ar_state r) st) →
  db_runs d1 !! X = Some r1 → is_Some (db_runs d !! X) →
  ar_state r2 = st → ar_id r2 = ar_id r1 → (clean r1 → clean r2) →
  resumes (with_runs (<[X := r2]> (db_runs d1)) d1) d3 →
  (Terminal st = true ∨ same_states (with_runs (<[X := r2]> (db_runs d1)) d1) d3) →
  runs_step d d3.
Proof.
  intros H1 Hedge Hr1 [r0 Hr0] <- Hid Hcl H3 Hfin Hk Hclean.
  destruct (H1 Hk) as (Hk1 & Hle1 & Hnew1). destruct (Hedge r0 Hr0) as ((Hs & Hc & _) & He).
  assert (keyed (with_runs (<[X := r2]> (db_runs d1)) d1)) as Hk2.
  { intros i q. simpl. rewrite lookup_insert. case_decide; [|apply Hk1]. intros [= <-]. subst.
    rewrite Hid. by apply Hk1. }
  destruct (H3 Hk2) as (Hk3 & Hle3 & Hnew3).
  assert (all_clean d1) as Hclean1.
  { intros i r Hr. destruct (db_runs d !! i) as [q|] eqn:Hq; [|by eapply Hnew1].
    destruct (Hle1 i q Hq) as (? & ? & Hle). simplify_eq. eapply clean_le; [done|]. by eapply Hclean. }
  assert (all_clean (with_runs (<[X := r2]> (db_runs d1)) d1)) as Hclean2.
  { intros i q. simpl. rewrite lookup_insert. case_decide; [|by apply Hclean1]. intros [= <-].
    by eapply Hcl, Hclean1. }
  split_and!; [done| |].
  - intros i r Hr.
    destruct (db_runs (with_runs (<[X := r2]> (db_runs d1)) d1) !! i) as [q|] eqn:Hq; [|by eapply Hnew3].
    destruct (Hle3 i q Hq) as (? & ? & Hle). simplify_eq. eapply clean_le; [done|]. by eapply Hclean2.
  - intros i r Hr. destruct (decide (i = X)) as [->|Hne].
    + destruct (Hle3 X r2) as (r3 & Hr3 & [[E|[Ht E]] _]); [simpl; apply lookup_insert_eq| |];
        exists r3; (split; [done|]); simplify_eq; rewrite E; [done|].
      destruct Hfin as [Hfin|Hfin]; [congruence|].
      destruct (Hfin Hk2) as (_ & Hss & _). destruct (Hss X r2) as (r3' & Hr3' & [Es _]);
        [simpl; apply lookup_insert_eq|]. simplify_eq. rewrite <-E, Es. done.
    + destruct (Hle1 i r Hr) as (q & Hq & [Hq1 _]).
      destruct (Hle3 i q) as (q' & Hq' & [Hq2 _]); [simpl; by rewrite lookup_insert_ne|].
      exists q'. split; [done|]. destruct Hq2 as [E2|[T2 E2]], Hq1 as [E1|[T1 E1]]; rewrite E2.
      * rewrite E1. constructor.
      * rewrite E1. by constructor.
      * rewrite E1 in T2. by constructor.
      * by constructor.
Qed.

Lemma resumes_step d d' : resumes d d' → runs_step d d'.
Proof.
  intros H Hk Hc. destruct (H Hk) as (Hk' & Hle & Hnew). split_and!; [done| |].
  - intros i r' Hr'. destruct (db_runs d !! i) as [r|] eqn:Hr; [|by eapply Hnew].
    destruct (Hle i r Hr) as (? & ? & Hrow). simplify_eq. eapply clean_le; [done|]. by eapply Hc.
  - intros i r Hr. destruct (Hle i r Hr) as (r' & ? & [[E|[T E]] _]); exists r'; (split; [done|]);
      rewrite E; by constructor.
Qed.

Lemma runs_step_refl d : runs_step d d.
Proof. apply resumes_step. reflexivity. Qed.

(** What has to be shown of a transaction body: errors roll back. *)
Definition on_commit {A} (d : DB) (r : result A) (d' : DB) : Prop :=
  match r with Ok _ => runs_step d d' | Err _ => True end.
Definition on_commit_stale {A} (d : DB) (r : result A) (d' : DB) : Prop :=
  match r with Ok _ | Err ErrCancelledCommit => runs_step d d' | Err _ => True end.

Lemma on_commit_stale_refl {A} d (r : result A) : on_commit_stale d r d.
Proof. destruct r as [|[]]; try done; apply runs_step_refl. Qed.

Lemma atomically_step {A} (m : M DB A) d : wp m (on_commit d) d → runs_step d (atomically m d).1.
Proof.
  unfold wp, on_commit, atomically. destruct (m d) as [d' [a|e]]; simpl; [done|]. intros _. apply runs_step_refl.
Qed.

Lemma txStale_step {A} (fn : handle → M DB A) d :
  wp (fn TxBound) (on_commit_stale d) d → runs_step d (txStale fn d).1.
Proof.
  unfold txStale. simpl. unfold wp, on_commit_stale, atomically, attempt, mbind, M_bind.
  destruct (fn TxBound d) as [d' [a|e]]; simpl; [done|].
  destruct e; simpl; intros; first [done|apply runs_step_refl].
Qed.

(** Setting the state of a row found at the start of a transaction. *)
Lemma set_state_step X t st reason msg d r d3 :
  run_of d t X = Some r → run_edge (ar_state r) st → st ≠ RunCompleted →
  (let d2 := with_runs (<[X := upd_state st reason msg (db_now d) r]> (db_runs d)) d in
   resumes d2 d3 ∧ (Terminal st = true ∨ same_states d2 d3)) →
  runs_step d d3.
Proof.
  intros [Hr _]%run_of_Some He Hst [H3 Hfin].
  apply (transition_step X st d d r (upd_state st reason msg (db_now d) r) d3);
    [reflexivity| |done|done|done|done| |done|done].
  - intros ??. by simplify_eq.
  - intros _. by unfold clean.
Qed.

Lemma wp_markCancelled {A} txs job d :
  (∀ r, run_of d (sj_tenant job) (sj_run job) = Some r → run_edge (ar_state r) RunCancelled) →
  wp (markCancelledTx (A:=A) txs job) (on_commit_stale d) d.
Proof.
  intros Hedge. unfold markCancelledTx. apply wp_bind, wp_run_exec; [intros r Hr|done].
  eapply (wp_keeps resumes); [solve_handler|]. intros res d3 H3.
  assert (runs_step d d3) as Hs.
  { eapply (set_state_step (sj_run job)); [exact Hr|by apply Hedge|done|]. split; [exact H3|by left]. }
  destruct res as [?|[]]; done.
Qed.

Lemma failRun_step job reason msg d : keyed d → runs_step d (failRun job reason msg d).1.
Proof.
  intros Hk. apply (atomically_step _ d). apply wp_bind, wp_attempt, wp_RunGetForUpdate;
    [intros run Hr|intros _; apply runs_step_refl].
  destruct (Terminal (ar_state run)) eqn:Ht; [apply runs_step_refl|].
  rewrite (run_of_keyed _ _ _ _ Hk Hr).
  apply wp_bind, wp_run_exec; [intros r Hr'|done]. simplify_eq.
  eapply (wp_keeps resumes); [solve_handler|]. intros [?|?] d3 H3; [|done]. simpl.
  eapply (set_state_step (sj_run job) _ RunFailed); [exact Hr|by constructor|done|]. split; [exact H3|by left].
Qed.

Lemma handleStreamError_step red job cancelled interrupted e d :
  keyed d → all_clean d →
  (cancelled = true → ∃ r t, run_of d (sj_tenant job) (sj_run job) = Some r ∧ ar_cancel_requested_at r = Some t) →
  runs_step d (handleStreamError red job cancelled interrupted e d).1.
Proof.
  intros Hk Hc Hcancel. unfold handleStreamError. destruct cancelled.
  - assert (runs_step d (txStale (A:=unit) (λ txs, markCancelledTx txs job) d).1) as Hs.
    { apply txStale_step, wp_markCancelled. destruct Hcancel as (r & t & Hr & Ht); [done|].
      intros r' Hr'. simplify_eq. apply run_of_Some in Hr as [Hr _].
      destruct (ar_state r) eqn:E; try (by constructor). by rewrite (Hc _ _ Hr E) in Ht. }
    unfold mbind, M_bind, attempt. destruct (txStale _ d) as [d' [?|[]]]; done.
  - destruct interrupted; [apply runs_step_refl|]. destruct (ClassifyProviderError _ _). by apply failRun_step.
Qed.

Lemma claim_step job d : keyed d → runs_step d (claim job d).1.
Proof.
  intros Hk. unfold claim.
  match goal with |- context [attempt (txStale ?f)] => set (fn := f) end.
  assert (runs_step d (txStale fn d).1) as Hs.
  { apply txStale_step. unfold fn. apply wp_bind, wp_RunGetForUpdate; [intros run Hr|done].
    rewrite (run_of_keyed _ _ _ _ Hk Hr).
    destruct (_ && _) eqn:Hst; [done|].
    assert (Terminal (ar_state run) = false) as Ht.
    { apply andb_false_iff in Hst as [H|H]; apply negb_false_iff, bool_decide_eq_true in H; by rewrite H. }
    clear Hst. case_bool_decide; [apply wp_markCancelled; intros r Hr'; simplify_eq; by constructor|].
    apply wp_bind. eapply (wp_keeps eq); [apply (keeps_Steps eq)|].
    intros [steps|?] ? <-; [|apply on_commit_stale_refl].
    destruct (existsb _ _); [done|]. apply wp_bind, wp_gets. case_bool_decide.
    - apply wp_bind, wp_run_exec; [intros r Hr'|done]. simplify_eq. apply wp_ret. simpl.
      eapply (set_state_step (sj_run job) _ RunRunning); [exact Hr|by constructor|done|].
      split; [reflexivity|right; reflexivity].
    - apply wp_bind, wp_ret, wp_ret. apply runs_step_refl. }
  unfold mbind, M_bind, attempt. destruct (txStale fn d) as [d' [?|[]]]; done.
Qed.

(** ** Committing a step *)

Lemma resumes_running d d1 X r r1 :
  keyed d → resumes d d1 → db_runs d !! X = Some r → ar_state r = RunRunning →
  db_runs d1 !! X = Some r1 → same_row r r1.
Proof.
  intros Hk H Hr Hst Hr1. destruct (H Hk) as (_ & Hle & _). destruct (Hle X r Hr) as (q & Hq & (Hs & Hc & Hi)).
  simplify_eq. split_and!; [|done|done]. destruct Hs as [->|[_ ->]]; congruence.
Qed.

(** The running run of a commit is moved to [st]. *)
Lemma set_state_from X t st reason msg d d1 r r1 d3 :
  keyed d → resumes d d1 → db_runs d !! X = Some r → ar_state r = RunRunning →
  ar_cancel_requested_at r = None → run_of d1 t X = Some r1 → run_edge RunRunning st →
  (let d2 := with_runs (<[X := upd_state st reason msg (db_now d1) r1]> (db_runs d1)) d1 in
   resumes d2 d3 ∧ (Terminal st = true ∨ same_states d2 d3)) →
  runs_step d d3.
Proof.
  intros Hk H1 Hr Hst Hc [Hr1 _]%run_of_Some He [H3 Hfin].
  pose proof (resumes_running _ _ _ _ _ Hk H1 Hr Hst Hr1) as Hsame.
  apply (transition_step X st d d1 r1 (upd_state st reason msg (db_now d1) r1) d3);
    [done| |done|done|done|done| |done|done].
  - intros q Hq. simplify_eq. split; [done|]. by rewrite Hst.
  - intros _ _. simpl. destruct Hsame as (_ & -> & _). done.
Qed.

Lemma same_appendTx le `{!CleanLe le} txs job k p : keeps (table_le le) (appendTx txs job k p).
Proof. unfold appendTx. solve_handler. Qed.
#[export] Hint Resolve same_appendTx : keeps.

Section commit.
Context `{Uuid} `{Fantasy}.

Lemma classify_step clock run job step content rec d d1 r :
  keyed d → same_states d d1 → db_runs d !! sj_run job = Some r → ar_state r = RunRunning →
  ar_cancel_requested_at r = None →
  wp (classify_outcome TxBound clock run job step content rec) (on_commit_stale d) d1.
Proof.
  intros Hk Hs Hr Hst Hc. pose proof (same_resumes _ _ Hs) as Hs'.
  assert (∀ A (res : result A) d', resumes d d' → on_commit_stale d res d') as Hfin.
  { intros A [|[]] d' Hd'; try done; by apply resumes_step. }
  unfold classify_outcome. case_bool_decide.
  - apply wp_bind. eapply (wp_keeps resumes); [eauto with keeps typeclass_instances|].
    intros [park|e] d2 H2; [|apply Hfin; by etrans].
    destruct park; [|apply wp_ret; apply (Hfin _ (Ok ())); by etrans]. cbn [negb].
    apply wp_bind, wp_run_exec; [intros r1 Hr1|done].
    eapply (wp_keeps same_states); [eauto with keeps typeclass_instances|]. intros res d3 H3.
    assert (runs_step d d3) as Hgo.
    { eapply (set_state_from (sj_run job) _ RunAwaiting); [done| |exact Hr|done|done|exact Hr1|constructor|].
      - by etrans.
      - split; [by apply same_resumes|right; exact H3]. }
    destruct res as [|[]]; done.
  - destruct (question rec).
    + apply wp_bind, wp_run_exec; [intros r1 Hr1|done].
      eapply (wp_keeps same_states); [eauto with keeps typeclass_instances|]. intros res d3 H3.
      assert (runs_step d d3) as Hgo.
      { eapply (set_state_from (sj_run job) _ RunAwaiting); [done|done|exact Hr|done|done|exact Hr1|constructor|].
        split; [by apply same_resumes|right; exact H3]. }
      destruct res as [|[]]; done.
    + case_bool_decide.
      * eapply (wp_keeps resumes); [eauto with keeps typeclass_instances|]. intros res d3 H3. apply Hfin. by etrans.
      * apply wp_bind, wp_run_exec; [intros r1 Hr1|done].
        eapply (wp_keeps resumes); [solve_handler|]. intros res d3 H3.
        assert (runs_step d d3) as Hgo.
        { eapply (set_state_from (sj_run job) _ RunCompleted); [done|done|exact Hr|done|done|exact Hr1|constructor|].
          split; [exact H3|by left]. }
        destruct res as [|[]]; done.
Qed.

Lemma commit_tx_step clock job att encoded step content rec d :
  keyed d → wp (commit_tx clock job att encoded step content rec TxBound) (on_commit_stale d) d.
Proof.
  intros Hk. unfold commit_tx. apply wp_bind, wp_RunGetForUpdate; [intros run Hr|done].
  case_bool_decide as Hst; [|done]. cbn [negb]. case_bool_decide as Hcan.
  { apply wp_markCancelled. intros r Hr'. simplify_eq. rewrite Hst. by constructor. }
  apply eq_None_not_Some in Hcan. apply run_of_Some in Hr as [Hr _].
  assert (∀ A (res : result A) d', same_states d d' → on_commit_stale d res d') as Hfin.
  { intros A [|[]] d' Hd'; try done; by apply resumes_step, same_resumes. }
  apply wp_bind. eapply (wp_keeps same_states); [eauto with keeps typeclass_instances|].
  intros [[]|e] d1 H1; [|by apply Hfin].
  apply wp_bind, wp_attempt. eapply (wp_keeps same_states); [eauto with keeps typeclass_instances|].
  intros res d2 H2. assert (same_states d d2) as H02 by (by etrans).
  destruct res as [[]|e]; [|by destruct e; apply Hfin].
  apply wp_bind. eapply (wp_keeps same_states); [unfold AccountStepCost; solve_handler|].
  intros [[]|e] d3 H3; [|apply Hfin; by etrans].
  apply wp_bind. eapply (wp_keeps same_states); [eauto with keeps typeclass_instances|].
  intros [[]|e] d4 H4; [|apply Hfin; etrans; [done|]; by etrans].
  eapply classify_step; [done| |exact Hr|done|done]. etrans; [done|]. by etrans.
Qed.

Lemma commitOutcome_step clock job att env res rec d :
  keyed d → runs_step d (commitOutcome clock job att env res rec d).1.
Proof.
  intros Hk. unfold commitOutcome. destruct (arSteps res) as [|step ?]; [by apply failRun_step|].
  match goal with |- context [attempt (txStale ?f)] => set (fn := f) end.
  assert (runs_step d (txStale fn d).1) as Hs by (apply txStale_step, commit_tx_step; done).
  unfold mbind, M_bind, attempt. destruct (txStale fn d) as [d' [?|[]]]; done.
Qed.
End commit.

(** ** The run API *)

Lemma stored_step {A} f (m : M DB A) d : runs_step d (m d).1 → runs_step d (stored f m d).1.
Proof. unfold stored, mbind, M_bind, attempt. by destruct (m d) as [d' []]. Qed.

Lemma answer_step run caller msg d : keyed d → runs_step d (atomically (answer_tx run caller msg TxBound) d).1.
Proof.
  intros Hk. apply atomically_step. unfold answer_tx. apply wp_bind, wp_RunGetForUpdate; [intros locked Hl|done].
  destruct (_ && _) eqn:Hst; [done|].
  assert (run_edge (ar_state locked) RunRunning) as He.
  { apply andb_false_iff in Hst as [H|H]; apply negb_false_iff, bool_decide_eq_true in H; rewrite H; by constructor. }
  apply wp_bind, wp_of_result. destruct (AppendUserMessage _ _) as [h|e]; [|done].
  apply run_of_Some in Hl as [Hl Ht].
  apply wp_bind, wp_run_exec; [intros r [Hr _]%run_of_Some|done]. simplify_eq.
  apply wp_bind, wp_run_exec; [intros r [Hr _]%run_of_Some|done]. simpl in Hr. rewrite lookup_insert_eq in Hr.
  simplify_eq. eapply (wp_keeps same_states); [solve_handler|]. intros [|] d3 H3; [|done]. simpl in *.
  rewrite insert_insert_eq in H3. eapply (transition_step (ar_id run) RunRunning d d locked);
    [reflexivity| |done|done| | | |apply same_resumes; exact H3|right; exact H3]; try done.
  - intros q Hq. by simplify_eq.
Qed.

(** An awaiting run that is cancelled on the spot. *)
Lemma cancel_awaiting reason msg run locked d : run_of d (ar_tenant run) (ar_id run) = Some locked →
  ar_state locked = RunAwaiting → keyed d →
  wp (_ ← RequestCancel (ar_tenant run) (ar_id run);
      _ ← SetState (ar_tenant run) (ar_id run) RunCancelled reason msg;
      _ ← AbandonWaits (ar_tenant run) (ar_id run);
      _ ← Append TxBound (ar_tenant run) (ar_session run)
            (NewEvent ActorSystem EventKindRunCancelled (RunCancelledPayload (ar_id run)));
      mret ()) (λ r d', match r with Ok _ => runs_step d d' | Err _ => True end) d.
Proof.
  intros Hl Hst Hk. apply run_of_Some in Hl as [Hl Htn].
  apply wp_bind, wp_run_exec; [intros r [Hr _]%run_of_Some|done]. simplify_eq.
  apply wp_bind, wp_run_exec; [intros r [Hr _]%run_of_Some|done]. simpl in Hr. rewrite lookup_insert_eq in Hr.
  simplify_eq. eapply (wp_keeps same_states); [unfold AbandonWaits; solve_handler|]. intros [|] d3 H3; [|done].
  simpl in *. rewrite insert_insert_eq in H3. eapply (transition_step (ar_id run) RunCancelled d d locked);
    [reflexivity| |done|done| | | |apply same_resumes; exact H3|right; exact H3]; try done.
  intros q Hq. simplify_eq. split; [done|]. rewrite Hst. by constructor.
Qed.

Lemma cancel_step run d : keyed d → runs_step d (atomically (cancel_tx run TxBound) d).1.
Proof.
  intros Hk. apply atomically_step. unfold cancel_tx. apply wp_bind, wp_RunGetForUpdate; [intros locked Hl|done].
  destruct (Terminal (ar_state locked)) eqn:Ht; [done|]. case_bool_decide as Hst; [by apply cancel_awaiting with locked|].
  apply run_of_Some in Hl as [Hl Htn].
  apply wp_bind, wp_run_exec; [intros r [Hr _]%run_of_Some|done]. simplify_eq.
  apply wp_ret. simpl. eapply (transition_step (ar_id run) (ar_state locked) d d locked);
    [reflexivity| |done|done| | | |reflexivity|right; reflexivity]; try done.
  - intros q Hq. simplify_eq. split; [done|constructor].
  - intros _ Hcomp. simpl in Hcomp. by rewrite Hcomp in Ht.
Qed.

(** The operator's transactions write what the user's do. *)
Lemma operator_cancel_same run d : (atomically (operator_cancel_tx run TxBound) d).1 = (atomically (cancel_tx run TxBound) d).1.
Proof.
  unfold atomically, operator_cancel_tx, cancel_tx, mbind, M_bind.
  destruct (RunGetForUpdate _ _ d) as [d' [locked|e]] eqn:E; [|done].
  assert (d' = d) as ->.
  { unfold RunGetForUpdate in E. revert E. run_method; by intros [= -> _]. }
  by destruct (Terminal (ar_state locked)).
Qed.

Lemma operator_answer_same run actor msg d :
  (atomically (operator_answer_tx run actor msg TxBound) d).1 = (atomically (answer_tx run actor msg TxBound) d).1.
Proof.
  unfold atomically, operator_answer_tx, answer_tx, mbind, M_bind.
  destruct (RunGetForUpdate _ _ d) as [d' [locked|e]]; [|done]. destruct (_ && _); [done|].
  repeat case_match; simplify_eq/=; try done. by match goal with E : mret _ _ = _ |- _ => injection E end.
Qed.

Lemma operator_expire_step run d : keyed d → runs_step d (atomically (operator_expire_tx run TxBound) d).1.
Proof.
  intros Hk. apply atomically_step. unfold operator_expire_tx. apply wp_bind, wp_RunGetForUpdate; [intros locked Hl|done].
  case_bool_decide as Hst; [|done]. cbn [negb]. by apply cancel_awaiting with locked.
Qed.
