(* ===== verification/System.v ===== *)
(** * The system: interleaved transactions

    Every process works on the database through transactions: workers claim,
    spawn, commit and fail, the sweeper claims and closes waits, the API starts,
    answers and cancels runs, resource jobs move resources.  [op] is one such
    transaction with all its inputs, and a history of the system is any
    sequence of them ([sys_step]): which worker runs when, what models and tools
    return, what is delivered twice or never, is all in the choice of the next
    [op].  A whole [Work] is such a sequence ([Work_is_steps]), so what holds
    of every history holds under every interleaving of workers.

    Two transactions rest on something their process saw earlier, and that is
    their guard ([allowed]): a spawn uses the row its worker claimed, and the
    cancellation of a stream follows a poll that saw the request. *)
From S2P Require Import Prelude Policy Domain Text Store StoreRuns EventLog Loop Waits Batcher Tools Step Api.
From S2P Require Import ResourceStore OperatorTx ResourceWork Frames Invariants RunStates.

Section system.
Context `{Uuid} `{Durations} `{Fantasy} {W : Type} (sv : Service W).

(** ** Transactions *)

Inductive op :=
  (* the clock *)
  | OpTick (t : time)
  (* the step worker *)
  | OpClaim (job : StepJob_)
  | OpAppend (tenant : TenantID) (session : SessionID) (e : Event)
  | OpCompact (tenant : TenantID) (run : RunID) (env : Envelope)
  | OpSpawn (fresh : RunID) (run : AgentRun) (job : StepJob_) (req : spawnRequest)
  | OpMemorySet (run : AgentRun) (key : string) (value : option string)
  | OpMemoryDelete (run : AgentRun) (key : string)
  | OpCommit (clock : time) (job : StepJob_) (attempt_ : Z) (env : Envelope) (result : AgentResult) (rec : stepRecorder)
  | OpFail (job : StepJob_) (reason message : string)
  | OpCancelStream (job : StepJob_)
  (* the wait sweeper *)
  | OpClaimDue (org : TenantID) (clock : time) (limit : Z)
  | OpTimeout (org : TenantID) (wait : string)
  | OpRearm (s : WaitSweeper) (clock : time) (org : TenantID)
  (* the API *)
  | OpCreateSession (who : option authContext) (fresh : SessionID) (tenant : TenantID) (title : string)
      (labels : gmap string string)
  | OpUpdateLabels (who : option authContext) (session : SessionID) (labels : gmap string string)
  | OpArchive (who : option authContext) (session : SessionID)
  | OpAppendEvent (who : option authContext) (session : SessionID) (kind : string) (p : payload)
  | OpSetMemory (valid : string → bool) (who : option authContext) (session : SessionID) (key value : string)
  | OpDeleteMemory (who : option authContext) (session : SessionID) (key : string)
  | OpStartRun (who : option authContext) (fresh : RunID) (model : ModelConfig) (session : SessionID)
      (prompt : string) (req : option (string * string * string)) (policy : option RunPolicy)
  | OpAnswerRun (who : option authContext) (run : RunID) (message : string)
  | OpCancelRun (who : option authContext) (run : RunID)
  (* the operator's commands *)
  | OpOperatorCancel (run : AgentRun)
  | OpOperatorAnswer (run : AgentRun) (operator : Actor) (message : string)
  | OpOperatorExpire (run : AgentRun)
  (* resources *)
  | OpResource (o : res_op).

Definition run_op (o : op) (d : DB) : DB :=
  match o with
  | OpTick t => with_now t d
  | OpClaim job => (claim job d).1
  | OpAppend tenant session e => (Append Pool tenant session e d).1
  | OpCompact tenant run env => (SetHistory tenant run (Encode env) d).1
  | OpSpawn fresh run job req => (spawnChild fresh run job req d).1
  | OpMemorySet run key value => (memory_set run key value d).1
  | OpMemoryDelete run key => (memory_delete run key d).1
  | OpCommit clock job attempt_ env result rec => (commitOutcome clock job attempt_ env result rec d).1
  | OpFail job reason message => (failRun job reason message d).1
  | OpCancelStream job => (txStale (A:=unit) (λ txs, markCancelledTx txs job) d).1
  | OpClaimDue org clock limit => (ClaimDue org clock limit d).1
  | OpTimeout org wait => (Tx Pool (λ txs, tryCloseWait txs org wait closeReasonTimeout) d).1
  | OpRearm s clock org => (rearm s clock org d).1
  | OpCreateSession who fresh tenant title labels => (CreateSession who fresh tenant title labels d).1
  | OpUpdateLabels who session labels => (UpdateSessionLabels who session labels d).1
  | OpArchive who session => (ArchiveSession who session d).1
  | OpAppendEvent who session kind p => (AppendEvent who session kind p d).1
  | OpSetMemory valid who session key value => (SetMemory valid who session key value d).1
  | OpDeleteMemory who session key => (DeleteMemory who session key d).1
  | OpStartRun who fresh model session prompt req policy =>
      (StartRun who fresh model session prompt req policy d).1
  | OpAnswerRun who run message => (AnswerRun who run message d).1
  | OpCancelRun who run => (CancelRun who run d).1
  | OpOperatorCancel run => (Tx Pool (operator_cancel_tx run) d).1
  | OpOperatorAnswer run operator message => (Tx Pool (operator_answer_tx run operator message) d).1
  | OpOperatorExpire run => (Tx Pool (operator_expire_tx run) d).1
  | OpResource o => (run_res_op sv o d).1
  end.

(** The row a worker claimed, as it may have changed since. *)
Definition snapshot (d : DB) (run : AgentRun) : Prop :=
  ∃ r, db_runs d !! ar_id run = Some r ∧ run_le run r.

(** The cancellation of the job's run was requested. *)
Definition cancel_seen (d : DB) (job : StepJob_) : Prop :=
  ∃ r t, run_of d (sj_tenant job) (sj_run job) = Some r ∧ ar_cancel_requested_at r = Some t.

Definition allowed (d : DB) (o : op) : Prop :=
  match o with
  | OpTick t => (db_now d ≤ t)%Z
  | OpSpawn _ run _ _ => snapshot d run
  | OpCancelStream job => cancel_seen d job
  | _ => True
  end.

Definition sys_step (d d' : DB) : Prop := ∃ o, allowed d o ∧ d' = run_op o d.

Definition reachable (d : DB) : Prop := rtc sys_step empty_db d.

(** ** Every transaction keeps every store relation *)

Lemma keeps_stored {A} (R : relation DB) `{!PreOrder R} f (m : M DB A) : keeps R m → keeps R (stored f m).
Proof. intros Hm. unfold stored. solve_handler. Qed.

Lemma keeps_resolveSessionTenant (R : relation DB) `{!PreOrder R} who session :
  keeps R (resolveSessionTenant who session).
Proof.
  unfold resolveSessionTenant, identityFrom. apply keeps_bind; [done|solve_handler|intros a].
  apply keeps_bind; [done|apply keeps_stored; solve_handler|intros; solve_handler].
Qed.
Lemma keeps_resolveRun (R : relation DB) `{!PreOrder R} who id : keeps R (resolveRun who id).
Proof.
  unfold resolveRun, identityFrom. apply keeps_bind; [done|solve_handler|intros a].
  apply keeps_stored; solve_handler.
Qed.
Lemma keeps_requireTenant (R : relation DB) `{!PreOrder R} who t : keeps R (requireTenant who t).
Proof. unfold requireTenant, identityFrom. solve_handler. Qed.
Hint Resolve keeps_resolveSessionTenant keeps_resolveRun keeps_requireTenant : keeps.

Ltac api_step :=
  match goal with
  | |- keeps _ (stored _ _) => apply keeps_stored; [try apply _|]
  | _ => handler_step
  end.
Ltac solve_api := repeat first [ solve [eauto 5 with keeps typeclass_instances] | api_step; try apply _ ].

(** The part of [StorePrim] the resource service needs: it writes resources,
    registrations, events and jobs. *)
Class ResPrim (R : relation DB) : Prop := {
  res_preorder :: PreOrder R;
  res_Append h t s e : keeps R (Append h t s e);
  res_jobs h j t : keeps R (EnqueueInTx h j t);
  res_resources x d : R d (with_resources x d);
  res_providers x d : R d (with_providers x d);
}.
#[local] Instance store_res_prim (R : relation DB) `{!StorePrim R} : ResPrim R.
Proof.
  constructor; [apply _|apply prim_Append|intros; apply (keeps_EnqueueInTx R)|apply prim_resources|apply prim_providers].
Qed.
#[local] Instance table_res_prim le `{!CleanLe le} : ResPrim (table_le le).
Proof.
  constructor; [apply _|intros; by apply table_Append|intros; by apply table_EnqueueInTx|..];
    intros; by apply table_le_frame.
Qed.

Lemma keeps_resource_update (R : relation DB) `{!ResPrim R} t i f : keeps R (resource_update t i f).
Proof. intros d. unfold resource_update. run_method; [apply res_resources|reflexivity]. Qed.
Lemma keeps_SetSuspended (R : relation DB) `{!ResPrim R} t i m : keeps R (SetSuspended t i m).
Proof. intros d. unfold SetSuspended. run_method; [apply res_resources|reflexivity..]. Qed.
Lemma keeps_ResourceCreate (R : relation DB) `{!ResPrim R} t r : keeps R (ResourceCreate t r).
Proof. intros d. unfold ResourceCreate. run_method; try reflexivity; apply res_resources. Qed.
Lemma keeps_MarkHealthy (R : relation DB) `{!ResPrim R} t i : keeps R (MarkHealthy t i).
Proof. intros d. unfold MarkHealthy. run_method; [apply res_providers|reflexivity]. Qed.
Lemma keeps_ProviderCreate (R : relation DB) `{!ResPrim R} t p : keeps R (ProviderCreate t p).
Proof. intros d. unfold ProviderCreate. run_method; [reflexivity|apply res_providers]. Qed.
Lemma keeps_ProviderDelete (R : relation DB) `{!ResPrim R} t i : keeps R (ProviderDelete t i).
Proof. intros d. unfold ProviderDelete. run_method; try reflexivity; apply res_providers. Qed.
Lemma keeps_ResourceGetForUpdate (R : relation DB) `{!PreOrder R} t i : keeps R (ResourceGetForUpdate t i).
Proof. unfold ResourceGetForUpdate. solve_handler. Qed.
Lemma keeps_ProviderGetByName (R : relation DB) `{!PreOrder R} t i : keeps R (ProviderGetByName t i).
Proof. unfold ProviderGetByName. solve_handler. Qed.
Hint Resolve keeps_ProviderCreate keeps_ProviderDelete res_Append res_jobs keeps_resource_update keeps_SetSuspended keeps_ResourceCreate keeps_MarkHealthy
  keeps_ResourceGetForUpdate keeps_ProviderGetByName : keeps.

Lemma keeps_res_op (R : relation DB) `{!ResPrim R} o : keeps R (run_res_op sv o).
Proof.
  destruct o; cbn [run_res_op];
    unfold recoverProvisioning, Request, RequestTerminate, RequestRestart, provision_commit, restart_commit, fail,
      terminate_commit, suspend, resume_commit, healthy_commit, rearmReconcile, SetTerminating,
      SetProvisioning, SetHandle, SetReady, SetFailed, SetTerminated, RotateToken, resource_event,
      enqueueResourceJob, operator_restart, operator_terminate, operator_suspend, operator_healthy;
    solve_handler.
Qed.
Hint Resolve keeps_res_op : keeps.

Definition is_resource_op (o : op) : bool := match o with OpResource _ => true | _ => false end.

Lemma core_op_keeps (R : relation DB) `{!StoreCore R} o d : is_resource_op o = false → R d (run_op o d).
Proof.
  intros Ho. destruct o; cbn [run_op]; try done; try (by apply prim_now); revert d;
    match goal with |- ∀ d, R d (?m d).1 => change (keeps R m) end;
    try solve [eauto with keeps typeclass_instances].
  all: unfold memory_set, memory_delete, appendMemoryEvent, rearm, CreateSession, UpdateSessionLabels,
    ArchiveSession, AppendEvent, SetMemory, DeleteMemory, appendTransition, StartRun, AnswerRun, answer_tx, CancelRun,
    cancel_tx, operator_cancel_tx, operator_answer_tx, operator_expire_tx, AbandonWaits;
    try (apply keeps_txStale; [apply _|intros]); solve_api.
Qed.

Lemma op_keeps (R : relation DB) `{!StorePrim R} o d : R d (run_op o d).
Proof.
  destruct (is_resource_op o) eqn:Ho; [|by apply (core_op_keeps R)].
  destruct o; try discriminate Ho. apply (keeps_res_op R).
Qed.

Lemma sys_step_keeps (R : relation DB) `{!StorePrim R} d d' : sys_step d d' → R d d'.
Proof. intros (o & _ & ->). by apply op_keeps. Qed.

Lemma history_keeps (R : relation DB) `{!StorePrim R} d d' : rtc sys_step d d' → R d d'.
Proof. induction 1 as [|d1 d2 d3 H12 _ IH]; [reflexivity|]. etrans; [by apply sys_step_keeps|done]. Qed.

(** ** Every transaction moves every run along the state machine *)

Lemma same_memory_delete le `{!CleanLe le} t s k : keeps (table_le le) (MemoryDelete t s k).
Proof. ignored. Qed.
Lemma same_SessionCreate le `{!CleanLe le} t s : keeps (table_le le) (SessionCreate t s).
Proof. ignored. Qed.
Lemma same_UpdateLabels le `{!CleanLe le} t s l : keeps (table_le le) (UpdateLabels t s l).
Proof. ignored. Qed.
Lemma same_Archive le `{!CleanLe le} t s : keeps (table_le le) (Archive t s).
Proof. ignored. Qed.
Hint Resolve same_memory_delete same_SessionCreate same_UpdateLabels same_Archive : keeps.

(** A handler that resolves a run first. *)
Lemma after_resolve {A} who id (f : AgentRun → M DB A) d :
  (∀ r, runs_step d (f r d).1) → runs_step d ((r ← resolveRun who id; f r) d).1.
Proof.
  intros Hf. pose proof (keeps_resolveRun eq who id d) as Heq. unfold mbind, M_bind.
  destruct (resolveRun who id d) as [d' [r|e]]; simpl in Heq; subst; [apply Hf|apply runs_step_refl].
Qed.

Lemma op_runs_step o d : keyed d → all_clean d → allowed d o → runs_step d (run_op o d).
Proof.
  intros Hk Hc Ha. destruct o; cbn [run_op] in *;
    try (by auto using claim_step, commitOutcome_step, failRun_step).
  all: try (apply resumes_step; by apply (table_le_frame resume_row)).
  all: try (apply resumes_step; revert d Hk Hc Ha; intros d _ _ _; revert d;
    match goal with |- ∀ d, resumes d (?m d).1 => change (keeps resumes m) end;
    unfold spawnChild, spawn_tx, memory_set, memory_delete, appendMemoryEvent, rearm, CreateSession,
      UpdateSessionLabels, ArchiveSession, AppendEvent, SetMemory, DeleteMemory, appendTransition, StartRun; solve [solve_api]).
  - apply txStale_step, wp_markCancelled. destruct Ha as (r & t & Hr & Ht). intros r' Hr'. simplify_eq.
    apply run_of_Some in Hr as [Hr _]. destruct (ar_state r) eqn:E; try (by constructor).
    by rewrite (Hc _ _ Hr E) in Ht.
  - apply after_resolve. intros r. case_bool_decide; [apply runs_step_refl|].
    apply stored_step. by apply answer_step.
  - apply after_resolve. intros r. apply stored_step. by apply cancel_step.
  - cbn [Tx]. rewrite operator_cancel_same. by apply cancel_step.
  - cbn [Tx]. rewrite operator_answer_same. by apply answer_step.
  - by apply operator_expire_step.
Qed.

Lemma sys_runs_step d d' : sys_step d d' → runs_step d d'.
Proof. intros (o & Ha & ->) Hk Hc. by apply op_runs_step. Qed.

(** What holds of every reachable database. *)
Lemma reachable_wf d : reachable d →
  gapless d ∧ runs_wf d ∧ waits_wf d ∧ memory_wf d ∧ tenant_wf d ∧ keyed d ∧ all_clean d ∧
  NoDup (step_key <$> db_steps d).
Proof.
  intros Hr. unfold reachable in Hr.
  assert (runs_wf empty_db) as Hruns0 by (split_and!; intros; done).
  assert (runs_wf d) as Hruns by (by apply (history_keeps runs_evolve _ _ Hr)).
  refine (conj _ (conj _ (conj _ (conj _ (conj _ (conj _ (conj _ _))))))).
  - by apply (history_keeps (inv gapless) _ _ Hr), empty_gapless.
  - done.
  - apply (history_keeps waits_evolve _ _ Hr). split; [by intros ???|by intros ?????].
  - apply (history_keeps (inv memory_wf) _ _ Hr). split; [by intros ???|]. intros ?. by vm_compute.
  - by apply (history_keeps (inv tenant_wf) _ _ Hr).
  - exact (proj1 Hruns).
  - clear Hruns. revert d Hr. apply rtc_ind_r; [by intros ???|]. intros d1 d2 Hr1 H12 IH.
    destruct (sys_runs_step d1 d2 H12) as (_ & ? & _); [|done..].
    exact (proj1 (proj1 (history_keeps runs_evolve _ _ Hr1 Hruns0))).
  - apply (history_keeps steps_evolve _ _ Hr). constructor.
Qed.

End system.
