(* ===== verification/Spawning.v ===== *)
(** * Spawning: the tree of runs stays within its policies

    [spawnChild] checks the policy and the child count of the parent; nothing
    else creates a run with a parent, and nothing changes a policy or a parent
    afterwards.  So in every history of the system a run has at most
    [MaxChildren] children, and each child is confined by its parent's policy,
    tenant and session. *)
From S2P Require Import Prelude Policy Domain Text Store StoreRuns EventLog Loop Waits Batcher Tools Step Api.
From S2P Require Import ResourceStore OperatorTx ResourceWork Frames Invariants RunStates System.

Definition spawn_wf (d : DB) : Prop :=
  (∀ p r, db_runs d !! p = Some r →
     (Z.of_nat (length (children_of d (ar_tenant r) p)) ≤ Z.max 0 (MaxChildren (ar_policy r)))%Z) ∧
  (∀ c r p q, db_runs d !! c = Some r → ar_parent r = Some p → db_runs d !! p = Some q →
     narrower (ar_policy r) (ar_policy q) ∧ ar_tenant r = ar_tenant q ∧ ar_session r = ar_session q).

(** ** No run appears *)

Definition no_new : relation DB := λ d d', ∀ i, is_Some (db_runs d' !! i) → is_Some (db_runs d !! i).
#[export] Instance no_new_pre : PreOrder no_new.
Proof. split; [by intros d i|]. intros a b c H1 H2 i Hi. auto. Qed.
#[export] Instance no_new_log : Ignores touches_log no_new.
Proof. by intros d d' (x & y & ->) i. Qed.
#[export] Instance no_new_steps : Ignores touches_steps no_new.
Proof. by intros d d' [x ->] i. Qed.
#[export] Instance no_new_memory : Ignores touches_memory no_new.
Proof. by intros d d' [x ->] i. Qed.
#[export] Instance no_new_waits : Ignores touches_waits no_new.
Proof. by intros d d' (x & y & ->) i. Qed.

Lemma no_new_exec t i f : keeps no_new (run_exec t i f).
Proof.
  intros d. unfold run_exec. run_method; [|reflexivity]. intros j. simpl. rewrite lookup_insert.
  apply run_of_Some in H as [H _]. case_decide; subst; eauto.
Qed.

#[export] Instance no_new_writes : StoreWrites no_new.
Proof. constructor; try apply _; intros; try solve [ignored]; try (by intros i); apply no_new_exec. Qed.

(** ** Counting children *)

Definition is_child (t : TenantID) (p : RunID) (r : AgentRun) : Prop := ar_parent r = Some p ∧ ar_tenant r = t.
#[export] Instance is_child_dec t p r : Decision (is_child t p r).
Proof. unfold is_child. apply _. Defined.

Lemma size_filter {A} (P : A → Prop) `{!∀ x, Decision (P x)} (m : gmap RunID A) :
  size (filter (λ x, P x.2) m) = length (filter P (rows m)).
Proof.
  rewrite <-length_map_to_list, map_filter_alt. unfold rows.
  rewrite map_to_list_to_map.
  - induction (map_to_list m) as [|[k x] l IH]; [done|]. rewrite fmap_cons, !filter_cons. simpl.
    case_decide; simpl; by rewrite IH.
  - eapply sublist_NoDup; [apply (NoDup_fst_map_to_list m)|]. apply fmap_sublist, sublist_filter.
Qed.

Lemma children_count d t p :
  length (children_of d t p) = size (dom (filter (λ x, is_child t p x.2) (db_runs d))).
Proof.
  rewrite size_dom, (size_filter (is_child t p)). unfold children_of, bool_filter.
  f_equal. apply list_filter_iff. intros r. unfold is_child.
  rewrite andb_true_iff, !bool_decide_eq_true. done.
Qed.

Lemma elem_children d t p i :
  i ∈ dom (filter (λ x, is_child t p x.2) (db_runs d)) ↔ ∃ r, db_runs d !! i = Some r ∧ is_child t p r.
Proof. rewrite elem_of_dom. unfold is_Some. setoid_rewrite map_lookup_filter_Some. naive_solver. Qed.

(** The tree does not change when rows keep their identity and none appears. *)
Lemma spawn_wf_frame d d' :
  no_new d d' → rows_le run_le (db_runs d) (db_runs d') → spawn_wf d → spawn_wf d'.
Proof.
  intros Hnew Hle [Hcount Hpol].
  assert (∀ i r', db_runs d' !! i = Some r' → ∃ r, db_runs d !! i = Some r ∧ run_le r r') as Hback.
  { intros i r' Hr'. destruct (Hnew i) as [r Hr]; [eauto|]. destruct (Hle i r Hr) as (r'' & ? & ?). simplify_eq. eauto. }
  split.
  - intros p r' Hr'. destruct (Hback p r' Hr') as (r & Hr & (_&_&Ht&_&_&Hp&_)). rewrite Ht, Hp.
    etrans; [|by apply Hcount]. rewrite !children_count. apply inj_le, subseteq_size.
    intros i. rewrite !elem_children. intros (q' & Hq' & Hc1 & Hc2).
    destruct (Hback i q' Hq') as (q & Hq & (_&_&Ht'&Hpar&_)). exists q. split; [done|]. split; congruence.
  - intros c r' p q' Hr' Hp Hq'. destruct (Hback c r' Hr') as (r & Hr & (_&Hs&Ht&Hpar&_&Hpl&_)).
    destruct (Hback p q' Hq') as (q & Hq & (_&Hs'&Ht'&_&_&Hpl'&_)). rewrite Hpl, Hpl', Ht, Ht', Hs, Hs'.
    apply (Hpol c r p q); congruence.
Qed.

(** ** A run appears *)

Lemma spawn_wf_create d t r :
  runs_wf d → spawn_wf d → db_runs d !! ar_id r = None →
  match ar_parent r with
  | None => True
  | Some p => ∃ q, db_runs d !! p = Some q ∧ ar_tenant q = t ∧ ar_session q = ar_session r ∧
      narrower (ar_policy r) (ar_policy q) ∧
      (Z.of_nat (length (children_of d t p)) < MaxChildren (ar_policy q))%Z
  end →
  spawn_wf (with_runs (<[ar_id r := run_row d t r]> (db_runs d)) d).
Proof.
  intros (Hk & _ & Hpar) [Hcount Hpol] Hnone Hnew.
  assert (∀ i q, db_runs d !! i = Some q → ar_parent q ≠ Some (ar_id r)) as Hfresh.
  { intros i q Hq Hp. destruct (Hpar i q _ Hq Hp) as [? ?]. congruence. }
  assert (ar_parent r ≠ Some (ar_id r)) as Hself.
  { intros E. rewrite E in Hnew. destruct Hnew as (q & ? & _). congruence. }
  set (d' := with_runs _ _).
  assert (∀ t' p i, i ∈ dom (filter (λ x, is_child t' p x.2) (db_runs d')) →
    i ∈ dom (filter (λ x, is_child t' p x.2) (db_runs d)) ∨ (i = ar_id r ∧ ar_parent r = Some p ∧ t' = t)) as Hsub.
  { intros t' p i. rewrite !elem_children. intros (q & Hq & Hc1 & Hc2). unfold d' in Hq. simpl in Hq.
    rewrite lookup_insert in Hq. case_decide; [|left; by exists q].
    right. simplify_eq. simpl in *. done. }
  split.
  - intros p q Hq. unfold d' in Hq. simpl in Hq. rewrite lookup_insert in Hq. rewrite children_count.
    assert (ar_parent r ≠ Some p ∨ ar_tenant q ≠ t →
      (size (dom (filter (λ x, is_child (ar_tenant q) p x.2) (db_runs d'))) ≤
       size (dom (filter (λ x, is_child (ar_tenant q) p x.2) (db_runs d))))%nat) as Hsame.
    { intros Hne. apply subseteq_size. intros i Hi. destruct (Hsub _ _ _ Hi) as [?|(_ & ? & ?)]; [done|naive_solver]. }
    case_decide as E.
    + subst p. simplify_eq. simpl in *. specialize (Hsame (or_introl Hself)).
      assert (size (dom (filter (λ x, is_child t (ar_id r) x.2) (db_runs d))) = 0%nat) as H0.
      { apply size_empty_iff. intros i. split; [|set_solver]. rewrite elem_children. intros (q' & Hq' & Hc & _).
        by destruct (Hfresh i q' Hq'). }
      lia.
    + specialize (Hcount p q Hq). rewrite children_count in Hcount.
      destruct (decide (ar_parent r = Some p ∧ ar_tenant q = t)) as [[Hp Ht]|Hne].
      * rewrite Hp in Hnew. destruct Hnew as (q' & Hq' & _ & _ & _ & Hlt). simplify_eq.
        rewrite children_count in Hlt.
        assert (size (dom (filter (λ x, is_child (ar_tenant q') p x.2) (db_runs d'))) ≤
          size ({[ar_id r]} ∪ dom (filter (λ x, is_child (ar_tenant q') p x.2) (db_runs d))))%nat as H1.
        { apply subseteq_size. intros i Hi. destruct (Hsub _ _ _ Hi) as [?|(-> & _ & _)]; set_solver. }
        rewrite size_union_alt, size_singleton in H1.
        assert (size (dom (filter (λ x, is_child (ar_tenant q') p x.2) (db_runs d)) ∖ {[ar_id r]}) ≤
          size (dom (filter (λ x, is_child (ar_tenant q') p x.2) (db_runs d))))%nat by (apply subseteq_size; set_solver).
        lia.
      * assert (ar_parent r ≠ Some p ∨ ar_tenant q ≠ t) as Hne'
          by (destruct (decide (ar_parent r = Some p)); [right; naive_solver|by left]).
        specialize (Hsame Hne'). lia.
  - intros c x p q. unfold d'. simpl. rewrite !lookup_insert. case_decide as E1; case_decide as E2.
    + intros [= <-] Hp. simpl in Hp. subst. done.
    + intros [= <-] Hp Hq. simpl in *. rewrite Hp in Hnew.
      destruct Hnew as (q' & Hq' & Ht & Hs & Hn & _). simplify_eq. auto.
    + intros Hx Hp _. subst. by destruct (Hfresh c x Hx).
    + intros Hx Hp Hq. by apply (Hpol c x p q).
Qed.

(** ** Every transaction keeps the tree within its policies *)

Definition tree_evolve : relation DB := λ d d', runs_wf d → spawn_wf d → runs_wf d' ∧ spawn_wf d'.
#[export] Instance tree_evolve_pre : PreOrder tree_evolve.
Proof. split; [by intros d|]. intros a b c H1 H2 Ha Hs. destruct (H1 Ha Hs). auto. Qed.

Lemma tree_evolve_of d d' : no_new d d' → runs_evolve d d' → tree_evolve d d'.
Proof. intros Hn He Hw Hs. destruct (He Hw) as [Hw' Hle]. split; [done|]. by eapply spawn_wf_frame. Qed.

#[export] Instance tree_evolve_writes : StoreWrites tree_evolve.
Proof.
  constructor; [apply _|..]; intros;
    try (intros dd; apply tree_evolve_of; [apply no_new_writes|apply runs_evolve_prim]);
    (apply tree_evolve_of; [apply no_new_writes|apply runs_evolve_prim]).
Qed.

Lemma tree_create d t r (Q : result unit → DB → Prop) :
  runs_wf d → spawn_wf d →
  match ar_parent r with
  | None => True
  | Some p => ∃ q, db_runs d !! p = Some q ∧ ar_tenant q = t ∧ ar_session q = ar_session r ∧
      narrower (ar_policy r) (ar_policy q) ∧
      (Z.of_nat (length (children_of d t p)) < MaxChildren (ar_policy q))%Z
  end →
  (∀ d', tree_evolve d d' → Q (Ok ()) d') → (∀ e, Q (Err e) d) → wp (RunCreate t r) Q d.
Proof.
  intros Hw Hs Hnew HQ HE. unfold wp.
  assert (runs_evolve d (RunCreate t r d).1) as Hev by apply runs_evolve_prim. revert Hev.
  unfold RunCreate, mbind, M_bind, get. simpl.
  destruct (session_of _ _ _); [|intros; apply HE]. destruct (_ || _) eqn:E; [intros; apply HE|].
  apply orb_false_iff in E as [E _]. apply bool_decide_eq_false, eq_None_not_Some in E.
  destruct (match ar_parent r with Some _ => _ | None => _ end); [intros; apply HE|]. simpl.
  intros Hev. apply HQ. intros _ _. split; [by apply Hev|]. by apply spawn_wf_create.
Qed.

(** The result of a transaction whose body keeps [tree_evolve] when it commits. *)
Lemma tree_atomically {A} (m : M DB A) d :
  wp m (λ r d', match r with Ok _ => tree_evolve d d' | Err _ => True end) d → tree_evolve d (atomically m d).1.
Proof. unfold wp, atomically. destruct (m d) as [d' [a|e]]; simpl; [done|]. intros _. reflexivity. Qed.

Section spawn_ops.
Context `{Uuid} `{Durations} `{Fantasy} {W : Type} (sv : Service W).

Lemma spawn_tx_tree run jt js key child d :
  runs_wf d → spawn_wf d →
  (∃ q, db_runs d !! ar_id run = Some q ∧ ar_tenant q = ar_tenant run ∧ ar_session q = ar_session run ∧
        ar_policy q = ar_policy run) →
  ar_parent child = Some (ar_id run) → ar_session child = ar_session run →
  narrower (ar_policy child) (ar_policy run) →
  tree_evolve d (spawn_tx run jt js key child d).1.
Proof.
  intros Hw Hs (q & Hq & Ht & Hse & Hpl) Hpar Hsess Hn. apply (tree_atomically _ d).
  apply wp_bind, wp_RunGetForUpdate; [intros locked Hl|done].
  apply wp_bind. unfold CountChildren. apply wp_bind, wp_get, wp_ret. case_bool_decide as Hmax; [done|].
  apply wp_bind, wp_attempt. eapply (wp_keeps eq); [apply (keeps_GetBySpawnKey eq)|]. intros existing ? <-.
  destruct existing as [c|[]]; try done.
  apply wp_bind, tree_create; [done|done| | |done].
  - rewrite Hpar. exists q. rewrite Hpl, Hsess. split_and!; [done..|lia].
  - intros d1 Hd1. eapply (wp_keeps tree_evolve); [solve_handler|]. intros [|] d2 Hd2; [|done]. by etrans.
Qed.

Lemma spawnChild_tree fresh run job req d :
  snapshot d run → runs_wf d → spawn_wf d → tree_evolve d (spawnChild fresh run job req d).1.
Proof.
  intros (q & Hq & Hle) Hw Hs. unfold spawnChild. destruct (all_space _); [reflexivity|].
  unfold mbind at 1, M_bind at 1, of_result.
  destruct (resolvePolicy (sqSpec req) (ar_policy run)) as [policy|e] eqn:Hpol; [|reflexivity].
  case_bool_decide; [reflexivity|]. unfold mbind, M_bind, attempt.
  pose proof (keeps_GetBySpawnKey eq (ar_tenant run) (spawnKey (ar_id run) (sj_step job) (sqToolCallID req)) d) as Heq.
  destruct (GetBySpawnKey _ _ d) as [d' [c|e]]; simpl in Heq; subst; [reflexivity|].
  destruct e; try reflexivity. destruct Hle as (_ & ? & ? & _ & _ & ? & _).
  apply spawn_tx_tree; [done|done|exists q; split_and!; done|done|done|].
  simpl. by eapply resolvePolicy_narrower.
Qed.

Lemma StartRun_tree who fresh model session prompt req policy d :
  runs_wf d → spawn_wf d → tree_evolve d (StartRun who fresh model session prompt req policy d).1.
Proof.
  intros Hw Hs. change (wp (StartRun who fresh model session prompt req policy) (λ _, tree_evolve d) d).
  unfold StartRun. apply wp_bind. eapply (wp_keeps eq); [apply keeps_resolveSessionTenant; apply _|].
  intros [[org a]|e] ? <-; [|done]. case_bool_decide; [done|].
  apply wp_bind. unfold stored at 1. apply wp_bind, wp_attempt, wp_atomically.
  apply wp_bind, tree_create; [done|done|done| |intros e; done].
  intros d1 Hd1. eapply (wp_keeps tree_evolve); [solve_handler|]. intros [seq|e] d2 Hd2; [|done].
  assert (tree_evolve d d2) as H02 by (by etrans). apply wp_ret, wp_bind.
  eapply (wp_keeps eq); [apply keeps_stored; [apply _|]; apply (keeps_RunGet eq)|]. by intros [|] ? <-.
Qed.

#[local] Instance tree_res : ResPrim tree_evolve.
Proof.
  constructor; [apply _|apply prim_Append|intros; apply (keeps_EnqueueInTx tree_evolve)|..];
    intros x d; (apply tree_evolve_of; [by intros i|by apply runs_evolve_prim]).
Qed.

Lemma op_tree o d : allowed d o → tree_evolve d (run_op sv o d).
Proof.
  intros Ha Hw Hs. revert Hw Hs. change (tree_evolve d (run_op sv o d)).
  destruct o; cbn [run_op] in *; try (by apply prim_now).
  all: try (intros Hw Hs; by apply spawnChild_tree).
  all: try (intros Hw Hs; by apply StartRun_tree).
  all: clear Ha; revert d; match goal with |- ∀ d, tree_evolve d (?m d).1 => change (keeps tree_evolve m) end;
    try solve [eauto with keeps typeclass_instances | apply keeps_res_op; apply _].
  all: unfold memory_set, memory_delete, appendMemoryEvent, rearm, CreateSession, UpdateSessionLabels,
    ArchiveSession, AppendEvent, SetMemory, DeleteMemory, appendTransition, AnswerRun, answer_tx, CancelRun,
    cancel_tx, operator_cancel_tx, operator_answer_tx, operator_expire_tx, AbandonWaits, stored, resolveRun, resolveSessionTenant, requireTenant, identityFrom, stored;
    try (apply keeps_txStale; [apply _|intros]); solve_handler.
Qed.

Lemma reachable_spawn_wf d : reachable sv d → spawn_wf d.
Proof.
  unfold reachable. revert d. apply rtc_ind_r.
  - split; [by intros p r Hr|by intros c r p q Hr].
  - intros d1 d2 Hr1 (o & Ha & ->) Hs. destruct (reachable_wf sv d1 Hr1) as (_ & Hw & _).
    by destruct (op_tree o d1 Ha Hw Hs).
Qed.

End spawn_ops.
