(* ===== verification/WorkSteps.v ===== *)
(** * A step worker is a sequence of system transactions

    [Work] is not one transaction: it claims, streams for minutes while other
    processes go on, runs tools that open their own transactions, and commits.
    This file shows that whatever the model does and whatever other processes
    do meanwhile, its effect on the database is a sequence of [sys_step]s, so
    every property of histories holds in the middle of a step too. *)
From S2P Require Import Prelude Policy Domain Text Store StoreRuns EventLog Loop Waits Batcher Tools Step Api.
From S2P Require Import ResourceStore OperatorTx ResourceWork Frames Invariants RunStates System.

Lemma wp_foldM_val {S A B} (f : B → A → M S B) (l : list A) (I : B → S → Prop) (E : S → Prop) b s :
  (∀ b x t, x ∈ l → I b t → wp (f b x) (λ r t', match r with Ok b' => I b' t' | Err _ => E t' end) t) →
  I b s → wp (foldM f l b) (λ r t', match r with Ok b' => I b' t' | Err _ => E t' end) s.
Proof.
  revert b s. induction l as [|x l IH]; intros b s Hf Hs; simpl; [by apply wp_ret|].
  apply wp_bind. eapply wp_mono; [apply Hf; [set_solver|done]|].
  intros [b'|e] t Ht; [|done]. apply IH; [|done]. intros. apply Hf; [set_solver|done].
Qed.

Section work.
Context `{Uuid} `{Durations} `{Fantasy} {W : Type} (sv : Service W).

Notation steps := (rtc (sys_step sv)).

Lemma step_op o d : allowed d o → steps d (run_op sv o d).
Proof. intros Ha. apply rtc_once. by exists o. Qed.

(** From a database in which [run] is a snapshot, only system steps. *)
Definition steps_with (run : AgentRun) : relation DB := λ d d',
  runs_wf d → snapshot d run → steps d d'.

Lemma steps_snapshot run d d' :
  steps d d' → runs_wf d → snapshot d run → runs_wf d' ∧ snapshot d' run.
Proof.
  intros Hst Hw (r & Hr & Hle). destruct (history_keeps sv runs_evolve _ _ Hst Hw) as [Hw' Hrows].
  split; [done|]. destruct (Hrows _ _ Hr) as (r' & Hr' & Hle'). exists r'. split; [done|by etrans].
Qed.

Lemma steps_cancel_seen job d d' : steps d d' → runs_wf d → cancel_seen d job → cancel_seen d' job.
Proof.
  intros Hst Hw (r & t & [Hr Ht]%run_of_Some & Hc).
  destruct (history_keeps sv runs_evolve _ _ Hst Hw) as [_ Hrows].
  destruct (Hrows _ _ Hr) as (r' & Hr' & Hle). exists r', t. split.
  - apply run_of_Some. split; [done|]. destruct Hle as (_ & _ & -> & _). done.
  - by apply Hle.
Qed.

#[local] Instance steps_with_pre run : PreOrder (steps_with run).
Proof.
  split; [intros d _ _; reflexivity|]. intros a b c H12 H23 Hw Hs. pose proof (H12 Hw Hs) as Hab.
  destruct (steps_snapshot run a b Hab Hw Hs). etrans; [done|auto].
Qed.

Lemma of_steps {A} run (m : M DB A) : keeps steps m → keeps (steps_with run) m.
Proof. intros Hm d _ _. apply Hm. Qed.

(** ** The transactions a step uses *)

Lemma steps_Append t s e : keeps steps (Append Pool t s e).
Proof. intros d. apply (step_op (OpAppend t s e) d I). Qed.
Lemma steps_appendEvent job k p : keeps steps (appendEvent job k p).
Proof. unfold appendEvent. apply keeps_ignore, steps_Append. Qed.
Lemma steps_emit_all job out : keeps steps (emit_all job out).
Proof. unfold emit_all. apply keeps_for_each; [apply _|]. intros e. apply steps_appendEvent. Qed.
Lemma steps_permissionDenied run t r : keeps steps (permissionDenied run t r).
Proof.
  unfold permissionDenied. apply keeps_bind; [apply _|apply keeps_ignore, steps_Append|intros].
  apply keeps_ret; apply _.
Qed.
Lemma steps_failRun job r m : keeps steps (failRun job r m).
Proof. intros d. apply (step_op (OpFail job r m) d I). Qed.
Lemma steps_claim job : keeps steps (claim job).
Proof. intros d. apply (step_op (OpClaim job) d I). Qed.
Lemma steps_commit c job a e res rec : keeps steps (commitOutcome c job a e res rec).
Proof. intros d. apply (step_op (OpCommit c job a e res rec) d I). Qed.
Lemma steps_compact t i e : keeps steps (SetHistory t i (Encode e)).
Proof. intros d. apply (step_op (OpCompact t i e) d I). Qed.
Lemma steps_memory_set run k v : keeps steps (memory_set run k v).
Proof. intros d. apply (step_op (OpMemorySet run k v) d I). Qed.
Lemma steps_memory_delete run k : keeps steps (memory_delete run k).
Proof. intros d. apply (step_op (OpMemoryDelete run k) d I). Qed.
Lemma with_spawnChild fresh run job req : keeps (steps_with run) (spawnChild fresh run job req).
Proof. intros d _ Hs. apply (step_op (OpSpawn fresh run job req) d Hs). Qed.
Lemma with_reads {A} run (m : M DB A) : keeps eq m → keeps (steps_with run) m.
Proof. intros Hm d _ _. rewrite <-(Hm d). reflexivity. Qed.

Hint Resolve of_steps steps_Append steps_appendEvent steps_emit_all steps_permissionDenied steps_failRun
  steps_compact steps_memory_set steps_memory_delete with_spawnChild : keeps.

Lemma with_spawn_failed run t o e : keeps (steps_with run) (spawn_failed run t o e).
Proof. unfold spawn_failed. solve_handler. Qed.
Hint Resolve with_spawn_failed : keeps.
Lemma with_spawn_cohort fresh run job c k i specs : keeps (steps_with run) (spawn_cohort fresh run job c k i specs).
Proof. revert i. induction specs; intros i; simpl; solve_handler. Qed.
Hint Resolve with_spawn_cohort : keeps.

Lemma with_native_call run job c fresh i rec : keeps (steps_with run) (native_call run job c fresh i rec).
Proof.
  destruct i; unfold native_call, plain, askUserTool, postEventTool, memory_get, memory_list,
    spawnAgentTool, waitForAgentsTool, runAgentCohortTool, plain; solve_handler.
Qed.
Hint Resolve with_native_call : keeps.

(** ** The environment of a step *)

(** Other processes and dynamic tools act through system transactions. *)
Definition action_ok (a : stream_action) : Prop :=
  match a with ActOthers f => ∀ d, steps d (f d) | _ => True end.
Definition env_ok (env : WorkEnv) : Prop :=
  (∀ m e, Forall action_ok (weStream env m e).1) ∧
  (∀ run a b c, keeps steps (weDynamicCall env run a b c)).

(** What a stream maintains since [d0]. *)
Definition stream_inv (d0 : DB) (run : AgentRun) (job : StepJob_) (s : stream_state) (d : DB) : Prop :=
  steps d0 d ∧ runs_wf d ∧ snapshot d run ∧ (ssCancelled s = true → cancel_seen d job).

Lemma stream_inv_step d0 run job s s' d d' :
  stream_inv d0 run job s d → steps_with run d d' →
  (ssCancelled s' = true → ssCancelled s = true ∨ cancel_seen d' job) → stream_inv d0 run job s' d'.
Proof.
  intros (Hst & Hw & Hsn & Hc) Hstep Hc'. pose proof (Hstep Hw Hsn) as Hdd.
  destruct (steps_snapshot run d d' Hdd Hw Hsn). split_and!; [by etrans|apply H2..|done|].
  intros Hs'. destruct (Hc' Hs') as [?|?]; [|done]. eapply steps_cancel_seen; eauto.
Qed.

(** The outcome of a computation on streams, errors included. *)
Definition stream_post (d0 : DB) (run : AgentRun) (job : StepJob_) (r : result stream_state) (d : DB) : Prop :=
  match r with Ok s => stream_inv d0 run job s d | Err _ => steps d0 d end.

Lemma stream_keeps d0 run job s d (m : M DB unit) (k : M DB stream_state) :
  stream_inv d0 run job s d → keeps (steps_with run) m →
  (∀ d', stream_inv d0 run job s d' → wp k (stream_post d0 run job) d') →
  wp (m ≫= λ _, k) (stream_post d0 run job) d.
Proof.
  intros Hi Hm Hk. apply wp_bind. eapply wp_keeps; [exact Hm|]. intros [[]|e] d' Hd'.
  - apply Hk. eapply stream_inv_step; [done|done|by left].
  - apply (stream_inv_step _ _ _ _ s _ _ Hi Hd'). by left.
Qed.

Lemma stream_ret d0 run job s s' d :
  stream_inv d0 run job s d → ssCancelled s' = ssCancelled s → wp (mret s') (stream_post d0 run job) d.
Proof. intros (?&?&?&?) E. apply wp_ret. simpl. unfold stream_inv. rewrite E. done. Qed.

Lemma with_dispatch env dynamic run job a rec :
  env_ok env → keeps (steps_with run) (dispatch env dynamic run job a rec).
Proof.
  intros [_ Hdyn]. unfold dispatch. destruct a; solve_handler.
Qed.

Lemma stream_step_ok env dynamic run job main d0 s a d :
  env_ok env → action_ok a → stream_inv d0 run job s d →
  wp (stream_step env dynamic run job main s a) (stream_post d0 run job) d.
Proof.
  intros Henv Ha Hi. destruct s as [rec b c]. unfold stream_step.
  destruct a as [delta|delta| |callID name input|callID name res isError|callID fresh i|callID name input| |f].
  - destruct (addText delta b) as [out b']. eapply stream_keeps; [done|eauto with keeps|].
    intros d' Hi'. by eapply stream_ret.
  - destruct main; [|by eapply stream_ret]. destruct (addReasoning delta b) as [out b'].
    eapply stream_keeps; [done|eauto with keeps|]. intros d' Hi'. by eapply stream_ret.
  - destruct (timerFires b) as [out b']. eapply stream_keeps; [done|eauto with keeps|].
    intros d' Hi'. by eapply stream_ret.
  - destruct main; [|by eapply stream_ret]. destruct (flushAll b) as [out b'].
    eapply stream_keeps; [done|eauto with keeps|]. intros d' Hi'.
    eapply stream_keeps; [done|eauto with keeps|]. intros d'' Hi''. by eapply stream_ret.
  - destruct main; [|by eapply stream_ret]. eapply stream_keeps; [done|eauto with keeps|].
    intros d' Hi'. by eapply stream_ret.
  - apply wp_bind. eapply wp_keeps; [by apply with_dispatch|]. intros [rec'|e] d' Hd'.
    + apply wp_ret. simpl. eapply stream_inv_step; [done|done|by left].
    + apply (stream_inv_step _ _ _ _ (MkStreamState rec b c) _ _ Hi Hd'). by left.
  - apply wp_bind. eapply wp_keeps; [by apply with_dispatch|]. intros [rec'|e] d' Hd'.
    + apply wp_ret. simpl. eapply stream_inv_step; [done|done|by left].
    + apply (stream_inv_step _ _ _ _ (MkStreamState rec b c) _ _ Hi Hd'). by left.
  - unfold pollCancel. destruct c; [by apply wp_bind, wp_ret, wp_ret|].
    apply wp_bind, wp_bind, wp_attempt, wp_RunGet; [intros r Hr|intros _]; apply wp_ret, wp_ret; simpl.
    + destruct Hi as (A1 & A2 & A3 & _). refine (conj A1 (conj A2 (conj A3 _))). simpl.
      case_bool_decide as Hc; [|done]. intros _. destruct Hc as [t Ht]. by exists r, t.
    + destruct Hi as (A1 & A2 & A3 & _). by refine (conj A1 (conj A2 (conj A3 _))).
  - eapply stream_keeps; [done| |intros d' Hi'; by eapply stream_ret]. intros dd _ _. apply Ha.
Qed.

Lemma run_stream_ok env dynamic run job main d0 s actions d :
  env_ok env → Forall action_ok actions → stream_inv d0 run job s d →
  wp (run_stream env dynamic run job main s actions) (stream_post d0 run job) d.
Proof.
  intros Henv Hact Hi. unfold run_stream. apply wp_bind. eapply wp_mono.
  - apply (wp_foldM_val _ _ (stream_inv d0 run job) (steps d0)); [|exact Hi].
    intros b x t Hx Ht. apply stream_step_ok; [done| |done]. rewrite Forall_forall in Hact. by apply Hact.
  - intros [s'|e] d' Hd'; [|done]. destruct (flushAll (ssBatcher s')) as [out b'].
    eapply stream_keeps; [done|eauto with keeps|]. intros d'' Hi''. by eapply stream_ret.
Qed.

Lemma stream_with_fallback_ok env dynamic run job e d0 s d :
  env_ok env → stream_inv d0 run job s d →
  wp (stream_with_fallback env dynamic run job e s)
    (λ r d', match r with Ok (s', _) => stream_inv d0 run job s' d' | Err _ => steps d0 d' end) d.
Proof.
  intros Henv Hi. unfold stream_with_fallback.
  pose proof (proj1 Henv (ar_model run) e) as Hact. destruct (weStream env (ar_model run) e) as [actions outcome].
  apply wp_bind. eapply wp_mono; [by apply run_stream_ok|]. intros [s1|er] d1 H1'; [|done].
  destruct outcome as [res|[st au []|]]; try (by apply wp_ret).
  destruct (model_fallbacks (ar_model run)) as [|fb ?]; [by apply wp_ret|].
  apply wp_bind. eapply wp_keeps; [apply (of_steps run), steps_appendEvent|]. intros [[]|er] d2 H2'.
  2:{ apply (stream_inv_step _ _ _ _ s1 _ _ H1' H2'). by left. }
  assert (stream_inv d0 run job s1 d2) as H3' by (eapply stream_inv_step; [done|done|by left]).
  destruct (weResolve env fb); try (by apply wp_ret).
  pose proof (proj1 Henv fb e) as Hact2. destruct (weStream env fb e) as [actions2 outcome2].
  apply wp_bind. eapply wp_mono; [by apply run_stream_ok|]. intros [s4|er] d4 H4'; [|done]. by apply wp_ret.
Qed.

Lemma with_compact env run job e : keeps (steps_with run) (compact env run job e).
Proof. unfold compact. solve_handler. Qed.

Lemma handleStreamError_ok red job c i e d :
  (c = true → cancel_seen d job) → steps d (handleStreamError red job c i e d).1.
Proof.
  intros Hc. unfold handleStreamError. destruct c.
  - pose proof (step_op (OpCancelStream job) d (Hc eq_refl)) as Hst. simpl in Hst.
    unfold mbind, M_bind, attempt. destruct (txStale _ d) as [d' [?|[]]]; done.
  - destruct i; [reflexivity|]. destruct (ClassifyProviderError red e). apply steps_failRun.
Qed.

(** [work_claimed] from the database the claim left. *)
Lemma work_claimed_ok env job run att d :
  env_ok env → runs_wf d → snapshot d run → steps d (work_claimed env job run att d).1.
Proof.
  intros Henv Hw Hsn. change (wp (work_claimed env job run att) (λ _, steps d) d). unfold work_claimed.
  apply wp_bind. eapply wp_keeps; [apply steps_appendEvent|]. intros [[]|e] d1 Hd1; [|done].
  destruct (steps_snapshot run d d1 Hd1 Hw Hsn) as [Hw1 Hsn1].
  assert (∀ r m, wp (failRun job r m) (λ _, steps d) d1) as Hfail.
  { intros r m. eapply wp_keeps; [apply steps_failRun|]. intros ? ? ?. by etrans. }
  destruct (weResolve env (ar_model run)); [|done|done].
  destruct (Resolve _ _ _); [|done]. destruct (DecodeEnvelope _) as [e|]; [|done].
  apply wp_bind. eapply wp_keeps; [apply with_compact|]. intros [e'|er] d2 Hd2; specialize (Hd2 Hw1 Hsn1).
  2:{ by etrans. }
  destruct (steps_snapshot run d1 d2 Hd2 Hw1 Hsn1) as [Hw2 Hsn2].
  destruct (weDynamic env run); [|apply wp_throw; by etrans].
  apply wp_bind. eapply wp_mono.
  { apply (stream_with_fallback_ok _ _ run job e' d); [done|]. refine (conj _ (conj Hw2 (conj Hsn2 _))); [by etrans|done]. }
  intros [[s outcome]|er] d3 Hd3; [|done]. destruct Hd3 as (Hst3 & Hw3 & Hsn3 & Hc3).
  destruct outcome as [res|er].
  - eapply wp_keeps; [apply steps_commit|]. intros ? ? ?. by etrans.
  - unfold wp. etrans; [exact Hst3|]. by apply handleStreamError_ok.
Qed.

(** A computation that always fails. *)
Definition never_ok {A} (m : M DB A) : Prop := ∀ d, ∃ e, (m d).2 = Err e.
Lemma never_ok_bind {A B} (m : M DB A) (f : A → M DB B) : (∀ a, never_ok (f a)) → never_ok (m ≫= f).
Proof. intros Hf d. unfold mbind, M_bind. destruct (m d) as [d' [a|e]]; [apply Hf|by exists e]. Qed.
Lemma markCancelled_never_ok {A} txs job : never_ok (markCancelledTx (A:=A) txs job).
Proof. unfold markCancelledTx. repeat (apply never_ok_bind; intros). intros d. by eexists. Qed.

(** The row a claim returns is the row it found. *)
Lemma claim_run job d run n : (claim job d).2 = Ok (run, n) → db_runs d !! sj_run job = Some run.
Proof.
  cut (wp (claim job) (λ r _, ∀ run n, r = Ok (run, n) → db_runs d !! sj_run job = Some run) d).
  { intros Hwp Hok. by eapply Hwp. }
  unfold claim. apply wp_bind, wp_attempt. unfold txStale. apply wp_bind.
  apply (wp_atomically (S:=DB)), wp_bind, wp_attempt.
  apply wp_bind, wp_RunGetForUpdate; [intros run' [Hr _]%run_of_Some|done].
  destruct (_ && _); [done|]. case_bool_decide.
  { destruct (markCancelled_never_ok (A:=AgentRun * Z) TxBound job d) as [e He].
    unfold wp. rewrite He. by destruct e. }
  apply wp_bind. eapply (wp_keeps eq); [apply (keeps_Steps eq)|]. intros [st|e] ? <-; [|by destruct e].
  destruct (existsb _ _); [done|]. apply wp_bind, wp_gets, wp_bind.
  eapply (wp_keeps (λ _ _, True)); [done|]. intros [[]|e] d1 _; [|by destruct e].
  apply wp_ret, wp_ret, wp_ret, wp_ret. intros ? ? [= <- <-]. done.
Qed.

(** ** Properties *)

(** C10: a worker is a sequence of transactions.  However the model streams,
    whatever tools it calls and whatever other processes commit meanwhile, the
    effect of one [Work] on the database is a sequence of system steps: every
    spawn uses a row that is still a snapshot of the claimed run, and a stream
    is finalized as cancelled only after the request was really recorded. *)
Theorem Work_is_steps env job d :
  env_ok env → runs_wf d → steps d (Work env job d).1.
Proof.
  intros Henv Hw. unfold Work, mbind, M_bind, attempt.
  pose proof (steps_claim job d) as Hst. pose proof (claim_run job d) as Hrun.
  destruct (claim job d) as [d1 [[run n]|e]]; simpl in *; [|by destruct e].
  etrans; [exact Hst|]. specialize (Hrun run n eq_refl).
  destruct (history_keeps sv runs_evolve _ _ Hst Hw) as [Hw1 Hrows]. apply work_claimed_ok; [done|done|].
  destruct (Hrows _ _ Hrun) as (r' & Hr' & Hle). exists r'.
  by rewrite (proj1 Hw _ _ Hrun).
Qed.

End work.
