(* ===== verification/Scenario.v ===== *)
(** * A concrete history

    One tenant, one session, a run that spawns a child, parks on it and is
    resumed by its completion: the history on which the theorems about reachable
    databases are instantiated.  The parameters of the model are given simple
    concrete values: UUIDs by concatenation, no parsable durations, and a
    provider whose control plane is the list of the resources it runs. *)
From S2P Require Import Prelude Policy Domain Text Store StoreRuns EventLog Loop Waits Batcher Tools Step Api.
From S2P Require Import ResourceStore OperatorTx ResourceWork Frames Invariants RunStates System.

(** ** Parameters *)

#[export] Instance demo_uuid : Uuid := λ namespace name, namespace +:+ "/" +:+ name.
#[export] Instance demo_durations : Durations := λ _, None.
#[export] Instance demo_fantasy : Fantasy := "tool-calls".

(** The control plane: one entry per thing it runs. *)
Notation demo_world := (list ResourceID) (only parsing).

Definition demo_handle (r : Resource) : json := JObj [("version", JNum 1); ("data", JStr (r_id r))].

Definition demo_provider : ResourceProvider demo_world := {|
  prKind := ResourceKindDevEnv;
  prValidateSpec := λ _, None;
  prProvision := λ r _, _ ← modify (cons (r_id r)); mret (demo_handle r);
  prStatus := λ r, w ← get; mret (if bool_decide (r_id r ∈ w) then ResourceReady else ResourceTerminated, "");
  prEndpoint := λ r, mret ("http://" +:+ r_id r);
  prRestart := λ r _, mret (demo_handle r);
  prTerminate := λ r, modify (filter (λ i, i ≠ r_id r));
  prAdopt := Some (λ r, w ← get; mret (if bool_decide (r_id r ∈ w) then Some (demo_handle r) else None));
|}.

Definition demo_service : Service demo_world := {|
  svBuild := λ _ _, Ok demo_provider;
  svDecrypt := Ok;
  svHealthy := λ _, mret ();
  svReconcileInterval := 0;
  svProvisionTimeout := 0;
|}.

(** ** Histories as lists of transactions *)

Notation demo_step := (sys_step demo_service).

Definition run_ops (ops : list op) (d : DB) : DB := foldl (λ d o, run_op demo_service o d) d ops.

Fixpoint allowed_all (ops : list op) (d : DB) : Prop :=
  match ops with
  | [] => True
  | o :: rest => allowed d o ∧ allowed_all rest (run_op demo_service o d)
  end.

Lemma run_ops_steps ops d : allowed_all ops d → rtc demo_step d (run_ops ops d).
Proof.
  revert d. induction ops as [|o ops IH]; intros d; [reflexivity|]. intros [Ha Hrest].
  apply (rtc_l demo_step d (run_op demo_service o d)); [by exists o|by apply IH].
Qed.

(** ** The history *)

Definition alice : option authContext := Some (MkAuthContext "acme" "k1" "member" (MkActor "user" "alice" "Alice")).
Definition demo_model : ModelConfig := MkModelConfig "anthropic" "opus" "c1" [].

Definition parent_job (n : Z) : StepJob_ := MkStepJob "r1" "acme" "s1" n.
Definition child_job (n : Z) : StepJob_ := MkStepJob "c1" "acme" "s1" n.

Definition demo_envelope (prompt : string) : Envelope :=
  match DecodeEnvelope (InitialEnvelope prompt) with Ok e => e | Err _ => MkEnvelope 1 [] [] end.

Definition wait_recorder : stepRecorder :=
  set_wait ["c1"] "call-1" 1000 WaitKindWait TimeoutPolicyResolve new_recorder.

Definition one_step (reason text : string) : AgentResult :=
  MkAgentResult [MkStepResult [] 10 20 reason] [TextContent text].

Definition demo_start : list op := [
  OpCreateSession alice "s1" "acme" "demo" ∅;
  OpStartRun alice "r1" demo_model "s1" "hello" None None;
  OpClaim (parent_job 0) ].
Definition d_running : DB := run_ops demo_start empty_db.
Definition row_of (d : DB) (id : RunID) : AgentRun :=
  default (new_run id "" "" ActorSystem demo_model "" DefaultRunPolicy) (db_runs d !! id).

Definition child_request : spawnRequest :=
  MkSpawnRequest (MkChildSpec "look" None None) "call-0" "" 0.
Definition demo_spawn : list op := [OpSpawn "c1" (row_of d_running "r1") (parent_job 0) child_request].
Definition d_spawned : DB := run_ops demo_spawn d_running.

Definition demo_park : list op := [
  OpCommit 100 (parent_job 0) 1 (demo_envelope "hello") (one_step "stop" "waiting") wait_recorder;
  OpClaim (child_job 0) ].
Definition d_parked : DB := run_ops demo_park d_spawned.

Definition demo_resume : list op := [
  OpCommit 200 (child_job 0) 1 (demo_envelope "look") (one_step "stop" "done") new_recorder ].
Definition d_resumed : DB := run_ops demo_resume d_parked.

Lemma running_reachable : reachable demo_service d_running.
Proof. apply run_ops_steps. vm_compute. done. Qed.

Lemma spawned_steps : rtc demo_step d_running d_spawned.
Proof.
  apply run_ops_steps. split; [|exact I].
  exists (row_of d_running "r1"). split; [by vm_compute|reflexivity].
Qed.

Lemma parked_steps : rtc demo_step d_spawned d_parked.
Proof. apply run_ops_steps. done. Qed.

Lemma resumed_steps : rtc demo_step d_parked d_resumed.
Proof. apply run_ops_steps. done. Qed.

Lemma spawned_reachable : reachable demo_service d_spawned.
Proof. unfold reachable. etrans; [apply running_reachable|apply spawned_steps]. Qed.
Lemma parked_reachable : reachable demo_service d_parked.
Proof. unfold reachable. etrans; [apply spawned_reachable|apply parked_steps]. Qed.
Lemma resumed_reachable : reachable demo_service d_resumed.
Proof. unfold reachable. etrans; [apply parked_reachable|apply resumed_steps]. Qed.

(** What the history comes to: the parent is parked on the child, and the
    child's completion sets it running again with its next step queued. *)
Example demo_story :
  (ar_state (row_of d_parked "r1"), ar_state (row_of d_parked "c1"),
   ar_state (row_of d_resumed "r1"), ar_state (row_of d_resumed "c1"),
   length (db_events d_resumed), last (qj_job <$> db_jobs d_resumed)) =
  (RunAwaiting, RunRunning, RunRunning, RunCompleted, 9%nat, Some (StepJob "r1" "acme" "s1" 1)).
Proof. vm_compute. reflexivity. Qed.

(** A worker of the scenario: the model answers and stops. *)
Definition demo_env : WorkEnv := {|
  weResolve := λ _, ModelOK;
  weRegistry := NewRegistry "You are an agent.";
  weHistoryBytes := λ _, 0%Z;
  weDynamic := λ _, Ok [];
  weDynamicCall := λ _ _ _ _, mret ();
  weDeltaFlushBytes := 64;
  weRedact := id;
  weStream := λ _ _, ([ActText "hi"; ActPoll; ActOthers (run_ops [OpCancelRun alice "r1"])], inl (one_step "stop" "hi"));
  weInterrupted := false;
  weClock := 300;
|}.

(** The wait of the scenario. *)
Definition demo_wait_id : string := deterministicWaitID "r1" 0 "call-1".
Definition wait_at (d : DB) : RunWait :=
  default (MkRunWait "" "" 0 "" "" WaitAbandoned "" 0 None None) (db_waits d !! demo_wait_id).
Definition session_at (d : DB) : Session :=
  default (MkSession "" "" "" ∅ 0 0 None) (db_sessions d !! "s1").
