(* ===== verification/Guarantees.v ===== *)
(** * What every history of the system guarantees

    The properties of reachable databases and of the histories from them, for
    any interleaving of workers, sweeps, requests and resource jobs.  Each is
    instantiated on the history of [Scenario]. *)
From S2P Require Import Prelude Policy Domain Text Store StoreRuns EventLog Loop Waits Batcher Tools Step Api.
From S2P Require Import ResourceStore OperatorTx ResourceWork Frames Invariants RunStates System Spawning WorkSteps Scenario.

Section guarantees.
Context `{Uuid} `{Durations} `{Fantasy} {W : Type} (sv : Service W).

Notation steps := (rtc (sys_step sv)).

Lemma reachable_step d d' : reachable sv d → steps d d' → reachable sv d'.
Proof. unfold reachable. intros. by etrans. Qed.

(** Rows of runs along a history. *)
Lemma run_history d d' i r : reachable sv d → steps d d' → db_runs d !! i = Some r →
  ∃ r', db_runs d' !! i = Some r' ∧ run_le r r' ∧ rtc run_edge (ar_state r) (ar_state r').
Proof.
  intros Hr Hst. revert r. induction Hst as [d|d1 d2 d3 H12 H23 IH]; intros r Hi.
  { exists r. split_and!; [done|reflexivity|constructor]. }
  destruct (reachable_wf sv d1 Hr) as (_ & Hw & _ & _ & _ & Hk & Hc & _).
  destruct (sys_step_keeps sv runs_evolve d1 d2 H12 Hw) as [_ Hle].
  destruct (sys_runs_step sv d1 d2 H12 Hk Hc) as (_ & _ & Hed).
  destruct (Hle i r Hi) as (r2 & Hi2 & Hrle). destruct (Hed i r Hi) as (r2' & ? & He). simplify_eq.
  destruct (IH (reachable_step _ _ Hr (rtc_once _ _ H12)) r2 Hi2) as (r3 & Hi3 & Hrle' & He').
  exists r3. split_and!; [done|by etrans|by eapply rtc_l].
Qed.

(** The states a run can reach from a terminal one. *)
Lemma edge_cancelled st : rtc run_edge RunCancelled st → st = RunCancelled.
Proof.
  intros Hst. remember RunCancelled as c eqn:E in Hst. induction Hst as [|x y z Hxy _ IH]; [done|].
  subst x. inversion Hxy; subst; simpl in *; try done; by apply IH.
Qed.
Lemma edge_failed st : rtc run_edge RunFailed st → st = RunFailed ∨ st = RunCancelled.
Proof.
  intros Hst. remember RunFailed as c eqn:E in Hst. induction Hst as [|x y z Hxy Hyz IH]; [by left|].
  subst x. inversion Hxy; subst; simpl in *; try done; try (by apply IH). right. by apply edge_cancelled.
Qed.

(** ** Properties *)

(** C1: the run state machine.  From any reachable database, any transaction
    of any process moves every run along [run_edge]: it is claimed, parked,
    resumed, answered, completed, failed or cancelled from the states that
    admit it, and never otherwise. *)
Theorem run_state_machine d d' i r :
  reachable sv d → sys_step sv d d' → db_runs d !! i = Some r →
  ∃ r', db_runs d' !! i = Some r' ∧ run_edge (ar_state r) (ar_state r').
Proof.
  intros Hr Hst Hi. destruct (reachable_wf sv d Hr) as (_ & _ & _ & _ & _ & Hk & Hc & _).
  destruct (sys_runs_step sv d d' Hst Hk Hc) as (_ & _ & Hed). by apply Hed.
Qed.

(** Terminal runs.  Along every history a cancelled run stays cancelled,
    and a failed run stays failed or becomes cancelled. *)
Theorem terminal_forever d d' i r :
  reachable sv d → steps d d' → db_runs d !! i = Some r →
  ∃ r', db_runs d' !! i = Some r' ∧
    (ar_state r = RunCancelled → ar_state r' = RunCancelled) ∧
    (ar_state r = RunFailed → ar_state r' = RunFailed ∨ ar_state r' = RunCancelled).
Proof.
  intros Hr Hst Hi. destruct (run_history d d' i r Hr Hst Hi) as (r' & Hi' & _ & He). exists r'.
  split_and!; [done| |]; intros E; rewrite E in He; [by apply edge_cancelled|by apply edge_failed].
Qed.

(** C5: cancellation wins.  Once a cancellation request is recorded, it stays
    recorded and the run never completes, whatever commit was in flight. *)
Theorem cancel_wins d d' i r t :
  reachable sv d → steps d d' → db_runs d !! i = Some r → ar_cancel_requested_at r = Some t →
  ∃ r', db_runs d' !! i = Some r' ∧ ar_cancel_requested_at r' = Some t ∧ ar_state r' ≠ RunCompleted.
Proof.
  intros Hr Hst Hi Hc. destruct (run_history d d' i r Hr Hst Hi) as (r' & Hi' & Hle & _). exists r'.
  assert (ar_cancel_requested_at r' = Some t) as Hc' by (by apply Hle).
  split_and!; [done|done|]. intros E.
  destruct (reachable_wf sv d' (reachable_step _ _ Hr Hst)) as (_ & _ & _ & _ & _ & _ & Hcl & _).
  by rewrite (Hcl i r' Hi' E) in Hc'.
Qed.

(** C3: durable waits.  In every reachable database a parent has at most one
    open wait, and along every history a wait keeps its parent, call, policy and
    deadline, leaves [open] once, and is resumed once. *)
Theorem waits_close_once d d' :
  reachable sv d → steps d d' →
  (∀ i j w v, db_waits d !! i = Some w → db_waits d !! j = Some v → is_open w = true → is_open v = true →
     rw_parent w = rw_parent v → i = j) ∧
  ∀ i w, db_waits d !! i = Some w → ∃ w', db_waits d' !! i = Some w' ∧ wait_le w w'.
Proof.
  intros Hr Hst. destruct (reachable_wf sv d Hr) as (_ & _ & Hw & _).
  split; [apply Hw|]. by apply (history_keeps sv waits_evolve d d' Hst).
Qed.

(** C2: the event log.  In every reachable database the events of a session
    are numbered 1, 2, 3, ... up to its [last_seq], and along every history a
    log only grows at its end. *)
Theorem log_append_only d d' s se :
  reachable sv d → steps d d' → db_sessions d !! s = Some se →
  (ev_seq <$> session_log d s) = seqZ 1 (se_last_seq se) ∧
  session_log d s `prefix_of` session_log d' s.
Proof.
  intros Hr Hst Hs. destruct (reachable_wf sv d Hr) as (Hg & _). split.
  - specialize (Hg s). rewrite Hs in Hg. apply Hg.
  - by apply (history_keeps sv log_grows d d' Hst).
Qed.

(** C4: committed steps.  Along every history no committed step is lost or
    rewritten, and no step index of a run is ever committed twice. *)
Theorem steps_commit_once d d' :
  reachable sv d → steps d d' →
  db_steps d `prefix_of` db_steps d' ∧
  ∀ j k s t, db_steps d' !! j = Some s → db_steps d' !! k = Some t →
    rs_run s = rs_run t → rs_step_index s = rs_step_index t → j = k.
Proof.
  intros Hr Hst. destruct (history_keeps sv steps_evolve d d' Hst) as [Hp _]. split; [done|].
  destruct (reachable_wf sv d' (reachable_step _ _ Hr Hst)) as (_ & _ & _ & _ & _ & _ & _ & Hnd).
  intros j k s t Hs Ht E1 E2. eapply (NoDup_lookup _ j k (step_key s) Hnd).
  - by rewrite list_lookup_fmap, Hs.
  - rewrite list_lookup_fmap, Ht. unfold step_key. simpl. by rewrite E1, E2.
Qed.

(** Session memory.  In every reachable database a session holds at most
    200 entries, each under a valid key and at most 64 KiB long, whoever wrote
    them: agents, users, or the cost accounting of a commit. *)
Theorem memory_bounded d s :
  reachable sv d →
  (Z.of_nat (length (memory_of d s)) ≤ 200)%Z ∧
  ∀ e, e ∈ memory_of d s → ValidMemoryKey (me_key e) = true ∧ (slen (me_value e) ≤ 65536)%Z.
Proof.
  intros Hr. destruct (reachable_wf sv d Hr) as (_ & _ & _ & [Hrow Hcap] & _). split; [apply Hcap|].
  intros e He. apply elem_of_bool_filter in He as [_ He]. apply elem_of_map_to_list_values in He as [k Hk].
  destruct (Hrow k e Hk) as (_ & ? & ?). done.
Qed.

(** Identity and tenancy.  A run belongs to a session of its own tenant,
    and along every history it keeps its session, tenant, parent, spawn key,
    policy, model and prompt. *)
Theorem run_identity d d' i r :
  reachable sv d → steps d d' → db_runs d !! i = Some r →
  (∃ s, db_sessions d !! ar_session r = Some s ∧ se_tenant s = ar_tenant r) ∧
  ∃ r', db_runs d' !! i = Some r' ∧ run_le r r'.
Proof.
  intros Hr Hst Hi. destruct (reachable_wf sv d Hr) as (_ & _ & _ & _ & Ht & _). split; [by eapply Ht|].
  destruct (run_history d d' i r Hr Hst Hi) as (r' & ? & ? & _). eauto.
Qed.

(** C6: the spawn tree.  In every reachable database a run has at most
    [MaxChildren] children, and every child is in its parent's tenant and
    session and under a policy that allows no tool, no resource kind and no
    child that its parent's policy does not. *)
Theorem spawn_tree_confined d c r p q :
  reachable sv d → db_runs d !! c = Some r → ar_parent r = Some p → db_runs d !! p = Some q →
  narrower (ar_policy r) (ar_policy q) ∧ ar_tenant r = ar_tenant q ∧ ar_session r = ar_session q ∧
  (Z.of_nat (length (children_of d (ar_tenant q) p)) ≤ Z.max 0 (MaxChildren (ar_policy q)))%Z.
Proof.
  intros Hr Hc Hp Hq. destruct (reachable_spawn_wf sv d Hr) as [Hcount Hpol].
  destruct (Hpol c r p q Hc Hp Hq) as (? & ? & ?). split_and!; [done..|by apply Hcount].
Qed.

End guarantees.

(** ** Witnesses *)

Lemma run_state_machine_witness :
  ∃ r', db_runs d_spawned !! "r1" = Some r' ∧ run_edge RunRunning (ar_state r').
Proof.
  apply (run_state_machine demo_service d_running d_spawned "r1" (row_of d_running "r1") running_reachable).
  - exists (OpSpawn "c1" (row_of d_running "r1") (parent_job 0) child_request). split; [|reflexivity].
    exists (row_of d_running "r1"). split; [by vm_compute|reflexivity].
  - by vm_compute.
Defined.

(** The child fails in [d_spawned]: a history to a failed run. *)
Definition d_failed : DB := run_ops [OpFail (child_job 0) FailureProviderError "boom"] d_spawned.
Lemma failed_steps : rtc demo_step d_spawned d_failed.
Proof. by apply run_ops_steps. Qed.

Lemma terminal_forever_witness :
  ∃ r', db_runs (run_ops [OpAnswerRun alice "c1" "hi"] d_failed) !! "c1" = Some r' ∧
    (ar_state r' = RunFailed ∨ ar_state r' = RunCancelled).
Proof.
  destruct (terminal_forever demo_service d_failed (run_ops [OpAnswerRun alice "c1" "hi"] d_failed) "c1"
    (row_of d_failed "c1")) as (r' & Hr' & _ & Hf).
  - unfold reachable. etrans; [apply spawned_reachable|apply failed_steps].
  - by apply run_ops_steps.
  - by vm_compute.
  - exists r'. split; [exact Hr'|]. apply Hf. by vm_compute.
Defined.

(** The child is asked to stop before its commit arrives. *)
Definition d_cancelling : DB := run_ops [OpCancelRun alice "c1"] d_parked.
Lemma cancelling_steps : rtc demo_step d_parked d_cancelling.
Proof. by apply run_ops_steps. Qed.

Lemma cancel_wins_witness :
  ∃ r', db_runs (run_ops demo_resume d_cancelling) !! "c1" = Some r' ∧ ar_cancel_requested_at r' = Some 0%Z ∧
    ar_state r' ≠ RunCompleted.
Proof.
  apply (cancel_wins demo_service d_cancelling (run_ops demo_resume d_cancelling) "c1" (row_of d_cancelling "c1") 0).
  - unfold reachable. etrans; [apply parked_reachable|apply cancelling_steps].
  - by apply run_ops_steps.
  - by vm_compute.
  - by vm_compute.
Defined.

Lemma waits_close_once_witness :
  is_open (wait_at d_parked) = true ∧
  ∃ w', db_waits d_resumed !! demo_wait_id = Some w' ∧ wait_le (wait_at d_parked) w'.
Proof.
  split; [by vm_compute|].
  refine (proj2 (waits_close_once demo_service d_parked d_resumed parked_reachable resumed_steps)
    demo_wait_id (wait_at d_parked) _). by vm_compute.
Defined.

Lemma log_append_only_witness :
  (ev_seq <$> session_log d_parked "s1") = seqZ 1 (se_last_seq (session_at d_parked)) ∧
  session_log d_parked "s1" `prefix_of` session_log d_resumed "s1".
Proof.
  apply (log_append_only demo_service d_parked d_resumed "s1" (session_at d_parked) parked_reachable resumed_steps).
  by vm_compute.
Defined.

Lemma steps_commit_once_witness :
  db_steps d_parked `prefix_of` db_steps d_resumed ∧ length (db_steps d_resumed) = 2%nat.
Proof.
  split; [|by vm_compute].
  exact (proj1 (steps_commit_once demo_service d_parked d_resumed parked_reachable resumed_steps)).
Defined.

Lemma memory_bounded_witness : (Z.of_nat (length (memory_of d_resumed "s1")) ≤ 200)%Z.
Proof. exact (proj1 (memory_bounded demo_service d_resumed "s1" resumed_reachable)). Defined.

Lemma run_identity_witness :
  ∃ r', db_runs d_resumed !! "c1" = Some r' ∧ run_le (row_of d_parked "c1") r'.
Proof.
  refine (proj2 (run_identity demo_service d_parked d_resumed "c1" (row_of d_parked "c1") parked_reachable
    resumed_steps _)). by vm_compute.
Defined.

Lemma spawn_tree_confined_witness :
  narrower (ar_policy (row_of d_resumed "c1")) (ar_policy (row_of d_resumed "r1")).
Proof.
  apply (spawn_tree_confined demo_service d_resumed "c1" (row_of d_resumed "c1") "r1" (row_of d_resumed "r1")
    resumed_reachable); by vm_compute.
Defined.

Lemma Work_is_steps_witness : rtc demo_step d_parked (Work demo_env (child_job 0) d_parked).1.
Proof.
  apply (Work_is_steps demo_service demo_env (child_job 0) d_parked).
  - split.
    + intros m e. repeat constructor; simpl; try done. intros d. by apply (run_ops_steps [OpCancelRun alice "r1"] d).
    + intros run a b c d. reflexivity.
  - destruct (reachable_wf demo_service d_parked parked_reachable) as (_ & Hw & _). exact Hw.
Defined.
