(* ===== verification/Redelivery.v ===== *)
(** * Redelivery: jobs arrive at least once

    The queue may deliver a step job twice, and a worker may die after any
    transaction.  A redelivered step that has committed changes nothing, a
    duplicate commit changes nothing, and a repeated spawn adopts the child of
    the first. *)
From S2P Require Import Prelude Policy Domain Text Store StoreRuns EventLog Loop Waits Batcher Tools Step Api.
From S2P Require Import ResourceStore OperatorTx ResourceWork Frames Invariants RunStates System WorkSteps Scenario.

(** The step of the job is committed. *)
Definition committed (d : DB) (job : StepJob_) : Prop :=
  ∃ s, s ∈ db_steps d ∧ rs_run s = sj_run job ∧ rs_step_index s = sj_step job.

(** The job's run is not asked to stop. *)
Definition not_cancelled (d : DB) (job : StepJob_) : Prop :=
  ∀ r, run_of d (sj_tenant job) (sj_run job) = Some r → ar_cancel_requested_at r = None.

Lemma existsb_elem {A} (f : A → bool) l x : x ∈ l → f x = true → existsb f l = true.
Proof. intros Hx Hf. apply existsb_exists. exists x. split; [by apply list_elem_of_In|done]. Qed.

(** What a stale delivery ends in. *)
Definition is_stale {A} (r : result A) : Prop := r = Err ErrStale ∨ r = Err ErrNotFound.

(** A transaction that ends stale leaves the store as it was. *)
Lemma txStale_stale {A} (fn : handle → M DB A) d :
  wp (fn TxBound) (λ r _, is_stale r) d → ∃ r, txStale fn d = (d, r) ∧ is_stale r.
Proof.
  unfold wp, is_stale, txStale. simpl. unfold atomically, attempt, mbind, M_bind.
  destruct (fn TxBound d) as [d' r]. simpl. intros [-> | ->]; simpl; eauto.
Qed.

Section redelivery.
Context `{Uuid} `{Durations} `{Fantasy} {W : Type} (sv : Service W).

Lemma claim_committed job d :
  keyed d → committed d job → not_cancelled d job → claim job d = (d, Err ErrStale).
Proof.
  intros Hk (s & Hs & Hrun & Hidx) Hnc. unfold claim.
  match goal with |- context [attempt (txStale ?f)] => set (fn := f) end.
  destruct (txStale_stale fn d) as (r & Htx & Hr).
  { unfold fn. apply wp_bind, wp_RunGetForUpdate; [intros run Hr|by right].
    destruct (_ && _); [by left|]. rewrite (Hnc run Hr), bool_decide_eq_false_2 by (intros [? ?]; done).
    apply wp_bind. unfold Steps. apply wp_bind, wp_get. rewrite (run_of_keyed _ _ _ _ Hk Hr), Hr. apply wp_ret.
    rewrite (existsb_elem _ _ s); [by left| |by apply bool_decide_eq_true].
    unfold order_by. rewrite merge_sort_Permutation. apply elem_of_bool_filter.
    split; [by apply bool_decide_eq_true|done]. }
  unfold mbind, M_bind, attempt. rewrite Htx. by destruct Hr as [-> | ->].
Qed.

Lemma InsertStep_committed job step d :
  committed d job → is_Some (run_of d (sj_tenant job) (sj_run job)) →
  rs_run step = sj_run job → rs_step_index step = sj_step job →
  InsertStep (sj_tenant job) step d = (d, Err ErrAlreadyExists).
Proof.
  intros (s & Hs & Hrun & Hidx) [r Hr] E1 E2. unfold InsertStep, mbind, M_bind, get. simpl. rewrite E1, Hr.
  rewrite (existsb_elem _ _ s Hs); [done|]. apply andb_true_iff. split; apply bool_decide_eq_true; congruence.
Qed.

Lemma commit_tx_committed clock job att encoded step content rec d :
  committed d job → not_cancelled d job →
  wp (commit_tx clock job att encoded step content rec TxBound) (λ r _, is_stale r) d.
Proof.
  intros Hc Hnc. unfold commit_tx. apply wp_bind, wp_RunGetForUpdate; [intros run Hr|by right].
  case_bool_decide; [|by left]. rewrite (Hnc run Hr), bool_decide_eq_false_2 by (intros [? ?]; done). cbn [negb].
  apply wp_bind, wp_run_exec; [intros r Hr'|by right]. simplify_eq.
  apply wp_bind, wp_attempt. unfold wp. rewrite (InsertStep_committed job); [by left|done| |done|done].
  apply run_of_Some in Hr as [_ Ht]. exists (upd_history encoded (db_now d) run).
  apply run_of_Some. split; [apply lookup_insert_eq|done].
Qed.

(** ** Spawning *)

Lemma spawn_key_row_found d t i r :
  runs_wf d → db_runs d !! i = Some r → ar_tenant r = t → ar_spawn_key r ≠ "" →
  spawn_key_row d t (ar_spawn_key r) = Some r.
Proof.
  intros (_ & Hu & _) Hr Ht Hne. unfold spawn_key_row.
  set (f := λ r0 : AgentRun, _). set (l := bool_filter f (rows (db_runs d))).
  assert (r ∈ l) as Hin.
  { apply elem_of_bool_filter. split; [|apply elem_of_map_to_list_values; eauto]. unfold f.
    by rewrite (bool_decide_eq_false_2 (ar_spawn_key r = "")), !bool_decide_eq_true_2. }
  destruct l as [|q l'] eqn:El; [set_solver|]. simpl.
  assert (q ∈ q :: l') as Hq by set_solver. rewrite <-El in Hq. apply elem_of_bool_filter in Hq as [Hf Hq].
  apply elem_of_map_to_list_values in Hq as [j Hj]. unfold f in Hf.
  apply andb_true_iff in Hf as [Hf H3]. apply andb_true_iff in Hf as [_ H2].
  apply bool_decide_eq_true in H2, H3. assert (i = j) as <- by (apply (Hu i j r q); congruence). congruence.
Qed.

Lemma spawn_key_row_is d t k r : spawn_key_row d t k = Some r → runs_wf d →
  db_runs d !! ar_id r = Some r ∧ ar_spawn_key r = k ∧ ar_tenant r = t.
Proof.
  unfold spawn_key_row. intros Hh (Hk & _). set (l := bool_filter _ _) in Hh.
  assert (r ∈ l) as Hin by (destruct l; [done|]; simplify_eq/=; set_solver).
  apply elem_of_bool_filter in Hin as [Hf Hq]. apply elem_of_map_to_list_values in Hq as [j Hj].
  apply andb_true_iff in Hf as [Hf H3]. apply andb_true_iff in Hf as [_ H2].
  apply bool_decide_eq_true in H2, H3. by rewrite (Hk j r Hj).
Qed.

Lemma spawnKey_nonempty p i c : spawnKey p i c ≠ "".
Proof. unfold spawnKey. destruct p; simpl; discriminate. Qed.

(** The child a spawn returns is the row of its key. *)
Definition is_spawned (d : DB) (run : AgentRun) (key : string) (c : RunID) : Prop :=
  ∃ r, db_runs d !! c = Some r ∧ ar_spawn_key r = key ∧ ar_tenant r = ar_tenant run.

Lemma is_spawned_keeps d d' run key c : runs_wf d → runs_evolve d d' → is_spawned d run key c → is_spawned d' run key c.
Proof.
  intros Hw Hev (r & Hr & Hk & Ht). destruct (Hev Hw) as [_ Hle]. destruct (Hle _ _ Hr) as (r' & Hr' & Hl).
  exists r'. split; [done|]. destruct Hl as (_ & _ & ? & _ & ? & _). split; congruence.
Qed.

Lemma wp_RunCreate t r (Q : result unit → DB → Prop) d :
  (∀ e, Q (Err e) d) →
  (∀ d', runs_evolve d d' → db_runs d' !! ar_id r = Some (run_row d t r) → Q (Ok ()) d') →
  wp (RunCreate t r) Q d.
Proof.
  intros HE HQ. unfold wp. pose proof (prim_RunCreate (R:=runs_evolve) t r d) as Hev. revert Hev.
  unfold RunCreate, mbind, M_bind, get. simpl. destruct (session_of _ _ _); [|intros; apply HE].
  destruct (_ || _); [intros; apply HE|].
  destruct (match ar_parent r with Some _ => _ | None => _ end); [intros; apply HE|]. simpl.
  intros Hev. apply HQ; [done|apply lookup_insert_eq].
Qed.

Lemma spawn_tx_spawned run jt js key child d :
  runs_wf d → ar_spawn_key child = key →
  wp (spawn_tx run jt js key child)
    (λ res d', match res with Ok (c, _) => is_spawned d' run key (ar_id c) | Err _ => True end) d.
Proof.
  intros Hw Hkey. unfold spawn_tx. apply (wp_atomically (S:=DB)), wp_bind, wp_RunGetForUpdate; [intros locked Hl|done].
  apply wp_bind. unfold CountChildren. apply wp_bind, wp_get, wp_ret. case_bool_decide; [done|].
  apply wp_bind, wp_attempt. unfold GetBySpawnKey. apply wp_bind, wp_get, wp_of_option.
  - intros c Hc. apply wp_ret. apply spawn_key_row_is in Hc as (? & ? & ?); [|done]. by exists c.
  - intros _. apply wp_bind, wp_RunCreate; [done|]. intros d1 Hev Hrow.
    assert (is_spawned d1 run key (ar_id child)) as Hsp by (by eexists).
    destruct (Hev Hw) as [Hw1 _].
    apply wp_bind. eapply (wp_keeps runs_evolve); [apply prim_Append|]. intros [seq|e] d2 Hev2; [|done].
    apply wp_bind. eapply (wp_keeps runs_evolve); [by apply (keeps_EnqueueInTx runs_evolve)|].
    intros [[]|e] d3 Hev3; [|done]. apply wp_ret. destruct (Hev2 Hw1) as [Hw2 _].
    apply (is_spawned_keeps d2 d3); [done..|]. by apply (is_spawned_keeps d1 d2).
Qed.

(** When a spawn succeeds its child is the row of the key; and its arguments
    pass the checks again. *)
Lemma spawnChild_spawned fresh run job req d d1 c b :
  runs_wf d → spawnChild fresh run job req d = (d1, Ok (c, b)) →
  is_spawned d1 run (spawnKey (ar_id run) (sj_step job) (sqToolCallID req)) (ar_id c).
Proof.
  intros Hw E. enough (wp (spawnChild fresh run job req) (λ res d', match res with
    | Ok (c, _) => is_spawned d' run (spawnKey (ar_id run) (sj_step job) (sqToolCallID req)) (ar_id c)
    | Err _ => True end) d) as Hwp.
  { unfold wp in Hwp. by rewrite E in Hwp. }
  clear E. unfold spawnChild. destruct (all_space _); [done|].
  apply wp_bind, wp_of_result. destruct (resolvePolicy _ _); [|done]. case_bool_decide; [done|].
  apply wp_bind, wp_attempt. unfold GetBySpawnKey. apply wp_bind, wp_get, wp_of_option.
  - intros q Hq. apply wp_ret. apply spawn_key_row_is in Hq as (? & ? & ?); [|done]. by exists q.
  - intros _. by apply spawn_tx_spawned.
Qed.

Lemma spawnChild_adopts fresh run job req d d1 c b d2 fresh' r :
  spawnChild fresh run job req d = (d1, Ok (c, b)) → runs_wf d2 →
  db_runs d2 !! ar_id c = Some r → ar_tenant r = ar_tenant run →
  ar_spawn_key r = spawnKey (ar_id run) (sj_step job) (sqToolCallID req) →
  spawnChild fresh' run job req d2 = (d2, Ok (r, true)).
Proof.
  unfold spawnChild. destruct (all_space _); [done|]. unfold mbind, M_bind, of_result.
  destruct (resolvePolicy _ _); [|done]. case_bool_decide; [done|]. intros _ Hw Hr Ht Hk.
  unfold attempt, GetBySpawnKey, mbind, M_bind, get, of_option. rewrite <-Hk.
  by rewrite (spawn_key_row_found d2 _ (ar_id c) r), Hk by (rewrite ?Hk; auto using spawnKey_nonempty).
Qed.

(** ** Properties *)

(** C12: a redelivered step.  When the step of a job has committed and its run
    is not asked to stop, running the job again, with any model and in any
    state of the run, changes nothing and succeeds. *)
Theorem redelivered_work_noop env job d :
  keyed d → committed d job → not_cancelled d job → Work env job d = (d, Ok ()).
Proof.
  intros Hk Hc Hnc. unfold Work, mbind, M_bind, attempt. by rewrite claim_committed.
Qed.

(** Two workers on one step.  A worker that finished a step another worker
    has committed meanwhile rolls its whole commit back: no history, event, job
    or state is written. *)
Theorem duplicate_commit_noop clock job att env result rec d :
  committed d job → not_cancelled d job → arSteps result ≠ [] →
  (commitOutcome clock job att env result rec d).1 = d.
Proof.
  intros Hc Hnc Hne. unfold commitOutcome. destruct (arSteps result) as [|step ?]; [done|].
  match goal with |- context [attempt (txStale ?f)] => set (fn := f) end.
  destruct (txStale_stale fn d) as (r & Htx & Hr); [by apply commit_tx_committed|].
  unfold mbind, M_bind, attempt. rewrite Htx. by destruct Hr as [-> | ->].
Qed.

(** C13: spawning is idempotent.  Once a spawn has returned a child, the same
    tool call of the same step, retried at any later point of any history and
    with any new id, returns that child as adopted and changes nothing. *)
Theorem spawn_idempotent fresh fresh' run job req d d1 d2 c b :
  reachable sv d → snapshot d run → spawnChild fresh run job req d = (d1, Ok (c, b)) →
  rtc (sys_step sv) d1 d2 →
  ∃ c', ar_id c' = ar_id c ∧ spawnChild fresh' run job req d2 = (d2, Ok (c', true)).
Proof.
  intros Hr Hsn E Hst. destruct (reachable_wf sv d Hr) as (_ & Hw & _).
  assert (sys_step sv d d1) as Hd1.
  { exists (OpSpawn fresh run job req). split; [done|]. simpl. by rewrite E. }
  destruct (sys_step_keeps sv runs_evolve d d1 Hd1 Hw) as [Hw1 _].
  pose proof (history_keeps sv runs_evolve d1 d2 Hst) as Hev. destruct (Hev Hw1) as [Hw2 _].
  pose proof (spawnChild_spawned _ _ _ _ _ _ _ _ Hw E) as Hsp.
  destruct (is_spawned_keeps _ _ _ _ _ Hw1 Hev Hsp) as (r & Hr2 & Hk & Ht).
  exists r. split; [by apply Hw2|]. by eapply spawnChild_adopts.
Qed.

End redelivery.

(** ** Witnesses *)

Lemma committed_demo : committed d_parked (parent_job 0).
Proof.
  exists (default (MkRunStep "" 0 0 0 0 "" 0) (head (db_steps d_parked))).
  split; [|by vm_compute]. by vm_compute; left.
Qed.
Lemma not_cancelled_demo : not_cancelled d_parked (parent_job 0).
Proof. intros r Hr. vm_compute in Hr. by simplify_eq. Qed.

Lemma redelivered_work_noop_witness : Work demo_env (parent_job 0) d_parked = (d_parked, Ok ()).
Proof.
  apply (redelivered_work_noop demo_env (parent_job 0) d_parked).
  - destruct (reachable_wf demo_service d_parked parked_reachable) as (_ & _ & _ & _ & _ & Hk & _). exact Hk.
  - apply committed_demo.
  - apply not_cancelled_demo.
Defined.

Lemma duplicate_commit_noop_witness :
  (commitOutcome 500 (parent_job 0) 2 (demo_envelope "hello") (one_step "stop" "again") new_recorder d_parked).1 =
  d_parked.
Proof.
  apply (duplicate_commit_noop 500 (parent_job 0) 2 (demo_envelope "hello") (one_step "stop" "again") new_recorder
    d_parked); [apply committed_demo|apply not_cancelled_demo|done].
Defined.

Lemma spawn_idempotent_witness :
  ∃ c', ar_id c' = "c1" ∧
    spawnChild "c2" (row_of d_running "r1") (parent_job 0) child_request d_spawned = (d_spawned, Ok (c', true)).
Proof.
  assert (spawnChild "c1" (row_of d_running "r1") (parent_job 0) child_request d_running =
    (d_spawned, Ok (child_row "c1" (row_of d_running "r1") (spawnKey "r1" 0 "call-0")
       (ar_policy (row_of d_running "r1")) child_request, false))) as E by (vm_compute; reflexivity).
  refine (spawn_idempotent demo_service "c1" "c2" (row_of d_running "r1") (parent_job 0) child_request d_running
    d_spawned d_spawned _ false running_reachable _ E (rtc_refl _ _)).
  exists (row_of d_running "r1"). split; [by vm_compute|reflexivity].
Defined.
