(* ===== verification/WaitSpec.v ===== *)
(** * What closing a wait does

    The functional behaviour of the wait machinery: the aggregate counts every
    member, a closing wait resumes its parent with exactly one job for a step
    that is not committed yet, a wait that was resumed stays quiet, and a
    deadline claims exactly the due waits. *)
From S2P Require Import Prelude Policy Domain Text Store StoreRuns EventLog Loop Waits Batcher Tools Step Api.
From S2P Require Import ResourceStore OperatorTx ResourceWork Frames Invariants RunStates System WorkSteps Scenario Redelivery.

(** ** The aggregate *)

(** The reference: the terminal members' results in member order. *)
Definition member_result (d : DB) (org : TenantID) (m : RunWaitMember) : option WaitMemberResult :=
  r ← run_of d org (wm_run m);
  if Terminal (ar_state r) then
    Some (MkWaitMemberResult (wm_ordinal m) (ar_id r) (ar_state r) (ar_result r) (ar_failure_reason r)
            (ar_failure_message r))
  else None.

(** The members whose run is in a state of [P]. *)
Definition members_in (d : DB) (org : TenantID) (P : RunState → bool) (ms : list RunWaitMember) : Z :=
  Z.of_nat (length (bool_filter (λ m, match run_of d org (wm_run m) with
                                      | Some r => P (ar_state r) | None => false end) ms)).

Definition is_state (st : RunState) (st' : RunState) : bool := bool_decide (st' = st).

(** The tally of [ms] added to [t]. *)
Definition tally_is (d : DB) (org : TenantID) (ms : list RunWaitMember) (t t' : tally) : Prop :=
  t_members t' = t_members t ++ omap (member_result d org) ms ∧
  t_completed t' = (t_completed t + members_in d org (is_state RunCompleted) ms)%Z ∧
  t_failed t' = (t_failed t + members_in d org (is_state RunFailed) ms)%Z ∧
  t_cancelled t' = (t_cancelled t + members_in d org (is_state RunCancelled) ms)%Z ∧
  t_pending t' = (t_pending t + members_in d org (λ st, negb (Terminal st)) ms)%Z.

Lemma members_in_cons d org P m ms r :
  run_of d org (wm_run m) = Some r →
  members_in d org P (m :: ms) = ((if P (ar_state r) then 1 else 0) + members_in d org P ms)%Z.
Proof.
  intros Hr. unfold members_in, bool_filter. rewrite filter_cons, Hr. destruct (P (ar_state r)); [|by case_decide].
  rewrite decide_True by done. cbn [length]. lia.
Qed.

Lemma members_in_sum d org ms :
  (∀ m, m ∈ ms → is_Some (run_of d org (wm_run m))) →
  (members_in d org (is_state RunCompleted) ms + members_in d org (is_state RunFailed) ms +
   members_in d org (is_state RunCancelled) ms + members_in d org (λ st, negb (Terminal st)) ms =
   Z.of_nat (length ms))%Z.
Proof.
  induction ms as [|m ms IH]; intros Hms; [done|]. destruct (Hms m) as [r Hr]; [left|].
  rewrite !(members_in_cons d org _ m ms r Hr), length_cons. specialize (IH (λ x Hx, Hms x (list_elem_of_further _ _ _ Hx))).
  unfold is_state in *. destruct (ar_state r); cbn [Terminal negb]; repeat (case_bool_decide; try done); lia.
Qed.

Lemma tally_fold d org ms t :
  (∀ m, m ∈ ms → is_Some (run_of d org (wm_run m))) →
  ∃ t', foldM (λ t m, child ← RunGet org (wm_run m); mret (tally_member t m child)) ms t d = (d, Ok t') ∧
        tally_is d org ms t t'.
Proof.
  revert t. induction ms as [|m ms IH]; intros t Hms.
  { exists t. split; [done|]. unfold tally_is, members_in. cbn. rewrite app_nil_r. split_and!; try lia; done. }
  destruct (Hms m) as [r Hr]; [left|].
  destruct (IH (tally_member t m r)) as (t' & Hf & Ht'); [intros x Hx; apply Hms; by right|].
  exists t'. split.
  - cbn [foldM]. unfold mbind at 1, M_bind at 1, RunGet, mbind, M_bind, get, of_option. rewrite Hr. exact Hf.
  - destruct Ht' as (E1 & E2 & E3 & E4 & E5). unfold tally_is.
    rewrite E1, E2, E3, E4, E5, !(members_in_cons d org _ m ms r Hr).
    cbn [omap list_omap]. unfold member_result at 2. rewrite Hr. cbn [mbind option_bind]. unfold tally_member.
    unfold is_state. destruct (ar_state r) eqn:Es; cbn [Terminal negb]; repeat (case_bool_decide; try done);
      cbn [t_members t_completed t_failed t_cancelled t_pending mbind option_bind];
      rewrite <-?app_assoc; split_and!; try lia; done.
Qed.

(** ** The next step *)

Lemma next_step_fold steps n :
  let m := foldl (λ next s, if bool_decide (next ≤ rs_step_index s)%Z then (rs_step_index s + 1)%Z else next) n steps in
  (n ≤ m)%Z ∧ ∀ s, s ∈ steps → (rs_step_index s < m)%Z.
Proof.
  revert n. induction steps as [|s steps IH]; intros n; simpl; [split; [lia|set_solver]|].
  specialize (IH (if bool_decide (n ≤ rs_step_index s)%Z then (rs_step_index s + 1)%Z else n)).
  simpl in IH. destruct IH as [IH1 IH2]. split.
  - case_bool_decide; lia.
  - intros x [->|Hx]%elem_of_cons; [case_bool_decide; lia|by apply IH2].
Qed.

Lemma next_step_fresh steps s : s ∈ steps → (rs_step_index s < next_step steps)%Z.
Proof. apply next_step_fold. Qed.

(** ** Store calls *)

Lemma wp_WaitGetForUpdate t i (Q : result RunWait → DB → Prop) d :
  (∀ w, wait_of d t i = Some w → Q (Ok w) d) → (wait_of d t i = None → Q (Err ErrNotFound) d) →
  wp (WaitGetForUpdate t i) Q d.
Proof.
  intros H1 H2. unfold wp, WaitGetForUpdate, mbind, M_bind, get. simpl.
  destruct (wait_of d t i) eqn:E; [by apply H1|by apply H2].
Qed.

Lemma wp_MarkResumed t i w (Q : result bool → DB → Prop) d :
  wait_of d t i = Some w →
  (rw_resumed_at w = None → Q (Ok true) (with_waits (<[i := upd_wait_resumed (db_now d) w]> (db_waits d)) d)) →
  (is_Some (rw_resumed_at w) → Q (Ok false) d) → wp (MarkResumed t i) Q d.
Proof.
  intros Hw H1 H2. unfold wp, MarkResumed, mbind, M_bind, get. simpl. rewrite Hw.
  destruct (rw_resumed_at w) eqn:E; [apply H2; eauto|by apply H1].
Qed.

Lemma wp_Steps t i r (Q : result (list RunStep) → DB → Prop) d :
  run_of d t i = Some r → Q (Ok (order_by rs_step_index (steps_of d i))) d → wp (Steps t i) Q d.
Proof. intros Hr HQ. unfold wp, Steps, mbind, M_bind, get. simpl. by rewrite Hr. Qed.

Lemma wp_Append_tx t s e (Q : result Z → DB → Prop) d :
  (∀ er d', Q (Err er) d') →
  (∀ se, session_of d t s = Some se → Q (Ok (se_last_seq se + 1)%Z) (appended d s se e)) →
  wp (Append TxBound t s e) Q d.
Proof.
  intros HE HQ. unfold wp, Append, Tx, append_body, mbind, M_bind, get. simpl.
  destruct (session_of d t s) as [se|]; [|apply HE]. case_bool_decide; [apply HE|]. simpl.
  case_match; [apply HE|]. simpl. by apply HQ.
Qed.

(** ** Resuming *)

(** The database after [org]'s run [parent] was resumed with [history] by the
    wait [wait]: one row, one event, one job. *)
Record resumed_with (d d' : DB) (org : TenantID) (parent : AgentRun) (wait : RunWait) (outcome : WaitOutcome)
    (raw : json) : Prop := {
  rsm_live : Terminal (ar_state parent) = false;
  rsm_run : ∃ history, appendWaitResult (ar_history parent) wait outcome raw = Ok history ∧
    db_runs d' = <[ar_id parent := upd_state RunRunning "" "" (db_now d)
                     (upd_history history (db_now d) parent)]> (db_runs d);
  rsm_event : ∃ seq, db_events d' = db_events d ++
    [event_row d (ar_session parent) seq
       (NewEvent ActorSystem EventKindToolResult
          (ToolResultPayload (ar_id parent) (rw_step_index wait) (rw_tool_call_id wait)
             (waitToolName (rw_kind wait)) (ContentJSON raw) (outcome_is_error wait outcome)))];
  rsm_job : ∃ n, db_jobs d' = db_jobs d ++
      [MkQueuedJob (StepJob (ar_id parent) (ar_tenant parent) (ar_session parent) n) None] ∧
    ∀ s, s ∈ db_steps d → rs_run s = ar_id parent → (rs_step_index s < n)%Z;
  rsm_steps : db_steps d' = db_steps d;
}.

Lemma resumeParent_effect org wait w0 outcome raw d :
  keyed d → wait_of d org (rw_id wait) = Some w0 →
  wp (resumeParent TxBound org wait outcome raw) (λ res d', res = Ok true →
    rw_resumed_at w0 = None ∧
    db_waits d' = <[rw_id wait := upd_wait_resumed (db_now d) w0]> (db_waits d) ∧
    ∃ parent, run_of d org (rw_parent wait) = Some parent ∧ resumed_with d d' org parent wait outcome raw) d.
Proof.
  intros Hk Hw. unfold resumeParent. apply wp_bind, (wp_MarkResumed _ _ w0); [done| |intros _; by apply wp_ret].
  intros Hnone. cbn [negb]. apply wp_bind, wp_RunGetForUpdate; [intros parent Hp|done].
  change (run_of d org (rw_parent wait) = Some parent) in Hp.
  destruct (Terminal (ar_state parent)) eqn:Ht; [by apply wp_ret|].
  pose proof (run_of_keyed _ _ _ _ Hk Hp) as Hid. pose proof Hp as [Hrow Hten]%run_of_Some.
  apply wp_bind, wp_of_result. destruct (appendWaitResult _ _ _ _) as [history|e] eqn:Hh; [|done].
  apply wp_bind, wp_run_exec; [intros r Hr|done]. rewrite Hid in *. change (run_of d org (rw_parent wait) = Some r) in Hr.
  rewrite Hp in Hr. injection Hr as <-. apply wp_bind, wp_run_exec; [intros r Hr|done].
  apply run_of_Some in Hr as [Hr _]. simpl in Hr. rewrite lookup_insert_eq in Hr. simplify_eq.
  apply wp_bind, wp_Append_tx; [done|]. intros se _.
  apply wp_bind, (wp_Steps _ _ (upd_state RunRunning "" "" (db_now d) (upd_history history (db_now d) parent))).
  { apply run_of_Some. simpl. by rewrite lookup_insert_eq. }
  apply wp_bind, wp_modify, wp_ret. intros _. split_and!; [done..|]. exists parent. split; [done|]. split; rewrite ?Hid.
  - done.
  - exists history. split; [done|]. simpl. by rewrite insert_insert_eq.
  - by exists (se_last_seq se + 1)%Z.
  - eexists. split; [reflexivity|]. intros s Hs Hrun. apply next_step_fresh. unfold order_by.
    rewrite merge_sort_Permutation. apply elem_of_bool_filter. split; [by apply bool_decide_eq_true|done].
  - done.
Qed.

Lemma wait_of_keyed d t i w : waits_keyed d → wait_of d t i = Some w → rw_id w = i.
Proof. intros Hk Hw. apply Hk. by eapply wait_of_Some. Qed.

Lemma wait_of_put d t i w w' :
  wait_of d t i = Some w → rw_parent w' = rw_parent w →
  wait_of (with_waits (<[i := w']> (db_waits d)) d) t i = Some w'.
Proof.
  unfold wait_of. destruct (db_waits d !! i) as [v|] eqn:E; simpl; [|done].
  destruct (run_of d t (rw_parent v)) eqn:Er; simpl; [|done]. intros [= ->] Hp.
  rewrite lookup_insert_eq. simpl. rewrite Hp. change (run_of (with_waits _ d)) with (run_of d). by rewrite Er.
Qed.

Lemma keeps_tally (R : relation DB) `{!PreOrder R} org ms : keeps R (tally_members org ms).
Proof. unfold tally_members. solve_handler. Qed.
#[local] Hint Resolve keeps_tally : keeps.

Lemma resumed_waits d1 d d' org parent wait outcome raw x :
  d1 = with_waits x d → resumed_with d1 d' org parent wait outcome raw → resumed_with d d' org parent wait outcome raw.
Proof. intros -> []. by constructor. Qed.

Lemma tryCloseWait_effect org id reason d :
  keyed d → waits_keyed d →
  wp (tryCloseWait TxBound org id reason) (λ res d', res = Ok true →
    ∃ wait t parent w',
      wait_of d org id = Some wait ∧ rw_resumed_at wait = None ∧
      tally_members org (order_by wm_ordinal (bool_filter (λ m, bool_decide (wm_wait m = id)) (db_members d))) d = (d, Ok t) ∧
      (reason = closeReasonChild → (t_pending t ≤ 0)%Z) ∧
      run_of d org (rw_parent wait) = Some parent ∧
      resumed_with d d' org parent wait (wait_outcome id wait reason t) (marshal_outcome (wait_outcome id wait reason t)) ∧
      db_waits d' = <[id := w']> (db_waits d) ∧ is_Some (rw_resumed_at w') ∧ is_open w' = false) d.
Proof.
  intros Hk Hwk. unfold tryCloseWait. apply wp_bind, wp_attempt, wp_WaitGetForUpdate; [intros wait Hw|intros _; by apply wp_ret].
  pose proof (wait_of_keyed _ _ _ _ Hwk Hw) as Hid.
  apply wp_bind. unfold Members. apply wp_bind, wp_get, wp_ret.
  set (ms := order_by _ _). apply wp_bind. unfold wp at 1. pose proof (keeps_tally eq org ms d) as Heq.
  destruct (tally_members org ms d) as [d0 [t|e]] eqn:Et; simpl in Heq; subst d0; simpl; [|done].
  destruct (_ && _) eqn:Hpend; [by apply wp_ret|].
  assert (reason = closeReasonChild → (t_pending t ≤ 0)%Z) as Hdone.
  { intros ->. apply andb_false_iff in Hpend as [Hp|Hp]; [|done]. apply bool_decide_eq_false in Hp. lia. }
  set (o := wait_outcome id wait reason t). set (raw := marshal_outcome o).
  destruct (is_open wait) eqn:Ho.
  - apply wp_bind. unfold WaitClose. apply wp_bind, wp_get. rewrite Hw, Ho. apply wp_bind, wp_put, wp_ret. cbn [negb].
    set (w1 := upd_wait_result _ _). eapply wp_mono.
    { apply (resumeParent_effect _ _ w1); [done|]. rewrite Hid. by apply (wait_of_put _ _ _ wait). }
    intros res d' Hres ->. destruct (Hres eq_refl) as (Hn & Hwaits & parent & Hp & Hr).
    exists wait, t, parent, (upd_wait_resumed (db_now d) w1). split_and!; try done.
    + by eapply resumed_waits.
    + rewrite Hwaits, Hid. simpl. by rewrite insert_insert_eq.
    + unfold is_open, w1. simpl. unfold o, wait_outcome. simpl. case_match; by rewrite bool_decide_eq_false_2.
  - apply wp_bind. unfold WaitSetResult. apply wp_bind, wp_get. rewrite Hw. apply wp_put.
    set (w1 := upd_wait_result _ _). eapply wp_mono.
    { apply (resumeParent_effect _ _ w1); [done|]. rewrite Hid. by apply (wait_of_put _ _ _ wait). }
    intros res d' Hres ->. destruct (Hres eq_refl) as (Hn & Hwaits & parent & Hp & Hr).
    exists wait, t, parent, (upd_wait_resumed (db_now d) w1). split_and!; try done.
    + by eapply resumed_waits.
    + rewrite Hwaits, Hid. simpl. by rewrite insert_insert_eq.
Qed.

(** ** A resumed wait stays quiet *)

(** Only waits may have changed. *)
Definition waits_only : relation DB := λ d d',
  db_runs d' = db_runs d ∧ db_jobs d' = db_jobs d ∧ db_events d' = db_events d ∧ db_steps d' = db_steps d.

Lemma resumeParent_quiet org wait w0 outcome raw d :
  wait_of d org (rw_id wait) = Some w0 → is_Some (rw_resumed_at w0) →
  resumeParent TxBound org wait outcome raw d = (d, Ok false).
Proof.
  intros Hw [t Ht]. unfold resumeParent, MarkResumed, mbind, M_bind, get. cbn. rewrite Hw, Ht. done.
Qed.

Lemma tryCloseWait_quiet org id reason d w :
  waits_keyed d → wait_of d org id = Some w → is_Some (rw_resumed_at w) →
  wp (tryCloseWait TxBound org id reason) (λ res d', res ≠ Ok true ∧ waits_only d d') d.
Proof.
  intros Hwk Hw Hr. unfold tryCloseWait. apply wp_bind, wp_attempt, wp_WaitGetForUpdate; [|congruence].
  intros wait Hw'. assert (wait = w) as -> by congruence. pose proof (wait_of_keyed _ _ _ _ Hwk Hw) as Hid.
  apply wp_bind. unfold Members. apply wp_bind, wp_get, wp_ret. set (ms := order_by _ _).
  apply wp_bind. unfold wp at 1. pose proof (keeps_tally eq org ms d) as Heq.
  destruct (tally_members org ms d) as [d0 [t|e]]; simpl in Heq; subst d0; simpl; [|done].
  destruct (_ && _); [by apply wp_ret|].
  assert (∀ raw x, rw_parent x = rw_parent w → rw_resumed_at x = rw_resumed_at w →
    wp (resumeParent TxBound org w (wait_outcome id w reason t) raw) (λ res d', res ≠ Ok true ∧ waits_only d d')
      (with_waits (<[id := x]> (db_waits d)) d)) as Hq.
  { intros raw x Hp Hx. unfold wp. rewrite (resumeParent_quiet _ _ x); [done| |by rewrite Hx].
    rewrite Hid. by apply (wait_of_put _ _ _ w). }
  destruct (is_open w) eqn:Ho.
  - apply wp_bind. unfold WaitClose. apply wp_bind, wp_get. rewrite Hw, Ho. apply wp_bind, wp_put, wp_ret. by apply Hq.
  - apply wp_bind. unfold WaitSetResult. apply wp_bind, wp_get. rewrite Hw. apply wp_put. by apply Hq.
Qed.

(** ** Deadlines *)

Lemma NoDup_due d t n l : waits_keyed d → NoDup (rw_id <$> due_waits d t n l).
Proof.
  intros Hk. unfold due_waits, order_by. rewrite fmap_take. eapply sublist_NoDup; [|apply sublist_take].
  rewrite merge_sort_Permutation. unfold bool_filter.
  eapply sublist_NoDup; [|apply fmap_sublist, sublist_filter].
  unfold rows. rewrite <-list_fmap_compose. rewrite (list_fmap_ext _ fst (map_to_list (db_waits d))).
  - apply NoDup_fst_map_to_list.
  - intros i [k w] Hi. simpl. apply Hk. apply elem_of_map_to_list. by eapply list_elem_of_lookup_2.
Qed.

Lemma foldr_claim_in (ws : list RunWait) (m : gmap string RunWait) w :
  NoDup (rw_id <$> ws) → w ∈ ws → foldr (λ w m, <[rw_id w := w]> m) m ws !! rw_id w = Some w.
Proof.
  induction ws as [|v ws IH]; intros Hnd Hw; [set_solver|]. simpl in *. apply NoDup_cons in Hnd as [Hv Hnd].
  apply elem_of_cons in Hw as [->|Hw]; [apply lookup_insert_eq|].
  rewrite lookup_insert_ne; [by apply IH|]. intros E. apply Hv. rewrite E. by apply list_elem_of_fmap_2.
Qed.

Lemma foldr_claim_out (ws : list RunWait) (m : gmap string RunWait) i :
  (∀ w, w ∈ ws → rw_id w ≠ i) → foldr (λ w m, <[rw_id w := w]> m) m ws !! i = m !! i.
Proof.
  induction ws as [|v ws IH]; intros Hw; [done|]. simpl. rewrite lookup_insert_ne by (apply Hw; left).
  apply IH. intros w ?. apply Hw. by right.
Qed.

(** When fewer waits than the limit are due, all of them are taken. *)
Lemma due_waits_all d t n l i w :
  (Z.of_nat (length (due_waits d t n l)) < l)%Z → wait_of d t i = Some w → is_open w = true → (rw_deadline w ≤ n)%Z →
  w ∈ due_waits d t n l.
Proof.
  unfold due_waits. set (f := bool_filter _ _). intros Hlen Hw Ho Hd. rewrite length_take in Hlen.
  rewrite take_ge by lia. unfold order_by. rewrite merge_sort_Permutation. apply elem_of_bool_filter.
  pose proof (wait_of_Some _ _ _ _ Hw) as Hrow. split.
  - rewrite Ho, (bool_decide_eq_true_2 (_ ≤ _)%Z) by done. rewrite bool_decide_eq_false_2; [done|].
    unfold wait_of in Hw. rewrite Hrow in Hw. simpl in Hw. by destruct (run_of d t (rw_parent w)).
  - apply elem_of_map_to_list_values. eauto.
Qed.

Lemma claimed_none_due d t n l i w :
  waits_keyed d → (Z.of_nat (length (due_waits d t n l)) < l)%Z →
  wait_of (ClaimDue t n l d).1 t i = Some w → is_open w = true → (n < rw_deadline w)%Z.
Proof.
  intros Hk Hlen Hw Ho. destruct (decide (rw_deadline w ≤ n)%Z) as [Hd|]; [exfalso|lia].
  pose proof (wait_of_Some _ _ _ _ Hw) as Hrow. unfold ClaimDue, mbind, M_bind, get in Hrow. simpl in Hrow.
  apply foldr_claim_lookup in Hrow as [[Hin _]|Hrow'].
  { apply list_elem_of_fmap in Hin as (v & -> & _). done. }
  assert (wait_of d t i = Some w) as Hw0.
  { unfold wait_of in Hw |- *. rewrite Hrow'. simpl. rewrite (wait_of_Some _ _ _ _ Hw) in Hw. simpl in Hw. exact Hw. }
  pose proof (due_waits_all _ _ _ _ _ _ Hlen Hw0 Ho Hd) as Hdue.
  pose proof (wait_of_Some _ _ _ _ Hw) as Hrow2. unfold ClaimDue, mbind, M_bind, get in Hrow2. simpl in Hrow2.
  assert (upd_wait_state WaitTimedOut w ∈ upd_wait_state WaitTimedOut <$> due_waits d t n l) as Hin
    by (by apply list_elem_of_fmap_2).
  apply (foldr_claim_in _ (db_waits d)) in Hin.
  - simpl in Hin. rewrite (Hk i w Hrow'), Hrow2 in Hin. injection Hin as E. rewrite E in Ho. done.
  - rewrite <-list_fmap_compose. by apply NoDup_due.
Qed.

(** No wait opens and no run appears. *)
Definition opens_none : relation DB := λ d d',
  (∀ i w', db_waits d' !! i = Some w' → is_open w' = true →
     ∃ w, db_waits d !! i = Some w ∧ is_open w = true ∧ rw_parent w = rw_parent w' ∧ rw_deadline w = rw_deadline w') ∧
  (∀ i r', db_runs d' !! i = Some r' → ∃ r, db_runs d !! i = Some r ∧ ar_tenant r = ar_tenant r').
#[export] Instance opens_none_pre : PreOrder opens_none.
Proof.
  split; [split; eauto|]. intros a b c [H1 H2] [H3 H4]. split.
  - intros i w Hw Ho. destruct (H3 i w Hw Ho) as (v & Hv & Hov & ? & ?). destruct (H1 i v Hv Hov) as (u & ? & ? & ? & ?).
    exists u. split_and!; congruence.
  - intros i r Hr. destruct (H4 i r Hr) as (q & Hq & ?). destruct (H2 i q Hq) as (p & ? & ?). exists p.
    split; congruence.
Qed.

Lemma opens_none_frame d d' : db_waits d' = db_waits d → db_runs d' = db_runs d → opens_none d d'.
Proof. intros E1 E2. split; rewrite ?E1, ?E2; eauto. Qed.
#[local] Instance opens_none_log : Ignores touches_log opens_none.
Proof. intros d d' (x & y & ->). by apply opens_none_frame. Qed.
#[local] Instance opens_none_steps : Ignores touches_steps opens_none.
Proof. intros d d' [x ->]. by apply opens_none_frame. Qed.

Lemma opens_none_wait d t i w w' :
  wait_of d t i = Some w → rw_parent w' = rw_parent w → rw_deadline w' = rw_deadline w →
  (is_open w' = true → is_open w = true) → opens_none d (with_waits (<[i := w']> (db_waits d)) d).
Proof.
  intros Hw%wait_of_Some Hp Hd Ho. split; [|eauto]. intros j v. simpl. rewrite lookup_insert. case_decide; [|eauto].
  intros [= <-] Hov. subst. exists w. auto.
Qed.

Lemma opens_none_exec t i f : (∀ n r, ar_tenant (f n r) = ar_tenant r) → keeps opens_none (run_exec t i f).
Proof.
  intros Hf d. unfold run_exec. run_method; [|reflexivity]. apply run_of_Some in H as [H _]. split; [eauto|].
  intros j r. simpl. rewrite lookup_insert. case_decide; [|eauto]. intros [= <-]. subst. eauto.
Qed.

Lemma opens_none_WaitClose t i st j : st ≠ WaitOpen → keeps opens_none (WaitClose t i st j).
Proof.
  intros Hst d. unfold WaitClose. run_method; try reflexivity. by eapply opens_none_wait.
Qed.
Lemma opens_none_WaitSetResult t i j : keeps opens_none (WaitSetResult t i j).
Proof. intros d. unfold WaitSetResult. run_method; try reflexivity. by eapply opens_none_wait. Qed.
Lemma opens_none_MarkResumed t i : keeps opens_none (MarkResumed t i).
Proof. intros d. unfold MarkResumed. run_method; try reflexivity. by eapply opens_none_wait. Qed.
Lemma opens_none_Append h t s e : keeps opens_none (Append h t s e).
Proof. ignored. Qed.
Lemma opens_none_Enqueue h j t : keeps opens_none (EnqueueInTx h j t).
Proof. destruct h; intros d; by apply opens_none_frame. Qed.
Lemma opens_none_SetHistory t i h : keeps opens_none (SetHistory t i h).
Proof. by apply opens_none_exec. Qed.
Lemma opens_none_SetState t i st m n : keeps opens_none (SetState t i st m n).
Proof. by apply opens_none_exec. Qed.
#[local] Hint Resolve opens_none_WaitSetResult opens_none_MarkResumed opens_none_Append opens_none_Enqueue
  opens_none_SetHistory opens_none_SetState : keeps.

Lemma opens_none_resumeParent h org w o j : keeps opens_none (resumeParent h org w o j).
Proof. unfold resumeParent. solve_handler. Qed.
#[local] Hint Resolve opens_none_resumeParent : keeps.

Lemma opens_none_tryCloseWait h org id reason : keeps opens_none (tryCloseWait h org id reason).
Proof.
  unfold tryCloseWait. apply keeps_bind; [apply _|solve_handler|]. intros got. destruct got as [w|[]]; try solve_handler.
  apply opens_none_WaitClose. unfold wait_outcome. simpl. by case_match.
Qed.
#[local] Hint Resolve opens_none_tryCloseWait : keeps.

Lemma opens_none_sweep_loop org due : keeps opens_none (sweep_loop org due).
Proof. induction due as [|w due IH]; simpl; solve_handler. Qed.

Lemma opens_none_wait_of d d' t i w' :
  opens_none d d' → wait_of d' t i = Some w' → is_open w' = true →
  ∃ w, wait_of d t i = Some w ∧ is_open w = true ∧ rw_deadline w = rw_deadline w'.
Proof.
  intros [Hw Hr] Hw' Ho. pose proof (wait_of_Some _ _ _ _ Hw') as Hrow.
  destruct (Hw i w' Hrow Ho) as (w & Hw0 & Hop & Hp & Hd). exists w. split_and!; [|done..].
  unfold wait_of in *. rewrite Hrow in Hw'. rewrite Hw0. simpl in *. rewrite Hp.
  destruct (run_of d' t (rw_parent w')) as [r'|] eqn:E; simpl in Hw'; [|done].
  apply run_of_Some in E as [E1 E2]. destruct (Hr _ _ E1) as (r & Hr0 & Ht).
  assert (run_of d t (rw_parent w') = Some r) as -> by (apply run_of_Some; split; congruence). done.
Qed.

(** ** Properties *)

(** The aggregate of a wait.  Over members whose runs exist, the tally
    holds the result of every terminal member in member order and nothing else,
    the counts are those of the states, and they add up to the members. *)
Theorem wait_tally_exact org ms d :
  (∀ m, m ∈ ms → is_Some (run_of d org (wm_run m))) →
  ∃ t, tally_members org ms d = (d, Ok t) ∧
    t_members t = omap (member_result d org) ms ∧
    t_completed t = members_in d org (is_state RunCompleted) ms ∧
    t_failed t = members_in d org (is_state RunFailed) ms ∧
    t_cancelled t = members_in d org (is_state RunCancelled) ms ∧
    t_pending t = members_in d org (λ st, negb (Terminal st)) ms ∧
    (t_completed t + t_failed t + t_cancelled t + t_pending t = Z.of_nat (length ms))%Z.
Proof.
  intros Hms. destruct (tally_fold d org ms empty_tally Hms) as (t & Ht & (E1 & E2 & E3 & E4 & E5)).
  pose proof (members_in_sum d org ms Hms). exists t. simpl in *. split_and!; [done..|]. lia.
Qed.

(** C11: closing a wait resumes its parent.  When [tryCloseWait] reports a
    resume, the wait had not been resumed before; a wait that closes because a
    child ended has no member left running; and the database gains exactly: the
    closed and resumed wait, the parent set running with the aggregate as the
    result of its tool call at the end of its history, one [tool_result] event,
    and one job, for a step index above every committed step of the parent. *)
Theorem close_wait_resumes org id reason d d' :
  keyed d → waits_keyed d → tryCloseWait TxBound org id reason d = (d', Ok true) →
  ∃ wait t parent w',
    wait_of d org id = Some wait ∧ rw_resumed_at wait = None ∧
    tally_members org (order_by wm_ordinal (bool_filter (λ m, bool_decide (wm_wait m = id)) (db_members d))) d = (d, Ok t) ∧
    (reason = closeReasonChild → (t_pending t ≤ 0)%Z) ∧
    run_of d org (rw_parent wait) = Some parent ∧
    resumed_with d d' org parent wait (wait_outcome id wait reason t) (marshal_outcome (wait_outcome id wait reason t)) ∧
    db_waits d' = <[id := w']> (db_waits d) ∧ is_Some (rw_resumed_at w') ∧ is_open w' = false.
Proof.
  intros Hk Hwk E. pose proof (tryCloseWait_effect org id reason d Hk Hwk) as Hwp. unfold wp in Hwp.
  rewrite E in Hwp. by apply Hwp.
Qed.

Section histories.
Context `{Uuid} `{Durations} `{Fantasy} {W : Type} (sv : Service W).

(** A parent is resumed once.  Once a wait has been resumed, no later
    attempt to close it, at any point of any history and for any reason, resumes
    the parent again, changes a run, or writes a job or an event. *)
Theorem resumed_once org id reason d d1 d' res w :
  reachable sv d → db_waits d !! id = Some w → is_Some (rw_resumed_at w) → rtc (sys_step sv) d d1 →
  tryCloseWait TxBound org id reason d1 = (d', res) → res ≠ Ok true ∧ waits_only d1 d'.
Proof.
  intros Hr Hw [t Ht] Hst E. destruct (reachable_wf sv d Hr) as (_ & _ & Hwf & _).
  destruct (history_keeps sv waits_evolve d d1 Hst Hwf) as [[Hwk _] Hle].
  destruct (Hle id w Hw) as (w1 & Hw1 & Hwle).
  destruct (wait_of d1 org id) as [w2|] eqn:Hof.
  - assert (w2 = w1) as -> by (apply wait_of_Some in Hof; congruence).
    assert (is_Some (rw_resumed_at w1)) as Hrs by (exists t; by apply Hwle).
    pose proof (tryCloseWait_quiet org id reason d1 w1 Hwk Hof Hrs) as Hq. unfold wp in Hq. by rewrite E in Hq.
  - unfold tryCloseWait, mbind, M_bind, attempt, WaitGetForUpdate, mbind, M_bind, get, of_option in E.
    rewrite Hof in E. injection E as <- <-. by repeat split.
Qed.

(** The deadline sweep leaves nothing behind.  After a successful sweep no
    wait of the tenant that was due at the sweep's clock is open, unless the
    sweep queued another one. *)
Theorem sweep_exhaustive s clock org d d' :
  reachable sv d → Sweep s clock org d = (d', Ok ()) →
  (∃ rest at_, db_jobs d' = rest ++ [MkQueuedJob (WaitTimeoutJob org) (Some at_)]) ∨
  ∀ i w, wait_of d' org i = Some w → is_open w = true → (clock < rw_deadline w)%Z.
Proof.
  intros Hr. destruct (reachable_wf sv d Hr) as (_ & _ & [Hwk _] & _). unfold Sweep.
  unfold mbind at 1, M_bind at 1. cbn [Tx]. unfold atomically.
  destruct (ClaimDue org clock (batch s) d) as [d1 [due|e]] eqn:Ec; [|done].
  unfold mbind at 1, M_bind at 1. pose proof (opens_none_sweep_loop org due d1) as Hopen.
  destruct (sweep_loop org due d1) as [d2 [failed|e]]; [|done]. simpl in Hopen.
  assert (rearm s clock org d2 = (d', Ok ()) → ∃ rest at_, db_jobs d' = rest ++ [MkQueuedJob (WaitTimeoutJob org) (Some at_)]) as Hre.
  { unfold rearm, Tx, atomically, EnqueueInTx, modify. intros [= <-]. by eexists _, _. }
  destruct failed; [by left; apply Hre|]. case_bool_decide as Hlen; [by left; apply Hre|].
  intros [= <-]. right. intros i w Hw Ho.
  destruct (opens_none_wait_of _ _ _ _ _ Hopen Hw Ho) as (w1 & Hw1 & Ho1 & <-).
  assert (due = upd_wait_state WaitTimedOut <$> due_waits d org clock (batch s)) as ->
    by (injection Ec as _ E; by rewrite E).
  replace d1 with (ClaimDue org clock (batch s) d).1 in Hw1 by (by rewrite Ec).
  eapply claimed_none_due; [done| |exact Hw1|done]. rewrite length_fmap in Hlen.
  assert (0 < batch s)%Z by (unfold batch; case_bool_decide; lia).
  assert (length (due_waits d org clock (batch s)) ≤ Z.to_nat (batch s))%nat
    by (unfold due_waits; rewrite length_take; lia). lia.
Qed.

End histories.

(** ** Witnesses *)

Definition demo_members : list RunWaitMember := wait_members demo_wait_id ["c1"].

Lemma wait_tally_exact_witness :
  ∃ t, tally_members "acme" demo_members d_parked = (d_parked, Ok t) ∧ t_pending t = 1%Z.
Proof.
  destruct (wait_tally_exact "acme" demo_members d_parked) as (t & Ht & _ & _ & _ & _ & Hp & _).
  - intros m Hm. apply list_elem_of_singleton in Hm as ->. vm_compute. by eexists.
  - exists t. split; [exact Ht|]. rewrite Hp. by vm_compute.
Defined.

(** The child has completed, and the wait is about to be closed: the deadline
    claims it and closes it. *)
Definition d_due : DB := run_ops [OpTick 2000; OpClaimDue "acme" 2000 32] d_parked.
Lemma due_steps : rtc demo_step d_parked d_due.
Proof. apply run_ops_steps. by vm_compute. Qed.
Lemma due_reachable : reachable demo_service d_due.
Proof. unfold reachable. etrans; [apply parked_reachable|apply due_steps]. Qed.

Definition d_timed_out : DB := (tryCloseWait TxBound "acme" demo_wait_id closeReasonTimeout d_due).1.

Lemma close_wait_resumes_witness :
  ∃ wait t parent,
    wait_of d_due "acme" demo_wait_id = Some wait ∧
    resumed_with d_due d_timed_out "acme" parent wait (wait_outcome demo_wait_id wait closeReasonTimeout t)
      (marshal_outcome (wait_outcome demo_wait_id wait closeReasonTimeout t)).
Proof.
  destruct (reachable_wf demo_service d_due due_reachable) as (_ & _ & [Hwk _] & _ & _ & Hk & _).
  destruct (close_wait_resumes "acme" demo_wait_id closeReasonTimeout d_due d_timed_out Hk Hwk)
    as (wait & t & parent & w' & Hw & _ & _ & _ & _ & Hres & _); [by vm_compute|].
  exists wait, t, parent. split; assumption.
Defined.

Lemma resumed_once_witness :
  (tryCloseWait TxBound "acme" demo_wait_id closeReasonTimeout d_resumed).2 ≠ Ok true.
Proof.
  destruct (tryCloseWait TxBound "acme" demo_wait_id closeReasonTimeout d_resumed) as [d' res] eqn:E.
  refine (proj1 (resumed_once demo_service "acme" demo_wait_id closeReasonTimeout d_resumed d_resumed d' res
    (wait_at d_resumed) resumed_reachable _ _ (rtc_refl _ _) E)); [by vm_compute|].
  exists 0%Z. by vm_compute.
Defined.

Definition d_swept : DB := (Sweep (MkWaitSweeper 0 0) 2000 "acme" d_parked).1.

Lemma sweep_exhaustive_witness :
  (∃ rest at_, db_jobs d_swept = rest ++ [MkQueuedJob (WaitTimeoutJob "acme") (Some at_)]) ∨
  ∀ i w, wait_of d_swept "acme" i = Some w → is_open w = true → (2000 < rw_deadline w)%Z.
Proof.
  apply (sweep_exhaustive demo_service (MkWaitSweeper 0 0) 2000 "acme" d_parked d_swept parked_reachable).
  by vm_compute.
Defined.
