(* ===== verification/ResourceSpec.v ===== *)
(** * What the resource service guarantees

    A resource keeps its identity and its token changes only with its epoch; a
    request schedules its provisioning and its watchdog; a reconcile re-arms
    itself or ends in a failure; provisioning again never creates a second
    resource when the provider can adopt; and the states move along
    [res_edge]. *)
From S2P Require Import Prelude Policy Domain Text Store StoreRuns EventLog Loop Waits Batcher Tools Step Api.
From S2P Require Import ResourceStore OperatorTx ResourceWork Frames Invariants RunStates System WorkSteps Scenario Redelivery WaitSpec.

(** ** Transactions that leave resources alone *)

Definition same_resources : relation DB := λ d d', db_resources d' = db_resources d.
#[export] Instance same_resources_pre : PreOrder same_resources.
Proof. split; [by intros d|]. unfold same_resources. intros a b c; congruence. Qed.
#[export] Instance same_resources_log : Ignores touches_log same_resources.
Proof. by intros d d' (x & y & ->). Qed.
#[export] Instance same_resources_runs : Ignores touches_runs same_resources.
Proof. by intros d d' [x ->]. Qed.
#[export] Instance same_resources_steps : Ignores touches_steps same_resources.
Proof. by intros d d' [x ->]. Qed.
#[export] Instance same_resources_memory : Ignores touches_memory same_resources.
Proof. by intros d d' [x ->]. Qed.
#[export] Instance same_resources_waits : Ignores touches_waits same_resources.
Proof. by intros d d' (x & y & ->). Qed.

#[export] Instance same_resources_core : StoreCore same_resources.
Proof. constructor; [constructor; try apply _|]; intros; try solve [ignored]; done. Qed.

(** ** Rows of resources along a history *)

Definition res_edge (st st' : ResourceState) : Prop :=
  st' = st ∨
  match st' with
  | ResourceRequested => False
  | ResourceReady => ResTerminal st = false
  | ResourceSuspended => st = ResourceReady
  | ResourceTerminating => st ≠ ResourceTerminated
  | ResourceProvisioning | ResourceFailed | ResourceTerminated => True
  end.

(** What never changes, and what only grows. *)
Definition res_le (r r' : Resource) : Prop :=
  r_id r' = r_id r ∧ r_tenant r' = r_tenant r ∧ r_session r' = r_session r ∧ r_kind r' = r_kind r ∧
  r_provider r' = r_provider r ∧ r_spec r' = r_spec r ∧ r_created_by r' = r_created_by r ∧
  r_created_at r' = r_created_at r ∧ (r_epoch r ≤ r_epoch r')%Z ∧
  (r_epoch r' = r_epoch r → r_token_hash r' = r_token_hash r ∧ r_token_enc r' = r_token_enc r) ∧
  (∀ t, r_ready_at r = Some t → r_ready_at r' = Some t).

#[export] Instance res_le_pre : PreOrder res_le.
Proof.
  split.
  - intros r. unfold res_le. split_and!; try done; lia.
  - intros a b c (?&?&?&?&?&?&?&?&He&Ht&Hy) (?&?&?&?&?&?&?&?&He'&Ht'&Hy'). unfold res_le.
    split_and!; try congruence; [lia| |auto]. intros E. assert (r_epoch b = r_epoch a) as Eb by lia.
    destruct (Ht Eb), (Ht' ltac:(congruence)). split; congruence.
Qed.

Definition res_keyed (d : DB) : Prop := ∀ i r, db_resources d !! i = Some r → r_id r = i.

Definition res_evolve : relation DB := λ d d',
  res_keyed d → res_keyed d' ∧ rows_le res_le (db_resources d) (db_resources d').
#[export] Instance res_evolve_pre : PreOrder res_evolve.
Proof.
  split; [intros d Hd; split; [done|reflexivity]|].
  intros a b c H1 H2 Ha. destruct (H1 Ha) as [Hb Hab]. destruct (H2 Hb) as [Hc Hbc]. split; [done|by etrans].
Qed.

Lemma res_evolve_frame d d' : same_resources d d' → res_evolve d d'.
Proof. intros E Hd. unfold res_keyed in *. rewrite E. split; [done|reflexivity]. Qed.

Lemma resource_of_Some d t i r : resource_of d t i = Some r ↔ db_resources d !! i = Some r ∧ r_tenant r = t.
Proof.
  unfold resource_of. destruct (db_resources d !! i) as [q|]; simpl; [|naive_solver].
  case_bool_decide; naive_solver.
Qed.

Lemma res_evolve_put d i r r' :
  db_resources d !! i = Some r → res_le r r' → res_evolve d (with_resources (<[i := r']> (db_resources d)) d).
Proof.
  intros Hr Hle Hk. split.
  - intros j q. simpl. rewrite lookup_insert. case_decide; [|apply Hk]. intros [= <-]. subst.
    rewrite (proj1 Hle). by apply Hk.
  - apply rows_le_insert; [apply _|]. intros y Hy. by simplify_eq.
Qed.

Lemma res_evolve_update t i f : (∀ n r, res_le r (f n r)) → keeps res_evolve (resource_update t i f).
Proof.
  intros Hf d. unfold resource_update. run_method; [|reflexivity]. apply resource_of_Some in H as [H _].
  by eapply res_evolve_put.
Qed.

Ltac res_row := intros; unfold res_le; simpl; split_and!; auto; try done; try lia.

Lemma res_evolve_SetProvisioning t i : keeps res_evolve (SetProvisioning t i).
Proof. apply res_evolve_update. res_row. Qed.
Lemma res_evolve_SetHandle t i h : keeps res_evolve (SetHandle t i h).
Proof. apply res_evolve_update. res_row. Qed.
Lemma res_evolve_SetReady t i h e : keeps res_evolve (SetReady t i h e).
Proof. apply res_evolve_update. res_row. intros ? ->. done. Qed.
Lemma res_evolve_SetFailed t i m : keeps res_evolve (SetFailed t i m).
Proof. apply res_evolve_update. res_row. Qed.
Lemma res_evolve_SetTerminating t i : keeps res_evolve (SetTerminating t i).
Proof. apply res_evolve_update. res_row. Qed.
Lemma res_evolve_SetTerminated t i : keeps res_evolve (SetTerminated t i).
Proof. apply res_evolve_update. res_row. Qed.
Lemma res_evolve_RotateToken t i h e : keeps res_evolve (RotateToken t i h e).
Proof. apply res_evolve_update. res_row. Qed.
Lemma res_evolve_SetSuspended t i m : keeps res_evolve (SetSuspended t i m).
Proof.
  intros d. unfold SetSuspended. run_method; try reflexivity. apply resource_of_Some in H as [H _].
  eapply res_evolve_put; [done|]. res_row.
Qed.
Lemma res_evolve_ResourceCreate t r : keeps res_evolve (ResourceCreate t r).
Proof.
  intros d. unfold ResourceCreate, mbind, M_bind, get. simpl.
  destruct (session_of _ _ _); [|reflexivity]. destruct (provider_of _ _ _); [|reflexivity].
  case_bool_decide as E; [reflexivity|]. apply eq_None_not_Some in E. case_match; [reflexivity|]. simpl. intros Hk. split.
  - intros j q. simpl. rewrite lookup_insert. case_decide; [by intros [= <-]|apply Hk].
  - apply rows_le_insert; [apply _|]. intros y Hy. congruence.
Qed.
Lemma res_evolve_MarkHealthy t i : keeps res_evolve (MarkHealthy t i).
Proof. intros d. apply res_evolve_frame. unfold MarkHealthy. run_method; done. Qed.
Lemma same_ProviderCreate t p : keeps same_resources (ProviderCreate t p).
Proof. intros d. unfold ProviderCreate. run_method; done. Qed.
Lemma same_ProviderDelete t i : keeps same_resources (ProviderDelete t i).
Proof. intros d. unfold ProviderDelete. run_method; done. Qed.
Lemma res_evolve_Append h t s e : keeps res_evolve (Append h t s e).
Proof. intros d. apply res_evolve_frame. apply (prim_Append (R:=same_resources)). Qed.
Lemma res_evolve_Enqueue h j t : keeps res_evolve (EnqueueInTx h j t).
Proof. intros d. apply res_evolve_frame. apply (keeps_EnqueueInTx same_resources). Qed.
#[export] Hint Resolve res_evolve_SetProvisioning res_evolve_SetHandle res_evolve_SetReady res_evolve_SetFailed
  res_evolve_SetTerminating res_evolve_SetTerminated res_evolve_RotateToken res_evolve_SetSuspended
  res_evolve_ResourceCreate res_evolve_MarkHealthy res_evolve_Append res_evolve_Enqueue : keeps.

Lemma keeps_resource_reads (R : relation DB) `{!PreOrder R} :
  (∀ t i, keeps R (ResourceGetForUpdate t i)) ∧ (∀ t i, keeps R (ProviderGetByName t i)).
Proof. split; intros; [unfold ResourceGetForUpdate|unfold ProviderGetByName]; solve_handler. Qed.

Section service.
Context `{Uuid} `{Durations} `{Fantasy} {W : Type} (sv : Service W).

Lemma res_op_evolve o : keeps res_evolve (run_res_op sv o).
Proof.
  pose proof (proj1 (keeps_resource_reads res_evolve)). pose proof (proj2 (keeps_resource_reads res_evolve)).
  destruct o; cbn [run_res_op];
    try (intros d; apply res_evolve_frame; apply same_ProviderCreate);
    try (intros d; apply res_evolve_frame; apply same_ProviderDelete);
    unfold recoverProvisioning, Request, RequestTerminate, RequestRestart, provision_commit, restart_commit, fail,
      terminate_commit, suspend, resume_commit, healthy_commit, rearmReconcile, resource_event,
      enqueueResourceJob, operator_restart, operator_terminate, operator_suspend, operator_healthy;
    solve_handler.
Qed.

Lemma op_res_evolve o d : res_evolve d (run_op sv o d).
Proof.
  destruct (is_resource_op o) eqn:Ho.
  - destruct o; try discriminate Ho. apply res_op_evolve.
  - by apply res_evolve_frame, (core_op_keeps sv same_resources).
Qed.

Lemma res_history d d' : rtc (sys_step sv) d d' → res_evolve d d'.
Proof. induction 1 as [|a b c (o & _ & ->) _ IH]; [reflexivity|]. etrans; [apply op_res_evolve|done]. Qed.

Lemma reachable_res_keyed d : reachable sv d → res_keyed d.
Proof. intros Hr. by apply (res_history empty_db d Hr). Qed.

(** ** States *)

Definition edges : relation DB := λ d d',
  rows_le (λ r r', res_edge (r_state r) (r_state r')) (db_resources d) (db_resources d').

Lemma edges_same d d' : same_resources d d' → edges d d'.
Proof. intros E i r Hr. rewrite E. exists r. split; [done|by left]. Qed.
Lemma edges_same_r d d1 d' : edges d d1 → same_resources d1 d' → edges d d'.
Proof. intros He E. unfold edges. by rewrite E. Qed.

Lemma edges_tx {A} (m : M DB A) d : wp m (λ _, edges d) d → edges d (atomically m d).1.
Proof. unfold wp, atomically. destruct (m d) as [d' [a|e]]; simpl; [done|]. intros _. by apply edges_same. Qed.

Lemma edges_put d i r r' :
  db_resources d !! i = Some r → res_edge (r_state r) (r_state r') →
  edges d (with_resources (<[i := r']> (db_resources d)) d).
Proof.
  intros Hr He j q Hq. simpl. rewrite lookup_insert. case_decide; [|exists q; split; [done|by left]].
  exists r'. simplify_eq. done.
Qed.

Lemma wp_ResourceGetForUpdate t i (Q : result Resource → DB → Prop) d :
  (∀ r, resource_of d t i = Some r → Q (Ok r) d) → (resource_of d t i = None → Q (Err ErrNotFound) d) →
  wp (ResourceGetForUpdate t i) Q d.
Proof.
  intros H1' H2'. unfold wp, ResourceGetForUpdate, mbind, M_bind, get. simpl.
  destruct (resource_of d t i) eqn:E; [by apply H1'|by apply H2'].
Qed.

Lemma keeps_same_MarkHealthy t i : keeps same_resources (MarkHealthy t i).
Proof. intros d. unfold MarkHealthy. run_method; done. Qed.
Lemma keeps_same_Append h t ss e : keeps same_resources (Append h t ss e).
Proof. apply prim_Append. Qed.
Lemma keeps_same_Enqueue h j t : keeps same_resources (EnqueueInTx h j t).
Proof. apply keeps_EnqueueInTx; apply _. Qed.
Hint Resolve keeps_same_MarkHealthy keeps_same_Append keeps_same_Enqueue : keeps.

Ltac rest_same := intros; unfold resource_event; solve_handler.

(** A transaction followed by statements that leave resources alone. *)
Lemma edges_then {A B} (m : M DB A) (k : A → M DB B) d :
  edges d (m d).1 → (∀ a, keeps same_resources (k a)) → edges d ((m ≫= k) d).1.
Proof.
  intros He Hk. unfold mbind, M_bind. destruct (m d) as [d' [a|e]]; [|done]. eapply edges_same_r; [done|apply Hk].
Qed.
Lemma edges_update t i f d :
  (∀ r n, resource_of d t i = Some r → res_edge (r_state r) (r_state (f n r))) → edges d (resource_update t i f d).1.
Proof.
  intros He. unfold resource_update, mbind, M_bind, get. simpl.
  destruct (resource_of d t i) as [r|] eqn:Hr; [|by apply edges_same]. simpl.
  specialize (He r (db_now d) eq_refl). apply resource_of_Some in Hr as [Hr _]. by eapply edges_put.
Qed.
Lemma edges_create t r d : edges d (ResourceCreate t r d).1.
Proof.
  unfold ResourceCreate, mbind, M_bind, get. simpl.
  destruct (session_of _ _ _); [|by apply edges_same]. destruct (provider_of _ _ _); [|by apply edges_same].
  case_bool_decide as E; [by apply edges_same|]. apply eq_None_not_Some in E. case_match; [by apply edges_same|].
  intros i q Hq. exists q. simpl. rewrite lookup_insert_ne by congruence. split; [done|by left].
Qed.
Lemma edges_SetSuspended t i m d : edges d (SetSuspended t i m d).1.
Proof.
  unfold SetSuspended, mbind, M_bind, get. simpl.
  destruct (resource_of d t i) as [r|] eqn:Hr; [|by apply edges_same]. apply resource_of_Some in Hr as [Hr _].
  destruct (_ || _) eqn:Hst; [|by apply edges_same]. eapply edges_put; [done|]. simpl.
  apply orb_true_iff in Hst as [->%bool_decide_eq_true| ->%bool_decide_eq_true]; [by right|by left].
Qed.

(** [locked ← GetForUpdate; k locked], in a transaction. *)
Lemma edges_locked {A} t i (k : Resource → M DB A) d :
  (∀ r, resource_of d t i = Some r → edges d (k r d).1) →
  edges d (atomically (r ← ResourceGetForUpdate t i; k r) d).1.
Proof.
  intros Hk. apply edges_tx, wp_bind, wp_ResourceGetForUpdate; [by apply Hk|]. intros _. by apply edges_same.
Qed.

Lemma request_edges clock fresh tk org session kind spec name by_ d :
  edges d (Request sv clock fresh tk org session kind spec name by_ d).1.
Proof.
  change (wp (Request sv clock fresh tk org session kind spec name by_) (λ _, edges d) d). unfold Request.
  apply wp_bind. eapply (wp_keeps eq); [apply (proj2 (keeps_resource_reads eq))|].
  intros [inst|e] ? <-; [|by apply edges_same]. apply wp_bind, wp_of_result.
  destruct (svBuild _ _ _) as [p|]; [|by apply edges_same]. destruct (prValidateSpec _ _); [by apply wp_throw, edges_same|].
  apply wp_bind, wp_of_result. destruct (request_kind _ _) as [k|]; [|by apply edges_same].
  apply (edges_then (Tx Pool _)); [|rest_same]. apply edges_tx. apply (edges_then (ResourceCreate _ _)); [apply edges_create|].
  rest_same.
Qed.

Lemma edges_keeps {A} (m : M DB A) d : keeps same_resources m → edges d (m d).1.
Proof. intros Hm. apply edges_same, Hm. Qed.

Lemma res_op_edges o d : edges d (run_res_op sv o d).1.
Proof.
  pose proof (proj1 (keeps_resource_reads same_resources)) as Hread.
  destruct o; cbn [run_res_op].
  - apply edges_keeps, same_ProviderCreate.
  - apply edges_keeps, same_ProviderDelete.
  - apply edges_then; [apply request_edges|rest_same].
  - apply edges_locked. intros r Hr. case_bool_decide as E; [by apply edges_same|].
    apply edges_then; [apply edges_update|rest_same]. intros q n Hq. simplify_eq. by right.
  - apply edges_then; [|rest_same]. apply edges_locked. intros r Hr. destruct (_ || _); [by apply edges_same|].
    apply edges_then; [apply edges_update|rest_same]. by right.
  - apply edges_update. by right.
  - apply edges_update. by left.
  - apply edges_locked. intros q Hq. case_bool_decide as E; [|by apply edges_same].
    apply edges_then; [apply edges_update|rest_same]. intros q' n Hq'. simplify_eq. right. simpl. by rewrite E.
  - apply edges_update. by left.
  - apply edges_locked. intros q Hq. destruct (ResTerminal (r_state q)) eqn:E; [by apply edges_same|].
    apply edges_then; [apply edges_update|rest_same]. intros q' n Hq'. simplify_eq. by right.
  - apply edges_tx, edges_then; [apply edges_update|rest_same]. by right.
  - apply edges_tx, edges_then; [apply edges_update|rest_same]. by right.
  - unfold suspend. apply edges_then; [|unfold rearmReconcile; rest_same]. apply edges_locked. intros q Hq.
    case_bool_decide as E; [|by apply edges_same]. apply edges_then; [apply edges_SetSuspended|rest_same].
  - apply edges_locked. intros q Hq. case_bool_decide as E; [|by apply edges_same].
    apply edges_then; [apply edges_update|rest_same]. intros q' n Hq'. simplify_eq. right. simpl. by rewrite E.
  - unfold recoverProvisioning. case_bool_decide; [by apply edges_keeps; rest_same|].
    case_bool_decide; [|apply edges_keeps; rest_same]. apply edges_tx, edges_then; [apply edges_update|rest_same]. by right.
  - apply edges_keeps. unfold healthy_commit. rest_same.
  - apply edges_keeps. unfold rearmReconcile. rest_same.
  - apply edges_keeps. unfold enqueueResourceJob. rest_same.
  - apply edges_locked. intros r Hr. destruct (_ || _); [by apply edges_same|].
    apply edges_then; [apply edges_update|rest_same]. by right.
  - apply edges_locked. intros r Hr. case_bool_decide as E; [by apply edges_same|].
    apply edges_then; [apply edges_update|rest_same]. intros q n Hq. simplify_eq. by right.
  - apply edges_locked. intros r Hr. apply edges_SetSuspended.
  - apply edges_keeps. unfold operator_healthy. rest_same.
Qed.

Lemma op_edges o d : edges d (run_op sv o d).
Proof.
  destruct (is_resource_op o) eqn:Ho.
  - destruct o; try discriminate Ho. apply res_op_edges.
  - by apply edges_same, (core_op_keeps sv same_resources).
Qed.
End service.

(** ** Adoption: at most one thing per resource *)

(** What [resource.go] asks of a provider that implements [ResourceAdopter]:
    [live w id] counts the things the control plane [w] runs for a resource.
    Provisioning adds at most one, for its own resource; adopting adds nothing
    and finds nothing only when there is nothing; the other calls add nothing. *)
Record adopting {W} (live : W → ResourceID → nat) (p : ResourceProvider W) : Prop := {
  ad_provision r token w id :
    (live (prProvision p r token w).1 id ≤ live w id + if bool_decide (id = r_id r) then 1 else 0)%nat;
  ad_adopt : ∃ adopt, prAdopt p = Some adopt ∧ ∀ r w,
    (∀ id, live (adopt r w).1 id ≤ live w id)%nat ∧ ((adopt r w).2 = Ok None → live (adopt r w).1 (r_id r) = 0%nat);
  ad_status r w id : (live (prStatus p r w).1 id ≤ live w id)%nat;
  ad_endpoint r w id : (live (prEndpoint p r w).1 id ≤ live w id)%nat;
  ad_terminate r w id : (live (prTerminate p r w).1 id ≤ live w id)%nat;
}.

Definition at_most_one {W} (live : W → ResourceID → nat) (w : W) : Prop := ∀ id, (live w id ≤ 1)%nat.

Section adoption.
Context {W : Type} (sv : Service W) (live : W → ResourceID → nat).

(** The world only loses things. *)
Definition shrinks : relation W := λ w w', ∀ id, (live w' id ≤ live w id)%nat.
#[local] Instance shrinks_pre : PreOrder shrinks.
Proof. split; [by intros w id|]. intros a b c H1 H2 id. etrans; [apply H2|apply H1]. Qed.

Context (Hhealth : ∀ e w id, (live (svHealthy sv e w).1 id ≤ live w id)%nat).

Lemma shrinks_poll p r tools : adopting live p → keeps shrinks (poll_healthy sv p r tools).
Proof.
  intros Hp. unfold poll_healthy. apply keeps_bind; [apply _| |intros st; destruct st as [[[] m]|]];
    try (apply keeps_ret; apply _).
  - apply keeps_attempt. intros w id. apply (ad_status _ _ Hp).
  - apply keeps_bind; [apply _|apply keeps_attempt; intros w id; apply (ad_endpoint _ _ Hp)|].
    intros [e|]; [|apply keeps_ret; apply _]. destruct (_ && _); [|apply keeps_ret; apply _].
    apply keeps_bind; [apply _|apply keeps_attempt; intros w id; apply Hhealth|intros; apply keeps_ret; apply _].
Qed.

Lemma shrinks_await polls c p r caps : adopting live p → keeps shrinks (awaitHealthy sv polls c p r caps).
Proof.
  intros Hp. induction polls as [|n IH]; simpl; [apply keeps_ret; apply _|].
  apply keeps_bind; [apply _|by apply shrinks_poll|]. intros [e|]; [apply keeps_ret; apply _|done].
Qed.

Lemma acquire_at_most_one p r token w :
  adopting live p → at_most_one live w → at_most_one live (acquire p r token w).1.
Proof.
  intros Hp H1. unfold acquire. destruct (HandlePresent (r_handle r)); [by destruct (r_handle r)|].
  destruct (ad_adopt _ _ Hp) as (adopt & -> & Ha). destruct (Ha r w) as [Hw Hnone].
  assert (at_most_one live (adopt r w).1) as Hw1 by (intros id; specialize (Hw id); specialize (H1 id); lia).
  unfold mbind, M_bind. destruct (adopt r w) as [w' [[h|]|e]]; simpl in *; [done| |done].
  intros id. specialize (Hnone eq_refl). pose proof (ad_provision _ _ Hp r token w' id) as Hpr. specialize (Hw1 id).
  case_bool_decide; subst; lia.
Qed.

(** On the store and the world together. *)
Definition one_kept : relation (DB * W) := λ s s', at_most_one live s.2 → at_most_one live s'.2.
#[local] Instance one_kept_pre : PreOrder one_kept.
Proof. split; unfold one_kept; [by intros s|]. intros a b c; auto. Qed.

Lemma one_db {A} (m : M DB A) : keeps one_kept (db (W:=W) m).
Proof. intros [d w]. unfold db, one_kept. simpl. by destruct (m d). Qed.
Lemma one_ext {A} (m : M W A) : (∀ w, at_most_one live w → at_most_one live (m w).1) → keeps one_kept (ext m).
Proof. intros Hm [d w] Hw. unfold ext. simpl in *. specialize (Hm w Hw). by destruct (m w). Qed.
Lemma one_shrinks {A} (m : M W A) : keeps shrinks m → keeps one_kept (ext m).
Proof. intros Hm. apply one_ext. intros w Hw id. etrans; [apply Hm|apply Hw]. Qed.
#[local] Hint Resolve one_db : keeps.

Context (Hbuild : ∀ kind config p, svBuild sv kind config = Ok p → adopting live p).

Lemma provider_adopting org r d p i : (provider sv org r d).2 = Ok (p, i) → adopting live p.
Proof.
  unfold provider, ProviderGet, mbind, M_bind, get, of_option, of_result. simpl.
  destruct (provider_of d org (r_provider r)) as [inst|]; [|done]. simpl.
  destruct (svBuild sv (pi_kind inst) (pi_config inst)) as [q|] eqn:E; [|done]. simpl. intros [= -> _]. eauto.
Qed.

Lemma provision_await_one polls c clock org p i r h :
  adopting live p → keeps one_kept (provision_await sv polls c clock org p i r h).
Proof.
  intros Hp. unfold provision_await. apply keeps_bind; [apply _|by apply one_shrinks, shrinks_await|].
  intros [e|[]]; [apply one_db|apply keeps_throw; apply _|].
  apply keeps_bind; [apply _| |intros; apply one_db]. apply one_shrinks, keeps_ignore. intros w id. apply (ad_terminate _ _ Hp).
Qed.

Lemma provision_rest_one polls c clock org r : keeps one_kept (provision_rest sv polls c clock org r).
Proof.
  unfold provision_rest. destruct (_ || _); [apply keeps_ret; apply _|].
  apply keeps_bind; [apply _|apply one_db|intros _]. apply keeps_bind; [apply _|apply one_db|intros _].
  apply (keeps_bind_val _ (λ got, match got with Ok (p, _) => adopting live p | Err _ => True end));
    [apply keeps_attempt, one_db| |].
  - intros [d w] got. unfold attempt, db. simpl. pose proof (provider_adopting org r d) as Hp.
    destruct (provider sv org r d) as [d' [[p i]|e]]; simpl in *; intros [= <-]; [by eapply Hp|done].
  - intros [[p i]|e] Hp; [|apply one_db]. apply keeps_bind; [apply _|apply one_db|intros clear].
    apply keeps_bind; [apply _| |intros [h|e]; [|apply one_db]].
    + apply keeps_attempt, one_ext. intros w Hw. by apply acquire_at_most_one.
    + apply keeps_bind; [apply _|apply one_db|intros _]. by apply provision_await_one.
Qed.

(** Provisioning is idempotent at the control plane.  With a provider that
    adopts, a provisioning job, however often it is delivered one after the
    other and at whatever statement earlier deliveries died, leaves at most one
    live thing per resource: also when the handle of the first was lost before
    it was persisted. *)
Theorem Provision_at_most_one polls cancelled clock org id d w :
  at_most_one live w → at_most_one live (Provision sv polls cancelled clock org id (d, w)).1.2.
Proof.
  enough (keeps one_kept (Provision sv polls cancelled clock org id)) as Hk by apply (Hk (d, w)).
  unfold Provision. apply keeps_bind; [apply _|apply one_db|]. intros r. apply provision_rest_one.
Qed.

End adoption.

(** ** Properties *)

Section properties.
Context `{Uuid} `{Durations} `{Fantasy} {W : Type} (sv : Service W).

(** A resource's identity and credentials.  Along every history a resource
    keeps its tenant, session, kind, provider, spec and creator; its epoch never
    decreases, and its token changes only when its epoch does. *)
Theorem resource_history d d' i r :
  reachable sv d → rtc (sys_step sv) d d' → db_resources d !! i = Some r →
  ∃ r', db_resources d' !! i = Some r' ∧ res_le r r'.
Proof.
  intros Hr Hst Hi. by apply (res_history sv d d' Hst (reachable_res_keyed sv d Hr)).
Qed.

(** Resource states.  No transaction makes a resource ready that was
    failed or terminated, suspends one that is not ready, requests one again, or
    starts to terminate one that is terminated. *)
Theorem resource_states d d' i r :
  sys_step sv d d' → db_resources d !! i = Some r →
  ∃ r', db_resources d' !! i = Some r' ∧ res_edge (r_state r) (r_state r').
Proof. intros (o & _ & ->) Hi. by apply (op_edges sv o d). Qed.

(** The row a request writes. *)
Lemma wp_ResourceCreate t r (Q : result unit → DB → Prop) d :
  (∀ e, Q (Err e) d) → Q (Ok ()) (with_resources (<[r_id r := resource_row d t r]> (db_resources d)) d) →
  wp (ResourceCreate t r) Q d.
Proof.
  intros HE HQ. unfold wp, ResourceCreate, mbind, M_bind, get. simpl.
  destruct (session_of _ _ _); [|apply HE]. destruct (provider_of _ _ _); [|apply HE].
  case_bool_decide; [apply HE|]. case_match; [apply HE|]. done.
Qed.

(** What a successful request adds: the row, the event, the two jobs. *)
Definition request_done (clock : time) (fresh : ResourceID) (tk : Token) (org : TenantID) (session : SessionID)
    (r : Resource) (seq : Z) (d d' : DB) : Prop :=
  (∃ row, db_resources d' = <[fresh := row]> (db_resources d) ∧ r_id row = fresh ∧ r_tenant row = org ∧
          r_session row = session ∧ r_state row = ResourceRequested ∧ r_epoch row = 1%Z ∧
          r_token_hash row = tkHash tk) ∧
  db_events d' = db_events d ++ [event_row d session seq (NewEvent ActorSystem EventKindResourceRequested
                                   (ResourcePayload (eventPayload r "")))] ∧
  db_jobs d' = db_jobs d ++ [MkQueuedJob (ProvisionJob org fresh) None;
                             MkQueuedJob (ReconcileJob org fresh) (Some (clock + provisionTimeout sv)%Z)] ∧
  db_runs d' = db_runs d ∧ db_waits d' = db_waits d ∧ db_memory d' = db_memory d.

(** A request is complete or nothing.  A request that fails changes
    nothing; one that succeeds leaves the resource requested at epoch 1, one
    event, a provisioning job, and the watchdog that will look at it after the
    provisioning timeout. *)
Theorem Request_effect clock fresh tk org session kind spec name by_ d :
  match Request sv clock fresh tk org session kind spec name by_ d with
  | (d', Err _) => d' = d
  | (d', Ok (r, seq)) => request_done clock fresh tk org session r seq d d'
  end.
Proof.
  enough (wp (Request sv clock fresh tk org session kind spec name by_) (λ res d', match res with
    | Err _ => d' = d | Ok (r, seq) => request_done clock fresh tk org session r seq d d' end) d) as Hwp.
  { unfold wp in Hwp. by destruct (Request _ _ _ _ _ _ _ _ _ _ d) as [d' [[r seq]|e]]. }
  unfold Request. apply wp_bind. eapply (wp_keeps eq); [apply (proj2 (keeps_resource_reads eq))|].
  intros [inst|e] ? <-; [|done]. apply wp_bind, wp_of_result.
  destruct (svBuild _ _ _) as [p|]; [|done]. destruct (prValidateSpec _ _); [done|].
  apply wp_bind, wp_of_result. destruct (request_kind _ _) as [k|]; [|done].
  apply wp_bind, wp_atomically, wp_bind, wp_ResourceCreate; [done|].
  apply wp_bind, wp_Append_tx; [done|]. intros se _. apply wp_bind, wp_modify, wp_bind, wp_modify, wp_ret, wp_ret.
  unfold request_done. split_and!; try done; [|simpl; by rewrite <-app_assoc].
  by eexists.
Qed.

(** ** Reconciling *)

(** A reconcile left another one in the queue, or the resource failed. *)
Definition watched (org : TenantID) (id : ResourceID) (d d' : DB) : Prop :=
  (∃ l q, db_jobs d' = db_jobs d ++ l ∧ q ∈ l ∧ qj_job q = ReconcileJob org id) ∨
  (∃ r, resource_of d' org id = Some r ∧ r_state r = ResourceFailed).

(** [m] ends with a reconcile queued or the resource failed, if it succeeds. *)
Definition watches {A} (org : TenantID) (id : ResourceID) (d : DB) (m : M DB A) : Prop :=
  wp m (λ res d', match res with Ok _ => watched org id d d' | Err _ => True end) d.

Definition same_jobs : relation DB := λ d d', db_jobs d' = db_jobs d.

Lemma watched_push org id at_ d d1 :
  same_jobs d d1 → watched org id d (with_jobs (db_jobs d1 ++ [MkQueuedJob (ReconcileJob org id) at_]) d1).
Proof. intros E. left. exists [MkQueuedJob (ReconcileJob org id) at_]. eexists. rewrite <-E. simpl. split_and!; [done|left|done]. Qed.

Lemma watches_rearm clock org id d : watches org id d (rearmReconcile sv clock org id).
Proof. apply watched_push. done. Qed.

Lemma wp_update t i f (Q : result unit → DB → Prop) d :
  (∀ r, resource_of d t i = Some r → Q (Ok ()) (with_resources (<[i := f (db_now d) r]> (db_resources d)) d)) →
  (∀ e, Q (Err e) d) → wp (resource_update t i f) Q d.
Proof.
  intros H1' H2'. unfold wp, resource_update, mbind, M_bind, get. simpl.
  destruct (resource_of d t i) eqn:E; [by apply H1'|apply H2'].
Qed.

Lemma watches_fail org r message d : watches org (r_id r) d (fail org r message).
Proof.
  unfold watches, fail. apply (wp_atomically (S:=DB)), wp_bind, wp_update; [|done]. intros q Hq.
  apply wp_bind, wp_Append_tx; [done|]. intros se _. apply wp_ret. right.
  exists (upd_res_failed message (db_now d) q). split; [|done]. apply resource_of_Some. simpl.
  apply resource_of_Some in Hq as [_ Ht]. by rewrite lookup_insert_eq.
Qed.

Lemma watches_resume clock org r d :
  resource_of d org (r_id r) = Some r → r_state r = ResourceSuspended → watches org (r_id r) d (resume_commit sv clock org r).
Proof.
  intros Hr Hst. unfold watches, resume_commit. apply (wp_atomically (S:=DB)), wp_bind, wp_ResourceGetForUpdate; [|done].
  intros q Hq. simplify_eq. rewrite (bool_decide_eq_true_2 _ Hst). cbn [negb].
  apply wp_bind, wp_update; [|done]. intros q Hq. apply wp_bind, wp_Append_tx; [done|]. intros se _.
  apply wp_modify. by apply watched_push.
Qed.

Lemma same_jobs_MarkHealthy t i : keeps same_jobs (MarkHealthy t i).
Proof. intros d. unfold MarkHealthy, same_jobs. run_method; done. Qed.

Lemma watches_healthy clock org r d :
  resource_of d org (r_id r) = Some r → r_state r = ResourceReady → watches org (r_id r) d (healthy_commit sv clock org r).
Proof.
  intros Hr Hst. unfold watches, healthy_commit. apply (wp_atomically (S:=DB)), wp_bind, wp_ResourceGetForUpdate; [|done].
  intros q Hq. simplify_eq. rewrite (bool_decide_eq_true_2 _ Hst). cbn [negb].
  apply wp_bind, wp_ignore. eapply wp_keeps; [apply same_jobs_MarkHealthy|]. intros _ d1 Hd1.
  apply wp_modify. by apply watched_push.
Qed.

Lemma watches_recover clock org r d :
  resource_of d org (r_id r) = Some r → r_state r = ResourceRequested ∨ r_state r = ResourceProvisioning →
  watches org (r_id r) d (recoverProvisioning sv clock org r).
Proof.
  intros Hr Hst. unfold recoverProvisioning. case_bool_decide; [by apply watched_push|].
  case_bool_decide; [apply watches_fail|]. unfold watches. apply (wp_atomically (S:=DB)), wp_bind, wp_ResourceGetForUpdate; [|done].
  intros q Hq. simplify_eq. destruct (_ && _) eqn:E.
  { apply andb_true_iff in E as [E1 E2]. apply negb_true_iff, bool_decide_eq_false in E1, E2. naive_solver. }
  apply wp_bind, wp_modify, wp_modify. left. eexists _, _. simpl. rewrite <-app_assoc. split_and!; [done|right; left|done].
Qed.

Lemma same_jobs_Append h t ss e : keeps same_jobs (Append h t ss e).
Proof. intros d. destruct (log_Append h t ss e d) as (x & y & E). unfold same_jobs. by rewrite E. Qed.
Lemma same_jobs_SetSuspended t i m : keeps same_jobs (SetSuspended t i m).
Proof. intros d. unfold SetSuspended, same_jobs. run_method; done. Qed.

Lemma watches_suspend clock org r message d :
  watches org (r_id r) d (suspend sv clock org r message).
Proof.
  unfold watches, suspend. apply wp_bind. eapply (wp_keeps same_jobs).
  - assert (PreOrder same_jobs) as Hpre by (split; [by intros ?|unfold same_jobs; intros ???; congruence]).
    pose proof (proj1 (keeps_resource_reads same_jobs)). pose proof same_jobs_Append. pose proof same_jobs_SetSuspended.
    unfold resource_event. solve_handler.
  - intros [[]|e] d1 Hd1; [|done]. apply watched_push. done.
Qed.

Lemma wp_db {A} (m : M DB A) (Q : result A → DB * W → Prop) d w :
  wp m (λ res d', Q res (d', w)) d → wp (db m) Q (d, w).
Proof. unfold wp, db. simpl. by destruct (m d). Qed.
Lemma wp_ext {A} (m : M W A) (Q : result A → DB * W → Prop) d w : (∀ res w', Q res (d, w')) → wp (ext m) Q (d, w).
Proof. intros HQ. unfold wp, ext. simpl. destruct (m w). apply HQ. Qed.

Definition watched_post {A} (org : TenantID) (id : ResourceID) (d : DB) (res : result A) (s : DB * W) : Prop :=
  match res with Ok _ => watched org id d s.1 | Err _ => True end.

Lemma wp_watches {A} org id d w (m : M DB A) : watches org id d m → wp (db m) (watched_post org id d) (d, w).
Proof. intros Hm. by apply wp_db. Qed.

Lemma provider_reads org r : keeps eq (provider sv org r).
Proof. unfold provider, ProviderGet. solve_handler. Qed.

Lemma suspended_watches clock org r d w :
  resource_of d org (r_id r) = Some r → r_state r = ResourceSuspended →
  wp (reconcileSuspended sv clock org r) (watched_post org (r_id r) d) (d, w).
Proof.
  intros Hr Hst. unfold reconcileSuspended. apply wp_bind, wp_attempt, wp_db.
  eapply (wp_keeps eq); [apply provider_reads|]. intros [[p i]|e] ? <-; [|apply wp_watches, watches_rearm].
  apply wp_bind, wp_attempt, wp_ext. intros status w1. apply wp_bind, wp_ext. intros [healthy|e] w2; [|done].
  destruct healthy; [by apply wp_watches, watches_resume|]. cbn [negb].
  destruct status as [[st m]|e]; [|apply wp_watches, watches_rearm].
  destruct (ResTerminal st); apply wp_watches; [apply watches_fail|apply watches_rearm].
Qed.


End properties.

(** ** Witnesses *)

Definition demo_instance : ProviderInstance :=
  MkProviderInstance "p1" "acme" "demo" "default" JNull "ready" (MkCapabilities "demo" [] ∅) None 0.
Definition demo_token : Token := MkToken "secret" "hash" "secret".

Definition d_with_resource : DB := run_ops [
  OpResource (RoRegister "acme" demo_instance);
  OpResource (RoRequest 0 "e1" demo_token "acme" "s1" "" None "" None) ] d_running.
Definition d_ready : DB := run_ops [
  OpResource (RoSetProvisioning "acme" "e1");
  OpResource (RoProvisionCommit 10 "acme" (default (resource_row empty_db "" (new_resource "" "" "" "" "" None demo_token None))
                (db_resources d_with_resource !! "e1")) (JObj [("version", JNum 1)]) "http://e1");
  OpResource (RoRotateToken "acme" "e1" (MkToken "s2" "hash2" "s2")) ] d_with_resource.
Definition resource_at (d : DB) : Resource :=
  default (new_resource "" "" "" "" "" None demo_token None) (db_resources d !! "e1").

Lemma with_resource_reachable : reachable demo_service d_with_resource.
Proof. unfold reachable. etrans; [apply running_reachable|]. by apply run_ops_steps. Qed.
Lemma ready_steps : rtc demo_step d_with_resource d_ready.
Proof. by apply run_ops_steps. Qed.
Lemma ready_reachable : reachable demo_service d_ready.
Proof. unfold reachable. etrans; [apply with_resource_reachable|apply ready_steps]. Qed.

Example demo_resource :
  (r_state (resource_at d_with_resource), r_state (resource_at d_ready), r_epoch (resource_at d_ready)) =
  (ResourceRequested, ResourceReady, 2%Z).
Proof. vm_compute. reflexivity. Qed.

Lemma resource_history_witness :
  ∃ r', db_resources d_ready !! "e1" = Some r' ∧ res_le (resource_at d_with_resource) r'.
Proof.
  apply (resource_history demo_service d_with_resource d_ready "e1" (resource_at d_with_resource)
    with_resource_reachable ready_steps). by vm_compute.
Defined.

Definition d_suspended : DB :=
  run_op demo_service (OpResource (RoSuspend 20 "acme" (resource_at d_ready) "host lost")) d_ready.

Lemma resource_states_witness :
  ∃ r', db_resources d_suspended !! "e1" = Some r' ∧ res_edge ResourceReady (r_state r').
Proof.
  apply (resource_states demo_service d_ready d_suspended "e1" (resource_at d_ready)).
  - exists (OpResource (RoSuspend 20 "acme" (resource_at d_ready) "host lost")). split; [exact I|reflexivity].
  - by vm_compute.
Defined.

(** The demo provider keeps the laws of an adopter. *)
Definition demo_live (w : demo_world) (id : ResourceID) : nat := length (filter (λ i, i = id) w).

Lemma demo_adopting : adopting demo_live demo_provider.
Proof.
  constructor.
  - intros r token w id. change (prProvision demo_provider r token w).1 with (r_id r :: w).
    unfold demo_live. rewrite filter_cons. case_decide; case_bool_decide; cbn [length]; subst; try lia; done.
  - eexists. split; [reflexivity|]. intros r w. split; [done|].
    unfold mbind, M_bind, get, mret, M_ret. simpl. case_bool_decide as E; [done|]. intros _. unfold demo_live.
    destruct (filter (λ i, i = r_id r) w) as [|i l] eqn:Ef; [done|]. exfalso. apply E.
    assert (i ∈ filter (λ i, i = r_id r) w) as Hi by (rewrite Ef; left).
    apply list_elem_of_filter in Hi as [-> Hi]. done.
  - intros r w id. by change (prStatus demo_provider r w).1 with w.
  - intros r w id. by change (prEndpoint demo_provider r w).1 with w.
  - intros r w id. change (prTerminate demo_provider r w).1 with (filter (λ i, i ≠ r_id r) w). unfold demo_live.
    rewrite list_filter_filter. apply sublist_length. induction w as [|i w IH]; [constructor|].
    rewrite !filter_cons. repeat case_decide; first [by constructor|naive_solver].
Qed.

Lemma Provision_at_most_one_witness :
  at_most_one demo_live (Provision demo_service 3 false 10 "acme" "e1" (d_with_resource, ["e1"])).1.2.
Proof.
  apply (Provision_at_most_one demo_service demo_live).
  - intros e w id. by change (svHealthy demo_service e w).1 with w.
  - intros kind config p [= <-]. apply demo_adopting.
  - intros id. unfold demo_live. rewrite filter_cons, filter_nil. case_decide; cbn [length]; lia.
Defined.

