(* ===== verification/Commit.v ===== *)
(** * What a commit does

    The functional behaviour of [commitOutcome] on the path where nothing
    interferes: the step is recorded, the history replaced, and the run parked
    on a question, continued with exactly one job, or completed. *)
From S2P Require Import Prelude Policy Domain Text Store StoreRuns EventLog Loop Waits Batcher Tools Step Api.
From S2P Require Import ResourceStore OperatorTx ResourceWork Frames Invariants RunStates System WorkSteps Scenario Redelivery WaitSpec.

(** A log with room for [n] more events. *)
Definition room (n : Z) (t : TenantID) (s : SessionID) (d : DB) : Prop :=
  gapless d ∧ ∃ se, session_of d t s = Some se ∧ (se_last_seq se + n ≤ int64_max)%Z.

(** Only the log and the memory differ. *)
Definition outside_log (d d' : DB) : Prop :=
  db_now d' = db_now d ∧ db_runs d' = db_runs d ∧ db_steps d' = db_steps d ∧ db_waits d' = db_waits d ∧
  db_members d' = db_members d ∧ db_jobs d' = db_jobs d.
#[export] Instance outside_log_pre : PreOrder outside_log.
Proof.
  split; [by repeat split|]. intros a b c (?&?&?&?&?&?) (?&?&?&?&?&?). unfold outside_log. split_and!; congruence.
Qed.

Lemma room_weaken n m t s d : (m ≤ n)%Z → room n t s d → room m t s d.
Proof. intros Hm (Hg & se & Hs & Hn). split; [done|]. exists se. split; [done|]. lia. Qed.

Lemma room_frame n t s d d' :
  db_sessions d' = db_sessions d → db_events d' = db_events d → room n t s d → room n t s d'.
Proof.
  intros E1 E2 (Hg & se & Hs & Hn). split; [by eapply gapless_frame|]. exists se. unfold session_of in *.
  by rewrite E1.
Qed.

(** With room, an append succeeds. *)
Lemma wp_Append_room n t s e (Q : result Z → DB → Prop) d :
  room (n + 1) t s d → (0 ≤ n)%Z →
  (∀ seq d', room n t s d' → outside_log d d' →
     session_log d' s = session_log d s ++ [event_row d s seq e] → Q (Ok seq) d') →
  wp (Append TxBound t s e) Q d.
Proof.
  intros (Hg & se & Hs & Hn) H0 HQ. unfold wp, Append, Tx. rewrite (append_body_eq d t s e Hg), Hs.
  rewrite bool_decide_eq_false_2 by lia. simpl.
  pose proof (proj1 (session_of_Some _ _ _ _) Hs) as [Hrow Ht]. apply HQ.
  - split; [apply appended_gapless; [done|done|lia]|]. exists (set_last_seq (se_last_seq se + 1) se). split.
    + apply session_of_Some. unfold appended. simpl. by rewrite lookup_insert_eq.
    + simpl. lia.
  - by repeat split.
  - rewrite appended_log. by rewrite bool_decide_eq_true_2.
Qed.

(** The cost hook uses at most one event and its failure is ignored. *)
Lemma wp_account n t s run step (Q : result unit → DB → Prop) d :
  room (n + 1) t s d → (0 ≤ n)%Z → ar_tenant run = t → ar_session run = s →
  (∀ d' l, room n t s d' → outside_log d d' → session_log d' s = session_log d s ++ l → Q (Ok ()) d') →
  wp (ignore (AccountStepCost TxBound run step)) Q d.
Proof.
  intros Hroom H0 <- <- HQ. apply wp_ignore. unfold AccountStepCost. cbn [Tx]. apply wp_bind.
  set (e := MkMemoryEntry _ _ _ _ _). pose proof (memory_MemorySet (ar_tenant run) e d) as (m & Em).
  unfold wp at 1. destruct (MemorySet (ar_tenant run) e d) as [d1 [[]|er]]; simpl in *; subst d1.
  - apply wp_bind, (wp_Append_room n); [by apply (room_frame _ _ _ d)|done|]. intros seq d' Hr Ho Hl. apply wp_ret.
    eapply HQ; [done| |exact Hl]. etrans; [|exact Ho]. by repeat split.
  - apply (HQ _ []); [|by repeat split|by rewrite app_nil_r]. apply (room_frame _ _ _ d); [done..|].
    apply (room_weaken (n + 1)); [lia|done].
Qed.

Section commit.
Context `{Uuid} `{Fantasy}.

(** Where a step without a wait leads. *)
Definition commit_state (step : StepResult) (rec : stepRecorder) : RunState :=
  match question rec with
  | Some _ => RunAwaiting
  | None => if bool_decide (stFinishReason step = FinishReasonToolCalls) then RunRunning else RunCompleted
  end.
Definition commit_event (step : StepResult) (rec : stepRecorder) : string :=
  match commit_state step rec with
  | RunAwaiting => EventKindRunAwaiting | RunCompleted => EventKindRunCompleted | _ => EventKindStepFinished
  end.

Record commit_done (job : StepJob_) (att : Z) (encoded : raw_history) (step : StepResult)
    (content : list response_part) (rec : stepRecorder) (d d' : DB) : Prop := {
  cd_run : ∃ r, run_of d' (sj_tenant job) (sj_run job) = Some r ∧ ar_state r = commit_state step rec ∧
    ar_history r = encoded ∧
    (commit_state step rec = RunCompleted → ar_result r = Some (final_json (finalText content)));
  cd_steps : db_steps d' = db_steps d ++
    [MkRunStep (sj_run job) (sj_step job) att (stInputTokens step) (stOutputTokens step) (stFinishReason step) (db_now d)];
  cd_jobs : db_jobs d' = db_jobs d ++
    (if bool_decide (commit_state step rec = RunRunning)
     then [MkQueuedJob (StepJob (sj_run job) (sj_tenant job) (sj_session job) (sj_step job + 1)) None] else []);
  cd_event : ∃ l e, session_log d' (sj_session job) = session_log d (sj_session job) ++ l ++ [e] ∧
    ev_kind e = commit_event step rec;
}.

(** No open wait names the run, as parent or as member. *)
Definition no_waits (id : RunID) (d : DB) : Prop :=
  ∀ i w, db_waits d !! i = Some w → is_open w = true → rw_parent w ≠ id ∧ member_of d (rw_id w) id = false.

Lemma bool_filter_nil {A} (f : A → bool) l : (∀ x, x ∈ l → f x = false) → bool_filter f l = [].
Proof.
  intros Hf. destruct (bool_filter f l) as [|x k] eqn:E; [done|]. exfalso.
  assert (x ∈ bool_filter f l) as Hx by (rewrite E; left). apply elem_of_bool_filter in Hx as [Hx Hin].
  by rewrite Hf in Hx.
Qed.

Lemma no_waits_parent t id d : no_waits id d → ListOpenForParent t id d = (d, Ok []).
Proof.
  intros Hn. unfold ListOpenForParent, mbind, M_bind, get. simpl. rewrite bool_filter_nil; [done|].
  intros w [i Hi]%elem_of_map_to_list_values. destruct (is_open w) eqn:Ho; [|by rewrite andb_false_r].
  destruct (Hn i w Hi Ho) as [Hp _]. by rewrite bool_decide_eq_false_2.
Qed.
Lemma no_waits_child t id d : no_waits id d → ListOpenForChild t id d = (d, Ok []).
Proof.
  intros Hn. unfold ListOpenForChild, mbind, M_bind, get. simpl. rewrite bool_filter_nil; [done|].
  intros w [i Hi]%elem_of_map_to_list_values. destruct (is_open w) eqn:Ho; [|by rewrite andb_false_r].
  destruct (Hn i w Hi Ho) as [_ Hm]. by rewrite Hm.
Qed.
Lemma no_waits_frame id d d' :
  db_waits d' = db_waits d → db_members d' = db_members d → no_waits id d → no_waits id d'.
Proof. unfold no_waits, member_of. by intros -> ->. Qed.

Lemma wp_txStale {A} (fn : handle → M DB A) (Q : result A → DB → Prop) d :
  wp (fn TxBound) (λ r d', match r with
    | Ok a => Q (Ok a) d' | Err ErrCancelledCommit => Q (Err ErrStale) d' | Err e => Q (Err e) d end) d →
  wp (txStale fn) Q d.
Proof.
  unfold wp, txStale. simpl. unfold atomically, attempt, mbind, M_bind.
  destruct (fn TxBound d) as [d' [a|[]]]; done.
Qed.

Lemma wp_appendTx n job k p (Q : result unit → DB → Prop) d :
  room (n + 1) (sj_tenant job) (sj_session job) d → (0 ≤ n)%Z →
  (∀ seq d', room n (sj_tenant job) (sj_session job) d' → outside_log d d' →
     session_log d' (sj_session job) =
       session_log d (sj_session job) ++ [event_row d (sj_session job) seq (NewEvent (ActorAgent (sj_run job)) k p)] →
     Q (Ok ()) d') →
  wp (appendTx TxBound job k p) Q d.
Proof.
  intros Hr H0' HQ. unfold appendTx. apply wp_bind, (wp_Append_room n); [done|done|]. intros seq d' ???. apply wp_ret. eauto.
Qed.

(** An update of the run of a job whose row is known. *)
Lemma wp_exec_row t i f r (Q : result unit → DB → Prop) d :
  run_of d t i = Some r → (∀ n r, ar_tenant (f n r) = ar_tenant r) →
  (∀ d', d' = with_runs (<[i := f (db_now d) r]> (db_runs d)) d → run_of d' t i = Some (f (db_now d) r) → Q (Ok ()) d') →
  wp (run_exec t i f) Q d.
Proof.
  intros Hr Hf HQ. apply wp_run_exec; [|congruence]. intros r' Hr'. simplify_eq. apply HQ; [done|].
  apply run_of_Some in Hr as [_ Ht]. apply run_of_Some. simpl. rewrite lookup_insert_eq, Hf. done.
Qed.

(** What holds when a job's step is ready to be committed. *)
Record commit_ready (job : StepJob_) (d : DB) : Prop := {
  cr_run : ∃ run, run_of d (sj_tenant job) (sj_run job) = Some run ∧ ar_state run = RunRunning ∧
    ar_cancel_requested_at run = None ∧ ar_session run = sj_session job;
  cr_new : ¬ committed d job;
  cr_room : room 3 (sj_tenant job) (sj_session job) d;
  cr_waits : no_waits (sj_run job) d;
}.

Lemma InsertStep_new job step r d :
  ¬ committed d job → run_of d (sj_tenant job) (sj_run job) = Some r →
  rs_run step = sj_run job → rs_step_index step = sj_step job →
  InsertStep (sj_tenant job) step d =
  (with_steps (db_steps d ++ [MkRunStep (rs_run step) (rs_step_index step) (rs_attempt step) (rs_tokens_in step)
     (rs_tokens_out step) (rs_finish_reason step) (db_now d)]) d, Ok ()).
Proof.
  intros Hn Hr E1 E2. unfold InsertStep, mbind, M_bind, get. simpl. rewrite E1, Hr.
  destruct (existsb _ _) eqn:Ex; [|done]. exfalso. apply existsb_exists in Ex as (s & Hs & Hb).
  apply andb_true_iff in Hb as [H1%bool_decide_eq_true H2%bool_decide_eq_true]. apply Hn. exists s.
  split; [by apply list_elem_of_In|]. split; congruence.
Qed.

(** The classification, once the step is recorded in [d4]. *)
Lemma classify_done clock run job att encoded step content rec d d4 r4 l :
  waitRunIDs rec = [] → room 1 (sj_tenant job) (sj_session job) d4 → no_waits (sj_run job) d4 →
  ar_tenant run = sj_tenant job → ar_id run = sj_run job →
  run_of d4 (sj_tenant job) (sj_run job) = Some r4 → ar_state r4 = RunRunning → ar_history r4 = encoded →
  db_jobs d4 = db_jobs d →
  db_steps d4 = db_steps d ++
    [MkRunStep (sj_run job) (sj_step job) att (stInputTokens step) (stOutputTokens step) (stFinishReason step) (db_now d)] →
  (∃ e, session_log d4 (sj_session job) = session_log d (sj_session job) ++ l ++ [e] ∧ ev_kind e = EventKindStepFinished) →
  wp (classify_outcome TxBound clock run job step content rec)
    (λ res d', res = Ok () ∧ commit_done job att encoded step content rec d d') d4.
Proof.
  intros Hw Hroom Hnw Ht Hid Hr4 Hst Hh Hj Hs (e & Hl & He). unfold classify_outcome.
  rewrite Hw. cbn [length]. rewrite bool_decide_eq_false_2 by lia. destruct (question rec) as [q|] eqn:Hq.
  - apply wp_bind, (wp_exec_row _ _ _ r4); [done|done|]. intros d5 -> Hr5.
    apply (wp_appendTx 0); [by apply (room_frame _ _ _ d4)|done|]. intros seq d6 _ (E1 & E2 & E3 & E4 & E5 & E6) Hl6.
    split; [done|]. assert (commit_state step rec = RunAwaiting) as Hcs by (unfold commit_state; by rewrite Hq).
    constructor.
    + eexists. unfold run_of. rewrite E2. split; [exact Hr5|]. rewrite Hcs. done.
    + by rewrite E3.
    + rewrite E6, Hcs. simpl. by rewrite app_nil_r.
    + eexists (l ++ [e]), _. rewrite Hl6. change (session_log (with_runs _ _)) with (session_log d4). rewrite Hl.
      rewrite <-!app_assoc. split; [done|]. unfold commit_event. by rewrite Hcs.
  - case_bool_decide as Hf.
    + apply wp_modify. split; [done|].
      assert (commit_state step rec = RunRunning) as Hcs by (unfold commit_state; by rewrite Hq, bool_decide_eq_true_2).
      constructor.
      * exists r4. split; [exact Hr4|]. rewrite Hcs. done.
      * done.
      * rewrite Hcs. simpl. by rewrite Hj.
      * exists l, e. split; [done|]. unfold commit_event. by rewrite Hcs.
    + assert (commit_state step rec = RunCompleted) as Hcs by (unfold commit_state; by rewrite Hq, bool_decide_eq_false_2).
      apply wp_bind, (wp_exec_row _ _ _ r4); [done|done|]. intros d5 -> Hr5.
      apply wp_bind, (wp_exec_row _ _ _ _ _ _ Hr5); [done|]. intros d6 -> Hr6.
      apply wp_bind, (wp_appendTx 0); [by apply (room_frame _ _ _ d4)|done|].
      intros seq d7 _ (E1 & E2 & E3 & E4 & E5 & E6) Hl7.
      assert (no_waits (sj_run job) d7) as Hnw7 by (by apply (no_waits_frame _ d4)).
      apply wp_bind. unfold abandonParentWaits. unfold wp at 1, mbind, M_bind.
      rewrite (no_waits_parent _ _ _ Hnw7). cbn [for_each mret M_ret fst snd]. unfold resolveChildWaits.
      change (ar_id (set_state RunCompleted _ run)) with (ar_id run). rewrite Hid. apply wp_bind. unfold wp at 1.
      rewrite (no_waits_child _ _ _ Hnw7). split; [done|].
      change (commit_done job att encoded step content rec d d7). constructor.
      * eexists. unfold run_of. rewrite E2. split; [exact Hr6|]. rewrite Hcs. done.
      * by rewrite E3.
      * rewrite E6, Hcs. simpl. by rewrite app_nil_r.
      * eexists (l ++ [e]), _. rewrite Hl7. change (session_log (with_runs _ _)) with (session_log d4). rewrite Hl.
        rewrite <-!app_assoc. split; [done|]. unfold commit_event. by rewrite Hcs.
Qed.

(** ** Property *)

(** C14: a commit.  When the run is running and not asked to stop, the step is
    not committed yet, and the step neither waits for children nor has a waiting
    parent, the commit succeeds: the step is recorded, the new history stored,
    and the run is awaiting when a question was posed, running with exactly one
    job for the next step when the model called tools, and completed with the
    final text as its result otherwise, the log ending in the matching event. *)
Theorem commit_effect clock job att env result step more rec d :
  keyed d → commit_ready job d → arSteps result = step :: more → waitRunIDs rec = [] →
  ∃ d', commitOutcome clock job att env result rec d = (d', Ok ()) ∧
    commit_done job att (Encode (MkEnvelope (envV env) (envMessages env ++ stMessages step) (envCompactions env)))
      step (arContent result) rec d d'.
Proof.
  intros Hk [(run & Hrun & Hst & Hc & Hses) Hnew Hroom Hnw] Hsteps Hw.
  set (encoded := Encode _).
  enough (wp (commitOutcome clock job att env result rec)
    (λ res d', res = Ok () ∧ commit_done job att encoded step (arContent result) rec d d') d) as [Hres Hd].
  { eexists. split; [|exact Hd]. by rewrite <-Hres, <-surjective_pairing. }
  unfold commitOutcome. rewrite Hsteps. fold encoded. apply wp_bind, wp_attempt, wp_txStale. unfold commit_tx.
  pose proof (run_of_keyed _ _ _ _ Hk Hrun) as Hid. pose proof Hrun as [Hrow Hten]%run_of_Some.
  apply wp_bind, wp_RunGetForUpdate; [|congruence]. intros run' Hrun'. rewrite Hrun in Hrun'. injection Hrun' as <-.
  rewrite (bool_decide_eq_true_2 _ Hst), Hc, bool_decide_eq_false_2 by (intros [? ?]; done). cbn [negb].
  apply wp_bind, (wp_exec_row _ _ _ run); [done|done|]. intros d1 Hd1 Hr1.
  assert (¬ committed d1 job) as Hnew1 by (rewrite Hd1; exact Hnew).
  apply wp_bind, wp_attempt. unfold wp at 1.
  rewrite (InsertStep_new job _ _ _ Hnew1 Hr1); [|done|done]. cbn [fst snd].
  set (d2 := with_steps _ _).
  assert (db_waits d2 = db_waits d ∧ db_members d2 = db_members d ∧ db_jobs d2 = db_jobs d ∧
    db_runs d2 = db_runs d1 ∧ db_sessions d2 = db_sessions d ∧ db_events d2 = db_events d ∧
    db_steps d2 = db_steps d ++ [MkRunStep (sj_run job) (sj_step job) att (stInputTokens step) (stOutputTokens step)
                                   (stFinishReason step) (db_now d)]) as (W2 & M2 & J2 & R2 & S2 & L2 & T2)
    by (unfold d2; rewrite Hd1; done).
  clearbody d2. clear Hd1 Hnew1.
  apply wp_bind, (wp_account 2 (sj_tenant job) (sj_session job)); [by apply (room_frame _ _ _ d)|lia|done|done|].
  intros d3 l Hroom3 (E1 & E2 & E3 & E4 & E5 & E6) Hl3.
  apply wp_bind, (wp_appendTx 1); [done|lia|]. intros seq d4 Hroom4 (F1 & F2 & F3 & F4 & F5 & F6) Hl4.
  eapply wp_mono.
  { apply (classify_done clock run job att encoded step (arContent result) rec d d4
      (upd_history encoded (db_now d) run) l); try done; try congruence.
    - apply (no_waits_frame _ d); [congruence..|done].
    - unfold run_of in Hr1 |- *. by rewrite F2, E2, R2.
    - eexists. rewrite Hl4, Hl3, <-app_assoc. unfold session_log. rewrite L2. done. }
  intros res d' [-> Hdone]. by apply wp_ret.
Qed.
End commit.

(** ** Witness *)

Lemma commit_effect_witness :
  ∃ d', commitOutcome 100 (parent_job 0) 1 (demo_envelope "hello") (one_step "tool-calls" "") new_recorder d_running =
    (d', Ok ()) ∧
    db_jobs d' = db_jobs d_running ++ [MkQueuedJob (StepJob "r1" "acme" "s1" 1) None].
Proof.
  destruct (reachable_wf demo_service d_running running_reachable) as (Hg & _ & _ & _ & _ & Hk & _).
  destruct (commit_effect 100 (parent_job 0) 1 (demo_envelope "hello") (one_step "tool-calls" "")
    (MkStepResult [] 10 20 "tool-calls") [] new_recorder d_running Hk) as (d' & E & Hdone).
  - constructor.
    + exists (row_of d_running "r1"). split_and!; vm_compute; reflexivity.
    + intros (s & Hs & _). vm_compute in Hs. inversion Hs.
    + split; [exact Hg|]. exists (session_at d_running). split; [vm_compute; reflexivity|]. vm_compute. discriminate.
    + intros i w Hw. replace (db_waits d_running) with (∅ : gmap string RunWait) in Hw by (vm_compute; reflexivity).
      by rewrite lookup_empty in Hw.
  - reflexivity.
  - reflexivity.
  - exists d'. split; [exact E|]. rewrite (cd_jobs _ _ _ _ _ _ _ _ Hdone). reflexivity.
Defined.
