(* ===== verification/ToolSpec.v ===== *)
(** * What a step lets the model do

    Which tools are offered, and that a call of a tool the policy does not
    grant has no effect but the record of its denial. *)
From S2P Require Import Prelude Policy Domain Text Store StoreRuns EventLog Loop Waits Batcher Tools Step Api.
From S2P Require Import ResourceStore OperatorTx ResourceWork Frames Invariants RunStates System WorkSteps Scenario.

(** The tools of the loop itself. *)
Definition own_tools (p : RunPolicy) : list string := native_tools p ++ memoryTools p ++ spawnTools p.

Lemma own_tools_allowed p name :
  name ∈ own_tools p → name ≠ "wait_for_agents" → AllowsTool p name = true.
Proof.
  unfold own_tools, native_tools, spawnTools. intros Hin Hne.
  apply elem_of_app in Hin as [Hin|[Hin|Hin]%elem_of_app].
  - apply elem_of_app in Hin as [Hin|Hin]; case_match; set_solver.
  - by apply elem_of_bool_filter in Hin as [? _].
  - destruct (AllowsTool p "spawn_agent") eqn:Es; simpl in Hin; [|set_solver].
    repeat (apply elem_of_cons in Hin as [->|Hin]; [done|]). case_match; set_solver.
Qed.

Section tools.
Context `{Uuid} `{Durations}.

(** A denied tool.  A call of a tool of the loop that the run's policy
    does not allow, other than [wait_for_agents], changes nothing but the event
    log: no run, wait, memory entry, step or job, and the step does not park. *)
Theorem denied_tool_has_no_effect env dynamic run job callID fresh i rec d :
  AllowsTool (ar_policy run) (input_tool i) = false → input_tool i ≠ "wait_for_agents" → input_tool i ∉ dynamic →
  (dispatch env dynamic run job (ActNative callID fresh i) rec d).2 = Ok rec ∧
  touches_log d (dispatch env dynamic run job (ActNative callID fresh i) rec d).1.
Proof.
  intros Ha Hw Hd. unfold dispatch. rewrite bool_decide_eq_false_2, (bool_decide_eq_false_2 (_ ∈ dynamic)); [|done|].
  - unfold permissionDenied, ignore, mbind, M_bind. simpl. split; [done|].
    apply (log_Append Pool (ar_tenant run) (ar_session run)).
  - intros Hin. apply own_tools_allowed in Hin; congruence.
Qed.

(** Every canonical tool is answered.  With whatever dynamic tools, each
    canonical tool is either offered or answered by a denial stub, never both;
    and no tool of the loop is offered against the policy except
    [wait_for_agents]. *)
Theorem canonical_tools_answered p dynamic name :
  name ∈ CanonicalTools →
  (name ∈ step_tools p dynamic ↔ name ∉ denialStubs (step_tools p dynamic)) ∧
  (name ∈ own_tools p → AllowsTool p name = true ∨ name = "wait_for_agents").
Proof.
  intros Hc. split.
  - unfold denialStubs. rewrite elem_of_bool_filter, negb_true_iff, bool_decide_eq_false. split; [naive_solver|].
    intros Hn. destruct (decide (name ∈ step_tools p dynamic)); naive_solver.
  - intros Hin. destruct (decide (name = "wait_for_agents")); [by right|]. left. by apply own_tools_allowed.
Qed.
End tools.

(** ** Witnesses *)

Definition mute_run : AgentRun :=
  new_run "r9" "acme" "s1" ActorSystem demo_model "x" (MkRunPolicy ["post_event"] [] [] 0 false).

Lemma denied_tool_has_no_effect_witness :
  (dispatch demo_env [] mute_run (MkStepJob "r9" "acme" "s1" 0)
     (ActNative "call-1" (λ _, "c9") (InSpawn (MkChildSpec "go" None None))) new_recorder d_running).2 = Ok new_recorder.
Proof.
  apply (denied_tool_has_no_effect demo_env [] mute_run (MkStepJob "r9" "acme" "s1" 0) "call-1" (λ _, "c9")
    (InSpawn (MkChildSpec "go" None None)) new_recorder d_running); [reflexivity|discriminate|].
  apply not_elem_of_nil.
Defined.

Lemma canonical_tools_answered_witness : "bash" ∉ denialStubs (step_tools DefaultRunPolicy ["bash"]).
Proof.
  apply (canonical_tools_answered DefaultRunPolicy ["bash"] "bash").
  - apply (bool_decide_unpack _). vm_compute. exact I.
  - apply (bool_decide_unpack _). vm_compute. exact I.
Defined.
