(* ===== verification/Strings.v ===== *)
(** * Strings of the Go standard library

    [strings.TrimSpace], [strings.ToLower], [strings.HasPrefix],
    [strings.Contains] and [utf8.ValidString] on the bytes of a string, as the admin packages use
    them. *)
From S2P Require Import Prelude Policy Domain Text.

(** The size of the white space rune ([unicode.IsSpace]) at the head, or 0. *)
Definition space_head (l : list Z) : nat :=
  match l with
  | x :: rest =>
      if (x =? 32)%Z || between 9 x 13 then 1
      else match rest with
           | y :: rest' =>
               if (x =? 194)%Z && ((y =? 133)%Z || (y =? 160)%Z) then 2
               else match rest' with
                    | z :: _ =>
                        if ((x =? 225)%Z && (y =? 154)%Z && (z =? 128)%Z) ||
                           ((x =? 226)%Z && (y =? 128)%Z &&
                              (between 128 z 138 || (z =? 168)%Z || (z =? 169)%Z || (z =? 175)%Z)) ||
                           ((x =? 226)%Z && (y =? 129)%Z && (z =? 159)%Z) ||
                           ((x =? 227)%Z && (y =? 128)%Z && (z =? 128)%Z)
                        then 3 else 0
                    | [] => 0
                    end
           | [] => 0
           end
  | [] => 0
  end.

(** The same for the rune at the end of a string, given back to front. *)
Definition space_tail (l : list Z) : nat :=
  match l with
  | x :: y :: z :: _ =>
      if (space_head [x] =? 1)%nat then 1
      else if (space_head [y; x] =? 2)%nat then 2
      else if (space_head [z; y; x] =? 3)%nat then 3 else 0
  | [x; y] => if (space_head [x] =? 1)%nat then 1 else if (space_head [y; x] =? 2)%nat then 2 else 0
  | [x] => if (space_head [x] =? 1)%nat then 1 else 0
  | [] => 0
  end.

(** Drops white space from the front; [skip] counts the bytes of a rune still
    to be dropped. *)
Fixpoint trim_front (size : list Z → nat) (skip : nat) (l : list Z) : list Z :=
  match l with
  | [] => []
  | _ :: rest =>
      match skip with
      | S k => trim_front size k rest
      | O => match size l with O => l | S k => trim_front size k rest end
      end
  end.

Definition trim_space (l : list Z) : list Z :=
  reverse (trim_front space_tail 0 (reverse (trim_front space_head 0 l))).

Definition TrimSpace (s : string) : string := of_bytes (trim_space (bytes_of s)).

(** [strings.ToLower], as far as its result can be an ASCII string: besides the
    ASCII capitals, the dotted capital I and the Kelvin sign have an ASCII lower
    case.  Other runes are left alone; their lower case is not ASCII either. *)
Fixpoint lower_bytes (skip : nat) (l : list Z) : list Z :=
  match l with
  | [] => []
  | x :: rest =>
      match skip with
      | S k => lower_bytes k rest
      | O =>
          if between 65 x 90 then (x + 32)%Z :: lower_bytes 0 rest
          else match rest with
               | y :: rest' =>
                   if (x =? 196)%Z && (y =? 176)%Z then 105%Z :: lower_bytes 1 rest
                   else match rest' with
                        | z :: _ =>
                            if (x =? 226)%Z && (y =? 132)%Z && (z =? 170)%Z then 107%Z :: lower_bytes 2 rest
                            else x :: lower_bytes 0 rest
                        | [] => x :: lower_bytes 0 rest
                        end
               | [] => x :: lower_bytes 0 rest
               end
      end
  end.

Definition ToLower (s : string) : string := of_bytes (lower_bytes 0 (bytes_of s)).

(** [strings.HasPrefix] and the rest of the string. *)
Fixpoint cut_prefix (p s : string) : option string :=
  match p, s with
  | EmptyString, _ => Some s
  | String a p', String b s' => if Ascii.eqb a b then cut_prefix p' s' else None
  | String _ _, EmptyString => None
  end.

(** [strings.Contains] *)
Fixpoint Contains (s sub : string) : bool :=
  match cut_prefix sub s with
  | Some _ => true
  | None => match s with EmptyString => false | String _ s' => Contains s' sub end
  end.

Lemma cut_prefix_Some p s r : cut_prefix p s = Some r ↔ s = String.append p r.
Proof.
  revert s. induction p as [|a p IH]; intros s; simpl; [split; [by intros [= ->]|by intros ->]|].
  destruct s as [|b s]; [done|]. destruct (Ascii.eqb_spec a b) as [->|Hne]; [|split; [done|by intros [= ? ?]]].
  rewrite IH. split; [by intros ->|by intros [= ->]].
Qed.

(** [utf8.ValidString] *)
Fixpoint utf8_fuel (fuel : nat) (l : list Z) : bool :=
  match fuel, l with
  | _, [] => true
  | O, _ => false
  | S fuel', b :: _ => ((b <? 128)%Z || (1 <? rune_size l)%nat) && utf8_fuel fuel' (drop (rune_size l) l)
  end.
Definition valid_utf8 (s : string) : bool := utf8_fuel (String.length s) (bytes_of s).

(** ** Occurrences *)

Definition occurs {A} (x s : list A) : Prop := ∃ a b, s = a ++ x ++ b.

Lemma occurs_app_l {A} (x s t : list A) : occurs x s → occurs x (s ++ t).
Proof. intros (a & b & ->). exists a, (b ++ t). by rewrite <-!app_assoc. Qed.
Lemma occurs_app_r {A} (x s t : list A) : occurs x t → occurs x (s ++ t).
Proof. intros (a & b & ->). exists (s ++ a), b. by rewrite <-!app_assoc. Qed.
Lemma occurs_trans {A} (x y s : list A) : occurs x y → occurs y s → occurs x s.
Proof. intros (a & b & ->) (c & e & ->). apply occurs_app_r, occurs_app_l. by exists a, b. Qed.

Lemma occurs_cons {A} (x : list A) c s : occurs x (c :: s) → x `prefix_of` c :: s ∨ occurs x s.
Proof.
  intros ([|c' a] & b & E); simpl in E; [left; by exists b|right]. simplify_eq. by exists a, b.
Qed.

(** A character that [x] lacks separates its occurrences. *)
Lemma occurs_sep {A} (x a b : list A) c : c ∉ x → x ≠ [] → occurs x (a ++ c :: b) → occurs x a ∨ occurs x b.
Proof.
  intros Hc Hx. induction a as [|e a IH]; simpl; intros H.
  - apply occurs_cons in H as [[r H]|H]; [|by right]. destruct x as [|y x]; [done|].
    simplify_eq/=. exfalso. apply Hc. by left.
  - apply occurs_cons in H as [[r H]|H].
    + left. exists [].
      assert (∃ r', e :: a = x ++ r') as [r' ->]; [|by exists r'].
      assert (length x ≤ length (e :: a))%nat as Hlen.
      { destruct (decide (length x ≤ length (e :: a))%nat) as [|Hl]; [done|]. exfalso. apply Hc.
        apply (list_elem_of_lookup_2 _ (length (e :: a))).
        rewrite <-(lookup_app_l x r) by lia. rewrite <-H.
        change (e :: a ++ c :: b) with ((e :: a) ++ c :: b). by apply list_lookup_middle. }
      exists (drop (length x) (e :: a)).
      rewrite <-(take_drop (length x) (e :: a)) at 1. f_equal.
      change (e :: a ++ c :: b) with ((e :: a) ++ c :: b) in H.
      apply (f_equal (take (length x))) in H. rewrite take_app_length, take_app_le in H by done. done.
    + destruct (IH H) as [?|?]; [left|by right]. by apply (occurs_app_r x [e] a).
Qed.

Example trim_example : TrimSpace " a b	" = "a b".
Proof. vm_compute. reflexivity. Qed.
