(* ===== verification/Redact.v ===== *)
(** * Secret redaction (package [secrets])

    [secrets/redact.go]: the redactor with the encoded forms it registers and
    the logging handler that passes every message and string attribute through
    it.  [strings.ReplaceAll], [url.QueryEscape], [url.PathEscape], both base64
    encodings and the JSON string escaping are written out on the bytes of a
    string.  A handler wrapped by [RedactingHandler] is what it receives: the
    record. *)
From S2P Require Import Prelude Policy Domain Text Strings.

(** ** Standard library *)

Definition hex_digit (upper : bool) (n : Z) : Z :=
  if (n <? 10)%Z then n + 48 else if upper then n + 55 else n + 87.

Definition unreserved (c : Z) : bool :=
  between 97 c 122 || between 65 c 90 || between 48 c 57 ||
  (c =? 45)%Z || (c =? 95)%Z || (c =? 46)%Z || (c =? 126)%Z.

Definition percent (c : Z) : list Z :=
  [37; hex_digit true (Z.shiftr c 4); hex_digit true (Z.land c 15)]%Z.

(** [url.QueryEscape]: a space becomes a plus sign. *)
Definition QueryEscape (l : list Z) : list Z :=
  l ≫= λ c, if unreserved c then [c] else if (c =? 32)%Z then [43%Z] else percent c.

(** [url.PathEscape] also keeps [$ & + : = @]. *)
Definition PathEscape (l : list Z) : list Z :=
  l ≫= λ c, if unreserved c || bool_decide (c ∈ [36; 38; 43; 58; 61; 64]%Z) then [c] else percent c.

(** The padded alphabet of [base64.StdEncoding]. *)
Definition std_char (c : Z) : Z :=
  if (c =? 45)%Z then 43%Z else if (c =? 95)%Z then 47%Z else c.
Definition b64_std (l : list Z) : list Z :=
  let enc := std_char <$> b64_encode l in
  enc ++ replicate ((4 - length enc mod 4) mod 4) 61%Z.

(** One byte of a JSON string, as [json.Marshal] escapes it. *)
Definition json_byte (c : Z) : list Z :=
  if (c =? 34)%Z || (c =? 92)%Z then [92%Z; c]
  else if (c =? 8)%Z then [92; 98]%Z
  else if (c =? 12)%Z then [92; 102]%Z
  else if (c =? 10)%Z then [92; 110]%Z
  else if (c =? 13)%Z then [92; 114]%Z
  else if (c =? 9)%Z then [92; 116]%Z
  else if (c <? 32)%Z || bool_decide (c ∈ [60; 62; 38]%Z)
  then [92; 117; 48; 48; hex_digit false (Z.shiftr c 4); hex_digit false (Z.land c 15)]%Z
  else [c].

(** Runes above ASCII pass through, except the line separators and what is not
    UTF-8. *)
Fixpoint json_escape_fuel (fuel : nat) (l : list Z) : list Z :=
  match fuel, l with
  | S fuel', c :: rest =>
      if (c <? 128)%Z then json_byte c ++ json_escape_fuel fuel' rest
      else
        let k := rune_size l in
        (if bool_decide (k = 1%nat) then bytes_of "\ufffd"
         else if bool_decide (take k l = [226; 128; 168]%Z) then bytes_of "\u2028"
         else if bool_decide (take k l = [226; 128; 169]%Z) then bytes_of "\u2029"
         else take k l) ++ json_escape_fuel fuel' (drop k l)
  | _, _ => []
  end.
Definition json_escape (l : list Z) : list Z := json_escape_fuel (length l) l.

Fixpoint is_prefix (x s : list Z) : bool :=
  match x, s with
  | [], _ => true
  | a :: x', b :: s' => (a =? b)%Z && is_prefix x' s'
  | _ :: _, [] => false
  end.

(** [strings.ReplaceAll] for a non-empty [old]: leftmost occurrences, without
    overlap.  [skip] counts the bytes of the occurrence still to be passed. *)
Fixpoint replace_all (old new : list Z) (skip : nat) (s : list Z) : list Z :=
  match s with
  | [] => []
  | c :: s' =>
      match skip with
      | S k => replace_all old new k s'
      | O =>
          if is_prefix old s then new ++ replace_all old new (pred (length old)) s'
          else c :: replace_all old new 0 s'
      end
  end.

(** ** The redactor *)

Definition encodings (value : string) : list string :=
  let v := bytes_of value in
  [value; of_bytes (QueryEscape v); of_bytes (PathEscape v); of_bytes (b64_std v);
   of_bytes (b64_encode v); of_bytes (json_escape v)].

Definition Redactor : Type := list string.

Definition register_form (r : Redactor) (form : string) : Redactor :=
  if (6 <=? slen form)%Z && negb (existsb (λ s, bool_decide (s = form)) r) then r ++ [form] else r.

Definition register_value (r : Redactor) (v : string) : Redactor :=
  if (slen v <? 6)%Z then r else foldl register_form r (encodings v).

Definition Register (values : list string) (r : Redactor) : Redactor := foldl register_value r values.

Definition marker : list Z := bytes_of "[redacted]".

Definition Redact (r : Redactor) (s : string) : string :=
  of_bytes (foldl (λ acc secret, replace_all (bytes_of secret) marker 0 acc) (bytes_of s) r).

(** ** The logging handler *)

(** The kinds of [slog.Value] the handler tells apart: strings, [any] values by
    their rendering, groups, and everything else. *)
Inductive attr_value :=
  | KindString (s : string)
  | KindAny (rendered : string)
  | KindGroup (attrs : list (string * string))
  | KindOther (rendered : string).

Record Attr := MkAttr { atKey : string; atValue : attr_value }.
Record LogRecord := MkLogRecord { lrMessage : string; lrAttrs : list Attr }.

Definition redactAttr (r : Redactor) (a : Attr) : Attr :=
  match atValue a with
  | KindString s | KindAny s => MkAttr (atKey a) (KindString (Redact r s))
  | _ => a
  end.

(** What [Handle] passes to the wrapped handler. *)
Definition Handle (r : Redactor) (rec : LogRecord) : LogRecord :=
  MkLogRecord (Redact r (lrMessage rec)) (redactAttr r <$> lrAttrs rec).

Definition WithAttrs (r : Redactor) (attrs : list Attr) : list Attr := redactAttr r <$> attrs.

(** ** What [ReplaceAll] returns *)

Fixpoint join (sep : list Z) (gaps : list (list Z)) : list Z :=
  match gaps with
  | [] => []
  | [g] => g
  | g :: rest => g ++ sep ++ join sep rest
  end.

Lemma is_prefix_spec x s : is_prefix x s = true ↔ x `prefix_of` s.
Proof.
  revert s. induction x as [|a x IH]; intros s; simpl; [split; [|done]; intros _; by exists s|].
  destruct s as [|b s]; [split; [done|]; intros [? ?]; done|].
  rewrite andb_true_iff, Z.eqb_eq, IH. split.
  - intros [-> [r ->]]. by exists r.
  - intros [r E]. simplify_eq/=. split; [done|]. by exists r.
Qed.

Lemma replace_all_skip old new k s : replace_all old new k s = replace_all old new 0 (drop k s).
Proof. revert k. induction s as [|c s IH]; intros [|k]; try done. simpl. apply IH. Qed.

Lemma replace_all_spec old new s : old ≠ [] → ∃ gaps, gaps ≠ [] ∧ s = join old gaps ∧
  replace_all old new 0 s = join new gaps ∧ Forall (λ g, ¬ occurs old g) gaps.
Proof.
  intros Hold. induction s as [s IH] using (induction_ltof1 _ length). unfold ltof in IH.
  destruct s as [|c s].
  { exists [[]]. split_and!; [done..|]. constructor; [|constructor].
    intros (a & b & E). by destruct a, old. }
  cbn [replace_all]. destruct (is_prefix old (c :: s)) eqn:Hp.
  - apply is_prefix_spec in Hp as [r Hr]. destruct old as [|o old]; [done|]. simplify_eq/=.
    rewrite replace_all_skip, drop_app_length.
    destruct (IH r) as (gaps & Hne & E1 & E2 & Hg); [rewrite length_app; simpl; lia|].
    exists ([] :: gaps). destruct gaps as [|g gaps]; [done|]. split_and!; [done| | |].
    + by rewrite E1 at 1.
    + by rewrite E2.
    + constructor; [|done]. intros (a & b & E). by destruct a.
  - destruct (IH s) as (gaps & Hne & E1 & E2 & Hg); [simpl; lia|].
    destruct gaps as [|g gaps]; [done|]. exists ((c :: g) :: gaps).
    assert (∃ t, s = g ++ t ∧ join old ((c :: g) :: gaps) = c :: g ++ t) as (t & Es & Ej).
    { destruct gaps as [|g' gaps]; [exists []; rewrite app_nil_r; done|]. exists (old ++ join old (g' :: gaps)). done. }
    split_and!; [done| | |].
    + rewrite Ej, Es. done.
    + rewrite E2. by destruct gaps.
    + apply Forall_cons in Hg as [Hg1 Hg]. constructor; [|done]. intros [[r Hr]|?]%occurs_cons; [|done].
      assert (is_prefix old (c :: s) = true) as Ht; [|congruence].
      apply is_prefix_spec. exists (r ++ t). rewrite Es. change (c :: g ++ t) with ((c :: g) ++ t).
      by rewrite Hr, <-app_assoc.
Qed.

(** A secret that cannot overlap the marker. *)
Definition clear_of_marker (x : list Z) : Prop :=
  x ≠ [] ∧ 91%Z ∉ x ∧ 93%Z ∉ x ∧ ¬ occurs x (bytes_of "redacted").

Lemma gap_occurs old gaps g : g ∈ gaps → occurs g (join old gaps).
Proof.
  induction gaps as [|h gaps IH]; [by intros ?%not_elem_of_nil|].
  intros [->|Hin]%elem_of_cons.
  - destruct gaps; [exists [], []; by rewrite app_nil_r|]. exists []. by eexists.
  - destruct gaps as [|h' gaps]; [by apply not_elem_of_nil in Hin|].
    cbn [join]. by apply occurs_app_r, occurs_app_r, IH.
Qed.

Lemma marker_join x gaps : clear_of_marker x → occurs x (join marker gaps) → ∃ g, g ∈ gaps ∧ occurs x g.
Proof.
  intros (Hne & Ho & Hc & Hr). induction gaps as [|g gaps IH]; simpl.
  { intros (a & b & E). by destruct a, x. }
  destruct gaps as [|g' gaps]; [intros; exists g; set_solver|]. intros H.
  change (marker ++ join marker (g' :: gaps))
    with (91%Z :: bytes_of "redacted" ++ 93%Z :: join marker (g' :: gaps)) in H.
  apply (occurs_sep x g) in H as [H|H]; [exists g; set_solver| |done|done].
  apply (occurs_sep x (bytes_of "redacted")) in H as [H|H]; [done| |done|done].
  destruct (IH H) as (h & ? & ?). exists h. set_solver.
Qed.

Lemma replace_clear old x s : old ≠ [] → clear_of_marker x →
  occurs x (replace_all old marker 0 s) → occurs x s ∧ x ≠ old.
Proof.
  intros Ho Hx H. destruct (replace_all_spec old marker s Ho) as (gaps & _ & E1 & E2 & Hg).
  rewrite E2 in H. apply marker_join in H as (g & Hin & Hg'); [|done]. rewrite E1. split.
  - eapply occurs_trans; [done|]. by apply gap_occurs.
  - intros ->. rewrite Forall_forall in Hg. by apply (Hg g).
Qed.

Lemma replace_none old new s : old ≠ [] → ¬ occurs old s → replace_all old new 0 s = s.
Proof.
  intros Ho Hs. destruct (replace_all_spec old new s Ho) as (gaps & Hne & E1 & E2 & _).
  destruct gaps as [|g [|g' gaps]]; [done|by rewrite E2, E1|].
  destruct Hs. rewrite E1. cbn [join]. apply occurs_app_r, occurs_app_l. exists [], []. by rewrite app_nil_r.
Qed.

(** ** Redacting *)

Lemma bytes_of_nonempty s : s ≠ "" → bytes_of s ≠ [].
Proof. by destruct s. Qed.

Lemma replace_range old s : Forall (λ n, 0 ≤ n < 256)%Z s →
  Forall (λ n, 0 ≤ n < 256)%Z (replace_all old marker 0 s).
Proof.
  intros Hs. cut (∀ k, Forall (λ n, 0 ≤ n < 256)%Z (replace_all old marker k s)); [done|].
  induction Hs as [|c s Hc Hs IH]; intros k; [constructor|]. cbn [replace_all]. destruct k; [|apply IH].
  case_match; [|by constructor]. apply Forall_app. split; [apply bytes_of_range|apply IH].
Qed.

Definition scrub (r : Redactor) (s : list Z) : list Z :=
  foldl (λ acc secret, replace_all (bytes_of secret) marker 0 acc) s r.

Lemma scrub_range r s : Forall (λ n, 0 ≤ n < 256)%Z s → Forall (λ n, 0 ≤ n < 256)%Z (scrub r s).
Proof. revert s. induction r as [|x r IH]; intros s Hs; [done|]. simpl. by apply IH, replace_range. Qed.

Lemma scrub_clear r s x : (∀ y, y ∈ r → y ≠ "") → clear_of_marker x →
  occurs x (scrub r s) → occurs x s ∧ x ∉ (bytes_of <$> r).
Proof.
  intros Hne Hx. revert s. induction r as [|y r IH]; intros s H; [split; [done|set_solver]|].
  destruct (IH (λ z Hz, Hne z ltac:(set_solver)) _ H) as [H1 H2].
  destruct (replace_clear _ _ _ (bytes_of_nonempty y (Hne y ltac:(set_solver))) Hx H1) as [? ?].
  split; [done|]. set_solver.
Qed.

Lemma scrub_none r s : (∀ y, y ∈ r → y ≠ "" ∧ ¬ occurs (bytes_of y) s) → scrub r s = s.
Proof.
  induction r as [|y r IH]; [done|]. intros H. simpl. destruct (H y) as [? ?]; [set_solver|].
  rewrite replace_none by (done || by apply bytes_of_nonempty). apply IH. intros. apply H. set_solver.
Qed.

(** ** Registering *)

Lemma register_form_in r form : (6 ≤ slen form)%Z → form ∈ register_form r form.
Proof.
  intros Hl. unfold register_form. apply Z.leb_le in Hl. rewrite Hl. simpl.
  destruct (existsb _ r) eqn:E; simpl; [|set_solver].
  apply existsb_exists in E as (s & Hin & ->%bool_decide_eq_true). by apply list_elem_of_In.
Qed.
Lemma register_form_mono r form x : x ∈ r → x ∈ register_form r form.
Proof. unfold register_form. case_match; set_solver. Qed.
Lemma register_form_long r form x : x ∈ register_form r form → x ∈ r ∨ (x = form ∧ (6 ≤ slen x)%Z).
Proof.
  unfold register_form. destruct (_ && _) eqn:E; [|by left]. intros Hx. apply elem_of_app in Hx as [Hx|Hx]; [by left|]. apply list_elem_of_singleton in Hx as ->.
  apply andb_true_iff in E as [E%Z.leb_le _]. by right.
Qed.

Lemma foldl_form_mono forms r x : x ∈ r → x ∈ foldl register_form r forms.
Proof. revert r. induction forms; intros r Hx; [done|]. simpl. by apply IHforms, register_form_mono. Qed.
Lemma foldl_form_in forms r x : x ∈ forms → (6 ≤ slen x)%Z → x ∈ foldl register_form r forms.
Proof.
  revert r. induction forms as [|f forms IH]; intros r Hin Hl; [by apply not_elem_of_nil in Hin|].
  apply elem_of_cons in Hin as [->|Hin]; simpl; [by apply foldl_form_mono, register_form_in|by apply IH].
Qed.
Lemma foldl_form_from forms r x : x ∈ foldl register_form r forms → x ∈ r ∨ (x ∈ forms ∧ (6 ≤ slen x)%Z).
Proof.
  revert r. induction forms as [|f forms IH]; intros r Hin; [by left|]. simpl in Hin.
  apply IH in Hin as [Hin|[? ?]]; [|right; set_solver].
  apply register_form_long in Hin as [?|[-> ?]]; [by left|right; set_solver].
Qed.

Lemma Register_mono values r x : x ∈ r → x ∈ Register values r.
Proof.
  unfold Register. revert r. induction values as [|v values IH]; intros r Hx; [done|]. simpl. apply IH.
  unfold register_value. case_match; [done|]. by apply foldl_form_mono.
Qed.
Lemma Register_in values r v x :
  v ∈ values → (6 ≤ slen v)%Z → x ∈ encodings v → (6 ≤ slen x)%Z → x ∈ Register values r.
Proof.
  intros Hin Hv Hx Hl. unfold Register. revert r. induction values as [|w values IH]; intros r;
    [by apply not_elem_of_nil in Hin|]. simpl. apply elem_of_cons in Hin as [<-|Hin]; [|by apply IH].
  apply Register_mono. unfold register_value. rewrite (proj2 (Z.ltb_ge _ _) Hv). by apply foldl_form_in.
Qed.
Lemma Register_from values r x : x ∈ Register values r →
  x ∈ r ∨ ((∃ v, v ∈ values ∧ x ∈ encodings v) ∧ (6 ≤ slen x)%Z).
Proof.
  unfold Register. revert r. induction values as [|w values IH]; intros r Hin; [by left|]. simpl in Hin.
  apply IH in Hin as [Hin|[(v & ? & ?) ?]]; [|right; split; [exists v; set_solver|done]].
  unfold register_value in Hin. case_match; [by left|].
  apply foldl_form_from in Hin as [?|[? ?]]; [by left|right]. split; [exists w; set_solver|done].
Qed.

Lemma long_nonempty x : (6 ≤ slen x)%Z → x ≠ "".
Proof. by intros H ->. Qed.

Lemma registered_long values y : y ∈ Register values [] →
  (∃ v, v ∈ values ∧ y ∈ encodings v) ∧ (6 ≤ slen y)%Z.
Proof. intros [?%not_elem_of_nil|?]%Register_from; done. Qed.

Lemma registered_gone values s v form : v ∈ values → (6 ≤ slen v)%Z → form ∈ encodings v → (6 ≤ slen form)%Z →
  clear_of_marker (bytes_of form) → ¬ occurs (bytes_of form) (bytes_of (Redact (Register values []) s)).
Proof.
  intros Hv Hl Hf Hlf Hc. unfold Redact. fold (scrub (Register values []) (bytes_of s)).
  rewrite bytes_of_of_bytes by apply scrub_range, bytes_of_range.
  intros [_ Hn]%scrub_clear; [|intros y Hy; by eapply long_nonempty, registered_long|done].
  apply Hn, list_elem_of_fmap. exists form. split; [done|]. by apply (Register_in values [] v).
Qed.

(** The texts of a record the handler is meant to scrub. *)
Definition attr_text (a : Attr) : list string :=
  match atValue a with KindString s | KindAny s => [s] | _ => [] end.
Definition log_texts (rec : LogRecord) : list string := lrMessage rec :: (lrAttrs rec ≫= attr_text).

Lemma handled_texts r rec t : t ∈ log_texts (Handle r rec) → ∃ u, t = Redact r u.
Proof.
  unfold log_texts, Handle. simpl. intros [->|H]%elem_of_cons; [by eexists|].
  apply list_elem_of_bind in H as (a & Ht & Ha). apply list_elem_of_fmap in Ha as (b & -> & _).
  unfold redactAttr, attr_text in Ht. destruct (atValue b) eqn:E; simpl in Ht; rewrite ?E in Ht; simpl in Ht;
    try (by apply not_elem_of_nil in Ht); apply list_elem_of_singleton in Ht as ->; by eexists.
Qed.

(** ** Properties *)

(** C32: redaction.  After the given values are registered, the text a value of
    six or more bytes leaves in a log record, literally or in any of its encoded
    forms of six or more bytes, is gone from the message and the string
    attributes the wrapped handler receives, as long as the form cannot be made
    up of the marker itself; and a text in which no form of a registered value
    occurs is unchanged. *)
Theorem Redact_scrubs values rec s :
  (∀ v form t, v ∈ values → (6 ≤ slen v)%Z → form ∈ encodings v → (6 ≤ slen form)%Z →
     clear_of_marker (bytes_of form) → t ∈ log_texts (Handle (Register values []) rec) →
     ¬ occurs (bytes_of form) (bytes_of t)) ∧
  ((∀ v form, v ∈ values → form ∈ encodings v → (6 ≤ slen form)%Z → ¬ occurs (bytes_of form) (bytes_of s)) →
   Redact (Register values []) s = s).
Proof.
  split.
  - intros v form t Hv Hl Hf Hlf Hc Ht. apply handled_texts in Ht as [u ->]. by eapply registered_gone.
  - intros H. unfold Redact. fold (scrub (Register values []) (bytes_of s)).
    rewrite scrub_none; [apply of_bytes_bytes_of|]. intros y Hy.
    destruct (registered_long values y Hy) as ((v & ? & ?) & ?). split; [by apply long_nonempty|]. by apply (H v).
Qed.

Definition canary : string := "sk-canary&0451".
Definition canary_record : LogRecord :=
  MkLogRecord "rejected" [MkAttr "query" (KindString "key=sk-canary%260451"); MkAttr "n" (KindOther "7")].

Lemma Redact_scrubs_witness :
  ¬ occurs (bytes_of "sk-canary%260451") (bytes_of "key=[redacted]") ∧
  Handle (Register [canary] []) canary_record =
    MkLogRecord "rejected" [MkAttr "query" (KindString "key=[redacted]"); MkAttr "n" (KindOther "7")].
Proof.
  split; [|vm_compute; reflexivity].
  apply (proj1 (Redact_scrubs [canary] canary_record "") canary); [set_solver|done| |done| |].
  { unfold encodings. right. left. }
  - split_and!; [done| | |].
    + apply (bool_decide_eq_true_1 (91%Z ∉ bytes_of "sk-canary%260451")). vm_compute. reflexivity.
    + apply (bool_decide_eq_true_1 (93%Z ∉ bytes_of "sk-canary%260451")). vm_compute. reflexivity.
    + intros (a & b & E). apply (f_equal length) in E. rewrite !length_app, !length_bytes_of in E. simpl in E. lia.
  - vm_compute. right. left.
Defined.
