(* ===== verification/GoJson.v ===== *)
(** * JSON on the wire ([encoding/json])

    What the code uses of [encoding/json]: decoding a document into a struct,
    field by field, and encoding one.  Text and document are related by the
    parameter [JsonText]; [json.RawMessage] is a document, [nil] is [None].
    [DevEnvSpec] of [resource.go] is the first struct. *)
From S2P Require Import Prelude Policy Domain Text Store Strings.

(** ** Text *)

(** [json.Marshal], [json.Unmarshal] into a document and the first value
    [json.Decoder] reads. *)
Class JsonText := {
  marshal : json → string;
  unmarshal : string → option json;
  decode_first : string → option json;
}.

(** The documents that survive the way there and back: [Marshal] replaces bytes
    that are not UTF-8.  Fractions are left out. *)
Fixpoint plain_json (j : json) : bool :=
  match j with
  | JNull | JBool _ | JNum _ => true
  | JFloat _ => false
  | JStr s => valid_utf8 s
  | JArr l => forallb plain_json l
  | JObj fields => forallb (λ f, valid_utf8 f.1 && plain_json f.2) fields
  end.

Definition newline : string := String (Ascii.ascii_of_nat 10) "".

Class JsonTextOk `{JsonText} : Prop := {
  unmarshal_marshal_json j : plain_json j = true → unmarshal (marshal j) = Some j;
  (** White space after the value is skipped. *)
  unmarshal_line j : plain_json j = true → unmarshal (marshal j +:+ newline) = Some j;
  (** [Encoder.Encode] ends the value with a newline. *)
  decode_encoded j : plain_json j = true → decode_first (marshal j +:+ newline) = Some j;
}.

(** ** Structs *)

(** [set key value x] stores a field of [x]; [None] is a type error, after which
    the other fields are still filled.  The flag says that there was none. *)
Definition fill {A} (set : string → json → A → option A) (fields : list (string * json)) (zero : A) : A * bool :=
  foldl (λ acc f, match set f.1 f.2 acc.1 with Some x => (x, acc.2) | None => (acc.1, false) end) (zero, true) fields.

(** [null] leaves the struct alone. *)
Definition fill_struct {A} (set : string → json → A → option A) (zero : A) (j : json) : A * bool :=
  match j with JNull => (zero, true) | JObj fields => fill set fields zero | _ => (zero, false) end.

Definition decode_struct {A} (set : string → json → A → option A) (zero : A) (j : json) : option A :=
  let '(x, ok) := fill_struct set zero j in if ok then Some x else None.

Definition set_string (v : json) (old : string) : option string :=
  match v with JStr s => Some s | JNull => Some old | _ => None end.
Definition set_bool (v : json) (old : bool) : option bool :=
  match v with JBool b => Some b | JNull => Some old | _ => None end.
Definition set_int (v : json) (old : Z) : option Z :=
  match v with
  | JNum z => if bool_decide (int64_min ≤ z ≤ int64_max)%Z then Some z else None
  | JNull => Some old
  | _ => None
  end.

(** An element that is [null] is the zero string. *)
Definition set_strings (v : json) (old : list string) : option (list string) :=
  match v with JArr l => mapM (λ x, set_string x "") l | JNull => Some [] | _ => None end.
Definition set_string_map (v : json) (old : gmap string string) : option (gmap string string) :=
  match v with
  | JObj fields => foldl (λ acc f, m ← acc; s ← set_string f.2 ""; Some (<[f.1 := s]> m)) (Some old) fields
  | JNull => Some ∅
  | _ => None
  end.

(** [omitempty] *)
Definition opt_field (k v : string) : list (string * json) := if bool_decide (v = "") then [] else [(k, JStr v)].
Definition opt_map (k : string) (m : gmap string string) : list (string * json) :=
  if bool_decide (m = ∅) then [] else [(k, JObj ((λ kv, (kv.1, JStr kv.2)) <$> order_by_text fst (map_to_list m)))].
Definition raw (h : option json) : json := default JNull h.

(** ** The states of a resource on the wire *)

Definition ResourceState_text (s : ResourceState) : string :=
  match s with
  | ResourceRequested => "requested" | ResourceProvisioning => "provisioning" | ResourceReady => "ready"
  | ResourceSuspended => "suspended" | ResourceTerminating => "terminating" | ResourceTerminated => "terminated"
  | ResourceFailed => "failed"
  end.
Definition ResourceState_of (s : string) : option ResourceState :=
  head (bool_filter (λ st, bool_decide (ResourceState_text st = s))
    [ResourceRequested; ResourceProvisioning; ResourceReady; ResourceSuspended; ResourceTerminating; ResourceTerminated;
     ResourceFailed]).

(** The error of an adapter's [HealthCheck]. *)
Definition not_ready (adapter : string) (st : ResourceState * string) : err :=
  ErrorText (adapter +:+ ": not ready: " +:+ (if negb (bool_decide (st.2 = "")) then st.2 else ResourceState_text st.1)).

(** ** The specification of a development environment *)

Record DevEnvSpec := MkDevEnvSpec {
  dsName : string; dsImage : string; dsWorkdir : string; dsEnv : gmap string string; dsMetadata : gmap string string;
}.
Definition no_spec : DevEnvSpec := MkDevEnvSpec "" "" "" ∅ ∅.

Definition spec_json (s : DevEnvSpec) : json :=
  JObj ([("name", JStr (dsName s))] ++ opt_field "image" (dsImage s) ++ opt_field "workdir" (dsWorkdir s) ++
        opt_map "env" (dsEnv s) ++ opt_map "metadata" (dsMetadata s)).

Definition set_spec (k : string) (v : json) (s : DevEnvSpec) : option DevEnvSpec :=
  let '(MkDevEnvSpec n i w e m) := s in
  if key_matches "name" k then n ← set_string v n; Some (MkDevEnvSpec n i w e m)
  else if key_matches "image" k then i ← set_string v i; Some (MkDevEnvSpec n i w e m)
  else if key_matches "workdir" k then w ← set_string v w; Some (MkDevEnvSpec n i w e m)
  else if key_matches "env" k then e ← set_string_map v e; Some (MkDevEnvSpec n i w e m)
  else if key_matches "metadata" k then m ← set_string_map v m; Some (MkDevEnvSpec n i w e m)
  else Some s.

Definition ParseDevEnvSpec (spec : option json) : result DevEnvSpec :=
  match spec with
  | None => Err (ErrorText "empty dev_env spec")
  | Some j => match decode_struct set_spec no_spec j with
              | Some s => Ok s
              | None => Err (ErrorText "decode dev_env spec")
              end
  end.

(** ** Round trips *)

Lemma set_string_map_entries (l : list (string * string)) (m : gmap string string) :
  foldl (λ acc f, m ← acc; s ← set_string f.2 ""; Some (<[f.1 := s]> m)) (Some m) ((λ kv, (kv.1, JStr kv.2)) <$> l) =
  Some (foldl (λ m kv, <[kv.1 := kv.2]> m) m l).
Proof. revert m. induction l as [|[k v] l IH]; intros m; simpl; [done|]. apply IH. Qed.

Lemma foldl_insert_fresh (l : list (string * string)) (m : gmap string string) :
  NoDup l.*1 → (∀ k, k ∈ l.*1 → m !! k = None) → foldl (λ m kv, <[kv.1 := kv.2]> m) m l = list_to_map l ∪ m.
Proof.
  revert m. induction l as [|[k v] l IH]; intros m Hnd Hm; simpl; [by rewrite left_id_L by apply _|].
  simpl in Hnd. apply NoDup_cons in Hnd as [Hk Hnd]. rewrite IH; [|done|].
  - rewrite <-insert_union_r, <-insert_union_l; [done|]. by apply not_elem_of_list_to_map_1.
  - intros j Hj. rewrite lookup_insert_ne; [apply Hm; set_solver|]. intros ->. done.
Qed.

Lemma string_map_roundtrip (m : gmap string string) :
  set_string_map (JObj ((λ kv, (kv.1, JStr kv.2)) <$> order_by_text fst (map_to_list m))) ∅ = Some m.
Proof.
  cbn [set_string_map]. rewrite set_string_map_entries. f_equal.
  assert (order_by_text fst (map_to_list m) ≡ₚ map_to_list m) as Hp by (unfold order_by_text; apply merge_sort_Permutation).
  assert (NoDup (order_by_text fst (map_to_list m)).*1) as Hnd by (rewrite Hp; apply NoDup_fst_map_to_list).
  rewrite foldl_insert_fresh; [|done|intros; apply lookup_empty].
  rewrite (right_id_L ∅ (∪)), (list_to_map_proper _ (map_to_list m)) by done. apply list_to_map_to_list.
Qed.

Lemma fill_cons {A} (set : string → json → A → option A) k v fields x y :
  set k v x = Some y → fill set ((k, v) :: fields) x = fill set fields y.
Proof. intros E. unfold fill. simpl. by rewrite E. Qed.

(** The optional fields of a spec, present or not. *)
Lemma fill_opt_field {A} set k v fields (x y : A) :
  (v ≠ "" → set k (JStr v) x = Some y) → (v = "" → x = y) → fill set (opt_field k v ++ fields) x = fill set fields y.
Proof.
  intros Hset Hz. unfold opt_field. case_bool_decide; simpl; [by rewrite Hz|]. apply fill_cons. auto.
Qed.
Lemma fill_opt_map {A} set k m fields (x y : A) :
  (∀ v, set_string_map v ∅ = Some m → set k v x = Some y) → (m = ∅ → x = y) →
  fill set (opt_map k m ++ fields) x = fill set fields y.
Proof.
  intros Hset Hz. unfold opt_map. case_bool_decide; simpl; [by rewrite Hz|].
  apply fill_cons, Hset, string_map_roundtrip.
Qed.

Lemma ParseDevEnvSpec_json s : ParseDevEnvSpec (Some (spec_json s)) = Ok s.
Proof.
  destruct s as [n i w e m]. unfold ParseDevEnvSpec, decode_struct, fill_struct, spec_json.
  cbn [dsName dsImage dsWorkdir dsEnv dsMetadata app]. rewrite (fill_cons _ _ _ _ _ (MkDevEnvSpec n "" "" ∅ ∅)) by done.
  rewrite (fill_opt_field _ _ _ _ _ (MkDevEnvSpec n i "" ∅ ∅)) by (done || by intros ->).
  rewrite (fill_opt_field _ _ _ _ _ (MkDevEnvSpec n i w ∅ ∅)) by (done || by intros ->).
  rewrite (fill_opt_map _ _ _ _ _ (MkDevEnvSpec n i w e ∅)); [|intros v Hv; unfold set_spec; simpl; by rewrite Hv|by intros ->].
  rewrite <-(app_nil_r (opt_map _ _)).
  rewrite (fill_opt_map _ _ _ _ _ (MkDevEnvSpec n i w e m)); [done|intros v Hv; unfold set_spec; simpl; by rewrite Hv|by intros ->].
Qed.
