(* ===== verification/ToolCache.v ===== *)
(** * Tool clients and their cache (package [mcp])

    [mcp/cache.go] and the request path of [mcp/client.go].  A [Client] is a
    shared object: whoever got it from the cache keeps the pointer, and
    revoking it is seen through every copy.  So the clients live in a heap and
    the cache holds references.  The HTTP transport is an argument: what it
    answers to a request; the requests that reach it are recorded in [sent]. *)
From S2P Require Import Prelude Policy Domain Text.

Record Client := MkClient { clEndpoint : string; clToken : string; clNextID : Z; clRevoked : bool }.

(** A request as it leaves the process. *)
Record Sent := MkSent { snEndpoint : string; snToken : string; snID : Z; snMethod : string }.

Record Cache := MkCache {
  heap : list Client;
  entries : gmap string (Z * nat);
  lastTools : gmap string (list string);
  sent : list Sent;
}.

Definition NewCache : Cache := MkCache [] ∅ ∅ [].

Definition with_heap (h : list Client) (c : Cache) : Cache := MkCache h (entries c) (lastTools c) (sent c).
Definition with_entries (e : gmap string (Z * nat)) (c : Cache) : Cache := MkCache (heap c) e (lastTools c) (sent c).

Definition ErrRevoked : err := ErrorText "mcp: client revoked".

(** ** Clients *)

Definition NewClient (endpoint token : string) : Client := MkClient endpoint token 0 false.

Definition set_revoked (c : Client) : Client := MkClient (clEndpoint c) (clToken c) (clNextID c) true.
Definition bump_id (c : Client) : Client := MkClient (clEndpoint c) (clToken c) (clNextID c + 1) (clRevoked c).

Definition Revoke (ref : nat) (c : Cache) : Cache := with_heap (alter set_revoked ref (heap c)) c.

Definition Revoked (c : Cache) (ref : nat) : bool :=
  match heap c !! ref with Some cl => clRevoked cl | None => false end.

Arguments Revoked : simpl never.

(** ** The cache *)

Definition RememberTools (env : string) (names : list string) (c : Cache) : Cache :=
  MkCache (heap c) (entries c) (<[env := names]> (lastTools c)) (sent c).

Definition LastTools (c : Cache) (env : string) : list string := default [] (lastTools c !! env).

(** The tail of [Cache.Client]: a new client takes the entry. *)
Definition install (env : string) (epoch : Z) (endpoint token : string) : M Cache nat :=
  c ← get;
  let ref := length (heap c) in
  _ ← put (with_entries (<[env := (epoch, ref)]> (entries c))
             (with_heap (heap c ++ [NewClient endpoint token]) c));
  mret ref.

(** [Cache.Client] *)
Definition CacheClient (env : string) (epoch : Z) (endpoint token : string) : M Cache nat :=
  c ← get;
  match entries c !! env with
  | Some (e, ref) =>
      if bool_decide (e = epoch) && negb (Revoked c ref) then mret ref
      else if bool_decide (epoch < e)%Z then throw ErrRevoked
      else _ ← modify (Revoke ref); install env epoch endpoint token
  | None => install env epoch endpoint token
  end.

Definition Invalidate (env : string) (c : Cache) : Cache :=
  match entries c !! env with
  | Some (_, ref) => with_entries (delete env (entries c)) (Revoke ref c)
  | None => c
  end.

Definition Epoch (c : Cache) (env : string) : Z * bool :=
  match entries c !! env with Some (e, _) => (e, true) | None => (0%Z, false) end.

(** ** Requests *)

(** What [ctx.Err()] returns is the argument [ctxErr]. *)
Definition guard_ (ctxErr : option err) (ref : nat) : M Cache unit :=
  c ← get;
  if Revoked c ref then throw ErrRevoked
  else match ctxErr with Some e => throw e | None => mret () end.

Record rpc_response := MkRpcResponse { rpError : option (Z * string); rpResult : json }.

(** A transport error, an error while reading the body, or a status with the
    decoded body; [None] is a body that is not a JSON-RPC response. *)
Inductive http_reply :=
  | DoError (e : err)
  | ReadError (e : err)
  | Reply (status : Z) (body : option rpc_response).

Definition Transport : Type := Sent → http_reply.

Definition send (ref : nat) (method : string) : M Cache Sent :=
  c ← get;
  match heap c !! ref with
  | None => throw (ErrorText "nil client")
  | Some cl =>
      let cl' := bump_id cl in
      let s := MkSent (clEndpoint cl') (clToken cl') (clNextID cl') method in
      _ ← put (MkCache (<[ref := cl']> (heap c)) (entries c) (lastTools c) (sent c ++ [s]));
      mret s
  end.

(** [out] decodes the result; [None] is its error.  An error of the transport is
    wrapped with [%w]: it stays that error. *)
Definition rpc {A} (net : Transport) (ctxErr : option err) (ref : nat) (method : string)
    (out : json → option A) : M Cache A :=
  _ ← guard_ ctxErr ref;
  s ← send ref method;
  match net s with
  | DoError e => throw e
  | ReadError e => throw e
  | Reply status body =>
      if bool_decide (status = 401%Z) then throw (ErrorText "mcp: unauthorized")
      else if bool_decide (status < 200)%Z || bool_decide (300 ≤ status)%Z
      then throw (ErrorText (String.append "mcp: HTTP " (pretty status)))
      else match body with
           | None => throw (ErrorText "mcp: decode response")
           | Some r =>
               match rpError r with
               | Some (code, msg) =>
                   throw (ErrorText (String.append "mcp: RPC " (String.append (pretty code) (String.append ": " msg))))
               | None => of_option (ErrorText "mcp: decode result") (out (rpResult r))
               end
           end
  end.

Definition Initialize (net : Transport) (ctxErr : option err) (ref : nat) : M Cache unit :=
  rpc net ctxErr ref "initialize" (λ _, Some ()).

(** The names of the tools the endpoint offers. *)
Definition Tools (net : Transport) (ctxErr : option err) (ref : nat) (out : json → option (list string)) : M Cache (list string) :=
  rpc net ctxErr ref "tools/list" out.

(** The text parts of a tool result. *)
Definition call_text (content : list (string * string)) : string :=
  foldr (λ part acc, if bool_decide (part.1 = "text") then String.append part.2 acc else acc) "" content.

(** [input] is the decoded arguments; [None] is invalid JSON. *)
Definition Call (net : Transport) (ctxErr : option err) (ref : nat) (input : option json)
    (out : json → option (list (string * string) * bool)) : M Cache (string * bool) :=
  match input with
  | None => throw (ErrorText "mcp: invalid tool input")
  | Some _ =>
      '(content, isError) ← rpc net ctxErr ref "tools/call" out;
      mret (call_text content, isError)
  end.

(** The health endpoint beside the MCP endpoint; the reply is a status or the
    transport's error. *)
Definition health_url (mcpEndpoint : string) : string :=
  let n := String.length mcpEndpoint in
  if bool_decide (4 ≤ n) && bool_decide (String.substring (n - 4) 4 mcpEndpoint = "/mcp")
  then String.append (String.substring 0 (n - 4) mcpEndpoint) "/health"
  else mcpEndpoint.
Definition Healthy (fetch : string → err + Z) (mcpEndpoint : string) : option err :=
  match fetch (health_url mcpEndpoint) with
  | inl e => Some e
  | inr status => if bool_decide (status = 200)%Z then None else Some (ErrorText (String.append "health: HTTP " (pretty status)))
  end.

(** ** Histories *)

(** Everything that can happen to the cache, requests included. *)
Inductive cache_op :=
  | CoClient (env : string) (epoch : Z) (endpoint token : string)
  | CoInvalidate (env : string)
  | CoRemember (env : string) (names : list string)
  | CoRevoke (ref : nat)
  | CoRpc (net : Transport) (ctxErr : option err) (ref : nat) (method : string).

Definition run_cache_op (o : cache_op) (c : Cache) : Cache :=
  match o with
  | CoClient env epoch endpoint token => (CacheClient env epoch endpoint token c).1
  | CoInvalidate env => Invalidate env c
  | CoRemember env names => RememberTools env names c
  | CoRevoke ref => Revoke ref c
  | CoRpc net ctxErr ref method => (rpc net ctxErr ref method (λ j, Some j) c).1
  end.

Definition run_cache (ops : list cache_op) (c : Cache) : Cache := foldl (λ c o, run_cache_op o c) c ops.

Definition invalidates (env : string) (o : cache_op) : bool :=
  match o with CoInvalidate e => bool_decide (e = env) | _ => false end.

(** ** Lemmas *)

Ltac unmonad := unfold mbind, M_bind, get, put, modify, mret, M_ret, throw, of_option; cbn.

Lemma install_eq env epoch ep tok c :
  install env epoch ep tok c =
  (MkCache (heap c ++ [NewClient ep tok]) (<[env := (epoch, length (heap c))]> (entries c)) (lastTools c) (sent c),
   Ok (length (heap c))).
Proof. done. Qed.

(** A reference handed out for [env] is dead or still the entry of [env]. *)
Definition held (env : string) (ref : nat) (c : Cache) : Prop :=
  ref < length (heap c) ∧ (Revoked c ref = true ∨ ∃ e, entries c !! env = Some (e, ref)).

Lemma Revoke_length r c : length (heap (Revoke r c)) = length (heap c).
Proof. unfold Revoke. simpl. by rewrite length_alter. Qed.

Lemma Revoked_Revoke c r ref : Revoked c ref = true → Revoked (Revoke r c) ref = true.
Proof.
  unfold Revoked, Revoke. simpl. destruct (decide (r = ref)) as [->|Hne].
  - rewrite list_lookup_alter_eq. by destruct (heap c !! ref).
  - by rewrite list_lookup_alter_ne.
Qed.
Lemma Revoked_self c ref : ref < length (heap c) → Revoked (Revoke ref c) ref = true.
Proof.
  intros [cl Hcl]%lookup_lt_is_Some. unfold Revoked, Revoke. simpl. by rewrite list_lookup_alter_eq, Hcl.
Qed.
Lemma Revoked_app c h e l s ref : ref < length (heap c) →
  Revoked (MkCache (heap c ++ [h]) e l s) ref = Revoked c ref.
Proof. intros Hlt. unfold Revoked. simpl. by rewrite lookup_app_l. Qed.

Lemma install_held env ref env' epoch ep tok c :
  held env ref c → env ≠ env' ∨ Revoked c ref = true → held env ref (install env' epoch ep tok c).1.
Proof.
  intros [Hlt Hh] Hor. rewrite install_eq. split; [simpl; rewrite length_app; lia|].
  cbn [fst]. rewrite Revoked_app by done. destruct Hor as [Hne|]; [|by left].
  destruct Hh as [?|[e He]]; [by left|right]. exists e. simpl. by rewrite lookup_insert_ne.
Qed.

Lemma Client_held env ref env' epoch ep tok c :
  held env ref c → held env ref (CacheClient env' epoch ep tok c).1.
Proof.
  intros Hh. unfold CacheClient. unmonad. destruct (entries c !! env') as [[e r]|] eqn:E.
  - destruct (_ && _); [done|]. destruct (bool_decide (epoch < e)%Z); [done|]. cbn.
    apply install_held.
    + destruct Hh as [Hlt [?|[e' ?]]]; split; rewrite ?Revoke_length; try done;
        [left; by apply Revoked_Revoke|right; by exists e'].
    + destruct (decide (env = env')) as [->|]; [right|by left].
      destruct Hh as [Hlt [?|[e' He]]]; [by apply Revoked_Revoke|]. simplify_eq. by apply Revoked_self.
  - apply install_held; [done|]. destruct (decide (env = env')) as [->|]; [right|by left].
    destruct Hh as [_ [?|[? ?]]]; congruence.
Qed.

Lemma Invalidate_held env ref env' c : held env ref c → held env ref (Invalidate env' c).
Proof.
  intros [Hlt Hh]. unfold Invalidate. destruct (entries c !! env') as [[e r]|] eqn:E; [|done].
  split; [simpl; by rewrite length_alter|]. unfold with_entries. destruct Hh as [Hr|[e' He]].
  - left. by apply (Revoked_Revoke c r).
  - destruct (decide (env = env')) as [->|Hne].
    + simplify_eq. left. by apply (Revoked_self c ref).
    + right. exists e'. simpl. by rewrite lookup_delete_ne.
Qed.

(** A request changes nothing but the counter of its client. *)
Lemma rpc_frame {A} net ctxErr r method (out : json → option A) c :
  let c' := (rpc net ctxErr r method out c).1 in
  entries c' = entries c ∧ length (heap c') = length (heap c) ∧ ∀ ref, Revoked c' ref = Revoked c ref.
Proof.
  unfold rpc, guard_, send. unmonad. destruct (Revoked c r); [done|]. destruct ctxErr; [done|]. cbn.
  destruct (heap c !! r) as [cl|] eqn:E; [|done]. cbn.
  assert (∀ x : Cache * result A, x.1 = MkCache (<[r := bump_id cl]> (heap c)) (entries c) (lastTools c)
    (sent c ++ [MkSent (clEndpoint cl) (clToken cl) (clNextID cl + 1) method]) →
    entries x.1 = entries c ∧ length (heap x.1) = length (heap c) ∧ ∀ ref, Revoked x.1 ref = Revoked c ref) as Hx.
  { intros x ->. simpl. split_and!; [done|by rewrite length_insert|]. intros ref. unfold Revoked. simpl.
    destruct (decide (ref = r)) as [->|Hne]; [|by rewrite list_lookup_insert_ne].
    rewrite list_lookup_insert_eq, E by (by eapply lookup_lt_Some). done. }
  apply Hx. repeat case_match; done.
Qed.

Lemma op_held env ref o c : held env ref c → held env ref (run_cache_op o c).
Proof.
  intros Hh. destruct o as [| | |r|net ctxErr r method]; cbn [run_cache_op].
  - by apply Client_held.
  - by apply Invalidate_held.
  - done.
  - destruct Hh as [Hlt [?|[e ?]]]; split; rewrite ?Revoke_length; try done;
      [left; by apply Revoked_Revoke|right; by exists e].
  - destruct (rpc_frame net ctxErr r method (λ j, Some j) c) as (E1 & E2 & E3).
    destruct Hh as [Hlt Hh]. split; [by rewrite E2|]. by rewrite E3, E1.
Qed.

Lemma history_held env ref ops c : held env ref c → held env ref (run_cache ops c).
Proof. unfold run_cache. revert c. induction ops; intros c Hh; simpl; [done|]. by apply IHops, op_held. Qed.

(** The entry of [env] is at [epoch] or later. *)
Definition epoch_from (env : string) (epoch : Z) (c : Cache) : Prop :=
  ∃ e ref, entries c !! env = Some (e, ref) ∧ (epoch ≤ e)%Z.

Lemma op_epoch env epoch o c : invalidates env o = false → epoch_from env epoch c → epoch_from env epoch (run_cache_op o c).
Proof.
  intros Hn (e & ref & He & Hle). destruct o as [env' ep' u t|env'|env' ns|r|net ctxErr r method]; cbn [run_cache_op].
  - unfold CacheClient. unmonad. destruct (entries c !! env') as [[e' r']|] eqn:E.
    + destruct (_ && _); [by exists e, ref|]. case_bool_decide as Hlt; [by exists e, ref|]. cbn.
      destruct (decide (env = env')) as [->|Hne].
      * simplify_eq. exists ep', (length (heap (Revoke ref c))). simpl. rewrite lookup_insert_eq. split; [done|lia].
      * exists e, ref. simpl. by rewrite lookup_insert_ne.
    + assert (env ≠ env') by congruence. exists e, ref. simpl. by rewrite lookup_insert_ne.
  - simpl in Hn. apply bool_decide_eq_false in Hn. unfold Invalidate.
    destruct (entries c !! env') as [[e' r']|]; [|by exists e, ref].
    exists e, ref. simpl. by rewrite lookup_delete_ne.
  - by exists e, ref.
  - by exists e, ref.
  - destruct (rpc_frame net ctxErr r method (λ j, Some j) c) as (E1 & _). exists e, ref. by rewrite E1.
Qed.

Lemma history_epoch env epoch ops c : forallb (λ o, negb (invalidates env o)) ops = true →
  epoch_from env epoch c → epoch_from env epoch (run_cache ops c).
Proof.
  unfold run_cache. revert c. induction ops as [|o ops IH]; intros c Hn Hh; simpl; [done|].
  simpl in Hn. apply andb_true_iff in Hn as [Ho%negb_true_iff Hn]. apply IH; [done|]. by apply op_epoch.
Qed.

Lemma install_entry env epoch ep tok c c' ref :
  install env epoch ep tok c = (c', Ok ref) →
  entries c' !! env = Some (epoch, ref) ∧ Revoked c' ref = false ∧ held env ref c'.
Proof.
  rewrite install_eq. intros [= <- <-]. unfold held. simpl. rewrite lookup_insert_eq, length_app. simpl.
  split_and!; [done|unfold Revoked; simpl; by rewrite lookup_app_r, Nat.sub_diag by lia|lia|right; by exists epoch].
Qed.

(** What a successful [CacheClient] leaves. *)
Lemma Client_entry env epoch ep tok c c' ref : (∀ e r, entries c !! env = Some (e, r) → r < length (heap c)) →
  CacheClient env epoch ep tok c = (c', Ok ref) →
  entries c' !! env = Some (epoch, ref) ∧ Revoked c' ref = false ∧ held env ref c' ∧
  ∀ e r, entries c !! env = Some (e, r) → (e ≤ epoch)%Z.
Proof.
  intros Hwf. unfold CacheClient. unmonad. destruct (entries c !! env) as [[e r]|] eqn:E.
  - destruct (_ && _) eqn:Hb.
    + intros ?. simplify_eq/=. apply andb_true_iff in Hb as [->%bool_decide_eq_true Hr%negb_true_iff].
      split_and!; [done|done|split; [by eapply Hwf|right; by exists epoch]|]. intros e' r' [=]. lia.
    + destruct (bool_decide_reflect (epoch < e)%Z) as [|Hlt]; [done|]. intros H.
      destruct (install_entry _ _ _ _ _ _ _ H) as (? & ? & ?). split_and!; [done..|]. intros e' r' [=]. lia.
  - intros H. destruct (install_entry _ _ _ _ _ _ _ H) as (? & ? & ?). split_and!; done.
Qed.

(** Entries point into the heap. *)
Definition cache_wf (c : Cache) : Prop := ∀ env e r, entries c !! env = Some (e, r) → r < length (heap c).

Lemma op_wf o c : cache_wf c → cache_wf (run_cache_op o c).
Proof.
  intros Hwf. destruct o as [env' ep' u t|env'|env' ns|r|net ctxErr r method]; cbn [run_cache_op].
  - assert (∀ c, cache_wf c → cache_wf (install env' ep' u t c).1) as Hi.
    { clear. intros c Hwf env e r. rewrite install_eq. simpl. rewrite length_app. simpl.
      intros [[<- [= <- <-]]|[? ?%Hwf]]%lookup_insert_Some; lia. }
    unfold CacheClient. unmonad. destruct (entries c !! env') as [[e' r']|] eqn:E; [|by apply Hi].
    destruct (_ && _); [done|]. case_bool_decide; [done|]. cbn. apply Hi. intros env e r He.
    rewrite Revoke_length. by eapply Hwf.
  - unfold Invalidate. destruct (entries c !! env') as [[e' r']|]; [|done]. intros env e r. simpl.
    rewrite length_alter. intros [_ ?]%lookup_delete_Some. by eapply Hwf.
  - done.
  - intros env e r' He. rewrite Revoke_length. by eapply Hwf.
  - destruct (rpc_frame net ctxErr r method (λ j, Some j) c) as (E1 & E2 & _). intros env e r' He.
    rewrite E2. rewrite E1 in He. by eapply Hwf.
Qed.
Lemma history_wf ops c : cache_wf c → cache_wf (run_cache ops c).
Proof. unfold run_cache. revert c. induction ops; intros c Hh; simpl; [done|]. by apply IHops, op_wf. Qed.

Lemma revoked_rpc {A} net ctxErr ref method (out : json → option A) c :
  Revoked c ref = true → rpc net ctxErr ref method out c = (c, Err ErrRevoked).
Proof. intros Hr. unfold rpc, guard_. unmonad. by rewrite Hr. Qed.

(** ** Properties *)

(** One authority per environment.  Whatever happens to the cache between
    two successful requests for the client of an environment, the second one
    gets a live client; if it is not the same client, the first is dead: every
    call through it fails locally, without a request being sent.  Unless the
    environment was invalidated in between, the epoch never goes back. *)
Theorem one_live_client before env e1 ep1 tok1 c1 ref1 between e2 ep2 tok2 c2 ref2 :
  CacheClient env e1 ep1 tok1 (run_cache before NewCache) = (c1, Ok ref1) →
  CacheClient env e2 ep2 tok2 (run_cache between c1) = (c2, Ok ref2) →
  Revoked c2 ref2 = false ∧
  (ref1 ≠ ref2 → ∀ A net ctxErr method (out : json → option A),
     rpc net ctxErr ref1 method out c2 = (c2, Err ErrRevoked)) ∧
  (forallb (λ o, negb (invalidates env o)) between = true → (e1 ≤ e2)%Z).
Proof.
  intros H1 H2.
  assert (cache_wf (run_cache before NewCache)) as Hwf by (apply history_wf; intros ???; done).
  assert (cache_wf c1) as Hwf1.
  { assert (c1 = run_cache_op (CoClient env e1 ep1 tok1) (run_cache before NewCache)) as -> by (cbn; by rewrite H1).
    by apply op_wf. }
  destruct (Client_entry _ _ _ _ _ _ _ (Hwf env) H1) as (He1 & _ & Hh & _).
  destruct (Client_entry _ _ _ _ _ _ _ (history_wf between c1 Hwf1 env) H2) as (He2 & Hr2 & _ & Hmono).
  split; [done|]. split.
  - intros Hne A net ctxErr method out. apply revoked_rpc.
    pose proof (Client_held _ _ env e2 ep2 tok2 _ (history_held _ _ between _ Hh)) as Hh2. rewrite H2 in Hh2.
    destruct Hh2 as [_ [?|[e ?]]]; [done|]. simpl in *. congruence.
  - intros Hn. destruct (history_epoch env e1 between c1 Hn) as (e & r & He & Hle); [by exists e1, ref1|].
    specialize (Hmono _ _ He). lia.
Qed.

(** A restart rotates the token: the next request gets a new client, and the
    old one, still held by a running step, sends nothing. *)
Lemma one_live_client_witness :
  let c1 := (CacheClient "env" 1 "http://e/mcp" "t1" NewCache).1 in
  let '(c2, r2) := CacheClient "env" 2 "http://e/mcp" "t2" (run_cache [CoRpc (λ _, Reply 200 None) None 0 "ping"] c1) in
  r2 = Ok 1 ∧ (1 ≤ 2)%Z ∧
  Initialize (λ _, Reply 200 None) None 0 c2 = (c2, Err ErrRevoked) ∧ length (sent c2) = 1.
Proof.
  destruct (one_live_client [] "env" 1 "http://e/mcp" "t1" _ 0 [CoRpc (λ _, Reply 200 None) None 0 "ping"] 2
    "http://e/mcp" "t2" _ 1 eq_refl eq_refl) as (_ & Hdead & Hep).
  split; [reflexivity|]. split; [by apply Hep|]. split; [|reflexivity]. apply Hdead. lia.
Defined.
