(* ===== verification/InprocQueue.v ===== *)
(** * The in-process job queue (package [jobqueue/inproc])

    [jobqueue/inproc/inproc.go] with the options of [jobqueue/jobqueue.go]: a
    table of jobs and a loop that claims the first ready one, hands it to the
    handler of its kind and records the attempt.  The table is a list in the
    order of its serial key.

    A handler runs outside the transaction that records the attempt: what it
    does to the rest of the world stays when the transaction fails, and the job
    is then delivered again.  A handler is what it makes of the world, the jobs
    it enqueues, and how it ends; the transaction's commit and the clock are
    arguments.  [deliveries] is a record of the handler calls, kept for the
    statements only. *)
From S2P Require Import Prelude Policy Domain Text.

Record Options := MkOptions { opMaxAttempts : Z; opScheduledAt : option time }.

Definition WithMaxAttempts (n : Z) (o : Options) : Options := MkOptions n (opScheduledAt o).
Definition WithScheduledAt (t : time) (o : Options) : Options := MkOptions (opMaxAttempts o) (Some t).
Definition no_options : Options := MkOptions 0 None.

Record JobRow := MkJobRow {
  jq_id : Z; jq_kind : string; jq_payload : string; jq_attempts : Z; jq_max : Z; jq_run_at : time; jq_done : bool;
}.

Inductive work_result := WorkOk | WorkErr (e : err) | WorkPanic (msg : string).

Record Delivery := MkDelivery { dl_id : Z; dl_result : option err; dl_recorded : bool }.

Record Queue (W : Type) := MkQueue {
  q_rows : list JobRow; q_next : Z; q_world : W; deliveries : list Delivery;
}.
Arguments MkQueue {W} _ _ _ _.
Arguments q_rows {W} _.
Arguments q_next {W} _.
Arguments q_world {W} _.
Arguments deliveries {W} _.

Section queue.
Context {W : Type}.

(** A job to enqueue: kind, encoded payload, options. *)
Definition new_job : Type := string * string * list (Options → Options).
Definition RawHandler : Type := string → W → W * list new_job * work_result.
Definition Handlers : Type := gmap string RawHandler.

Record Config := MkConfig { cfPollInterval : Z; cfRetryDelay : Z }.

Definition NewConfig (c : Config) : Config :=
  MkConfig (if (cfPollInterval c <=? 0)%Z then 50000000 else cfPollInterval c)
           (if (cfRetryDelay c <=? 0)%Z then 100000000 else cfRetryDelay c).

Definition RegisterKind (kind : string) (h : RawHandler) (hs : Handlers) : Handlers := <[kind := h]> hs.

(** [EnqueueTx] *)
Definition EnqueueTx (clock : time) (j : new_job) (q : Queue W) : Queue W :=
  let '(kind, payload, opts) := j in
  let o := foldl (λ o f, f o) no_options opts in
  let maxAttempts := if (opMaxAttempts o <=? 0)%Z then 5%Z else opMaxAttempts o in
  let runAt := match opScheduledAt o with Some t => t | None => clock end in
  MkQueue (q_rows q ++ [MkJobRow (q_next q) kind payload 0 maxAttempts runAt false]) (q_next q + 1)
    (q_world q) (deliveries q).

Definition ready (now : time) (r : JobRow) : bool := negb (jq_done r) && (jq_run_at r <=? now)%Z.

Definition safeInvoke (h : RawHandler) (payload : string) (w : W) : W * list new_job * option err :=
  let '(w', jobs, r) := h payload w in
  (w', jobs, match r with
             | WorkOk => None
             | WorkErr e => Some e
             | WorkPanic msg => Some (ErrorText (String.append "inproc: handler panic: " msg))
             end).

Definition invoke (hs : Handlers) (r : JobRow) (w : W) : W * list new_job * option err :=
  match hs !! jq_kind r with
  | None => (w, [], Some (ErrorText (String.append "inproc: no handler for kind " (jq_kind r))))
  | Some h => safeInvoke h (jq_payload r) w
  end.

(** The row after an attempt.  [RetryDelay.Milliseconds()] drops the rest of a
    millisecond. *)
Definition worked (cfg : Config) (now : time) (e : option err) (r : JobRow) : JobRow :=
  let ended := match e with None => true | Some _ => (jq_max r <=? jq_attempts r + 1)%Z end in
  MkJobRow (jq_id r) (jq_kind r) (jq_payload r) (jq_attempts r + 1) (jq_max r)
    (if ended then jq_run_at r else now + Z.quot (cfRetryDelay cfg) 1000000 * 1000000)%Z ended.

Definition update_row (id : Z) (f : JobRow → JobRow) (rows : list JobRow) : list JobRow :=
  (λ r, if bool_decide (jq_id r = id) then f r else r) <$> rows.

(** The end of the transaction: the row as the attempt left it, if it commits. *)
Definition record (cfg : Config) (now : time) (r : JobRow) (e : option err) (commit : bool) (q : Queue W) : Queue W :=
  MkQueue (if commit then update_row (jq_id r) (worked cfg now e) (q_rows q) else q_rows q) (q_next q) (q_world q)
    (deliveries q ++ [MkDelivery (jq_id r) e commit]).

(** [workOne]: [begin] and [commit] say whether the transaction opened and
    committed. *)
Definition workOne (cfg : Config) (hs : Handlers) (begin_ commit : bool) (now : time) (q : Queue W)
  : Queue W * bool :=
  if negb begin_ then (q, false)
  else match head (bool_filter (ready now) (q_rows q)) with
       | None => (q, false)
       | Some r =>
           let '(w, jobs, e) := invoke hs r (q_world q) in
           let q1 := foldl (λ q j, EnqueueTx now j q) (MkQueue (q_rows q) (q_next q) w (deliveries q)) jobs in
           (record cfg now r e commit q1, commit)
       end.

(** The loop body of a tick: [for q.workOne(ctx) {}], with the clock and the
    fate of the transaction of each round.  [None] when the fuel runs out. *)
Fixpoint drain (fuel : nat) (cfg : Config) (hs : Handlers) (round : nat → bool * bool * time) (q : Queue W)
  : option (Queue W) :=
  match fuel with
  | O => None
  | S fuel' =>
      let '(b, c, now) := round 0 in
      let '(q', again) := workOne cfg hs b c now q in
      if again then drain fuel' cfg hs (λ n, round (S n)) q' else Some q'
  end.

(** ** What can happen to the queue *)

Inductive queue_step (cfg : Config) (hs : Handlers) : Queue W → Queue W → Prop :=
  | step_enqueue clock j q : queue_step cfg hs q (EnqueueTx clock j q)
  | step_work b c now q : queue_step cfg hs q (workOne cfg hs b c now q).1.

Definition empty_queue (w : W) : Queue W := MkQueue [] 1 w [].

(** ** The invariant *)

(** The recorded deliveries of a job. *)
Definition recorded (id : Z) (ds : list Delivery) : list Delivery :=
  bool_filter (λ d, bool_decide (dl_id d = id) && dl_recorded d) ds.

Definition row_ok (ds : list Delivery) (r : JobRow) : Prop :=
  (0 < jq_max r)%Z ∧
  jq_attempts r = Z.of_nat (length (recorded (jq_id r) ds)) ∧
  (jq_done r = false → (jq_attempts r < jq_max r)%Z ∧ Forall (λ d, dl_result d ≠ None) (recorded (jq_id r) ds)) ∧
  (jq_done r = true → (jq_attempts r ≤ jq_max r)%Z ∧ ∃ ds' d, recorded (jq_id r) ds = ds' ++ [d] ∧
     Forall (λ d, dl_result d ≠ None) ds' ∧ (dl_result d = None ∨ jq_attempts r = jq_max r)).

Definition queue_wf (q : Queue W) : Prop :=
  Forall (row_ok (deliveries q)) (q_rows q) ∧
  NoDup (jq_id <$> q_rows q) ∧
  Forall (λ r, jq_id r < q_next q)%Z (q_rows q) ∧
  Forall (λ d, dl_id d < q_next q)%Z (deliveries q).

Lemma recorded_snoc_other id d ds : dl_id d ≠ id ∨ dl_recorded d = false →
  recorded id (ds ++ [d]) = recorded id ds.
Proof.
  intros Hd. unfold recorded. rewrite bool_filter_app. unfold bool_filter at 2.
  rewrite filter_cons_False, filter_nil, app_nil_r; [done|].
  destruct Hd as [Hd|Hd]; [|by rewrite Hd, andb_false_r]. by rewrite bool_decide_false.
Qed.
Lemma recorded_snoc_self d ds : dl_recorded d = true → recorded (dl_id d) (ds ++ [d]) = recorded (dl_id d) ds ++ [d].
Proof.
  intros Hd. unfold recorded. rewrite bool_filter_app. f_equal. unfold bool_filter.
  rewrite filter_cons_True, filter_nil; [done|]. by rewrite Hd, bool_decide_true.
Qed.
Lemma recorded_new id ds : Forall (λ d, dl_id d < id)%Z ds → recorded id ds = [].
Proof.
  intros Hds. unfold recorded, bool_filter. induction Hds as [|d ds Hd _ IH]; [done|].
  rewrite filter_cons_False; [done|]. by rewrite bool_decide_false by lia.
Qed.

Lemma row_ok_frame ds d r : dl_id d ≠ jq_id r ∨ dl_recorded d = false → row_ok ds r → row_ok (ds ++ [d]) r.
Proof. intros Hd. unfold row_ok. by rewrite recorded_snoc_other. Qed.

Lemma EnqueueTx_wf clock j q : queue_wf q → queue_wf (EnqueueTx clock j q).
Proof.
  intros (Hok & Hnd & Hlt & Hd). destruct j as [[kind payload] opts]. unfold EnqueueTx, queue_wf. simpl.
  split_and!.
  - apply Forall_app. split; [done|]. constructor; [|constructor]. unfold row_ok. simpl.
    rewrite recorded_new by done. split_and!; [|done| |done].
    + destruct (Z.leb_spec (opMaxAttempts (foldl (λ o f, f o) no_options opts)) 0); lia.
    + intros _. split; [|constructor]. destruct (Z.leb_spec (opMaxAttempts (foldl (λ o f, f o) no_options opts)) 0); lia.
  - rewrite fmap_app. apply NoDup_app. split_and!; [done| |apply NoDup_singleton].
    intros id (r & -> & Hr)%list_elem_of_fmap Heq%list_elem_of_singleton. simpl in Heq.
    rewrite Forall_forall in Hlt. specialize (Hlt r Hr). simpl in Hlt. lia.
  - apply Forall_app. split; [|constructor; [simpl; lia|constructor]]. eapply Forall_impl; [exact Hlt|]. simpl. lia.
  - eapply Forall_impl; [exact Hd|]. simpl. lia.
Qed.

Lemma EnqueueTx_all clock jobs q : queue_wf q →
  queue_wf (foldl (λ q j, EnqueueTx clock j q) q jobs) ∧
  ∀ r, r ∈ q_rows q → r ∈ q_rows (foldl (λ q j, EnqueueTx clock j q) q jobs).
Proof.
  revert q. induction jobs as [|j jobs IH]; intros q Hq; simpl; [done|].
  destruct (IH (EnqueueTx clock j q)) as (Hw & Hin); [by apply EnqueueTx_wf|]. split; [done|].
  intros r Hr. apply Hin. destruct j as [[kind payload] opts]. simpl. set_solver.
Qed.

Lemma head_filter_Some now rows r : head (bool_filter (ready now) rows) = Some r → r ∈ rows ∧ ready now r = true.
Proof.
  intros H. apply head_Some in H as [l H]. assert (r ∈ bool_filter (ready now) rows) as Hin by (rewrite H; left).
  by apply elem_of_bool_filter in Hin as [? ?].
Qed.

Lemma update_row_ids id f rows : (∀ r, jq_id (f r) = jq_id r) → jq_id <$> update_row id f rows = jq_id <$> rows.
Proof.
  intros Hf. unfold update_row. rewrite <-list_fmap_compose. apply list_fmap_ext. intros i r _. simpl.
  case_bool_decide; auto.
Qed.

(** The rows after a recorded attempt of [r]. *)
Lemma worked_ok cfg now e r ds : ready now r = true → row_ok ds r →
  row_ok (ds ++ [MkDelivery (jq_id r) e true]) (worked cfg now e r).
Proof.
  unfold ready. intros [Hdone _]%andb_true_iff (Hmax & Hat & Hpend & _). apply negb_true_iff in Hdone.
  destruct (Hpend Hdone) as [Hlt Hall]. unfold row_ok. simpl.
  rewrite (recorded_snoc_self (MkDelivery (jq_id r) e true)) by done. rewrite length_app. simpl.
  split_and!; [done|lia| |].
  - destruct e as [e|]; [|done]. intros Hle%Z.leb_gt. split; [lia|]. apply Forall_app. split; [done|].
    by constructor.
  - intros Hend. split; [lia|]. eexists _, _. split; [done|]. split; [done|]. simpl.
    destruct e as [e|]; [right|by left]. apply Z.leb_le in Hend. lia.
Qed.

Lemma row_by_id rows r x : NoDup (jq_id <$> rows) → r ∈ rows → x ∈ rows → jq_id x = jq_id r → x = r.
Proof.
  intros Hnd [k Hk]%list_elem_of_lookup [i Hi]%list_elem_of_lookup Hid.
  assert (i = k) as ->; [|congruence]. eapply (NoDup_lookup _ _ _ (jq_id r) Hnd);
    rewrite list_lookup_fmap; [by rewrite Hi, <-Hid|by rewrite Hk].
Qed.

Lemma record_wf cfg now r e commit q : queue_wf q → r ∈ q_rows q → ready now r = true →
  queue_wf (record cfg now r e commit q).
Proof.
  intros (Hok & Hnd & Hlt & Hd) Hr Hready. unfold queue_wf, record. simpl.
  assert (Forall (λ d, dl_id d < q_next q)%Z (deliveries q ++ [MkDelivery (jq_id r) e commit])) as Hd'.
  { apply Forall_app. split; [done|]. constructor; [|constructor]. rewrite Forall_forall in Hlt. by apply Hlt. }
  destruct commit; [|split_and!; [|done..]].
  - rewrite update_row_ids by done. split_and!; [|done| |done]; unfold update_row; rewrite Forall_fmap.
    + rewrite Forall_forall in Hok |- *. intros x Hx. simpl. case_bool_decide as Hid.
      * rewrite (row_by_id _ r x Hnd) by done. by apply worked_ok, Hok.
      * apply row_ok_frame; [left; simpl; congruence|]. by apply Hok.
    + eapply Forall_impl; [exact Hlt|]. intros x Hx. simpl. by case_bool_decide.
  - eapply Forall_impl; [exact Hok|]. intros x. apply row_ok_frame. by right.
Qed.

Lemma workOne_wf cfg hs b c now q : queue_wf q → queue_wf (workOne cfg hs b c now q).1.
Proof.
  intros Hq. unfold workOne. destruct b; [|done]. simpl. destruct (head _) as [r|] eqn:Hh; [|done].
  apply head_filter_Some in Hh as [Hr Hready]. destruct (invoke hs r (q_world q)) as [[w jobs] e].
  destruct (EnqueueTx_all now jobs (MkQueue (q_rows q) (q_next q) w (deliveries q)) Hq) as [Hw Hin].
  apply record_wf; [done|by apply Hin|done].
Qed.

Lemma queue_history cfg hs w q : rtc (queue_step cfg hs) (empty_queue w) q → queue_wf q.
Proof.
  assert (queue_wf (empty_queue w)) as H0 by (split_and!; constructor).
  intros Hst. revert H0. induction Hst as [|a b c Hab _ IH]; [done|]. intros Ha. apply IH.
  destruct Hab; [by apply EnqueueTx_wf|by apply workOne_wf].
Qed.

(** ** Finished jobs *)

Definition delivered (id : Z) (ds : list Delivery) : list Delivery := bool_filter (λ d, bool_decide (dl_id d = id)) ds.

Definition finished (r : JobRow) (ds : list Delivery) (q : Queue W) : Prop :=
  r ∈ q_rows q ∧ jq_done r = true ∧ delivered (jq_id r) (deliveries q) = ds.

Lemma EnqueueTx_deliveries clock jobs q :
  deliveries (foldl (λ q j, EnqueueTx clock j q) q jobs) = deliveries q.
Proof.
  revert q. induction jobs as [|j jobs IH]; intros q; simpl; [done|]. rewrite IH. by destruct j as [[??]?].
Qed.

Lemma finished_step cfg hs r ds q q' : queue_wf q → queue_step cfg hs q q' → finished r ds q → finished r ds q'.
Proof.
  intros Hq Hst (Hr & Hdone & Hds). destruct Hst as [clock [[kind payload] opts] q|b c now q].
  { split_and!; [simpl; set_solver|done|done]. }
  unfold workOne. destruct b; [|done]. simpl. destruct (head _) as [x|] eqn:Hh; [|done].
  apply head_filter_Some in Hh as [Hx Hready]. destruct (invoke hs x (q_world q)) as [[w jobs] e].
  destruct (EnqueueTx_all now jobs (MkQueue (q_rows q) (q_next q) w (deliveries q)) Hq) as [Hw Hin].
  assert (jq_id r ≠ jq_id x) as Hne.
  { intros E. rewrite (row_by_id (q_rows q) x r) in Hdone by (done || apply Hq).
    unfold ready in Hready. by rewrite Hdone in Hready. }
  unfold finished, record. simpl. split_and!; [|done|].
  - destruct c; [|by apply Hin]. apply list_elem_of_fmap. exists r. rewrite bool_decide_false by done. auto.
  - rewrite EnqueueTx_deliveries. simpl. unfold delivered. rewrite bool_filter_app. unfold bool_filter at 2.
    rewrite filter_cons_False, filter_nil, app_nil_r; [done|]. by rewrite bool_decide_false.
Qed.

(** ** Draining *)

(** The attempts the table still owes. *)
Definition owed (r : JobRow) : nat := if jq_done r then 0 else Z.to_nat (jq_max r - jq_attempts r).
Definition pending (q : Queue W) : nat := sum_list (owed <$> q_rows q).

Definition enqueues_nothing (hs : Handlers) : Prop :=
  ∀ kind h payload w, hs !! kind = Some h → (h payload w).1.2 = [].

Lemma sum_update rows r f : NoDup (jq_id <$> rows) → r ∈ rows → (owed (f r) < owed r)%nat →
  (sum_list (owed <$> update_row (jq_id r) f rows) < sum_list (owed <$> rows))%nat.
Proof.
  intros Hnd Hr Hlt. apply list_elem_of_split in Hr as (l1 & l2 & ->).
  assert (∀ l, jq_id r ∉ jq_id <$> l → update_row (jq_id r) f l = l) as Hid.
  { clear. intros l Hl. unfold update_row. induction l as [|x l IH]; [done|]. rewrite fmap_cons in Hl.
    apply not_elem_of_cons in Hl as [Hne Hl]. simpl. rewrite bool_decide_false by congruence. by f_equal; apply IH. }
  rewrite fmap_app, fmap_cons in Hnd. apply NoDup_app in Hnd as (_ & Hdis & Hnd2).
  apply NoDup_cons in Hnd2 as [Hn2 _].
  assert (jq_id r ∉ jq_id <$> l1) as Hn1 by (intros Hin; apply (Hdis _ Hin); left).
  pose proof (Hid l1 Hn1) as E1. pose proof (Hid l2 Hn2) as E2. unfold update_row in *.
  rewrite !fmap_app, !fmap_cons, E1, E2. rewrite bool_decide_true by done.
  rewrite !sum_list_with_app || rewrite !sum_list_app. simpl. lia.
Qed.

Lemma workOne_pending cfg hs b c now q q' : queue_wf q → enqueues_nothing hs →
  workOne cfg hs b c now q = (q', true) → (pending q' < pending q)%nat.
Proof.
  intros Hq Hn. unfold workOne. destruct b; [|done]. simpl. destruct (head _) as [r|] eqn:Hh; [|done].
  apply head_filter_Some in Hh as [Hr Hready]. destruct (invoke hs r (q_world q)) as [[w jobs] e] eqn:Hi.
  assert (jobs = []) as ->.
  { unfold invoke, safeInvoke in Hi. destruct (hs !! jq_kind r) as [h|] eqn:Hk; [|by simplify_eq].
    specialize (Hn _ _ (jq_payload r) (q_world q) Hk). destruct (h (jq_payload r) (q_world q)) as [[w' jobs'] res].
    simpl in Hn. by simplify_eq. }
  intros [= <- ->]. unfold pending, record. simpl. apply sum_update; [apply Hq|done|].
  destruct Hq as (Hok & _). rewrite Forall_forall in Hok. destruct (Hok r Hr) as (_ & _ & Hpend & _).
  unfold ready in Hready. apply andb_true_iff in Hready as [Hd%negb_true_iff _]. destruct (Hpend Hd) as [Hlt _].
  unfold owed, worked. simpl. rewrite Hd. case_match; lia.
Qed.

Lemma drain_enough fuel cfg hs round q : queue_wf q → enqueues_nothing hs → (pending q < fuel)%nat →
  ∃ q', drain fuel cfg hs round q = Some q'.
Proof.
  revert round q. induction fuel as [|fuel IH]; intros round q Hq Hn Hf; [lia|]. simpl.
  destruct (round 0) as [[b c] now]. destruct (workOne cfg hs b c now q) as [q' again] eqn:Hw.
  destruct again; [|by eexists]. apply IH; [|done|].
  - pose proof (workOne_wf cfg hs b c now q Hq) as H. by rewrite Hw in H.
  - pose proof (workOne_pending _ _ _ _ _ _ _ Hq Hn Hw). lia.
Qed.

(** ** Properties *)

(** Delivery.  In every history of enqueues and rounds of work, whatever
    the handlers do, whichever transactions fail and whatever the clock, a job's
    attempts are its recorded deliveries and never exceed its limit; while it is
    not done all of them failed; it is done when the last one succeeded or the
    limit was reached, and from then on it is never delivered again. *)
Theorem job_delivery cfg hs w q q' r :
  rtc (queue_step cfg hs) (empty_queue w) q → rtc (queue_step cfg hs) q q' → r ∈ q_rows q →
  (jq_attempts r ≤ jq_max r)%Z ∧ jq_attempts r = Z.of_nat (length (recorded (jq_id r) (deliveries q))) ∧
  (jq_done r = false → Forall (λ d, dl_result d ≠ None) (recorded (jq_id r) (deliveries q))) ∧
  (jq_done r = true →
     (∃ ds d, recorded (jq_id r) (deliveries q) = ds ++ [d] ∧ (dl_result d = None ∨ jq_attempts r = jq_max r)) ∧
     r ∈ q_rows q' ∧ delivered (jq_id r) (deliveries q') = delivered (jq_id r) (deliveries q)).
Proof.
  intros H1 H2 Hr. pose proof (queue_history _ _ _ _ H1) as Hq. pose proof Hq as (Hok & _).
  rewrite Forall_forall in Hok. destruct (Hok r Hr) as (Hmax & Hat & Hpend & Hend). split_and!; [|done| |].
  - destruct (jq_done r); [by apply Hend|]. destruct (Hpend eq_refl). lia.
  - intros Hd. by apply Hpend.
  - intros Hd. destruct (Hend Hd) as (_ & ds & d & E & _ & Hlast). split; [by exists ds, d|].
    assert (finished r (delivered (jq_id r) (deliveries q)) q') as (? & _ & ?); [|done].
    assert (finished r (delivered (jq_id r) (deliveries q)) q) as Hf by done. revert Hf.
    generalize (delivered (jq_id r) (deliveries q)) as ds0. clear -H2 Hq.
    induction H2 as [|a b c Hab _ IH]; [done|]. intros ds0 Hf. apply IH; [|by eapply finished_step].
    destruct Hab; [by apply EnqueueTx_wf|by apply workOne_wf].
Qed.

(** Draining ends.  When the handlers enqueue nothing, the loop of a tick
    ends after at most as many rounds as there are attempts left in the table,
    whatever time passes between the rounds. *)
Theorem drain_terminates cfg hs w q round :
  rtc (queue_step cfg hs) (empty_queue w) q → enqueues_nothing hs →
  ∃ q', drain (S (pending q)) cfg hs round q = Some q'.
Proof. intros H1 Hn. apply drain_enough; [by eapply queue_history|done|lia]. Qed.

End queue.

(** A job that fails twice and then succeeds, one whose kind nobody handles. *)
Definition flaky : @RawHandler nat := λ _ n, (S n, [], if (n <? 2)%nat then WorkErr ErrNotFound else WorkOk).
Definition demo_handlers : @Handlers nat := RegisterKind "step" flaky ∅.
Definition demo_config : Config := NewConfig (MkConfig 0 0).
Definition demo_queue : Queue nat :=
  EnqueueTx 0 ("other", "", [WithMaxAttempts 2]) (EnqueueTx 0 ("step", "{}", []) (empty_queue 0)).

Lemma demo_queue_reached : rtc (queue_step demo_config demo_handlers) (empty_queue 0) demo_queue.
Proof. eapply rtc_l; [apply step_enqueue|]. apply rtc_once. apply step_enqueue. Qed.

Definition later (n : nat) : bool * bool * time := (true, true, (Z.of_nat n * 200000000)%Z).

Lemma drain_terminates_witness :
  ∃ q', drain 8 demo_config demo_handlers later demo_queue = Some q' ∧
        (λ r, (jq_attempts r, jq_done r)) <$> q_rows q' = [(3, true); (2, true)]%Z.
Proof.
  destruct (drain_terminates demo_config demo_handlers 0 demo_queue later) as [q' Hq'];
    [apply demo_queue_reached| |].
  - intros kind h payload w Hk.
    assert ((<["step" := flaky]> (∅ : gmap string (@RawHandler nat))) !! kind = Some h) as Hk' by exact Hk.
    apply lookup_insert_Some in Hk' as [[_ <-]|[_ Hk']]; [done|by rewrite lookup_empty in Hk'].
  - exists q'. split; [exact Hq'|]. revert Hq'. vm_compute. by intros [= <-].
Defined.

Definition demo_worked : Queue nat := default demo_queue (drain 8 demo_config demo_handlers later demo_queue).

Lemma drain_steps {W} fuel cfg (hs : @Handlers W) round q q' :
  drain fuel cfg hs round q = Some q' → rtc (queue_step cfg hs) q q'.
Proof.
  revert round q. induction fuel as [|fuel IH]; intros round q; [done|]. simpl.
  destruct (round 0) as [[b c] now]. pose proof (step_work cfg hs b c now q) as Hst.
  destruct (workOne cfg hs b c now q) as [q1 again]. destruct again.
  - intros Hd. eapply rtc_l; [exact Hst|]. by apply (IH _ _ Hd).
  - intros [= <-]. by apply rtc_once.
Qed.

Lemma job_delivery_witness :
  ∃ r, r ∈ q_rows demo_worked ∧ jq_id r = 1%Z ∧
    jq_attempts r = Z.of_nat (length (recorded 1 (deliveries demo_worked))) ∧
    ∃ ds d, recorded 1 (deliveries demo_worked) = ds ++ [d] ∧ (dl_result d = None ∨ jq_attempts r = jq_max r).
Proof.
  set (r := MkJobRow 1 "step" "{}" 3 5 300000000 true).
  assert (r ∈ q_rows demo_worked) as Hr by (vm_compute; left).
  assert (rtc (queue_step demo_config demo_handlers) (empty_queue 0) demo_worked) as Hreach.
  { etrans; [apply demo_queue_reached|]. apply (drain_steps 8 _ _ later). vm_compute. reflexivity. }
  destruct (job_delivery demo_config demo_handlers 0 demo_worked demo_worked r Hreach (rtc_refl _ _) Hr)
    as (_ & Hat & _ & Hdone).
  exists r. split_and!; [done|done|exact Hat|]. by apply (Hdone eq_refl).
Defined.
