(* ===== verification/ResourceApi.v ===== *)
(** * Resources for agents and for users

    [loop/resourcetools.go], the tools over a session's resources a step offers
    its model, [http/resource_handler.go], the resource service of the API, and
    the part of [resourcework/resourcework.go] that talks to a ready resource
    ([ToolClient], [Exec]).

    The state is the database and the cache of tool clients ([ToolCache]).  The
    HTTP transport, what [ctx.Err()] returns and the decoders of results are
    arguments.  The waiting tool looks at the database again and again while
    other processes go on: the databases it sees are its argument [views].  The
    parameter schema of a discovered tool is passed on to the framework and left
    out.  A reply is what the tool returns to the framework. *)
From S2P Require Import Prelude Policy Domain Text Store StoreRuns EventLog Loop Waits Batcher Tools Step Api.
From S2P Require Import ResourceStore OperatorTx ResourceWork Strings GoJson ToolCache.

Definition RS : Type := DB * Cache.

(** ** Talking to a ready resource *)

Section client.
Context {W : Type} (sv : Service W) (net : Transport) (ctxErr : option err).

Definition ToolClient (r : Resource) : M RS nat :=
  clear ← of_result (svDecrypt sv (r_token_enc r));
  ref ← ext (CacheClient (r_id r) (r_epoch r) (r_endpoint r) clear);
  _ ← ext (Initialize net ctxErr ref);
  mret ref.

Definition Exec (org : TenantID) (id : ResourceID) (args : option json)
    (out : json → option (list (string * string) * bool)) : M RS (string * bool) :=
  r ← db (ResourceGet org id);
  if negb (bool_decide (r_state r = ResourceReady)) then throw (ErrorText "resource is not ready")
  else ref ← ToolClient r; ext (Call net ctxErr ref args out).

(** ** The tools *)

(** Both readings of the spec give its [name] field when it is a string. *)
Definition resourceDisplayName (r : Resource) : string :=
  let name := name_field (r_spec r) in if bool_decide (name = "") then r_id r else name.

Inductive rtool :=
  | ToolProvision (name : string)
  | ToolList (name : string) (resources : list Resource)
  | ToolTerminate (name : string)
  | ToolMCP (name remote : string) (ref : nat) (res : ResourceID)
  | ToolUnreachable (name remote reason : string).

(** The name the policy is asked about. *)
Definition rtool_grant (t : rtool) : string :=
  match t with
  | ToolProvision n | ToolList n _ | ToolTerminate n => n
  | ToolMCP _ remote _ _ | ToolUnreachable _ remote _ => remote
  end.

Definition lifecycle_tools (p : RunPolicy) (resources : list Resource) : list rtool :=
  bool_filter (λ t, AllowsTool p (rtool_grant t))
    [ToolProvision "provision_resource"; ToolProvision "provision_env";
     ToolList "list_resources" resources; ToolList "list_envs" resources;
     ToolTerminate "terminate_resource"; ToolTerminate "terminate_env"].

Definition ready_resources (resources : list Resource) : list Resource :=
  bool_filter (λ r, bool_decide (r_state r = ResourceReady) && negb (bool_decide (r_endpoint r = ""))) resources.

(** Tools are named apart when two ready resources of the kind publish some. *)
Definition tool_prefix (ready : list Resource) (r : Resource) : string :=
  if bool_decide (1 < length (bool_filter (λ e, bool_decide (r_kind e = r_kind r)) ready))
  then (if bool_decide (r_kind r = "") then ResourceKindDevEnv else r_kind r) +:+ ":" +:+ resourceDisplayName r +:+ "/"
  else "".

Definition mcp_tools (p : RunPolicy) (prefix : string) (r : Resource) (ref : nat) (names : list string) : list rtool :=
  (λ n, ToolMCP (prefix +:+ n) n ref (r_id r)) <$> bool_filter (AllowsTool p) names.

Definition unreachableResourceTools (p : RunPolicy) (prefix : string) (r : Resource) (last : list string) (cause : err) : list rtool :=
  (λ n, ToolUnreachable (prefix +:+ n) n
          ("resource unavailable: " +:+ resourceDisplayName r +:+ " is unreachable: " +:+ err_text cause))
    <$> bool_filter (AllowsTool p) last.

(** The tools of one ready resource. *)
Definition discover (out : json → option (list string)) (p : RunPolicy) (ready : list Resource) (r : Resource) : M RS (list rtool) :=
  let prefix := tool_prefix ready r in
  found ← attempt (ref ← ToolClient r; names ← ext (Tools net ctxErr ref out); mret (ref, names));
  match found with
  | Ok (ref, names) => _ ← ext (modify (RememberTools (r_id r) names)); mret (mcp_tools p prefix r ref names)
  | Err e => s ← get; mret (unreachableResourceTools p prefix r (LastTools s.2 (r_id r)) e)
  end.

Fixpoint discover_all (out : json → option (list string)) (p : RunPolicy) (ready todo : list Resource) : M RS (list rtool) :=
  match todo with
  | [] => mret []
  | r :: rest => ts ← discover out p ready r; more ← discover_all out p ready rest; mret (ts ++ more)
  end.

(** [ResourceTools.Tools] *)
Definition ResourceTools (out : json → option (list string)) (run : AgentRun) : M RS (list rtool) :=
  resources ← db (ResourceList (ar_tenant run) (ar_session run) []);
  let ready := ready_resources resources in
  found ← discover_all out (ar_policy run) ready ready;
  mret (lifecycle_tools (ar_policy run) resources ++ found).

(** ** Running a tool *)

(** A response, the list of resources as JSON, or the error of the context. *)
Inductive rtool_reply := Reply_ (r : ToolResponse) | ReplyResources (l : list Resource) | ReplyCancelled.

Definition deny (run : AgentRun) (tool : string) (resourceID : option ResourceID) (reason : string) : M RS rtool_reply :=
  _ ← db (ignore (Append Pool (ar_tenant run) (ar_session run)
        (NewEvent ActorSystem EventKindPermissionDenied (PermissionDeniedPayload (ar_id run) tool resourceID reason))));
  mret (Reply_ (NewTextErrorResponse "permission denied")).

Definition text_error (s : string) : rtool_reply := Reply_ (NewTextErrorResponse s).

(** One look after another until the resource is ready or failed. *)
Fixpoint poll_provision (tenant : TenantID) (id : ResourceID) (views : list DB) : rtool_reply :=
  match views with
  | [] => ReplyCancelled
  | d :: rest =>
      match resource_of d tenant id with
      | None => text_error "lookup failed"
      | Some cur =>
          if bool_decide (r_state cur = ResourceReady)
          then Reply_ (MkToolResponse (RespText (ContentJSON (JObj [("kind", JStr (r_kind cur)); ("resource_id", JStr id)]))) false false)
          else if bool_decide (r_state cur = ResourceFailed) then text_error (r_failure_message cur)
          else poll_provision tenant id rest
      end
  end.

Record provision_input := MkProvisionInput { piKind : string; piName : string; piProvider : string; piImage : string }.

Definition provision_tool (clock : time) (fresh : ResourceID) (tk : Token) (views : list DB) (run : AgentRun) (name : string)
    (in_ : provision_input) : M RS rtool_reply :=
  if negb (AllowsTool (ar_policy run) name) then deny run name None "tool not granted"
  else
    let kind := if bool_decide (piKind in_ = "") then ResourceKindDevEnv else piKind in_ in
    if negb (AllowsResourceKind (ar_policy run) kind) then deny run name None "resource kind not permitted"
    else
      let spec := if bool_decide (kind = ResourceKindDevEnv) then spec_json (MkDevEnvSpec (piName in_) (piImage in_) "/work" ∅ ∅)
                  else JObj [("name", JStr (piName in_))] in
      r ← attempt (db (Request sv clock fresh tk (ar_tenant run) (ar_session run) kind (Some spec) (piProvider in_) (Some (ar_id run))));
      mret match r with
           | Err _ => text_error "provision failed"
           | Ok (res, _) => poll_provision (ar_tenant run) (r_id res) views
           end.

Definition list_tool (run : AgentRun) (name : string) (resources : list Resource) : M RS rtool_reply :=
  if negb (AllowsTool (ar_policy run) name) then deny run name None "tool not granted" else mret (ReplyResources resources).

Definition terminate_tool (run : AgentRun) (name resourceID envID : string) : M RS rtool_reply :=
  let id := if bool_decide (resourceID = "") then envID else resourceID in
  if negb (AllowsTool (ar_policy run) name) then deny run name (Some id) "resource or tool not granted"
  else
    r ← attempt (db (RequestTerminate (ar_tenant run) id));
    mret match r with
         | Err _ => text_error "terminate failed"
         | Ok _ => Reply_ (NewTextResponse "termination requested")
         end.

(** [mcpTool.Run].  [ctxErr] is the error of the call's context, [ctxAfter] that
    of the step's context after the call. *)
Definition mcp_tool (ctxAfter : option err) (run : AgentRun) (remote : string) (ref : nat) (res : ResourceID) (input : option json)
    (out : json → option (list (string * string) * bool)) : M RS rtool_reply :=
  if negb (AllowsTool (ar_policy run) remote) then deny run remote None "tool not granted"
  else
    r ← attempt (db (ResourceGet (ar_tenant run) res));
    match r with
    | Err _ => mret (text_error "resource unavailable")
    | Ok r =>
        if negb (bool_decide (r_state r = ResourceReady)) then mret (text_error "resource unavailable")
        else
          res ← attempt (ext (Call net ctxErr ref input out));
          mret match res with
               | Ok (text, isError) => Reply_ (MkToolResponse (RespText (ContentText text)) isError false)
               | Err e => match ctxAfter with
                          | Some _ => ReplyCancelled
                          | None => text_error ("resource unavailable: " +:+ err_text e)
                          end
               end
    end.

(** What the model passes, with the inputs from outside. *)
Inductive rtool_input :=
  | InProvision (clock : time) (fresh : ResourceID) (tk : Token) (views : list DB) (in_ : provision_input)
  | InList
  | InTerminate (resourceID envID : string)
  | InMCP (ctxAfter : option err) (input : option json) (out : json → option (list (string * string) * bool)).

(** Input that does not fit the tool is refused by the framework. *)
Definition call_rtool (run : AgentRun) (t : rtool) (i : rtool_input) : M RS rtool_reply :=
  match t, i with
  | ToolProvision name, InProvision clock fresh tk views in_ => provision_tool clock fresh tk views run name in_
  | ToolList name resources, InList => list_tool run name resources
  | ToolTerminate name, InTerminate resourceID envID => terminate_tool run name resourceID envID
  | ToolMCP _ remote ref res, InMCP ctxAfter input out => mcp_tool ctxAfter run remote ref res input out
  | ToolUnreachable _ _ reason, _ => mret (text_error reason)
  | _, _ => mret (text_error "invalid parameters")
  end.

(** ** The resource service of the API *)

Definition found_err (e : err) : err := match e with ErrNotFound => errNotFound | _ => mapStoreErr e end.

Definition resolveResource (who : option authContext) (id : ResourceID) : M DB Resource :=
  a ← identityFrom who; stored found_err (ResourceGet (auTenant a) id).

(** The spec of a request: name, image, workdir, env, metadata. *)
Definition request_spec : Type := string * string * string * gmap string string * gmap string string.

Definition provision_spec (kind : ResourceKind) (spec : option request_spec) : result json :=
  if bool_decide (kind = ResourceKindDevEnv) then
    match spec with
    | Some (name, image, workdir, env, metadata) =>
        if bool_decide (name = "") then Err (CodeError "invalid_argument" "spec.name is required")
        else Ok (spec_json (MkDevEnvSpec name image workdir env metadata))
    | None => Err (CodeError "invalid_argument" "spec.name is required")
    end
  else Ok (JObj [("name", JStr match spec with Some (name, _, _, _, _) => name | None => "" end)]).

Definition ProvisionResource (who : option authContext) (clock : time) (fresh : ResourceID) (tk : Token) (session : SessionID)
    (kind : string) (spec : option request_spec) (providerInstance : string) : M DB (Resource * Z) :=
  '(org, _) ← resolveSessionTenant who session;
  let kind := if bool_decide (kind = "") then ResourceKindDevEnv else kind in
  spec ← of_result (provision_spec kind spec);
  '(created, seq) ← stored mapStoreErr (Request sv clock fresh tk org session kind (Some spec) providerInstance None);
  got ← stored mapStoreErr (ResourceGet org (r_id created));
  mret (got, seq).

(** [None] is the zero registration. *)
Definition GetResource (who : option authContext) (id : ResourceID) : M DB (Resource * option ProviderInstance) :=
  e ← resolveResource who id;
  p ← attempt (ProviderGet (r_tenant e) (r_provider e));
  mret (e, match p with Ok p => Some p | Err _ => None end).

Definition ListResources (who : option authContext) (session : SessionID) (kind : string)
  : M DB (list (Resource * option ProviderInstance)) :=
  '(org, _) ← resolveSessionTenant who session;
  items ← stored mapStoreErr (ResourceList org session (if bool_decide (kind = "") then [] else [kind]));
  providers ← ProviderList org;
  mret ((λ e, (e, head (bool_filter (λ p, bool_decide (pi_id p = r_provider e)) providers))) <$> items).

Definition TerminateResource (who : option authContext) (id : ResourceID) : M DB unit :=
  e ← resolveResource who id; stored mapStoreErr (RequestTerminate (r_tenant e) (r_id e)).

Definition restart_err (e : err) : err :=
  match e with ErrNotFound => errNotFound | _ => CodeError "failed_precondition" "resource cannot be restarted" end.

Definition RestartResource (who : option authContext) (id : ResourceID) : M DB (Resource * Z) :=
  e ← resolveResource who id;
  seq ← stored restart_err (RequestRestart (r_tenant e) (r_id e));
  restarted ← stored mapStoreErr (ResourceGet (r_tenant e) (r_id e));
  mret (restarted, seq).

(** [args] is the JSON of the command with its description. *)
Definition preview_args (command : string) : json := JObj [("command", JStr command); ("description", JStr "Human ExecPreview")].

Definition ExecPreview (who : option authContext) (id : ResourceID) (command : string)
    (out : json → option (list (string * string) * bool)) : M RS (string * bool * Z) :=
  e ← db (resolveResource who id);
  r ← attempt (Exec (r_tenant e) (r_id e) (Some (preview_args command)) out);
  match r with
  | Err _ => throw (CodeError "unavailable" "resource unavailable")
  | Ok (text, isError) =>
      seq ← db (stored mapStoreErr (Append Pool (r_tenant e) (r_session e)
              (NewEvent (actorFrom who) EventKindExecPreviewRan (ExecPreviewRanPayload (r_id e) command text isError))));
      mret (text, isError, seq)
  end.

End client.
