(* ===== verification/ResourceToolSpec.v ===== *)
(** * What the resource tools let a run do

    The tools of [ResourceApi] against the worker that offers them: a step offers
    only what the run's policy grants, a call asks the policy again, writes the
    database through system transactions only (what [Work_is_steps] assumes of
    dynamic tools), creates resources of granted kinds only, and reaches the
    network only for a resource that is ready now and a client that is not
    revoked. *)
From S2P Require Import Prelude Policy Domain Text Store StoreRuns EventLog Loop Waits Batcher Tools Step Api.
From S2P Require Import ResourceStore OperatorTx ResourceWork Frames Invariants RunStates System WorkSteps Scenario WaitSpec ResourceSpec ToolCache ResourceApi.

(** ** Effects on the pair of database and cache *)

Lemma keeps_db {W A} (R : relation DB) (S : relation W) `{!Reflexive S} (m : M DB A) :
  keeps R m → keeps (λ s s', R s.1 s'.1 ∧ S s.2 s'.2) (db (W:=W) m).
Proof. intros Hm s. specialize (Hm s.1). unfold db. destruct (m s.1). simpl in *. by split. Qed.
Lemma keeps_ext {W A} (R : relation DB) (S : relation W) `{!Reflexive R} (m : M W A) :
  keeps S m → keeps (λ s s', R s.1 s'.1 ∧ S s.2 s'.2) (ext m).
Proof. intros Hm s. specialize (Hm s.2). unfold ext. destruct (m s.2). simpl in *. by split. Qed.

(** Nothing but the named resource may be new. *)
Definition same_resource_ids : relation DB := λ d d', ∀ i, is_Some (db_resources d' !! i) → is_Some (db_resources d !! i).
#[local] Instance same_resource_ids_pre : PreOrder same_resource_ids.
Proof. split; [by intros d i|]. intros a b c Hab Hbc i Hi. by apply Hab, Hbc. Qed.

Lemma ids_frame d d' : db_resources d' = db_resources d → same_resource_ids d d'.
Proof. intros E i. by rewrite E. Qed.
Lemma ids_Append h t s e : keeps same_resource_ids (Append h t s e).
Proof.
  assert (keeps same_resource_ids (append_body t s e)) as Hb
    by (intros d; apply ids_frame; unfold append_body; run_method; done).
  destruct h; simpl; [by apply keeps_atomically; [apply _|]|done].
Qed.
Lemma ids_Enqueue h j t : keeps same_resource_ids (EnqueueInTx h j t).
Proof. intros d. apply ids_frame. unfold EnqueueInTx. run_method; done. Qed.
Lemma ids_update t i f : keeps same_resource_ids (resource_update t i f).
Proof.
  intros d. unfold resource_update. run_method; [|done]. intros j. simpl. rewrite lookup_insert_is_Some.
  intros [<-|[_ Hj]]; [|done]. unfold resource_of in *. by destruct (db_resources d !! i).
Qed.
Hint Resolve ids_Append ids_Enqueue ids_update : keeps.

Lemma ids_RequestTerminate t i : keeps same_resource_ids (RequestTerminate t i).
Proof.
  unfold RequestTerminate, SetTerminating, resource_event, ResourceGetForUpdate. solve_handler.
Qed.

Section tools.
Context `{Uuid} `{Durations} `{Fantasy} {W : Type} (sv : Service W) (net : Transport) (ctxErr : option err).

Notation steps := (rtc (sys_step sv)).

(** ** What is offered *)

Lemma discover_granted out p ready r s s' ts : discover sv net ctxErr out p ready r s = (s', Ok ts) →
  Forall (λ t, AllowsTool p (rtool_grant t) = true) ts.
Proof.
  assert (∀ (f : string → rtool) l, (∀ n, rtool_grant (f n) = n) →
    Forall (λ t, AllowsTool p (rtool_grant t) = true) (f <$> bool_filter (AllowsTool p) l)) as Hmap.
  { intros f l Hf. apply Forall_fmap, Forall_forall. intros n Hn. apply elem_of_bool_filter in Hn as [Hn _].
    simpl. by rewrite Hf. }
  unfold discover. set (m := attempt _). unfold mbind at 1, M_bind at 1. intros Hd.
  destruct (m s) as [s1 [[[ref names]|e]|]]; [..|done]; injection Hd as _ <-; by apply Hmap.
Qed.

Lemma discover_all_granted out p ready todo : ∀ s s' ts, discover_all sv net ctxErr out p ready todo s = (s', Ok ts) →
  Forall (λ t, AllowsTool p (rtool_grant t) = true) ts.
Proof.
  induction todo as [|r todo IH]; intros s s' ts Hd; cbn [discover_all] in Hd.
  - injection Hd as _ <-. constructor.
  - unfold mbind, M_bind in Hd. destruct (discover _ _ _ _ _ _ r s) as [s1 [ts1|]] eqn:E1; [|done].
    destruct (discover_all _ _ _ _ _ _ _ s1) as [s2 [ts2|]] eqn:E2; [|done]. injection Hd as _ <-.
    apply Forall_app. split; [by eapply discover_granted|by eapply IH].
Qed.

Lemma ResourceTools_granted out run s s' ts t : ResourceTools sv net ctxErr out run s = (s', Ok ts) → t ∈ ts →
  AllowsTool (ar_policy run) (rtool_grant t) = true.
Proof.
  intros Hr Ht. unfold ResourceTools, mbind, M_bind in Hr. destruct (db _ s) as [s1 [rs|]]; [|done].
  destruct (discover_all _ _ _ _ _ _ _ s1) as [s2 [found|]] eqn:E; [|done]. injection Hr as _ <-.
  apply elem_of_app in Ht as [Ht|Ht]; [by apply elem_of_bool_filter in Ht as [? _]|].
  apply discover_all_granted in E. rewrite Forall_forall in E. by apply E.
Qed.

(** ** What a call writes *)

Definition quiet : relation RS := λ s s', steps s.1 s'.1 ∧ same_resource_ids s.1 s'.1 ∧ s'.2 = s.2.
#[local] Instance quiet_pre : PreOrder quiet.
Proof.
  split; [intros s; unfold quiet; split_and!; reflexivity|].
  intros a b c (? & ? & ?) (? & ? & ?). unfold quiet. split_and!; [by etrans|by etrans|congruence].
Qed.

Lemma quiet_db {A} (m : M DB A) : keeps steps m → keeps same_resource_ids m → keeps quiet (db (W:=Cache) m).
Proof.
  intros Hst Hid s. specialize (Hst s.1). specialize (Hid s.1). unfold db. destruct (m s.1). simpl in *. by split_and!.
Qed.
Lemma quiet_deny run t r why : keeps quiet (deny run t r why).
Proof.
  unfold deny. apply keeps_bind; [apply _| |intros; apply keeps_ret; apply _].
  apply quiet_db; apply keeps_ignore; [intros d; apply (step_op sv (OpAppend _ _ _) d I)|apply ids_Append].
Qed.
Lemma quiet_terminate run name a b : keeps quiet (terminate_tool run name a b).
Proof.
  unfold terminate_tool. case_match; [apply quiet_deny|]. apply keeps_bind; [apply _| |intros; apply keeps_ret; apply _].
  apply keeps_attempt, quiet_db; [intros d; apply (step_op sv (OpResource (RoRequestTerminate _ _)) d I)|apply ids_RequestTerminate].
Qed.

(** A request creates at most the resource it names, of the kind it asks for. *)
Definition creates (kind : ResourceKind) (d d' : DB) : Prop := ∀ i r, db_resources d' !! i = Some r →
  is_Some (db_resources d !! i) ∨ r_kind r = kind.

Lemma request_kind_asked declared kind k : kind ≠ "" → request_kind declared kind = Ok k → k = kind.
Proof.
  intros Hk. unfold request_kind. repeat case_bool_decide; simpl; intros [=]; congruence.
Qed.

Lemma Request_creates clock fresh tk org session kind spec name by_ d : kind ≠ "" →
  creates kind d (Request sv clock fresh tk org session kind spec name by_ d).1.
Proof.
  intros Hk. enough (wp (Request sv clock fresh tk org session kind spec name by_) (λ _ d', creates kind d d') d) as Hwp.
  { unfold wp in Hwp. by destruct (Request _ _ _ _ _ _ _ _ _ _ d). }
  assert (creates kind d d) as Hrefl by (intros i r Hr; left; by exists r).
  unfold Request. apply wp_bind. eapply (wp_keeps eq); [apply (proj2 (keeps_resource_reads eq))|].
  intros [inst|e] ? <-; [|done]. apply wp_bind, wp_of_result.
  destruct (svBuild _ _ _) as [p|]; [|done]. destruct (prValidateSpec _ _); [done|].
  apply wp_bind, wp_of_result. destruct (request_kind _ _) as [k|] eqn:Ek; [|done].
  apply request_kind_asked in Ek as ->; [|done].
  apply wp_bind, wp_atomically, wp_bind, wp_ResourceCreate; [done|].
  apply wp_bind, wp_Append_tx; [done|]. intros se _. apply wp_bind, wp_modify, wp_bind, wp_modify, wp_ret, wp_ret.
  intros i r. simpl. rewrite lookup_insert_Some. intros [[<- <-]|[_ Hr]]; [right; simpl; by rewrite bool_decide_false|left; by exists r].
Qed.

(** ** What a call sends *)

Lemma Call_sends ref input out c :
  sent (Call net ctxErr ref input out c).1 = sent c ∨
  ∃ cl, heap c !! ref = Some cl ∧ clRevoked cl = false ∧
    sent (Call net ctxErr ref input out c).1 =
      sent c ++ [MkSent (clEndpoint cl) (clToken cl) (clNextID cl + 1) "tools/call"].
Proof.
  unfold Call. destruct input; [|by left]. unfold rpc, guard_, send. unmonad.
  destruct (Revoked c ref) eqn:Er; [by left|]. destruct ctxErr; [by left|]. cbn.
  unfold Revoked in Er. destruct (heap c !! ref) as [cl|] eqn:E; [|by left]. right. exists cl. cbn.
  split_and!; [done..|]. unfold of_option, mret, M_ret, throw. repeat case_match; by simplify_eq/=.
Qed.

(** ** The effect of a call *)

(** The request a discovered tool may send: the resource behind it is ready in
    the run's tenant now, and its client is not revoked. *)
Definition tool_request (run : AgentRun) (t : rtool) (s : RS) (q : Sent) : Prop :=
  match t with
  | ToolMCP _ _ ref res => ∃ r cl, resource_of s.1 (ar_tenant run) res = Some r ∧ r_state r = ResourceReady ∧
      heap s.2 !! ref = Some cl ∧ clRevoked cl = false ∧
      q = MkSent (clEndpoint cl) (clToken cl) (clNextID cl + 1) "tools/call"
  | _ => False
  end.

Definition tool_effect (run : AgentRun) (t : rtool) (s s' : RS) : Prop :=
  steps s.1 s'.1 ∧
  (∀ i r, db_resources s'.1 !! i = Some r →
     is_Some (db_resources s.1 !! i) ∨ AllowsResourceKind (ar_policy run) (r_kind r) = true) ∧
  (sent s'.2 = sent s.2 ∨ ∃ q, tool_request run t s q ∧ sent s'.2 = sent s.2 ++ [q]).

Lemma quiet_effect run t s s' : quiet s s' → tool_effect run t s s'.
Proof.
  intros (Hst & Hid & Hc). split_and!; [done| |left; by rewrite Hc].
  intros i r Hr. left. apply Hid. by exists r.
Qed.

Lemma provision_effect clock fresh tk views run name in_ s :
  tool_effect run (ToolProvision name) s (provision_tool sv clock fresh tk views run name in_ s).1.
Proof.
  unfold provision_tool. case_match; [by apply quiet_effect, quiet_deny|]. set (kind := if bool_decide _ then _ else _).
  destruct (AllowsResourceKind (ar_policy run) kind) eqn:Ek; simpl; [|by apply quiet_effect, quiet_deny].
  set (spec := if bool_decide _ then _ else _).
  set (m := Request sv clock fresh tk (ar_tenant run) (ar_session run) kind (Some spec) (piProvider in_) (Some (ar_id run))).
  assert (kind ≠ "") as Hk by (unfold kind; case_bool_decide; done).
  pose proof (step_op sv (OpResource (RoRequest clock fresh tk (ar_tenant run) (ar_session run) kind (Some spec)
    (piProvider in_) (Some (ar_id run)))) s.1 I) as Hst.
  pose proof (Request_creates clock fresh tk (ar_tenant run) (ar_session run) kind (Some spec) (piProvider in_)
    (Some (ar_id run)) s.1 Hk) as Hc.
  cbn in Hst. fold m in Hst, Hc. unfold mbind, M_bind, attempt, db in Hst |- *.
  destruct (m s.1) as [d' [[res q]|e]]; cbn in *; split_and!; try done; try (by left);
    intros i r Hr; destruct (Hc i r Hr) as [|Hkr]; (by left) || (right; by rewrite Hkr).
Qed.

Lemma mcp_effect ctxAfter run name remote ref res input out s :
  tool_effect run (ToolMCP name remote ref res) s (mcp_tool net ctxErr ctxAfter run remote ref res input out s).1.
Proof.
  unfold mcp_tool. case_match; [by apply quiet_effect, quiet_deny|].
  unfold ResourceGet, mbind, M_bind, attempt, db, ext, mret, M_ret. cbn.
  destruct (resource_of s.1 (ar_tenant run) res) as [r|] eqn:Er; cbn; [|apply quiet_effect; by split_and!].
  case_bool_decide as Hr; cbn; [|apply quiet_effect; by split_and!].
  pose proof (Call_sends ref input out s.2) as Hs.
  destruct (Call net ctxErr ref input out s.2) as [c [[txt e]|e]]; cbn in *;
    (split_and!; [reflexivity|intros i r' Hr'; left; by exists r'|]);
    (destruct Hs as [Hs|(cl & Hh & Hv & Hs)]; [by left|right; eexists; split; [|exact Hs]]; by exists r, cl).
Qed.

Lemma call_effect run t i s : tool_effect run t s (call_rtool sv net ctxErr run t i s).1.
Proof.
  assert (∀ x : rtool_reply, tool_effect run t s ((mret x : M RS rtool_reply) s).1) as Hret
    by (intros x; by apply quiet_effect).
  destruct t, i; try apply Hret; unfold call_rtool.
  - apply provision_effect.
  - unfold list_tool. case_match; [by apply quiet_effect, quiet_deny|apply Hret].
  - by apply quiet_effect, quiet_terminate.
  - apply mcp_effect.
Qed.


End tools.

(** ** Witness *)

Definition open_net : Transport := λ _, Reply 200 (Some (MkRpcResponse None JNull)).
Definition demo_tools : RS * result (list rtool) :=
  ResourceTools demo_service open_net None (λ _, Some ["bash"]) (row_of d_running "r1") (d_ready, NewCache).
Definition demo_call (d : DB) : RS * result rtool_reply :=
  call_rtool demo_service open_net None (row_of d_running "r1") (ToolMCP "bash" "bash" 0 "e1")
    (InMCP None (Some JNull) (λ _, Some ([("text", "hi")], false))) (d, demo_tools.1.2).

Definition demo_listed : list rtool := match demo_tools.2 with Ok ts => ts | Err _ => [] end.

Example demo_tools_listed : rtool_grant <$> demo_listed =
  ["provision_resource"; "provision_env"; "list_resources"; "list_envs"; "terminate_resource"; "terminate_env"; "bash"].
Proof. vm_compute. reflexivity. Qed.

