(* ===== verification/ResourceApiSpec.v ===== *)
(** * What the resource service of the API lets a caller do

    The handlers of [ResourceApi] as requests of a caller: whatever ids a request
    names, it acts through the transactions of the system and leaves every other
    tenant's data alone, and it reaches the network only for a ready resource of
    the caller's own tenant. *)
From S2P Require Import Prelude Policy Domain Text Store StoreRuns EventLog Loop Waits Batcher Tools Step Api.
From S2P Require Import ResourceStore OperatorTx ResourceWork Frames Invariants RunStates System WorkSteps Scenario WaitSpec Tenancy ResourceSpec ToolCache ResourceApi ResourceToolSpec.

(** ** Resources of other tenants *)

Section store.
Context (t : TenantID).

Lemma foreign_resource_update i f : (∀ n r, r_tenant (f n r) = r_tenant r) → keeps (foreign t) (resource_update t i f).
Proof.
  intros Hf d. unfold resource_update. run_method; [|reflexivity]. unfold resource_of in H.
  destruct (db_resources d !! i) as [q|] eqn:Hq; simpl in H; [|done]. case_bool_decide; [|done]. simplify_eq.
  same_parts. intros j p Hp. rewrite lookup_insert. case_decide; [|done]. subst. specialize (Hf (db_now d) r).
  split; intros; simplify_eq; congruence.
Qed.

Lemma foreign_ResourceCreate r : keeps (foreign t) (ResourceCreate t r).
Proof.
  intros d. unfold ResourceCreate, mbind, M_bind, get. simpl.
  destruct (session_of _ _ _); [|reflexivity]. destruct (provider_of _ _ _); [|reflexivity].
  case_bool_decide as Hn; [reflexivity|]. apply eq_None_not_Some in Hn.
  destruct (match r_created_by r with Some _ => _ | None => _ end); [reflexivity|]. simpl. same_parts.
  intros j q Hq. rewrite lookup_insert. case_decide; [|done]. subst. split; intros; simplify_eq; done.
Qed.

Lemma foreign_reads {A} (m : M DB A) : keeps eq m → keeps (foreign t) m.
Proof. intros Hm d. rewrite <-(Hm d). reflexivity. Qed.
End store.
#[export] Hint Resolve foreign_resource_update foreign_ResourceCreate : keeps.

Section resolved.
Context (R : relation DB) `{!PreOrder R} (a : authContext).

Lemma resolved_session_keeps {A} session (f : TenantID * authContext → M DB A) :
  (∀ b, keeps R (f (auTenant a, b))) → keeps R (x ← resolveSessionTenant (Some a) session; f x).
Proof.
  intros Hf d. change (wp (x ← resolveSessionTenant (Some a) session; f x) (λ _, R d) d).
  apply wp_bind. unfold resolveSessionTenant. apply wp_bind, wp_identity, wp_bind.
  eapply (wp_keeps eq); [apply keeps_stored; [apply _|]; unfold SessionTenant; solve_handler|].
  intros [t|e] ? <-; [|reflexivity]. case_bool_decide as E; [|apply wp_throw; reflexivity]. apply wp_ret.
  subst. apply Hf.
Qed.

(** The resource found is the caller's, and the database is as it was. *)
Lemma wp_resolveResource id (Q : result Resource → DB → Prop) d :
  (∀ r, resource_of d (auTenant a) id = Some r → r_tenant r = auTenant a → Q (Ok r) d) →
  (∀ e, Q (Err e) d) → wp (resolveResource (Some a) id) Q d.
Proof.
  intros Hok Herr. unfold resolveResource, stored, ResourceGet. apply wp_bind, wp_identity, wp_bind, wp_attempt, wp_bind, wp_get.
  apply wp_of_option; [intros r E|intros _; by apply wp_throw].
  apply wp_ret, Hok; [done|]. by apply resource_of_Some in E as [_ ?].
Qed.

Lemma resolved_resource_keeps {A} id (f : Resource → M DB A) :
  (∀ r, r_tenant r = auTenant a → keeps R (f r)) → keeps R (r ← resolveResource (Some a) id; f r).
Proof.
  intros Hf d. change (wp (r ← resolveResource (Some a) id; f r) (λ _, R d) d). apply wp_bind, wp_resolveResource.
  - intros r _ Hr. by apply Hf.
  - intros e. reflexivity.
Qed.
End resolved.

Section requests.
Context `{Uuid} `{Durations} `{Fantasy} {W : Type} (sv : Service W) (net : Transport) (ctxErr : option err).

Notation steps := (rtc (sys_step sv)).

Lemma foreign_Request clock fresh tk org session kind spec name by_ :
  keeps (foreign org) (Request sv clock fresh tk org session kind spec name by_).
Proof.
  unfold Request. apply keeps_bind; [apply _|apply (proj2 (keeps_resource_reads _))|intros inst].
  apply keeps_bind; [apply _|apply keeps_of_result; apply _|intros p].
  unfold resource_event. solve_tenant.
Qed.
Lemma foreign_RequestTerminate org id : keeps (foreign org) (RequestTerminate org id).
Proof. unfold RequestTerminate, SetTerminating, resource_event, ResourceGetForUpdate. solve_tenant. Qed.
Lemma foreign_RequestRestart org id : keeps (foreign org) (RequestRestart org id).
Proof. unfold RequestRestart, SetProvisioning, resource_event, ResourceGetForUpdate. solve_tenant. Qed.

(** ** Requests *)

(** A caller acts as its tenant, through the system's transactions. *)
Definition confined (t : TenantID) : relation DB := λ d d', foreign t d d' ∧ steps d d'.
#[local] Instance confined_pre t : PreOrder (confined t).
Proof.
  split; [split; reflexivity|]. intros a b c [Hab ?] [Hbc ?]. split; [by etrans|by etrans].
Qed.
Lemma confined_reads {A} t (m : M DB A) : keeps eq m → keeps (confined t) m.
Proof. intros Hm d. rewrite <-(Hm d). reflexivity. Qed.

(** The requests of the service that change something. *)
Inductive resource_request :=
  | RqProvision (clock : time) (fresh : ResourceID) (tk : Token) (session : SessionID) (kind : string)
      (spec : option request_spec) (providerInstance : string)
  | RqTerminate (id : ResourceID)
  | RqRestart (id : ResourceID)
  | RqExecPreview (id : ResourceID) (command : string) (out : json → option (list (string * string) * bool)).

Definition serve (who : option authContext) (rq : resource_request) : M RS unit :=
  match rq with
  | RqProvision clock fresh tk session kind spec name =>
      _ ← db (ProvisionResource sv who clock fresh tk session kind spec name); mret ()
  | RqTerminate id => db (TerminateResource who id)
  | RqRestart id => _ ← db (RestartResource who id); mret ()
  | RqExecPreview id command out => _ ← ExecPreview sv net ctxErr who id command out; mret ()
  end.

Lemma confined_Request clock fresh tk org session kind spec name by_ :
  keeps (confined org) (Request sv clock fresh tk org session kind spec name by_).
Proof.
  intros d. split; [apply foreign_Request|].
  pose proof (step_op sv (OpResource (RoRequest clock fresh tk org session kind spec name by_)) d I) as Hst.
  cbn [run_op run_res_op] in Hst. unfold mbind, M_bind in Hst. by destruct (Request _ _ _ _ _ _ _ _ _ _ d) as [? []].
Qed.
Lemma confined_RequestTerminate org id : keeps (confined org) (RequestTerminate org id).
Proof.
  intros d. split; [apply foreign_RequestTerminate|].
  apply (step_op sv (OpResource (RoRequestTerminate org id)) d I).
Qed.
Lemma confined_RequestRestart org id : keeps (confined org) (RequestRestart org id).
Proof.
  intros d. split; [apply foreign_RequestRestart|].
  pose proof (step_op sv (OpResource (RoRequestRestart org id)) d I) as Hst.
  cbn [run_op run_res_op] in Hst. unfold mbind, M_bind in Hst. by destruct (RequestRestart org id d) as [? []].
Qed.
Lemma confined_Append org session e : keeps (confined org) (Append Pool org session e).
Proof. intros d. split; [apply foreign_Append|apply (step_op sv (OpAppend org session e) d I)]. Qed.
Lemma confined_get org r id : keeps (confined org) (ResourceGet r id).
Proof. apply confined_reads, (proj1 (keeps_resource_reads eq)). Qed.
Hint Resolve confined_Request confined_RequestTerminate confined_RequestRestart confined_Append confined_get : keeps.

Lemma confined_provision a clock fresh tk session kind spec name :
  keeps (confined (auTenant a)) (ProvisionResource sv (Some a) clock fresh tk session kind spec name).
Proof. unfold ProvisionResource. apply resolved_session_keeps; [apply _|]. intros b. solve_tenant. Qed.
Lemma confined_terminate a id : keeps (confined (auTenant a)) (TerminateResource (Some a) id).
Proof. unfold TerminateResource. apply resolved_resource_keeps; [apply _|]. intros r ->. solve_tenant. Qed.
Lemma confined_restart a id : keeps (confined (auTenant a)) (RestartResource (Some a) id).
Proof. unfold RestartResource. apply resolved_resource_keeps; [apply _|]. intros r ->. solve_tenant. Qed.

(** ** What a request does *)

(** Requests leave the process only for a ready resource of the tenant. *)
Definition served (t : TenantID) (s s' : RS) : Prop :=
  confined t s.1 s'.1 ∧
  (sent s'.2 = sent s.2 ∨ ∃ id r, resource_of s.1 t id = Some r ∧ r_state r = ResourceReady).

Lemma served_db {A} t (m : M DB A) s : keeps (confined t) m → served t s (db m s).1.
Proof. intros Hm. unfold served, db. specialize (Hm s.1). destruct (m s.1). split; [done|by left]. Qed.
Lemma served_unit {A} t (m : M RS A) s : served t s (m s).1 → served t s ((_ ← m; mret ()) s).1.
Proof. unfold mbind, M_bind. by destruct (m s) as [? []]. Qed.

(** The database is not written while the tool endpoint is talked to. *)
Lemma ToolClient_db r s : (ToolClient sv net ctxErr r s).1.1 = s.1.
Proof.
  unfold ToolClient, mbind, M_bind, of_result, ext, mret, M_ret. repeat (case_match; simplify_eq/=; try done).
Qed.
Lemma Exec_db org id args out s : (Exec sv net ctxErr org id args out s).1.1 = s.1 ∧
  (sent (Exec sv net ctxErr org id args out s).1.2 = sent s.2 ∨
   ∃ r, resource_of s.1 org id = Some r ∧ r_state r = ResourceReady).
Proof.
  unfold Exec, ResourceGet, mbind, M_bind, db. cbn.
  destruct (resource_of s.1 org id) as [r|] eqn:Er; cbn; [|split; [done|by left]].
  case_bool_decide as Hr; cbn; [|split; [done|by left]]. split; [|right; by exists r].
  pose proof (ToolClient_db r s) as Hd. replace (s.1, s.2) with s by (by destruct s).
  destruct (ToolClient _ _ _ r s) as [s1 [ref|e]]; [|done]. unfold ext. by destruct (Call _ _ _ _ _ _).
Qed.

Lemma served_preview a id command out s :
  served (auTenant a) s (ExecPreview sv net ctxErr (Some a) id command out s).1.
Proof.
  enough (wp (ExecPreview sv net ctxErr (Some a) id command out) (λ _, served (auTenant a) s) s)
    as Hwp by (unfold wp in Hwp; by destruct (ExecPreview _ _ _ _ _ _ _ s)).
  destruct s as [d c]. unfold ExecPreview.
  apply wp_bind, wp_db, wp_resolveResource; [|intros; split; [reflexivity|by left]].
  intros r Hr Ht. apply wp_bind, wp_attempt. rewrite Ht.
  pose proof (Exec_db (auTenant a) (r_id r) (Some (preview_args command)) out (d, c)) as [Hd Hs].
  unfold wp at 1. destruct (Exec _ _ _ _ _ _ _ (d, c)) as [[d1 c1] res]. cbn [fst snd] in Hd, Hs |- *. subst d1.
  assert (sent c1 = sent c ∨ ∃ id r, resource_of d (auTenant a) id = Some r ∧ r_state r = ResourceReady) as Hs'
    by (destruct Hs as [?|[]]; eauto).
  destruct res as [[text e]|e]; [|by split]. apply wp_bind, wp_db.
  eapply (wp_keeps (confined (auTenant a))); [apply keeps_stored; [apply _|apply confined_Append]|].
  intros [?|?] d' Hd'; by split.
Qed.

End requests.
