(* ===== verification/AdminAuthz.v ===== *)
(** * Operators: roles, permissions and bearer tokens (package [admin/authz])

    [admin/authz/authz.go] and [admin/authz/tokens.go], and the authentication
    interceptor of [adminhttp/server.go].  The environment variables are
    arguments; [Unmarshal] is what [json.Unmarshal] makes of the token map.  Go
    ranges over that map in no particular order, here in the map's own. *)
From S2P Require Import Prelude Policy Domain Text Strings.

(** ** Roles *)

Notation Role := string (only parsing).
Definition RoleViewer : Role := "viewer".
Definition RoleOperator : Role := "operator".
Definition RoleSecurity : Role := "security".
Definition RoleAdmin : Role := "admin".

Definition CmdRetryQueueJob : string := "RetryQueueJob".
Definition CmdCancelQueueJob : string := "CancelQueueJob".
Definition CmdCancelRun : string := "CancelRun".
Definition CmdAnswerAwait : string := "AnswerAwait".
Definition CmdExpireAwait : string := "ExpireAwait".
Definition CmdResourceReconcile : string := "ResourceReconcile".
Definition CmdResourceRestart : string := "ResourceRestart".
Definition CmdResourceSuspend : string := "ResourceSuspend".
Definition CmdResourceTerminate : string := "ResourceTerminate".
Definition CmdResourceAdoptionProbe : string := "ResourceAdoptionProbe".
Definition CmdReprobeProvider : string := "ReprobeProvider".
Definition CmdRevokeAPIKey : string := "RevokeAPIKey".
Definition CmdDisableCredential : string := "DisableCredential".
Definition CmdPausePeriodicPrompt : string := "PausePeriodicPrompt".
Definition CmdResumePeriodicPrompt : string := "ResumePeriodicPrompt".
Definition CmdDisconnectSubscriber : string := "DisconnectSubscriber".
Definition CmdExportIncidentEvidence : string := "ExportIncidentEvidence".
Definition CmdRevealSecret : string := "RevealSecret".

Record Operator := MkOperator { opID : string; opName : string; opRole : Role }.

Definition ParseRole (s : string) : option Role :=
  let r := ToLower (TrimSpace s) in
  if bool_decide (r ∈ [RoleViewer; RoleOperator; RoleSecurity; RoleAdmin]) then Some r else None.

Definition operatorCommands : list string :=
  [CmdRetryQueueJob; CmdCancelQueueJob; CmdCancelRun; CmdAnswerAwait; CmdExpireAwait; CmdResourceReconcile;
   CmdResourceRestart; CmdResourceSuspend; CmdResourceTerminate; CmdResourceAdoptionProbe; CmdReprobeProvider;
   CmdRevokeAPIKey; CmdDisableCredential; CmdPausePeriodicPrompt; CmdResumePeriodicPrompt;
   CmdDisconnectSubscriber; CmdExportIncidentEvidence].

Definition securityCommands : list string :=
  [CmdRevealSecret; CmdRevokeAPIKey; CmdDisableCredential; CmdExportIncidentEvidence; CmdCancelRun; CmdExpireAwait].

Definition Can (role : Role) (command : string) : bool :=
  if bool_decide (role = RoleAdmin) then true
  else if bool_decide (role = RoleSecurity) then
    bool_decide (command ∈ securityCommands) || bool_decide (command ∈ operatorCommands)
  else if bool_decide (role = RoleOperator) then bool_decide (command ∈ operatorCommands)
  else false.

Definition all_commands : list string := operatorCommands ++ [CmdRevealSecret].

Definition Permissions (role : Role) : list string := bool_filter (Can role) all_commands.

(** ** Tokens *)

Record TokenEntry := MkTokenEntry { teToken : string; teRole : Role; teName : string; teID : string }.
Record TokenDirectory := MkTokenDirectory { tdEntries : list TokenEntry; tdDevMode : bool }.

(** One entry of the JSON map: role, name and id. *)
Definition token_meta : Type := string * string * string.

Definition token_entry (tok : string) (m : token_meta) (role : Role) : TokenEntry :=
  let '(_, name, id) := m in
  let name' := if bool_decide (name = "") then role else name in
  MkTokenEntry tok role name' (if bool_decide (id = "") then name' else id).

Fixpoint load_entries (m : list (string * token_meta)) : result (list TokenEntry) :=
  match m with
  | [] => Ok []
  | (tok, meta) :: rest =>
      let tok' := TrimSpace tok in
      if bool_decide (tok' = "") then load_entries rest
      else match ParseRole meta.1.1 with
           | None => Err (ErrorText "CORE_ADMIN_TOKENS: invalid role for token")
           | Some role =>
               match load_entries rest with
               | Ok es => Ok (token_entry tok' meta role :: es)
               | Err e => Err e
               end
           end
  end.

Definition LoadTokens (Unmarshal : string → option (gmap string token_meta)) (tokens token tokenRole : string)
  : result TokenDirectory :=
  let raw := TrimSpace tokens in
  if negb (bool_decide (raw = "")) then
    match Unmarshal raw with
    | None => Err (ErrorText "CORE_ADMIN_TOKENS: invalid JSON")
    | Some m =>
        match load_entries (map_to_list m) with
        | Err e => Err e
        | Ok [] => Err (ErrorText "CORE_ADMIN_TOKENS is empty")
        | Ok es => Ok (MkTokenDirectory es false)
        end
    end
  else
    let tok := TrimSpace token in
    if negb (bool_decide (tok = "")) then
      match ParseRole (if bool_decide (tokenRole = "") then RoleAdmin else tokenRole) with
      | None => Err (ErrorText "CORE_ADMIN_TOKEN_ROLE: invalid role")
      | Some role => Ok (MkTokenDirectory [MkTokenEntry tok role "default" "default"] false)
      end
    else Ok (MkTokenDirectory [] false).

(** The byte-wise comparison of [crypto/subtle]: the exclusive ors of all bytes
    are collected and tested at the end. *)
Fixpoint xor_all (a b : list Z) : Z :=
  match a, b with
  | x :: a', y :: b' => Z.lor (Z.lxor x y) (xor_all a' b')
  | _, _ => 0
  end.

Definition subtleConstantTimeEq (a b : string) : bool :=
  if negb (bool_decide (slen a = slen b)) then false else (xor_all (bytes_of a) (bytes_of b) =? 0)%Z.

Fixpoint find_token (token : string) (es : list TokenEntry) : option Operator :=
  match es with
  | [] => None
  | e :: rest =>
      if subtleConstantTimeEq token (teToken e) then Some (MkOperator (teID e) (teName e) (teRole e))
      else find_token token rest
  end.

Definition Lookup (d : TokenDirectory) (token : string) : option Operator :=
  if bool_decide (token = "") then None
  else match find_token token (tdEntries d) with
       | Some op => Some op
       | None =>
           if tdDevMode d && bool_decide (tdEntries d = []) && negb (bool_decide (token = ""))
           then Some (MkOperator "dev" "dev" RoleAdmin) else None
       end.

Definition HasTokens (d : TokenDirectory) : bool := negb (bool_decide (tdEntries d = [])).

(** ** The interceptor *)

Definition bearer (header : string) : string := default "" (cut_prefix "Bearer " header).

(** The operator and whether [X-Admin-Reauth] repeats the bearer. *)
Definition authenticate_operator (d : TokenDirectory) (authorization reauth : string) : option (Operator * bool) :=
  let token := bearer authorization in
  match Lookup d token with
  | None => None
  | Some op => Some (op, negb (bool_decide (reauth = "")) && subtleConstantTimeEq reauth token)
  end.

(** ** Lemmas *)

Lemma xor_all_zero a b : length a = length b → Forall (λ n, 0 ≤ n)%Z a → Forall (λ n, 0 ≤ n)%Z b →
  xor_all a b = 0%Z ↔ a = b.
Proof.
  revert b. induction a as [|x a IH]; intros [|y b] Hl Ha Hb; try done.
  apply Forall_cons in Ha as [Hx Ha]. apply Forall_cons in Hb as [Hy Hb]. simpl in *.
  rewrite Z.lor_eq_0_iff, Z.lxor_eq_0_iff, IH by (done || lia). split; [intros [-> ->]; done|by intros [= -> ->]].
Qed.

Lemma bytes_inj a b : bytes_of a = bytes_of b → a = b.
Proof. intros H. rewrite <-(of_bytes_bytes_of a), <-(of_bytes_bytes_of b). by rewrite H. Qed.

Lemma subtle_eq a b : subtleConstantTimeEq a b = true ↔ a = b.
Proof.
  unfold subtleConstantTimeEq. assert (∀ s, Forall (λ n, 0 ≤ n)%Z (bytes_of s)) as Hpos.
  { intros s. eapply Forall_impl; [apply bytes_of_range|]. simpl. lia. }
  case_bool_decide as Hl; simpl.
  - rewrite Z.eqb_eq, xor_all_zero; [|unfold slen in Hl; rewrite !length_bytes_of; lia|done..].
    split; [apply bytes_inj|by intros ->].
  - split; [done|]. intros ->. done.
Qed.

Lemma find_token_Some token es op : find_token token es = Some op →
  ∃ e, e ∈ es ∧ teToken e = token ∧ opRole op = teRole e.
Proof.
  induction es as [|e es IH]; [done|]. simpl. destruct (subtleConstantTimeEq token (teToken e)) eqn:E.
  - intros [= <-]. apply subtle_eq in E as ->. exists e. split_and!; [left|done|done].
  - intros (e' & ? & ? & ?)%IH. exists e'. split_and!; [by right|done|done].
Qed.

Lemma find_token_None token es : find_token token es = None → ∀ e, e ∈ es → teToken e ≠ token.
Proof.
  induction es as [|x es IH]; [by intros _ e ?%not_elem_of_nil|]. simpl.
  destruct (subtleConstantTimeEq token (teToken x)) eqn:E; [done|]. intros H e [->|Hin]%elem_of_cons; [|by apply IH].
  intros Heq. assert (subtleConstantTimeEq token (teToken x) = true) by (by apply subtle_eq). congruence.
Qed.

(** The entries of a loaded directory carry trimmed tokens and known roles. *)
Definition entry_ok (e : TokenEntry) : Prop :=
  teToken e ≠ "" ∧ teRole e ∈ [RoleViewer; RoleOperator; RoleSecurity; RoleAdmin].

Lemma ParseRole_known s r : ParseRole s = Some r → r ∈ [RoleViewer; RoleOperator; RoleSecurity; RoleAdmin].
Proof. unfold ParseRole. case_bool_decide; [|done]. by intros [= <-]. Qed.

Lemma load_entries_ok m es : load_entries m = Ok es → Forall entry_ok es.
Proof.
  revert es. induction m as [|[tok [[role name] id]] m IH]; intros es; simpl; [intros [= <-]; constructor|].
  case_bool_decide as Ht; [apply IH|]. destruct (ParseRole role) as [r|] eqn:Hr; [|done].
  destruct (load_entries m) as [es'|]; [|done]. intros [= <-]. constructor; [|by apply IH].
  split; [done|]. by eapply ParseRole_known.
Qed.

Lemma LoadTokens_ok um tokens token role d : LoadTokens um tokens token role = Ok d →
  Forall entry_ok (tdEntries d) ∧ tdDevMode d = false.
Proof.
  unfold LoadTokens. case_bool_decide; simpl.
  - case_bool_decide; simpl; [intros [= <-]; split; [constructor|done]|].
    destruct (ParseRole _) as [r|] eqn:Hr; [|done]. intros [= <-]. split; [|done].
    constructor; [|constructor]. split; [done|]. by eapply ParseRole_known.
  - destruct (um _) as [m|]; [|done]. destruct (load_entries _) as [[|e es]|] eqn:El; [done| |done].
    intros [= <-]. split; [|done]. by eapply load_entries_ok.
Qed.

Lemma security_all cmd : cmd ∈ securityCommands ∨ cmd ∈ operatorCommands ↔ cmd ∈ all_commands.
Proof.
  assert (Forall (λ c, c ∈ all_commands) securityCommands) as Hs.
  { apply (bool_decide_eq_true_1 _). vm_compute. reflexivity. }
  rewrite Forall_forall in Hs. unfold all_commands. split.
  - intros [H|H]; [by apply Hs|]. apply elem_of_app. by left.
  - intros [H|H]%elem_of_app; [by right|]. apply list_elem_of_singleton in H as ->. left. left.
Qed.
Lemma operator_all cmd : cmd ∈ operatorCommands ↔ cmd ∈ all_commands ∧ cmd ≠ CmdRevealSecret.
Proof.
  assert (CmdRevealSecret ∉ operatorCommands) as Hn.
  { apply (bool_decide_eq_true_1 _). vm_compute. reflexivity. }
  unfold all_commands. rewrite elem_of_app, list_elem_of_singleton. split; [|naive_solver].
  intros H. split; [by left|]. by intros ->.
Qed.

(** ** Properties *)

(** Operator authority.  With a directory loaded from the environment, a
    request is let through exactly when it carries one of the configured tokens
    as its bearer; the commands its operator may run are those of the token's
    role: none for a viewer, everything but revealing secrets for an operator,
    every named command for security and any command for admin. *)
Theorem operator_authority um tokens token role d authorization reauth :
  LoadTokens um tokens token role = Ok d →
  (is_Some (authenticate_operator d authorization reauth) ↔
     ∃ e, e ∈ tdEntries d ∧ authorization = String.append "Bearer " (teToken e)) ∧
  ∀ op ok, authenticate_operator d authorization reauth = Some (op, ok) →
    (ok = true ↔ reauth ≠ "" ∧ authorization = String.append "Bearer " reauth) ∧
    ∀ cmd, Can (opRole op) cmd = true ↔
      (opRole op = RoleAdmin ∨
       (opRole op = RoleSecurity ∧ cmd ∈ all_commands) ∨
       (opRole op = RoleOperator ∧ cmd ∈ all_commands ∧ cmd ≠ CmdRevealSecret)).
Proof.
  intros [Hok Hdev]%LoadTokens_ok. unfold authenticate_operator, Lookup, bearer.
  assert (∀ t, cut_prefix "Bearer " authorization = Some t ↔ authorization = String.append "Bearer " t) as Hcut
    by (intros; apply cut_prefix_Some).
  destruct (cut_prefix "Bearer " authorization) as [t|] eqn:Ec; cbn [from_option id].
  2: { rewrite bool_decide_true by done. split; [|done]. split; [intros [? ?]; done|].
       intros (e & _ & He). by apply Hcut in He. }
  destruct (Hcut t) as [->%(λ f, f eq_refl) _].
  assert (∀ u v, String.append "Bearer " u = String.append "Bearer " v → u = v) as Hinj by (by intros u v [=]).
  case_bool_decide as Ht.
  { subst. split; [|done]. split; [intros [? ?]; done|]. intros (e & He & E%Hinj).
    rewrite Forall_forall in Hok. destruct (Hok e He) as [Hne _]. by rewrite <-E in Hne. }
  destruct (find_token t (tdEntries d)) as [op|] eqn:Ef.
  - destruct (find_token_Some _ _ _ Ef) as (e & He & <- & Hrole). split; [split; eauto|].
    intros op' ok [= <- <-]. split.
    + rewrite andb_true_iff, negb_true_iff, bool_decide_eq_false, subtle_eq. split.
      * by intros [? ->].
      * by intros [? <-%Hinj].
    + intros cmd. unfold Can. rewrite Hrole. destruct (decide (teRole e = RoleAdmin)) as [->|Ha].
      { rewrite bool_decide_true by done. naive_solver. }
      rewrite bool_decide_false by done. destruct (decide (teRole e = RoleSecurity)) as [->|Hs].
      { rewrite bool_decide_true, orb_true_iff, !bool_decide_eq_true, security_all by done. naive_solver. }
      rewrite bool_decide_false by done. destruct (decide (teRole e = RoleOperator)) as [->|Ho].
      { rewrite bool_decide_true, bool_decide_eq_true, operator_all by done. naive_solver. }
      rewrite bool_decide_false by done. naive_solver.
  - rewrite Hdev. simpl. split; [|done]. split; [intros [? ?]; done|]. intros (e & He & E%Hinj).
    exfalso. eapply find_token_None; [exact Ef|exact He|done].
Qed.

Definition demo_tokens : string → option (gmap string token_meta) :=
  λ _, Some {[" s3cret " := ("Operator ", "ops", ""); "" := ("nobody", "", "")]}.

Lemma operator_authority_witness :
  ∃ d op, LoadTokens demo_tokens "{...}" "" "" = Ok d ∧
    authenticate_operator d "Bearer s3cret" "s3cret" = Some (op, true) ∧ opID op = "ops" ∧
    Can (opRole op) CmdRevealSecret = false ∧ Can (opRole op) CmdCancelRun = true.
Proof.
  eexists _, _. split; [vm_compute; reflexivity|]. split; [vm_compute; reflexivity|]. split; [reflexivity|].
  destruct (operator_authority demo_tokens "{...}" "" "" _ "Bearer s3cret" "s3cret" ltac:(vm_compute; reflexivity))
    as [_ H].
  specialize (H _ _ ltac:(vm_compute; reflexivity)) as [_ H]. split.
  - apply not_true_iff_false. rewrite H. intros [?|[[? _]|(_ & _ & ?)]]; done.
  - apply H. right. right. split_and!; [done| |done]. apply (bool_decide_eq_true_1 _). vm_compute. reflexivity.
Defined.
