(* ===== verification/AdminQuery.v ===== *)
(** * Admin searches: descriptors, compilation and cursors (package [admin/query])

    [admin/query/types.go], [compile.go], [cursor.go] and [proto.go], and the
    page loop of [admin/store/store.go].  The compiler's output is the SQL text
    and the bound arguments, character by character; what the text means is in
    [QuerySpec].  The descriptions of fields and collections, shown to the
    operator, are left out.  A [ValidationError] is its sentinel: its message is not
    modelled.

    Parameters: [GoTime] is the RFC 3339 codec of package [time], [Mac] is
    HMAC-SHA256, [CursorCodec] is the JSON codec of a cursor payload, and
    [Digest] the truncated SHA-256 of the JSON of a query's shape. *)
From S2P Require Import Prelude Policy Domain Text Strings.

(** ** Data *)

Definition DefaultLimit : Z := 50.
Definition MaxLimit : Z := 250.
Definition MaxFilters : Z := 16.
Definition MaxSorts : Z := 4.
Definition MaxQueryLength : Z := 256.
Definition MaxFilterValues : Z := 64.
Definition DefaultCursorTTL : Z := 86400 * 1000000000.

Inductive FieldType := TypeString | TypeUUID | TypeInt | TypeBool | TypeTimestamp | TypeJSON | TypeUnknown.

Inductive Op :=
  | OpEq | OpNe | OpLt | OpLte | OpGt | OpGte | OpIn | OpNotIn | OpContains | OpPrefix | OpIsNull | OpIsNotNull
  | OpUnknown (name : string).

#[export] Instance FieldType_eq_dec : EqDecision FieldType.
Proof. solve_decision. Defined.
#[export] Instance Op_eq_dec : EqDecision Op.
Proof. solve_decision. Defined.

Record Field := MkField {
  fName : string; fColumn : string; fType : FieldType; fFilterOps : list Op; fSortable : bool;
  fSearchable : bool; fPK : bool;
}.

Record Sort := MkSort { sField : string; sDescending : bool }.
#[export] Instance Sort_eq_dec : EqDecision Sort.
Proof. solve_decision. Defined.

(** An argument bound to a placeholder. *)
Inductive sqlval := VStr (s : string) | VInt (z : Z) | VBool (b : bool) | VTime (t : time).

Record Collection := MkCollection {
  cName : string; cFrom : string; cSelect : string; cSelectArgs : list sqlval; cFields : list Field;
  cDefaultSorts : list Sort; cSearchExpr : string; cHasDetail : bool; cHasBlob : bool;
}.

Record Filter := MkFilter { flField : string; flOp : Op; flValue : string; flValues : list string }.
Record Page := MkPage { pgLimit : Z; pgCursor : string }.
Record Request := MkRequest { rqQuery : string; rqFilters : list Filter; rqSorts : list Sort; rqPage : Page }.
Record PageInfo := MkPageInfo { piNextCursor : string; piHasMore : bool }.

(** The sentinels of package [query]; [QueryErr] is any other error. *)
Inductive query_err :=
  | ErrInvalidLimit | ErrInvalidField | ErrInvalidOp | ErrInvalidSort | ErrTooManyFilters | ErrTooManySorts
  | ErrQueryTooLong | ErrBadCursor | ErrCursorMismatch | ErrUnknownCollection | ErrBadValue
  | QueryErr (msg : string).

Inductive qres (A : Type) := QOk (a : A) | QErr (e : query_err).
Arguments QOk {A} a.
Arguments QErr {A} e.

#[export] Instance qres_ret : MRet qres := @QOk.
#[export] Instance qres_bind : MBind qres := λ A B f m, match m with QOk a => f a | QErr e => QErr e end.

(** [if !ok { return err }] *)
Definition check (b : bool) (e : query_err) : qres unit := if b then QOk () else QErr e.

(** [for _, x := range l { if err := f(x); err != nil { return err } }] *)
Fixpoint check_all {A} (f : A → qres unit) (l : list A) : qres unit :=
  match l with [] => QOk () | x :: rest => _ ← f x; check_all f rest end.

Fixpoint mapQ {A B} (f : A → qres B) (l : list A) : qres (list B) :=
  match l with [] => QOk [] | x :: rest => y ← f x; ys ← mapQ f rest; QOk (y :: ys) end.

Class GoTime := { ParseTime : string → option time; FormatTime : time → string }.

(** ** Values *)

Fixpoint digits (acc : Z) (s : string) : option Z :=
  match s with
  | EmptyString => Some acc
  | String c rest =>
      let b := byte_of c in if between 48 b 57 then digits (acc * 10 + (b - 48)) rest else None
  end.

Definition in_int64 (z : Z) : option Z := if bool_decide (int64_min ≤ z ≤ int64_max)%Z then Some z else None.

(** [strconv.ParseInt(v, 10, 64)] *)
Definition ParseInt (v : string) : option Z :=
  match v with
  | EmptyString => None
  | String c rest =>
      if (byte_of c =? 45)%Z || (byte_of c =? 43)%Z then
        if bool_decide (rest = "") then None
        else z ← digits 0 rest; in_int64 (if (byte_of c =? 45)%Z then - z else z)%Z
      else z ← digits 0 v; in_int64 z
  end.

(** [strconv.ParseBool] *)
Definition ParseBool (v : string) : option bool :=
  if bool_decide (v ∈ ["1"; "t"; "T"; "true"; "TRUE"; "True"]) then Some true
  else if bool_decide (v ∈ ["0"; "f"; "F"; "false"; "FALSE"; "False"]) then Some false
  else None.

(** The compiler looks a field up in a map built from the list: the last of
    several fields with one name wins. *)
Definition fieldByName (fields : list Field) (name : string) : option Field :=
  last (bool_filter (λ f, bool_decide (fName f = name)) fields).

(** The zero [Field] of a missing map entry. *)
Definition no_field : Field := MkField "" "" TypeUnknown [] false false false.
Definition field_or_zero (fields : list Field) (name : string) : Field := default no_field (fieldByName fields name).

Section values.
Context `{GoTime}.

Definition parseTyped (t : FieldType) (v : string) : bool :=
  match t with
  | TypeString | TypeJSON => true
  | TypeUUID => bool_decide (slen v = 36%Z)
  | TypeInt => bool_decide (is_Some (ParseInt v))
  | TypeBool => bool_decide (is_Some (ParseBool v))
  | TypeTimestamp => bool_decide (is_Some (ParseTime v))
  | TypeUnknown => false
  end.

(** [None] is a parse error. *)
Definition coerce (t : FieldType) (v : string) : option sqlval :=
  match t with
  | TypeString | TypeUUID | TypeJSON | TypeUnknown => Some (VStr v)
  | TypeInt => VInt <$> ParseInt v
  | TypeBool => VBool <$> ParseBool v
  | TypeTimestamp => VTime <$> ParseTime v
  end.

(** ** Validation *)

Definition opAllowed (f : Field) (op : Op) : bool := existsb (λ a, bool_decide (a = op)) (fFilterOps f).

Definition validateFilterValue (f : Field) (fl : Filter) : qres unit :=
  match flOp fl with
  | OpIsNull | OpIsNotNull => QOk ()
  | OpIn | OpNotIn =>
      _ ← check (negb (bool_decide (flValues fl = []))) ErrBadValue;
      _ ← check (negb (bool_decide (MaxFilterValues < Z.of_nat (length (flValues fl)))%Z)) ErrBadValue;
      check_all (λ v, check (parseTyped (fType f) v) ErrBadValue) (flValues fl)
  | _ =>
      _ ← check (negb (bool_decide (flValue fl = "") && negb (bool_decide (fType f = TypeString)))) ErrBadValue;
      check (parseTyped (fType f) (flValue fl)) ErrBadValue
  end.

Definition validateFilter (col : Collection) (fl : Filter) : qres unit :=
  match fieldByName (cFields col) (flField fl) with
  | None => QErr ErrInvalidField
  | Some f =>
      _ ← check (opAllowed f (flOp fl)) ErrInvalidOp;
      validateFilterValue f fl
  end.

Definition validateSort (col : Collection) (s : Sort) : qres unit :=
  match fieldByName (cFields col) (sField s) with
  | None => QErr ErrInvalidField
  | Some f => check (fSortable f) ErrInvalidSort
  end.

Definition validateRequest (col : Collection) (req : Request) : qres unit :=
  _ ← check (negb (bool_decide (MaxLimit < pgLimit (rqPage req))%Z)) ErrInvalidLimit;
  _ ← check (negb (bool_decide (MaxFilters < Z.of_nat (length (rqFilters req)))%Z)) ErrTooManyFilters;
  _ ← check (negb (bool_decide (MaxSorts < Z.of_nat (length (rqSorts req)))%Z)) ErrTooManySorts;
  _ ← check (negb (bool_decide (MaxQueryLength < slen (rqQuery req))%Z)) ErrQueryTooLong;
  _ ← check_all (validateFilter col) (rqFilters req);
  check_all (validateSort col) (rqSorts req).

(** ** SQL text *)

Definition dollar (n : Z) : string := "$" +:+ pretty n.

(** [strings.Join] *)
Fixpoint Join (sep : string) (l : list string) : string :=
  match l with
  | [] => ""
  | [s] => s
  | s :: rest => s +:+ sep +:+ Join sep rest
  end.

(** [strings.ReplaceAll] of one byte by a string. *)
Fixpoint replace_char (c : Ascii.ascii) (new : string) (s : string) : string :=
  match s with
  | EmptyString => EmptyString
  | String a rest => if Ascii.eqb a c then new +:+ replace_char c new rest else String a (replace_char c new rest)
  end.

(** The bytes of a backslash, percent sign, underscore and question mark. *)
Definition backslash : Ascii.ascii := of_byte 92.
Definition percent_sign : Ascii.ascii := of_byte 37.
Definition underscore : Ascii.ascii := of_byte 95.
Definition question_mark : Ascii.ascii := of_byte 63.

Definition escapeLike (s : string) : string :=
  replace_char underscore "\_" (replace_char percent_sign "\%" (replace_char backslash "\\" s)).

(** [i]-th placeholder for each of a list. *)
Fixpoint placeholders (n : Z) (k : nat) : list string :=
  match k with O => [] | S k' => dollar n :: placeholders (n + 1) k' end.

Definition sql_op (op : Op) : option string :=
  match op with
  | OpEq => Some "=" | OpNe => Some "<>" | OpLt => Some "<" | OpLte => Some "<=" | OpGt => Some ">" | OpGte => Some ">="
  | _ => None
  end.

Definition coerceQ (e : query_err) (t : FieldType) (v : string) : qres sqlval :=
  match coerce t v with Some x => QOk x | None => QErr e end.

Definition compileFilter (f : Field) (fl : Filter) (argStart : Z) : qres (string * list sqlval) :=
  let col := fColumn f in
  match flOp fl with
  | OpIsNull => QOk (col +:+ " IS NULL", [])
  | OpIsNotNull => QOk (col +:+ " IS NOT NULL", [])
  | OpIn | OpNotIn =>
      args ← mapQ (coerceQ ErrBadValue (fType f)) (flValues fl);
      let op := if bool_decide (flOp fl = OpNotIn) then "NOT IN" else "IN" in
      QOk (col +:+ " " +:+ op +:+ " (" +:+ Join ", " (placeholders argStart (length (flValues fl))) +:+ ")", args)
  | OpContains =>
      QOk (col +:+ " ILIKE " +:+ dollar argStart +:+ " ESCAPE '\'", [VStr ("%" +:+ escapeLike (flValue fl) +:+ "%")])
  | OpPrefix =>
      QOk (col +:+ " ILIKE " +:+ dollar argStart +:+ " ESCAPE '\'", [VStr (escapeLike (flValue fl) +:+ "%")])
  | op =>
      match sql_op op with
      | None => QErr ErrInvalidOp
      | Some o =>
          cv ← coerceQ ErrBadValue (fType f) (flValue fl);
          QOk (col +:+ " " +:+ o +:+ " " +:+ dollar argStart, [cv])
      end
  end.

(** One disjunct of the keyset predicate: the columns before the [i]-th equal
    the cursor's, the [i]-th is beyond it. *)
Fixpoint keyset_part (sorts : list Sort) (cols values : list string) (fields : list Field) (i : nat) (n : Z)
  : qres (list string * list sqlval) :=
  match sorts, cols, values with
  | s :: sorts', c :: cols', v :: values' =>
      cv ← coerceQ ErrBadCursor (fType (field_or_zero fields (sField s))) v;
      match i with
      | O => QOk (["(" +:+ c +:+ " IS NOT NULL AND " +:+ c +:+ " " +:+ (if sDescending s then "<" else ">") +:+ " " +:+
                   dollar n +:+ ")"], [cv])
      | S i' =>
          '(ands, args) ← keyset_part sorts' cols' values' fields i' (n + 1);
          QOk ((c +:+ " IS NOT DISTINCT FROM " +:+ dollar n) :: ands, cv :: args)
      end
  | _, _, _ => QOk ([], [])
  end.

(** The outer loop, from disjunct [i] on. *)
Fixpoint keyset_parts (sorts : list Sort) (cols values : list string) (fields : list Field) (idxs : list nat) (n : Z)
  : qres (list string * list sqlval) :=
  match idxs with
  | [] => QOk ([], [])
  | i :: idxs' =>
      '(ands, args) ← keyset_part sorts cols values fields i n;
      '(parts, args') ← keyset_parts sorts cols values fields idxs' (n + Z.of_nat (length args));
      QOk (("(" +:+ Join " AND " ands +:+ ")") :: parts, args ++ args')
  end.

Definition keysetPredicate (sorts : list Sort) (cols values : list string) (fields : list Field) (argStart : Z)
  : qres (string * list sqlval) :=
  '(parts, args) ← keyset_parts sorts cols values fields (seq 0 (length sorts)) argStart;
  QOk ("(" +:+ Join " OR " parts +:+ ")", args).

Definition pkSorts (col : Collection) : list Sort :=
  (λ f, MkSort (fName f) false) <$> bool_filter (λ f, fPK f && fSortable f) (cFields col).

Definition containsSort (sorts : list Sort) (field : string) : bool :=
  existsb (λ s, bool_decide (sField s = field)) sorts.

(** The requested or default sorts with the primary key as tie-breaker. *)
Definition effectiveSorts (col : Collection) (req : Request) : list Sort :=
  let sorts := if bool_decide (rqSorts req = []) then cDefaultSorts col else rqSorts req in
  foldl (λ acc pk, if containsSort acc (sField pk) then acc else acc ++ [pk]) sorts (pkSorts col).

Definition searchable (f : Field) : bool :=
  fSearchable f && (bool_decide (fType f = TypeString) || bool_decide (fType f = TypeJSON)).

(** The text search clause; [n] is the first free placeholder. *)
Definition searchClause (col : Collection) (query : string) (n : Z) : qres (list string * list sqlval) :=
  let q := TrimSpace query in
  if bool_decide (q = "") then QOk ([], [])
  else if bool_decide (cSearchExpr col = "") then
    let fs := bool_filter searchable (cFields col) in
    let parts := imap (λ i f, "(" +:+ fColumn f +:+ ")::text ILIKE " +:+ dollar (n + Z.of_nat i) +:+ " ESCAPE '\'") fs in
    if bool_decide (fs = []) then QErr ErrInvalidField
    else QOk (["(" +:+ Join " OR " parts +:+ ")"], (λ _, VStr ("%" +:+ escapeLike q +:+ "%")) <$> fs)
  else QOk ([replace_char question_mark (dollar n) (cSearchExpr col)], [VStr q]).

Fixpoint filterClauses (fields : list Field) (filters : list Filter) (n : Z) : qres (list string * list sqlval) :=
  match filters with
  | [] => QOk ([], [])
  | fl :: rest =>
      '(clause, args) ← compileFilter (field_or_zero fields (flField fl)) fl n;
      '(clauses, args') ← filterClauses fields rest (n + Z.of_nat (length args));
      QOk (clause :: clauses, args ++ args')
  end.

Definition order_part (c : string) (s : Sort) : string :=
  c +:+ " " +:+ (if sDescending s then "DESC" else "ASC") +:+ " NULLS LAST".

End values.

(** ** Cursors *)

Record CursorPayload := MkCursorPayload {
  cpV : Z; cpCollection : string; cpFingerprint : string; cpSortValues : list string; cpExp : Z;
}.

Class Mac := { hmac : string → list Z → list Z; hmac_size s b : length (hmac s b) = 32; }.
Class CursorCodec := { marshalCursor : CursorPayload → list Z; unmarshalCursor : list Z → option CursorPayload }.
Class Digest := fingerprint : string → string → list Filter → list Sort → string.

Record Signer := MkSigner { sgSecret : string; sgTTL : Z }.

Definition sgttl (s : Signer) : Z := if bool_decide (0 < sgTTL s)%Z then sgTTL s else DefaultCursorTTL.

(** [time.Time.Unix] of a time in nanoseconds. *)
Definition Unix (t : time) : Z := (t / 1000000000)%Z.

Section cursors.
Context `{Mac} `{CursorCodec}.

(** [now] is the signer's clock; a nil signer is one without a secret. *)
Definition Sign (s : Signer) (now : time) (p : CursorPayload) : qres string :=
  if bool_decide (sgSecret s = "") then QErr (QueryErr "query: cursor signer secret required")
  else
    let exp := if bool_decide (cpExp p = 0%Z) then Unix (now + sgttl s) else cpExp p in
    let p' := MkCursorPayload 1 (cpCollection p) (cpFingerprint p) (cpSortValues p) exp in
    let raw := marshalCursor p' in
    QOk (of_bytes (b64_encode (hmac (sgSecret s) raw ++ raw))).

Definition Verify (s : Signer) (now : time) (token : string) : qres CursorPayload :=
  if bool_decide (sgSecret s = "") then QErr (QueryErr "query: cursor signer secret required")
  else match b64_decode (bytes_of token) with
       | None => QErr ErrBadCursor
       | Some raw =>
           if (length raw <=? 32)%nat then QErr ErrBadCursor
           else
             let sig := take 32 raw in
             let body := drop 32 raw in
             if negb (bool_decide (sig = hmac (sgSecret s) body)) then QErr ErrBadCursor
             else match unmarshalCursor body with
                  | None => QErr ErrBadCursor
                  | Some p =>
                      if negb (bool_decide (cpV p = 1%Z)) then QErr ErrBadCursor
                      else if bool_decide (0 < cpExp p)%Z && bool_decide (cpExp p < Unix now)%Z then QErr ErrBadCursor
                      else QOk p
                  end
       end.

(** ** The compiler *)

Record Compiled := MkCompiled {
  cmSQL : string; cmArgs : list sqlval; cmLimit : Z; cmSorts : list Sort; cmSortColumns : list string;
  cmFingerprint : string; cmCursor : option CursorPayload;
}.

Context `{Digest} `{GoTime}.

(** The incoming cursor, checked against the query; [signer] is nil or set. *)
Definition cursorFor (signer : option Signer) (now : time) (col : Collection) (fp : string) (nsorts : nat)
    (token : string) : qres (option CursorPayload) :=
  if bool_decide (token = "") then QOk None
  else match signer with
       | None => QErr (QueryErr "query: cursor provided but signer is nil")
       | Some s =>
           p ← Verify s now token;
           if negb (bool_decide (cpCollection p = cName col)) || negb (bool_decide (cpFingerprint p = fp))
           then QErr ErrCursorMismatch
           else if negb (bool_decide (length (cpSortValues p) = nsorts)) then QErr ErrBadCursor
           else QOk (Some p)
       end.

Definition limit_of (req : Request) : Z :=
  if bool_decide (pgLimit (rqPage req) = 0%Z) then DefaultLimit else pgLimit (rqPage req).

Definition keysetClause (sorts : list Sort) (cols : list string) (fields : list Field) (cursor : option CursorPayload)
    (n : Z) : qres (list string * list sqlval) :=
  match cursor with
  | None => QOk ([], [])
  | Some p => '(clause, args) ← keysetPredicate sorts cols (cpSortValues p) fields n; QOk ([clause], args)
  end.

Definition sortColumns (col : Collection) (sorts : list Sort) : list string :=
  (λ s, fColumn (field_or_zero (cFields col) (sField s))) <$> sorts.

(** The statement from its parts; [n] is the placeholder of the limit. *)
Definition statement (col : Collection) (where_ : list string) (sorts : list Sort) (cols : list string) (n : Z) : string :=
  "SELECT " +:+ cSelect col +:+ " FROM " +:+ cFrom col +:+
  (if bool_decide (where_ = []) then "" else " WHERE " +:+ Join " AND " where_) +:+
  " ORDER BY " +:+ Join ", " (zip_with order_part cols sorts) +:+ " LIMIT " +:+ dollar n.

Definition Compile (signer : option Signer) (now : time) (col : Collection) (req : Request) : qres Compiled :=
  _ ← validateRequest col req;
  let limit := limit_of req in
  let sorts := effectiveSorts col req in
  _ ← check (negb (bool_decide (sorts = []))) ErrInvalidSort;
  let cols := sortColumns col sorts in
  let fp := fingerprint (cName col) (TrimSpace (rqQuery req)) (rqFilters req) sorts in
  cursor ← cursorFor signer now col fp (length sorts) (pgCursor (rqPage req));
  let n0 := Z.of_nat (length (cSelectArgs col)) in
  '(w1, a1) ← searchClause col (rqQuery req) (n0 + 1);
  let n1 := (n0 + Z.of_nat (length a1))%Z in
  '(w2, a2) ← filterClauses (cFields col) (rqFilters req) (n1 + 1);
  let n2 := (n1 + Z.of_nat (length a2))%Z in
  '(w3, a3) ← keysetClause sorts cols (cFields col) cursor (n2 + 1);
  let n3 := (n2 + Z.of_nat (length a3))%Z in
  QOk (MkCompiled (statement col (w1 ++ w2 ++ w3) sorts cols (n3 + 1))
         (cSelectArgs col ++ a1 ++ a2 ++ a3 ++ [VInt (limit + 1)]) limit sorts cols fp cursor).

Definition NextCursor (signer : option Signer) (now : time) (col : Collection) (c : Compiled) (sortValues : list string)
  : qres string :=
  match signer with
  | None => QErr (QueryErr "query: cursor signer required")
  | Some s => Sign s now (MkCursorPayload 0 (cName col) (cmFingerprint c) sortValues 0)
  end.

(** ** Cursor values *)

(** A scanned column value: the Go types [FormatSortValue] tells apart. *)
Inductive goval :=
  | GoNil | GoTimeVal (t : time) | GoTimePtr (t : option time) | GoUUID (b : list Z) | GoBytes (b : list Z)
  | GoString (s : string) | GoInt (z : Z) | GoBool (b : bool) | GoOther (rendered : string).

Definition hex2 (b : Z) : list Z := 
  let d n := if (n <? 10)%Z then (n + 48)%Z else (n + 87)%Z in [d (Z.shiftr b 4); d (Z.land b 15)].
Definition hexs (l : list Z) : string := of_bytes (l ≫= hex2).

Definition formatUUIDBytes (b : list Z) : string :=
  if negb (length b =? 16)%nat then of_bytes b
  else hexs (take 4 b) +:+ "-" +:+ hexs (take 2 (drop 4 b)) +:+ "-" +:+ hexs (take 2 (drop 6 b)) +:+ "-" +:+
       hexs (take 2 (drop 8 b)) +:+ "-" +:+ hexs (drop 10 b).

Definition FormatSortValue (v : goval) : string :=
  match v with
  | GoNil | GoTimePtr None => ""
  | GoTimeVal t | GoTimePtr (Some t) => FormatTime t
  | GoUUID b => formatUUIDBytes b
  | GoBytes b => if (length b =? 16)%nat then formatUUIDBytes b else of_bytes b
  | GoString s => s
  | GoInt z => pretty z
  | GoBool b => if b then "true" else "false"
  | GoOther s => s
  end.

(** ** The page loop of [AdminStore.list] *)

(** [strings.Index] and the text around the first occurrence. *)
Fixpoint split_on (sep s : string) : option (string * string) :=
  match cut_prefix sep s with
  | Some rest => Some ("", rest)
  | None =>
      match s with
      | EmptyString => None
      | String c s' => '(l, r) ← split_on sep s'; Some (String c l, r)
      end
  end.

(** The sort columns are selected too, behind the data columns. *)
Definition injectSortSelect (c : Compiled) : string * Z :=
  match cut_prefix "SELECT " (cmSQL c) with
  | None => (cmSQL c, 0%Z)
  | Some rest =>
      if bool_decide (cmSortColumns c = []) then (cmSQL c, 0%Z)
      else match split_on " FROM " rest with
           | None => (cmSQL c, 0%Z)
           | Some (selectList, afterFrom) =>
               let extras := imap (λ i col, "(" +:+ col +:+ ") AS __sk" +:+ pretty (Z.of_nat i)) (cmSortColumns c) in
               ("SELECT " +:+ selectList +:+ ", " +:+ Join ", " extras +:+ " FROM " +:+ afterFrom,
                Z.of_nat (length extras))
           end
  end.

(** The loop over the rows.
    [rows] is what the database returns for the statement: for each row its
    data and its sort values. *)
Definition listPage {R} (signer : option Signer) (now : time) (col : Collection) (c : Compiled)
    (rows : list (R * list goval)) : qres (list R * PageInfo) :=
  let kept := take (Z.to_nat (cmLimit c)) rows in
  let hasMore := bool_decide (cmLimit c < Z.of_nat (length rows))%Z in
  match last kept with
  | Some (_, sv) =>
      if hasMore && negb (bool_decide (FormatSortValue <$> sv = []))
      then cur ← NextCursor signer now col c (FormatSortValue <$> sv); QOk (kept.*1, MkPageInfo cur hasMore)
      else QOk (kept.*1, MkPageInfo "" hasMore)
  | None => QOk (kept.*1, MkPageInfo "" hasMore)
  end.

End cursors.
