(* ===== verification/Descriptors.v ===== *)
(** * The admin collections (package [admin/query])

    [admin/query/descriptors.go]: the registry and the descriptors of the
    fourteen collections, with the SQL fragments as they are written. *)
From S2P Require Import Prelude Policy Domain Text Strings AdminQuery.

Definition stdStringOps : list Op := [OpEq; OpNe; OpIn; OpNotIn; OpContains; OpPrefix; OpIsNull; OpIsNotNull].
Definition stdUUIDOps : list Op := [OpEq; OpNe; OpIn; OpNotIn; OpIsNull; OpIsNotNull].
Definition stdIntOps : list Op := [OpEq; OpNe; OpLt; OpLte; OpGt; OpGte; OpIn; OpNotIn].
Definition stdTSOps : list Op := [OpEq; OpNe; OpLt; OpLte; OpGt; OpGte; OpIsNull; OpIsNotNull].
Definition stdBoolOps : list Op := [OpEq; OpNe].

Definition tenantsCollection : Collection :=
  MkCollection "tenants"
    "tenants t
			LEFT JOIN LATERAL (SELECT count(*)::bigint AS c FROM sessions s WHERE s.tenant_id = t.id) sc ON true
			LEFT JOIN LATERAL (SELECT count(*)::bigint AS c FROM agent_runs r WHERE r.tenant_id = t.id) rc ON true
			LEFT JOIN LATERAL (SELECT count(*)::bigint AS c FROM api_keys k WHERE k.tenant_id = t.id) kc ON true"
    "t.id::text, t.name, t.created_at, COALESCE(sc.c,0), COALESCE(rc.c,0), COALESCE(kc.c,0)"
    []
    [MkField "id" "t.id" TypeUUID stdUUIDOps true false true;
     MkField "name" "t.name" TypeString stdStringOps true true false;
     MkField "created_at" "t.created_at" TypeTimestamp stdTSOps true false false]
    [MkSort "created_at" true] "" true false.

Definition apiKeysCollection : Collection :=
  MkCollection "api_keys"
    "api_keys k"
    "k.id::text, k.tenant_id::text, k.name, k.scope, k.prefix, k.created_at, k.revoked_at,
			encode(substring(k.key_hash from 1 for 4), 'hex'), (k.key_enc IS NOT NULL AND length(k.key_enc) > 0)"
    []
    [MkField "id" "k.id" TypeUUID stdUUIDOps true false true;
     MkField "tenant_id" "k.tenant_id" TypeUUID stdUUIDOps true false false;
     MkField "name" "k.name" TypeString stdStringOps true true false;
     MkField "scope" "k.scope" TypeString stdStringOps true false false;
     MkField "prefix" "k.prefix" TypeString stdStringOps true true false;
     MkField "created_at" "k.created_at" TypeTimestamp stdTSOps true false false;
     MkField "revoked_at" "k.revoked_at" TypeTimestamp stdTSOps true false false]
    [MkSort "created_at" true] "" true false.

Definition sessionsCollection : Collection :=
  MkCollection "sessions"
    "sessions s
			LEFT JOIN LATERAL (SELECT count(*)::bigint AS c FROM session_events e WHERE e.session_id = s.id) ec ON true
			LEFT JOIN LATERAL (SELECT count(*)::bigint AS c FROM agent_runs r WHERE r.session_id = s.id) rc ON true
			LEFT JOIN LATERAL (SELECT count(*)::bigint AS c FROM resources res WHERE res.session_id = s.id) rsc ON true"
    "s.id::text, s.tenant_id::text, s.title, s.labels, s.last_seq, s.created_at, s.archived_at,
			COALESCE(ec.c,0), COALESCE(rc.c,0), COALESCE(rsc.c,0)"
    []
    [MkField "id" "s.id" TypeUUID stdUUIDOps true false true;
     MkField "tenant_id" "s.tenant_id" TypeUUID stdUUIDOps true false false;
     MkField "title" "s.title" TypeString stdStringOps true true false;
     MkField "last_seq" "s.last_seq" TypeInt stdIntOps true false false;
     MkField "created_at" "s.created_at" TypeTimestamp stdTSOps true false false;
     MkField "archived_at" "s.archived_at" TypeTimestamp stdTSOps true false false]
    [MkSort "created_at" true] "" true false.

Definition eventsCollection : Collection :=
  MkCollection "events"
    "session_events e
			JOIN sessions s ON s.id = e.session_id"
    "e.session_id::text, s.tenant_id::text, e.seq, e.ts, e.actor_type, e.actor_id, e.actor_display, e.kind,
			octet_length(e.payload::text)::int,
			left(e.payload::text, 256)"
    []
    [MkField "session_id" "e.session_id" TypeUUID stdUUIDOps true false true;
     MkField "seq" "e.seq" TypeInt stdIntOps true false true;
     MkField "tenant_id" "s.tenant_id" TypeUUID stdUUIDOps true false false;
     MkField "ts" "e.ts" TypeTimestamp stdTSOps true false false;
     MkField "kind" "e.kind" TypeString stdStringOps true true false;
     MkField "actor_kind" "e.actor_type" TypeString stdStringOps true false false;
     MkField "actor_id" "e.actor_id" TypeString stdStringOps true true false]
    [MkSort "ts" true] "" true false.

Definition runsCollection : Collection :=
  MkCollection "runs"
    "agent_runs r
			LEFT JOIN LATERAL (SELECT count(*)::int AS c FROM agent_run_steps st WHERE st.agent_run_id = r.id) sc ON true"
    "r.id::text, r.session_id::text, r.tenant_id::text, r.state, r.loop_kind, r.loop_version,
			COALESCE(r.parent_run_id::text,''), COALESCE(r.spawn_key,''), COALESCE(r.cohort_id::text,''), COALESCE(r.cohort_ordinal,0),
			r.failure_reason, COALESCE(r.actor_kind,''), COALESCE(r.actor_id,''), COALESCE(r.actor_display,''),
			r.created_at, r.updated_at, r.cancel_requested_at, COALESCE(sc.c,0),
			octet_length(r.prompt)::int, octet_length(r.history::text)::int, (r.result IS NOT NULL)"
    []
    [MkField "id" "r.id" TypeUUID stdUUIDOps true false true;
     MkField "session_id" "r.session_id" TypeUUID stdUUIDOps true false false;
     MkField "tenant_id" "r.tenant_id" TypeUUID stdUUIDOps true false false;
     MkField "state" "r.state" TypeString stdStringOps true false false;
     MkField "loop_kind" "r.loop_kind" TypeString stdStringOps true true false;
     MkField "parent_run_id" "r.parent_run_id" TypeUUID stdUUIDOps true false false;
     MkField "cohort_id" "r.cohort_id" TypeUUID stdUUIDOps true false false;
     MkField "spawn_key" "r.spawn_key" TypeString stdStringOps true true false;
     MkField "created_at" "r.created_at" TypeTimestamp stdTSOps true false false;
     MkField "updated_at" "r.updated_at" TypeTimestamp stdTSOps true false false]
    [MkSort "created_at" true] "" true true.

Definition runStepsCollection : Collection :=
  MkCollection "run_steps"
    "agent_run_steps st
			JOIN agent_runs r ON r.id = st.agent_run_id"
    "st.agent_run_id::text, r.tenant_id::text, r.session_id::text, st.step_index, st.attempt,
			st.tokens_in, st.tokens_out, st.finish_reason, st.created_at"
    []
    [MkField "run_id" "st.agent_run_id" TypeUUID stdUUIDOps true false true;
     MkField "step_index" "st.step_index" TypeInt stdIntOps true false true;
     MkField "tenant_id" "r.tenant_id" TypeUUID stdUUIDOps true false false;
     MkField "session_id" "r.session_id" TypeUUID stdUUIDOps true false false;
     MkField "created_at" "st.created_at" TypeTimestamp stdTSOps true false false;
     MkField "finish_reason" "st.finish_reason" TypeString stdStringOps true false false]
    [MkSort "created_at" true] "" false false.

Definition resourcesCollection : Collection :=
  MkCollection "resources"
    "resources res"
    "res.id::text, res.tenant_id::text, res.session_id::text, res.provider_instance_id::text,
			res.kind, res.state, res.endpoint, res.epoch, res.failure_message, COALESCE(res.created_by_run_id::text,''),
			res.created_at, res.updated_at, res.ready_at, res.terminated_at,
			octet_length(res.spec::text)::int, octet_length(res.handle::text)::int,
			(res.token_enc IS NOT NULL AND length(res.token_enc) > 0)"
    []
    [MkField "id" "res.id" TypeUUID stdUUIDOps true false true;
     MkField "tenant_id" "res.tenant_id" TypeUUID stdUUIDOps true false false;
     MkField "session_id" "res.session_id" TypeUUID stdUUIDOps true false false;
     MkField "provider_instance_id" "res.provider_instance_id" TypeUUID stdUUIDOps true false false;
     MkField "kind" "res.kind" TypeString stdStringOps true true false;
     MkField "state" "res.state" TypeString stdStringOps true false false;
     MkField "created_at" "res.created_at" TypeTimestamp stdTSOps true false false;
     MkField "updated_at" "res.updated_at" TypeTimestamp stdTSOps true false false]
    [MkSort "created_at" true] "" true false.

Definition providersCollection : Collection :=
  MkCollection "providers"
    "provider_instances p
			LEFT JOIN LATERAL (SELECT count(*)::bigint AS c FROM resources res WHERE res.provider_instance_id = p.id) rc ON true"
    "p.id::text, p.tenant_id::text, p.kind, p.name, p.state, p.last_healthy_at, p.created_at,
			octet_length(p.config::text)::int, octet_length(p.capabilities::text)::int, COALESCE(rc.c,0)"
    []
    [MkField "id" "p.id" TypeUUID stdUUIDOps true false true;
     MkField "tenant_id" "p.tenant_id" TypeUUID stdUUIDOps true false false;
     MkField "kind" "p.kind" TypeString stdStringOps true true false;
     MkField "name" "p.name" TypeString stdStringOps true true false;
     MkField "state" "p.state" TypeString stdStringOps true false false;
     MkField "created_at" "p.created_at" TypeTimestamp stdTSOps true false false;
     MkField "last_healthy_at" "p.last_healthy_at" TypeTimestamp stdTSOps true false false]
    [MkSort "created_at" true] "" true false.

Definition credentialsCollection : Collection :=
  MkCollection "credentials"
    "credentials c"
    "c.tenant_id::text, c.kind, c.name, c.created_at, c.rotated_at,
			length(c.enc_payload)::int, true"
    []
    [MkField "tenant_id" "c.tenant_id" TypeUUID stdUUIDOps true false true;
     MkField "kind" "c.kind" TypeString stdStringOps true true true;
     MkField "name" "c.name" TypeString stdStringOps true true true;
     MkField "created_at" "c.created_at" TypeTimestamp stdTSOps true false false;
     MkField "rotated_at" "c.rotated_at" TypeTimestamp stdTSOps true false false]
    [MkSort "created_at" true] "" true false.

Definition periodicPromptsCollection : Collection :=
  MkCollection "periodic_prompts"
    "periodic_prompts pp"
    "pp.id::text, pp.tenant_id::text, pp.session_id::text, COALESCE(pp.run_id::text,''),
			pp.schedule, pp.enabled, pp.next_at, pp.created_at,
			octet_length(pp.prompt)::int, left(pp.prompt, 256)"
    []
    [MkField "id" "pp.id" TypeUUID stdUUIDOps true false true;
     MkField "tenant_id" "pp.tenant_id" TypeUUID stdUUIDOps true false false;
     MkField "session_id" "pp.session_id" TypeUUID stdUUIDOps true false false;
     MkField "run_id" "pp.run_id" TypeUUID stdUUIDOps true false false;
     MkField "schedule" "pp.schedule" TypeString stdStringOps true true false;
     MkField "enabled" "pp.enabled" TypeBool stdBoolOps true false false;
     MkField "next_at" "pp.next_at" TypeTimestamp stdTSOps true false false;
     MkField "created_at" "pp.created_at" TypeTimestamp stdTSOps true false false]
    [MkSort "next_at" false] "" true false.

Definition memoryCollection : Collection :=
  MkCollection "memory"
    "session_memory m
			JOIN sessions s ON s.id = m.session_id"
    "m.session_id::text, s.tenant_id::text, m.key, m.updated_by_type, m.updated_by_id, m.updated_at,
			octet_length(m.value::text)::int"
    []
    [MkField "session_id" "m.session_id" TypeUUID stdUUIDOps true false true;
     MkField "key" "m.key" TypeString stdStringOps true true true;
     MkField "tenant_id" "s.tenant_id" TypeUUID stdUUIDOps true false false;
     MkField "updated_at" "m.updated_at" TypeTimestamp stdTSOps true false false;
     MkField "updated_by_kind" "m.updated_by_type" TypeString stdStringOps true false false]
    [MkSort "updated_at" true] "" true false.

Definition waitsCollection : Collection :=
  MkCollection "waits"
    "run_waits w
			JOIN agent_runs r ON r.id = w.parent_run_id
			LEFT JOIN LATERAL (SELECT count(*)::int AS c FROM run_wait_members m WHERE m.wait_id = w.id) mc ON true"
    "w.id::text, w.parent_run_id::text, r.tenant_id::text, r.session_id::text, w.step_index, w.tool_call_id,
			w.kind, w.state, w.timeout_policy, w.deadline, w.created_at, w.resolved_at, w.resumed_at,
			COALESCE(mc.c,0), (w.result IS NOT NULL)"
    []
    [MkField "id" "w.id" TypeUUID stdUUIDOps true false true;
     MkField "parent_run_id" "w.parent_run_id" TypeUUID stdUUIDOps true false false;
     MkField "tenant_id" "r.tenant_id" TypeUUID stdUUIDOps true false false;
     MkField "session_id" "r.session_id" TypeUUID stdUUIDOps true false false;
     MkField "state" "w.state" TypeString stdStringOps true false false;
     MkField "kind" "w.kind" TypeString stdStringOps true false false;
     MkField "deadline" "w.deadline" TypeTimestamp stdTSOps true false false;
     MkField "created_at" "w.created_at" TypeTimestamp stdTSOps true false false]
    [MkSort "created_at" true] "" true false.

Definition jobsCollection : Collection :=
  MkCollection "jobs"
    "river_job j"
    "j.id, j.kind, j.state::text, j.attempt::int, j.max_attempts::int, j.queue, j.priority::text,
			j.created_at, j.scheduled_at, j.attempted_at, j.finalized_at,
			left(COALESCE(j.errors::text,''), 256), COALESCE(cardinality(j.errors),0),
			COALESCE(array_to_string(j.tags, ','), '')"
    []
    [MkField "id" "j.id" TypeInt stdIntOps true false true;
     MkField "kind" "j.kind" TypeString stdStringOps true true false;
     MkField "state" "j.state::text" TypeString stdStringOps true false false;
     MkField "queue" "j.queue" TypeString stdStringOps true false false;
     MkField "attempt" "j.attempt" TypeInt stdIntOps true false false;
     MkField "created_at" "j.created_at" TypeTimestamp stdTSOps true false false;
     MkField "scheduled_at" "j.scheduled_at" TypeTimestamp stdTSOps true false false;
     MkField "finalized_at" "j.finalized_at" TypeTimestamp stdTSOps true false false]
    [MkSort "created_at" true] "" true false.

Definition auditEventsCollection : Collection :=
  MkCollection "audit_events"
    "admin_audit_events a"
    "a.id::text, a.ts, a.operator_id, a.operator_role, a.request_id, a.command,
			a.targets, a.reason, a.preview_hash, a.before_summary, a.after_summary,
			a.result, a.error, a.source_ip, a.build_version, COALESCE(a.idempotency_key,'')"
    []
    [MkField "id" "a.id" TypeUUID stdUUIDOps true false true;
     MkField "ts" "a.ts" TypeTimestamp stdTSOps true false false;
     MkField "operator_id" "a.operator_id" TypeString stdStringOps true true false;
     MkField "operator_role" "a.operator_role" TypeString stdStringOps true false false;
     MkField "command" "a.command" TypeString stdStringOps true true false;
     MkField "result" "a.result" TypeString stdStringOps true false false;
     MkField "request_id" "a.request_id" TypeString stdStringOps true false false;
     MkField "idempotency_key" "a.idempotency_key" TypeString stdStringOps true false false;
     MkField "reason" "a.reason" TypeString stdStringOps false true false]
    [MkSort "ts" true] "" true false.

(** [NewRegistry]: the collections in registration order. *)
Definition NewRegistry_cols : list Collection :=
  [tenantsCollection; apiKeysCollection; sessionsCollection; eventsCollection; runsCollection; runStepsCollection; resourcesCollection; providersCollection; credentialsCollection; periodicPromptsCollection; memoryCollection; waitsCollection; jobsCollection; auditEventsCollection].

(** [Registry.Get]: the map is keyed by name; a later collection replaces an
    earlier one of the same name. *)
Definition RegistryGet (name : string) : option Collection :=
  last (bool_filter (λ c, bool_decide (cName c = name)) NewRegistry_cols).

(** [Registry.All] *)
Definition RegistryAll : list Collection := omap (λ c, RegistryGet (cName c)) NewRegistry_cols.
