(* ===== verification/QuerySpec.v ===== *)
(** * What a compiled admin search means

    The compiler writes SQL text.  This file gives the text a syntax tree
    ([atom], [clause]) with its rendering and its three-valued meaning on a row,
    shows that the compiler's output is the rendering of the tree for the
    request, and that the tree selects what the request asks for.

    [SqlOrder] is the order of the column values (the collation of the
    database), [fold] the case folding of [ILIKE]; both are parameters. *)
From S2P Require Import Prelude Policy Domain Text Strings AdminQuery.

Class SqlOrder := {
  sql_lt : sqlval → sqlval → bool;
  sql_lt_irrefl x : sql_lt x x = false;
  sql_lt_trans x y z : sql_lt x y = true → sql_lt y z = true → sql_lt x z = true;
  sql_lt_total x y : x ≠ y → sql_lt x y = true ∨ sql_lt y x = true;
}.

Class CaseFold := fold : Ascii.ascii → Ascii.ascii.

#[export] Instance sqlval_eq_dec : EqDecision sqlval.
Proof. solve_decision. Defined.

(** ** Pattern matching *)

Definition chars_of (s : string) : list Ascii.ascii := String.list_ascii_of_string s.

Section like.
Context `{CaseFold}.

Definition same_char (a b : Ascii.ascii) : bool := bool_decide (fold a = fold b).

(** [text ILIKE pattern ESCAPE '\']: a percent sign stands for any text, an
    underscore for one character, a backslash for the next character itself. *)
Fixpoint ilike (p : list Ascii.ascii) : list Ascii.ascii → bool :=
  match p with
  | [] => λ t, bool_decide (t = [])
  | c :: p' =>
      if Ascii.eqb c percent_sign then
        fix any (t : list Ascii.ascii) := ilike p' t || match t with [] => false | _ :: t' => any t' end
      else if Ascii.eqb c underscore then λ t, match t with [] => false | _ :: t' => ilike p' t' end
      else if Ascii.eqb c backslash then
        match p' with
        | [] => λ _, false
        | c' :: p'' => λ t, match t with [] => false | x :: t' => same_char x c' && ilike p'' t' end
        end
      else λ t, match t with [] => false | x :: t' => same_char x c && ilike p' t' end
  end.

Definition special (c : Ascii.ascii) : bool :=
  Ascii.eqb c percent_sign || Ascii.eqb c underscore || Ascii.eqb c backslash.
Definition escape_char (c : Ascii.ascii) : list Ascii.ascii := if special c then [backslash; c] else [c].

Lemma chars_of_app s t : chars_of (s +:+ t) = chars_of s ++ chars_of t.
Proof. induction s as [|c s IH]; [done|]. unfold chars_of in *. simpl. by f_equal. Qed.

Lemma replace_char_chars c new s :
  chars_of (replace_char c new s) = chars_of s ≫= λ a, if Ascii.eqb a c then chars_of new else [a].
Proof.
  induction s as [|a s IH]; [done|]. simpl. unfold chars_of in *. simpl.
  destruct (Ascii.eqb a c); simpl; [|by f_equal]. fold (chars_of (new +:+ replace_char c new s)).
  rewrite chars_of_app. unfold chars_of. by rewrite IH.
Qed.

Lemma bind_bind {A B C} (l : list A) (f : A → list B) (g : B → list C) :
  (l ≫= f) ≫= g = l ≫= λ x, f x ≫= g.
Proof. induction l as [|x l IH]; [done|]. by rewrite !bind_cons, bind_app, IH. Qed.

Lemma escapeLike_chars q : chars_of (escapeLike q) = chars_of q ≫= escape_char.
Proof.
  unfold escapeLike. rewrite !replace_char_chars, !bind_bind. apply list_bind_ext; [|done].
  intros c. unfold escape_char, special.
  destruct (Ascii.eqb_spec c backslash) as [->|Hb]; [reflexivity|]. rewrite bind_cons. simpl.
  destruct (Ascii.eqb_spec c percent_sign) as [->|Hp]; [reflexivity|]. simpl.
  destruct (Ascii.eqb_spec c underscore) as [->|Hu]; reflexivity.
Qed.

Lemma ilike_any p t :
  ilike (percent_sign :: p) t = true ↔ ∃ a b, t = a ++ b ∧ ilike p b = true.
Proof.
  induction t as [|x t IH].
  - simpl. rewrite orb_false_r. split; [intros Hl; by exists [], []|].
    intros (a & b & E & Hl). symmetry in E. by apply app_nil in E as [-> ->].
  - change (ilike (percent_sign :: p) (x :: t)) with (ilike p (x :: t) || ilike (percent_sign :: p) t).
    rewrite orb_true_iff, IH. split.
    + intros [Hl|(a & b & -> & Hl)]; [by exists [], (x :: t)|by exists (x :: a), b].
    + intros ([|y a] & b & E & Hl); simpl in E; [left; by subst|right]. simplify_eq. by exists a, b.
Qed.

Lemma ilike_escaped q p t :
  ilike ((q ≫= escape_char) ++ p) t = true ↔ ∃ a b, t = a ++ b ∧ (fold <$> a) = (fold <$> q) ∧ ilike p b = true.
Proof.
  revert t. induction q as [|c q IH]; intros t.
  { simpl. split; [intros Hl; by exists [], t|]. intros (a & b & -> & E & Hl). by destruct a. }
  assert (ilike (((c :: q) ≫= escape_char) ++ p) t =
    match t with [] => false | x :: t' => same_char x c && ilike ((q ≫= escape_char) ++ p) t' end) as ->.
  { simpl. unfold escape_char at 1, special. destruct (Ascii.eqb c percent_sign) eqn:E1; [done|].
    destruct (Ascii.eqb c underscore) eqn:E2; [done|]. destruct (Ascii.eqb c backslash) eqn:E3; [done|].
    simpl. by rewrite E1, E2, E3. }
  destruct t as [|x t].
  - split; [done|]. intros (a & b & E & Ef & _). symmetry in E. apply app_nil in E as [-> ->]. done.
  - rewrite andb_true_iff, IH. unfold same_char. rewrite bool_decide_eq_true. split.
    + intros [Hx (a & b & -> & Hf & Hl)]. exists (x :: a), b. split_and!; [done| |done]. rewrite !fmap_cons. congruence.
    + intros ([|y a] & b & E & Hf & Hl); [done|]. simplify_eq/=. split; [done|]. by exists a, b.
Qed.

Lemma ilike_nil t : ilike [percent_sign] t = true.
Proof. apply ilike_any. exists t, []. by rewrite app_nil_r. Qed.

Lemma ilike_contains q t :
  ilike (chars_of ("%" +:+ escapeLike q +:+ "%")) (chars_of t) = true ↔
  occurs (fold <$> chars_of q) (fold <$> chars_of t).
Proof.
  change ("%" +:+ escapeLike q +:+ "%") with (String percent_sign (escapeLike q +:+ "%")).
  change (chars_of (String ?c ?s)) with (c :: chars_of s).
  rewrite chars_of_app, escapeLike_chars, ilike_any. split.
  - intros (a & b & -> & (x & y & -> & E & _)%ilike_escaped). exists (fold <$> a), (fold <$> y).
    by rewrite !fmap_app, E.
  - intros (a & b & E). apply fmap_app_inv in E as (l1 & l2 & -> & E2 & ->).
    symmetry in E2. apply fmap_app_inv in E2 as (l3 & l4 & E3 & -> & ->).
    exists l1, (l3 ++ l4). split; [done|]. apply ilike_escaped. exists l3, l4.
    split_and!; [done|done|apply ilike_nil].
Qed.

Lemma ilike_prefix q t :
  ilike (chars_of (escapeLike q +:+ "%")) (chars_of t) = true ↔
  (fold <$> chars_of q) `prefix_of` (fold <$> chars_of t).
Proof.
  rewrite chars_of_app, escapeLike_chars. split.
  - intros (x & y & -> & E & _)%ilike_escaped. exists (fold <$> y). by rewrite fmap_app, E.
  - intros [r E]. apply fmap_app_inv in E as (l1 & l2 & E1 & -> & ->).
    apply ilike_escaped. exists l1, l2. split_and!; [done|done|apply ilike_nil].
Qed.

End like.

(** ** Conditions *)

Inductive atom :=
  | ANull (c : string)
  | ANotNull (c : string)
  | AIn (neg : bool) (c : string) (vs : list sqlval)
  | AILike (c : string) (pattern : string)
  | ATextILike (c : string) (pattern : string)
  | ACmp (op : Op) (c : string) (v : sqlval)
  | ASame (c : string) (v : sqlval)
  | ABeyond (desc : bool) (c : string) (v : sqlval)
  | ARaw (expr : string) (v : sqlval).

Inductive clause :=
  | One (a : atom)
  | AnyOf (l : list atom)
  | AnyAll (l : list (list atom)).

(** The text of an atom whose first placeholder is [n], and its arguments. *)
Definition atom_args (a : atom) : list sqlval :=
  match a with
  | ANull _ | ANotNull _ => []
  | AIn _ _ vs => vs
  | AILike _ p | ATextILike _ p => [VStr p]
  | ACmp _ _ v | ASame _ v | ABeyond _ _ v | ARaw _ v => [v]
  end.

Definition atom_text (n : Z) (a : atom) : string :=
  match a with
  | ANull c => c +:+ " IS NULL"
  | ANotNull c => c +:+ " IS NOT NULL"
  | AIn neg c vs =>
      c +:+ " " +:+ (if neg then "NOT IN" else "IN") +:+ " (" +:+ Join ", " (placeholders n (length vs)) +:+ ")"
  | AILike c _ => c +:+ " ILIKE " +:+ dollar n +:+ " ESCAPE '\'"
  | ATextILike c _ => "(" +:+ c +:+ ")::text ILIKE " +:+ dollar n +:+ " ESCAPE '\'"
  | ACmp op c _ => c +:+ " " +:+ default "" (sql_op op) +:+ " " +:+ dollar n
  | ASame c _ => c +:+ " IS NOT DISTINCT FROM " +:+ dollar n
  | ABeyond desc c _ =>
      "(" +:+ c +:+ " IS NOT NULL AND " +:+ c +:+ " " +:+ (if desc then "<" else ">") +:+ " " +:+ dollar n +:+ ")"
  | ARaw expr _ => replace_char question_mark (dollar n) expr
  end.

Definition args_of (l : list atom) : list sqlval := l ≫= atom_args.

Fixpoint texts_of (n : Z) (l : list atom) : list string :=
  match l with
  | [] => []
  | a :: rest => atom_text n a :: texts_of (n + Z.of_nat (length (atom_args a))) rest
  end.

Definition clause_args (c : clause) : list sqlval :=
  match c with One a => atom_args a | AnyOf l => args_of l | AnyAll l => l ≫= args_of end.

Fixpoint all_texts (n : Z) (l : list (list atom)) : list string :=
  match l with
  | [] => []
  | x :: rest => ("(" +:+ Join " AND " (texts_of n x) +:+ ")") :: all_texts (n + Z.of_nat (length (args_of x))) rest
  end.

Definition clause_text (n : Z) (c : clause) : string :=
  match c with
  | One a => atom_text n a
  | AnyOf l => "(" +:+ Join " OR " (texts_of n l) +:+ ")"
  | AnyAll l => "(" +:+ Join " OR " (all_texts n l) +:+ ")"
  end.

(** The conditions of a [WHERE], numbered on. *)
Fixpoint where_texts (n : Z) (l : list clause) : list string :=
  match l with
  | [] => []
  | c :: rest => clause_text n c :: where_texts (n + Z.of_nat (length (clause_args c))) rest
  end.
Definition where_args (l : list clause) : list sqlval := l ≫= clause_args.

Lemma where_texts_app n l k :
  where_texts n (l ++ k) = where_texts n l ++ where_texts (n + Z.of_nat (length (where_args l))) k.
Proof.
  revert n. induction l as [|c l IH]; intros n; simpl; [by rewrite Z.add_0_r|].
  rewrite IH, length_app. do 3 f_equal. unfold where_args. lia.
Qed.

(** ** Meaning *)

Definition row : Type := string → option sqlval.

Section meaning.
Context `{SqlOrder} `{CaseFold}.

(** The bound expression of [SearchExpr] is opaque. *)
Context (raw : string → sqlval → row → option bool).

Definition sql_cmp (op : Op) (x v : sqlval) : bool :=
  match op with
  | OpEq => bool_decide (x = v)
  | OpNe => negb (bool_decide (x = v))
  | OpLt => sql_lt x v
  | OpLte => negb (sql_lt v x)
  | OpGt => sql_lt v x
  | OpGte => negb (sql_lt x v)
  | _ => false
  end.

Definition text_of (x : sqlval) : string := match x with VStr s => s | VInt z => pretty z | _ => "" end.

(** Three-valued logic: [None] is unknown. *)
Definition and3 (a b : option bool) : option bool :=
  match a, b with
  | Some false, _ | _, Some false => Some false
  | Some true, Some true => Some true
  | _, _ => None
  end.
Definition or3 (a b : option bool) : option bool :=
  match a, b with
  | Some true, _ | _, Some true => Some true
  | Some false, Some false => Some false
  | _, _ => None
  end.

Definition eval_atom (r : row) (a : atom) : option bool :=
  match a with
  | ANull c => Some (bool_decide (r c = None))
  | ANotNull c => Some (negb (bool_decide (r c = None)))
  | AIn neg c vs => x ← r c; let found := existsb (λ v, bool_decide (x = v)) vs in Some (if neg then negb found else found)
  | AILike c p | ATextILike c p => x ← r c; Some (ilike (chars_of p) (chars_of (text_of x)))
  | ACmp op c v => x ← r c; Some (sql_cmp op x v)
  | ASame c v => Some (bool_decide (r c = Some v))
  | ABeyond desc c v =>
      and3 (Some (negb (bool_decide (r c = None)))) (x ← r c; Some (if desc then sql_lt x v else sql_lt v x))
  | ARaw expr v => raw expr v r
  end.

Definition eval_all (r : row) (l : list atom) : option bool := foldr (λ a acc, and3 (eval_atom r a) acc) (Some true) l.

Definition eval_clause (r : row) (c : clause) : option bool :=
  match c with
  | One a => eval_atom r a
  | AnyOf l => foldr (λ a acc, or3 (eval_atom r a) acc) (Some false) l
  | AnyAll l => foldr (λ x acc, or3 (eval_all r x) acc) (Some false) l
  end.

(** A row is selected when every condition is true. *)
Definition selected (w : list clause) (r : row) : bool :=
  forallb (λ c, bool_decide (eval_clause r c = Some true)) w.

Lemma and3_true a b : and3 a b = Some true ↔ a = Some true ∧ b = Some true.
Proof. destruct a as [[]|], b as [[]|]; naive_solver. Qed.
Lemma or3_true a b : or3 a b = Some true ↔ a = Some true ∨ b = Some true.
Proof. destruct a as [[]|], b as [[]|]; naive_solver. Qed.

Lemma eval_all_true r l : eval_all r l = Some true ↔ Forall (λ a, eval_atom r a = Some true) l.
Proof.
  induction l as [|a l IH]; simpl; [split; [constructor|done]|].
  by rewrite and3_true, IH, Forall_cons.
Qed.
Lemma eval_any_true r l : eval_clause r (AnyOf l) = Some true ↔ Exists (λ a, eval_atom r a = Some true) l.
Proof.
  simpl. induction l as [|a l IH]; simpl; [by rewrite Exists_nil|]. by rewrite or3_true, IH, Exists_cons.
Qed.
Lemma eval_any_all_true r l :
  eval_clause r (AnyAll l) = Some true ↔ Exists (Forall (λ a, eval_atom r a = Some true)) l.
Proof.
  simpl. induction l as [|a l IH]; simpl; [by rewrite Exists_nil|].
  by rewrite or3_true, eval_all_true, IH, Exists_cons.
Qed.

(** ** Filters *)

Context `{GoTime}.

(** What a filter asks of a column value. *)
Definition filter_holds (f : Field) (fl : Filter) (x : option sqlval) : Prop :=
  match flOp fl with
  | OpIsNull => x = None
  | OpIsNotNull => x ≠ None
  | OpIn => ∃ y v, x = Some y ∧ v ∈ flValues fl ∧ coerce (fType f) v = Some y
  | OpNotIn => ∃ y, x = Some y ∧ ∀ v, v ∈ flValues fl → coerce (fType f) v ≠ Some y
  | OpContains => ∃ y, x = Some y ∧ occurs (fold <$> chars_of (flValue fl)) (fold <$> chars_of (text_of y))
  | OpPrefix => ∃ y, x = Some y ∧ (fold <$> chars_of (flValue fl)) `prefix_of` (fold <$> chars_of (text_of y))
  | OpEq => x = coerce (fType f) (flValue fl) ∧ x ≠ None
  | OpNe => ∃ y, x = Some y ∧ coerce (fType f) (flValue fl) ≠ Some y
  | OpLt => ∃ y v, x = Some y ∧ coerce (fType f) (flValue fl) = Some v ∧ sql_lt y v = true
  | OpLte => ∃ y v, x = Some y ∧ coerce (fType f) (flValue fl) = Some v ∧ (y = v ∨ sql_lt y v = true)
  | OpGt => ∃ y v, x = Some y ∧ coerce (fType f) (flValue fl) = Some v ∧ sql_lt v y = true
  | OpGte => ∃ y v, x = Some y ∧ coerce (fType f) (flValue fl) = Some v ∧ (y = v ∨ sql_lt v y = true)
  | OpUnknown _ => False
  end.

Definition filter_atom (f : Field) (fl : Filter) : option atom :=
  let col := fColumn f in
  match flOp fl with
  | OpIsNull => Some (ANull col)
  | OpIsNotNull => Some (ANotNull col)
  | OpIn => AIn false col <$> mapM (coerce (fType f)) (flValues fl)
  | OpNotIn => AIn true col <$> mapM (coerce (fType f)) (flValues fl)
  | OpContains => Some (AILike col ("%" +:+ escapeLike (flValue fl) +:+ "%"))
  | OpPrefix => Some (AILike col (escapeLike (flValue fl) +:+ "%"))
  | OpUnknown _ => None
  | op => ACmp op col <$> coerce (fType f) (flValue fl)
  end.

Lemma mapQ_mapM (f : string → option sqlval) e l xs :
  mapQ (λ v, match f v with Some x => QOk x | None => QErr e end) l = QOk xs → mapM f l = Some xs.
Proof.
  revert xs. induction l as [|v l IH]; intros xs; simpl; [by intros [= <-]|].
  destruct (f v); simpl; [|done]. destruct (mapQ _ l) as [ys|]; simpl; [|done]. intros [= <-].
  by rewrite (IH ys).
Qed.

Lemma compileFilter_atom f fl n t args : compileFilter f fl n = QOk (t, args) →
  ∃ a, filter_atom f fl = Some a ∧ t = atom_text n a ∧ args = atom_args a.
Proof.
  unfold compileFilter, filter_atom, coerceQ. destruct (flOp fl) eqn:Hop; simpl;
    try (intros [= <- <-]; eexists; split_and!; [done|done|done]);
    try (destruct (coerce (fType f) (flValue fl)) as [v|]; simpl; [|done]; intros [= <- <-];
         eexists; split_and!; [done|done|done]).
  - destruct (mapQ _ _) as [xs|] eqn:Hm; simpl; [|done]. apply mapQ_mapM in Hm. intros [= <- <-].
    exists (AIn false (fColumn f) xs). rewrite Hm. split_and!; [done| |done]. simpl.
    by rewrite (Forall2_length _ _ _ (mapM_Some_1 _ _ _ Hm)).
  - destruct (mapQ _ _) as [xs|] eqn:Hm; simpl; [|done]. apply mapQ_mapM in Hm. intros [= <- <-].
    exists (AIn true (fColumn f) xs). rewrite Hm. split_and!; [done| |done]. simpl.
    by rewrite (Forall2_length _ _ _ (mapM_Some_1 _ _ _ Hm)).
  - done.
Qed.

Lemma in_values_spec (x : sqlval) ty vs xs : mapM (coerce ty) vs = Some xs →
  existsb (λ v, bool_decide (x = v)) xs = true ↔ ∃ v, v ∈ vs ∧ coerce ty v = Some x.
Proof.
  intros Hm%mapM_Some_1. rewrite existsb_exists. split.
  - intros (y & Hy%list_elem_of_In & ->%bool_decide_eq_true).
    apply list_elem_of_lookup in Hy as [i Hi]. destruct (Forall2_lookup_r _ _ _ _ _ Hm Hi) as (v & Hv & E).
    exists v. split; [by eapply list_elem_of_lookup_2|done].
  - intros (v & Hv & E). apply list_elem_of_lookup in Hv as [i Hi].
    destruct (Forall2_lookup_l _ _ _ _ _ Hm Hi) as (y & Hy & E'). simplify_eq.
    exists x. split; [|by apply bool_decide_eq_true]. apply list_elem_of_In. by eapply list_elem_of_lookup_2.
Qed.

Lemma sql_le_spec x y : negb (sql_lt y x) = true ↔ x = y ∨ sql_lt x y = true.
Proof.
  rewrite negb_true_iff. split.
  - intros Hn. destruct (decide (x = y)) as [->|Hne]; [by left|right].
    destruct (sql_lt_total x y Hne) as [?|?]; [done|congruence].
  - intros [->|Hlt]; [apply sql_lt_irrefl|]. destruct (sql_lt y x) eqn:E; [|done].
    pose proof (sql_lt_trans _ _ _ Hlt E) as Hxx. by rewrite sql_lt_irrefl in Hxx.
Qed.

Lemma filter_atom_holds f fl a r : filter_atom f fl = Some a →
  eval_atom r a = Some true ↔ filter_holds f fl (r (fColumn f)).
Proof.
  unfold filter_atom, filter_holds. destruct (flOp fl);
    try (destruct (coerce (fType f) (flValue fl)) as [v|] eqn:Hv; simpl; [|done]; intros [= <-]; simpl;
         destruct (r (fColumn f)) as [x|]; simpl; [|naive_solver]).
  - rewrite (inj_iff Some), bool_decide_eq_true. naive_solver.
  - rewrite (inj_iff Some), negb_true_iff, bool_decide_eq_false. naive_solver.
  - rewrite (inj_iff Some). split; [eauto|by intros (? & ? & [= <-] & [= <-] & ?)].
  - rewrite (inj_iff Some), sql_le_spec. split; [eauto|by intros (? & ? & [= <-] & [= <-] & ?)].
  - rewrite (inj_iff Some). split; [eauto|by intros (? & ? & [= <-] & [= <-] & ?)].
  - rewrite (inj_iff Some), sql_le_spec. split; [naive_solver|]. intros (? & ? & [= <-] & [= <-] & [->|?]); auto.
  - destruct (mapM _ _) as [xs|] eqn:Hm; simpl; [|done]. intros [= <-]. simpl.
    destruct (r (fColumn f)) as [x|]; simpl; [|naive_solver].
    pose proof (in_values_spec x _ _ _ Hm) as Hi. rewrite (inj_iff Some), Hi. naive_solver.
  - destruct (mapM _ _) as [xs|] eqn:Hm; simpl; [|done]. intros [= <-]. simpl.
    destruct (r (fColumn f)) as [x|]; simpl; [|naive_solver].
    pose proof (in_values_spec x _ _ _ Hm) as Hi. rewrite (inj_iff Some), negb_true_iff.
    split.
    + intros Hf. exists x. split; [done|]. intros v Hv E. rewrite (proj2 Hi) in Hf by eauto. done.
    + intros (y & [= <-] & Hn). apply not_true_iff_false. rewrite Hi. intros (v & ? & ?). by eapply Hn.
  - intros E%(inj Some). subst a. cbn [eval_atom]. destruct (r (fColumn f)) as [x|]; cbn [mbind option_bind]; [|naive_solver].
    rewrite (inj_iff Some), ilike_contains. naive_solver.
  - intros E%(inj Some). subst a. cbn [eval_atom]. destruct (r (fColumn f)) as [x|]; cbn [mbind option_bind]; [|naive_solver].
    rewrite (inj_iff Some), ilike_prefix. naive_solver.
  - intros [= <-]. simpl. rewrite (inj_iff Some), bool_decide_eq_true. done.
  - intros [= <-]. simpl. rewrite (inj_iff Some), negb_true_iff, bool_decide_eq_false. done.
  - done.
Qed.


(** ** The keyset predicate *)

(** A cursor's values, read at the types of the sort fields. *)
Definition keyset_values (fields : list Field) (sorts : list Sort) (values : list string) : option (list sqlval) :=
  mapM (λ '(s, v), coerce (fType (field_or_zero fields (sField s))) v) (zip sorts values).

Fixpoint keyset_atoms (sorts : list Sort) (cols : list string) (vs : list sqlval) (i : nat) : list atom :=
  match sorts, cols, vs with
  | s :: sorts', c :: cols', v :: vs' =>
      match i with
      | O => [ABeyond (sDescending s) c v]
      | S i' => ASame c v :: keyset_atoms sorts' cols' vs' i'
      end
  | _, _, _ => []
  end.

Definition keyset_clause (sorts : list Sort) (cols : list string) (vs : list sqlval) : clause :=
  AnyAll (keyset_atoms sorts cols vs <$> seq 0 (length sorts)).

Lemma keyset_part_ok fields sorts cols values vs i n : length cols = length sorts → length values = length sorts →
  keyset_values fields sorts values = Some vs →
  keyset_part sorts cols values fields i n =
  QOk (texts_of n (keyset_atoms sorts cols vs i), args_of (keyset_atoms sorts cols vs i)).
Proof.
  revert cols values vs i n. induction sorts as [|s sorts IH]; intros [|c cols] [|v values] vs i n Hc Hv;
    try done.
  unfold keyset_values. simpl. unfold coerceQ. destruct (coerce _ v) as [x|]; simpl; [|done].
  destruct (mapM _ (zip sorts values)) as [xs|] eqn:Hm; simpl; [|done]. intros [= <-].
  destruct i as [|i]; [done|]. rewrite (IH cols values xs) by (try done; simpl in *; lia). done.
Qed.

Lemma keyset_part_err fields sorts cols values i n e :
  keyset_part sorts cols values fields i n = QErr e → e = ErrBadCursor.
Proof.
  revert cols values i n. induction sorts as [|s sorts IH]; intros [|c cols] [|v values] i n; try done; simpl.
  unfold coerceQ. destruct (coerce _ v); simpl; [|by intros [= <-]]. destruct i; [done|].
  destruct (keyset_part sorts cols values fields i (n + 1)) as [[]|] eqn:E; simpl; [done|].
  intros [= ->]. by apply IH in E.
Qed.

Lemma keyset_part_bad fields sorts cols values n : length cols = length sorts → length values = length sorts →
  keyset_values fields sorts values = None →
  keyset_part sorts cols values fields (length sorts - 1) n = QErr ErrBadCursor.
Proof.
  revert cols values n. induction sorts as [|s sorts IH]; intros [|c cols] [|v values] n Hc Hv; try done.
  unfold keyset_values. simpl. unfold coerceQ. destruct (coerce _ v) as [x|]; simpl; [|done].
  destruct (mapM _ (zip sorts values)) as [xs|] eqn:Hm; simpl; [done|]. intros _.
  destruct sorts as [|s' sorts]; [done|]. simpl. 
  pose proof (IH cols values (n + 1)%Z) as E. simpl in E. rewrite Nat.sub_0_r in E.
  rewrite E by (try done; simpl in *; lia). done.
Qed.

Lemma keyset_parts_ok fields sorts cols values vs idxs n :
  length cols = length sorts → length values = length sorts → keyset_values fields sorts values = Some vs →
  keyset_parts sorts cols values fields idxs n =
  QOk (all_texts n (keyset_atoms sorts cols vs <$> idxs), (keyset_atoms sorts cols vs <$> idxs) ≫= args_of).
Proof.
  intros Hc Hv Hk. revert n. induction idxs as [|i idxs IH]; intros n; [done|]. simpl.
  rewrite (keyset_part_ok _ _ _ _ vs) by done. simpl. by rewrite IH.
Qed.

Lemma keyset_parts_bad fields sorts cols values idxs n i : i ∈ idxs →
  (∀ m, keyset_part sorts cols values fields i m = QErr ErrBadCursor) →
  keyset_parts sorts cols values fields idxs n = QErr ErrBadCursor.
Proof.
  intros Hi Hb. revert n Hi. induction idxs as [|j idxs IH]; intros n Hi; [by apply elem_of_nil in Hi|].
  simpl. apply elem_of_cons in Hi as [<-|Hi]; [by rewrite Hb|].
  destruct (keyset_part sorts cols values fields j n) as [[]|e] eqn:E; simpl.
  - by rewrite IH.
  - by rewrite (keyset_part_err _ _ _ _ _ _ _ E).
Qed.

(** The predicate's text is the rendering of [keyset_clause]; a value that does
    not read at its type makes the cursor a bad one. *)
Lemma keysetPredicate_eq fields sorts cols values n : length cols = length sorts → length values = length sorts →
  keysetPredicate sorts cols values fields n =
  match keyset_values fields sorts values with
  | Some vs => QOk (clause_text n (keyset_clause sorts cols vs), clause_args (keyset_clause sorts cols vs))
  | None => QErr ErrBadCursor
  end.
Proof.
  intros Hc Hv. unfold keysetPredicate. destruct (keyset_values _ _ _) as [vs|] eqn:Hk.
  - by rewrite (keyset_parts_ok _ _ _ _ vs).
  - rewrite (keyset_parts_bad _ _ _ _ _ _ (length sorts - 1)); [done| |].
    + apply elem_of_seq. destruct sorts as [|s sorts]; [|simpl; lia]. by destruct values.
    + intros m. by apply keyset_part_bad.
Qed.

(** ** The order of the result *)

Definition before1 (desc : bool) (x y : sqlval) : bool := if desc then sql_lt y x else sql_lt x y.

(** Lexicographic order of sort keys. *)
Fixpoint key_lt (descs : list bool) (xs ys : list sqlval) : bool :=
  match descs, xs, ys with
  | d :: descs', x :: xs', y :: ys' => before1 d x y || bool_decide (x = y) && key_lt descs' xs' ys'
  | _, _, _ => false
  end.

Definition key_of (cols : list string) (r : row) : option (list sqlval) := mapM r cols.

Lemma before1_irrefl d x : before1 d x x = false.
Proof. destruct d; apply sql_lt_irrefl. Qed.
Lemma before1_trans d x y z : before1 d x y = true → before1 d y z = true → before1 d x z = true.
Proof. destruct d; simpl; eauto using sql_lt_trans. Qed.
Lemma before1_total d x y : x ≠ y → before1 d x y = true ∨ before1 d y x = true.
Proof. intros Hne. destruct d; simpl; destruct (sql_lt_total x y Hne); auto. Qed.

Lemma key_lt_irrefl ds xs : key_lt ds xs xs = false.
Proof.
  revert xs. induction ds as [|d ds IH]; intros [|x xs]; try done. simpl. by rewrite before1_irrefl, IH, andb_false_r.
Qed.
Lemma key_lt_trans ds xs ys zs : key_lt ds xs ys = true → key_lt ds ys zs = true → key_lt ds xs zs = true.
Proof.
  revert xs ys zs. induction ds as [|d ds IH]; intros [|x xs] [|y ys] [|z zs]; try done; simpl.
  rewrite !orb_true_iff, !andb_true_iff, !bool_decide_eq_true.
  intros [Hxy|[-> Hxy]] [Hyz|[-> Hyz]]; eauto using before1_trans.
Qed.
Lemma key_lt_total ds xs ys : length xs = length ds → length ys = length ds → xs ≠ ys →
  key_lt ds xs ys = true ∨ key_lt ds ys xs = true.
Proof.
  revert xs ys. induction ds as [|d ds IH]; intros [|x xs] [|y ys] Hx Hy Hne; try done; simpl in *.
  rewrite !orb_true_iff, !andb_true_iff, !bool_decide_eq_true. destruct (decide (x = y)) as [->|Hxy].
  - destruct (IH xs ys) as [?|?]; [lia|lia|congruence|auto|auto].
  - destruct (before1_total d _ _ Hxy); auto.
Qed.

Lemma keyset_atom_O r d c v x : r c = Some x → eval_atom r (ABeyond d c v) = Some true ↔ before1 d v x = true.
Proof.
  intros Hx. cbn [eval_atom]. rewrite Hx, and3_true. rewrite bool_decide_eq_false_2 by done.
  cbn [mbind option_bind negb]. rewrite !(inj_iff Some). unfold before1. destruct d; tauto.
Qed.

(** A row satisfies the keyset predicate exactly when its key lies beyond the
    cursor's. *)
Lemma keyset_clause_holds r sorts cols vs xs : length vs = length sorts → length cols = length sorts →
  key_of cols r = Some xs →
  eval_clause r (keyset_clause sorts cols vs) = Some true ↔ key_lt (sDescending <$> sorts) vs xs = true.
Proof.
  unfold keyset_clause. rewrite eval_any_all_true. unfold key_of.
  revert cols vs xs. induction sorts as [|s sorts IH]; intros [|c cols] [|v vs] xs Hv Hc; try done.
  { simpl. rewrite Exists_nil. by intros [= <-]. }
  simpl. destruct (r c) as [x|] eqn:Hx; simpl; [|done].
  destruct (mapM r cols) as [xs'|] eqn:Hm; simpl; [|done]. intros [= <-].
  rewrite Exists_cons, orb_true_iff, andb_true_iff, bool_decide_eq_true, Forall_singleton.
  rewrite (keyset_atom_O _ _ _ _ _ Hx). apply or_iff_compat_l. rewrite <-fmap_S_seq, <-list_fmap_compose.
  rewrite <-(IH cols vs xs') by (try done; simpl in *; lia). rewrite !Exists_fmap. rewrite !Exists_exists. 
  setoid_rewrite Forall_cons. cbn [eval_atom]. setoid_rewrite (inj_iff Some). setoid_rewrite bool_decide_eq_true.
  rewrite Hx. split.
  - intros (i & Hi & E & Hf). split; [congruence|]. by exists i.
  - intros (-> & i & Hi & Hf). exists i. by split_and!.
Qed.

End meaning.
