(* ===== verification/Plans.v ===== *)
(** * Compiled searches: rendering, meaning and injection freedom

    [Compile] of [admin/query/compile.go] against the syntax trees of
    [QuerySpec]: the statement it writes is the rendering of a plan, the plan
    selects the rows the request asks for, its text depends on the shape of the
    request only, and the requests it refuses are the malformed ones. *)
From S2P Require Import Prelude Policy Domain Text Strings AdminQuery QuerySpec.

(** The conditions of a text search. *)
Definition search_clauses (col : Collection) (query : string) : list clause :=
  let q := TrimSpace query in
  if bool_decide (q = "") then []
  else if bool_decide (cSearchExpr col = "") then
    [AnyOf ((λ f, ATextILike (fColumn f) ("%" +:+ escapeLike q +:+ "%")) <$> bool_filter searchable (cFields col))]
  else [One (ARaw (cSearchExpr col) (VStr q))].

Lemma imap_texts fs n p :
  imap (λ i f, "(" +:+ fColumn f +:+ ")::text ILIKE " +:+ dollar (n + Z.of_nat i) +:+ " ESCAPE '\'") fs =
  texts_of n ((λ f, ATextILike (fColumn f) p) <$> fs).
Proof.
  revert n. induction fs as [|f fs IH]; intros n; [done|]. rewrite imap_cons, fmap_cons. cbn [texts_of atom_text].
  f_equal; [by rewrite Z.add_0_r|]. rewrite <-IH. apply imap_ext. intros i x _. cbn [compose atom_args length].
  by replace (n + Z.of_nat (S i))%Z with (n + Z.of_nat 1 + Z.of_nat i)%Z by lia.
Qed.

Lemma searchClause_eq col query n w a : searchClause col query n = QOk (w, a) →
  w = where_texts n (search_clauses col query) ∧ a = where_args (search_clauses col query).
Proof.
  unfold searchClause, search_clauses. case_bool_decide; [by intros [= <- <-]|].
  case_bool_decide.
  - case_bool_decide; [done|]. intros [= <- <-]. rewrite (imap_texts _ _ ("%" +:+ escapeLike (TrimSpace query) +:+ "%")).
    split; [done|]. unfold where_args. rewrite bind_singleton. unfold clause_args, args_of.
    generalize (bool_filter searchable (cFields col)). intros fs. induction fs as [|f fs IH]; [done|].
    rewrite !fmap_cons, bind_cons, <-IH. done.
  - intros [= <- <-]. done.
Qed.

Section plans.
Context `{GoTime}.

Definition filter_clauses (fields : list Field) (filters : list Filter) : option (list clause) :=
  mapM (λ fl, One <$> filter_atom (field_or_zero fields (flField fl)) fl) filters.

Lemma filterClauses_eq fields filters n w a : filterClauses fields filters n = QOk (w, a) →
  ∃ cs, filter_clauses fields filters = Some cs ∧ w = where_texts n cs ∧ a = where_args cs.
Proof.
  unfold filter_clauses. revert n w a. induction filters as [|fl filters IH]; intros n w a; simpl.
  { intros [= <- <-]. by exists []. }
  destruct (compileFilter _ _ _) as [[t args]|] eqn:Hf; simpl; [|done].
  destruct (filterClauses _ _ _) as [[w' a']|] eqn:Hr; simpl; [|done]. intros [= <- <-].
  apply compileFilter_atom in Hf as (x & Hx & -> & ->). apply IH in Hr as (cs & Hcs & -> & ->).
  rewrite Hx. simpl. rewrite Hcs. simpl. by exists (One x :: cs).
Qed.

Definition keyset_clauses (fields : list Field) (sorts : list Sort) (cols : list string)
    (cursor : option CursorPayload) : option (list clause) :=
  match cursor with
  | None => Some []
  | Some p => vs ← keyset_values fields sorts (cpSortValues p); Some [keyset_clause sorts cols vs]
  end.

Lemma keysetClause_eq fields sorts cols cursor n w a :
  length cols = length sorts → from_option (λ p, length (cpSortValues p) = length sorts) True cursor →
  keysetClause sorts cols fields cursor n = QOk (w, a) →
  ∃ cs, keyset_clauses fields sorts cols cursor = Some cs ∧ w = where_texts n cs ∧ a = where_args cs.
Proof.
  intros Hc. destruct cursor as [p|]; simpl; [|intros _ [= <- <-]; by exists []]. intros Hv.
  rewrite keysetPredicate_eq by done. destruct (keyset_values _ _ _) as [vs|]; simpl; [|done].
  intros [= <- <-]. eexists. split_and!; [done|done|]. unfold where_args. by rewrite bind_singleton.
Qed.

(** The conditions of a request that goes on from [cursor]. *)
Definition where_of (col : Collection) (req : Request) (cursor : option CursorPayload) : option (list clause) :=
  let sorts := effectiveSorts col req in
  fs ← filter_clauses (cFields col) (rqFilters req);
  ks ← keyset_clauses (cFields col) sorts (sortColumns col sorts) cursor;
  Some (search_clauses col (rqQuery req) ++ fs ++ ks).

Definition render (col : Collection) (w : list clause) (sorts : list Sort) : string :=
  let n := Z.of_nat (length (cSelectArgs col)) in
  statement col (where_texts (n + 1) w) sorts (sortColumns col sorts) (n + Z.of_nat (length (where_args w)) + 1).

Context `{Mac} `{CursorCodec} `{Digest}.

Lemma cursorFor_len signer now col fp n token cur : cursorFor signer now col fp n token = QOk cur →
  from_option (λ p, length (cpSortValues p) = n) True cur.
Proof.
  unfold cursorFor. case_bool_decide; [by intros [= <-]|]. destruct signer as [s|]; [|done].
  destruct (Verify s now token) as [p|]; simpl; [|done]. destruct (_ || _); [done|].
  case_bool_decide; simpl; [|done]. by intros [= <-].
Qed.

Lemma where_args_app w v : where_args (w ++ v) = where_args w ++ where_args v.
Proof. apply bind_app. Qed.

(** The compiler renders the plan. *)
Lemma Compile_renders signer now col req c : Compile signer now col req = QOk c →
  ∃ w, where_of col req (cmCursor c) = Some w ∧
    c = MkCompiled (render col w (effectiveSorts col req))
          (cSelectArgs col ++ where_args w ++ [VInt (limit_of req + 1)]) (limit_of req) (effectiveSorts col req)
          (sortColumns col (effectiveSorts col req))
          (fingerprint (cName col) (TrimSpace (rqQuery req)) (rqFilters req) (effectiveSorts col req)) (cmCursor c).
Proof.
  unfold Compile. destruct (validateRequest col req) as [[]|]; simpl; [|done].
  destruct (check _ _) as [[]|]; simpl; [|done].
  destruct (cursorFor _ _ _ _ _ _) as [cur|] eqn:Hcur; simpl; [|done]. apply cursorFor_len in Hcur.
  destruct (searchClause _ _ _) as [[w1 a1]|] eqn:Hs1; simpl; [|done].
  destruct (filterClauses _ _ _) as [[w2 a2]|] eqn:Hs2; simpl; [|done].
  destruct (keysetClause _ _ _ _ _) as [[w3 a3]|] eqn:Hs3; simpl; [|done]. intros [= <-]. simpl.
  apply searchClause_eq in Hs1 as [-> ->]. apply filterClauses_eq in Hs2 as (fs & Hfs & -> & ->).
  apply keysetClause_eq in Hs3 as (ks & Hks & -> & ->); [|by unfold sortColumns; rewrite length_fmap|done].
  exists (search_clauses col (rqQuery req) ++ fs ++ ks). split.
  { unfold where_of. rewrite Hfs. simpl. by rewrite Hks. }
  unfold render. rewrite !where_args_app, !where_texts_app, !length_app, !app_assoc.
  f_equal. f_equal; [|lia]. f_equal; [f_equal|]; f_equal; lia.
Qed.


(** ** Meaning *)

Section selection.
Context `{SqlOrder} `{CaseFold} (raw : string → sqlval → row → option bool).

(** What a request asks of a row. *)
Definition search_holds (col : Collection) (query : string) (r : row) : Prop :=
  let q := TrimSpace query in
  q ≠ "" →
  if bool_decide (cSearchExpr col = "") then
    ∃ f y, f ∈ cFields col ∧ searchable f = true ∧ r (fColumn f) = Some y ∧
      occurs (fold <$> chars_of q) (fold <$> chars_of (text_of y))
  else raw (cSearchExpr col) (VStr q) r = Some true.

Definition matches (col : Collection) (req : Request) (r : row) : Prop :=
  search_holds col (rqQuery req) r ∧
  Forall (λ fl, let f := field_or_zero (cFields col) (flField fl) in filter_holds f fl (r (fColumn f))) (rqFilters req).

(** A row whose sort key lies beyond the cursor's. *)
Definition beyond (col : Collection) (sorts : list Sort) (cursor : option CursorPayload) (key : list sqlval) : Prop :=
  match cursor with
  | None => True
  | Some p => ∃ vs, keyset_values (cFields col) sorts (cpSortValues p) = Some vs ∧
                    key_lt (sDescending <$> sorts) vs key = true
  end.

Lemma selected_Forall w r : selected raw w r = true ↔ Forall (λ c, eval_clause raw r c = Some true) w.
Proof.
  unfold selected. rewrite forallb_elem, Forall_forall. by setoid_rewrite bool_decide_eq_true.
Qed.

Lemma search_clauses_hold col query r :
  Forall (λ c, eval_clause raw r c = Some true) (search_clauses col query) ↔ search_holds col query r.
Proof.
  unfold search_clauses, search_holds. case_bool_decide as Hq; [split; [done|constructor]|].
  case_bool_decide.
  - rewrite Forall_singleton, eval_any_true, Exists_fmap, Exists_exists. split.
    + intros (f & Hf & He) _. apply elem_of_bool_filter in Hf as [Hs Hf].
      cbn [compose eval_atom] in He. destruct (r (fColumn f)) as [y|] eqn:Hy; [|done].
      cbn [mbind option_bind] in He. apply (inj Some), ilike_contains in He. by exists f, y.
    + intros Hx. destruct (Hx Hq) as (f & y & Hf & Hs & Hy & Ho). exists f.
      split; [by apply elem_of_bool_filter|]. cbn [compose eval_atom]. rewrite Hy. cbn [mbind option_bind].
      f_equal. by apply ilike_contains.
  - rewrite Forall_singleton. simpl. tauto.
Qed.

Lemma filter_clauses_hold fields filters cs r : filter_clauses fields filters = Some cs →
  Forall (λ c, eval_clause raw r c = Some true) cs ↔
  Forall (λ fl, let f := field_or_zero fields (flField fl) in filter_holds f fl (r (fColumn f))) filters.
Proof.
  unfold filter_clauses. revert cs. induction filters as [|fl filters IH]; intros cs; simpl.
  { intros [= <-]. by rewrite !Forall_nil. }
  destruct (filter_atom _ fl) as [a|] eqn:Ha; simpl; [|done].
  destruct (mapM _ filters) as [cs'|]; simpl; [|done]. intros [= <-].
  rewrite !Forall_cons, IH by done. simpl. by rewrite (filter_atom_holds raw _ _ _ r Ha).
Qed.

Lemma keyset_clauses_hold col sorts cursor cs r key :
  from_option (λ p, length (cpSortValues p) = length sorts) True cursor →
  keyset_clauses (cFields col) sorts (sortColumns col sorts) cursor = Some cs →
  key_of (sortColumns col sorts) r = Some key →
  Forall (λ c, eval_clause raw r c = Some true) cs ↔ beyond col sorts cursor key.
Proof.
  destruct cursor as [p|]; cbn [keyset_clauses from_option beyond]; intros Hl.
  - destruct (keyset_values _ _ _) as [vs|] eqn:Hk; simpl; [|done]. intros [= <-] Hkey.
    assert (length vs = length sorts) as Hvs.
    { unfold keyset_values in Hk. apply mapM_Some_1, Forall2_length in Hk. rewrite <-Hk, length_zip_with. lia. }
    rewrite Forall_singleton, (keyset_clause_holds raw r _ _ _ _ Hvs ltac:(apply length_fmap) Hkey). naive_solver.
  - intros [= <-] _. by rewrite Forall_nil.
Qed.

Lemma Compile_cursor_len signer now col req c : Compile signer now col req = QOk c →
  from_option (λ p, length (cpSortValues p) = length (effectiveSorts col req)) True (cmCursor c).
Proof.
  unfold Compile. destruct (validateRequest col req) as [[]|]; simpl; [|done].
  destruct (check _ _) as [[]|]; simpl; [|done].
  destruct (cursorFor _ _ _ _ _ _) as [cur|] eqn:Hcur; simpl; [|done]. apply cursorFor_len in Hcur.
  destruct (searchClause _ _ _) as [[w1 a1]|]; simpl; [|done].
  destruct (filterClauses _ _ _) as [[w2 a2]|]; simpl; [|done].
  destruct (keysetClause _ _ _ _ _) as [[w3 a3]|]; simpl; [|done]. by intros [= <-].
Qed.

Lemma where_of_selects col req cursor w r key :
  from_option (λ p, length (cpSortValues p) = length (effectiveSorts col req)) True cursor →
  where_of col req cursor = Some w → key_of (sortColumns col (effectiveSorts col req)) r = Some key →
  selected raw w r = true ↔ matches col req r ∧ beyond col (effectiveSorts col req) cursor key.
Proof.
  intros Hl Hw Hkey. unfold where_of in Hw.
  destruct (filter_clauses _ _) as [fs|] eqn:Hfs; simpl in Hw; [|done].
  destruct (keyset_clauses _ _ _ _) as [ks|] eqn:Hks; simpl in Hw; [|done]. injection Hw as <-.
  rewrite selected_Forall, !Forall_app, search_clauses_hold, (filter_clauses_hold _ _ _ r Hfs).
  rewrite (keyset_clauses_hold _ _ _ _ _ _ Hl Hks Hkey). unfold matches. tauto.
Qed.


End selection.


(** ** The text depends on the shape only *)

(** A condition with its values blanked out. *)
Definition blank_atom (a : atom) : atom :=
  match a with
  | ANull c => ANull c
  | ANotNull c => ANotNull c
  | AIn neg c vs => AIn neg c ((λ _, VStr "") <$> vs)
  | AILike c _ => AILike c ""
  | ATextILike c _ => ATextILike c ""
  | ACmp op c _ => ACmp op c (VStr "")
  | ASame c _ => ASame c (VStr "")
  | ABeyond desc c _ => ABeyond desc c (VStr "")
  | ARaw expr _ => ARaw expr (VStr "")
  end.
Definition blank (c : clause) : clause :=
  match c with
  | One a => One (blank_atom a)
  | AnyOf l => AnyOf (fmap (M:=list) blank_atom l)
  | AnyAll l => AnyAll (fmap (M:=list) (fmap (M:=list) blank_atom) l)
  end.

Lemma blank_atom_text n a : atom_text n (blank_atom a) = atom_text n a.
Proof. destruct a; simpl; [..|done|done|done]; try done. by rewrite length_fmap. Qed.
Lemma blank_atom_args a : length (atom_args (blank_atom a)) = length (atom_args a).
Proof. destruct a; simpl; try done. by rewrite length_fmap. Qed.

Lemma blank_args l : length (args_of (blank_atom <$> l)) = length (args_of l).
Proof.
  induction l as [|a l IH]; [done|]. unfold args_of in *.
  by rewrite fmap_cons, !bind_cons, !length_app, blank_atom_args, IH.
Qed.
Lemma blank_texts n l : texts_of n (blank_atom <$> l) = texts_of n l.
Proof.
  revert n. induction l as [|a l IH]; intros n; [done|]. simpl. by rewrite blank_atom_text, blank_atom_args, IH.
Qed.
Lemma blank_all_texts n l : all_texts n (fmap (M:=list) blank_atom <$> l) = all_texts n l.
Proof.
  revert n. induction l as [|x l IH]; intros n; [done|]. simpl. by rewrite blank_texts, blank_args, IH.
Qed.
Lemma blank_clause_args c : length (clause_args (blank c)) = length (clause_args c).
Proof.
  destruct c as [a|l|l]; [apply blank_atom_args|apply blank_args|].
  cbn [blank clause_args]. induction l as [|x l IH]; [done|].
  by rewrite fmap_cons, !bind_cons, !length_app, blank_args, IH.
Qed.
Lemma blank_where_args w : length (where_args (blank <$> w)) = length (where_args w).
Proof.
  induction w as [|c w IH]; [done|]. unfold where_args in *.
  by rewrite fmap_cons, !bind_cons, !length_app, blank_clause_args, IH.
Qed.
Lemma blank_where_texts n w : where_texts n (blank <$> w) = where_texts n w.
Proof.
  revert n. induction w as [|c w IH]; intros n; [done|]. simpl. rewrite blank_clause_args, IH. f_equal.
  destruct c as [a|l|l]; simpl; by rewrite ?blank_atom_text, ?blank_texts, ?blank_all_texts.
Qed.

Lemma render_blank col w w' sorts : blank <$> w = blank <$> w' → render col w sorts = render col w' sorts.
Proof.
  intros E. unfold render.
  rewrite <-(blank_where_texts _ w), <-(blank_where_texts _ w'), <-(blank_where_args w), <-(blank_where_args w').
  by rewrite E.
Qed.

(** Requests that differ in the values only. *)
Definition same_filter (a b : Filter) : Prop :=
  flField a = flField b ∧ flOp a = flOp b ∧ length (flValues a) = length (flValues b).
Definition same_shape (a b : Request) : Prop :=
  (TrimSpace (rqQuery a) = "" ↔ TrimSpace (rqQuery b) = "") ∧ rqSorts a = rqSorts b ∧
  Forall2 same_filter (rqFilters a) (rqFilters b).

Lemma blank_search col p q : (TrimSpace p = "" ↔ TrimSpace q = "") →
  blank <$> search_clauses col p = blank <$> search_clauses col q.
Proof.
  intros Hpq. unfold search_clauses. destruct (decide (TrimSpace p = "")) as [Hp|Hp].
  { rewrite !bool_decide_eq_true_2 by tauto. done. }
  rewrite !(bool_decide_eq_false_2 (TrimSpace _ = "")) by tauto.
  case_bool_decide; [|done]. simpl. do 2 f_equal. rewrite <-!list_fmap_compose. done.
Qed.

Lemma blank_const (l k : list sqlval) : length l = length k → (λ _, VStr "") <$> l = (λ _, VStr "") <$> k.
Proof. revert k. induction l as [|x l IH]; intros [|y k] E; try done. simpl. f_equal. apply IH. simpl in E. lia. Qed.

Lemma blank_filter f a b x y : same_filter a b → filter_atom f a = Some x → filter_atom f b = Some y →
  blank_atom x = blank_atom y.
Proof.
  intros (_ & Ho & Hl). unfold filter_atom. rewrite Ho. destruct (flOp b); try (by intros [= <-] [= <-]);
    try (do 2 destruct (coerce _ _); try done; by intros [= <-] [= <-]).
  all: destruct (mapM _ (flValues a)) as [xs|] eqn:Ha; [|done];
       destruct (mapM _ (flValues b)) as [ys|] eqn:Hb; [|done]; intros [= <-] [= <-]; simpl;
       apply mapM_Some_1, Forall2_length in Ha; apply mapM_Some_1, Forall2_length in Hb;
       by rewrite (blank_const xs ys) by congruence.
Qed.

Lemma blank_filters fields fa fb xs ys : Forall2 same_filter fa fb →
  filter_clauses fields fa = Some xs → filter_clauses fields fb = Some ys → blank <$> xs = blank <$> ys.
Proof.
  unfold filter_clauses. intros Hf. revert xs ys. induction Hf as [|a b fa fb Hab Hf IH]; intros xs ys; simpl.
  { by intros [= <-] [= <-]. }
  pose proof Hab as (Hfield & _). rewrite Hfield.
  destruct (filter_atom _ a) as [x|] eqn:Ha; simpl; [|done]. destruct (mapM _ fa) as [xs'|]; simpl; [|done].
  destruct (filter_atom _ b) as [y|] eqn:Hb; simpl; [|done]. destruct (mapM _ fb) as [ys'|]; simpl; [|done].
  intros [= <-] [= <-]. rewrite !fmap_cons. f_equal; [|by apply IH]. simpl. f_equal. by eapply blank_filter.
Qed.

Lemma blank_keyset_atoms sorts cols vs us i : length vs = length us →
  blank_atom <$> keyset_atoms sorts cols vs i = blank_atom <$> keyset_atoms sorts cols us i.
Proof.
  revert cols vs us i. induction sorts as [|s sorts IH]; intros [|c cols] [|v vs] [|u us] i E; try done.
  destruct i as [|i]; [done|]. simpl. f_equal. apply IH. simpl in E. lia.
Qed.

Lemma blank_keysets fields sorts cols p q xs ys : (p = None ↔ q = None) →
  from_option (λ p, length (cpSortValues p) = length sorts) True p →
  from_option (λ p, length (cpSortValues p) = length sorts) True q →
  keyset_clauses fields sorts cols p = Some xs → keyset_clauses fields sorts cols q = Some ys →
  blank <$> xs = blank <$> ys.
Proof.
  intros Hpq. destruct p as [p|], q as [q|]; [|naive_solver|naive_solver|by intros _ _ [= <-] [= <-]].
  cbn [from_option keyset_clauses]. intros Hp Hq. unfold keyset_values.
  destruct (mapM _ (zip sorts (cpSortValues p))) as [vs|] eqn:Hv; simpl; [|done].
  destruct (mapM _ (zip sorts (cpSortValues q))) as [us|] eqn:Hu; simpl; [|done]. intros [= <-] [= <-]. simpl.
  apply mapM_Some_1, Forall2_length in Hv. apply mapM_Some_1, Forall2_length in Hu.
  rewrite length_zip_with in Hv, Hu. do 2 f_equal. rewrite <-!list_fmap_compose. apply list_fmap_ext. intros _ i _. simpl.
  apply blank_keyset_atoms. lia.
Qed.

Lemma effectiveSorts_shape col a b : same_shape a b → effectiveSorts col a = effectiveSorts col b.
Proof. intros (_ & E & _). unfold effectiveSorts. by rewrite E. Qed.

(** No value of a request reaches the text of its statement: two accepted
    requests that name the same fields, operators, numbers of values and sorts,
    and that both have a search text and a cursor or both do not, compile to the
    same text; search texts, filter values and cursor values differ in the bound
    arguments only. *)
Theorem query_text_fixed signer now now' col a b c d : same_shape a b →
  Compile signer now col a = QOk c → Compile signer now' col b = QOk d → (cmCursor c = None ↔ cmCursor d = None) →
  cmSQL c = cmSQL d.
Proof.
  intros Hs Hc Hd Hcur. pose proof (Compile_cursor_len _ _ _ _ _ Hc) as Hlc.
  pose proof (Compile_cursor_len _ _ _ _ _ Hd) as Hld.
  destruct (Compile_renders _ _ _ _ _ Hc) as (w & Hw & Ec). destruct (Compile_renders _ _ _ _ _ Hd) as (v & Hv & Ed).
  rewrite Ec, Ed. simpl. revert Hw Hv Hlc Hld. unfold where_of. rewrite <-(effectiveSorts_shape col a b Hs).
  destruct (filter_clauses _ (rqFilters a)) as [fa|] eqn:Hfa; [|done].
  destruct (filter_clauses _ (rqFilters b)) as [fb|] eqn:Hfb; [|done]. cbn [mbind option_bind].
  destruct (keyset_clauses _ _ _ (cmCursor c)) as [ka|] eqn:Hka; [|done].
  destruct (keyset_clauses _ _ _ (cmCursor d)) as [kb|] eqn:Hkb; [|done]. cbn [mbind option_bind].
  intros [= <-] [= <-] Hlc Hld. destruct Hs as (Hq & _ & Hf). apply render_blank. rewrite !fmap_app.
  rewrite (blank_search col _ _ Hq), (blank_filters _ _ _ _ _ Hf Hfa Hfb).
  by rewrite (blank_keysets _ _ _ _ _ _ _ Hcur Hlc Hld Hka Hkb).
Qed.


(** ** Which requests are accepted *)

Definition no_value_op (op : Op) : bool := bool_decide (op = OpIsNull) || bool_decide (op = OpIsNotNull).
Definition list_op (op : Op) : bool := bool_decide (op = OpIn) || bool_decide (op = OpNotIn).

(** The rules for a filter, a sort and a request. *)
Definition valid_filter (col : Collection) (fl : Filter) : Prop :=
  ∃ f, fieldByName (cFields col) (flField fl) = Some f ∧ flOp fl ∈ fFilterOps f ∧
    (no_value_op (flOp fl) = true ∨
     list_op (flOp fl) = true ∧ (0 < length (flValues fl) ≤ 64)%nat ∧ (∀ v, v ∈ flValues fl → parseTyped (fType f) v = true) ∨
     no_value_op (flOp fl) = false ∧ list_op (flOp fl) = false ∧ (flValue fl = "" → fType f = TypeString) ∧
       parseTyped (fType f) (flValue fl) = true).

Definition valid_sort (col : Collection) (s : Sort) : Prop :=
  ∃ f, fieldByName (cFields col) (sField s) = Some f ∧ fSortable f = true.

Definition valid_request (col : Collection) (req : Request) : Prop :=
  (pgLimit (rqPage req) ≤ 250)%Z ∧ length (rqFilters req) ≤ 16 ∧ length (rqSorts req) ≤ 4 ∧
  (slen (rqQuery req) ≤ 256)%Z ∧ Forall (valid_filter col) (rqFilters req) ∧ Forall (valid_sort col) (rqSorts req).

Lemma check_ok b e : check b e = QOk () ↔ b = true.
Proof. by destruct b. Qed.
Lemma bind_ok {A B} (m : qres A) (f : A → qres B) y : m ≫= f = QOk y ↔ ∃ x, m = QOk x ∧ f x = QOk y.
Proof. destruct m; naive_solver. Qed.
Lemma check_all_ok {A} (f : A → qres unit) l : check_all f l = QOk () ↔ Forall (λ x, f x = QOk ()) l.
Proof.
  induction l as [|x l IH]; simpl; [split; [constructor|done]|]. rewrite bind_ok, Forall_cons, <-IH.
  split; [by intros ([] & ? & ?)|intros [? ?]; by exists ()].
Qed.
Lemma step_ok {A} (m : qres unit) (k : qres A) y : (_ ← m; k) = QOk y ↔ m = QOk () ∧ k = QOk y.
Proof. rewrite bind_ok. split; [by intros ([] & ? & ?)|intros [? ?]; by exists ()]. Qed.

Lemma nonempty_length {A} (l : list A) : l ≠ [] ↔ 0 < length l.
Proof. destruct l; simpl; split; intros; try done; lia. Qed.

Lemma validateFilterValue_ok f fl : validateFilterValue f fl = QOk () ↔
    (no_value_op (flOp fl) = true ∨
     list_op (flOp fl) = true ∧ (0 < length (flValues fl) ≤ 64)%nat ∧ (∀ v, v ∈ flValues fl → parseTyped (fType f) v = true) ∨
     no_value_op (flOp fl) = false ∧ list_op (flOp fl) = false ∧ (flValue fl = "" → fType f = TypeString) ∧
       parseTyped (fType f) (flValue fl) = true).
Proof.
  assert (negb (bool_decide (flValue fl = "") && negb (bool_decide (fType f = TypeString))) = true ↔
          (flValue fl = "" → fType f = TypeString)) as Hv.
  { rewrite negb_true_iff, andb_false_iff, negb_false_iff, bool_decide_eq_false, bool_decide_eq_true.
    destruct (decide (flValue fl = "")); tauto. }
  unfold validateFilterValue, no_value_op, list_op, MaxFilterValues. destruct (flOp fl); simpl;
    rewrite ?step_ok, ?check_ok, ?check_all_ok, ?Hv, ?Forall_forall, ?negb_true_iff, ?bool_decide_eq_false, ?nonempty_length;
    try setoid_rewrite check_ok;
    first [ naive_solver lia | naive_solver ].
Qed.

Lemma opAllowed_elem f op : opAllowed f op = true ↔ op ∈ fFilterOps f.
Proof.
  unfold opAllowed. rewrite existsb_exists. split.
  - by intros (x & Hx%list_elem_of_In & <-%bool_decide_eq_true).
  - intros Hx. exists op. split; [by apply list_elem_of_In|by apply bool_decide_eq_true].
Qed.

Lemma validateRequest_ok col req : validateRequest col req = QOk () ↔ valid_request col req.
Proof.
  unfold validateRequest, valid_request, MaxLimit, MaxFilters, MaxSorts, MaxQueryLength.
  rewrite !step_ok, !check_ok, !check_all_ok, !negb_true_iff, !bool_decide_eq_false.
  assert (∀ fl, validateFilter col fl = QOk () ↔ valid_filter col fl) as Hf.
  { intros fl. unfold validateFilter, valid_filter. destruct (fieldByName _ _) as [f|]; [|naive_solver].
    rewrite step_ok, check_ok, opAllowed_elem, validateFilterValue_ok. naive_solver. }
  assert (∀ s, validateSort col s = QOk () ↔ valid_sort col s) as Hs.
  { intros s. unfold validateSort, valid_sort. destruct (fieldByName _ _) as [f|]; [|naive_solver].
    rewrite check_ok. naive_solver. }
  rewrite (Forall_iff _ _ _ Hf), (Forall_iff _ _ _ Hs). rewrite !Z.nlt_ge.
  split; intros (? & ? & ? & ? & ? & ?); split_and!; auto; lia.
Qed.


(** The operators of a collection's fields are the known ones. *)
Definition known_ops (col : Collection) : Prop := ∀ f name, f ∈ cFields col → OpUnknown name ∉ fFilterOps f.
Definition can_search (col : Collection) (query : string) : Prop :=
  TrimSpace query = "" ∨ cSearchExpr col ≠ "" ∨ ∃ f, f ∈ cFields col ∧ searchable f = true.

Lemma fieldByName_elem fields name f : fieldByName fields name = Some f → f ∈ fields ∧ fName f = name.
Proof.
  unfold fieldByName. intros Hl%last_Some_elem_of. apply elem_of_bool_filter in Hl as [Hn Hf].
  by apply bool_decide_eq_true in Hn.
Qed.

Lemma searchClause_ok col query n : (∃ x, searchClause col query n = QOk x) ↔ can_search col query.
Proof.
  unfold searchClause, can_search. case_bool_decide as Hq; [naive_solver|]. case_bool_decide as He; [|naive_solver].
  case_bool_decide as Hf; split.
  - intros [? ?]. done.
  - intros [?|[?|(f & Hin & Hs)]]; [done|done|]. exfalso. apply (not_elem_of_nil f). rewrite <-Hf.
    by apply elem_of_bool_filter.
  - intros _. right; right. destruct (bool_filter searchable (cFields col)) as [|f l] eqn:E; [done|].
    exists f. assert (f ∈ bool_filter searchable (cFields col)) as Hf' by (rewrite E; left).
    apply elem_of_bool_filter in Hf'. tauto.
  - eauto.
Qed.

Lemma parseTyped_coerce t v : parseTyped t v = true → is_Some (coerce t v).
Proof. destruct t; simpl; try (by eexists); intros Hp%bool_decide_eq_true; by apply fmap_is_Some. Qed.

Lemma mapQ_ok {A B} (f : A → qres B) l : (∀ x, x ∈ l → ∃ y, f x = QOk y) → ∃ ys, mapQ f l = QOk ys.
Proof.
  induction l as [|x l IH]; intros Hf; [by exists []|].
  destruct (Hf x) as [y Hy]; [by left|]. destruct IH as [ys Hys]; [intros; apply Hf; by right|].
  exists (y :: ys). simpl. by rewrite Hy, Hys.
Qed.

Lemma compileFilter_ok col fl n : known_ops col → valid_filter col fl →
  ∃ x, compileFilter (field_or_zero (cFields col) (flField fl)) fl n = QOk x.
Proof.
  intros Hk (f & Hf & Hop & Hv). unfold field_or_zero. rewrite Hf. simpl.
  apply fieldByName_elem in Hf as [Hin _]. unfold compileFilter, coerceQ, no_value_op, list_op in *.
  destruct (flOp fl) eqn:E; simpl in *; try (by eexists); destruct Hv as [?|[(? & ? & Hv)|(? & ? & ? & Hv)]]; try done;
    try (destruct (parseTyped_coerce _ _ Hv) as [x ->]; by eexists);
    try (by apply Hk in Hop).
  all: destruct (mapQ_ok (λ v, match coerce (fType f) v with Some x => QOk x | None => QErr ErrBadValue end)
         (flValues fl)) as [ys ->]; [|by eexists]; intros v Hin'; destruct (parseTyped_coerce _ _ (Hv v Hin')) as [x ->]; eauto.
Qed.

Lemma filterClauses_ok col filters n : known_ops col → Forall (valid_filter col) filters →
  ∃ x, filterClauses (cFields col) filters n = QOk x.
Proof.
  intros Hk Hf. revert n. induction Hf as [|fl filters Hfl Hf IH]; intros n; simpl; [by eexists|].
  destruct (compileFilter_ok _ _ n Hk Hfl) as [[t a] ->]. simpl.
  destruct (IH (n + Z.of_nat (length a))%Z) as [[ts as'] ->]. by eexists.
Qed.

Lemma keysetClause_ok col sorts cursor n : from_option (λ p, length (cpSortValues p) = length sorts) True cursor →
  (∃ x, keysetClause sorts (sortColumns col sorts) (cFields col) cursor n = QOk x) ↔
  is_Some (keyset_clauses (cFields col) sorts (sortColumns col sorts) cursor).
Proof.
  destruct cursor as [p|]; cbn [from_option keysetClause keyset_clauses]; [|intros _; split; eauto].
  intros Hl. rewrite keysetPredicate_eq by (try done; apply length_fmap).
  destruct (keyset_values _ _ _); simpl; split; eauto; by intros [? [=]].
Qed.

Lemma Compile_ok signer now col req : known_ops col →
  (∃ c, Compile signer now col req = QOk c) ↔
  valid_request col req ∧ effectiveSorts col req ≠ [] ∧ can_search col (rqQuery req) ∧
  ∃ cur, cursorFor signer now col
           (fingerprint (cName col) (TrimSpace (rqQuery req)) (rqFilters req) (effectiveSorts col req))
           (length (effectiveSorts col req)) (pgCursor (rqPage req)) = QOk cur ∧
         is_Some (keyset_clauses (cFields col) (effectiveSorts col req) (sortColumns col (effectiveSorts col req)) cur).
Proof.
  intros Hk. unfold Compile. split.
  - intros (c & (Hv & (Hs & Hc)%step_ok)%step_ok). apply validateRequest_ok in Hv.
    apply check_ok, negb_true_iff, bool_decide_eq_false in Hs. destruct (cursorFor _ _ _ _ _ _) as [cur|] eqn:Hcur; [|done].
    pose proof (cursorFor_len _ _ _ _ _ _ _ Hcur) as Hl. cbn [mbind qres_bind] in Hc.
    destruct (searchClause _ _ _) as [[w1 a1]|] eqn:Hs1; [|done]. cbn [mbind qres_bind] in Hc.
    destruct (filterClauses _ _ _) as [[w2 a2]|] eqn:Hs2; [|done]. cbn [mbind qres_bind] in Hc.
    destruct (keysetClause _ _ _ _ _) as [[w3 a3]|] eqn:Hs3; [|done].
    split_and!; [done|done|by eapply searchClause_ok; eexists|]. exists cur. split; [done|].
    eapply keysetClause_ok; [done|]. by eexists.
  - intros (Hv & Hs & Hcs & cur & Hcur & Hks). pose proof (cursorFor_len _ _ _ _ _ _ _ Hcur) as Hl.
    rewrite (proj2 (validateRequest_ok col req) Hv), bool_decide_eq_false_2 by done. cbn [mbind qres_bind check negb].
    rewrite Hcur. cbn [mbind qres_bind].
    eapply searchClause_ok in Hcs as [[w1 a1] ->]. cbn [mbind qres_bind].
    destruct (filterClauses_ok col (rqFilters req)
      (Z.of_nat (length (cSelectArgs col)) + Z.of_nat (length a1) + 1) Hk) as [[w2 a2] ->]; [apply Hv|].
    cbn [mbind qres_bind]. eapply keysetClause_ok in Hks as [[w3 a3] ->]; [|done]. by eexists.
Qed.

(** C30: a search compiles exactly when it is well formed: its sizes are within
    the limits, every filter names a field, an operator the field allows and
    values that read at the field's type, every sort names a sortable field, a
    sort key remains, the text search has a column to look in, and the cursor,
    if any, verifies, was issued for this query and reads at the types of the
    sort key.  Everything else is refused before any text is built. *)
Theorem Compile_accepts signer now col req : known_ops col →
  (∃ c, Compile signer now col req = QOk c) ↔
  valid_request col req ∧ effectiveSorts col req ≠ [] ∧ can_search col (rqQuery req) ∧
  ∃ cur, cursorFor signer now col
           (fingerprint (cName col) (TrimSpace (rqQuery req)) (rqFilters req) (effectiveSorts col req))
           (length (effectiveSorts col req)) (pgCursor (rqPage req)) = QOk cur ∧
         is_Some (keyset_clauses (cFields col) (effectiveSorts col req) (sortColumns col (effectiveSorts col req)) cur).
Proof. apply Compile_ok. Qed.

End plans.
