(* ===== verification/Paging.v ===== *)
(** * Paging through an admin search

    The page loop of [admin/store/store.go] ([list]) with the compiler's cursors
    ([admin/query/compile.go], [cursor.go]): what a cursor carries survives
    signing, and following the cursors from the first page enumerates the result.

    The database runs a plan: it selects the rows on which the conditions are
    true, orders them by the sort columns with nulls last and cuts them off at the
    limit ([exec]). *)
From Stdlib Require Import Ascii.
From stdpp Require Import sorting.
From S2P Require Import Prelude Policy Domain Text Strings AdminQuery QuerySpec Plans.

(** ** Signed cursors *)

(** JSON carries UTF-8 text only. *)
Definition plain_payload (p : CursorPayload) : Prop :=
  valid_utf8 (cpCollection p) = true ∧ valid_utf8 (cpFingerprint p) = true ∧
  Forall (λ s, valid_utf8 s = true) (cpSortValues p).

Class MacBytes `{Mac} := hmac_bytes s b : Forall (λ n, 0 ≤ n < 256)%Z (hmac s b).
Class CursorCodecOk `{CursorCodec} := {
  marshal_bytes p : Forall (λ n, 0 ≤ n < 256)%Z (marshalCursor p);
  marshal_nonempty p : marshalCursor p ≠ [];
  unmarshal_marshal p : plain_payload p → unmarshalCursor (marshalCursor p) = Some p;
}.

Section signing.
Context `{MacBytes} `{CursorCodecOk}.

(** The payload as it is signed. *)
Definition stamped (s : Signer) (t : time) (p : CursorPayload) : CursorPayload :=
  MkCursorPayload 1 (cpCollection p) (cpFingerprint p) (cpSortValues p)
    (if bool_decide (cpExp p = 0%Z) then Unix (t + sgttl s) else cpExp p).
Definition expired (p : CursorPayload) (now : time) : bool :=
  bool_decide (0 < cpExp p)%Z && bool_decide (cpExp p < Unix now)%Z.

Lemma Verify_Sign s t p now : sgSecret s ≠ "" → plain_payload p →
  ∃ token, Sign s t p = QOk token ∧ token ≠ "" ∧
    Verify s now token = if expired (stamped s t p) now then QErr ErrBadCursor else QOk (stamped s t p).
Proof.
  intros Hs Hp. unfold Sign. rewrite bool_decide_eq_false_2 by done. eexists. split; [done|].
  fold (stamped s t p). set (raw := marshalCursor (stamped s t p)).
  assert (Forall (λ n, 0 ≤ n < 256)%Z (hmac (sgSecret s) raw ++ raw)) as Hb
    by (apply Forall_app; split; [apply hmac_bytes|apply marshal_bytes]).
  assert (Hlen : length raw ≠ 0) by (intros E; by apply nil_length_inv, marshal_nonempty in E).
  assert (b64_decode (bytes_of (of_bytes (b64_encode (hmac (sgSecret s) raw ++ raw)))) =
          Some (hmac (sgSecret s) raw ++ raw)) as Hdec.
  { rewrite bytes_of_of_bytes by by apply b64_encode_bytes. by apply b64_roundtrip. }
  split.
  - intros E. rewrite E in Hdec. change (Some [] = Some (hmac (sgSecret s) raw ++ raw)) in Hdec.
    injection Hdec as Hdec. symmetry in Hdec. by apply app_nil in Hdec as [_ ->].
  - unfold Verify. rewrite bool_decide_eq_false_2 by done. rewrite Hdec.
    rewrite length_app, hmac_size, (proj2 (Nat.leb_gt _ _)) by lia.
    rewrite take_app_length', drop_app_length' by (by rewrite hmac_size).
    rewrite bool_decide_eq_true_2 by done. simpl. unfold raw. rewrite unmarshal_marshal by done. done.
Qed.

End signing.

(** ** Sort values *)

(** A digit string read back. *)
Lemma digits_digit acc d rest : (d < 10)%N →
  digits acc (String (pretty_N_char d) rest) = digits (acc * 10 + Z.of_N d) rest.
Proof.
  intros Hd. assert (d = 0 ∨ d = 1 ∨ d = 2 ∨ d = 3 ∨ d = 4 ∨ d = 5 ∨ d = 6 ∨ d = 7 ∨ d = 8 ∨ d = 9)%N
    as Hcases by lia.
  repeat destruct Hcases as [->|Hcases]; try subst d; reflexivity.
Qed.

Lemma digits_pretty_go x rest : digits 0 (pretty_N_go x rest) = digits (Z.of_N x) rest.
Proof.
  revert rest. induction (N.lt_wf_0 x) as [x _ IH]; intros rest.
  destruct (decide (x = 0)%N) as [->|Hne]; [by rewrite pretty_N_go_0|].
  rewrite pretty_N_go_step by lia.
  pose proof (N.div_mod x 10 ltac:(lia)) as Hdm. pose proof (N.mod_lt x 10 ltac:(lia)) as Hm.
  pose proof (N.div_lt x 10 ltac:(lia) ltac:(lia)) as Hlt. rewrite (IH _ Hlt), digits_digit by done.
  f_equal. revert Hdm. generalize (x / 10)%N (x mod 10)%N. intros q m Hdm. lia.
Qed.

Lemma digits_pretty (x : N) : digits 0 (pretty x) = Some (Z.of_N x).
Proof. unfold pretty, pretty_N. case_decide as E; [by subst|]. by rewrite digits_pretty_go. Qed.

Lemma pretty_N_head (x : N) : ∃ d rest, (d < 10)%N ∧ pretty x = String (pretty_N_char d) rest.
Proof.
  unfold pretty, pretty_N. case_decide as E; [by exists 0%N, ""|]. revert E. generalize EmptyString as s.
  induction (N.lt_wf_0 x) as [x _ IH]; intros s E. rewrite pretty_N_go_step by lia.
  pose proof (N.mod_lt x 10 ltac:(lia)) as Hm.
  destruct (decide (x / 10 = 0)%N) as [->|Hne]; [rewrite pretty_N_go_0; eauto|].
  apply IH; [apply N.div_lt; lia|done].
Qed.

Lemma digit_not_sign d : (d < 10)%N →
  (byte_of (pretty_N_char d) =? 45)%Z || (byte_of (pretty_N_char d) =? 43)%Z = false.
Proof.
  intros Hd. assert (d = 0 ∨ d = 1 ∨ d = 2 ∨ d = 3 ∨ d = 4 ∨ d = 5 ∨ d = 6 ∨ d = 7 ∨ d = 8 ∨ d = 9)%N
    as Hcases by lia.
  repeat destruct Hcases as [->|Hcases]; try subst d; reflexivity.
Qed.

Lemma ParseInt_N (x : N) : ParseInt (pretty x) = in_int64 (Z.of_N x).
Proof.
  pose proof (digits_pretty x) as Hd. destruct (pretty_N_head x) as (d & rest & Hlt & E). rewrite E in *.
  unfold ParseInt. rewrite digit_not_sign, Hd by done. done.
Qed.

Lemma ParseInt_pretty (z : Z) : (int64_min ≤ z ≤ int64_max)%Z → ParseInt (pretty z) = Some z.
Proof.
  intros Hz. assert (in_int64 z = Some z) as Hin by (unfold in_int64; by rewrite bool_decide_eq_true_2).
  destruct z as [|p|p].
  - done.
  - change (pretty (Z.pos p)) with (pretty (N.pos p)). by rewrite ParseInt_N.
  - change (pretty (Z.neg p)) with (String "-"%char (pretty (N.pos p))). unfold ParseInt.
    change ((byte_of "-" =? 45)%Z || (byte_of "-" =? 43)%Z) with true.
    change ((byte_of "-" =? 45)%Z) with true. cbv iota.
    pose proof (digits_pretty (N.pos p)) as Hd. destruct (pretty_N_head (N.pos p)) as (d & rest & _ & E).
    rewrite bool_decide_eq_false_2 by (by rewrite E). rewrite Hd. done.
Qed.

Section paging.
Context `{GoTime}.

(** The Go value the driver hands out for a column of a type. *)
Inductive scans : FieldType → sqlval → goval → Prop :=
  | scan_string s : scans TypeString (VStr s) (GoString s)
  | scan_json s : scans TypeJSON (VStr s) (GoString s)
  | scan_uuid b : scans TypeUUID (VStr (formatUUIDBytes b)) (GoUUID b)
  | scan_uuid_text s : scans TypeUUID (VStr s) (GoString s)
  | scan_int z : (int64_min ≤ z ≤ int64_max)%Z → scans TypeInt (VInt z) (GoInt z)
  | scan_bool b : scans TypeBool (VBool b) (GoBool b)
  | scan_time t : ParseTime (FormatTime t) = Some t → scans TypeTimestamp (VTime t) (GoTimeVal t).

(** A sort value put into a cursor reads back as the column's value. *)
Lemma sort_value_roundtrip ty x g : scans ty x g → coerce ty (FormatSortValue g) = Some x.
Proof.
  intros Hs. destruct Hs as [s|s|b|s|z Hz|b|t Ht]; simpl; try done.
  - by rewrite ParseInt_pretty.
  - by destruct b.
  - by rewrite Ht.
Qed.


(** ** The order of rows, nulls last *)

Section order.
Context `{SqlOrder}.

Definition before_null (d : bool) (a b : option sqlval) : bool :=
  match a, b with
  | Some x, Some y => before1 d x y
  | Some _, None => true
  | None, _ => false
  end.

(** Directions and columns, most significant first. *)
Fixpoint row_lt (order : list (bool * string)) (a b : row) : bool :=
  match order with
  | [] => false
  | (d, c) :: order' => before_null d (a c) (b c) || bool_decide (a c = b c) && row_lt order' a b
  end.

Definition same_key (order : list (bool * string)) (a b : row) : Prop := ∀ c, c ∈ order.*2 → a c = b c.

Lemma before_null_irrefl d a : before_null d a a = false.
Proof. destruct a; simpl; [apply before1_irrefl|done]. Qed.
Lemma before_null_trans d a b c : before_null d a b = true → before_null d b c = true → before_null d a c = true.
Proof. destruct a, b, c; simpl; try done. apply before1_trans. Qed.
Lemma before_null_total d a b : a ≠ b → before_null d a b = true ∨ before_null d b a = true.
Proof. destruct a as [x|], b as [y|]; simpl; try tauto. intros Hne. apply before1_total. congruence. Qed.

Lemma row_lt_irrefl o a : row_lt o a a = false.
Proof. induction o as [|[d c] o IH]; simpl; [done|]. by rewrite before_null_irrefl, IH, andb_false_r. Qed.
Lemma row_lt_trans o a b c : row_lt o a b = true → row_lt o b c = true → row_lt o a c = true.
Proof.
  induction o as [|[d x] o IH]; simpl; [done|]. rewrite !orb_true_iff, !andb_true_iff, !bool_decide_eq_true.
  intros [Hab|[Eab Hab]] [Hbc|[Ebc Hbc]]; [left|left|left|right].
  - by eapply before_null_trans.
  - by rewrite <-Ebc.
  - by rewrite Eab.
  - split; [congruence|auto].
Qed.
Lemma row_lt_total o a b : row_lt o a b = true ∨ row_lt o b a = true ∨ same_key o a b.
Proof.
  induction o as [|[d c] o IH]; simpl; [right; right; intros c Hc; by apply elem_of_nil in Hc|].
  rewrite !orb_true_iff, !andb_true_iff, !bool_decide_eq_true.
  destruct (decide (a c = b c)) as [E|Hne]; [|destruct (before_null_total d _ _ Hne); auto].
  destruct IH as [?|[?|Hk]]; [auto|auto|]. right; right. intros x Hx.
  cbn in Hx. apply elem_of_cons in Hx as [->|Hx]; [done|by apply Hk].
Qed.

Lemma row_lt_same o a b x : same_key o a b → row_lt o a x = row_lt o b x ∧ row_lt o x a = row_lt o x b.
Proof.
  induction o as [|[d c] o IH]; intros Hk; [done|]. simpl. rewrite (Hk c) by (cbn; left).
  destruct IH as [-> ->]; [|done]. intros y Hy. apply Hk. cbn. by right.
Qed.

Context {R : Type} (val : R → row) (order : list (bool * string)).

Definition row_le (a b : R) : Prop := row_lt order (val b) (val a) = false.

#[local] Instance row_le_dec a b : Decision (row_le a b).
Proof. unfold row_le. apply _. Defined.
#[local] Instance row_le_total : Total row_le.
Proof.
  intros a b. unfold row_le. destruct (row_lt order (val b) (val a)) eqn:E; [right|by left].
  destruct (row_lt order (val a) (val b)) eqn:E'; [|done].
  pose proof (row_lt_trans _ _ _ _ E E') as Hx. by rewrite row_lt_irrefl in Hx.
Qed.
#[local] Instance row_le_trans : Transitive row_le.
Proof.
  unfold row_le. intros a b c Hab Hbc. destruct (row_lt order (val c) (val a)) eqn:E; [|done].
  destruct (row_lt_total order (val b) (val c)) as [Hlt|[Hlt|Hk]]; [|congruence|].
  - by rewrite (row_lt_trans _ _ _ _ Hlt E) in Hab.
  - destruct (row_lt_same _ _ _ (val a) Hk) as [Hx _]. congruence.
Qed.

(** [ORDER BY]. *)
Definition order_by (rows : list R) : list R := merge_sort row_le rows.

Lemma order_by_perm rows : order_by rows ≡ₚ rows.
Proof. apply merge_sort_Permutation. Qed.
Lemma result_sorted rows : StronglySorted row_le (order_by rows).
Proof. apply StronglySorted_merge_sort; apply _. Qed.

(** Rows with different keys: the order of the result is determined. *)
Definition distinct_keys (rows : list R) : Prop :=
  ∀ a b, a ∈ rows → b ∈ rows → same_key order (val a) (val b) → a = b.

Lemma order_by_unique rows l : distinct_keys rows → StronglySorted row_le l → l ≡ₚ rows → order_by rows = l.
Proof.
  intros Hd Hl Hp. apply (StronglySorted_unique_strong row_le); [|apply result_sorted|done|].
  - intros a b Ha Hb Hab Hba. unfold row_le in *. rewrite order_by_perm in Ha. rewrite Hp in Hb.
    destruct (row_lt_total order (val a) (val b)) as [?|[?|?]]; [congruence|congruence|auto].
  - by rewrite order_by_perm.
Qed.

Lemma bool_filter_split {A} (f g h : A → bool) (l : list A) : (∀ x, x ∈ l → f x = g x && h x) →
  bool_filter f l = bool_filter h (bool_filter g l).
Proof.
  unfold bool_filter. induction l as [|x l IH]; intros Hf; [done|].
  pose proof (IH (λ y Hy, Hf y (list_elem_of_further _ _ _ Hy))) as E. specialize (Hf x (list_elem_of_here _ _)).
  destruct (g x) eqn:Hg; [destruct (h x) eqn:Hh|]; simpl in Hf.
  - rewrite !filter_cons_True by done. by rewrite E.
  - rewrite (filter_cons_True (λ y, g y = true)), !filter_cons_False by congruence. done.
  - rewrite (filter_cons_False (λ x, g x = true)), filter_cons_False by congruence. done.
Qed.

(** The rows beyond one of the ordered rows are the ones behind it. *)
Lemma order_by_beyond rows pre x post (q : R → bool) : distinct_keys rows → NoDup rows →
  order_by rows = pre ++ x :: post → (∀ r, r ∈ rows → q r = row_lt order (val x) (val r)) →
  order_by (bool_filter q rows) = post.
Proof.
  intros Hd Hnd E Hq. pose proof (result_sorted rows) as Hs. pose proof (order_by_perm rows) as Hp.
  rewrite E in Hs, Hp. assert (∀ r, r ∈ pre ++ x :: post → r ∈ rows) as Hin by (intros r; by rewrite Hp).
  assert (NoDup (pre ++ x :: post)) as Hnd' by by rewrite Hp.
  apply StronglySorted_app in Hs as (Hpre & Hsp & Hspost). apply StronglySorted_inv in Hspost as [Hpost Hx].
  assert (bool_filter q (pre ++ x :: post) = post) as Hf.
  { rewrite bool_filter_app. assert (bool_filter q pre = []) as ->.
    { apply elem_of_nil_inv. intros r [Hr Hrp]%elem_of_bool_filter. rewrite Hq in Hr by (apply Hin; set_solver).
      assert (row_le r x) as Hle by (apply Hpre; set_solver). unfold row_le in Hle. congruence. }
    unfold bool_filter at 1. rewrite filter_cons_False.
    2:{ rewrite Hq by (apply Hin; set_solver). by rewrite row_lt_irrefl. }
    simpl. apply bool_filter_all. intros r Hr. rewrite Hq by (apply Hin; set_solver).
    rewrite Forall_forall in Hx. specialize (Hx r Hr). unfold row_le in Hx.
    destruct (row_lt_total order (val x) (val r)) as [?|[?|Hk]]; [done|congruence|].
    apply Hd in Hk; [|apply Hin; set_solver..]. subst r. apply NoDup_app in Hnd' as (_ & _ & Hnd').
    by apply NoDup_cons in Hnd' as [? _]. }
  apply order_by_unique.
  - intros a b Ha Hb. apply elem_of_bool_filter in Ha as [_ Ha]. apply elem_of_bool_filter in Hb as [_ Hb]. by apply Hd.
  - done.
  - rewrite <-Hf. unfold bool_filter. by rewrite Hp.
Qed.

End order.


(** ** Following the cursors *)

Section pages.
Context `{SqlOrder} `{CaseFold} `{Digest} `{MacBytes} `{CursorCodecOk}.
Context (raw : string → sqlval → row → option bool).
Context {R : Type} (val : R → row) (scan : R → string → goval).

Definition order_of (sorts : list Sort) (cols : list string) : list (bool * string) := zip (sDescending <$> sorts) cols.

(** What the database returns for a plan. *)
Definition exec (table : list R) (w : list clause) (sorts : list Sort) (cols : list string) (n : Z) : list R :=
  take (Z.to_nat n) (order_by val (order_of sorts cols) (bool_filter (λ r, selected raw w (val r)) table)).

Definition with_cursor (req : Request) (token : string) : Request :=
  MkRequest (rqQuery req) (rqFilters req) (rqSorts req) (MkPage (pgLimit (rqPage req)) token).

(** One listing: compile, run, build the page. *)
Definition list_once (signer : option Signer) (now : time) (col : Collection) (table : list R) (req : Request)
  : qres (list R * PageInfo) :=
  c ← Compile signer now col req;
  match where_of col req (cmCursor c) with
  | None => QErr (QueryErr "syntax error")
  | Some w =>
      let rows := exec table w (cmSorts c) (cmSortColumns c) (cmLimit c + 1) in
      listPage signer now col c ((λ r, (r, scan r <$> cmSortColumns c)) <$> rows)
  end.

(** The client's loop: list, and go on with the cursor while there is more;
    [clock i] is the time of the [i]-th listing. *)
Fixpoint pages (fuel : nat) (signer : option Signer) (clock : nat → time) (i : nat) (col : Collection)
    (table : list R) (req : Request) (token : string) : qres (list R) :=
  match fuel with
  | O => QErr (QueryErr "out of fuel")
  | S fuel' =>
      '(rows, info) ← list_once signer (clock i) col table (with_cursor req token);
      if piHasMore info then rest ← pages fuel' signer clock (S i) col table req (piNextCursor info); QOk (rows ++ rest)
      else QOk rows
  end.

Context (s : Signer) (clock : nat → time) (col : Collection) (table : list R) (req : Request).

Let sorts := effectiveSorts col req.
Let cols := sortColumns col sorts.
Let fp := fingerprint (cName col) (TrimSpace (rqQuery req)) (rqFilters req) sorts.

(** The sort columns of a row are not null, and the driver's values for them
    are text a cursor can carry. *)
Definition row_ok (r : R) : Prop :=
  Forall (λ x, ∃ v, val r (fColumn (field_or_zero (cFields col) (sField x))) = Some v ∧
                    scans (fType (field_or_zero (cFields col) (sField x))) v
                      (scan r (fColumn (field_or_zero (cFields col) (sField x)))) ∧
                    valid_utf8 (FormatSortValue (scan r (fColumn (field_or_zero (cFields col) (sField x))))) = true)
    (effectiveSorts col req).

Definition cursor_values (r : R) : list string := FormatSortValue <$> (scan r <$> cols).

Lemma cursor_values_ok r : row_ok r →
  ∃ vs, keyset_values (cFields col) sorts (cursor_values r) = Some vs ∧ key_of cols (val r) = Some vs ∧
        Forall (λ x, valid_utf8 x = true) (cursor_values r) ∧ length (cursor_values r) = length sorts.
Proof.
  unfold row_ok, cursor_values, keyset_values, key_of, cols, sortColumns. fold sorts. clearbody sorts.
  intros Hr. induction Hr as [|x l (v & Hv & Hs & Hu) Hl IH]; [by exists []|].
  destruct IH as (vs & Hk & Hkey & Hf & Hlen). exists (v :: vs).
  rewrite !fmap_cons. cbn [zip zip_with mapM].
  rewrite (sort_value_roundtrip _ _ _ Hs), Hv. cbn [mbind option_bind].
  split_and!; [by rewrite Hk|by rewrite Hkey|by constructor|]. simpl. f_equal. exact Hlen.
Qed.

Lemma key_of_all (cs : list string) (r : row) vs : key_of cs r = Some vs → Forall2 (λ c v, r c = Some v) cs vs.
Proof. apply mapM_Some_1. Qed.

(** On rows without nulls the order of the rows is the order of the keys. *)
Lemma row_lt_key (ds : list bool) cs (a b : row) xs ys : length ds = length cs →
  key_of cs a = Some xs → key_of cs b = Some ys → row_lt (zip ds cs) a b = key_lt ds xs ys.
Proof.
  intros Hl Ha%key_of_all Hb%key_of_all. revert ds ys Hl Hb.
  induction Ha as [|c x cs xs Hx Ha IH]; intros [|d ds] ys Hl Hb; try done.
  inversion_clear Hb as [|? y ? ys' Hy Hb']. simpl. rewrite Hx, Hy. simpl.
  rewrite (IH ds ys') by (try done; simpl in Hl; lia). f_equal. f_equal. apply bool_decide_ext. naive_solver.
Qed.

Hypothesis secret_set : sgSecret s ≠ "".
Hypothesis plain : valid_utf8 (cName col) = true ∧ ∀ q fs ss, valid_utf8 (fingerprint (cName col) q fs ss) = true.
Hypothesis cursors_live : ∀ i, (Unix (clock (S i)) ≤ Unix (clock i + sgttl s))%Z.
Hypothesis rows_ok : Forall row_ok table.
Hypothesis rows_distinct : NoDup table ∧ distinct_keys val (order_of sorts cols) table.
Hypothesis limit_pos : (0 ≤ pgLimit (rqPage req))%Z.
Hypothesis ops_known : known_ops col.

(** The cursor a page ends with, as the next listing reads it. *)
Definition cursor_at (i : nat) (r : R) : CursorPayload :=
  MkCursorPayload 1 (cName col) fp (cursor_values r) (Unix (clock i + sgttl s)).

Lemma next_cursor i c r : r ∈ table → cmFingerprint c = fp →
  ∃ token, NextCursor (Some s) (clock i) col c (cursor_values r) = QOk token ∧
    cursorFor (Some s) (clock (S i)) col fp (length sorts) token = QOk (Some (cursor_at i r)).
Proof.
  intros Hr Hfp. rewrite Forall_forall in rows_ok. destruct (cursor_values_ok r (rows_ok _ Hr)) as (vs & _ & _ & Hu & Hlen).
  simpl. rewrite Hfp. set (p := MkCursorPayload 0 (cName col) fp (cursor_values r) 0).
  destruct (Verify_Sign s (clock i) p (clock (S i))) as (token & Hsign & Hne & Hver); [done| |].
  { split_and!; [apply plain|apply plain|done]. }
  exists token. split; [done|]. unfold cursorFor. rewrite bool_decide_eq_false_2 by done. rewrite Hver.
  assert (expired (stamped s (clock i) p) (clock (S i)) = false) as ->.
  { unfold expired, stamped. cbn [cpExp p]. rewrite (bool_decide_eq_true_2 (0 = 0)%Z) by done.
    specialize (cursors_live i). rewrite (bool_decide_eq_false_2 (Unix (clock i + sgttl s) < Unix (clock (S i)))%Z), andb_false_r by lia. done. }
  simpl. rewrite !bool_decide_eq_true_2 by done. done.
Qed.

Hypothesis accepted : ∃ c, Compile (Some s) (clock 0) col (with_cursor req "") = QOk c.

Lemma start_ok : valid_request col (with_cursor req "") ∧ sorts ≠ [] ∧ can_search col (rqQuery req).
Proof. apply Compile_ok in accepted as (Hv & Hs & Hc & _); [|done]. by split_and!. Qed.

Lemma listing_compiles i token cur w : cursorFor (Some s) (clock i) col fp (length sorts) token = QOk cur →
  where_of col req cur = Some w →
  ∃ c, Compile (Some s) (clock i) col (with_cursor req token) = QOk c ∧ cmCursor c = cur ∧ cmSorts c = sorts ∧
       cmSortColumns c = cols ∧ cmLimit c = limit_of req ∧ cmFingerprint c = fp.
Proof.
  intros Hcur Hw. destruct start_ok as (Hv & Hs & Hcs).
  destruct (proj2 (Compile_ok (Some s) (clock i) col (with_cursor req token) ops_known)) as [c Hc].
  { split_and!; [done|done|done|]. exists cur. split; [exact Hcur|].
    unfold where_of in Hw. destruct (filter_clauses _ _); [|done]. cbn [mbind option_bind] in Hw.
    destruct (keyset_clauses _ _ _ _) as [ks|] eqn:E; [|done]. by exists ks. }
  exists c. destruct (Compile_renders _ _ _ _ _ Hc) as (w' & _ & Ec).
  split; [done|]. split; [|rewrite Ec; by split_and!].
  clear Ec. unfold Compile in Hc. apply step_ok in Hc as [_ Hc]. apply step_ok in Hc as [_ Hc].
  change (effectiveSorts col (with_cursor req token)) with sorts in Hc. fold cols fp in Hc.
  apply bind_ok in Hc as (cur' & Hcur' & Hc).
  assert (cur' = cur) as -> by (change (cursorFor (Some s) (clock i) col fp (length sorts) token = QOk cur') in Hcur'; congruence).
  apply bind_ok in Hc as ([w1 a1] & _ & Hc). apply bind_ok in Hc as ([w2 a2] & _ & Hc).
  apply bind_ok in Hc as ([w3 a3] & _ & Hc). by injection Hc as <-.
Qed.

Definition page_size : nat := Z.to_nat (limit_of req).

Lemma page_size_pos : 0 < page_size.
Proof. unfold page_size, limit_of, DefaultLimit. case_bool_decide; lia. Qed.

Lemma limit_of_nat : limit_of req = Z.of_nat page_size.
Proof. unfold page_size, limit_of, DefaultLimit. case_bool_decide; lia. Qed.

(** A listing that starts behind some of the result returns the next page of
    it and, when there is more, a cursor for the last row of the page. *)
Lemma list_once_ok i token cur w rest : cursorFor (Some s) (clock i) col fp (length sorts) token = QOk cur →
  where_of col req cur = Some w →
  order_by val (order_of sorts cols) (bool_filter (λ r, selected raw w (val r)) table) = rest →
  ∃ next, list_once (Some s) (clock i) col table (with_cursor req token) =
      QOk (take page_size rest, MkPageInfo next (bool_decide (page_size < length rest)%nat)) ∧
    (page_size < length rest → ∀ r, last (take page_size rest) = Some r →
      cursorFor (Some s) (clock (S i)) col fp (length sorts) next = QOk (Some (cursor_at i r))).
Proof.
  intros Hcur Hw Hrest. destruct (listing_compiles _ _ _ _ Hcur Hw) as (c & Hc & Ecur & Es & Ecols & El & Efp).
  unfold list_once. rewrite Hc. cbn [mbind qres_bind]. rewrite Ecur.
  change (where_of col (with_cursor req token) cur) with (where_of col req cur). rewrite Hw, Es, Ecols. unfold exec.
  rewrite Hrest. unfold listPage. rewrite El, limit_of_nat, Nat2Z.id.
  replace (Z.to_nat (Z.of_nat page_size + 1)) with (S page_size) by lia.
  rewrite <-fmap_take, take_take, Nat.min_l by lia. rewrite length_fmap, length_take, fmap_last.
  assert (bool_decide (Z.of_nat page_size < Z.of_nat (S page_size `min` length rest))%Z =
          bool_decide (page_size < length rest)%nat) as -> by (apply bool_decide_ext; lia).
  assert (((λ r, (r, scan r <$> cols)) <$> take page_size rest).*1 = take page_size rest) as ->
    by (rewrite <-list_fmap_compose; apply list_fmap_id).
  destruct (last (take page_size rest)) as [r|] eqn:Hlast; cbn [fmap option_fmap option_map].
  2:{ exists "". split; [done|]. intros _ r [=]. }
  assert (r ∈ table) as Hr.
  { apply last_Some_elem_of, elem_of_take in Hlast as (k & Hk & _). apply list_elem_of_lookup_2 in Hk.
    rewrite <-Hrest, order_by_perm in Hk. by apply elem_of_bool_filter in Hk as [_ Hk]. }
  assert (bool_decide (FormatSortValue <$> (scan r <$> cols) = []) = false) as ->.
  { apply bool_decide_eq_false_2. destruct start_ok as (_ & Hs & _). unfold cols, sortColumns. by destruct sorts. }
  rewrite andb_true_r. destruct (next_cursor i c r Hr Efp) as (tok & Htok & Hnext).
  unfold cursor_values in Htok. rewrite Htok. simpl.
  case_bool_decide as Hmore; [|exists ""; split; [done|lia]].
  exists tok. split; [done|]. by intros _ r' [= <-].
Qed.

(** The whole result: what one listing without a limit would return. *)
Definition matching (w : list clause) : list R := bool_filter (λ r, selected raw w (val r)) table.

Lemma start_where : ∃ w0, where_of col req None = Some w0.
Proof.
  destruct accepted as [c Hc]. destruct (Compile_renders _ _ _ _ _ Hc) as (w & Hw & _).
  change (where_of col (with_cursor req "") (cmCursor c)) with (where_of col req (cmCursor c)) in Hw.
  unfold where_of in *. destruct (filter_clauses _ _) as [fs|]; [|done]. by eexists.
Qed.

(** Behind a row of the result, the keyset predicate selects what follows it. *)
Lemma behind_where w0 i pre r rest : where_of col req None = Some w0 →
  order_by val (order_of sorts cols) (matching w0) = pre ++ r :: rest →
  ∃ w, where_of col req (Some (cursor_at i r)) = Some w ∧
       order_by val (order_of sorts cols) (matching w) = rest.
Proof.
  intros Hw0 E. assert (r ∈ matching w0) as Hrm.
  { rewrite <-(order_by_perm val (order_of sorts cols)), E. set_solver. }
  assert (r ∈ table) as Hr by by apply elem_of_bool_filter in Hrm as [_ ?].
  pose proof rows_ok as Hok. rewrite Forall_forall in Hok.
  destruct (cursor_values_ok r (Hok r Hr)) as (vs & Hk & Hkey & _ & Hlen).
  assert (∃ w, where_of col req (Some (cursor_at i r)) = Some w) as [w Hw].
  { unfold where_of in *. destruct (filter_clauses _ _) as [fs|]; [|done]. cbn [mbind option_bind] in *.
    fold sorts cols. unfold keyset_clauses. cbn [cpSortValues cursor_at]. rewrite Hk. by eexists. }
  exists w. split; [done|].
  assert (∀ r', r' ∈ table → selected raw w (val r') = selected raw w0 (val r') && row_lt (order_of sorts cols) (val r) (val r'))
    as Hsel.
  { intros r' Hr'. destruct (cursor_values_ok r' (Hok r' Hr')) as (xs & _ & Hkey' & _ & _).
    apply eq_bool_prop_intro. rewrite andb_True, !Is_true_true.
    rewrite (where_of_selects raw col req (Some (cursor_at i r)) w (val r') xs Hlen Hw Hkey').
    rewrite (where_of_selects raw col req None w0 (val r') xs I Hw0 Hkey').
    assert (length (sDescending <$> sorts) = length cols) as Hl by (unfold cols, sortColumns; by rewrite !length_fmap).
    unfold order_of. rewrite (row_lt_key _ _ _ _ _ _ Hl Hkey Hkey').
    unfold beyond. fold sorts. cbn [cpSortValues cursor_at]. rewrite Hk. naive_solver. }
  assert (matching w = bool_filter (λ r', row_lt (order_of sorts cols) (val r) (val r')) (matching w0)) as ->.
  { by apply bool_filter_split. }
  eapply order_by_beyond; [| |exact E|done].
  - intros a b Ha Hb. apply elem_of_bool_filter in Ha as [_ Ha]. apply elem_of_bool_filter in Hb as [_ Hb].
    by apply rows_distinct.
  - apply NoDup_filter, rows_distinct.
Qed.

Lemma pages_behind w0 fuel i token cur w pre rest : where_of col req None = Some w0 →
  order_by val (order_of sorts cols) (matching w0) = pre ++ rest →
  cursorFor (Some s) (clock i) col fp (length sorts) token = QOk cur → where_of col req cur = Some w →
  order_by val (order_of sorts cols) (matching w) = rest → length rest < fuel →
  pages fuel (Some s) clock i col table req token = QOk rest.
Proof.
  intros Hw0. revert i token cur w pre rest. induction fuel as [|fuel IH]; intros i token cur w pre rest E Hcur Hw Hrest Hf; [lia|].
  simpl. destruct (list_once_ok i token cur w rest Hcur Hw Hrest) as (next & Hl & Hnext). rewrite Hl. simpl.
  pose proof page_size_pos as Hpos. case_bool_decide as Hmore; [|by rewrite take_ge by lia].
  destruct (last (take page_size rest)) as [r|] eqn:Hlast.
  2:{ apply last_None in Hlast. assert (length (take page_size rest) = 0) as Hz by by rewrite Hlast.
      rewrite length_take in Hz. lia. }
  apply last_Some in Hlast as [pre' Hpre'].
  assert (order_by val (order_of sorts cols) (matching w0) = (pre ++ pre') ++ r :: drop page_size rest) as E'.
  { rewrite E, <-(take_drop page_size rest) at 1. rewrite Hpre', <-!app_assoc. done. }
  destruct (behind_where w0 i _ r _ Hw0 E') as (w' & Hw' & Hord).
  rewrite (IH (S i) next (Some (cursor_at i r)) w' (pre ++ pre' ++ [r]) (drop page_size rest)).
  - simpl. by rewrite take_drop.
  - by rewrite E', <-!app_assoc.
  - by apply Hnext.
  - done.
  - done.
  - rewrite length_drop. lia.
Qed.


End pages.

End paging.
