(* ===== verification/Registry.v ===== *)
(** * The registered collections and concrete searches

    The descriptors of [admin/query/descriptors.go] against what the compiler
    and the page loop of [admin/store/store.go] assume of them, and the theorems
    about searches at concrete inputs: a clock format, a MAC, a codec, a value
    order and a case folding that satisfy the assumptions. *)
From stdpp Require Import sorting.
From S2P Require Import Prelude Policy Domain Text Strings AdminQuery QuerySpec Plans Paging Descriptors.

(** ** Well-formed descriptors *)

Definition known_op (op : Op) : bool := match op with OpUnknown _ => false | _ => true end.
Definition text_op (op : Op) : bool := bool_decide (op = OpContains) || bool_decide (op = OpPrefix).

Definition wf_field (f : Field) : bool :=
  forallb known_op (fFilterOps f) && negb (bool_decide (fType f = TypeUnknown)) &&
  (bool_decide (fType f = TypeString) || bool_decide (fType f = TypeJSON) || forallb (λ op, negb (text_op op)) (fFilterOps f)) &&
  (negb (fPK f) || fSortable f).

(** Distinct names, a sortable primary key, sortable default sorts, and a select
    list in which the text [" FROM "] does not occur. *)
Definition wf_collection (col : Collection) : bool :=
  bool_decide (NoDup (fName <$> cFields col)) && forallb wf_field (cFields col) &&
  existsb fPK (cFields col) &&
  forallb (λ s, from_option fSortable false (fieldByName (cFields col) (sField s))) (cDefaultSorts col) &&
  bool_decide (split_on " FROM " (cSelect col +:+ " FROM") = None).

Lemma registry_wf : forallb wf_collection NewRegistry_cols = true.
Proof. vm_compute. reflexivity. Qed.

Lemma cut_prefix_more p s t : cut_prefix p s = None → String.length p ≤ String.length s → cut_prefix p (s +:+ t) = None.
Proof.
  revert s. induction p as [|a p IH]; intros s; [done|]. destruct s as [|b s]; simpl; [lia|].
  destruct (Ascii.eqb a b); [|done]. intros Hc Hl. apply IH; [done|lia].
Qed.
Lemma cut_prefix_app p t : cut_prefix p (p +:+ t) = Some t.
Proof. by apply cut_prefix_Some. Qed.
Lemma length_append s t : String.length (s +:+ t) = String.length s + String.length t.
Proof. induction s as [|c s IH]; [done|]. simpl. by f_equal. Qed.
Lemma append_assoc (s t u : string) : (s +:+ t) +:+ u = s +:+ t +:+ u.
Proof.
  induction s as [|c s IH]; [done|]. change (String c ((s +:+ t) +:+ u) = String c (s +:+ t +:+ u)). by rewrite IH.
Qed.

Lemma split_on_step sep c s : split_on sep (String c s) =
  match cut_prefix sep (String c s) with
  | Some rest => Some ("", rest)
  | None => '(l, r) ← split_on sep s; Some (String c l, r)
  end.
Proof. done. Qed.

(** The split falls on the separator that follows a text free of it. *)
Lemma split_on_from a b : split_on " FROM " (a +:+ " FROM") = None → split_on " FROM " (a +:+ " FROM " +:+ b) = Some (a, b).
Proof.
  induction a as [|c a IH]; intros Hn; [done|].
  change (String c a +:+ " FROM" ) with (String c (a +:+ " FROM")) in Hn. rewrite split_on_step in Hn.
  destruct (cut_prefix " FROM " (String c (a +:+ " FROM"))) eqn:Hc; [done|].
  destruct (split_on " FROM " (a +:+ " FROM")) as [[l r]|] eqn:Hs; [done|].
  change (String c a +:+ " FROM " +:+ b) with (String c (a +:+ " FROM " +:+ b)). rewrite split_on_step.
  assert (String c (a +:+ " FROM " +:+ b) = String c (a +:+ " FROM") +:+ (" " +:+ b)) as E.
  { change (String c (a +:+ " FROM" +:+ (" " +:+ b)) = String c ((a +:+ " FROM") +:+ (" " +:+ b))).
    by rewrite append_assoc. }
  rewrite E, cut_prefix_more by (try done; simpl; rewrite length_append; simpl; lia).
  by rewrite IH.
Qed.

Lemma wf_parts col : wf_collection col = true →
  NoDup (fName <$> cFields col) ∧ Forall (λ f, wf_field f = true) (cFields col) ∧ (∃ f, f ∈ cFields col ∧ fPK f = true) ∧
  split_on " FROM " (cSelect col +:+ " FROM") = None.
Proof.
  unfold wf_collection. rewrite !andb_true_iff, !bool_decide_eq_true, forallb_elem, existsb_exists.
  intros ((((Hn & Hf) & (f & Hin & Hpk)) & _) & Hs). rewrite Forall_forall. split_and!; try done.
  exists f. by rewrite list_elem_of_In.
Qed.

Lemma wf_known_ops col : wf_collection col = true → known_ops col.
Proof.
  intros (_ & Hf & _)%wf_parts f name Hin Hop. rewrite Forall_forall in Hf. specialize (Hf f Hin).
  unfold wf_field in Hf. rewrite !andb_true_iff, forallb_elem in Hf. destruct Hf as (((Hk & _) & _) & _).
  by apply Hk in Hop.
Qed.

Lemma fieldByName_unique fields f : NoDup (fName <$> fields) → f ∈ fields → fieldByName fields (fName f) = Some f.
Proof.
  unfold fieldByName, bool_filter. induction fields as [|g fields IH]; intros Hn Hin; [by apply elem_of_nil in Hin|].
  apply NoDup_cons in Hn as [Hg Hn]. apply elem_of_cons in Hin as [->|Hin].
  - rewrite filter_cons_True by (by apply bool_decide_eq_true). assert (filter (λ x, bool_decide (fName x = fName g) = true) fields = []) as ->.
    { apply elem_of_nil_inv. intros x [Hx Hin]%list_elem_of_filter. apply bool_decide_eq_true in Hx. apply Hg.
      rewrite <-Hx. by apply list_elem_of_fmap_2. }
    done.
  - rewrite filter_cons_False; [by apply IH|]. rewrite bool_decide_eq_true. intros E. apply Hg. rewrite E.
    by apply list_elem_of_fmap_2.
Qed.

Lemma containsSort_elem sorts name : containsSort sorts name = true ↔ name ∈ sField <$> sorts.
Proof.
  unfold containsSort. rewrite existsb_exists, list_elem_of_fmap. setoid_rewrite bool_decide_eq_true.
  setoid_rewrite <-list_elem_of_In. naive_solver.
Qed.

Lemma tie_breakers pks sorts x : x ∈ sField <$> sorts ∨ x ∈ sField <$> pks →
  x ∈ sField <$> foldl (λ acc pk, if containsSort acc (sField pk) then acc else acc ++ [pk]) sorts pks.
Proof.
  revert sorts. induction pks as [|pk pks IH]; intros sorts Hx; simpl.
  - destruct Hx as [?|Hx]; [done|by apply elem_of_nil in Hx].
  - apply IH. destruct Hx as [Hx|Hx].
    + left. destruct (containsSort sorts (sField pk)); [done|]. rewrite fmap_app. set_solver.
    + apply elem_of_cons in Hx as [->|Hx]; [left|by right].
      destruct (containsSort sorts (sField pk)) eqn:E; [by apply containsSort_elem|]. rewrite fmap_app. set_solver.
Qed.

(** The primary key is part of every sort key. *)
Lemma pk_in_sorts col req f : wf_collection col = true → f ∈ cFields col → fPK f = true →
  fColumn f ∈ sortColumns col (effectiveSorts col req).
Proof.
  intros Hwf Hin Hpk. destruct (wf_parts _ Hwf) as (Hn & Hf & _). rewrite Forall_forall in Hf.
  assert (fSortable f = true) as Hsort.
  { specialize (Hf f Hin). unfold wf_field in Hf. rewrite Hpk in Hf. simpl in Hf.
    by apply andb_true_iff in Hf as [_ ?]. }
  assert (fName f ∈ sField <$> effectiveSorts col req) as Hs.
  { apply tie_breakers. right. unfold pkSorts. rewrite <-list_fmap_compose. apply list_elem_of_fmap. exists f.
    split; [done|]. apply elem_of_bool_filter. by rewrite Hpk, Hsort. }
  apply list_elem_of_fmap in Hs as (s & E & Hs). unfold sortColumns. apply list_elem_of_fmap. exists s. split; [|done].
  unfold field_or_zero. rewrite <-E, fieldByName_unique by done. done.
Qed.

Section registry.
Context `{GoTime} `{Mac} `{CursorCodec} `{Digest}.

(** The statement of a listing: the sort columns follow the data columns. *)
Lemma injected_sorts col signer now req c : wf_collection col = true → Compile signer now col req = QOk c →
  ∃ rest, cmSQL c = "SELECT " +:+ cSelect col +:+ " FROM " +:+ rest ∧
    injectSortSelect c =
      ("SELECT " +:+ cSelect col +:+ ", " +:+
       Join ", " (imap (λ i x, "(" +:+ x +:+ ") AS __sk" +:+ pretty (Z.of_nat i)) (cmSortColumns c)) +:+ " FROM " +:+ rest,
       Z.of_nat (length (cmSortColumns c))).
Proof.
  intros Hwf Hc. destruct (wf_parts _ Hwf) as (_ & _ & (pk & Hpk & Hpk') & Hsel).
  assert (sortColumns col (effectiveSorts col req) ≠ []) as Hne.
  { intros E. pose proof (pk_in_sorts col req pk Hwf Hpk Hpk') as Hx. rewrite E in Hx. by apply elem_of_nil in Hx. }
  destruct (Compile_renders _ _ _ _ _ Hc) as (w & _ & E). rewrite E.
  unfold render, statement. eexists. split; [done|]. unfold injectSortSelect. cbn [cmSQL cmSortColumns].
  rewrite cut_prefix_app, bool_decide_eq_false_2 by done. rewrite split_on_from by done. by rewrite length_imap.
Qed.

Lemma registered_wf name col : RegistryGet name = Some col → wf_collection col = true.
Proof.
  unfold RegistryGet. intros Hl%last_Some_elem_of. apply elem_of_bool_filter in Hl as [_ Hin].
  pose proof registry_wf as Hall. rewrite forallb_elem in Hall. by apply Hall.
Qed.

Definition blank_request : Request := MkRequest "" [] [] (MkPage 0 "").

(** C31: every collection of the registry is found under its name and fits the
    code that uses it: a request with nothing set compiles, the sort key of an
    accepted request contains the collection's primary key, so that it tells
    rows apart, and the statement the listing derives from the compiled one has
    the sort columns behind the data columns, in the outer select list, one for
    each. *)
Theorem registry_sound col signer now : col ∈ NewRegistry_cols →
  RegistryGet (cName col) = Some col ∧ (∃ c, Compile signer now col blank_request = QOk c) ∧
  ∀ req c, Compile signer now col req = QOk c →
    (∃ f, f ∈ cFields col ∧ fPK f = true) ∧
    (∀ f, f ∈ cFields col → fPK f = true → fColumn f ∈ cmSortColumns c) ∧
    ∃ rest, cmSQL c = "SELECT " +:+ cSelect col +:+ " FROM " +:+ rest ∧
      injectSortSelect c =
        ("SELECT " +:+ cSelect col +:+ ", " +:+
         Join ", " (imap (λ i x, "(" +:+ x +:+ ") AS __sk" +:+ pretty (Z.of_nat i)) (cmSortColumns c)) +:+ " FROM " +:+ rest,
         Z.of_nat (length (cmSortColumns c))).
Proof.
  intros Hcol. pose proof registry_wf as Hall. rewrite forallb_elem in Hall. specialize (Hall _ Hcol).
  destruct (wf_parts _ Hall) as (Hn & _ & (pk & Hpk & Hpk') & Hsel).
  assert (∀ req, sortColumns col (effectiveSorts col req) ≠ []) as Hne.
  { intros req E. pose proof (pk_in_sorts col req pk Hall Hpk Hpk') as Hx. rewrite E in Hx. by apply elem_of_nil in Hx. }
  split_and!.
  - assert (Forall (λ c, RegistryGet (cName c) = Some c) NewRegistry_cols) as Hr by (repeat constructor).
    rewrite Forall_forall in Hr. auto.
  - apply Compile_ok; [by apply wf_known_ops|]. split_and!.
    + split; [done|]. split; [simpl; lia|]. split; [simpl; lia|]. split; [done|]. by split; constructor.
    + intros E. apply (Hne blank_request). by rewrite E.
    + by left.
    + by exists None.
  - intros req c Hc. split_and!; [by exists pk| |by eapply injected_sorts].
    destruct (Compile_renders _ _ _ _ _ Hc) as (w & _ & E). rewrite E. intros f. by apply pk_in_sorts.
Qed.

End registry.

(** ** Concrete parameters *)

Module Demo.

#[global] Instance CursorPayload_eq_dec : EqDecision CursorPayload.
Proof. solve_decision. Defined.
#[global] Instance CursorPayload_countable : Countable CursorPayload :=
  inj_countable' (λ p, (cpV p, cpCollection p, cpFingerprint p, cpSortValues p, cpExp p))
    (λ '(v, c, f, s, e), MkCursorPayload v c f s e) ltac:(by intros []).

#[global] Instance clock_format : GoTime := {| ParseTime := ParseInt; FormatTime := λ t, pretty t |}.
#[global] Instance mac : Mac.
Proof. refine {| hmac := λ _ _, replicate 32 7%Z |}. done. Defined.
#[global] Instance mac_bytes : MacBytes.
Proof. intros s b. apply Forall_replicate. lia. Qed.

(** A number as bytes, one a binary digit. *)
Fixpoint digits_of (p : positive) : list Z :=
  match p with xH => [1%Z] | xO p' => 0%Z :: digits_of p' | xI p' => 2%Z :: digits_of p' end.
Fixpoint number_of (l : list Z) : option positive :=
  match l with
  | [] => None
  | b :: l' => if bool_decide (b = 1%Z) then Some xH else if bool_decide (b = 0%Z) then xO <$> number_of l' else xI <$> number_of l'
  end.
Lemma number_of_digits p : number_of (digits_of p) = Some p.
Proof. induction p as [p IH|p IH|]; simpl; rewrite ?IH; done. Qed.

#[global] Instance codec : CursorCodec :=
  {| marshalCursor := λ p, digits_of (encode p); unmarshalCursor := λ l, number_of l ≫= decode |}.
#[global] Instance codec_ok : CursorCodecOk.
Proof.
  split; simpl.
  - intros p. generalize (encode p). intros q. induction q as [q IH|q IH|]; simpl; repeat constructor; try done; lia.
  - intros p. by destruct (encode p).
  - intros p _. rewrite number_of_digits. simpl. apply decode_encode.
Qed.
#[global] Instance digest : Digest := λ _ _ _ _, "digest".

(** Values in the order of their bytes, type by type. *)
Definition order_code (x : sqlval) : list Z :=
  match x with VStr s => 0%Z :: bytes_of s | VInt z => [1; z]%Z | VBool b => [2; if b then 1 else 0]%Z | VTime t => [3; t]%Z end.
Fixpoint lex (a b : list Z) : bool :=
  match a, b with
  | [], [] => false
  | [], _ => true
  | _, [] => false
  | x :: a', y :: b' => (x <? y)%Z || (x =? y)%Z && lex a' b'
  end.
Lemma lex_irrefl a : lex a a = false.
Proof. induction a as [|x a IH]; [done|]. simpl. by rewrite Z.ltb_irrefl, IH, andb_false_r. Qed.
Lemma lex_trans a b c : lex a b = true → lex b c = true → lex a c = true.
Proof.
  revert b c. induction a as [|x a IH]; intros [|y b] [|z c]; try done. simpl.
  rewrite !orb_true_iff, !andb_true_iff, !Z.ltb_lt, !Z.eqb_eq. intros [?|[-> ?]] [?|[-> ?]]; [left; lia|auto|auto|eauto].
Qed.
Lemma lex_total a b : a ≠ b → lex a b = true ∨ lex b a = true.
Proof.
  revert b. induction a as [|x a IH]; intros [|y b] Hne; try (by auto). simpl.
  rewrite !orb_true_iff, !andb_true_iff, !Z.ltb_lt, !Z.eqb_eq. destruct (decide (x = y)) as [->|?]; [|lia].
  destruct (IH b) as [?|?]; [congruence|auto|auto].
Qed.
Lemma order_code_inj x y : order_code x = order_code y → x = y.
Proof.
  destruct x as [s|?|[]|?], y as [s'|?|[]|?]; simpl; try congruence. intros [= E].
  by rewrite <-(of_bytes_bytes_of s), <-(of_bytes_bytes_of s'), E.
Qed.
#[global] Instance value_order : SqlOrder.
Proof.
  refine {| sql_lt := λ x y, lex (order_code x) (order_code y) |}.
  - intros x. apply lex_irrefl.
  - intros x y z. apply lex_trans.
  - intros x y Hne. apply lex_total. intros E. by apply order_code_inj in E.
Defined.
#[global] Instance folding : CaseFold := λ c, c.
Definition no_raw : string → sqlval → row → option bool := λ _ _ _, None.

Definition signer : Signer := MkSigner "secret" 0.

(** Tenants, with their columns. *)
Definition tenant : Type := string * string.
Definition tenant_row (r : tenant) : row :=
  λ c, if bool_decide (c = "t.id") then Some (VStr r.1) else if bool_decide (c = "t.name") then Some (VStr r.2) else None.
Definition tenant_scan (r : tenant) : string → goval :=
  λ c, if bool_decide (c = "t.id") then GoString r.1 else if bool_decide (c = "t.name") then GoString r.2 else GoNil.
Definition tenants : list tenant := [("u2", "acme"); ("u1", "beta"); ("u4", "none"); ("u3", "delta")].

(** Tenants with an [a] in their name, by name, one to a page. *)
Definition search_a : Request :=
  MkRequest "" [MkFilter "name" OpContains "a" []] [MkSort "name" false] (MkPage 1 "").

Example search_a_pages :
  pages no_raw tenant_row tenant_scan 5 (Some signer) (λ i, Z.of_nat i) 0 tenantsCollection tenants search_a "" =
  QOk [("u2", "acme"); ("u1", "beta"); ("u3", "delta")].
Proof. vm_compute. reflexivity. Qed.

Definition search_a_compiled : qres Compiled := Compile (Some signer) 0 tenantsCollection (with_cursor search_a "").


(** The compiled search of a request that the compiler accepts. *)
Definition compiled (req : Request) : Compiled :=
  match Compile None 0 tenantsCollection req with QOk c => c | QErr _ => MkCompiled "" [] 0 [] [] "" None end.

Definition search_q (q v : string) : Request := MkRequest q [MkFilter "name" OpPrefix v []] [] (MkPage 0 "").


Lemma query_text_fixed_witness :
  cmSQL (compiled (search_q "acme" "x")) = cmSQL (compiled (search_q "' OR 1=1 --" "'; DROP TABLE tenants")).
Proof.
  apply (query_text_fixed None 0 0 tenantsCollection (search_q "acme" "x") (search_q "' OR 1=1 --" "'; DROP TABLE tenants")).
  - split_and!; [done|done|]. by repeat constructor.
  - vm_compute. reflexivity.
  - vm_compute. reflexivity.
  - done.
Defined.

Lemma Compile_accepts_witness : known_ops tenantsCollection ∧
  ((∃ c, Compile None 0 tenantsCollection (search_q "acme" "x") = QOk c) ↔
   valid_request tenantsCollection (search_q "acme" "x") ∧
   effectiveSorts tenantsCollection (search_q "acme" "x") ≠ [] ∧ can_search tenantsCollection "acme" ∧
   ∃ cur, cursorFor None 0 tenantsCollection
            (fingerprint "tenants" "acme" (rqFilters (search_q "acme" "x")) (effectiveSorts tenantsCollection (search_q "acme" "x")))
            (length (effectiveSorts tenantsCollection (search_q "acme" "x"))) "" = QOk cur ∧
          is_Some (keyset_clauses (cFields tenantsCollection) (effectiveSorts tenantsCollection (search_q "acme" "x"))
            (sortColumns tenantsCollection (effectiveSorts tenantsCollection (search_q "acme" "x"))) cur)).
Proof.
  assert (known_ops tenantsCollection) as Hk by (apply wf_known_ops; reflexivity).
  split; [exact Hk|]. exact (Compile_accepts None 0 tenantsCollection (search_q "acme" "x") Hk).
Defined.

Lemma registry_sound_witness : tenantsCollection ∈ NewRegistry_cols ∧ RegistryGet "tenants" = Some tenantsCollection.
Proof.
  assert (tenantsCollection ∈ NewRegistry_cols) as Hin by (apply list_elem_of_In; by left).
  split; [exact Hin|]. exact (proj1 (registry_sound tenantsCollection None 0 Hin)).
Defined.

End Demo.
