(* ===== verification/Tunnel.v ===== *)
(** * The tunnel provider (package [provider/tunnel])

    [protocol.go], the signed control requests; [agent.go], the control API a
    user's machine serves over a local provider; [provider.go], the platform's
    provider that drives it.

    The agent's state is the world of its local provider and the flag of its
    lease.  One control request is a [HttpRequest] and its answer a
    [HttpResponse]; what the connection does to it and the two clocks are the
    argument [Wire].  The control URL is taken to be the agent's address without
    a path, so that the path of a request is the control path.  The context, the
    log and the client's timeout (a lost request) are not part of the state. *)
From S2P Require Import Prelude Policy Domain Text Store StoreRuns EventLog Loop Waits Batcher Tools Api.
From S2P Require Import ResourceStore OperatorTx ResourceWork Strings GoJson AdminQuery.

(** ** Protocol *)

Definition PathHealth : string := "/control/health".
Definition PathProvision : string := "/control/provision".
Definition PathStatus : string := "/control/status".
Definition PathEndpoint : string := "/control/endpoint".
Definition PathRestart : string := "/control/restart".
Definition PathTerminate : string := "/control/terminate".
Definition PathResources : string := "/control/resources".
Definition PathRevoke : string := "/control/revoke".

Definition SignatureWindow : Z := 300000000000.

(** What the signature is computed over. *)
Definition signed_message (path : string) (seconds : Z) (body : string) : list Z :=
  bytes_of path ++ [0%Z] ++ bytes_of (pretty seconds) ++ [0%Z] ++ bytes_of body.

Section protocol.
Context `{Mac}.

Definition Sign (secret path : string) (timestamp : time) (body : string) : string :=
  hexs (hmac secret (signed_message path (Unix timestamp) body)).

(** [None] is no error. *)
Definition VerifySignature (secret path timestampHeader signatureHeader body : string) (now : time) : option err :=
  if bool_decide (signatureHeader = "") then Some (ErrorText "tunnel: request is not signed")
  else match ParseInt (TrimSpace timestampHeader) with
       | None => Some (ErrorText "tunnel: request timestamp is not a unix time")
       | Some seconds =>
           let sent := (seconds * 1000000000)%Z in
           if bool_decide (now - sent > SignatureWindow)%Z || bool_decide (sent - now > SignatureWindow)%Z
           then Some (ErrorText "tunnel: request timestamp is outside the 5m0s window")
           else if negb (bool_decide (Sign secret path sent body = signatureHeader))
           then Some (ErrorText "tunnel: signature does not match")
           else None
       end.
End protocol.

(** *** Messages *)

Record ProvisionRequest := MkProvisionRequest { pqResourceID : ResourceID; pqSpec : DevEnvSpec; pqToken : string }.
Definition provision_json (q : ProvisionRequest) : json :=
  JObj [("resource_id", JStr (pqResourceID q)); ("spec", spec_json (pqSpec q)); ("token", JStr (pqToken q))].
Definition set_provision (k : string) (v : json) (q : ProvisionRequest) : option ProvisionRequest :=
  let '(MkProvisionRequest i s t) := q in
  if key_matches "resource_id" k then i ← set_string v i; Some (MkProvisionRequest i s t)
  else if key_matches "spec" k then s ← decode_struct set_spec s v; Some (MkProvisionRequest i s t)
  else if key_matches "token" k then t ← set_string v t; Some (MkProvisionRequest i s t)
  else Some q.

Record HandleRequest := MkHandleRequest { hqResourceID : ResourceID; hqHandle : option json }.
Definition handle_json (q : HandleRequest) : json :=
  JObj [("resource_id", JStr (hqResourceID q)); ("handle", raw (hqHandle q))].
Definition set_handle (k : string) (v : json) (q : HandleRequest) : option HandleRequest :=
  let '(MkHandleRequest i h) := q in
  if key_matches "resource_id" k then i ← set_string v i; Some (MkHandleRequest i h)
  else if key_matches "handle" k then Some (MkHandleRequest i (Some v))
  else Some q.

Record RestartRequest := MkRestartRequest {
  rqResourceID : ResourceID; rqHandle : option json; rqSpec : DevEnvSpec; rqToken : string }.
Definition restart_json (q : RestartRequest) : json :=
  JObj [("resource_id", JStr (rqResourceID q)); ("handle", raw (rqHandle q)); ("spec", spec_json (rqSpec q));
        ("token", JStr (rqToken q))].
Definition set_restart (k : string) (v : json) (q : RestartRequest) : option RestartRequest :=
  let '(MkRestartRequest i h s t) := q in
  if key_matches "resource_id" k then i ← set_string v i; Some (MkRestartRequest i h s t)
  else if key_matches "handle" k then Some (MkRestartRequest i (Some v) s t)
  else if key_matches "spec" k then s ← decode_struct set_spec s v; Some (MkRestartRequest i h s t)
  else if key_matches "token" k then t ← set_string v t; Some (MkRestartRequest i h s t)
  else Some q.

(** [ProvisionResponse]: a handle that is missing reads as [null]. *)
Definition handle_answer (h : json) : json := JObj [("handle", h)].
Definition set_handle_answer (k : string) (v : json) (h : json) : option json :=
  if key_matches "handle" k then Some v else Some h.

(** [StatusResponse] *)
Definition status_answer (st : ResourceState * string) : json :=
  JObj ([("state", JStr (ResourceState_text st.1))] ++ opt_field "message" st.2).
Definition set_status (k : string) (v : json) (st : string * string) : option (string * string) :=
  if key_matches "state" k then s ← set_string v st.1; Some (s, st.2)
  else if key_matches "message" k then m ← set_string v st.2; Some (st.1, m)
  else Some st.

(** [EndpointResponse] *)
Definition endpoint_answer (e : string) : json := JObj [("endpoint", JStr e)].
Definition set_endpoint (k : string) (v : json) (e : string) : option string :=
  if key_matches "endpoint" k then set_string v e else Some e.

(** [ResourcesResponse]: a nil slice is [null]. *)
Definition resources_answer (l : list string) : json :=
  JObj [("resources", match l with [] => JNull | _ => JArr (JStr <$> l) end)].
Definition set_resources (k : string) (v : json) (l : list string) : option (list string) :=
  if key_matches "resources" k then set_strings v l else Some l.

Record HealthResponse := MkHealthResponse { heStatus : string; heProvider : string; heConnectedAt : time; heRevoked : bool }.
Definition no_health : HealthResponse := MkHealthResponse "" "" 0 false.

Section messages.
Context `{GoTime}.

Definition health_json (h : HealthResponse) : json :=
  JObj ([("status", JStr (heStatus h)); ("provider", JStr (heProvider h)); ("connected_at", JStr (FormatTime (heConnectedAt h)))] ++
        (if heRevoked h then [("revoked", JBool true)] else [])).
Definition set_health (k : string) (v : json) (h : HealthResponse) : option HealthResponse :=
  let '(MkHealthResponse s p c r) := h in
  if key_matches "status" k then s ← set_string v s; Some (MkHealthResponse s p c r)
  else if key_matches "provider" k then p ← set_string v p; Some (MkHealthResponse s p c r)
  else if key_matches "connected_at" k then
    match v with
    | JNull => Some h
    | JStr x => c ← ParseTime x; Some (MkHealthResponse s p c r)
    | _ => None
    end
  else if key_matches "revoked" k then r ← set_bool v r; Some (MkHealthResponse s p c r)
  else Some h.
End messages.

(** ** The agent *)

Record HttpRequest := MkHttpRequest {
  htMethod : string; htPath : string; htAuthorization : string; htTimestamp : string; htSignature : string; htBody : string }.
Record HttpResponse := MkHttpResponse { hrStatus : Z; hrBody : string }.

(** [http.Error] *)
Definition httpError (status : Z) (msg : string) : HttpResponse := MkHttpResponse status (msg +:+ newline).

(** [agLister] is [ResourceLister], when the local provider implements it. *)
Record Agent (W : Type) := MkAgent {
  agProvider : ResourceProvider W;
  agLister : option (M W (list (ResourceID * list string)));
  agToken : string;
  agSecret : string;
  agEndpoint : option (string → string);
  agSince : time;
}.
Arguments agProvider {W}. Arguments agLister {W}. Arguments agToken {W}. Arguments agSecret {W}.
Arguments agEndpoint {W}. Arguments agSince {W}.

Record AgentState (W : Type) := MkAgentState { asWorld : W; asRevoked : bool }.
Arguments MkAgentState {W}. Arguments asWorld {W}. Arguments asRevoked {W}.

Definition maxBody : Z := 1048576.

Section agent.
Context `{Mac} `{JsonText} `{GoTime} {W : Type} (a : Agent W).

Definition writeJSON (v : json) : HttpResponse := MkHttpResponse 200 (marshal v +:+ newline).

Definition Revoke : M (AgentState W) unit := modify (λ s, MkAgentState (asWorld s) true).

Definition authorized (rq : HttpRequest) : bool :=
  let presented := default (htAuthorization rq) (cut_prefix "Bearer " (htAuthorization rq)) in
  negb (bool_decide (presented = "")) && bool_decide (presented = agToken a).

(** [None] is a body that is too large. *)
Definition readBody (rq : HttpRequest) : option string :=
  if bool_decide (Z.of_nat (String.length (htBody rq)) > maxBody)%Z then None else Some (htBody rq).

Definition health (rq : HttpRequest) : M (AgentState W) HttpResponse :=
  if negb (authorized rq) then mret (httpError 401 "unauthorized")
  else s ← get; mret (writeJSON (health_json (MkHealthResponse "ok" "tunnel_local" (agSince a) (asRevoked s)))).

Definition guard (now : time) (next : string → M (AgentState W) HttpResponse) (rq : HttpRequest)
  : M (AgentState W) HttpResponse :=
  if negb (authorized rq) then mret (httpError 401 "unauthorized")
  else match readBody rq with
       | None => mret (httpError 400 "unreadable body")
       | Some body =>
           match VerifySignature (agSecret a) (htPath rq) (htTimestamp rq) (htSignature rq) body now with
           | Some _ => mret (httpError 403 "signature required")
           | None =>
               s ← get;
               if asRevoked s && negb (bool_decide (htPath rq = PathRevoke)) then mret (httpError 410 "lease revoked")
               else next body
           end
       end.

(** A call of the local provider, and its answer. *)
Definition on_world {A} (m : M W A) : M (AgentState W) A :=
  λ s, let '(w, r) := m (asWorld s) in (MkAgentState w (asRevoked s), r).
Definition answered {A} (m : M W A) (answer : A → json) : M (AgentState W) HttpResponse :=
  r ← attempt (on_world m);
  mret match r with Ok x => writeJSON (answer x) | Err e => httpError 502 (err_text e) end.

(** [json.Unmarshal(body, &req)] *)
Definition unmarshal_into {A} (set : string → json → A → option A) (zero : A) (body : string) : option A :=
  j ← unmarshal body; decode_struct set zero j.
Definition with_request {A} (set : string → json → A → option A) (zero : A) (body : string)
    (k : A → M (AgentState W) HttpResponse) : M (AgentState W) HttpResponse :=
  match unmarshal_into set zero body with Some q => k q | None => mret (httpError 400 "bad request") end.

(** [uc.Resource] with some fields set. *)
Definition some_resource (id : ResourceID) (kind : ResourceKind) (spec handle : option json) : Resource :=
  MkResource id "" "" kind "" ResourceRequested spec handle "" "" "" 0 "" None 0 0 None None.
Definition handle_resource (h : option json) : Resource := some_resource "" "" None h.

Definition no_handle_request : HandleRequest := MkHandleRequest "" None.

Definition provision (body : string) : M (AgentState W) HttpResponse :=
  with_request set_provision (MkProvisionRequest "" no_spec "") body (λ q,
    answered (prProvision (agProvider a)
      (some_resource (pqResourceID q) ResourceKindDevEnv (Some (spec_json (pqSpec q))) None) (pqToken q)) handle_answer).

Definition status (body : string) : M (AgentState W) HttpResponse :=
  with_request set_handle no_handle_request body (λ q,
    answered (prStatus (agProvider a) (handle_resource (hqHandle q))) status_answer).

Definition endpoint (body : string) : M (AgentState W) HttpResponse :=
  with_request set_handle no_handle_request body (λ q,
    answered (prEndpoint (agProvider a) (handle_resource (hqHandle q)))
      (λ local, endpoint_answer match agEndpoint a with Some f => f local | None => local end)).

Definition restart (body : string) : M (AgentState W) HttpResponse :=
  with_request set_restart (MkRestartRequest "" None no_spec "") body (λ q,
    answered (prRestart (agProvider a)
      (some_resource (rqResourceID q) ResourceKindDevEnv (Some (spec_json (rqSpec q))) (rqHandle q)) (rqToken q)) handle_answer).

Definition terminate (body : string) : M (AgentState W) HttpResponse :=
  with_request set_handle no_handle_request body (λ q,
    answered (prTerminate (agProvider a) (handle_resource (hqHandle q))) (λ _, JObj [])).

Definition owned_by (id : ResourceID) (owned : list (ResourceID * list string)) : list string :=
  match head (bool_filter (λ o, bool_decide (o.1 = id)) owned) with Some o => o.2 | None => [] end.
Definition resources (body : string) : M (AgentState W) HttpResponse :=
  with_request set_handle no_handle_request body (λ q,
    match agLister a with
    | None => mret (writeJSON (resources_answer []))
    | Some list_owned => answered list_owned (λ owned, resources_answer (owned_by (hqResourceID q) owned))
    end).

(** The request is read as far as it can be. *)
Definition revoke (body : string) : M (AgentState W) HttpResponse :=
  let q := match unmarshal body with Some j => (fill_struct set_handle no_handle_request j).1 | None => no_handle_request end in
  _ ← Revoke;
  _ ← (match hqHandle q with
       | None | Some JNull => mret ()
       | Some h => ignore (on_world (prTerminate (agProvider a) (handle_resource (Some h))))
       end);
  mret (writeJSON (JObj [])).

(** The control API by path. *)
Definition handler (path : string) : option (string → M (AgentState W) HttpResponse) :=
  if bool_decide (path = PathProvision) then Some provision
  else if bool_decide (path = PathStatus) then Some status
  else if bool_decide (path = PathEndpoint) then Some endpoint
  else if bool_decide (path = PathRestart) then Some restart
  else if bool_decide (path = PathTerminate) then Some terminate
  else if bool_decide (path = PathResources) then Some resources
  else if bool_decide (path = PathRevoke) then Some revoke
  else None.

(** [Handler]: the routes of the mux. *)
Definition Handler (now : time) (rq : HttpRequest) : M (AgentState W) HttpResponse :=
  if bool_decide (htPath rq = PathHealth) then
    if bool_decide (htMethod rq = "GET") || bool_decide (htMethod rq = "HEAD") then health rq
    else mret (httpError 405 "Method Not Allowed")
  else match handler (htPath rq) with
       | Some next => if bool_decide (htMethod rq = "POST") then guard now next rq
                      else mret (httpError 405 "Method Not Allowed")
       | None => mret (httpError 404 "404 page not found")
       end.

End agent.

(** ** The provider *)

Record Config := MkConfig { cfControlURL : string; cfToken : string; cfSecret : string; cfTimeout : Z }.

Definition New (cfg : Config) : result Config :=
  if bool_decide (cfControlURL cfg = "") then Err (ErrorText "tunnel: a control URL is required")
  else if bool_decide (cfToken cfg = "") || bool_decide (cfSecret cfg = "")
  then Err (ErrorText "tunnel: a token and signing secret are required")
  else Ok (MkConfig (cfControlURL cfg) (cfToken cfg) (cfSecret cfg)
             (if bool_decide (cfTimeout cfg ≤ 0)%Z then 30000000000 else cfTimeout cfg)).

(** What the connection does to a request: it is answered, its answer is lost,
    or it never arrives; with the error of [client.Do]. *)
Inductive Link := LinkUp | LinkLost (e : string) | LinkDown (e : string).

(** The link, and the clocks of the platform and the agent. *)
Record Wire := MkWire { wrLink : Link; wrSent : time; wrSeen : time }.

(** The errors [errors.Is] tells apart. *)
Inductive call_err := ErrUnreachable (cause : string) | ErrRevoked | CallFailed (msg : string).
Definition call_error (e : call_err) : err :=
  match e with
  | ErrUnreachable c => ErrorText ("tunnel: the environment agent is unreachable: " +:+ c)
  | ErrRevoked => ErrorText "tunnel: the environment agent's lease was revoked"
  | CallFailed m => ErrorText m
  end.

Section provider.
Context `{Mac} `{JsonText} `{GoTime} {W : Type} (a : Agent W) (cfg : Config) (wr : Wire).

(** [client.Do] *)
Definition Do (rq : HttpRequest) : M (AgentState W) (string + HttpResponse) :=
  match wrLink wr with
  | LinkUp => r ← Handler a (wrSeen wr) rq; mret (inr r)
  | LinkLost e => _ ← Handler a (wrSeen wr) rq; mret (inl e)
  | LinkDown e => mret (inl e)
  end.

Definition bearer : string := "Bearer " +:+ cfToken cfg.

Definition control_request (path body : string) : HttpRequest :=
  MkHttpRequest "POST" path bearer (pretty (Unix (wrSent wr))) (Sign (cfSecret cfg) path (wrSent wr) body) body.

(** The agent's message behind a status that is not 200. *)
Definition call_detail (path : string) (r : HttpResponse) : string :=
  "tunnel: " +:+ path +:+ " returned HTTP " +:+ pretty (hrStatus r) +:+ ": " +:+ TrimSpace (String.substring 0 4096 (hrBody r)).

(** [call] with an [out]: what it decodes, starting from the zero value. *)
Definition call {A} (path : string) (in_ : json) (out : string → option A) : M (AgentState W) (call_err + A) :=
  resp ← Do (control_request path (marshal in_));
  mret match resp with
       | inl e => inl (ErrUnreachable e)
       | inr r =>
           if bool_decide (hrStatus r = 200)%Z then
             match out (hrBody r) with
             | Some x => inr x
             | None => inl (CallFailed ("tunnel: decode " +:+ path))
             end
           else if bool_decide (hrStatus r = 410)%Z then inl ErrRevoked
           else inl (CallFailed (call_detail path r))
       end.

(** [json.NewDecoder(resp.Body).Decode(out)]; a nil [out] reads nothing. *)
Definition decode_into {A} (set : string → json → A → option A) (zero : A) (body : string) : option A :=
  j ← decode_first body; decode_struct set zero j.
Definition no_out (body : string) : option unit := Some ().

Definition Health : M (AgentState W) (call_err + HealthResponse) :=
  resp ← Do (MkHttpRequest "GET" PathHealth bearer "" "" "");
  mret match resp with
       | inl e => inl (ErrUnreachable e)
       | inr r =>
           if negb (bool_decide (hrStatus r = 200)%Z) then inl (CallFailed ("tunnel: health returned HTTP " +:+ pretty (hrStatus r)))
           else match decode_into set_health no_health (hrBody r) with
                | Some h => inr h
                | None => inl (CallFailed "tunnel: decode health")
                end
       end.

Definition ValidateSpec (spec : option json) : option err :=
  match ParseDevEnvSpec spec with
  | Err e => Some e
  | Ok s => if bool_decide (dsName s = "") then Some (ErrorText "tunnel: spec.name is required") else None
  end.

(** [if err != nil { return err }] *)
Definition ok_or {A} (r : call_err + A) : M (AgentState W) A :=
  match r with inl e => throw (call_error e) | inr x => mret x end.

Definition Provision (r : Resource) (token : string) : M (AgentState W) json :=
  spec ← of_result (ParseDevEnvSpec (r_spec r));
  out ← call PathProvision (provision_json (MkProvisionRequest (r_id r) spec token)) (decode_into set_handle_answer JNull);
  ok_or out.

(** A state that is none of the constants has no counterpart here. *)
Definition status_of (st : string * string) : option (ResourceState * string) :=
  s ← ResourceState_of st.1; Some (s, st.2).
Definition Status (r : Resource) : M (AgentState W) (ResourceState * string) :=
  out ← call PathStatus (handle_json (MkHandleRequest "" (r_handle r)))
          (λ body, st ← decode_into set_status ("", "") body; status_of st);
  match out with
  | inl (ErrUnreachable _) => mret (ResourceSuspended, "the environment agent is unreachable")
  | inl ErrRevoked => mret (ResourceTerminated, "the environment agent's lease was revoked")
  | _ => ok_or out
  end.

Definition HealthCheck (r : Resource) : M (AgentState W) unit :=
  st ← Status r;
  if negb (bool_decide (st.1 = ResourceReady)) then throw (not_ready "tunnel" st) else mret ().

Definition Endpoint (r : Resource) : M (AgentState W) string :=
  out ← call PathEndpoint (handle_json (MkHandleRequest "" (r_handle r))) (decode_into set_endpoint "");
  e ← ok_or out;
  if bool_decide (e = "") then throw (ErrorText "tunnel: the agent published no endpoint") else mret e.

Definition Restart (r : Resource) (token : string) : M (AgentState W) json :=
  spec ← of_result (ParseDevEnvSpec (r_spec r));
  out ← call PathRestart (restart_json (MkRestartRequest (r_id r) (r_handle r) spec token)) (decode_into set_handle_answer JNull);
  ok_or out.

(** A lease that was revoked counts as done. *)
Definition unless_revoked {A} (dflt : A) (r : call_err + A) : M (AgentState W) A :=
  match r with inl ErrRevoked => mret dflt | _ => ok_or r end.

Definition Terminate (r : Resource) : M (AgentState W) unit :=
  out ← call PathTerminate (handle_json (MkHandleRequest "" (r_handle r))) no_out; unless_revoked () out.

Definition ListOwned : M (AgentState W) (list (ResourceID * list string)) := mret [].

Definition Resources (envID : ResourceID) : M (AgentState W) (list string) :=
  out ← call PathResources (handle_json (MkHandleRequest envID None)) (decode_into set_resources []); unless_revoked [] out.

Definition RevokeLease (h : option json) : M (AgentState W) unit :=
  out ← call PathRevoke (handle_json (MkHandleRequest "" h)) no_out; unless_revoked () out.

Definition tunnel_capabilities (supported : list string) : ProviderCapabilities := MkCapabilities "tunnel_local" supported ∅.
Definition Probe : M (AgentState W) ProviderCapabilities :=
  out ← Health;
  h ← ok_or out;
  if heRevoked h then throw (call_error ErrRevoked)
  else mret (tunnel_capabilities ["serves_tool_endpoint"; "enumerates_resources"; "tolerates_disconnect"; "restart_preserves_state"]).

(** The provider the service drives. *)
Definition tunnel_provider : ResourceProvider (AgentState W) := {|
  prKind := ResourceKindDevEnv;
  prValidateSpec := ValidateSpec;
  prProvision := Provision;
  prStatus := Status;
  prEndpoint := Endpoint;
  prRestart := Restart;
  prTerminate := Terminate;
  prAdopt := None;
|}.

End provider.
