(* ===== verification/TunnelSpec.v ===== *)
(** * What the tunnel promises

    Signatures verify within their window and cover path, time and body; an
    agent acts only on requests that carry its token and such a signature; a
    revoked agent does nothing but release; and with a working connection the
    tunnel provider behaves as the local provider of the agent. *)
From S2P Require Import Prelude Policy Domain Text Store StoreRuns EventLog Loop Waits Batcher Tools Api.
From S2P Require Import ResourceStore OperatorTx ResourceWork Strings GoJson AdminQuery Paging Tunnel.

(** ** Decimal text *)

(** Digits and the minus sign. *)
Definition decimal_byte (b : Z) : Prop := (45 ≤ b ≤ 57)%Z.

Lemma pretty_N_go_bytes x s : Forall decimal_byte (bytes_of s) → Forall decimal_byte (bytes_of (pretty_N_go x s)).
Proof.
  revert s. induction (N.lt_wf_0 x) as [x _ IH]; intros s Hs.
  destruct (decide (x = 0)%N) as [->|Hne]; [by rewrite pretty_N_go_0|]. rewrite pretty_N_go_step by lia.
  pose proof (N.div_lt x 10 ltac:(lia) ltac:(lia)) as Hlt. apply (IH _ Hlt). simpl. constructor; [|done].
  pose proof (N.mod_lt x 10 ltac:(lia)) as Hm. revert Hm. generalize (x mod 10)%N. intros d Hd.
  assert (d = 0 ∨ d = 1 ∨ d = 2 ∨ d = 3 ∨ d = 4 ∨ d = 5 ∨ d = 6 ∨ d = 7 ∨ d = 8 ∨ d = 9)%N as Hcases by lia.
  repeat destruct Hcases as [->|Hcases]; try subst d; by vm_compute.
Qed.
Lemma pretty_N_bytes (x : N) : Forall decimal_byte (bytes_of (pretty x)).
Proof. unfold pretty, pretty_N. case_decide; [by repeat constructor|]. apply pretty_N_go_bytes. constructor. Qed.
Lemma pretty_Z_bytes (z : Z) : Forall decimal_byte (bytes_of (pretty z)).
Proof.
  destruct z as [|p|p]; [by repeat constructor|apply (pretty_N_bytes (N.pos p))|].
  change (pretty (Z.neg p)) with (String (Ascii.ascii_of_nat 45) (pretty (N.pos p))). simpl. constructor; [by vm_compute|apply pretty_N_bytes].
Qed.

(** Text of visible ASCII characters has no space to trim. *)
Lemma space_head_visible x l : (32 < x < 128)%Z → space_head (x :: l) = 0%nat.
Proof.
  intros Hx. unfold space_head, between. repeat (case_match; try done);
    repeat match goal with H : (_ || _) = true |- _ => apply orb_true_iff in H as [H|H]
                         | H : (_ && _) = true |- _ => apply andb_true_iff in H as [H ?] end; lia.
Qed.
Lemma space_tail_visible l : Forall (λ x, 32 < x < 128)%Z l → space_tail l = 0%nat.
Proof.
  intros Hl. destruct Hl as [|x l Hx Hl]; [done|]. destruct Hl as [|y l Hy Hl]; [|destruct Hl as [|z l Hz Hl]];
    unfold space_tail; by rewrite !space_head_visible by done.
Qed.
Lemma TrimSpace_visible s : Forall (λ x, 32 < x < 128)%Z (bytes_of s) → TrimSpace s = s.
Proof.
  intros Hs. unfold TrimSpace, trim_space.
  assert (trim_front space_head 0 (bytes_of s) = bytes_of s) as ->
    by (destruct Hs as [|x l Hx]; [done|]; cbn [trim_front]; by rewrite space_head_visible).
  assert (∀ l, space_tail l = 0%nat → trim_front space_tail 0 l = l) as Ht
    by (intros [|x l] Hl; [done|]; cbn [trim_front]; by rewrite Hl).
  rewrite Ht; [by rewrite reverse_involutive, of_bytes_bytes_of|]. apply space_tail_visible.
  by rewrite Forall_reverse.
Qed.
Lemma TrimSpace_pretty (z : Z) : TrimSpace (pretty z) = pretty z.
Proof. apply TrimSpace_visible. eapply Forall_impl; [apply pretty_Z_bytes|]. unfold decimal_byte. lia. Qed.

(** ** Signatures *)

Section signatures.
Context `{Mac}.

Lemma hexs_nonempty l : l ≠ [] → hexs l ≠ "".
Proof. destruct l; done. Qed.
Lemma Sign_nonempty secret path t body : Sign secret path t body ≠ "".
Proof. apply hexs_nonempty. intros E. by pose proof (hmac_size secret (signed_message path (Unix t) body)) as Hs; rewrite E in Hs. Qed.

(** The time of a request fits its header. *)
Definition clock_ok (t : time) : Prop := (int64_min ≤ Unix t ≤ int64_max)%Z.
Definition within_window (sent seen : time) : Prop :=
  (- SignatureWindow ≤ seen - Unix sent * 1000000000 ≤ SignatureWindow)%Z.

Lemma Unix_seconds z : Unix (z * 1000000000) = z.
Proof. unfold Unix. apply Z.div_mul. done. Qed.

(** What is accepted. *)
Lemma VerifySignature_None secret path ts sig body now :
  VerifySignature secret path ts sig body now = None ↔
  sig ≠ "" ∧ ∃ z, ParseInt (TrimSpace ts) = Some z ∧ (- SignatureWindow ≤ now - z * 1000000000 ≤ SignatureWindow)%Z ∧
    sig = hexs (hmac secret (signed_message path z body)).
Proof.
  unfold VerifySignature, Sign. case_bool_decide as Hs; [naive_solver|].
  destruct (ParseInt (TrimSpace ts)) as [z|]; [|naive_solver]. rewrite Unix_seconds.
  destruct (_ || _) eqn:E; [|destruct (negb _) eqn:E2]; (split; [|intros (_ & z' & [= <-] & ? & ->)]); try done.
  - apply orb_true_iff in E as [E|E]; apply bool_decide_eq_true in E; lia.
  - by rewrite bool_decide_eq_true_2 in E2.
  - intros _. apply orb_false_iff in E as [E1%bool_decide_eq_false E3%bool_decide_eq_false].
    apply negb_false_iff, bool_decide_eq_true in E2. split; [done|]. exists z. split_and!; [done|lia|lia|done].
Qed.

Lemma VerifySignature_Sign secret path sent body seen : clock_ok sent → within_window sent seen →
  VerifySignature secret path (pretty (Unix sent)) (Sign secret path sent body) body seen = None.
Proof.
  intros Hc Hw. apply VerifySignature_None. split; [apply Sign_nonempty|]. exists (Unix sent).
  rewrite TrimSpace_pretty. split_and!; [by apply ParseInt_pretty|apply Hw|apply Hw|done].
Qed.
End signatures.

(** The signed message determines its parts. *)
Lemma app_zero_inj (l l' k k' : list Z) : 0%Z ∉ l → 0%Z ∉ l' → l ++ 0%Z :: k = l' ++ 0%Z :: k' → l = l' ∧ k = k'.
Proof.
  revert l'. induction l as [|x l IH]; intros [|y l'] Hl Hl' E; simplify_eq/=; [done|set_solver|set_solver|].
  destruct (IH l') as [-> ->]; [set_solver..|done|done].
Qed.
Lemma signed_message_inj path path' z z' body body' :
  0%Z ∉ bytes_of path → 0%Z ∉ bytes_of path' → signed_message path z body = signed_message path' z' body' →
  path = path' ∧ z = z' ∧ body = body'.
Proof.
  assert (∀ x y, bytes_of x = bytes_of y → x = y) as Hb
    by (intros x y E; by rewrite <-(of_bytes_bytes_of x), <-(of_bytes_bytes_of y), E).
  assert (∀ x : Z, 0%Z ∉ bytes_of (pretty x)) as Hz.
  { intros x Hx. pose proof (pretty_Z_bytes x) as Hd. rewrite Forall_forall in Hd. specialize (Hd _ Hx). unfold decimal_byte in Hd. lia. }
  intros Hp Hp' E. unfold signed_message in E. simpl in E.
  apply app_zero_inj in E as [E1 E]; [|done|done]. apply app_zero_inj in E as [E2 E3]; [|done|done].
  split_and!; [by apply Hb| |by apply Hb]. apply Hb in E2. by apply (inj pretty) in E2.
Qed.

(** ** Messages *)

Lemma decode_spec_json s : decode_struct set_spec no_spec (spec_json s) = Some s.
Proof.
  pose proof (ParseDevEnvSpec_json s) as E. unfold ParseDevEnvSpec in E. case_match; [by simplify_eq|done].
Qed.
Lemma decode_provision q : decode_struct set_provision (MkProvisionRequest "" no_spec "") (provision_json q) = Some q.
Proof.
  destruct q as [i s t]. unfold decode_struct, fill_struct, provision_json. cbn [pqResourceID pqSpec pqToken].
  rewrite (fill_cons _ _ _ _ _ (MkProvisionRequest i no_spec "")) by done.
  rewrite (fill_cons _ _ _ _ _ (MkProvisionRequest i s "")).
  - done.
  - change (set_provision "spec" (spec_json s) (MkProvisionRequest i no_spec "")) with
      (s ← decode_struct set_spec no_spec (spec_json s); Some (MkProvisionRequest i s "")). by rewrite decode_spec_json.
Qed.
Lemma decode_restart q : decode_struct set_restart (MkRestartRequest "" None no_spec "") (restart_json q) =
  Some (MkRestartRequest (rqResourceID q) (Some (raw (rqHandle q))) (rqSpec q) (rqToken q)).
Proof.
  destruct q as [i h s t]. unfold decode_struct, fill_struct, restart_json. cbn [rqResourceID rqHandle rqSpec rqToken].
  rewrite (fill_cons _ _ _ _ _ (MkRestartRequest i None no_spec "")) by done.
  rewrite (fill_cons _ _ _ _ _ (MkRestartRequest i (Some (raw h)) no_spec "")) by done.
  rewrite (fill_cons _ _ _ _ _ (MkRestartRequest i (Some (raw h)) s "")).
  - done.
  - change (set_restart "spec" (spec_json s) (MkRestartRequest i (Some (raw h)) no_spec "")) with
      (s ← decode_struct set_spec no_spec (spec_json s); Some (MkRestartRequest i (Some (raw h)) s "")). by rewrite decode_spec_json.
Qed.
Lemma decode_handle q : decode_struct set_handle no_handle_request (handle_json q) =
  Some (MkHandleRequest (hqResourceID q) (Some (raw (hqHandle q)))).
Proof. by destruct q. Qed.
Lemma decode_status st : decode_struct set_status ("", "") (status_answer st) = Some (ResourceState_text st.1, st.2).
Proof.
  destruct st as [st m]. unfold status_answer, opt_field. cbn [fst snd]. case_bool_decide; subst; done.
Qed.
Lemma ResourceState_of_text st : ResourceState_of (ResourceState_text st) = Some st.
Proof. by destruct st. Qed.

(** ** The agent *)

Section agent.
Context `{Mac} `{JsonText} `{GoTime} {W : Type} (a : Agent W).

(** Every request is answered. *)
Lemma answered_Ok {A} (m : M W A) k s : ∃ s' r, answered m k s = (s', Ok r).
Proof. unfold answered, mbind, M_bind, attempt, on_world. destruct (m (asWorld s)) as [w [x|e]]; by eexists _, _. Qed.
Lemma revoke_Ok body s : ∃ s', revoke a body s = (s', Ok (writeJSON (JObj []))).
Proof.
  unfold revoke, Revoke, ignore, on_world, mbind, M_bind, modify. cbn.
  destruct (hqHandle _) as [[| | | | | |]|]; try (by eexists); destruct (prTerminate _ _ _); by eexists.
Qed.
Lemma handler_Ok path next body s : handler a path = Some next → ∃ s' r, next body s = (s', Ok r).
Proof.
  assert (∀ {A} set (zero : A) k, (∀ q, ∃ s' r, k q s = (s', Ok r)) →
    ∃ s' r, with_request (W:=W) set zero body k s = (s', Ok r)) as Hwith
    by (intros A set zero k Hk; unfold with_request; case_match; [apply Hk|by eexists _, _]).
  unfold handler. intros Hn. repeat (case_bool_decide; [simplify_eq|]); [..|done];
    unfold provision, status, endpoint, restart, terminate, resources; try (apply Hwith; intros q; apply answered_Ok).
  - apply Hwith. intros q. case_match; [apply answered_Ok|by eexists _, _].
  - destruct (revoke_Ok body s) as [s' E]. by eexists _, _.
Qed.

(** What a request must carry. *)
Definition admitted (now : time) (rq : HttpRequest) : Prop :=
  authorized a rq = true ∧
  ∃ z, ParseInt (TrimSpace (htTimestamp rq)) = Some z ∧ (- SignatureWindow ≤ now - z * 1000000000 ≤ SignatureWindow)%Z ∧
    htSignature rq = hexs (hmac (agSecret a) (signed_message (htPath rq) z (htBody rq))).

Lemma Handler_cases now rq s :
  (∃ r, Handler a now rq s = (s, Ok r)) ∨
  ∃ next s' r, handler a (htPath rq) = Some next ∧ next (htBody rq) s = (s', Ok r) ∧ Handler a now rq s = (s', Ok r) ∧
    admitted now rq ∧ (asRevoked s = true → htPath rq = PathRevoke).
Proof.
  unfold Handler. case_bool_decide.
  { left. unfold health. repeat case_match; by eexists. }
  destruct (handler a (htPath rq)) as [next|] eqn:En; [|left; by eexists].
  case_bool_decide; [|left; by eexists]. unfold guard.
  destruct (authorized a rq) eqn:Ea; [|left; by eexists]. unfold readBody. cbn [negb].
  case_bool_decide; [left; by eexists|].
  destruct (VerifySignature _ _ _ _ _ _) eqn:Ev; [left; by eexists|]. apply VerifySignature_None in Ev as [_ Hz].
  unfold mbind, M_bind, get. destruct (asRevoked s && _) eqn:Er; [left; by eexists|]. right.
  destruct (handler_Ok _ _ (htBody rq) s En) as (s' & r & Hn). exists next, s', r. rewrite Hn.
  split_and!; [done..|by split|]. intros Hr. rewrite Hr in Er. by apply negb_false_iff, bool_decide_eq_true in Er.
Qed.

Lemma handler_path path next : handler a path = Some next → 0%Z ∉ bytes_of path.
Proof.
  unfold handler. intros Hn. apply (bool_decide_unpack _).
  repeat (case_bool_decide; [subst path; vm_compute; exact I|]). done.
Qed.

(** Two messages with one signature. *)
Definition collision (secret : string) (m m' : list Z) : Prop := m ≠ m' ∧ hexs (hmac secret m) = hexs (hmac secret m').

(** A request that changes anything at an agent carries the agent's token; a
    revoked agent is changed only by another revocation; and if its signature is
    one made for a path, a time and a body, it is for that path and that body and
    arrives within the window of that time, unless the message it claims to sign
    collides with the one that was signed. *)
Theorem control_requests_bound now rq s path0 t0 body0 :
  0%Z ∉ bytes_of path0 → htSignature rq = Sign (agSecret a) path0 t0 body0 → (Handler a now rq s).1 ≠ s →
  authorized a rq = true ∧ (asRevoked s = true → htPath rq = PathRevoke) ∧
  ((htPath rq = path0 ∧ htBody rq = body0 ∧ within_window t0 now) ∨
   ∃ z, collision (agSecret a) (signed_message (htPath rq) z (htBody rq)) (signed_message path0 (Unix t0) body0)).
Proof.
  intros Hp Hs Hne. destruct (Handler_cases now rq s) as [[r E]|(next & s' & r & En & _ & _ & [Ha (z & _ & Hw & Hz)] & Hr)];
    [by rewrite E in Hne|]. split_and!; [done..|]. unfold Sign in Hs. rewrite Hs in Hz.
  destruct (decide (signed_message (htPath rq) z (htBody rq) = signed_message path0 (Unix t0) body0)) as [E|E].
  - left. apply signed_message_inj in E as (-> & -> & ->); [done|by eapply handler_path|done].
  - right. by exists z.
Qed.

(** ** Revocation *)

(** One release of the local provider. *)
Definition released (w w' : W) : Prop := ∃ h, w' = (prTerminate (agProvider a) (handle_resource (Some h)) w).1.

Definition served (rqs : list (time * HttpRequest)) (s : AgentState W) : AgentState W :=
  foldl (λ s rq, (Handler a rq.1 rq.2 s).1) s rqs.

Lemma revoke_releases body s : asRevoked (revoke a body s).1 = true ∧ rtc released (asWorld s) (asWorld (revoke a body s).1).
Proof.
  unfold revoke, Revoke, ignore, on_world, mbind, M_bind, modify. cbn. set (h := hqHandle _).
  assert (∀ j, let t := let '(w, _) := prTerminate (agProvider a) (handle_resource (Some j)) (asWorld s) in MkAgentState w true in
    asRevoked t = true ∧ rtc released (asWorld s) (asWorld t)) as Hj.
  { intros j. destruct (prTerminate _ _ _) as [w res] eqn:E. split; [done|]. apply rtc_once. exists j. by rewrite E. }
  destruct h as [[| | | | | |]|]; try (split; [done|reflexivity]);
    match goal with |- context [handle_resource (Some ?j)] => specialize (Hj j) end; by destruct (prTerminate _ _ _).
Qed.

Lemma Handler_revoked now rq s : asRevoked s = true →
  asRevoked (Handler a now rq s).1 = true ∧ rtc released (asWorld s) (asWorld (Handler a now rq s).1).
Proof.
  intros Hs. destruct (Handler_cases now rq s) as [[r ->]|(next & s' & r & En & Hn & -> & _ & Hr)]; [by split|].
  rewrite (Hr Hs) in En. assert (revoke a (htBody rq) s = (s', Ok r)) as E by (by injection En as <-).
  pose proof (revoke_releases (htBody rq) s) as Hrel. by rewrite E in Hrel.
Qed.

Lemma served_revoked rqs s : asRevoked s = true →
  asRevoked (served rqs s) = true ∧ rtc released (asWorld s) (asWorld (served rqs s)).
Proof.
  revert s. induction rqs as [|rq rqs IH]; intros s Hs; [done|]. simpl.
  destruct (Handler_revoked rq.1 rq.2 s Hs) as [H1' H2']. destruct (IH _ H1') as [? ?]. split; [done|by etrans].
Qed.

End agent.

(** ** The connection *)

Record connected {W} (a : Agent W) (cfg : Config) (wr : Wire) : Prop := {
  cn_token : cfToken cfg = agToken a;
  cn_present : cfToken cfg ≠ "";
  cn_secret : cfSecret cfg = agSecret a;
  cn_up : wrLink wr = LinkUp;
  cn_clock : clock_ok (wrSent wr);
  cn_window : within_window (wrSent wr) (wrSeen wr);
}.

Section transparent.
Context `{Mac} `{JsonText} `{!JsonTextOk} `{GoTime} {W : Type} (a : Agent W) (cfg : Config) (wr : Wire).
Context (Hconn : connected a cfg wr).

Definition fits (j : json) : Prop := plain_json j = true ∧ (Z.of_nat (String.length (marshal j)) ≤ maxBody)%Z.

Lemma authorized_bearer path body : authorized a (control_request cfg wr path body) = true.
Proof.
  unfold authorized, control_request, bearer. cbn [htAuthorization].
  assert (cut_prefix "Bearer " ("Bearer " +:+ cfToken cfg) = Some (cfToken cfg)) as -> by (by apply cut_prefix_Some).
  cbn [default]. destruct Hconn. by rewrite bool_decide_eq_false_2, bool_decide_eq_true_2.
Qed.

(** A signed request passes the guard. *)
Lemma Handler_control path j next s : fits j → handler a path = Some next →
  Handler a (wrSeen wr) (control_request cfg wr path (marshal j)) s =
  if asRevoked s && negb (bool_decide (path = PathRevoke)) then (s, Ok (httpError 410 "lease revoked")) else next (marshal j) s.
Proof.
  intros [_ Hf] Hn. unfold Handler. cbn [htPath htMethod control_request].
  assert (path ≠ PathHealth) as Hp by (intros ->; done). rewrite bool_decide_eq_false_2, Hn by done.
  unfold guard. rewrite authorized_bearer. cbn [negb]. unfold readBody. cbn [htBody htPath htTimestamp htSignature control_request].
  rewrite (bool_decide_eq_true_2 ("POST" = "POST")), (bool_decide_eq_false_2 (Z.of_nat _ > maxBody)%Z) by (done || lia).
  destruct Hconn. rewrite <-cn_secret0, VerifySignature_Sign by done.
  unfold mbind, M_bind, get. by case_match.
Qed.

(** What [call] makes of an answer. *)
Definition received {A} (path : string) (out : string → option A) (r : HttpResponse) : call_err + A :=
  if bool_decide (hrStatus r = 200)%Z then
    match out (hrBody r) with Some x => inr x | None => inl (CallFailed ("tunnel: decode " +:+ path)) end
  else if bool_decide (hrStatus r = 410)%Z then inl ErrRevoked
  else inl (CallFailed (call_detail path r)).

Lemma call_revoked {A} path j next (out : string → option A) s : fits j → handler a path = Some next → path ≠ PathRevoke →
  asRevoked s = true → call a cfg wr path j out s = (s, Ok (inl ErrRevoked)).
Proof.
  intros Hf Hn Hp Hs. unfold call, Do. rewrite (cn_up _ _ _ Hconn). unfold mbind, M_bind.
  rewrite (Handler_control path j next s Hf Hn), Hs, bool_decide_eq_false_2 by done. done.
Qed.

Lemma call_next {A} path j next (out : string → option A) s s' r : fits j → handler a path = Some next →
  asRevoked s = false → next (marshal j) s = (s', Ok r) → call a cfg wr path j out s = (s', Ok (received path out r)).
Proof.
  intros Hf Hn Hs E. unfold call, Do. rewrite (cn_up _ _ _ Hconn). unfold mbind, M_bind.
  rewrite (Handler_control path j next s Hf Hn), Hs, E. done.
Qed.

(** The local call, its errors as the platform reports them. *)
Definition relayed {A B} (path : string) (m : M W A) (f : A → B) : M (AgentState W) B := λ s,
  let '(w, r) := m (asWorld s) in
  (MkAgentState w (asRevoked s),
   match r with Ok x => Ok (f x) | Err e => Err (ErrorText (call_detail path (httpError 502 (err_text e)))) end).

(** A handler that answers one local call, seen through [call]. *)
Lemma call_relayed {A B} path j next (m : M W A) answer (out : string → option B) (f : A → B) s :
  fits j → handler a path = Some next → asRevoked s = false → next (marshal j) s = answered m answer s →
  (∀ x, (m (asWorld s)).2 = Ok x → out (marshal (answer x) +:+ newline) = Some (f x)) →
  (r ← call a cfg wr path j out; ok_or r) s = relayed path m f s.
Proof.
  intros Hf Hn Hs Ha Hout. unfold answered, mbind, M_bind, attempt, on_world in Ha. unfold relayed.
  destruct (m (asWorld s)) as [w res] eqn:Em. cbn in Ha. unfold mbind, M_bind at 1.
  rewrite (call_next path j next out s _ _ Hf Hn Hs Ha). destruct res as [x|e]; [|done].
  unfold received, writeJSON. cbn [hrStatus hrBody]. by rewrite bool_decide_eq_true_2, Hout.
Qed.

Lemma decode_into_json {A} (set : string → json → A → option A) zero j : plain_json j = true →
  decode_into set zero (marshal j +:+ newline) = decode_struct set zero j.
Proof. intros Hj. unfold decode_into. by rewrite decode_encoded. Qed.
Lemma with_request_json {A} (set : string → json → A → option A) zero j q k s : fits j → decode_struct set zero j = Some q →
  with_request (W:=W) set zero (marshal j) k s = k q s.
Proof. intros [Hj _] E. unfold with_request, unmarshal_into. rewrite unmarshal_marshal_json by done. cbn. by rewrite E. Qed.

(** What the local provider returns can be sent. *)
Record plain_provider (p : ResourceProvider W) : Prop := {
  pp_provision r t w h : (prProvision p r t w).2 = Ok h → plain_json h = true;
  pp_status r w st m : (prStatus p r w).2 = Ok (st, m) → valid_utf8 m = true;
  pp_endpoint r w e : (prEndpoint p r w).2 = Ok e → valid_utf8 (default id (agEndpoint a) e) = true;
  pp_restart r t w h : (prRestart p r t w).2 = Ok h → plain_json h = true;
}.

(** The environment as the agent's provider sees it. *)
Definition remote_new (r : Resource) (spec : DevEnvSpec) : Resource :=
  some_resource (r_id r) ResourceKindDevEnv (Some (spec_json spec)) None.
Definition remote_old (r : Resource) (spec : DevEnvSpec) : Resource :=
  some_resource (r_id r) ResourceKindDevEnv (Some (spec_json spec)) (Some (raw (r_handle r))).
Definition remote_handle (r : Resource) : Resource := handle_resource (Some (raw (r_handle r))).

Section operations.
Context (Hplain : plain_provider (agProvider a)) (s : AgentState W) (Hs : asRevoked s = false) (r : Resource).

Notation p := (agProvider a).
Notation asked := (fits (handle_json (MkHandleRequest "" (r_handle r)))).

Lemma provision_relayed spec token : ParseDevEnvSpec (r_spec r) = Ok spec →
  fits (provision_json (MkProvisionRequest (r_id r) spec token)) →
  Provision a cfg wr r token s = relayed PathProvision (prProvision p (remote_new r spec) token) id s.
Proof.
  intros Hsp Hf. unfold Provision. unfold mbind at 1, M_bind at 1. rewrite Hsp. cbn [of_result].
  eapply (call_relayed _ _ (provision a)); [done|done|done| |].
  - unfold provision. by rewrite (with_request_json _ _ _ _ _ s Hf (decode_provision _)).
  - intros h Hh. rewrite decode_into_json; [done|]. simpl. by rewrite (pp_provision _ Hplain _ _ _ _ Hh).
Qed.

Lemma restart_relayed spec token : ParseDevEnvSpec (r_spec r) = Ok spec →
  fits (restart_json (MkRestartRequest (r_id r) (r_handle r) spec token)) →
  Restart a cfg wr r token s = relayed PathRestart (prRestart p (remote_old r spec) token) id s.
Proof.
  intros Hsp Hf. unfold Restart. unfold mbind at 1, M_bind at 1. rewrite Hsp. cbn [of_result].
  eapply (call_relayed _ _ (restart a)); [done|done|done| |].
  - unfold restart. by rewrite (with_request_json _ _ _ _ _ s Hf (decode_restart _)).
  - intros h Hh. rewrite decode_into_json; [done|]. simpl. by rewrite (pp_restart _ Hplain _ _ _ _ Hh).
Qed.

Lemma terminate_relayed : asked →
  Terminate a cfg wr r s = relayed PathTerminate (prTerminate p (remote_handle r)) id s.
Proof.
  intros Hf. assert (terminate a (marshal (handle_json (MkHandleRequest "" (r_handle r)))) s =
    answered (prTerminate p (remote_handle r)) (λ _, JObj []) s) as Ha
    by (unfold terminate; by rewrite (with_request_json _ _ _ _ _ s Hf (decode_handle _))).
  unfold answered, mbind, M_bind, attempt, on_world in Ha. unfold relayed, Terminate, mbind, M_bind.
  destruct (prTerminate p (remote_handle r) (asWorld s)) as [w res] eqn:Em. cbn in Ha.
  rewrite (call_next PathTerminate _ (terminate a) _ s _ _ Hf eq_refl Hs Ha). by destruct res as [[]|e].
Qed.

Lemma endpoint_relayed : asked →
  Endpoint a cfg wr r s =
  (e ← relayed PathEndpoint (prEndpoint p (remote_handle r)) (default id (agEndpoint a));
   if bool_decide (e = "") then throw (ErrorText "tunnel: the agent published no endpoint") else mret e) s.
Proof.
  intros Hf. unfold Endpoint.
  assert ((out ← call a cfg wr PathEndpoint (handle_json (MkHandleRequest "" (r_handle r))) (decode_into set_endpoint "");
    ok_or out) s = relayed PathEndpoint (prEndpoint p (remote_handle r)) (default id (agEndpoint a)) s) as E.
  { eapply (call_relayed _ _ (endpoint a)); [done|done|done| |].
    - unfold endpoint. by rewrite (with_request_json _ _ _ _ _ s Hf (decode_handle _)).
    - intros e He. rewrite decode_into_json; [by destruct (agEndpoint a)|].
      pose proof (pp_endpoint _ Hplain _ _ _ He) as Hv. simpl. destruct (agEndpoint a); simpl in *; by rewrite Hv. }
  unfold mbind, M_bind in *. rewrite <-E. by destruct (call _ _ _ _ _ _ s) as [? []].
Qed.

Lemma status_relayed : asked →
  Status a cfg wr r s = relayed PathStatus (prStatus p (remote_handle r)) id s.
Proof.
  intros Hf. assert (status a (marshal (handle_json (MkHandleRequest "" (r_handle r)))) s =
    answered (prStatus p (remote_handle r)) status_answer s) as Ha
    by (unfold status; by rewrite (with_request_json _ _ _ _ _ s Hf (decode_handle _))).
  unfold answered, mbind, M_bind, attempt, on_world in Ha. unfold relayed, Status, mbind, M_bind.
  destruct (prStatus p (remote_handle r) (asWorld s)) as [w res] eqn:Em. cbn in Ha.
  rewrite (call_next PathStatus _ (status a) _ s _ _ Hf eq_refl Hs Ha). destruct res as [[st m]|e]; [|done].
  unfold received, writeJSON. cbn [hrStatus hrBody]. rewrite bool_decide_eq_true_2 by done.
  assert (plain_json (status_answer (st, m)) = true) as Hp.
  { assert ((prStatus p (remote_handle r) (asWorld s)).2 = Ok (st, m)) as Hr by (by rewrite Em).
    apply (pp_status _ Hplain) in Hr. unfold status_answer, opt_field. case_bool_decide; simpl; rewrite ?Hr; by destruct st. }
  unfold mbind, option_bind. rewrite decode_into_json, decode_status by done. unfold status_of. cbn [fst snd].
  by rewrite ResourceState_of_text.
Qed.
End operations.

End transparent.
