(* ===== verification/TunnelGuarantees.v ===== *)
(** * The guarantees of the tunnel

    The theorems about [Tunnel] a deployment relies on, from the lemmas of
    [TunnelSpec], and their composition with the reconcile job: a machine that
    went away suspends its environments. *)
From S2P Require Import Prelude Policy Domain Text Store StoreRuns EventLog Loop Waits Batcher Tools Step Api.
From S2P Require Import ResourceStore OperatorTx ResourceWork Frames Invariants RunStates System Scenario WaitSpec ResourceSpec Strings GoJson AdminQuery Paging Registry Tunnel TunnelSpec.

(** ** Transparency *)

Section transparent.
Context `{Mac} `{JsonText} `{!JsonTextOk} `{GoTime} {W : Type} (a : Agent W) (cfg : Config) (wr : Wire).

Notation p := (agProvider a).
Notation tunnel := (tunnel_provider a cfg wr).

(** C37: While the wire is up and the lease not revoked, the operations of the
    tunnel provider are those of the agent's own provider on the resource rebuilt
    from the request: the same effect on the agent's machine and the same handle,
    status and endpoint, with its errors carried in the message. *)
Theorem tunnel_transparent s r :
  connected a cfg wr → plain_provider a p → asRevoked s = false →
  (∀ spec token, ParseDevEnvSpec (r_spec r) = Ok spec → fits (provision_json (MkProvisionRequest (r_id r) spec token)) →
     prProvision tunnel r token s = relayed PathProvision (prProvision p (remote_new r spec) token) id s) ∧
  (∀ spec token, ParseDevEnvSpec (r_spec r) = Ok spec → fits (restart_json (MkRestartRequest (r_id r) (r_handle r) spec token)) →
     prRestart tunnel r token s = relayed PathRestart (prRestart p (remote_old r spec) token) id s) ∧
  (fits (handle_json (MkHandleRequest "" (r_handle r))) →
     prStatus tunnel r s = relayed PathStatus (prStatus p (remote_handle r)) id s ∧
     prTerminate tunnel r s = relayed PathTerminate (prTerminate p (remote_handle r)) id s ∧
     prEndpoint tunnel r s =
       (e ← relayed PathEndpoint (prEndpoint p (remote_handle r)) (default id (agEndpoint a));
        if bool_decide (e = "") then throw (ErrorText "tunnel: the agent published no endpoint") else mret e) s).
Proof.
  intros Hc Hp Hs. split_and!.
  - intros. by apply provision_relayed.
  - intros. by apply restart_relayed.
  - intros. split_and!; [by apply status_relayed|by apply terminate_relayed|by apply endpoint_relayed].
Qed.

(** ** The lease *)

(** Revoking a lease succeeds, and whatever requests the agent serves from
    then on it stays revoked and its machine changes only by releases; the tunnel
    reports the environments terminated, terminates them without a request, and
    provisions nothing. *)
Theorem lease_revocation s r h rqs :
  connected a cfg wr → fits (handle_json (MkHandleRequest "" h)) → fits (handle_json (MkHandleRequest "" (r_handle r))) →
  let '(s1, res) := RevokeLease a cfg wr h s in
  let s2 := served a rqs s1 in
  res = Ok () ∧ asRevoked s2 = true ∧ rtc (released a) (asWorld s) (asWorld s2) ∧
  prStatus tunnel r s2 = (s2, Ok (ResourceTerminated, "the environment agent's lease was revoked")) ∧
  prTerminate tunnel r s2 = (s2, Ok ()) ∧
  (∀ spec token, ParseDevEnvSpec (r_spec r) = Ok spec → fits (provision_json (MkProvisionRequest (r_id r) spec token)) →
     prProvision tunnel r token s2 = (s2, Err (call_error ErrRevoked))).
Proof.
  intros Hc Hh Hr. pose proof (revoke_releases a (marshal (handle_json (MkHandleRequest "" h))) s) as [Hrev Hrel].
  destruct (revoke_Ok a (marshal (handle_json (MkHandleRequest "" h))) s) as [s1 E].
  rewrite E in Hrev, Hrel. cbn [fst] in Hrev, Hrel.
  assert (RevokeLease a cfg wr h s = (s1, Ok ())) as ->.
  { unfold RevokeLease, call, Do. rewrite (cn_up _ _ _ Hc). unfold mbind, M_bind.
    rewrite (Handler_control a cfg wr Hc PathRevoke _ (revoke a) s Hh eq_refl). rewrite bool_decide_eq_true_2 by done.
    cbn [negb]. rewrite andb_false_r, E. done. }
  destruct (served_revoked a rqs s1 Hrev) as [Hs2 Hw2]. cbn zeta. set (s2 := served a rqs s1) in *.
  split_and!; [done|done|by etrans|..].
  - cbn. unfold Status, mbind, M_bind.
    by rewrite (call_revoked a cfg wr Hc PathStatus _ (status a) _ s2 Hr eq_refl ltac:(done) Hs2).
  - cbn. unfold Terminate, mbind, M_bind.
    by rewrite (call_revoked a cfg wr Hc PathTerminate _ (terminate a) _ s2 Hr eq_refl ltac:(done) Hs2).
  - intros spec token Hsp Hf. cbn. unfold Provision, mbind, M_bind. rewrite Hsp. cbn [of_result].
    by rewrite (call_revoked a cfg wr Hc PathProvision _ (provision a) _ s2 Hf eq_refl ltac:(done) Hs2).
Qed.

End transparent.

(** ** A machine that went away *)

(** What an outage leaves of an environment. *)
Definition kept (r r' : Resource) : Prop :=
  r_handle r' = r_handle r ∧ r_endpoint r' = r_endpoint r ∧ r_token_hash r' = r_token_hash r ∧
  r_token_enc r' = r_token_enc r ∧ r_epoch r' = r_epoch r ∧ r_spec r' = r_spec r.

Definition suspended_post {A} (org : TenantID) (id : ResourceID) (r : Resource) (res : result A) (d : DB) : Prop :=
  ∃ r', resource_of d org id = Some r' ∧ kept r r' ∧
    match res with Ok _ => r_state r' = ResourceSuspended | Err _ => r_state r' = r_state r end.

Section outage.
Context `{Mac} `{JsonText} `{GoTime} {W : Type} (a : Agent W) (cfg : Config) (wr : Wire).
Context (sv : Service (AgentState W)).

(** Whatever happened to the request, the probe says suspended. *)
Lemma Status_unreachable r s : wrLink wr ≠ LinkUp →
  ∃ s', Status a cfg wr r s = (s', Ok (ResourceSuspended, "the environment agent is unreachable")).
Proof.
  intros Hl. unfold Status, call, Do, mbind, M_bind. destruct (wrLink wr) as [|e|e]; [done| |by eexists].
  set (rq := control_request _ _ _ _).
  destruct (Handler_cases a (wrSeen wr) rq s) as [[r' ->]|(? & s' & r' & _ & _ & -> & _)]; by eexists.
Qed.

Lemma suspend_kept clock org r message d :
  resource_of d org (r_id r) = Some r → r_state r = ResourceReady →
  wp (suspend sv clock org r message) (suspended_post org (r_id r) r) d.
Proof.
  intros Hr Hst. assert (suspended_post (A:=unit) org (r_id r) r (Err ErrNotFound) d) as Herr by (exists r; by split_and!).
  unfold suspend. set (msg := if bool_decide _ then _ else _). apply wp_bind, (wp_atomically (S:=DB)), wp_bind, wp_ResourceGetForUpdate;
    [|intros Hn; congruence].
  intros q Hq. assert (q = r) as -> by congruence. rewrite (bool_decide_eq_true_2 _ Hst). cbn [negb].
  apply wp_bind. unfold SetSuspended. apply wp_bind, wp_get. rewrite Hr, (bool_decide_eq_true_2 _ Hst). cbn [orb].
  apply wp_put, wp_bind, wp_Append_tx; [done|]. intros se _. apply wp_ret. unfold rearmReconcile.
  apply (wp_atomically (S:=DB)), wp_modify. exists (upd_res_suspended msg (db_now d) r). split_and!; [|done..].
  apply resource_of_Some in Hr as [_ Ht]. apply resource_of_Some. simpl. by rewrite lookup_insert_eq.
Qed.

(** A reconcile of a ready or suspended resource whose agent cannot be
    reached never fails or terminates it: the resource keeps its handle, endpoint,
    token, epoch and spec, and is suspended when the reconcile succeeds and in its
    old state otherwise. *)
Theorem tunnel_outage clock org id d s r instance_ :
  res_keyed d → resource_of d org id = Some r → r_state r = ResourceReady ∨ r_state r = ResourceSuspended →
  provider_of d org (r_provider r) = Some instance_ →
  svBuild sv (pi_kind instance_) (pi_config instance_) = Ok (tunnel_provider a cfg wr) → wrLink wr ≠ LinkUp →
  suspended_post org id r (Reconcile sv clock org id (d, s)).2 (Reconcile sv clock org id (d, s)).1.1.
Proof.
  intros Hk Hr Hst Hi Hb Hl.
  change (wp (Reconcile sv clock org id) (λ res t, suspended_post org id r res t.1) (d, s)).
  assert (r_id r = id) as <- by (apply Hk; by apply resource_of_Some in Hr as [? _]).
  assert (provider sv org r d = (d, Ok (tunnel_provider a cfg wr, instance_))) as Hp.
  { unfold provider, ProviderGet, mbind, M_bind, get. simpl. rewrite Hi. simpl. by rewrite Hb. }
  destruct (Status_unreachable r s Hl) as [s' Es].
  assert (∀ Q, Q (Ok (Ok (ResourceSuspended, "the environment agent is unreachable"))) (d, s') →
    wp (attempt (ext (prStatus (tunnel_provider a cfg wr) r))) Q (d, s)) as Hstatus.
  { intros Q HQ. unfold wp, attempt, ext. cbn. by rewrite Es. }
  unfold Reconcile. apply wp_bind, wp_attempt, wp_db. unfold ResourceGet. apply wp_bind, wp_get. rewrite Hr. apply wp_ret.
  destruct Hst as [Hst|Hst]; rewrite Hst.
  - apply wp_bind, wp_db. unfold wp at 1. rewrite Hp. cbn [fst snd]. apply wp_bind, Hstatus, wp_db. by apply suspend_kept.
  - unfold reconcileSuspended. apply wp_bind, wp_attempt, wp_db. unfold wp at 1. rewrite Hp. cbn [fst snd]. apply wp_bind, Hstatus.
    apply wp_bind. unfold wp, ext. cbn. exists r. by split_and!.
Qed.

End outage.

(** ** A machine *)

Module Laptop.

(** *** JSON text *)

(** A document as a tree of numbers and strings, and back. *)
Fixpoint tree_of (j : json) : gen_tree (Z + string) :=
  match j with
  | JNull => GenNode 0 []
  | JBool b => GenNode (if b then 2 else 1) []
  | JNum z => GenNode 3 [GenLeaf (inl z)]
  | JFloat s => GenNode 4 [GenLeaf (inr s)]
  | JStr s => GenNode 5 [GenLeaf (inr s)]
  | JArr l => GenNode 6 (tree_of <$> l)
  | JObj fields => GenNode 7 ((λ f, GenNode 8 [GenLeaf (inr f.1); tree_of f.2]) <$> fields)
  end.
Fixpoint of_tree (t : gen_tree (Z + string)) : option json :=
  match t with
  | GenNode 0 [] => Some JNull
  | GenNode 1 [] => Some (JBool false)
  | GenNode 2 [] => Some (JBool true)
  | GenNode 3 [GenLeaf (inl z)] => Some (JNum z)
  | GenNode 4 [GenLeaf (inr s)] => Some (JFloat s)
  | GenNode 5 [GenLeaf (inr s)] => Some (JStr s)
  | GenNode 6 l => JArr <$> mapM of_tree l
  | GenNode 7 l =>
      JObj <$> (fix fields l :=
        match l with
        | [] => Some []
        | GenNode 8 [GenLeaf (inr k); v] :: rest => v ← of_tree v; fs ← fields rest; Some ((k, v) :: fs)
        | _ => None
        end) l
  | _ => None
  end.

Lemma of_tree_of : ∀ j, of_tree (tree_of j) = Some j.
Proof.
  fix IH 1. intros [| [] | z | s | s | l | fields]; try reflexivity; cbn [tree_of of_tree].
  - assert (mapM of_tree (tree_of <$> l) = Some l) as ->; [|done].
    induction l as [|x l IHl]; [done|]. cbn. rewrite (IH x). cbn. by rewrite IHl.
  - induction fields as [|[k v] fields IHf]; [done|]. cbn. rewrite (IH v). cbn.
    match goal with |- JObj <$> (x ← ?m; _) = _ => destruct m as [fs|]; cbn in *; [by simplify_eq|done] end.
Qed.

(** A number in binary ends with its leading digit: what follows is not read. *)
Lemma number_of_digits_app p l : Demo.number_of (Demo.digits_of p ++ l) = Some p.
Proof. induction p as [p IH|p IH|]; simpl; rewrite ?IH; done. Qed.
Lemma digits_bytes p : Forall (λ n, 0 ≤ n < 256)%Z (Demo.digits_of p).
Proof. induction p; simpl; repeat constructor; done || lia. Qed.

Definition read (s : string) : option json := p ← Demo.number_of (bytes_of s); t ← decode p; of_tree t.
#[global] Instance text : JsonText := {|
  marshal := λ j, of_bytes (Demo.digits_of (encode (tree_of j)));
  unmarshal := read;
  decode_first := read;
|}.

Lemma bytes_of_app s t : bytes_of (s +:+ t) = bytes_of s ++ bytes_of t.
Proof. induction s as [|c s IH]; [done|]. change (bytes_of (String c (s +:+ t)) = byte_of c :: bytes_of s ++ bytes_of t). simpl. by rewrite IH. Qed.

Lemma read_text j rest : read (marshal j +:+ rest) = Some j.
Proof.
  unfold read, marshal, text. rewrite bytes_of_app, bytes_of_of_bytes by apply digits_bytes.
  rewrite number_of_digits_app. cbn. rewrite decode_encode. cbn. apply of_tree_of.
Qed.
#[global] Instance text_ok : JsonTextOk.
Proof.
  split; intros j _; [|apply read_text..].
  assert (∀ s, s +:+ "" = s) as Hnil by (intros s; induction s as [|c s IH]; [done|]; change (String c (s +:+ "") = String c s); by rewrite IH).
  rewrite <-(Hnil (marshal j)). apply read_text.
Qed.

(** *** The agent *)

(** The machine runs what its provider was asked for; a handle is an id. *)
Definition on_handle {A} (r : Resource) (f : string → M (list string) A) : M (list string) A :=
  match r_handle r with
  | Some (JStr id) => if valid_utf8 id then f id else throw (ErrorText "no such container")
  | _ => throw (ErrorText "no such container")
  end.
Definition docker : ResourceProvider (list string) := {|
  prKind := ResourceKindDevEnv;
  prValidateSpec := λ _, None;
  prProvision := λ r _, if valid_utf8 (r_id r) then _ ← modify (cons (r_id r)); mret (JStr (r_id r))
                        else throw (ErrorText "invalid name");
  prStatus := λ r, on_handle r (λ id, w ← get; mret (if bool_decide (id ∈ w) then ResourceReady else ResourceTerminated, ""));
  prEndpoint := λ r, on_handle r (λ id, mret "http://127.0.0.1:9000/mcp");
  prRestart := λ r _, on_handle r (λ id, mret (JStr id));
  prTerminate := λ r, on_handle r (λ id, modify (filter (λ i, i ≠ id)));
  prAdopt := None;
|}.

Definition laptop : Agent (list string) :=
  MkAgent _ docker (Some (w ← get; mret ((λ i, (i, ["container/" +:+ i])) <$> w))) "tok" "shh" None 0.
Definition cfg : Config := MkConfig "https://laptop.example" "tok" "shh" 0.
Definition up : Wire := MkWire LinkUp 1000000000000 1060000000000.
Definition down : Wire := MkWire (LinkDown "no route to host") 1000000000000 1060000000000.

Definition env (id : ResourceID) : Resource :=
  some_resource id ResourceKindDevEnv (Some (spec_json (MkDevEnvSpec "box" "ubuntu" "" {["A" := "1"]} ∅))) (Some (JStr id)).

Lemma laptop_connected : connected laptop cfg up.
Proof. split; try done; vm_compute; split; discriminate. Qed.

Lemma laptop_plain : plain_provider laptop docker.
Proof.
  split; unfold docker, on_handle; cbn.
  - intros r t w h. destruct (valid_utf8 (r_id r)) eqn:E; [|done]. intros [= <-]. done.
  - intros r w st m. repeat case_match; try done. by intros [= _ <-].
  - intros r w e. repeat case_match; try done. by intros [= <-].
  - intros r t w h. destruct (r_handle r) as [[]|]; try done. destruct (valid_utf8 s) eqn:E; [|done]. by intros [= <-].
Qed.

Definition running : AgentState (list string) := MkAgentState ["e1"; "e2"] false.

End Laptop.

(** ** Witnesses *)

Lemma tunnel_transparent_witness :
  prProvision (tunnel_provider Laptop.laptop Laptop.cfg Laptop.up) (Laptop.env "e3") "t3" Laptop.running =
    (MkAgentState ["e3"; "e1"; "e2"] false, Ok (JStr "e3")) ∧
  prStatus (tunnel_provider Laptop.laptop Laptop.cfg Laptop.up) (Laptop.env "e1") Laptop.running =
    (Laptop.running, Ok (ResourceReady, "")).
Proof.
  destruct (tunnel_transparent Laptop.laptop Laptop.cfg Laptop.up Laptop.running (Laptop.env "e3")
    Laptop.laptop_connected Laptop.laptop_plain eq_refl) as [Hp _].
  destruct (tunnel_transparent Laptop.laptop Laptop.cfg Laptop.up Laptop.running (Laptop.env "e1")
    Laptop.laptop_connected Laptop.laptop_plain eq_refl) as (_ & _ & Hs).
  split.
  - rewrite (Hp (MkDevEnvSpec "box" "ubuntu" "" {["A" := "1"]} ∅) "t3"); [reflexivity|by apply ParseDevEnvSpec_json|].
    split; vm_compute; [reflexivity|discriminate].
  - destruct Hs as [-> _]; [|vm_compute; reflexivity]. split; vm_compute; [reflexivity|discriminate].
Defined.

Lemma lease_revocation_witness :
  let s1 := (RevokeLease Laptop.laptop Laptop.cfg Laptop.up (Some (JStr "e1")) Laptop.running).1 in
  asRevoked s1 = true ∧ prTerminate (tunnel_provider Laptop.laptop Laptop.cfg Laptop.up) (Laptop.env "e2") s1 = (s1, Ok ()).
Proof.
  pose proof (lease_revocation Laptop.laptop Laptop.cfg Laptop.up Laptop.running (Laptop.env "e2") (Some (JStr "e1")) []
    Laptop.laptop_connected) as Hl.
  destruct (RevokeLease _ _ _ _ _) as [s1 res]. cbn zeta in Hl |- *.
  destruct Hl as (_ & Hr & _ & _ & Ht & _); [split; vm_compute; (reflexivity || discriminate)..|]. by split.
Defined.

(** A request to terminate, and its signature on another path. *)
Definition stolen (path : string) : HttpRequest :=
  let rq := control_request Laptop.cfg Laptop.up PathTerminate (marshal (handle_json (MkHandleRequest "" (Some (JStr "e1"))))) in
  MkHttpRequest "POST" path (htAuthorization rq) (htTimestamp rq) (htSignature rq) (htBody rq).
Lemma control_requests_bound_witness :
  authorized Laptop.laptop (stolen PathTerminate) = true ∧
  (Handler Laptop.laptop 1060000000000 (stolen PathTerminate) Laptop.running).1 ≠ Laptop.running.
Proof.
  assert ((Handler Laptop.laptop 1060000000000 (stolen PathTerminate) Laptop.running).1 ≠ Laptop.running) as Hne
    by (vm_compute; discriminate).
  split; [|done].
  apply (control_requests_bound Laptop.laptop 1060000000000 (stolen PathTerminate) Laptop.running PathTerminate 1000000000000
    (marshal (handle_json (MkHandleRequest "" (Some (JStr "e1"))))));
    [apply (bool_decide_unpack _); vm_compute; exact I|reflexivity|done].
Defined.

Definition laptop_service (wr : Wire) : Service (AgentState (list string)) := {|
  svBuild := λ _ _, Ok (tunnel_provider Laptop.laptop Laptop.cfg wr);
  svDecrypt := Ok;
  svHealthy := λ _, mret ();
  svReconcileInterval := 0;
  svProvisionTimeout := 0;
|}.
Lemma tunnel_outage_witness :
  suspended_post "acme" "e1" (resource_at d_ready)
    (Reconcile (laptop_service Laptop.down) 50 "acme" "e1" (d_ready, Laptop.running)).2
    (Reconcile (laptop_service Laptop.down) 50 "acme" "e1" (d_ready, Laptop.running)).1.1.
Proof.
  apply (tunnel_outage Laptop.laptop Laptop.cfg Laptop.down (laptop_service Laptop.down) 50 "acme" "e1" d_ready Laptop.running
    (resource_at d_ready) (default demo_instance (db_providers d_ready !! "p1"))).
  - apply (reachable_res_keyed demo_service), ready_reachable.
  - vm_compute. reflexivity.
  - left. vm_compute. reflexivity.
  - vm_compute. reflexivity.
  - reflexivity.
  - discriminate.
Defined.

(** ** Where code and comments part *)

(** [Terminate] says that a revoked agent released everything it held: it
    released the environment the revocation named, and no other. *)
Example revoked_agent_keeps_running :
  let s1 := (RevokeLease Laptop.laptop Laptop.cfg Laptop.up (Some (JStr "e1")) Laptop.running).1 in
  asWorld s1 = ["e2"] ∧
  Terminate Laptop.laptop Laptop.cfg Laptop.up (Laptop.env "e2") s1 = (s1, Ok ()) ∧
  Resources Laptop.laptop Laptop.cfg Laptop.up "e2" s1 = (s1, Ok []).
Proof. vm_compute. split_and!; reflexivity. Qed.

(** The probe advertises that resources are enumerated, and the listing is empty
    whatever the machine runs. *)
Example tunnel_lists_nothing :
  capSupported <$> match (Probe Laptop.laptop Laptop.cfg Laptop.up Laptop.running).2 with Ok c => [c] | Err _ => [] end =
    [["serves_tool_endpoint"; "enumerates_resources"; "tolerates_disconnect"; "restart_preserves_state"]] ∧
  ListOwned Laptop.running = (Laptop.running, Ok []).
Proof. vm_compute. split; reflexivity. Qed.
