(* ===== verification/TunnelBroker.v ===== *)
(** * The tunnel broker ([provider/tunnel/broker.go])

    Agents dial out to the broker and offer connections; the platform's requests
    take them.  Each of the broker's critical sections, and each of the points
    where a request waits, is one step; the steps of all goroutines interleave.

    A connection is a number.  A request that finds no connection parks on a
    channel with a buffer of one; the channel is that of the request, so the
    request's entry holds its buffer.  Accepting, authenticating and writing the
    reply are the arguments of a step.  The transport's idle pool, which the
    closers drop, is a list of connections it was issued.  [AgentDialer], the
    agent's side, is the pacing of its dials. *)
From S2P Require Import Prelude Policy Domain Text Store Strings GoJson.

Notation conn := nat (only parsing).

(** A request: parked, woken with a connection, done, or given up. *)
Inductive progress := Parked | Woken (c : conn) | Done (c : conn) | GaveUp.
Record request := MkRequest { tkAgent : string; tkProgress : progress; tkBuffer : option conn }.

Record agentPool := MkPool {
  apConns : list conn;
  apClosed : bool;
  apIssued : list conn;
  apClosers : nat;
  apWaiters : list nat;
}.
Definition empty_pool : agentPool := MkPool [] false [] 0 [].

(** [bkOffered] are the connections with the agents that offered them, [bkClosed]
    the idle ones [Disconnect] closed, [bkSevered] the issued ones, [bkRefused]
    those [accept] closed. *)
Record Broker := MkBroker {
  bkAgents : gmap string agentPool;
  bkRequests : list request;
  bkOffered : list (string * conn);
  bkClosed : list conn;
  bkSevered : list conn;
  bkRefused : list conn;
}.
Definition NewBroker : Broker := MkBroker ∅ [] [] [] [] [].

Definition with_agents (m : gmap string agentPool) (b : Broker) : Broker :=
  MkBroker m (bkRequests b) (bkOffered b) (bkClosed b) (bkSevered b) (bkRefused b).
Definition with_requests (l : list request) (b : Broker) : Broker :=
  MkBroker (bkAgents b) l (bkOffered b) (bkClosed b) (bkSevered b) (bkRefused b).
Definition set_progress (p : progress) (t : request) : request := MkRequest (tkAgent t) p (tkBuffer t).
Definition set_buffer (c : option conn) (t : request) : request := MkRequest (tkAgent t) (tkProgress t) c.

(** ** Pools *)

Definition pool (b : Broker) (agent : string) : agentPool := default empty_pool (bkAgents b !! agent).
Definition put_pool (agent : string) (p : agentPool) (b : Broker) : Broker := with_agents (<[agent := p]> (bkAgents b)) b.

Definition Connected (b : Broker) (agent : string) : bool :=
  match bkAgents b !! agent with Some p => negb (bool_decide (apConns p = [])) | None => false end.

(** The loop of [offer]: the first parked request whose channel has room.  What
    is left of the waiters, the requests, and whether one took it. *)
Fixpoint hand_over (c : conn) (waiters : list nat) (l : list request) : list nat * list request * bool :=
  match waiters with
  | [] => ([], l, false)
  | w :: rest =>
      match l !! w with
      | Some t => match tkBuffer t with
                  | None => (rest, <[w := set_buffer (Some c) t]> l, true)
                  | Some _ => hand_over c rest l
                  end
      | None => hand_over c rest l
      end
  end.

Definition offer (agent : string) (c : conn) (b : Broker) : Broker :=
  let p := pool b agent in
  let b := MkBroker (bkAgents b) (bkRequests b) (bkOffered b ++ [(agent, c)]) (bkClosed b) (bkSevered b) (bkRefused b) in
  if apClosed p then MkBroker (bkAgents b) (bkRequests b) (bkOffered b) (bkClosed b ++ [c]) (bkSevered b) (bkRefused b)
  else
    let '(waiters, l, taken) := hand_over c (apWaiters p) (bkRequests b) in
    let conns := if taken then apConns p else apConns p ++ [c] in
    with_requests l (put_pool agent (MkPool conns (apClosed p) (apIssued p) (apClosers p) waiters) b).

(** ** Accepting *)

(** [registration] *)
Definition registration_json (token : string) : json := JObj [("token", JStr token)].
Definition set_registration (k : string) (v : json) (r : string * string) : option (string * string) :=
  if key_matches "token" k then t ← set_string v r.1; Some (t, r.2)
  else if key_matches "agent" k then a ← set_string v r.2; Some (r.1, a)
  else Some r.

(** The agent the connection registers; [line] is what was read up to the first
    newline, [None] an error, [replied] whether the answer could be written. *)
Definition registers `{JsonText} (Authenticate : string → option string) (line : option string) (replied : bool) : option string :=
  line ← line;
  j ← unmarshal line;
  reg ← decode_struct set_registration ("", "") j;
  agent ← Authenticate reg.1;
  if bool_decide (agent = "") then None else if replied then Some agent else None.

Definition accept `{JsonText} (Authenticate : string → option string) (line : option string) (replied : bool) (c : conn) (b : Broker)
  : Broker :=
  match registers Authenticate line replied with
  | Some agent => offer agent c b
  | None => MkBroker (bkAgents b) (bkRequests b) (bkOffered b) (bkClosed b) (bkSevered b) (bkRefused b ++ [c])
  end.

(** ** Taking *)

(** Up to the wait: a connection at once, or a place among the waiters. *)
Definition take (agent : string) (b : Broker) : Broker :=
  let p := pool b agent in
  match apConns p with
  | c :: rest =>
      with_requests (bkRequests b ++ [MkRequest agent (Done c) None])
        (put_pool agent (MkPool rest (apClosed p) (apIssued p ++ [c]) (apClosers p) (apWaiters p)) b)
  | [] =>
      with_requests (bkRequests b ++ [MkRequest agent Parked None])
        (put_pool agent (MkPool [] (apClosed p) (apIssued p) (apClosers p) (apWaiters p ++ [length (bkRequests b)])) b)
  end.

(** [case conn := <-waiter] *)
Definition wake (w : nat) (b : Broker) : Broker :=
  match bkRequests b !! w with
  | Some t => match tkProgress t, tkBuffer t with
              | Parked, Some c => with_requests (<[w := MkRequest (tkAgent t) (Woken c) None]> (bkRequests b)) b
              | _, _ => b
              end
  | None => b
  end.

(** The critical section after it. *)
Definition record_issued (w : nat) (b : Broker) : Broker :=
  match bkRequests b !! w with
  | Some t => match tkProgress t with
              | Woken c =>
                  let p := pool b (tkAgent t) in
                  with_requests (<[w := set_progress (Done c) t]> (bkRequests b))
                    (put_pool (tkAgent t) (MkPool (apConns p) (apClosed p) (apIssued p ++ [c]) (apClosers p) (apWaiters p)) b)
              | _ => b
              end
  | None => b
  end.

(** [case <-timer.C] and [case <-ctx.Done()]: the channel stays where it is. *)
Definition abandon (w : nat) (b : Broker) : Broker :=
  match bkRequests b !! w with
  | Some t => match tkProgress t with
              | Parked => with_requests (<[w := set_progress GaveUp t]> (bkRequests b)) b
              | _ => b
              end
  | None => b
  end.

(** ** Transports and disconnecting *)

(** [TransportWithWait] registers its closer. *)
Definition TransportWithWait (agent : string) (b : Broker) : Broker :=
  let p := pool b agent in
  put_pool agent (MkPool (apConns p) (apClosed p) (apIssued p) (S (apClosers p)) (apWaiters p)) b.

Definition Disconnect (agent : string) (b : Broker) : Broker :=
  match bkAgents b !! agent with
  | None => b
  | Some p =>
      MkBroker (<[agent := MkPool [] (apClosed p) [] (apClosers p) (apWaiters p)]> (bkAgents b)) (bkRequests b) (bkOffered b)
        (bkClosed b ++ apConns p) (bkSevered b ++ apIssued p) (bkRefused b)
  end.

(** ** Histories *)

Inductive broker_op :=
  | BoAccept (c : conn) (agent : option string)
  | BoTake (agent : string)
  | BoWake (w : nat)
  | BoRecord (w : nat)
  | BoGiveUp (w : nat)
  | BoTransport (agent : string)
  | BoDisconnect (agent : string).

(** [agent] is what [registers] made of the connection. *)
Definition broker_op_run (o : broker_op) (b : Broker) : Broker :=
  match o with
  | BoAccept c (Some agent) => offer agent c b
  | BoAccept c None => MkBroker (bkAgents b) (bkRequests b) (bkOffered b) (bkClosed b) (bkSevered b) (bkRefused b ++ [c])
  | BoTake agent => take agent b
  | BoWake w => wake w b
  | BoRecord w => record_issued w b
  | BoGiveUp w => abandon w b
  | BoTransport agent => TransportWithWait agent b
  | BoDisconnect agent => Disconnect agent b
  end.

(** A listener accepts a connection once. *)
Definition broker_step (b b' : Broker) : Prop :=
  ∃ o, match o with BoAccept c _ => c ∉ (bkOffered b).*2 ++ bkRefused b | _ => True end ∧ b' = broker_op_run o b.

(** ** The agent's side *)

Definition minRedialDelay : Z := 250000000.
Definition maxRedialDelay : Z := 5000000000.

(** [AgentDialer.maintain]: the pauses of one connection's loop, for the
    outcomes of its dials ([true] is a connection, served until it ends); the
    context ends with the list. *)
Fixpoint maintain (backoff : Z) (dials : list bool) : list Z :=
  match dials with
  | [] => []
  | true :: rest => minRedialDelay :: maintain minRedialDelay rest
  | false :: rest => backoff :: maintain (if bool_decide (backoff < maxRedialDelay)%Z then backoff * 2 else backoff) rest
  end.
Definition redial_pauses (dials : list bool) : list Z := maintain minRedialDelay dials.

(** [AgentDialer.offer]: the line written, and what makes of the reply. *)
Definition registration_line `{JsonText} (token : string) : string := marshal (registration_json token) +:+ newline.
Definition offer_accepted (reply : option string) : bool := bool_decide (reply = Some ("ok" +:+ newline)).

(** [singleConnListener.Accept]: the connection once, then [io.EOF]. *)
Definition Accept (served : bool) (c : conn) : bool * option conn := if served then (true, None) else (true, Some c).
