(* ===== verification/BrokerSpec.v ===== *)
(** * What the broker promises

    Whatever the interleaving of agents that offer, requests that take, time out
    or are woken, and disconnects: an offered connection is in one place, no two
    requests get the same one, and what the broker says it issued was received.
    An agent's dials are paced.  The last section has two histories the comments
    exclude. *)
From S2P Require Import Prelude Policy Domain Text Store Strings GoJson TunnelBroker.

(** ** Places *)

Definition idle (m : gmap string agentPool) : list conn := map_to_list m ≫= (λ kv, apConns kv.2).
Definition held_by (t : request) : option conn :=
  match tkProgress t with Woken c | Done c => Some c | _ => None end.
Definition places (b : Broker) : list conn :=
  idle (bkAgents b) ++ omap tkBuffer (bkRequests b) ++ omap held_by (bkRequests b) ++ bkClosed b.

(** Replacing one entry of a list moves what the old one had to the new one. *)
Lemma omap_insert_perm {A B} (f : A → option B) (l : list A) i x y : l !! i = Some x →
  omap f (<[i := y]> l) ++ option_list (f x) ≡ₚ omap f l ++ option_list (f y).
Proof.
  intros Hi. rewrite <-(take_drop_middle l i x Hi) at 2. rewrite insert_take_drop by (by eapply lookup_lt_Some).
  rewrite !omap_app. simpl. destruct (f x), (f y); simpl; solve_Permutation.
Qed.
Lemma omap_insert_same {A B} (f : A → option B) (l : list A) i x y : l !! i = Some x → f y = f x →
  omap f (<[i := y]> l) = omap f l.
Proof.
  intros Hi E. rewrite <-(take_drop_middle l i x Hi) at 2. rewrite insert_take_drop by (by eapply lookup_lt_Some).
  rewrite !omap_app. simpl. by rewrite E.
Qed.

(** The same for the pools; a pool that is missing is empty. *)
Lemma idle_fresh m a p : m !! a = None → idle (<[a := p]> m) ≡ₚ apConns p ++ idle m.
Proof. intros Hm. unfold idle. by rewrite map_to_list_insert. Qed.
Lemma idle_put b a p : idle (<[a := p]> (bkAgents b)) ++ apConns (pool b a) ≡ₚ apConns p ++ idle (bkAgents b).
Proof.
  unfold pool. destruct (bkAgents b !! a) as [q|] eqn:E; simpl.
  - rewrite <-(insert_id (bkAgents b) a q E) at 2. rewrite <-(insert_delete_eq (bkAgents b) a p), <-(insert_delete_eq (bkAgents b) a q).
    rewrite !idle_fresh by apply lookup_delete_eq. solve_Permutation.
  - rewrite app_nil_r. by apply idle_fresh.
Qed.

(** ** One step *)

(** What a step leaves of the requests: who asked, and what was received. *)
Definition requests_le (l l' : list request) : Prop := ∀ w t, l !! w = Some t →
  ∃ t', l' !! w = Some t' ∧ tkAgent t' = tkAgent t ∧ (∀ c, tkProgress t = Done c → tkProgress t' = Done c).

#[export] Instance requests_le_pre : PreOrder requests_le.
Proof.
  split; [intros l w t Ht; by exists t|]. intros a b c Hab Hbc w t Ht. destruct (Hab w t Ht) as (u & Hu & Ea & Hd).
  destruct (Hbc w u Hu) as (v & Hv & Eb & He). exists v. split_and!; [done|congruence|auto].
Qed.
Lemma requests_le_insert l w t t' : l !! w = Some t → tkAgent t' = tkAgent t →
  (∀ c, tkProgress t = Done c → tkProgress t' = Done c) → requests_le l (<[w := t']> l).
Proof.
  intros Hw Ha Hd v u Hu. destruct (decide (v = w)) as [->|Hne].
  - simplify_eq. exists t'. split; [|done]. apply list_lookup_insert_eq. by eapply lookup_lt_Some.
  - exists u. by rewrite list_lookup_insert_ne.
Qed.
Lemma requests_le_app l k : requests_le l (l ++ k).
Proof. intros w t Ht. exists t. split; [|done]. by apply lookup_app_l_Some. Qed.

Lemma hand_over_spec c ws l :
  let '(_, l', taken) := hand_over c ws l in
  omap tkBuffer l' ≡ₚ omap tkBuffer l ++ (if taken then [c] else []) ∧ omap held_by l' = omap held_by l ∧ requests_le l l'.
Proof.
  induction ws as [|w ws IH]; simpl; [by rewrite app_nil_r|].
  destruct (l !! w) as [t|] eqn:Hw; [|done]. destruct (tkBuffer t) eqn:Hb; [done|]. split_and!.
  - pose proof (omap_insert_perm tkBuffer l w t (set_buffer (Some c) t) Hw) as Hp. rewrite Hb in Hp. simpl in Hp.
    by rewrite app_nil_r in Hp.
  - by apply (omap_insert_same _ _ _ t).
  - by apply (requests_le_insert _ _ t).
Qed.

(** What is issued or severed was received by a request of that agent. *)
Definition received_by (b : Broker) (agent : string) (c : conn) : Prop :=
  ∃ w t, bkRequests b !! w = Some t ∧ tkAgent t = agent ∧ tkProgress t = Done c.
Definition issued_ok (b : Broker) : Prop :=
  (∀ a p c, bkAgents b !! a = Some p → c ∈ apIssued p → received_by b a c) ∧
  (∀ c, c ∈ bkSevered b → ∃ a, received_by b a c).

Lemma received_by_le b b' a c : requests_le (bkRequests b) (bkRequests b') → received_by b a c → received_by b' a c.
Proof. intros Hle (w & t & Hw & Ha & Hd). destruct (Hle w t Hw) as (t' & ? & ? & ?). exists w, t'. split_and!; [done|congruence|auto]. Qed.

Lemma issued_ok_put b b' a p :
  issued_ok b → requests_le (bkRequests b) (bkRequests b') → bkSevered b' = bkSevered b →
  bkAgents b' = <[a := p]> (bkAgents b) → (∀ c, c ∈ apIssued p → c ∈ apIssued (pool b a) ∨ received_by b' a c) → issued_ok b'.
Proof.
  intros [Hi Hs] Hle Es Ea Hp. split.
  - intros a' q c. rewrite Ea, lookup_insert_Some. intros [[<- <-]|[_ Hq]] Hc; [|eapply received_by_le; eauto].
    destruct (Hp c Hc) as [Hold|?]; [|done]. unfold pool in Hold. destruct (bkAgents b !! a) as [q|] eqn:E; simpl in Hold;
      [eapply received_by_le; eauto|by apply elem_of_nil in Hold].
  - intros c. rewrite Es. intros Hc. destruct (Hs c Hc) as [a' ?]. exists a'. by eapply received_by_le.
Qed.
Lemma issued_ok_requests b b' :
  issued_ok b → requests_le (bkRequests b) (bkRequests b') → bkSevered b' = bkSevered b → bkAgents b' = bkAgents b → issued_ok b'.
Proof.
  intros [Hi Hs] Hle Es Ea. split.
  - intros a p c. rewrite Ea. intros. eapply received_by_le; eauto.
  - intros c. rewrite Es. intros Hc. destruct (Hs c Hc) as [a' ?]. exists a'. by eapply received_by_le.
Qed.

Record step_spec (b b' : Broker) : Prop := {
  st_offered : ∃ new, bkOffered b' = bkOffered b ++ new ∧ places b' ≡ₚ places b ++ new.*2;
  st_requests : requests_le (bkRequests b) (bkRequests b');
  st_issued : issued_ok b → issued_ok b';
}.

Lemma offer_spec a c b : step_spec b (offer a c b).
Proof.
  unfold offer. cbn [bkAgents bkRequests bkOffered bkClosed bkSevered bkRefused]. destruct (apClosed (pool b a)).
  { split; [exists [(a, c)]; split; [done|]; unfold places; cbn; by rewrite !app_assoc|reflexivity|].
    intros Hi. by apply (issued_ok_requests b). }
  pose proof (hand_over_spec c (apWaiters (pool b a)) (bkRequests b)) as Hh.
  destruct (hand_over _ _ _) as [[ws l] taken]. destruct Hh as (Hb & Hd & Hle). split.
  - exists [(a, c)]. split; [done|]. unfold places. cbn.
    pose proof (idle_put b a (MkPool (if taken then apConns (pool b a) else apConns (pool b a) ++ [c]) false
      (apIssued (pool b a)) (apClosers (pool b a)) ws)) as Hp. cbn in Hp. rewrite Hb, Hd.
    apply (Permutation_app_inv_r (apConns (pool b a))).
    assert (∀ x y z w : list conn, (x ++ y ++ z ++ w) ++ apConns (pool b a) ≡ₚ (x ++ apConns (pool b a)) ++ y ++ z ++ w) as Hmove
      by (intros; solve_Permutation).
    rewrite Hmove, Hp. destruct taken; solve_Permutation.
  - done.
  - intros Hi. eapply (issued_ok_put b _ a); [done|done|done|done|]. intros e He. by left.
Qed.

(** A pool replaced, the requests changed: the connections they had before and
    have now. *)
Lemma places_put b a p l (x y : list conn) :
  apConns p ++ x ++ y ≡ₚ apConns (pool b a) →
  omap tkBuffer l ≡ₚ omap tkBuffer (bkRequests b) ++ x → omap held_by l ≡ₚ omap held_by (bkRequests b) ++ y →
  places (with_requests l (put_pool a p b)) ≡ₚ places b.
Proof.
  intros Hc Hx Hy. unfold places. cbn. rewrite Hx, Hy. apply (Permutation_app_inv_r (apConns (pool b a))).
  assert (∀ i k m n : list conn, (i ++ (k ++ x) ++ (m ++ y) ++ n) ++ apConns (pool b a) ≡ₚ
    (i ++ apConns (pool b a)) ++ (x ++ y) ++ k ++ m ++ n) as Hmove by (intros; solve_Permutation).
  rewrite Hmove, idle_put, <-Hc. solve_Permutation.
Qed.

Lemma take_spec a b : step_spec b (take a b).
Proof.
  unfold take. destruct (apConns (pool b a)) as [|c rest] eqn:E; split.
  - exists []. rewrite !app_nil_r. split; [done|]. apply (places_put _ _ _ _ [] []); [by rewrite E|..]; by rewrite omap_app.
  - apply requests_le_app.
  - intros Hi. eapply (issued_ok_put b _ a); [done|apply requests_le_app|done|done|]. intros e He. by left.
  - exists []. rewrite !app_nil_r. split; [done|]. apply (places_put _ _ _ _ [] [c]).
    + rewrite E. simpl. solve_Permutation.
    + by rewrite omap_app.
    + by rewrite omap_app.
  - apply requests_le_app.
  - intros Hi. eapply (issued_ok_put b _ a); [done|apply requests_le_app|done|done|]. cbn. intros e.
    rewrite elem_of_app, list_elem_of_singleton. intros [He| ->]; [by left|right].
    exists (length (bkRequests b)), (MkRequest a (Done c) None). split_and!; [|done..]. by apply list_lookup_middle.
Qed.

Lemma wake_spec w b : step_spec b (wake w b).
Proof.
  assert (step_spec b b) as Hsame
    by (split; [exists []; by rewrite !app_nil_r|reflexivity|done]).
  unfold wake. destruct (bkRequests b !! w) as [t|] eqn:Hw; [|done].
  destruct (tkProgress t) eqn:Ep; try done. destruct (tkBuffer t) as [c|] eqn:Eb; [|done].
  assert (requests_le (bkRequests b) (<[w := MkRequest (tkAgent t) (Woken c) None]> (bkRequests b))) as Hle
    by (apply (requests_le_insert _ _ t); [done|done|by rewrite Ep]). split.
  - exists []. rewrite !app_nil_r. split; [done|]. unfold places. cbn.
    pose proof (omap_insert_perm tkBuffer _ w t (MkRequest (tkAgent t) (Woken c) None) Hw) as Hp1.
    pose proof (omap_insert_perm held_by _ w t (MkRequest (tkAgent t) (Woken c) None) Hw) as Hp2.
    unfold held_by in Hp2 at 2 4. rewrite Eb in Hp1. rewrite Ep in Hp2. cbn in Hp1, Hp2. rewrite app_nil_r in Hp1, Hp2.
    rewrite <-Hp1, Hp2. solve_Permutation.
  - done.
  - intros Hi. by apply (issued_ok_requests b).
Qed.

Lemma record_spec w b : step_spec b (record_issued w b).
Proof.
  assert (step_spec b b) as Hsame
    by (split; [exists []; by rewrite !app_nil_r|reflexivity|done]).
  unfold record_issued. destruct (bkRequests b !! w) as [t|] eqn:Hw; [|done]. destruct (tkProgress t) as [|c|c|] eqn:Ep; try done.
  assert (requests_le (bkRequests b) (<[w := set_progress (Done c) t]> (bkRequests b))) as Hle
    by (apply (requests_le_insert _ _ t); [done|done|by rewrite Ep]). split.
  - exists []. rewrite !app_nil_r. split; [done|]. apply (places_put _ _ _ _ [] []); rewrite ?app_nil_r; [done|..].
    + by rewrite (omap_insert_same _ _ _ t).
    + rewrite (omap_insert_same _ _ _ t); [done|done|]. unfold held_by. by rewrite Ep.
  - done.
  - intros Hi. eapply (issued_ok_put b _ (tkAgent t)); [done|done|done|done|]. cbn. intros e.
    rewrite elem_of_app, list_elem_of_singleton. intros [He| ->]; [by left|right].
    exists w, (set_progress (Done c) t). split_and!; [|done..]. apply list_lookup_insert_eq. by eapply lookup_lt_Some.
Qed.

Lemma abandon_spec w b : step_spec b (abandon w b).
Proof.
  assert (step_spec b b) as Hsame
    by (split; [exists []; by rewrite !app_nil_r|reflexivity|done]).
  unfold abandon. destruct (bkRequests b !! w) as [t|] eqn:Hw; [|done]. destruct (tkProgress t) eqn:Ep; try done.
  assert (requests_le (bkRequests b) (<[w := set_progress GaveUp t]> (bkRequests b))) as Hle
    by (apply (requests_le_insert _ _ t); [done|done|by rewrite Ep]). split.
  - exists []. rewrite !app_nil_r. split; [done|]. unfold places. cbn.
    rewrite !(omap_insert_same _ _ _ t); [done|done|unfold held_by; by rewrite Ep|done|done].
  - done.
  - intros Hi. by apply (issued_ok_requests b).
Qed.

Lemma transport_spec a b : step_spec b (TransportWithWait a b).
Proof.
  split; [|reflexivity|].
  - exists []. rewrite !app_nil_r. split; [done|].
    apply (places_put b a (MkPool (apConns (pool b a)) _ _ _ _) (bkRequests b) [] []); by rewrite ?app_nil_r.
  - intros Hi. eapply (issued_ok_put b _ a); [done|reflexivity|done|done|]. intros e He. by left.
Qed.

Lemma disconnect_spec a b : step_spec b (Disconnect a b).
Proof.
  unfold Disconnect. destruct (bkAgents b !! a) as [p|] eqn:E; [|split; [exists []; by rewrite !app_nil_r|reflexivity|done]].
  split; [|reflexivity|].
  - exists []. rewrite !app_nil_r. split; [done|]. unfold places. cbn.
    pose proof (idle_put b a (MkPool [] (apClosed p) [] (apClosers p) (apWaiters p))) as Hp.
    unfold pool in Hp. rewrite E in Hp. cbn in Hp. rewrite <-Hp. solve_Permutation.
  - intros [Hi Hs]. split; cbn.
    + intros a' q c. rewrite lookup_insert_Some. intros [[<- <-]|[_ Hq]] Hc; [by apply elem_of_nil in Hc|by apply (Hi a' q)].
    + intros c. rewrite elem_of_app. intros [Hc|Hc]; [by apply Hs|]. exists a. by apply (Hi a p).
Qed.

(** ** Histories *)

Lemma step_meets_spec b b' : broker_step b b' → step_spec b b'.
Proof.
  intros (o & _ & ->). destruct o as [c [a|]|a|w|w|w|a|a]; cbn.
  - apply offer_spec.
  - split; [exists []; by rewrite !app_nil_r|reflexivity|]. intros Hi. by apply (issued_ok_requests b).
  - apply take_spec.
  - apply wake_spec.
  - apply record_spec.
  - apply abandon_spec.
  - apply transport_spec.
  - apply disconnect_spec.
Qed.

(** Only [accept] adds a connection, and adds one that is new. *)
Lemma step_fresh b b' : broker_step b b' → NoDup ((bkOffered b).*2 ++ bkRefused b) → NoDup ((bkOffered b').*2 ++ bkRefused b').
Proof.
  intros (o & Hc & ->) Hnd.
  assert (∀ d, bkOffered d = bkOffered b → bkRefused d = bkRefused b → NoDup ((bkOffered d).*2 ++ bkRefused d)) as Hsame
    by (by intros d -> ->).
  assert (∀ c, c ∉ (bkOffered b).*2 ++ bkRefused b → NoDup (c :: (bkOffered b).*2 ++ bkRefused b)) as Hnew by (intros; by apply NoDup_cons).
  destruct o as [c [a|]|a|w|w|w|a|a]; cbn.
  - assert (bkOffered (offer a c b) = bkOffered b ++ [(a, c)] ∧ bkRefused (offer a c b) = bkRefused b) as [-> ->]
      by (unfold offer; repeat case_match; done).
    rewrite fmap_app. assert (((bkOffered b).*2 ++ [(a, c)].*2) ++ bkRefused b ≡ₚ c :: (bkOffered b).*2 ++ bkRefused b) as -> by solve_Permutation. auto.
  - assert ((bkOffered b).*2 ++ bkRefused b ++ [c] ≡ₚ c :: (bkOffered b).*2 ++ bkRefused b) as -> by solve_Permutation. auto.
  - by apply Hsame; unfold take; case_match.
  - by apply Hsame; unfold wake; repeat case_match.
  - by apply Hsame; unfold record_issued; repeat case_match.
  - by apply Hsame; unfold abandon; repeat case_match.
  - by apply Hsame.
  - by apply Hsame; unfold Disconnect; case_match.
Qed.

(** ** Routing *)

(** A connection is kept for, and given to, requests to the agent that offered
    it; the waiters of a pool are requests to its agent. *)
Definition has_own (offered : list (string * conn)) (t : request) : Prop :=
  ∀ c, tkBuffer t = Some c ∨ held_by t = Some c → (tkAgent t, c) ∈ offered.
Definition pool_own (b : Broker) (a : string) (p : agentPool) : Prop :=
  (∀ c, c ∈ apConns p → (a, c) ∈ bkOffered b) ∧
  (∀ w, w ∈ apWaiters p → ∃ t, bkRequests b !! w = Some t ∧ tkAgent t = a).
Record routed (b : Broker) : Prop := {
  rt_pools : map_Forall (pool_own b) (bkAgents b);
  rt_requests : Forall (has_own (bkOffered b)) (bkRequests b);
}.

Lemma pool_own_le b b' a p : bkOffered b ⊆ bkOffered b' → requests_le (bkRequests b) (bkRequests b') →
  pool_own b a p → pool_own b' a p.
Proof.
  intros Ho Hle [Hc Hw]. split; [auto|]. intros w Hin. destruct (Hw w Hin) as (t & Ht & Ea).
  destruct (Hle w t Ht) as (t' & Ht' & E & _). exists t'. split; [done|congruence].
Qed.
Lemma has_own_le o o' l : o ⊆ o' → Forall (has_own o) l → Forall (has_own o') l.
Proof. intros Ho Hl. eapply Forall_impl; [exact Hl|]. intros t Ht c Hc. auto. Qed.
Lemma routed_pool b a : routed b → pool_own b a (pool b a).
Proof.
  intros Hr. unfold pool. destruct (bkAgents b !! a) as [p|] eqn:E; [by apply (rt_pools b Hr)|].
  split; intros x Hx; by apply elem_of_nil in Hx.
Qed.
Lemma routed_put b b' a p : routed b → bkOffered b ⊆ bkOffered b' → requests_le (bkRequests b) (bkRequests b') →
  bkAgents b' = <[a := p]> (bkAgents b) → pool_own b' a p → Forall (has_own (bkOffered b')) (bkRequests b') → routed b'.
Proof.
  intros Hr Ho Hle Ea Hp Hl. split; [|done]. rewrite Ea. apply map_Forall_insert_2; [done|].
  intros i q Hq. apply (pool_own_le b); [done|done|by apply (rt_pools b Hr)].
Qed.
Lemma routed_requests b l : routed b → requests_le (bkRequests b) l → Forall (has_own (bkOffered b)) l →
  routed (with_requests l b).
Proof.
  intros Hr Hle Hl. split; [|done]. intros i q Hq. apply (pool_own_le b); [done|exact Hle|by apply (rt_pools b Hr)].
Qed.

Lemma hand_over_own o a c ws l :
  (a, c) ∈ o → (∀ w, w ∈ ws → ∃ t, l !! w = Some t ∧ tkAgent t = a) → Forall (has_own o) l →
  let '(ws', l', _) := hand_over c ws l in ws' ⊆ ws ∧ Forall (has_own o) l'.
Proof.
  intros Hc. induction ws as [|w ws IH]; intros Hw Hl; simpl; [done|].
  destruct (Hw w (list_elem_of_here _ _)) as (t & Ht & Ea). rewrite Ht.
  assert (∀ v, v ∈ ws → ∃ t, l !! v = Some t ∧ tkAgent t = a) as Hw' by (intros; apply Hw; by apply list_elem_of_further).
  destruct (tkBuffer t) eqn:Eb.
  - specialize (IH Hw' Hl). destruct (hand_over c ws l) as [[ws' l'] k]. destruct IH. split; [set_solver|done].
  - split; [set_solver|]. apply Forall_insert; [done|]. intros c' [[= <-]|Hc']; [cbn; by rewrite Ea|].
    apply (Forall_lookup_1 _ _ _ _ Hl Ht). by right.
Qed.

Lemma routed_offer a c b : routed b → routed (offer a c b).
Proof.
  intros Hr. assert (bkOffered b ⊆ bkOffered b ++ [(a, c)]) as Ho by set_solver.
  assert (pool_own (MkBroker (bkAgents b) (bkRequests b) (bkOffered b ++ [(a, c)]) (bkClosed b) (bkSevered b) (bkRefused b)) a (pool b a))
    as [Hpc Hpw] by (apply (pool_own_le b); [exact Ho|reflexivity|by apply routed_pool]).
  pose proof (has_own_le _ _ _ Ho (rt_requests b Hr)) as Hl.
  unfold offer. cbn [bkAgents bkRequests bkOffered bkClosed bkSevered bkRefused]. destruct (apClosed (pool b a)).
  { split; [|done]. intros i q Hq. apply (pool_own_le b); [exact Ho|reflexivity|by apply (rt_pools b Hr)]. }
  pose proof (hand_over_spec c (apWaiters (pool b a)) (bkRequests b)) as Hs.
  pose proof (hand_over_own (bkOffered b ++ [(a, c)]) a c (apWaiters (pool b a)) (bkRequests b) ltac:(set_solver) Hpw Hl) as Hh.
  destruct (hand_over _ _ _) as [[ws l] taken]. destruct Hs as (_ & _ & Hle), Hh as [Hws Hl'].
  eapply (routed_put b _ a); [done|exact Ho|exact Hle|done| |exact Hl']. split; cbn.
  - intros e. destruct taken; [apply Hpc|]. rewrite elem_of_app, list_elem_of_singleton. intros [He| ->]; [by apply Hpc|set_solver].
  - intros w Hw. destruct (Hpw w (Hws w Hw)) as (t & Ht & Ea). destruct (Hle w t Ht) as (t' & Ht' & E & _).
    exists t'. split; [done|congruence].
Qed.

Lemma routed_take a b : routed b → routed (take a b).
Proof.
  intros Hr. destruct (routed_pool b a Hr) as [Hpc Hpw]. pose proof (rt_requests b Hr) as Hl.
  assert (∀ t (w : nat), w ∈ apWaiters (pool b a) → ∃ t', (bkRequests b ++ [t]) !! w = Some t' ∧ tkAgent t' = a) as Hold.
  { intros t w Hw. destruct (Hpw w Hw) as (t' & Ht' & Ea). exists t'. split; [by apply lookup_app_l_Some|done]. }
  unfold take. destruct (apConns (pool b a)) as [|c rest] eqn:E;
    (eapply (routed_put b _ a); [done|done|apply requests_le_app|done|split; cbn|cbn; apply Forall_app; split; [done|]]).
  - intros c Hc. by apply elem_of_nil in Hc.
  - intros w. rewrite elem_of_app, list_elem_of_singleton. intros [Hw| ->]; [by apply Hold|].
    exists (MkRequest a Parked None). split; [by apply list_lookup_middle|done].
  - apply Forall_singleton. by intros c [|].
  - intros e He. apply Hpc. by apply list_elem_of_further.
  - apply Hold.
  - apply Forall_singleton. intros e [|[= <-]]; [done|]. apply Hpc, list_elem_of_here.
Qed.

Lemma routed_step b b' : broker_step b b' → routed b → routed b'.
Proof.
  intros (o & _ & ->) Hr. pose proof (rt_requests b Hr) as Hl.
  assert (∀ w t t', bkRequests b !! w = Some t → tkAgent t' = tkAgent t →
    (∀ c, tkBuffer t' = Some c ∨ held_by t' = Some c → tkBuffer t = Some c ∨ held_by t = Some c) →
    Forall (has_own (bkOffered b)) (<[w := t']> (bkRequests b))) as Hins.
  { intros w t t' Ht Ea Hc. apply Forall_insert; [done|]. intros c H'. rewrite Ea. by apply (Forall_lookup_1 _ _ _ _ Hl Ht), Hc. }
  destruct o as [c [a|]|a|w|w|w|a|a]; cbn.
  - by apply routed_offer.
  - by destruct Hr.
  - by apply routed_take.
  - unfold wake. destruct (bkRequests b !! w) as [t|] eqn:Ht; [|done]. destruct (tkProgress t) eqn:Ep; try done.
    destruct (tkBuffer t) as [c|] eqn:Eb; [|done]. apply routed_requests; [done|apply (requests_le_insert _ _ t); [done|done|by rewrite Ep]|].
    apply (Hins w t); [done|done|]. cbn. intros e [|]; [done|by left; rewrite Eb].
  - unfold record_issued. destruct (bkRequests b !! w) as [t|] eqn:Ht; [|done]. destruct (tkProgress t) as [|c|c|] eqn:Ep; try done.
    assert (requests_le (bkRequests b) (<[w := set_progress (Done c) t]> (bkRequests b))) as Hle
      by (apply (requests_le_insert _ _ t); [done|done|by rewrite Ep]).
    eapply (routed_put b _ (tkAgent t)); [done|done|exact Hle|done| |].
    + destruct (routed_pool b (tkAgent t) Hr) as [Hpc Hpw]. apply (pool_own_le b); [|exact Hle|exact (conj Hpc Hpw)]. done.
    + apply (Hins w t); [done|done|]. unfold held_by. rewrite Ep. done.
  - unfold abandon. destruct (bkRequests b !! w) as [t|] eqn:Ht; [|done]. destruct (tkProgress t) eqn:Ep; try done.
    apply routed_requests; [done|apply (requests_le_insert _ _ t); [done|done|by rewrite Ep]|].
    apply (Hins w t); [done|done|]. cbn. intros e [|]; [by left|done].
  - eapply (routed_put b _ a); [done|done|reflexivity|done|exact (routed_pool b a Hr)|done].
  - unfold Disconnect. destruct (bkAgents b !! a) as [p|] eqn:E; [|done].
    eapply (routed_put b _ a); [done|done|reflexivity|done| |done]. destruct (rt_pools b Hr a p E) as [_ Hw].
    split; [|exact Hw]. intros c Hc. by apply elem_of_nil in Hc.
Qed.

Lemma NoDup_omap_inj {A B} (f : A → option B) (l : list A) i j x y c : NoDup (omap f l) →
  l !! i = Some x → l !! j = Some y → f x = Some c → f y = Some c → i = j.
Proof.
  assert (∀ l i x, l !! i = Some x → f x = Some c → c ∈ omap f l) as Hin
    by (intros k n z Hz Hf; apply list_elem_of_omap; exists z; split; [by eapply list_elem_of_lookup_2|done]).
  revert i j. induction l as [|z l IH]; intros i j Hnd Hi Hj Hx Hy; [done|]. simpl in Hnd.
  destruct i as [|i], j as [|j]; simpl in Hi, Hj; [done|..].
  - simplify_eq. rewrite Hx in Hnd. apply NoDup_cons in Hnd as [Hn _]. destruct Hn. by eapply Hin.
  - simplify_eq. rewrite Hy in Hnd. apply NoDup_cons in Hnd as [Hn _]. destruct Hn. by eapply Hin.
  - f_equal. apply IH; [|done..]. destruct (f z); [by apply NoDup_cons in Hnd as [_ ?]|done].
Qed.

Lemma broker_history b : rtc broker_step NewBroker b →
  NoDup ((bkOffered b).*2 ++ bkRefused b) ∧ places b ≡ₚ (bkOffered b).*2 ∧ issued_ok b ∧ routed b.
Proof.
  revert b. apply (rtc_ind_r (λ b, NoDup ((bkOffered b).*2 ++ bkRefused b) ∧ places b ≡ₚ (bkOffered b).*2 ∧ issued_ok b ∧ routed b) NewBroker).
  - split_and!; [constructor|done| |split; [apply map_Forall_empty|constructor]].
    split; [intros a p c Hp; cbn in Hp; by rewrite lookup_empty in Hp|intros c Hc; by apply elem_of_nil in Hc].
  - intros x y _ Hst (Hnd & Hp & Hi & Hr). destruct (step_meets_spec x y Hst) as [(new & Eo & Ep) _ Hiss].
    split_and!; [by apply (step_fresh x)|by rewrite Ep, Eo, fmap_app, Hp|auto|by eapply routed_step].
Qed.

(** However registrations, requests, wake-ups, timeouts and disconnections
    interleave, every connection an agent offered is in exactly one place (idle,
    with one request, or dropped by a disconnection), no two requests hold one
    connection, a request is given only what its own agent had offered, and what
    the broker counts as issued, and severs on a disconnection, was given. *)
Theorem connections_handed_once b : rtc broker_step NewBroker b →
  places b ≡ₚ (bkOffered b).*2 ∧ NoDup (places b) ∧
  (∀ i j t u c, bkRequests b !! i = Some t → bkRequests b !! j = Some u → held_by t = Some c → held_by u = Some c → i = j) ∧
  (∀ i t c, bkRequests b !! i = Some t → held_by t = Some c → (tkAgent t, c) ∈ bkOffered b) ∧
  issued_ok b.
Proof.
  intros Hr. destruct (broker_history b Hr) as (Hnd & Hp & Hi & Hro). apply NoDup_app in Hnd as [Hnd _].
  assert (NoDup (places b)) as Hpl by (by rewrite Hp). split_and!; [done..| | |done].
  2: { intros i t c Ht Hc. apply (Forall_lookup_1 _ _ _ _ (rt_requests b Hro) Ht). by right. }
  intros i j t u c Ht Hu Htc Huc. unfold places in Hpl. rewrite !NoDup_app in Hpl.
  eapply NoDup_omap_inj; [apply Hpl|exact Ht|exact Hu|done|done].
Qed.

(** ** Registration *)

Section registration.
Context `{JsonText} `{!JsonTextOk}.

(** The line an agent writes is the token the broker authenticates. *)
Lemma registers_line (Authenticate : string → option string) token agent : valid_utf8 token = true →
  Authenticate token = Some agent → agent ≠ "" →
  registers Authenticate (Some (registration_line token)) true = Some agent.
Proof.
  intros Hv Ha Hne. unfold registers, registration_line.
  assert (plain_json (registration_json token) = true) as Hp by (simpl; by rewrite Hv).
  simpl. rewrite (unmarshal_line _ Hp). simpl. rewrite Ha. simpl. by rewrite bool_decide_eq_false_2.
Qed.
End registration.

(** ** Dials *)

(** The pauses, in nanoseconds. *)
Definition delays : list Z := [250000000; 500000000; 1000000000; 2000000000; 4000000000; 8000000000]%Z.
Lemma delays_next x : x ∈ delays → (if bool_decide (x < maxRedialDelay)%Z then x * 2 else x)%Z ∈ delays.
Proof.
  revert x. apply Forall_forall.
  repeat constructor; vm_compute; repeat (apply list_elem_of_here || apply list_elem_of_further).
Qed.
Lemma maintain_delays dials backoff : backoff ∈ delays → Forall (λ d, d ∈ delays) (maintain backoff dials).
Proof.
  assert (minRedialDelay ∈ delays) as Hmin by apply list_elem_of_here.
  revert backoff. induction dials as [|[] dials IH]; intros backoff Hb; cbn [maintain]; constructor; try done; apply IH; [done|].
  by apply delays_next.
Qed.

(** However its dials end, an agent pauses once before each next one, never
    less than [minRedialDelay] and never more than eight seconds. *)
Theorem redial_paced dials :
  length (redial_pauses dials) = length dials ∧
  Forall (λ d, minRedialDelay ≤ d ≤ 8000000000)%Z (redial_pauses dials) ∧
  (Z.of_nat (length dials) * minRedialDelay ≤ foldr Z.add 0 (redial_pauses dials))%Z.
Proof.
  unfold redial_pauses. pose proof (maintain_delays dials minRedialDelay (list_elem_of_here _ _)) as Hd.
  assert (∀ b, length (maintain b dials) = length dials) as Hlen.
  { clear Hd. induction dials as [|[] dials IH]; intros b; simpl; [done|by rewrite IH..]. }
  assert (Forall (λ d, minRedialDelay ≤ d ≤ 8000000000)%Z (maintain minRedialDelay dials)) as Hb.
  { eapply Forall_impl; [exact Hd|]. intros d Hin. unfold minRedialDelay, delays in *. rewrite !elem_of_cons, elem_of_nil in Hin. lia. }
  split_and!; [apply Hlen|done|]. rewrite <-(Hlen minRedialDelay). clear Hd Hlen.
  induction Hb as [|x l Hx Hl IH]; [done|]. cbn [length foldr]. lia.
Qed.

(** ** Where code and comments part *)

(** The pause before a dial exceeds [maxRedialDelay]. *)
Example redial_beyond_max : last (redial_pauses (replicate 6 false)) = Some 8000000000%Z ∧ (maxRedialDelay < 8000000000)%Z.
Proof. vm_compute. done. Qed.

(** A request that gave up stays among the waiters: the next connection the
    agent offers goes into its channel, the request after it waits for another,
    the agent does not count as connected, and disconnecting it closes nothing. *)
Definition run_broker (ops : list broker_op) : Broker := foldl (λ b o, broker_op_run o b) NewBroker ops.
Example abandoned_waiter_takes_connection :
  let b := run_broker [BoTake "laptop"; BoGiveUp 0; BoAccept 7 (Some "laptop"); BoTake "laptop"; BoDisconnect "laptop"] in
  tkProgress <$> bkRequests b = [GaveUp; Parked] ∧ Connected b "laptop" = false ∧ bkClosed b ++ bkSevered b = [] ∧
  omap tkBuffer (bkRequests b) = [7].
Proof. vm_compute. split_and!; reflexivity. Qed.

(** ** Witness *)

Definition demo_ops : list broker_op :=
  [BoTake "laptop"; BoAccept 1 (Some "laptop"); BoAccept 2 (Some "laptop"); BoWake 0; BoTake "laptop"; BoRecord 0;
   BoAccept 3 None; BoDisconnect "laptop"].
Fixpoint guarded (ops : list broker_op) (b : Broker) : bool :=
  match ops with
  | [] => true
  | o :: rest =>
      match o with BoAccept c _ => bool_decide (c ∉ (bkOffered b).*2 ++ bkRefused b) | _ => true end && guarded rest (broker_op_run o b)
  end.
Lemma guarded_steps ops b : guarded ops b = true → rtc broker_step b (foldl (λ b o, broker_op_run o b) b ops).
Proof.
  revert b. induction ops as [|o ops IH]; intros b; [reflexivity|]. simpl. intros [Ho Hrest]%andb_true_iff.
  apply (rtc_l _ _ (broker_op_run o b)); [|by apply IH]. exists o. split; [|done].
  destruct o; try exact I. by apply bool_decide_eq_true in Ho.
Qed.
Lemma demo_history : rtc broker_step NewBroker (run_broker demo_ops).
Proof. apply guarded_steps. vm_compute. reflexivity. Qed.
Lemma connections_handed_once_witness :
  let b := run_broker demo_ops in
  omap held_by (bkRequests b) = [1; 2] ∧ bkSevered b = [2; 1] ∧ NoDup (places b).
Proof.
  split; [vm_compute; reflexivity|]. split; [vm_compute; reflexivity|].
  apply (connections_handed_once (run_broker demo_ops) demo_history).
Defined.
