(* ===== verification/Handles.v ===== *)
(** * Handles of provider adapters

    [provider/handlefmt/handle.go], the envelope in which the handles of all
    adapters are stored, and the check of a spec the adapters share. *)
From S2P Require Import Prelude Policy Domain Text Store StoreRuns EventLog Loop Waits Batcher Tools Api.
From S2P Require Import ResourceStore OperatorTx ResourceWork Strings GoJson AdminQuery.

(** ** Handles *)

Definition EncodeHandle (version : Z) (data : json) : result json :=
  if bool_decide (version ≤ 0)%Z then Err (ErrorText "handlefmt: handle version must be positive")
  else Ok (JObj [("version", JNum version); ("data", data)]).

(** [wireHandle] *)
Definition set_wire (k : string) (v : json) (h : Z * option json) : option (Z * option json) :=
  if key_matches "version" k then z ← set_int v h.1; Some (z, h.2)
  else if key_matches "data" k then Some (h.1, Some v)
  else Some h.

Definition DecodeHandle {A} (set : string → json → A → option A) (zero : A) (h : option json) : result A :=
  match h with
  | None => Err (ErrorText "handlefmt: empty handle")
  | Some j =>
      match decode_struct set_wire (0%Z, None) j with
      | None => Err (ErrorText "handlefmt: decode handle envelope")
      | Some (version, data) =>
          if bool_decide (version ≤ 0)%Z then Err (ErrorText ("handlefmt: unsupported handle version " +:+ pretty version))
          else match data ≫= decode_struct set zero with
               | Some x => Ok x
               | None => Err (ErrorText "handlefmt: decode handle data")
               end
      end
  end.

(** [spec.name] is required by every adapter of development environments. *)
Definition validate_spec (adapter : string) (spec : option json) : option err :=
  match ParseDevEnvSpec spec with
  | Err e => Some e
  | Ok s => if bool_decide (dsName s = "") then Some (ErrorText (adapter +:+ ": spec.name is required")) else None
  end.
