(* ===== verification/NullProvider.v ===== *)
(** * The null provider

    [provider/nullresource/null.go], the provider that keeps its resources in
    memory. *)
From S2P Require Import Prelude Policy Domain Text Store StoreRuns EventLog Loop Waits Batcher Tools Api.
From S2P Require Import ResourceStore OperatorTx ResourceWork Strings GoJson Handles.

(** The items held, by resource. *)
Notation World := (gmap string json).

Definition handle_data (id : ResourceID) : json := JObj [("id", JStr id)].

Definition ValidateSpec (spec : option json) : option err :=
  match spec with
  | None | Some JNull | Some (JObj _) => None
  | Some _ => Some (ErrorText "nullresource: invalid spec")
  end.

Definition Provision (r : Resource) (token : string) : M World json :=
  h ← of_result (EncodeHandle 1 (handle_data (r_id r)));
  _ ← modify (<[r_id r := h]>);
  mret h.

Definition Status (r : Resource) : M World (ResourceState * string) :=
  items ← get;
  mret (if bool_decide (items !! r_id r = None) && negb (HandlePresent (r_handle r)) then (ResourceFailed, "not found")
        else (ResourceReady, "")).

Definition Endpoint (r : Resource) : M World string := mret "".

Definition Restart (r : Resource) (token : string) : M World json := Provision r token.

Definition Terminate (r : Resource) : M World unit := modify (delete (r_id r)).

Definition HealthCheck (r : Resource) : M World unit :=
  st ← Status r; if negb (bool_decide (st.1 = ResourceReady)) then throw (ErrorText "nullresource: not ready") else mret ().

Definition Adopt (r : Resource) : M World (option json) := items ← get; mret (items !! r_id r).

(** In the order of the map, which is not specified. *)
Definition ListOwned : M World (list (ResourceID * list string)) :=
  items ← get; mret ((λ kv, (kv.1, ["null:" +:+ kv.1])) <$> map_to_list items).

Definition Probe : M World ProviderCapabilities :=
  mret (MkCapabilities "null" ["adopts_orphans"; "enumerates_resources"]
          (<["serves_tool_endpoint" := "null_resource has no tool surface"]>
           (<["restart_preserves_state" := "null_resource holds no durable state"]>
            {["tolerates_disconnect" := "in-process provider has no disconnect path"]}))).

Definition provider : ResourceProvider World := {|
  prKind := "null_resource";
  prValidateSpec := ValidateSpec;
  prProvision := Provision;
  prStatus := Status;
  prEndpoint := Endpoint;
  prRestart := Restart;
  prTerminate := Terminate;
  prAdopt := Some Adopt;
|}.
