(* ===== verification/LocalDocker.v ===== *)
(** * The Docker provider

    [provider/localdocker/local.go], the provider on Docker containers.

    The Docker engine is a parameter: the record [Docker] of the client calls
    the adapter makes, on a world of its own.  Its errors are told apart as the
    code tells them apart: [ErrNotFound] is what [cerrdefs.IsNotFound] accepts.
    How often a loop polls before its deadline, and whether the context ends
    while it waits, are arguments. *)
From S2P Require Import Prelude Policy Domain Text Store StoreRuns EventLog Loop Waits Batcher Tools Api.
From S2P Require Import ResourceStore OperatorTx ResourceWork Strings GoJson AdminQuery Handles.

(** ** The engine *)

(** What [ContainerCreate] is asked for: the fields the adapter sets. *)
Record container_config := MkContainerConfig {
  ccImage : string; ccEnv : list string; ccCmd : list string; ccLabel : ResourceID; ccBind : string; ccName : string }.

(** What [ContainerInspect] tells: the host ports of 8080/tcp, and the state. *)
Record container_info := MkContainerInfo { ciPorts : list string; ciRunning : bool; ciStatus : string }.

(** [ContainerList] filters by the label, with a value or without; an entry is
    the container's id and the value of its label. *)
Record Docker (W : Type) := MkDocker {
  ImagePull : string → M W unit;
  VolumeCreate : string → M W unit;
  VolumeRemove : string → M W unit;
  VolumeInspect : string → M W unit;
  ContainerCreate : container_config → M W string;
  ContainerStart : string → M W unit;
  ContainerRemove : string → M W unit;
  ContainerKill : string → M W unit;
  ContainerInspect : string → M W container_info;
  ContainerList : option ResourceID → M W (list (string * ResourceID));
}.
Arguments ImagePull {W}. Arguments VolumeCreate {W}. Arguments VolumeRemove {W}. Arguments VolumeInspect {W}.
Arguments ContainerCreate {W}. Arguments ContainerStart {W}. Arguments ContainerRemove {W}. Arguments ContainerKill {W}.
Arguments ContainerInspect {W}. Arguments ContainerList {W}.

(** ** The adapter *)

Record Config := MkConfig { cgImage : string; cgPullImage : bool; cgHost : string; cgWaitTimeout : Z }.
Definition New (cfg : Config) : Config :=
  MkConfig (if bool_decide (cgImage cfg = "") then "ultracore/bezalel:local" else cgImage cfg) (cgPullImage cfg) (cgHost cfg)
    (if bool_decide (cgWaitTimeout cfg ≤ 0)%Z then 30000000000 else cgWaitTimeout cfg).

Definition labelResourceID : string := "ultracore.resource_id".
Definition volumeName (id : ResourceID) : string := "ultracore-env-" +:+ id.

Record handleData := MkHandleData { hdContainerID : string; hdVolumeName : string; hdHostPort : Z }.
Definition data_json (d : handleData) : json :=
  JObj [("container_id", JStr (hdContainerID d)); ("volume_name", JStr (hdVolumeName d)); ("host_port", JNum (hdHostPort d))].
Definition set_data (k : string) (v : json) (d : handleData) : option handleData :=
  let '(MkHandleData c n p) := d in
  if key_matches "container_id" k then c ← set_string v c; Some (MkHandleData c n p)
  else if key_matches "volume_name" k then n ← set_string v n; Some (MkHandleData c n p)
  else if key_matches "host_port" k then p ← set_int v p; Some (MkHandleData c n p)
  else Some d.
Definition encodeHandle (d : handleData) : result json := EncodeHandle 1 (data_json d).
Definition decodeHandle (h : option json) : result handleData := DecodeHandle set_data (MkHandleData "" "" 0) h.
Definition ContainerID (h : option json) : result string := match decodeHandle h with Ok d => Ok (hdContainerID d) | Err e => Err e end.

Definition wrapped {W A} (prefix : string) (m : M W A) : M W A :=
  r ← attempt m; match r with Ok x => mret x | Err e => throw (ErrorText (prefix +:+ ": " +:+ err_text e)) end.

Section adapter.
Context {W : Type} (docker : Docker W) (cfg : Config) (polls : nat) (cancelled : bool).

(** [inspect]: the last poll is the one after the deadline. *)
Fixpoint inspect_loop (n : nat) (container : string) : M W (list string) :=
  info ← wrapped "localdocker: inspect" (ContainerInspect docker container);
  match ciPorts info with
  | _ :: _ => mret (ciPorts info)
  | [] =>
      if negb (ciRunning info) then throw (ErrorText ("localdocker: container exited before publishing a port: " +:+ ciStatus info))
      else match n with
           | O => mret []
           | S n' => if cancelled then throw (ErrorText "context canceled") else inspect_loop n' container
           end
  end.
Definition inspect (container vol : string) : M W handleData :=
  bindings ← inspect_loop polls container;
  match bindings with
  | [] => throw (ErrorText "localdocker: no published Bezalel port")
  | b :: _ => match ParseInt b with
              | Some port => mret (MkHandleData container vol port)
              | None => throw (ErrorText "localdocker: host port")
              end
  end.

(** The environment of the container: the token first, the rest in the order of
    the map. *)
Definition container_env (token : string) (env : gmap string string) : list string :=
  ("BEZALEL_AUTH_TOKEN=" +:+ token) :: ((λ kv, kv.1 +:+ "=" +:+ kv.2) <$> map_to_list env).
Definition container_spec (r : Resource) (spec : DevEnvSpec) (token : string) : container_config :=
  let workdir := if bool_decide (dsWorkdir spec = "") then "/work" else dsWorkdir spec in
  MkContainerConfig (if bool_decide (dsImage spec = "") then cgImage cfg else dsImage spec)
    (container_env token (dsEnv spec)) ["--workdir"; workdir] (r_id r) (volumeName (r_id r) +:+ ":" +:+ workdir)
    ("ultracore-env-" +:+ r_id r).

(** One attempt; [retry] follows a host port that was taken. *)
Definition provision_once (retry : M W json) (r : Resource) (token : string) : M W json :=
  spec ← of_result (ParseDevEnvSpec (r_spec r));
  let c := container_spec r spec token in
  _ ← (if cgPullImage cfg then wrapped "localdocker: pull" (ImagePull docker (ccImage c)) else mret ());
  _ ← wrapped "localdocker: volume" (VolumeCreate docker (volumeName (r_id r)));
  id ← wrapped "localdocker: create" (ContainerCreate docker c);
  started ← attempt (ContainerStart docker id);
  match started with
  | Err e =>
      if negb (Contains (err_text e) "address already in use") then throw (ErrorText ("localdocker: start: " +:+ err_text e))
      else _ ← ignore (ContainerRemove docker id); retry
  | Ok _ =>
      d ← inspect id (volumeName (r_id r));
      of_result (encodeHandle d)
  end.

(** [Provision] with [left] retries of [provisionRetry] left. *)
Fixpoint provision_attempt (left : nat) (r : Resource) (token : string) : M W json :=
  provision_once
    match left with
    | O => throw (ErrorText "localdocker: every published port this host offered was already in use")
    | S left' => if cancelled then throw (ErrorText "context canceled") else provision_attempt left' r token
    end r token.
Definition Provision (r : Resource) (token : string) : M W json := provision_attempt 5 r token.

Definition Status (r : Resource) : M W (ResourceState * string) :=
  d ← of_result (decodeHandle (r_handle r));
  info ← attempt (ContainerInspect docker (hdContainerID d));
  match info with
  | Err ErrNotFound => mret (ResourceFailed, "container not found")
  | Err e => throw e
  | Ok info => mret (if ciRunning info then (ResourceReady, "") else (ResourceFailed, ciStatus info))
  end.

Definition HealthCheck (r : Resource) : M W unit :=
  st ← Status r;
  if negb (bool_decide (st.1 = ResourceReady)) then throw (not_ready "localdocker" st) else mret ().

Definition Endpoint (r : Resource) : M W string :=
  d ← of_result (decodeHandle (r_handle r)); mret ("http://127.0.0.1:" +:+ pretty (hdHostPort d) +:+ "/mcp").

Definition Restart (r : Resource) (token : string) : M W json :=
  d ← of_result (decodeHandle (r_handle r));
  _ ← ignore (ContainerRemove docker (hdContainerID d));
  Provision r token.

(** An object that is gone already counts as removed. *)
Definition removed (prefix : string) (m : M W unit) : M W unit :=
  r ← attempt m;
  match r with Ok _ | Err ErrNotFound => mret () | Err e => throw (ErrorText (prefix +:+ ": " +:+ err_text e)) end.
Definition Terminate (r : Resource) : M W unit :=
  d ← of_result (decodeHandle (r_handle r));
  _ ← removed "localdocker: remove container" (ContainerRemove docker (hdContainerID d));
  removed "localdocker: remove volume" (VolumeRemove docker (hdVolumeName d)).

Definition Adopt (r : Resource) : M W (option json) :=
  found ← wrapped "localdocker: adopt list" (ContainerList docker (Some (r_id r)));
  match found with
  | [] => mret None
  | (id, _) :: _ =>
      info ← wrapped "localdocker: adopt inspect" (ContainerInspect docker id);
      _ ← (if negb (ciRunning info) then wrapped "localdocker: adopt start" (ContainerStart docker id) else mret ());
      data ← inspect id (volumeName (r_id r));
      h ← of_result (encodeHandle data);
      mret (Some h)
  end.

(** Descriptors of the volume of a resource. *)
Definition volume_descriptor (id : ResourceID) : M W (list string) :=
  r ← attempt (VolumeInspect docker (volumeName id));
  match r with
  | Ok _ => mret ["volume:" +:+ volumeName id]
  | Err ErrNotFound => mret []
  | Err e => throw (ErrorText ("localdocker: inspect volume: " +:+ err_text e))
  end.

(** The resources in the order of their first container; the code asks for the
    volumes in the order of a map. *)
Definition owners (l : list (string * ResourceID)) : list ResourceID :=
  foldl (λ acc c, if bool_decide (c.2 = "") || bool_decide (c.2 ∈ acc) then acc else acc ++ [c.2]) [] l.
Definition descriptors_of (id : ResourceID) (l : list (string * ResourceID)) : list string :=
  (λ c, "container:" +:+ c.1) <$> bool_filter (λ c, bool_decide (c.2 = id)) l.
Fixpoint with_volumes (ids : list ResourceID) (l : list (string * ResourceID)) : M W (list (ResourceID * list string)) :=
  match ids with
  | [] => mret []
  | id :: rest =>
      v ← volume_descriptor id; more ← with_volumes rest l; mret ((id, descriptors_of id l ++ v) :: more)
  end.
Definition ListOwned : M W (list (ResourceID * list string)) :=
  l ← wrapped "localdocker: list containers" (ContainerList docker None); with_volumes (owners l) l.

Definition Resources (id : ResourceID) : M W (list string) :=
  l ← wrapped "localdocker: list containers" (ContainerList docker (Some id));
  v ← volume_descriptor id;
  mret (((λ c, "container:" +:+ c.1) <$> l) ++ v).

Definition KillByResourceID (id : ResourceID) : M W unit :=
  l ← ContainerList docker (Some id);
  match l with [] => throw (ErrorText "localdocker: env container not found") | (c, _) :: _ => ContainerKill docker c end.

Definition provider : ResourceProvider W := {|
  prKind := ResourceKindDevEnv;
  prValidateSpec := validate_spec "localdocker";
  prProvision := Provision;
  prStatus := Status;
  prEndpoint := Endpoint;
  prRestart := Restart;
  prTerminate := Terminate;
  prAdopt := Some Adopt;
|}.

End adapter.
