(* ===== verification/AdapterSpec.v ===== *)
(** * What the adapters promise the service

    The contract [adopting] of [ResourceSpec], against which provisioning jobs
    are proved to leave at most one live thing per resource, discharged by the
    null provider and, given what Docker documents of its engine, by the Docker
    provider; and that a handle that is terminated releases what it names. *)
From S2P Require Import Prelude Policy Domain Text Store StoreRuns EventLog Loop Waits Batcher Tools Step Api.
From S2P Require Import ResourceStore OperatorTx ResourceWork Frames Invariants RunStates System Scenario ResourceSpec Strings GoJson AdminQuery Paging Handles NullProvider LocalDocker.

(** ** Handles *)

Lemma DecodeHandle_Encode {A} set (zero x : A) data h :
  EncodeHandle 1 data = Ok h → decode_struct set zero data = Some x → DecodeHandle set zero (Some h) = Ok x.
Proof.
  intros [= <-] Hd. unfold DecodeHandle.
  assert (decode_struct set_wire (0%Z, None) (JObj [("version", JNum 1); ("data", data)]) = Some (1%Z, Some data)) as ->
    by reflexivity.
  rewrite bool_decide_eq_false_2 by lia. unfold mbind, option_bind. by rewrite Hd.
Qed.

Lemma decodeHandle_encode d h : (int64_min ≤ LocalDocker.hdHostPort d ≤ int64_max)%Z →
  LocalDocker.encodeHandle d = Ok h → LocalDocker.decodeHandle (Some h) = Ok d.
Proof.
  intros Hp Hh. eapply DecodeHandle_Encode; [exact Hh|]. destruct d as [c n p]. cbn in Hp.
  unfold decode_struct, fill_struct, LocalDocker.data_json. cbn [LocalDocker.hdContainerID LocalDocker.hdVolumeName LocalDocker.hdHostPort].
  rewrite (fill_cons _ _ _ _ _ (LocalDocker.MkHandleData c "" 0)) by done.
  rewrite (fill_cons _ _ _ _ _ (LocalDocker.MkHandleData c n 0)) by done.
  rewrite (fill_cons _ _ _ _ _ (LocalDocker.MkHandleData c n p)); [done|].
  change (LocalDocker.set_data "host_port" (JNum p) (LocalDocker.MkHandleData c n 0)) with
    (p ← set_int (JNum p) 0%Z; Some (LocalDocker.MkHandleData c n p)).
  unfold set_int. by rewrite bool_decide_eq_true_2.
Qed.

(** ** The null provider *)

Definition null_live (w : NullProvider.World) (id : ResourceID) : nat := if bool_decide (is_Some (w !! id)) then 1 else 0.

Lemma null_put w i h id : (null_live (<[i := h]> w) id ≤ null_live w id + (if bool_decide (id = i) then 1 else 0))%nat.
Proof.
  unfold null_live. rewrite lookup_insert. case_decide; subst; repeat case_bool_decide; try lia; naive_solver.
Qed.

Lemma null_adopting : adopting null_live NullProvider.provider.
Proof.
  split.
  - intros r token w id. apply null_put.
  - eexists. split; [reflexivity|]. intros r w. split; [done|]. unfold NullProvider.Adopt, mbind, M_bind, get, mret, M_ret. cbn.
    intros [= E]. unfold null_live. rewrite E. by rewrite bool_decide_eq_false_2 by (intros []; done).
  - done.
  - done.
  - intros r w id. change (prTerminate NullProvider.provider r w).1 with (delete (r_id r) w). unfold null_live.
    rewrite lookup_delete. case_decide; repeat case_bool_decide; try lia; naive_solver.
Qed.

(** ** Docker *)

(** A container: its name and its resource label. *)
Notation engine := (gmap string (string * ResourceID)).

(** What the engine documents: only create and remove change which containers
    there are; a name is used once; a listing by label lists the label. *)
Record docker_engine {W} (docker : Docker W) (containers : W → engine) (volumes : W → gset string) : Prop := {
  de_pull i w : containers (ImagePull docker i w).1 = containers w;
  de_volume_create v w : containers (VolumeCreate docker v w).1 = containers w;
  de_volume_remove v w : containers (VolumeRemove docker v w).1 = containers w ∧
    match (VolumeRemove docker v w).2 with
    | Ok _ | Err ErrNotFound => v ∉ volumes (VolumeRemove docker v w).1
    | Err _ => True
    end;
  de_start c w : containers (ContainerStart docker c w).1 = containers w;
  de_inspect c w : containers (ContainerInspect docker c w).1 = containers w;
  de_create c w : match ContainerCreate docker c w with
    | (w', Ok id) => containers w !! id = None ∧ (∀ j x, containers w !! j = Some x → x.1 ≠ ccName c) ∧
                     containers w' = <[id := (ccName c, ccLabel c)]> (containers w)
    | (w', Err _) => containers w' = containers w
    end;
  de_remove c w :
    (containers (ContainerRemove docker c w).1 = containers w ∨ containers (ContainerRemove docker c w).1 = delete c (containers w)) ∧
    match (ContainerRemove docker c w).2 with
    | Ok _ | Err ErrNotFound => containers (ContainerRemove docker c w).1 !! c = None
    | Err _ => True
    end;
  de_list id w : containers (ContainerList docker (Some id) w).1 = containers w ∧
    ((ContainerList docker (Some id) w).2 = Ok [] → ∀ j x, containers w !! j = Some x → x.2 ≠ id);
}.

Definition labelled (m : engine) (id : ResourceID) : engine := filter (λ kv, kv.2.2 = id) m.
Definition live_in (m : engine) (id : ResourceID) : nat := size (labelled m id).

Lemma live_in_insert m c x id : m !! c = None →
  live_in (<[c := x]> m) id = (live_in m id + if bool_decide (x.2 = id) then 1 else 0)%nat.
Proof.
  intros Hc. unfold live_in, labelled. case_bool_decide as E.
  - rewrite map_filter_insert_True by done. rewrite map_size_insert_None; [lia|].
    by apply map_lookup_filter_None; left.
  - rewrite map_filter_insert_False by done. rewrite delete_id by done. lia.
Qed.
Lemma live_in_delete m c id : (live_in (delete c m) id ≤ live_in m id)%nat.
Proof.
  unfold live_in, labelled. rewrite map_filter_delete. apply map_subseteq_size, delete_subseteq.
Qed.
Lemma live_in_0 m id : (∀ j x, m !! j = Some x → x.2 ≠ id) → live_in m id = 0%nat.
Proof.
  intros Hm. unfold live_in. apply map_size_empty_iff, map_empty. intros j. apply map_lookup_filter_None. right.
  intros x Hj. apply (Hm j x Hj).
Qed.

Section docker.
Context {W : Type} (docker : Docker W) (containers : W → engine) (volumes : W → gset string).
Context (Hd : docker_engine docker containers volumes).
Context (cfg : LocalDocker.Config) (polls : nat) (cancelled : bool).

Notation same := (λ w w' : W, containers w' = containers w).
#[local] Instance same_pre : PreOrder same.
Proof. split; [by intros w|]. intros a b c. congruence. Qed.

Definition docker_live (w : W) (id : ResourceID) : nat := live_in (containers w) id.

Lemma same_wrapped {A} prefix (m : M W A) : keeps same m → keeps same (LocalDocker.wrapped prefix m).
Proof.
  intros Hm. unfold LocalDocker.wrapped. apply keeps_bind; [apply _|by apply keeps_attempt|].
  intros []; [apply keeps_ret|apply keeps_throw]; apply _.
Qed.
Lemma wrapped_run {A} prefix (m : M W A) w : LocalDocker.wrapped prefix m w =
  let '(w', res) := m w in (w', match res with Ok x => Ok x | Err e => Err (ErrorText (prefix +:+ ": " +:+ err_text e)) end).
Proof. unfold LocalDocker.wrapped, mbind, M_bind, attempt. by destruct (m w) as [? []]. Qed.
Lemma same_ops : (∀ i, keeps same (ImagePull docker i)) ∧ (∀ v, keeps same (VolumeCreate docker v)) ∧
  (∀ c, keeps same (ContainerStart docker c)) ∧ (∀ c, keeps same (ContainerInspect docker c)) ∧
  (∀ id, keeps same (ContainerList docker (Some id))) ∧ (∀ v, keeps same (VolumeRemove docker v)).
Proof. split_and!; intros x w; apply Hd. Qed.
Lemma same_inspect c v : keeps same (LocalDocker.inspect docker polls cancelled c v).
Proof.
  destruct same_ops as (? & ? & ? & Hi & _). unfold LocalDocker.inspect.
  apply keeps_bind; [apply _| |intros [|b l]; [apply keeps_throw; apply _|]; case_match; [apply keeps_ret|apply keeps_throw]; apply _].
  induction polls as [|n IH]; cbn [LocalDocker.inspect_loop];
    (apply keeps_bind; [apply _|by apply same_wrapped|]); intros info; repeat case_match;
    try (apply keeps_ret; apply _); try (apply keeps_throw; apply _). exact IH.
Qed.

Definition env_name (r : Resource) : string := "ultracore-env-" +:+ r_id r.

(** At most one container is new: named and labelled after the resource. *)
Definition adds_one (r : Resource) (m m' : engine) : Prop :=
  m' = m ∨ ((∀ j x, m !! j = Some x → x.1 ≠ env_name r) ∧ ∃ c, m !! c = None ∧ m' = <[c := (env_name r, r_id r)]> m).

Lemma same_adds r m m' : m' = m → adds_one r m m'.
Proof. by left. Qed.

(** After a container was made: it is there, or the retry starts from the
    containers there were before, or from a name that is taken. *)
Lemma retry_adds r retry w0 w1 id :
  (∀ w, adds_one r (containers w) (containers (retry w).1)) →
  containers w0 !! id = None → (∀ j x, containers w0 !! j = Some x → x.1 ≠ env_name r) →
  containers w1 = <[id := (env_name r, r_id r)]> (containers w0) →
  adds_one r (containers w0) (containers ((_ ← ignore (ContainerRemove docker id); retry) w1 : W * result json).1).
Proof.
  intros Hr Hid Hname E1. unfold mbind, M_bind, ignore. destruct (de_remove _ _ _ Hd id w1) as [Hc _].
  destruct (ContainerRemove docker id w1) as [w2 res]. cbn in *. specialize (Hr w2). destruct Hc as [Hc|Hc]; rewrite Hc, E1 in Hr.
  - destruct Hr as [Hr|[Hno _]].
    + right. split; [done|]. exists id. by rewrite Hr.
    + exfalso. by apply (Hno id (env_name r, r_id r)); [apply lookup_insert_eq|].
  - rewrite delete_insert_id in Hr by done. exact Hr.
Qed.

Lemma provision_once_adds retry r token w :
  (∀ w, adds_one r (containers w) (containers (retry w).1)) →
  adds_one r (containers w) (containers (LocalDocker.provision_once docker cfg polls cancelled retry r token w).1).
Proof.
  intros Hretry. destruct same_ops as (Hpull & Hvol & Hstart & Hinsp & Hlist & Hrm). unfold LocalDocker.provision_once.
  destruct (ParseDevEnvSpec (r_spec r)) as [spec|]; [|by left]; unfold mbind at 1, M_bind at 1; cbn [of_result].
  set (c := LocalDocker.container_spec _ _ _ _). set (pull := if LocalDocker.cgPullImage cfg then _ else _).
  assert (keeps same pull) as Hp by (unfold pull; case_match; [apply same_wrapped, Hpull|apply keeps_ret; apply _]).
  unfold mbind at 1, M_bind at 1. specialize (Hp w). destruct (pull w) as [w1 [[]|]]; cbn in Hp; [|by left].
  unfold mbind at 1, M_bind at 1. pose proof (same_wrapped "localdocker: volume" _ (Hvol (LocalDocker.volumeName (r_id r))) w1) as Hv.
  destruct (LocalDocker.wrapped _ (VolumeCreate _ _) w1) as [w2 [[]|]]; cbn in Hv; [|left; cbn; congruence].
  unfold mbind at 1, M_bind at 1, LocalDocker.wrapped at 1, mbind at 1, M_bind at 1, attempt at 1.
  pose proof (de_create _ _ _ Hd c w2) as Hc. destruct (ContainerCreate docker c w2) as [w3 [id|e]]; cbn; [|left; congruence].
  rewrite Hv, Hp in Hc. destruct Hc as (Hid & Hname & Hc).
  unfold mbind at 1, M_bind at 1, attempt at 1. specialize (Hstart id w3). destruct (ContainerStart docker id w3) as [w4 [[]|e]];
    cbn [fst snd] in Hstart; rewrite Hc in Hstart; clear Hc.
  - right. split; [done|]. exists id. split; [done|]. transitivity (containers w4); [|exact Hstart].
    assert (keeps same (d ← LocalDocker.inspect docker polls cancelled id (LocalDocker.volumeName (r_id r));
      of_result (LocalDocker.encodeHandle d))) as Hk
      by (apply keeps_bind; [apply _|apply same_inspect|intros d; apply keeps_of_result; apply _]).
    apply Hk.
  - case_match; [|by eapply retry_adds]. right. split; [done|]. exists id. by split.
Qed.

Lemma provision_adds left r token w :
  adds_one r (containers w) (containers (LocalDocker.provision_attempt docker cfg polls cancelled left r token w).1).
Proof.
  revert w. induction left as [|left IH]; intros w; cbn [LocalDocker.provision_attempt]; apply provision_once_adds;
    intros w'; [by left|]. specialize (IH w'). destruct cancelled; [by left|exact IH].
Qed.

Lemma docker_adopting : adopting docker_live (LocalDocker.provider docker cfg polls cancelled).
Proof.
  destruct same_ops as (Hpull & Hvol & Hstart & Hinsp & Hlist & Hrm).
  assert (∀ {A} (m : M W A) w id, keeps same m → (docker_live (m w).1 id ≤ docker_live w id)%nat) as Hsame
    by (intros A m w id Hm; unfold docker_live; by rewrite (Hm w)).
  assert (∀ {A} (x : result A), keeps same (of_result x : M W A)) as Hres by (intros; apply keeps_of_result; apply _).
  split.
  - intros r token w id. unfold docker_live. destruct (provision_adds 5 r token w) as [E|(_ & c & Hc & E)]; cbn in E; cbn;
      unfold LocalDocker.Provision; rewrite E; [lia|]. rewrite live_in_insert by done. cbn. repeat case_bool_decide; subst; lia || congruence.
  - eexists. split; [reflexivity|]. intros r w.
    assert (keeps same (LocalDocker.Adopt docker polls cancelled r)) as Hk.
    { unfold LocalDocker.Adopt. apply keeps_bind; [apply _|by apply same_wrapped|]. intros [|[c ?] l]; [apply keeps_ret; apply _|].
      apply keeps_bind; [apply _|by apply same_wrapped|intros info].
      apply keeps_bind; [apply _|case_match; [by apply same_wrapped|apply keeps_ret; apply _]|intros _].
      apply keeps_bind; [apply _|apply same_inspect|intros d]. apply keeps_bind; [apply _|apply Hres|intros h; apply keeps_ret; apply _]. }
    split; [intros id; by apply Hsame|]. unfold docker_live. rewrite (Hk w). intros Hn. apply live_in_0.
    destruct (de_list _ _ _ Hd (r_id r) w) as [_ Hl]. apply Hl. revert Hn. clear.
    unfold LocalDocker.Adopt. unfold mbind at 1, M_bind at 1. rewrite wrapped_run.
    destruct (ContainerList docker (Some (r_id r)) w) as [w1 [[|[c l'] l]|e]]; [done| |done].
    unfold mbind, M_bind. rewrite wrapped_run. destruct (ContainerInspect docker c w1) as [w2 [info|]]; [|done].
    match goal with |- context [(if ?b then ?x else ?y) w2] => destruct ((if b then x else y) w2) as [w3 [[]|]] end; [|done].
    destruct (LocalDocker.inspect _ _ _ _ _ w3) as [w4 [d|]]; [|done]. by destruct (LocalDocker.encodeHandle d).
  - intros r w id. apply Hsame. cbn. unfold LocalDocker.Status. apply keeps_bind; [apply _|apply Hres|intros d].
    apply keeps_bind; [apply _|by apply keeps_attempt|]. intros [info|[]]; (apply keeps_ret || apply keeps_throw); apply _.
  - intros r w id. apply Hsame. cbn. unfold LocalDocker.Endpoint. apply keeps_bind; [apply _|apply Hres|intros; apply keeps_ret; apply _].
  - intros r w id. cbn. unfold LocalDocker.Terminate, LocalDocker.removed, docker_live.
    unfold mbind at 1, M_bind at 1. destruct (LocalDocker.decodeHandle (r_handle r)) as [d|e]; cbn [of_result]; [|done].
    unfold mbind at 1, M_bind at 1, mbind at 1, M_bind at 1, attempt at 1.
    destruct (de_remove _ _ _ Hd (LocalDocker.hdContainerID d) w) as [Hc _].
    destruct (ContainerRemove docker (LocalDocker.hdContainerID d) w) as [w1 res]. cbn [fst snd] in Hc.
    assert (live_in (containers w1) id ≤ live_in (containers w) id)%nat as Hle
      by (destruct Hc as [->| ->]; [done|apply live_in_delete]).
    assert (keeps same (LocalDocker.removed "localdocker: remove volume" (VolumeRemove docker (LocalDocker.hdVolumeName d)))) as Hk.
    { unfold LocalDocker.removed. apply keeps_bind; [apply _|by apply keeps_attempt|].
      intros [[]|[]]; (apply keeps_ret || apply keeps_throw); apply _. }
    destruct res as [[]|[]]; cbn; try done; change (live_in (containers (LocalDocker.removed "localdocker: remove volume"
      (VolumeRemove docker (LocalDocker.hdVolumeName d)) w1).1) id ≤ live_in (containers w) id)%nat; by rewrite (Hk w1).
Qed.

(** What a successful provision leaves: one container, and a handle that names
    it and the volume. *)
Definition provisioned (r : Resource) (m m' : engine) (h : json) : Prop :=
  ∃ c port, (int64_min ≤ port ≤ int64_max)%Z ∧
    LocalDocker.encodeHandle (LocalDocker.MkHandleData c (LocalDocker.volumeName (r_id r)) port) = Ok h ∧
    m !! c = None ∧ m' = <[c := (env_name r, r_id r)]> m.

Lemma in_int64_range z y : in_int64 z = Some y → (int64_min ≤ y ≤ int64_max)%Z.
Proof. unfold in_int64. case_bool_decide; [|done]. by intros [= <-]. Qed.
Lemma ParseInt_range s z : ParseInt s = Some z → (int64_min ≤ z ≤ int64_max)%Z.
Proof.
  unfold ParseInt. destruct s as [|a s]; [done|]. case_match.
  - case_bool_decide; [done|]. destruct (digits 0 s); [|done]. cbn. apply in_int64_range.
  - destruct (digits 0 (String a s)); [|done]. cbn. apply in_int64_range.
Qed.
Lemma inspect_Ok c v w w' d : LocalDocker.inspect docker polls cancelled c v w = (w', Ok d) →
  ∃ port, d = LocalDocker.MkHandleData c v port ∧ (int64_min ≤ port ≤ int64_max)%Z.
Proof.
  unfold LocalDocker.inspect, mbind, M_bind. destruct (LocalDocker.inspect_loop _ _ _ _ w) as [w1 [[|b l]|]]; try done.
  destruct (ParseInt b) as [port|] eqn:E; [|done]. intros [= <- <-]. exists port. split; [done|by eapply ParseInt_range].
Qed.

Lemma provision_once_Ok retry r token w w' h :
  (∀ w, adds_one r (containers w) (containers (retry w).1)) →
  (∀ w w', retry w = (w', Ok h) → provisioned r (containers w) (containers w') h) →
  LocalDocker.provision_once docker cfg polls cancelled retry r token w = (w', Ok h) →
  provisioned r (containers w) (containers w') h.
Proof.
  intros Hadds Hretry. destruct same_ops as (Hpull & Hvol & Hstart & Hinsp & Hlist & Hrm). unfold LocalDocker.provision_once.
  destruct (ParseDevEnvSpec (r_spec r)) as [spec|]; [|done]. unfold mbind at 1, M_bind at 1; cbn [of_result].
  set (c := LocalDocker.container_spec _ _ _ _). set (pull := if LocalDocker.cgPullImage cfg then _ else _).
  assert (keeps same pull) as Hp by (unfold pull; case_match; [apply same_wrapped, Hpull|apply keeps_ret; apply _]).
  unfold mbind at 1, M_bind at 1. specialize (Hp w). destruct (pull w) as [w1 [[]|]]; cbn in Hp; [|done].
  unfold mbind at 1, M_bind at 1. pose proof (same_wrapped "localdocker: volume" _ (Hvol (LocalDocker.volumeName (r_id r))) w1) as Hv.
  destruct (LocalDocker.wrapped _ (VolumeCreate _ _) w1) as [w2 [[]|]]; cbn in Hv; [|done].
  unfold mbind at 1, M_bind at 1. rewrite wrapped_run.
  pose proof (de_create _ _ _ Hd c w2) as Hc. destruct (ContainerCreate docker c w2) as [w3 [id|e]]; [|done].
  rewrite Hv, Hp in Hc. destruct Hc as (Hid & Hname & Hc).
  unfold mbind at 1, M_bind at 1, attempt at 1. specialize (Hstart id w3). destruct (ContainerStart docker id w3) as [w4 [[]|e]];
    cbn [fst snd] in Hstart; rewrite Hc in Hstart; clear Hc.
  - unfold mbind, M_bind. pose proof (same_inspect id (LocalDocker.volumeName (r_id r)) w4) as Hi.
    destruct (LocalDocker.inspect _ _ _ _ _ w4) as [w5 [d|]] eqn:Ei; [|done]. apply inspect_Ok in Ei as (port & -> & Hr).
    cbn in Hi. intros [= <- <-]. exists id, port. split_and!; [lia..|done|done|]. transitivity (containers w4); [exact Hi|exact Hstart].
  - case_match; [done|]. unfold mbind, M_bind, ignore. destruct (de_remove _ _ _ Hd id w4) as [Hc _].
    destruct (ContainerRemove docker id w4) as [w5 res]. cbn in Hc |- *. intros Hok. specialize (Hadds w5).
    pose proof (Hretry _ _ Hok) as Hpr. destruct Hc as [Hc|Hc]; rewrite Hc, Hstart in Hpr.
    + exfalso. rewrite Hok, Hc, Hstart in Hadds. cbn in Hadds. destruct Hpr as (c' & port & _ & _ & Hc' & Ew).
      destruct Hadds as [Ha|[Hno _]].
      * rewrite Ha in Ew. assert (<[c' := (env_name r, r_id r)]> (<[id := (ccName c, ccLabel c)]> (containers w)) !! c' = None) as Hx
          by (by rewrite <-Ew). by rewrite lookup_insert_eq in Hx.
      * by apply (Hno id (env_name r, r_id r)); [apply lookup_insert_eq|].
    + by rewrite delete_insert_id in Hpr.
Qed.

Lemma provision_Ok left r token w w' h :
  LocalDocker.provision_attempt docker cfg polls cancelled left r token w = (w', Ok h) →
  provisioned r (containers w) (containers w') h.
Proof.
  revert w w'. induction left as [|left IH]; intros w w'; cbn [LocalDocker.provision_attempt]; apply provision_once_Ok;
    try (intros v; by left); try done.
  - intros v. destruct cancelled eqn:E; [by left|]. rewrite <-E. apply provision_adds.
  - intros v v'. specialize (IH v v'). destruct cancelled; [done|exact IH].
Qed.

(** Terminating the handle a provision returned undoes it: the engine's
    containers are again those from before, the resource's volume is gone, and in
    between there was exactly one container more under its label. *)
Theorem docker_release r token w w1 w2 h :
  prProvision (LocalDocker.provider docker cfg polls cancelled) r token w = (w1, Ok h) →
  prTerminate (LocalDocker.provider docker cfg polls cancelled) (rWithHandle r h) w1 = (w2, Ok ()) →
  containers w2 = containers w ∧ LocalDocker.volumeName (r_id r) ∉ volumes w2 ∧
  docker_live w1 (r_id r) = S (docker_live w (r_id r)).
Proof.
  intros Hp%provision_Ok Ht. destruct Hp as (c & port & Hr & Hh & Hc & Ew).
  assert (docker_live w1 (r_id r) = S (docker_live w (r_id r))) as Hlive.
  { unfold docker_live. rewrite Ew, live_in_insert by done. cbn. rewrite bool_decide_eq_true_2 by done. lia. }
  cbn in Ht. unfold LocalDocker.Terminate in Ht. unfold mbind at 1, M_bind at 1 in Ht.
  change (r_handle (rWithHandle r h)) with (Some h) in Ht. apply decodeHandle_encode in Hh; [|done]. rewrite Hh in Ht.
  cbn [of_result LocalDocker.hdContainerID LocalDocker.hdVolumeName] in Ht.
  unfold LocalDocker.removed, mbind, M_bind, attempt, mret, M_ret in Ht.
  destruct (de_remove _ _ _ Hd c w1) as [Hrem Hgone]. destruct (ContainerRemove docker c w1) as [w3 res]. cbn in Hrem, Hgone.
  assert (containers w3 !! c = None → containers w3 = containers w) as Hback.
  { intros Hn. destruct Hrem as [E|E]; rewrite E, Ew in *; [by rewrite lookup_insert_eq in Hn|by rewrite delete_insert_id]. }
  destruct (de_volume_remove _ _ _ Hd (LocalDocker.volumeName (r_id r)) w3) as [Hv Hvol].
  destruct res as [[]|[]]; try done; cbn in Ht;
    (destruct (VolumeRemove docker (LocalDocker.volumeName (r_id r)) w3) as [w4 [[]|[]]]; try done;
     cbn in Hv, Hvol; injection Ht as <-; (split_and!; [rewrite Hv; auto|done|done])).
Qed.

(** C40: With the Docker adapter, a provisioning job delivered in any state of the
    engine that has at most one container per resource leaves at most one, so
    that the guarantee lasts over any number of deliveries in sequence. *)
Theorem docker_at_most_one (sv : Service W) n c clock org id d w :
  (∀ e w, containers (svHealthy sv e w).1 = containers w) →
  (∀ kind config p, svBuild sv kind config = Ok p → p = LocalDocker.provider docker cfg polls cancelled) →
  at_most_one docker_live w → at_most_one docker_live (ResourceWork.Provision sv n c clock org id (d, w)).1.2.
Proof.
  intros Hh Hb. apply (Provision_at_most_one sv docker_live).
  - intros e v i. unfold docker_live. by rewrite Hh.
  - intros kind config p Hp. rewrite (Hb _ _ _ Hp). apply docker_adopting.
Qed.

End docker.

(** ** An engine *)

Module Engine.

Record World := MkWorld { ewContainers : gmap string (string * ResourceID); ewVolumes : gset string; ewNext : N; ewPort : list bool }.

Definition create (c : container_config) : M World string :=
  w ← get;
  let id := "c" +:+ pretty (ewNext w) in
  if existsb (λ x, bool_decide (x.2.1 = ccName c)) (map_to_list (ewContainers w)) then throw (ErrorText "name in use")
  else if bool_decide (is_Some (ewContainers w !! id)) then throw (ErrorText "id in use")
  else _ ← put (MkWorld (<[id := (ccName c, ccLabel c)]> (ewContainers w)) (ewVolumes w) (ewNext w + 1) (ewPort w)); mret id.

(** The engine finds a host port taken as often as [ewPort] says. *)
Definition start (c : string) : M World unit :=
  w ← get;
  match ewPort w with
  | true :: rest =>
      _ ← put (MkWorld (ewContainers w) (ewVolumes w) (ewNext w) rest);
      throw (ErrorText "bind: address already in use")
  | _ => mret ()
  end.

Definition found (w : World) (c : string) : bool := bool_decide (is_Some (ewContainers w !! c)).
Definition remove (c : string) : M World unit :=
  w ← get;
  if found w c then put (MkWorld (delete c (ewContainers w)) (ewVolumes w) (ewNext w) (ewPort w)) else throw ErrNotFound.

Definition docker : Docker World := {|
  ImagePull := λ _, mret ();
  VolumeCreate := λ v, modify (λ w, MkWorld (ewContainers w) ({[v]} ∪ ewVolumes w) (ewNext w) (ewPort w));
  VolumeRemove := λ v, modify (λ w, MkWorld (ewContainers w) (ewVolumes w ∖ {[v]}) (ewNext w) (ewPort w));
  VolumeInspect := λ v, w ← get; if bool_decide (v ∈ ewVolumes w) then mret () else throw ErrNotFound;
  ContainerCreate := create;
  ContainerStart := start;
  ContainerRemove := remove;
  ContainerKill := λ _, mret ();
  ContainerInspect := λ c, w ← get; if found w c then mret (MkContainerInfo ["49153"] true "running") else throw ErrNotFound;
  ContainerList := λ id, w ← get; mret (bool_filter (λ x, match id with Some i => bool_decide (x.2 = i) | None => true end)
                                        ((λ x, (x.1, x.2.2)) <$> map_to_list (ewContainers w)));
|}.

Lemma engine_ok : docker_engine docker ewContainers ewVolumes.
Proof.
  split; try done.
  - intros v w. split; [done|]. cbn. set_solver.
  - intros c w. cbn. unfold start, mbind, M_bind, get. cbn. by destruct (ewPort w) as [|[] ?].
  - intros c w. cbn. unfold mbind, M_bind, get. by destruct (found w c).
  - intros c w. cbn. unfold create, mbind, M_bind, get, put. cbn. destruct (existsb _ _) eqn:E; [done|].
    case_bool_decide as Hi; [done|]. cbn. split_and!; [by apply eq_None_not_Some| |done].
    intros j x Hj Hx. eapply not_true_iff_false; [exact E|]. apply existsb_exists. exists (j, x).
    split; [by apply list_elem_of_In, elem_of_map_to_list|by apply bool_decide_eq_true_2].
  - intros c w. cbn. unfold remove, mbind, M_bind, get, put, found. cbn. case_bool_decide as Hf; cbn.
    + split; [by right|apply lookup_delete_eq].
    + split; [by left|by apply eq_None_not_Some].
  - intros id w. split; [done|]. cbn. intros [= E] j x Hj Hx.
    assert ((j, x.2) ∈ bool_filter (λ y : string * string, bool_decide (y.2 = id)) ((λ y, (y.1, y.2.2)) <$> map_to_list (ewContainers w))) as Hin.
    { apply elem_of_bool_filter. split; [by apply bool_decide_eq_true_2|]. apply list_elem_of_fmap. exists (j, x).
      split; [done|by apply elem_of_map_to_list]. }
    rewrite E in Hin. by apply elem_of_nil in Hin.
Qed.

Definition cfg : LocalDocker.Config := LocalDocker.New (LocalDocker.MkConfig "" false "" 0).
Definition provider : ResourceProvider World := LocalDocker.provider docker cfg 150 false.
Definition fresh (busy : nat) : World := MkWorld ∅ ∅ 0 (replicate busy true).

Definition service : Service World := {|
  svBuild := λ _ _, Ok provider; svDecrypt := Ok; svHealthy := λ _, mret (); svReconcileInterval := 0; svProvisionTimeout := 0;
|}.

Definition box : Resource :=
  new_resource "e1" "acme" "s1" ResourceKindDevEnv "p1" (Some (spec_json (MkDevEnvSpec "box" "" "" ∅ ∅))) demo_token None.

End Engine.

(** ** Witnesses *)

(** The host port is taken twice: the third container is the one. *)
Lemma docker_release_witness :
  let '(w1, res) := prProvision Engine.provider Engine.box "t" (Engine.fresh 2) in
  match res with
  | Ok h => let '(w2, done_) := prTerminate Engine.provider (rWithHandle Engine.box h) w1 in
            done_ = Ok () ∧ Engine.ewContainers w2 = ∅ ∧ LocalDocker.volumeName "e1" ∉ Engine.ewVolumes w2
  | Err _ => False
  end.
Proof.
  pose proof (docker_release Engine.docker Engine.ewContainers Engine.ewVolumes Engine.engine_ok Engine.cfg 150 false
    Engine.box "t" (Engine.fresh 2)) as Hr. change (LocalDocker.provider _ _ _ _) with Engine.provider in Hr.
  assert ((prProvision Engine.provider Engine.box "t" (Engine.fresh 2)).2 = Ok (JObj [("version", JNum 1);
    ("data", JObj [("container_id", JStr "c2"); ("volume_name", JStr "ultracore-env-e1"); ("host_port", JNum 49153)])])) as Ep
    by (vm_compute; reflexivity).
  destruct (prProvision Engine.provider Engine.box "t" (Engine.fresh 2)) as [w1 res] eqn:E. cbn in Ep. subst res.
  assert ((prTerminate Engine.provider (rWithHandle Engine.box (JObj [("version", JNum 1);
    ("data", JObj [("container_id", JStr "c2"); ("volume_name", JStr "ultracore-env-e1"); ("host_port", JNum 49153)])])) w1).2 = Ok ()) as Et.
  { assert (w1 = (prProvision Engine.provider Engine.box "t" (Engine.fresh 2)).1) as -> by (by rewrite E). vm_compute. reflexivity. }
  destruct (prTerminate _ _ w1) as [w2 res2] eqn:E2. cbn in Et. subst res2.
  destruct (Hr _ _ _ eq_refl E2) as (Hc & Hv & _). done.
Defined.

(** A job delivered again after its container was made and the handle lost. *)
Lemma docker_at_most_one_witness :
  let w := (prProvision Engine.provider Engine.box "t" (Engine.fresh 0)).1 in
  at_most_one (docker_live Engine.ewContainers)
    (ResourceWork.Provision Engine.service 3 false 10 "acme" "e1" (d_with_resource, w)).1.2.
Proof.
  intros w. apply (docker_at_most_one Engine.docker Engine.ewContainers Engine.ewVolumes Engine.engine_ok Engine.cfg 150 false).
  - done.
  - by intros kind config p [= <-].
  - intros id. unfold docker_live.
    assert (Engine.ewContainers w = {["c0" := ("ultracore-env-e1", "e1")]}) as -> by (vm_compute; reflexivity).
    rewrite <-insert_empty. rewrite live_in_insert by apply lookup_empty. unfold live_in, labelled.
    rewrite map_filter_empty, map_size_empty. case_bool_decide; lia.
Defined.

(** ** Where code and comments part *)

(** The null provider says a resource is ready after it dropped it, as long as
    the handle is there. *)
Example null_ready_after_terminate :
  let r := rWithHandle Engine.box (JObj [("version", JNum 1); ("data", NullProvider.handle_data "e1")]) in
  let w := (NullProvider.Terminate r (NullProvider.Provision r "t" ∅).1).1 in
  w = ∅ ∧ NullProvider.Status r w = (w, Ok (ResourceReady, "")).
Proof. vm_compute. split; reflexivity. Qed.

(** An image that does not start leaves its container and its volume, and the
    resource without a handle by which to remove them. *)
Definition broken_engine : Docker Engine.World :=
  let '(MkDocker _ a b c d e f g h i j) := Engine.docker in
  MkDocker _ a b c d e (λ _, throw (ErrorText "exec format error")) g h i j.
Example failed_start_leaks :
  let '(w, res) := LocalDocker.Provision broken_engine Engine.cfg 150 false Engine.box "t" (Engine.fresh 0) in
  res = Err (ErrorText "localdocker: start: exec format error") ∧
  map_to_list (Engine.ewContainers w) = [("c0", ("ultracore-env-e1", "e1"))] ∧ elements (Engine.ewVolumes w) = ["ultracore-env-e1"].
Proof. vm_compute. split_and!; reflexivity. Qed.
