(* ===== verification/Nomad.v ===== *)
(** * The Nomad provider ([provider/nomad/nomad.go])

    The Nomad API is a parameter: the record [Nomad] of the client calls the
    adapter makes, on a world of its own.  A job is the fields the adapter sets.
    How often [awaitJobAbsent] polls before its deadline and whether the context
    ends meanwhile are arguments. *)
From S2P Require Import Prelude Policy Domain Text Store StoreRuns EventLog Loop Waits Batcher Tools Api.
From S2P Require Import ResourceStore OperatorTx ResourceWork Strings GoJson AdminQuery Handles LocalDocker.

Record nomad_job := MkNomadJob {
  njID : string; njDatacenters : list string; njResource : ResourceID; njImage : string; njArgs : string;
  njEnv : gmap string string; njCPU : Z; njMemory : Z }.

(** [Job.Stop]: nil is false. *)
Record job_info := MkJobInfo { jiStop : bool }.
Record alloc_stub := MkAllocStub { alID : string; alClientStatus : string }.

(** The networks with their address and dynamic ports, and the shared ports:
    label, host address and value. *)
Record alloc_resources := MkAllocResources {
  arNetworks : list (string * list (string * Z)); arPorts : list (string * string * Z) }.

Record Nomad (W : Type) := MkNomad {
  Register : nomad_job → M W unit;
  Info : string → M W job_info;
  Allocations : string → M W (list alloc_stub);
  AllocationInfo : string → M W (option alloc_resources);
  Deregister : string → M W unit;
  ListJobs : M W (list string);
  AgentSelf : M W unit;
  ListNodes : M W (list string);
}.
Arguments Register {W}. Arguments Info {W}. Arguments Allocations {W}. Arguments AllocationInfo {W}.
Arguments Deregister {W}. Arguments ListJobs {W}. Arguments AgentSelf {W}. Arguments ListNodes {W}.

(** ** Names *)

Definition sanitize_byte (b : Z) : list Z :=
  if between 97 b 122 || between 48 b 57 || (b =? 45)%Z then [b] else if (b =? 95)%Z || (b =? 46)%Z then [45%Z] else [].
Fixpoint trim_dashes (l : list Z) : list Z :=
  match l with b :: rest => if (b =? 45)%Z then trim_dashes rest else l | [] => [] end.
Definition sanitize (value : string) : string :=
  let l := bytes_of (ToLower value) ≫= sanitize_byte in
  let out := reverse (trim_dashes (reverse (trim_dashes l))) in
  if bool_decide (out = []) then "unnamed" else of_bytes out.
Definition jobID (id : ResourceID) : string := "ultra-env-" +:+ sanitize id.

Definition isNotFound (e : err) : bool := Contains (ToLower (err_text e)) "not found".

(** ** Handles *)

Record nomad_handle := MkNomadHandle { nhJobID : string; nhResourceID : string }.
Definition nomad_data_json (d : nomad_handle) : json :=
  JObj [("job_id", JStr (nhJobID d)); ("resource_id", JStr (nhResourceID d))].
Definition set_nomad_data (k : string) (v : json) (d : nomad_handle) : option nomad_handle :=
  let '(MkNomadHandle j r) := d in
  if key_matches "job_id" k then j ← set_string v j; Some (MkNomadHandle j r)
  else if key_matches "resource_id" k then r ← set_string v r; Some (MkNomadHandle j r)
  else Some d.
Definition encodeHandle (d : nomad_handle) : result json := EncodeHandle 1 (nomad_data_json d).
Definition decodeHandle (h : option json) : result nomad_handle := DecodeHandle set_nomad_data (MkNomadHandle "" "") h.

(** ** The adapter *)

Record Config := MkConfig {
  cnAddress : string; cnToken : string; cnRegion : string; cnNamespace : string; cnDatacenters : list string;
  cnImage : string; cnCPU : Z; cnMemory : Z; cnEndpointHost : string }.

(** The defaults of [New]. *)
Definition New (c : Config) : Config :=
  MkConfig (if bool_decide (cnAddress c = "") then "http://127.0.0.1:4646" else cnAddress c) (cnToken c) (cnRegion c) (cnNamespace c)
    (if bool_decide (cnDatacenters c = []) then ["*"] else cnDatacenters c)
    (if bool_decide (cnImage c = "") then "ultracore/bezalel:local" else cnImage c)
    (if bool_decide (cnCPU c ≤ 0)%Z then 500 else cnCPU c) (if bool_decide (cnMemory c ≤ 0)%Z then 512 else cnMemory c)
    (cnEndpointHost c).

Section adapter.
Context {W : Type} (nomad : Nomad W) (cfg : Config) (polls : nat) (cancelled : bool).

Notation wrapped := LocalDocker.wrapped.

(** The spec's environment is laid over the token. *)
Definition job_of (r : Resource) (spec : DevEnvSpec) (token : string) : nomad_job :=
  let workdir := if bool_decide (dsWorkdir spec = "") then "/work" else dsWorkdir spec in
  MkNomadJob (jobID (r_id r)) (cnDatacenters cfg) (r_id r)
    (if bool_decide (dsImage spec = "") then cnImage cfg else dsImage spec)
    ("mkdir -p " +:+ workdir +:+ " && exec bezalel --workdir " +:+ workdir)
    (dsEnv spec ∪ {["BEZALEL_AUTH_TOKEN" := token]}) (cnCPU cfg) (cnMemory cfg).

Definition Provision (r : Resource) (token : string) : M W json :=
  spec ← of_result (ParseDevEnvSpec (r_spec r));
  _ ← wrapped "nomad: register job" (Register nomad (job_of r spec token));
  of_result (encodeHandle (MkNomadHandle (jobID (r_id r)) (r_id r))).

Definition runningAllocation (id : string) : M W (option alloc_stub) :=
  l ← Allocations nomad id; mret (head (bool_filter (λ al, bool_decide (alClientStatus al = "running")) l)).

(** The loop over the allocations. *)
Fixpoint first_status (l : list alloc_stub) : option (ResourceState * string) :=
  match l with
  | [] => None
  | al :: rest =>
      if bool_decide (alClientStatus al = "running") then Some (ResourceReady, "")
      else if bool_decide (alClientStatus al = "pending") then Some (ResourceProvisioning, "allocation pending")
      else first_status rest
  end.

Definition Status (r : Resource) : M W (ResourceState * string) :=
  d ← of_result (decodeHandle (r_handle r));
  job ← attempt (Info nomad (nhJobID d));
  match job with
  | Err e => if isNotFound e then mret (ResourceFailed, "job not found") else throw (ErrorText ("nomad: job info: " +:+ err_text e))
  | Ok job =>
      if jiStop job then mret (ResourceFailed, "job is stopped")
      else
        l ← wrapped "nomad: job allocations" (Allocations nomad (nhJobID d));
        mret match l with
             | [] => (ResourceProvisioning, "no allocation yet")
             | al :: _ => default (ResourceFailed, alClientStatus al) (first_status l)
             end
  end.

Definition HealthCheck (r : Resource) : M W unit :=
  st ← Status r; if negb (bool_decide (st.1 = ResourceReady)) then throw (not_ready "nomad" st) else mret ().

(** The first [tools] port: of a network, or shared. *)
Definition allocationAddress (a : option alloc_resources) : string * Z :=
  match a with
  | None => ("", 0%Z)
  | Some a =>
      let networks := arNetworks a ≫= (λ n, (λ p, (n.1, p.2)) <$> bool_filter (λ p, bool_decide (p.1 = "tools")) n.2) in
      let ports := (λ p, (p.1.2, p.2)) <$> bool_filter (λ p : string * string * Z, bool_decide (p.1.1 = "tools")) (arPorts a) in
      default ("", 0%Z) (head (networks ++ ports))
  end.

Definition Endpoint (r : Resource) : M W string :=
  d ← of_result (decodeHandle (r_handle r));
  stub ← wrapped "nomad: allocation lookup" (runningAllocation (nhJobID d));
  match stub with
  | None => throw (ErrorText "nomad: no running allocation")
  | Some stub =>
      al ← wrapped "nomad: allocation info" (AllocationInfo nomad (alID stub));
      let '(host, port) := allocationAddress al in
      if bool_decide (port = 0%Z) then throw (ErrorText "nomad: allocation advertises no tool port")
      else mret ("http://" +:+ (if bool_decide (cnEndpointHost cfg = "") then host else cnEndpointHost cfg) +:+ ":" +:+
                 pretty port +:+ "/mcp")
  end.

Definition Terminate (r : Resource) : M W unit :=
  match decodeHandle (r_handle r) with
  | Err _ => mret ()
  | Ok d =>
      res ← attempt (Deregister nomad (nhJobID d));
      match res with
      | Ok _ => mret ()
      | Err e => if isNotFound e then mret () else throw (ErrorText ("nomad: purge job: " +:+ err_text e))
      end
  end.

Fixpoint awaitJobAbsent (n : nat) (id : string) : M W unit :=
  match n with
  | O => throw (ErrorText "nomad: job was not purged within the deadline")
  | S n' =>
      res ← attempt (Info nomad id);
      if match res with Err e => isNotFound e | Ok _ => false end then mret ()
      else if cancelled then throw (ErrorText "context canceled")
      else awaitJobAbsent n' id
  end.

Definition Restart (r : Resource) (token : string) : M W json :=
  _ ← Terminate r;
  _ ← awaitJobAbsent polls (jobID (r_id r));
  Provision r token.

(** A job by its name: [None] when there is none, or it is stopped. *)
Definition live_job (prefix : string) (id : string) : M W (option job_info) :=
  job ← attempt (Info nomad id);
  match job with
  | Err e => if isNotFound e then mret None else throw (ErrorText (prefix +:+ err_text e))
  | Ok job => mret (if jiStop job then None else Some job)
  end.

Definition Adopt (r : Resource) : M W (option json) :=
  job ← live_job "nomad: adopt lookup: " (jobID (r_id r));
  match job with
  | None => mret None
  | Some _ => h ← of_result (encodeHandle (MkNomadHandle (jobID (r_id r)) (r_id r))); mret (Some h)
  end.

Definition Resources (id : ResourceID) : M W (list string) :=
  job ← live_job "nomad: list job: " (jobID id);
  match job with
  | None => mret []
  | Some _ =>
      l ← wrapped "nomad: list allocations" (Allocations nomad (jobID id));
      mret (("job/" +:+ jobID id) ::
        ((λ al, "allocation/" +:+ alID al) <$>
           bool_filter (λ al, bool_decide (alClientStatus al = "running") || bool_decide (alClientStatus al = "pending")) l))
  end.

(** The loop of [ListOwned] over the names of the jobs. *)
Fixpoint list_owned (jobs : list string) : M W (list (ResourceID * list string)) :=
  match jobs with
  | [] => mret []
  | j :: rest =>
      match cut_prefix "ultracore-" j with
      | None => list_owned rest
      | Some id =>
          desc ← Resources id;
          more ← list_owned rest;
          mret (match desc with [] => more | _ => (id, desc) :: more end)
      end
  end.
Definition ListOwned : M W (list (ResourceID * list string)) :=
  jobs ← wrapped "nomad: list jobs" (ListJobs nomad); list_owned jobs.

Definition Probe : M W ProviderCapabilities :=
  _ ← wrapped "nomad: control plane unreachable" (AgentSelf nomad);
  nodes ← wrapped "nomad: cannot list nodes" (ListNodes nomad);
  if negb (existsb (λ s, bool_decide (s = "ready")) nodes) then throw (ErrorText "nomad: the cluster has no ready client nodes")
  else mret (MkCapabilities "byo_nomad" ["adopts_orphans"; "enumerates_resources"; "serves_tool_endpoint"]
               {["restart_preserves_state" := "a replacement allocation receives a fresh allocation directory"]}).

Definition nomad_provider : ResourceProvider W := {|
  prKind := ResourceKindDevEnv;
  prValidateSpec := validate_spec "nomad";
  prProvision := Provision;
  prStatus := Status;
  prEndpoint := Endpoint;
  prRestart := Restart;
  prTerminate := Terminate;
  prAdopt := Some Adopt;
|}.

End adapter.
