(* ===== verification/NomadSpec.v ===== *)
(** * What the Nomad provider promises

    Given what Nomad documents of its API: the contract [adopting], and that a
    restart purges before it registers, so that the job that runs afterwards is
    a new one with the rotated token.  The last section has behaviour the
    comments exclude. *)
From S2P Require Import Prelude Policy Domain Text Store StoreRuns EventLog Loop Waits Batcher Tools Step Api.
From S2P Require Import ResourceStore OperatorTx ResourceWork Frames Invariants RunStates System Scenario ResourceSpec Strings GoJson AdminQuery Paging Handles NullProvider LocalDocker AdapterSpec Nomad.

(** The jobs of a cluster by name, each with its stop flag. *)
Notation cluster := (gmap string (nomad_job * bool)).

(** What the API documents: registering writes the job under its name, purging
    removes it, and the lookups change nothing and tell what there is. *)
Record nomad_api {W} (nomad : Nomad W) (jobs : W → cluster) : Prop := {
  na_register j w : match Register nomad j w with
    | (w', Ok _) => jobs w' = <[njID j := (j, false)]> (jobs w)
    | (w', Err _) => jobs w' = jobs w ∨ jobs w' = <[njID j := (j, false)]> (jobs w)
    end;
  na_deregister id w : jobs (Deregister nomad id w).1 = jobs w ∨ jobs (Deregister nomad id w).1 = delete id (jobs w);
  na_info id w : jobs (Info nomad id w).1 = jobs w ∧
    match (Info nomad id w).2 with
    | Ok i => ∃ j, jobs w !! id = Some (j, jiStop i)
    | Err e => isNotFound e = true → jobs w !! id = None
    end;
  na_allocations id w : jobs (Allocations nomad id w).1 = jobs w;
  na_allocation id w : jobs (AllocationInfo nomad id w).1 = jobs w;
}.

Section nomad.
Context {W : Type} (nomad : Nomad W) (jobs : W → cluster) (Hn : nomad_api nomad jobs).
Context (cfg : Config) (polls : nat) (cancelled : bool).

Notation same := (λ w w' : W, jobs w' = jobs w).
#[local] Instance same_jobs_pre : PreOrder same.
Proof. split; [by intros w|]. intros a b c. congruence. Qed.

Notation provider := (nomad_provider nomad cfg polls cancelled).

(** The job of a resource that is not stopped. *)
Definition nomad_live (w : W) (id : ResourceID) : nat :=
  match jobs w !! jobID id with
  | Some (j, stopped) => if bool_decide (njResource j = id) && negb stopped then 1 else 0
  | None => 0
  end.

Lemma keeps_wrapped {A} prefix (m : M W A) : keeps same m → keeps same (LocalDocker.wrapped prefix m).
Proof.
  intros Hm. unfold LocalDocker.wrapped. apply keeps_bind; [apply _|by apply keeps_attempt|].
  intros []; [apply keeps_ret|apply keeps_throw]; apply _.
Qed.
Lemma keeps_info id : keeps same (Info nomad id).
Proof. intros w. apply (na_info _ _ Hn). Qed.
Lemma keeps_allocations id : keeps same (Allocations nomad id).
Proof. intros w. apply (na_allocations _ _ Hn). Qed.

(** Provisioning writes at most the job of its resource. *)
Lemma provision_jobs r token w :
  jobs (Provision nomad cfg r token w).1 = jobs w ∨
  ∃ spec, jobs (Provision nomad cfg r token w).1 = <[jobID (r_id r) := (job_of cfg r spec token, false)]> (jobs w).
Proof.
  destruct (Provision nomad cfg r token w) as [w' res] eqn:E. revert E. cbn [fst]. unfold Provision.
  destruct (ParseDevEnvSpec (r_spec r)) as [spec|]; [|intros [= <- <-]; by left].
  unfold mbind at 1, M_bind at 1. cbn [of_result]. unfold mbind, M_bind. rewrite wrapped_run.
  pose proof (na_register _ _ Hn (job_of cfg r spec token) w) as Hr. destruct (Register _ _ w) as [w1 [[]|e]]; cbn; intros [= <- <-].
  - right. exists spec. exact Hr.
  - destruct Hr as [Hr|Hr]; [by left|right; exists spec; exact Hr].
Qed.

Lemma nomad_live_put w w' j r id : jobs w' = <[jobID (r_id r) := (j, false)]> (jobs w) → njResource j = r_id r →
  (nomad_live w' id ≤ nomad_live w id + if bool_decide (id = r_id r) then 1 else 0)%nat.
Proof.
  intros E Hj. unfold nomad_live. rewrite E, lookup_insert. case_decide as Ei.
  - rewrite Hj. repeat case_bool_decide; subst; cbn; try lia; congruence.
  - lia.
Qed.
Lemma nomad_live_same w w' id : jobs w' = jobs w → nomad_live w' id = nomad_live w id.
Proof. unfold nomad_live. by intros ->. Qed.

Lemma live_job_None prefix id w w' : live_job nomad prefix id w = (w', Ok None) →
  jobs w' = jobs w ∧ ∀ j b, jobs w !! id = Some (j, b) → b = true.
Proof.
  unfold live_job, mbind, M_bind, attempt. destruct (na_info _ _ Hn id w) as [Hs Hi].
  destruct (Info nomad id w) as [w1 [i|e]]; cbn in *.
  - destruct Hi as [j Hj]. destruct (jiStop i) eqn:E; intros [=]; subst. split; [done|]. intros j' b Hb. congruence.
  - destruct (isNotFound e); [|done]. intros [= <-]. split; [done|]. intros j b Hb. by rewrite Hi in Hb.
Qed.
Lemma keeps_live_job prefix id : keeps same (live_job nomad prefix id).
Proof.
  unfold live_job. apply keeps_bind; [apply _|apply keeps_attempt, keeps_info|]. intros [i|e]; [apply keeps_ret; apply _|].
  case_match; (apply keeps_ret || apply keeps_throw); apply _.
Qed.

Lemma nomad_adopting : adopting nomad_live provider.
Proof.
  assert (∀ {A} (m : M W A) w id, keeps same m → (nomad_live (m w).1 id ≤ nomad_live w id)%nat) as Hsame
    by (intros A m w id Hm; by rewrite (nomad_live_same w _ id (Hm w))).
  assert (∀ {A} (x : result A), keeps same (of_result x : M W A)) as Hres by (intros; apply keeps_of_result; apply _).
  split.
  - intros r token w id. cbn. destruct (provision_jobs r token w) as [E|[spec E]].
    + rewrite (nomad_live_same _ _ id E). lia.
    + by apply (nomad_live_put w _ (job_of cfg r spec token) r id E).
  - eexists. split; [reflexivity|]. intros r w. split.
    + intros id. apply Hsame. unfold Adopt. apply keeps_bind; [apply _|apply keeps_live_job|].
      intros [j|]; [|apply keeps_ret; apply _]. apply keeps_bind; [apply _|apply Hres|intros; apply keeps_ret; apply _].
    + unfold Adopt, mbind, M_bind. destruct (live_job _ _ _ w) as [w1 [[j|]|e]] eqn:E; [done| |done]. intros _.
      apply live_job_None in E as [Ew Hst]. cbn. unfold nomad_live. rewrite Ew.
      destruct (jobs w !! jobID (r_id r)) as [[j b]|] eqn:Ej; [|done]. rewrite (Hst j b eq_refl). by rewrite andb_false_r.
  - intros r w id. apply Hsame. cbn. unfold Status. apply keeps_bind; [apply _|apply Hres|intros d].
    apply keeps_bind; [apply _|apply keeps_attempt, keeps_info|]. intros [i|e].
    + case_match; [apply keeps_ret; apply _|]. apply keeps_bind; [apply _|apply keeps_wrapped, keeps_allocations|].
      intros; apply keeps_ret; apply _.
    + case_match; (apply keeps_ret || apply keeps_throw); apply _.
  - intros r w id. apply Hsame. cbn. unfold Endpoint. apply keeps_bind; [apply _|apply Hres|intros d].
    apply keeps_bind; [apply _| |].
    + apply keeps_wrapped. unfold runningAllocation. apply keeps_bind; [apply _|apply keeps_allocations|intros; apply keeps_ret; apply _].
    + intros [stub|]; [|apply keeps_throw; apply _]. apply keeps_bind; [apply _|apply keeps_wrapped; intros v; apply (na_allocation _ _ Hn)|].
      intros al. destruct (allocationAddress al). case_match; (apply keeps_throw || apply keeps_ret); apply _.
  - intros r w id. cbn. unfold Terminate. destruct (decodeHandle (r_handle r)) as [d|]; [|done].
    unfold mbind, M_bind, attempt. pose proof (na_deregister _ _ Hn (nhJobID d) w) as Hd.
    destruct (Deregister nomad (nhJobID d) w) as [w1 res]. cbn in Hd.
    assert (nomad_live w1 id ≤ nomad_live w id)%nat as Hle.
    { unfold nomad_live. destruct Hd as [->| ->]; [done|]. rewrite lookup_delete. case_decide; [lia|done]. }
    destruct res as [[]|e]; [done|]. by destruct (isNotFound e).
Qed.

(** ** Restarting *)

Lemma awaitJobAbsent_Ok n id w w' : awaitJobAbsent nomad cancelled n id w = (w', Ok ()) →
  jobs w' = jobs w ∧ jobs w !! id = None.
Proof.
  revert w. induction n as [|n IH]; intros w; cbn [awaitJobAbsent]; [done|]. unfold mbind, M_bind, attempt.
  destruct (na_info _ _ Hn id w) as [Hs Hi]. destruct (Info nomad id w) as [w1 [i|e]]; cbn in *.
  - destruct cancelled; [done|]. intros [E1 E2]%IH. split; congruence.
  - destruct (isNotFound e).
    + intros [= <-]. auto.
    + destruct cancelled; [done|]. intros [E1 E2]%IH. split; congruence.
Qed.

(** A successful restart leaves the resource's job registered anew, with the
    rotated token unless the spec overrides it, and touches no other job than the
    one the old handle names; the old job was gone before the new one came. *)
Theorem nomad_restart_replaces r token w w' h :
  prRestart provider r token w = (w', Ok h) →
  ∃ spec others, ParseDevEnvSpec (r_spec r) = Ok spec ∧ others !! jobID (r_id r) = None ∧
    jobs w' = <[jobID (r_id r) := (job_of cfg r spec token, false)]> others ∧
    (others = jobs w ∨ ∃ d, decodeHandle (r_handle r) = Ok d ∧ others = delete (nhJobID d) (jobs w)) ∧
    (dsEnv spec !! "BEZALEL_AUTH_TOKEN" = None → njEnv (job_of cfg r spec token) !! "BEZALEL_AUTH_TOKEN" = Some token) ∧
    encodeHandle (MkNomadHandle (jobID (r_id r)) (r_id r)) = Ok h.
Proof.
  cbn. unfold Restart. unfold mbind at 1, M_bind at 1. destruct (Terminate nomad r w) as [w1 [[]|]] eqn:Et; [|done].
  unfold mbind at 1, M_bind at 1. destruct (awaitJobAbsent _ _ _ _ w1) as [w2 [[]|]] eqn:Ea; [|done].
  apply awaitJobAbsent_Ok in Ea as [E2 Habs]. unfold Provision.
  destruct (ParseDevEnvSpec (r_spec r)) as [spec|]; [|done]. unfold mbind at 1, M_bind at 1. cbn [of_result].
  unfold mbind, M_bind. rewrite wrapped_run. pose proof (na_register _ _ Hn (job_of cfg r spec token) w2) as Hr.
  destruct (Register _ _ w2) as [w3 [[]|e]]; [|done]. cbn. intros [= <- <-]. exists spec, (jobs w1).
  split_and!; [done|done|by rewrite Hr, E2| | |done].
  - revert Et. clear - Hn. unfold Terminate. destruct (decodeHandle (r_handle r)) as [d|]; [|intros [= <-]; by left].
    unfold mbind, M_bind, attempt. pose proof (na_deregister _ _ Hn (nhJobID d) w) as Hd.
    destruct (Deregister nomad (nhJobID d) w) as [v res]. cbn in Hd.
    assert (jobs v = jobs w ∨ ∃ d', Ok d = Ok d' ∧ jobs v = delete (nhJobID d') (jobs w)) as Hv
      by (destruct Hd; [by left|right; by exists d]).
    destruct res as [[]|e]; [by intros [= <-]|]. destruct (isNotFound e); [by intros [= <-]|done].
  - intros Hno. cbn. rewrite lookup_union_r by done. apply lookup_singleton_eq.
Qed.

(** ** Where code and comments part *)

(** The listing looks for jobs named [ultracore-...]; the provider names them
    [ultra-env-...].  So it finds none of its own jobs. *)
Lemma jobID_not_listed id : cut_prefix "ultracore-" (jobID id) = None.
Proof. reflexivity. Qed.
Theorem nomad_lists_nothing w w' names : ListJobs nomad w = (w', Ok names) → Forall (λ j, ∃ id, j = jobID id) names →
  ListOwned nomad w = (w', Ok []).
Proof.
  intros Hl Hj. unfold ListOwned, mbind, M_bind. rewrite wrapped_run, Hl.
  clear Hl. induction Hj as [|j names [id ->] _ IH]; [done|]. cbn [list_owned]. rewrite jobID_not_listed. exact IH.
Qed.

End nomad.

(** ** A cluster *)

Module Cluster.

Definition info (id : string) : M cluster job_info :=
  w ← get; match w !! id with Some (j, b) => mret (MkJobInfo b) | None => throw (ErrorText "job not found") end.
Definition nomad : Nomad cluster := {|
  Register := λ j, modify (<[njID j := (j, false)]>);
  Info := info;
  Allocations := λ id, mret [MkAllocStub ("a-" +:+ id) "running"];
  AllocationInfo := λ _, mret (Some (MkAllocResources [("10.0.0.1", [("tools", 21000%Z)])] []));
  Deregister := λ id, modify (delete id);
  ListJobs := w ← get; mret (map_to_list w).*1;
  AgentSelf := mret ();
  ListNodes := mret ["ready"];
|}.
Lemma cluster_ok : nomad_api nomad id.
Proof.
  split; try done.
  - intros i w. by right.
  - intros i w. cbn. unfold info, mbind, M_bind, get. cbn. destruct (w !! i) as [[j b]|] eqn:E; cbv beta iota delta [id].
    + split; [reflexivity|by exists j].
    + split; [reflexivity|intros _; reflexivity].
Qed.

Definition cfg : Config := New (MkConfig "" "" "" "" [] "" 0 0 "").
Definition box (id : ResourceID) (h : option json) : Resource :=
  MkResource id "acme" "s1" ResourceKindDevEnv "p1" ResourceReady (Some (spec_json (MkDevEnvSpec "box" "" "" ∅ ∅))) h "" "" "" 1 "" None
    0 0 None None.
Definition handle : json := JObj [("version", JNum 1); ("data", JObj [("job_id", JStr "ultra-env-e1"); ("resource_id", JStr "e1")])].
Definition running : cluster := (Provision nomad cfg (box "e1" None) "t1" ∅).1.

End Cluster.

Lemma nomad_restart_replaces_witness :
  ∃ w', prRestart (nomad_provider Cluster.nomad Cluster.cfg 10 false) (Cluster.box "e1" (Some Cluster.handle)) "t2" Cluster.running =
    (w', Ok Cluster.handle) ∧ ∃ j, w' = {["ultra-env-e1" := (j, false)]} ∧ njEnv j !! "BEZALEL_AUTH_TOKEN" = Some "t2".
Proof.
  destruct (prRestart (nomad_provider Cluster.nomad Cluster.cfg 10 false) (Cluster.box "e1" (Some Cluster.handle)) "t2" Cluster.running)
    as [w' res] eqn:E.
  assert (res = Ok Cluster.handle) as -> by (transitivity (w', res).2; [done|rewrite <-E; vm_compute; reflexivity]).
  exists w'. split; [done|].
  destruct (nomad_restart_replaces Cluster.nomad id Cluster.cluster_ok Cluster.cfg 10 false _ _ _ _ _ E)
    as (spec & others & Hs & _ & Ew & _ & Henv & _).
  exists (job_of Cluster.cfg (Cluster.box "e1" (Some Cluster.handle)) spec "t2").
  assert (spec = MkDevEnvSpec "box" "" "" ∅ ∅) as -> 
    by (pose proof (ParseDevEnvSpec_json (MkDevEnvSpec "box" "" "" ∅ ∅)) as Hb; cbn [r_spec Cluster.box] in Hs; congruence).
  split; [|apply Henv, lookup_empty]. transitivity (w', Ok Cluster.handle).1; [done|]. rewrite <-E. vm_compute. reflexivity.
Defined.

(** The environment of a spec replaces the token of the platform. *)
Example spec_overrides_token :
  njEnv (job_of Cluster.cfg (Cluster.box "e1" None) (MkDevEnvSpec "box" "" "" {["BEZALEL_AUTH_TOKEN" := "mine"]} ∅) "t1")
    !! "BEZALEL_AUTH_TOKEN" = Some "mine".
Proof. reflexivity. Qed.
Example cluster_lists_nothing :
  (ListJobs Cluster.nomad Cluster.running).2 = Ok ["ultra-env-e1"] ∧ (ListOwned Cluster.nomad Cluster.running).2 = Ok [].
Proof. vm_compute. split; reflexivity. Qed.
