(* ===== verification/K8s.v ===== *)
(** * The Kubernetes provider ([provider/k8s/k8s.go], [provider/k8s/lifecycle.go])

    The Kubernetes API is a parameter: the record [Kube] of the client calls the
    adapter makes, on a world of its own; [ErrAlreadyExists] and [ErrNotFound] are
    the errors [apierrors] recognises.  An object is the fields the adapter sets;
    of a pod's status, those it reads.  A quantity is its text, and which texts
    parse is a parameter.  How often [awaitPodAbsent] polls before its deadline
    and whether the context ends meanwhile are arguments. *)
From S2P Require Import Prelude Policy Domain Text Store StoreRuns EventLog Loop Waits Batcher Tools Api.
From S2P Require Import ResourceStore OperatorTx ResourceWork Strings GoJson AdminQuery Handles LocalDocker Nomad.

(** ** Objects *)

Inductive kkind := KPod | KService | KSecret.
#[export] Instance kkind_eq_dec : EqDecision kkind.
Proof. solve_decision. Defined.
#[export] Instance kkind_countable : Countable kkind.
Proof.
  refine (inj_countable' (λ k, match k with KPod => 0 | KService => 1 | KSecret => 2 end)
    (λ n, match n with 0 => KPod | 1 => KService | _ => KSecret end) _). by intros [].
Defined.

(** An environment variable: the key of a secret by the secret's name, or a value. *)
Inductive env_source := FromSecret (secret : string) | Literal (value : string).
Record pod_spec := MkPodSpec {
  psImage : string; psArgs : list string; psEnv : list (string * env_source);
  psRequests : string * string; psLimits : string * string; psMount : string }.

(** The node ports, [0] for none. *)
Record service_spec := MkServiceSpec { ssType : string; ssSelector : gmap string string; ssNodePorts : list Z }.
Inductive kbody := PodBody (s : pod_spec) | ServiceBody (s : service_spec) | SecretBody (token : string).
Record kobject := MkObject { koNamespace : string; koName : string; koLabels : gmap string string; koBody : kbody }.

Definition kind_of (b : kbody) : kkind :=
  match b with PodBody _ => KPod | ServiceBody _ => KService | SecretBody _ => KSecret end.

(** Phase, conditions with their status, and the reasons containers wait for. *)
Record pod_status := MkPodStatus { phPhase : string; phConditions : list (string * string); phWaiting : list string }.

Record Kube (W : Type) := MkKube {
  CreateNamespace : string → M W unit;
  KCreate : kobject → M W kobject;
  KUpdate : kobject → M W kobject;
  KGet : kkind → string → string → M W (kobject * pod_status);
  KDelete : kkind → string → string → M W unit;
  (** Namespace, empty for all, and label selector. *)
  KList : kkind → string → string → M W (list kobject);
  ServerVersion : M W unit;
  AccessReview : string → string → M W (bool * string);
}.
Arguments CreateNamespace {W}. Arguments KCreate {W}. Arguments KUpdate {W}. Arguments KGet {W}.
Arguments KDelete {W}. Arguments KList {W}. Arguments ServerVersion {W}. Arguments AccessReview {W}.

(** ** Configuration and names *)

Definition LabelResourceID : string := "ultracore.dev/env-id".
Definition LabelManagedBy : string := "app.kubernetes.io/managed-by".
Definition ManagedByValue : string := "ultracore".
Definition EndpointModeCluster : string := "cluster".
Definition EndpointModeNodePort : string := "nodeport".

Record Config := MkConfig {
  kcNamespace : string; kcImage : string; kcCPURequest : string; kcCPULimit : string; kcMemoryRequest : string;
  kcMemoryLimit : string; kcEndpointMode : string; kcEndpointHost : string; kcPortLow : Z; kcPortHigh : Z }.

Definition NewWithClient (c : Config) : Config :=
  MkConfig (kcNamespace c) (if bool_decide (kcImage c = "") then "ultracore/bezalel:local" else kcImage c)
    (kcCPURequest c) (kcCPULimit c) (kcMemoryRequest c) (kcMemoryLimit c)
    (if bool_decide (kcEndpointMode c = "") then EndpointModeCluster else kcEndpointMode c)
    (kcEndpointHost c) (kcPortLow c) (kcPortHigh c).

Definition Namespace (c : Config) : string :=
  if negb (bool_decide (kcNamespace c = "")) then kcNamespace c else "ultracore-envs".

(** The characters are those of the Nomad adapter; here the label is cut. *)
Definition label (value : string) : string :=
  let l := bytes_of (ToLower value) ≫= sanitize_byte in
  let out := take 55 (reverse (trim_dashes (reverse (trim_dashes l)))) in
  if bool_decide (out = []) then "unnamed" else of_bytes out.
Definition objectName (id : ResourceID) : string := "ultra-env-" +:+ label id.
Definition labels (id : ResourceID) : gmap string string :=
  {[LabelResourceID := label id; LabelManagedBy := ManagedByValue]}.
Definition selector (id : ResourceID) : string :=
  LabelResourceID +:+ "=" +:+ label id +:+ "," +:+ LabelManagedBy +:+ "=" +:+ ManagedByValue.

(** ** Handles *)

Definition set_int32 (v : json) (old : Z) : option Z :=
  match v with
  | JNum z => if bool_decide (-2147483648 ≤ z ≤ 2147483647)%Z then Some z else None
  | JNull => Some old
  | _ => None
  end.

Record kube_handle := MkKubeHandle {
  khNamespace : string; khName : string; khResourceID : string; khNodePort : Z; khEndpoint : string }.
Definition no_kube_handle : kube_handle := MkKubeHandle "" "" "" 0 "".
Definition kube_data_json (d : kube_handle) : json :=
  JObj ([("namespace", JStr (khNamespace d)); ("name", JStr (khName d)); ("resource_id", JStr (khResourceID d))] ++
        (if bool_decide (khNodePort d = 0%Z) then [] else [("node_port", JNum (khNodePort d))]) ++
        opt_field "endpoint" (khEndpoint d)).
Definition set_kube_data (k : string) (v : json) (d : kube_handle) : option kube_handle :=
  let '(MkKubeHandle ns n r p e) := d in
  if key_matches "namespace" k then ns ← set_string v ns; Some (MkKubeHandle ns n r p e)
  else if key_matches "name" k then n ← set_string v n; Some (MkKubeHandle ns n r p e)
  else if key_matches "resource_id" k then r ← set_string v r; Some (MkKubeHandle ns n r p e)
  else if key_matches "node_port" k then p ← set_int32 v p; Some (MkKubeHandle ns n r p e)
  else if key_matches "endpoint" k then e ← set_string v e; Some (MkKubeHandle ns n r p e)
  else Some d.
Definition encodeHandle (d : kube_handle) : result json := EncodeHandle 1 (kube_data_json d).
Definition decodeHandle (h : option json) : result kube_handle := DecodeHandle set_kube_data no_kube_handle h.

(** ** Node ports *)

(** [int32] addition. *)
Definition wrap32 (z : Z) : Z := ((z + 2147483648) mod 4294967296 - 2147483648)%Z.

(** The loop of [freeNodePort]; [taken] is the map of ports in use. *)
Fixpoint scan_ports (fuel : nat) (taken : list Z) (candidate high : Z) : option Z :=
  match fuel with
  | O => None
  | S fuel =>
      if bool_decide (high < candidate)%Z then None
      else if bool_decide (candidate ∈ taken) then scan_ports fuel taken (wrap32 (candidate + 1)) high
      else Some candidate
  end.
Definition taken_ports (services : list kobject) : list Z :=
  services ≫= (λ o, match koBody o with
                    | ServiceBody s => bool_filter (λ p, negb (bool_decide (p = 0%Z))) (ssNodePorts s)
                    | _ => []
                    end).

(** ** The adapter *)

Section adapter.
Context {W : Type} (kube : Kube W) (quantity_ok : string → bool) (cfg : Config) (polls : nat) (cancelled : bool).

Notation wrapped := LocalDocker.wrapped.
Notation already_exists e := (bool_decide (e = ErrAlreadyExists)).
Notation not_found e := (bool_decide (e = ErrNotFound)).

Definition ensureNamespace (namespace : string) : M W unit :=
  r ← attempt (CreateNamespace kube namespace);
  match r with
  | Ok _ => mret ()
  | Err e => if already_exists e then mret () else throw (ErrorText ("k8s: create namespace " +:+ namespace +:+ ": " +:+ err_text e))
  end.

Definition secret_of (namespace name : string) (id : ResourceID) (token : string) : kobject :=
  MkObject namespace name (labels id) (SecretBody token).
Definition applySecret (namespace name : string) (id : ResourceID) (token : string) : M W unit :=
  let secret := secret_of namespace name id token in
  r ← attempt (KCreate kube secret);
  r ← match r with
      | Err e => if already_exists e then attempt (KUpdate kube secret) else mret r
      | Ok _ => mret r
      end;
  match r with Ok _ => mret () | Err e => throw (ErrorText ("k8s: apply token secret: " +:+ err_text e)) end.

(** [MustParse] of a fallback does not panic: the fallbacks are quantities. *)
Definition quantity (value fallback : string) : string :=
  let v := if bool_decide (value = "") then fallback else value in if quantity_ok v then v else fallback.

Definition pod_of (namespace name : string) (id : ResourceID) (spec : DevEnvSpec) : kobject :=
  let workdir := if bool_decide (dsWorkdir spec = "") then "/work" else dsWorkdir spec in
  MkObject namespace name (labels id) (PodBody (MkPodSpec
    (if bool_decide (dsImage spec = "") then kcImage cfg else dsImage spec) ["--workdir"; workdir]
    (("BEZALEL_AUTH_TOKEN", FromSecret name) :: ((λ kv, (kv.1, Literal kv.2)) <$> map_to_list (dsEnv spec)))
    (quantity (kcCPURequest cfg) "100m", quantity (kcMemoryRequest cfg) "256Mi")
    (quantity (kcCPULimit cfg) "1", quantity (kcMemoryLimit cfg) "1Gi") workdir)).
Definition applyPod (namespace name : string) (id : ResourceID) (spec : DevEnvSpec) : M W unit :=
  r ← attempt (KCreate kube (pod_of namespace name id spec));
  match r with
  | Ok _ => mret ()
  | Err e => if already_exists e then mret () else throw (ErrorText ("k8s: create pod: " +:+ err_text e))
  end.

Definition freeNodePort : M W Z :=
  services ← wrapped "k8s: list services for port assignment" (KList kube KService "" "");
  let taken := taken_ports services in
  of_option (ErrorText ("k8s: no free node port in range " +:+ pretty (kcPortLow cfg) +:+ "-" +:+ pretty (kcPortHigh cfg)))
    (scan_ports (S (length taken)) taken (kcPortLow cfg) (kcPortHigh cfg)).

Definition service_of (namespace name : string) (id : ResourceID) (node_port : Z) : kobject :=
  MkObject namespace name (labels id) (ServiceBody (MkServiceSpec
    (if bool_decide (kcEndpointMode cfg = EndpointModeNodePort) then "NodePort" else "ClusterIP") (labels id) [node_port])).
(** A service created meanwhile is read. *)
Definition create_service (namespace name : string) (id : ResourceID) (port : Z) : M W kobject :=
  r ← attempt (KCreate kube (service_of namespace name id port));
  r ← match r with
      | Err e => if already_exists e
                 then r ← attempt (KGet kube KService namespace name);
                      mret (match r with Ok (o, _) => Ok o | Err e => Err e end)
                 else mret r
      | Ok _ => mret r
      end;
  match r with Ok o => mret o | Err e => throw (ErrorText ("k8s: apply service: " +:+ err_text e)) end.
Definition applyService (namespace name : string) (id : ResourceID) : M W kobject :=
  existing ← attempt (KGet kube KService namespace name);
  match existing with
  | Ok (o, _) => mret o
  | Err e =>
      if negb (not_found e) then throw (ErrorText ("k8s: read service: " +:+ err_text e))
      else
        port ← (if bool_decide (kcEndpointMode cfg = EndpointModeNodePort) && bool_decide (0 < kcPortHigh cfg)%Z
                then freeNodePort else mret 0%Z);
        create_service namespace name id port
  end.

(** The node port of a service's first port. *)
Definition first_port (o : kobject) : option Z :=
  match koBody o with ServiceBody s => head (ssNodePorts s) | _ => None end.

Definition Provision (r : Resource) (token : string) : M W json :=
  spec ← of_result (ParseDevEnvSpec (r_spec r));
  let namespace := Namespace cfg in
  _ ← ensureNamespace namespace;
  let name := objectName (r_id r) in
  _ ← applySecret namespace name (r_id r) token;
  _ ← applyPod namespace name (r_id r) spec;
  service ← applyService namespace name (r_id r);
  let port := if bool_decide (kcEndpointMode cfg = EndpointModeNodePort) then default 0%Z (first_port service) else 0%Z in
  of_result (encodeHandle (MkKubeHandle namespace name (r_id r) port "")).

(** The first reason a container waits for. *)
Definition podPendingReason (st : pod_status) : string :=
  default "pending" (head (bool_filter (λ reason, negb (bool_decide (reason = ""))) (phWaiting st))).

Definition status_of_pod (st : pod_status) : ResourceState * string :=
  if bool_decide (phPhase st = "Running") then
    if existsb (λ c, bool_decide (c.1 = "Ready") && bool_decide (c.2 = "True")) (phConditions st) then (ResourceReady, "")
    else (ResourceProvisioning, "pod is not ready")
  else if bool_decide (phPhase st = "Pending") then (ResourceProvisioning, podPendingReason st)
  else if bool_decide (phPhase st = "Succeeded") || bool_decide (phPhase st = "Failed") then (ResourceFailed, phPhase st)
  else (ResourceProvisioning, "").

Definition Status (r : Resource) : M W (ResourceState * string) :=
  d ← of_result (decodeHandle (r_handle r));
  pod ← attempt (KGet kube KPod (khNamespace d) (khName d));
  match pod with
  | Err e => if not_found e then mret (ResourceFailed, "pod not found") else throw (ErrorText ("k8s: get pod: " +:+ err_text e))
  | Ok (_, st) => mret (status_of_pod st)
  end.

Definition HealthCheck (r : Resource) : M W unit :=
  st ← Status r; if negb (bool_decide (st.1 = ResourceReady)) then throw (not_ready "k8s" st) else mret ().

Definition Endpoint (r : Resource) : M W string :=
  d ← of_result (decodeHandle (r_handle r));
  service ← wrapped "k8s: get service" (KGet kube KService (khNamespace d) (khName d));
  match first_port service.1 with
  | None => throw (ErrorText "k8s: service publishes no port")
  | Some port =>
      if bool_decide (kcEndpointMode cfg = EndpointModeNodePort) then
        if bool_decide (port = 0%Z) then throw (ErrorText "k8s: service has no assigned node port yet")
        else mret ("http://" +:+ (if bool_decide (kcEndpointHost cfg = "") then "127.0.0.1" else kcEndpointHost cfg) +:+ ":" +:+
                   pretty port +:+ "/mcp")
      else mret ("http://" +:+ koName service.1 +:+ "." +:+ koNamespace service.1 +:+ ".svc.cluster.local:8080/mcp")
  end.

Fixpoint awaitPodAbsent (n : nat) (namespace name : string) : M W unit :=
  match n with
  | O => throw (ErrorText "k8s: pod was not deleted within the deadline")
  | S n' =>
      pod ← attempt (KGet kube KPod namespace name);
      match pod with
      | Err e => if not_found e then mret () else throw (ErrorText ("k8s: await pod deletion: " +:+ err_text e))
      | Ok _ => if cancelled then throw (ErrorText "context canceled") else awaitPodAbsent n' namespace name
      end
  end.

(** A deletion; what is gone already counts as deleted. *)
Definition deleted (what : string) (k : kkind) (namespace name : string) : M W unit :=
  r ← attempt (KDelete kube k namespace name);
  match r with
  | Ok _ => mret ()
  | Err e => if not_found e then mret () else throw (ErrorText ("k8s: delete " +:+ what +:+ ": " +:+ err_text e))
  end.

Definition Restart (r : Resource) (token : string) : M W json :=
  d ← of_result (decodeHandle (r_handle r));
  _ ← deleted "pod for restart" KPod (khNamespace d) (khName d);
  _ ← awaitPodAbsent polls (khNamespace d) (khName d);
  Provision r token.

Definition Terminate (r : Resource) : M W unit :=
  match decodeHandle (r_handle r) with
  | Err _ => mret ()
  | Ok d =>
      _ ← deleted "pod" KPod (khNamespace d) (khName d);
      _ ← deleted "service" KService (khNamespace d) (khName d);
      deleted "secret" KSecret (khNamespace d) (khName d)
  end.

Definition Adopt (r : Resource) : M W (option json) :=
  let namespace := Namespace cfg in
  pods ← attempt (KList kube KPod namespace (selector (r_id r)));
  match pods with
  | Err e => if not_found e then mret None else throw (ErrorText ("k8s: adopt lookup: " +:+ err_text e))
  | Ok [] => mret None
  | Ok _ =>
      let name := objectName (r_id r) in
      service ← attempt (KGet kube KService namespace name);
      let port := match service with Ok (o, _) => default 0%Z (first_port o) | Err _ => 0%Z end in
      h ← of_result (encodeHandle (MkKubeHandle namespace name (r_id r) port ""));
      mret (Some h)
  end.

Definition described (what : string) (l : list kobject) : list string :=
  (λ o, what +:+ "/" +:+ koNamespace o +:+ "/" +:+ koName o) <$> l.
Definition Resources (id : ResourceID) : M W (list string) :=
  pods ← wrapped "k8s: list pods" (KList kube KPod (Namespace cfg) (selector id));
  services ← wrapped "k8s: list services" (KList kube KService (Namespace cfg) (selector id));
  secrets ← wrapped "k8s: list secrets" (KList kube KSecret (Namespace cfg) (selector id));
  mret (described "pod" pods ++ described "service" services ++ described "secret" secrets).

(** The loop of [ListOwned]: an id is reported at its first pod. *)
Fixpoint owned_pods (seen : list ResourceID) (pods : list kobject) : M W (list (ResourceID * list string)) :=
  match pods with
  | [] => mret []
  | pod :: rest =>
      let id := default "" (koLabels pod !! LabelResourceID) in
      if bool_decide (id = "") || bool_decide (id ∈ seen) then owned_pods seen rest
      else desc ← Resources id; more ← owned_pods (id :: seen) rest; mret ((id, desc) :: more)
  end.
Definition ListOwned : M W (list (ResourceID * list string)) :=
  pods ← wrapped "k8s: list owned" (KList kube KPod (Namespace cfg) LabelResourceID); owned_pods [] pods.

Definition canCreate (resource : string) : M W unit :=
  r ← attempt (AccessReview kube (Namespace cfg) resource);
  match r with
  | Err e => throw (ErrorText ("permission check for " +:+ resource +:+ " failed: " +:+ err_text e))
  | Ok (allowed, reason) =>
      if negb allowed then throw (ErrorText ("not permitted to create " +:+ resource +:+ ": " +:+ reason)) else mret ()
  end.

Definition Probe : M W ProviderCapabilities :=
  _ ← wrapped "k8s: control plane unreachable" (ServerVersion kube);
  _ ← wrapped "k8s: cannot create pods" (canCreate "pods");
  services ← attempt (canCreate "services");
  let note := {["restart_preserves_state" := "environment workspaces are emptyDir volumes"]} in
  mret match services with
       | Ok _ => MkCapabilities "byo_k8s" ["adopts_orphans"; "enumerates_resources"; "serves_tool_endpoint"] note
       | Err _ => MkCapabilities "byo_k8s" ["adopts_orphans"; "enumerates_resources"]
                    (<["serves_tool_endpoint" :=
                        "the cluster does not allow creating Services, so no tool endpoint can be published"]> note)
       end.

Definition kube_provider : ResourceProvider W := {|
  prKind := ResourceKindDevEnv;
  prValidateSpec := validate_spec "k8s";
  prProvision := Provision;
  prStatus := Status;
  prEndpoint := Endpoint;
  prRestart := Restart;
  prTerminate := Terminate;
  prAdopt := Some Adopt;
|}.

End adapter.
