(* ===== verification/K8sSpec.v ===== *)
(** * What the Kubernetes provider promises

    Given what Kubernetes documents of its API, where a deleted object may stay
    for a while before it is gone: provisioning makes the three objects of an
    environment and touches no other, also after an earlier attempt; a restart
    runs a new pod with the rotated token behind the same service; terminating
    the handle of a provision leaves none of them; and a node port is taken from
    the configured range whenever it has a free one. *)
From S2P Require Import Prelude Policy Domain Text Store StoreRuns EventLog Loop Waits Batcher Tools Step Api.
From S2P Require Import ResourceStore OperatorTx ResourceWork Frames Invariants RunStates System Scenario ResourceSpec Strings GoJson AdminQuery Paging Handles NullProvider LocalDocker AdapterSpec Nomad K8s.

(** ** Objects *)

Notation kkey := (kkind * (string * string))%type.
Definition key (o : kobject) : kkey := (kind_of (koBody o), (koNamespace o, koName o)).

(** An entry with its deletion mark; a marked one may disappear by itself. *)
Notation entry := (option (kobject * bool)).
Definition settled (x y : entry) : Prop := y = x ∨ ∃ o, x = Some (o, true) ∧ y = None.
Definition steady (x : entry) : Prop := ∀ o, x ≠ Some (o, true).
Definition gone (x : entry) : Prop := x = None ∨ ∃ o, x = Some (o, true).

#[export] Instance settled_pre : PreOrder settled.
Proof.
  split; [by left|]. intros x y z [->|(o & -> & ->)]; [done|]. intros [->|(o' & ? & _)]; [|done]. right. by exists o.
Qed.
Lemma settled_steady x y : steady x → settled x y → y = x.
Proof. intros Hs [->|(o & -> & _)]; [done|]. by destruct (Hs o). Qed.
Lemma settled_gone x y : gone x → settled x y → gone y.
Proof. intros Hx [->|(o & -> & ->)]; [done|by left]. Qed.
Lemma settled_None y : settled None y → y = None.
Proof. intros [->|(o & ? & _)]; done. Qed.

(** What the server stores for an object it is given: a node port left open may
    be filled in. *)
Definition stored_body (b b' : kbody) : Prop :=
  match b, b' with
  | ServiceBody s, ServiceBody s' =>
      ssType s' = ssType s ∧ ssSelector s' = ssSelector s ∧ Forall2 (λ p p', p ≠ 0%Z → p' = p) (ssNodePorts s) (ssNodePorts s')
  | _, _ => b' = b
  end.
Definition stored_as (o o' : kobject) : Prop :=
  koNamespace o' = koNamespace o ∧ koName o' = koName o ∧ koLabels o' = koLabels o ∧ stored_body (koBody o) (koBody o').

Lemma stored_as_plain o o' : stored_as o o' → kind_of (koBody o) ≠ KService → o' = o.
Proof.
  destruct o as [ns n l b], o' as [ns' n' l' b']. intros (E1 & E2 & E3 & Eb) Hk. cbn in *. subst.
  by destruct b; [|done|]; cbn in Eb; subst.
Qed.

Lemma stored_as_refl o : stored_as o o.
Proof.
  split_and!; [done..|]. destruct (koBody o); [done| |done]. split_and!; [done..|]. by apply Forall_Forall2_diag, Forall_true.
Qed.

(** The API serves no other port numbers. *)
Definition ports_ok (o : kobject) : bool :=
  match koBody o with ServiceBody s => forallb (λ p, between 0 p 65535) (ssNodePorts s) | _ => true end.

(** ** The API *)

(** Every call may find that deletions have finished.  A call that fails may
    have taken effect. *)
Record kube_api {W} (kube : Kube W) (objects : W → gmap kkey (kobject * bool)) : Prop := {
  kb_namespace ns w k : settled (objects w !! k) (objects (CreateNamespace kube ns w).1 !! k);
  kb_list kd ns sel w k : settled (objects w !! k) (objects (KList kube kd ns sel w).1 !! k);
  kb_get kd ns n w : (∀ k, settled (objects w !! k) (objects (KGet kube kd ns n w).1 !! k)) ∧
    match (KGet kube kd ns n w).2 with
    | Ok (o, _) => ports_ok o = true ∧ ∃ d, objects (KGet kube kd ns n w).1 !! (kd, (ns, n)) = Some (o, d)
    | Err ErrNotFound => objects (KGet kube kd ns n w).1 !! (kd, (ns, n)) = None
    | Err _ => True
    end;
  kb_create o w : (∀ k, k ≠ key o → settled (objects w !! k) (objects (KCreate kube o w).1 !! k)) ∧
    let x := objects w !! key o in let y := objects (KCreate kube o w).1 !! key o in
    let created o' := gone x ∧ stored_as o o' ∧ y = Some (o', false) in
    match (KCreate kube o w).2 with
    | Ok o' => ports_ok o' = true ∧ created o'
    | Err ErrAlreadyExists => settled x y ∧ is_Some y
    | Err _ => settled x y ∨ ∃ o', created o'
    end;
  kb_update o w : (∀ k, k ≠ key o → settled (objects w !! k) (objects (KUpdate kube o w).1 !! k)) ∧
    let x := objects w !! key o in let y := objects (KUpdate kube o w).1 !! key o in
    let updated o' := ∃ o0 d, x = Some (o0, d) ∧ stored_as o o' ∧ y = Some (o', d) in
    match (KUpdate kube o w).2 with Ok o' => updated o' | Err _ => settled x y ∨ ∃ o', updated o' end;
  kb_delete kd ns n w : (∀ k, k ≠ (kd, (ns, n)) → settled (objects w !! k) (objects (KDelete kube kd ns n w).1 !! k)) ∧
    let x := objects w !! (kd, (ns, n)) in let y := objects (KDelete kube kd ns n w).1 !! (kd, (ns, n)) in
    (settled x y ∨ gone y) ∧
    match (KDelete kube kd ns n w).2 with Ok _ => gone y | Err ErrNotFound => y = None | Err _ => True end;
}.

Section kube.
Context {W : Type} (kube : Kube W) (objects : W → gmap kkey (kobject * bool)) (Hk : kube_api kube objects).
Context (quantity_ok : string → bool) (cfg : Config) (polls : nat) (cancelled : bool).

Notation provider := (kube_provider kube quantity_ok cfg polls cancelled).

(** ** What is touched *)

Definition only (K : list kkey) : relation W := λ w w', ∀ k, k ∉ K → settled (objects w !! k) (objects w' !! k).
#[local] Instance only_pre K : PreOrder (only K).
Proof. split; [by intros w k _|]. intros a b c H1 H2 k Hin. etrans; [by apply H1|by apply H2]. Qed.

Lemma only_namespace K ns : keeps (only K) (CreateNamespace kube ns).
Proof. intros w k _. apply (kb_namespace _ _ Hk). Qed.
Lemma only_list K kd ns sel : keeps (only K) (KList kube kd ns sel).
Proof. intros w k _. apply (kb_list _ _ Hk). Qed.
Lemma only_get K kd ns n : keeps (only K) (KGet kube kd ns n).
Proof. intros w k _. apply (kb_get _ _ Hk). Qed.
Lemma only_create K o : key o ∈ K → keeps (only K) (KCreate kube o).
Proof. intros Ho w k Hin. apply (kb_create _ _ Hk). by intros ->. Qed.
Lemma only_update K o : key o ∈ K → keeps (only K) (KUpdate kube o).
Proof. intros Ho w k Hin. apply (kb_update _ _ Hk). by intros ->. Qed.
Lemma only_delete K kd ns n : (kd, (ns, n)) ∈ K → keeps (only K) (KDelete kube kd ns n).
Proof. intros Ho w k Hin. apply (kb_delete _ _ Hk). by intros ->. Qed.
#[local] Hint Resolve only_namespace only_list only_get only_create only_update only_delete : keeps.

Lemma only_wrapped {A} K prefix (m : M W A) : keeps (only K) m → keeps (only K) (LocalDocker.wrapped prefix m).
Proof. intros Hm. unfold LocalDocker.wrapped. solve_keeps. Qed.
#[local] Hint Resolve only_wrapped : keeps.

Lemma only_ensure K ns : keeps (only K) (ensureNamespace kube ns).
Proof. unfold ensureNamespace. solve_keeps. Qed.
Lemma only_secret ns n id token : keeps (only [(KSecret, (ns, n))]) (applySecret kube ns n id token).
Proof.
  assert (key (secret_of ns n id token) ∈ [(KSecret, (ns, n))]) by apply list_elem_of_here. unfold applySecret. solve_keeps.
Qed.
Lemma only_pod ns n id spec : keeps (only [(KPod, (ns, n))]) (applyPod kube quantity_ok cfg ns n id spec).
Proof.
  assert (key (pod_of quantity_ok cfg ns n id spec) ∈ [(KPod, (ns, n))]) by apply list_elem_of_here. unfold applyPod. solve_keeps.
Qed.
Lemma only_free K : keeps (only K) (freeNodePort kube cfg).
Proof. unfold freeNodePort. solve_keeps. Qed.
Lemma only_service ns n id : keeps (only [(KService, (ns, n))]) (applyService kube cfg ns n id).
Proof.
  assert (∀ p, key (service_of cfg ns n id p) ∈ [(KService, (ns, n))]) by (intros; apply list_elem_of_here).
  pose proof only_free. unfold applyService, create_service. solve_keeps.
Qed.
Lemma only_await K n ns name : keeps (only K) (awaitPodAbsent kube cancelled n ns name).
Proof. induction n; simpl; solve_keeps. Qed.
Lemma only_deleted K what kd ns n : (kd, (ns, n)) ∈ K → keeps (only K) (deleted kube what kd ns n).
Proof. intros. unfold deleted. solve_keeps. Qed.

(** ** What is made *)

Lemma applySecret_Ok ns n id token w w' : applySecret kube ns n id token w = (w', Ok ()) →
  steady (objects w !! (KSecret, (ns, n))) →
  objects w' !! (KSecret, (ns, n)) = Some (secret_of ns n id token, false).
Proof.
  intros E Hs. revert E. unfold applySecret, mbind, M_bind, attempt, mret, M_ret, throw.
  set (o := secret_of ns n id token). assert (key o = (KSecret, (ns, n))) as Ek by reflexivity. rewrite <-Ek in *.
  destruct (kb_create _ _ Hk o w) as [_ Hc]. destruct (KCreate kube o w) as [w1 [o1|e]]; cbn in Hc.
  - destruct Hc as (_ & _ & Hst & Hy). apply stored_as_plain in Hst as ->; [|done]. by intros [= <-].
  - case_bool_decide as Ee; [subst e|cbn; done].
    cbn. destruct Hc as [Hset _]. apply settled_steady in Hset; [|done]. destruct (kb_update _ _ Hk o w1) as [_ Hu].
    destruct (KUpdate kube o w1) as [w2 [o2|e2]]; cbn in Hu; [|done]. destruct Hu as (o0 & d & Hx & Hst & Hy).
    apply stored_as_plain in Hst as ->; [|done]. intros [= <-]. rewrite Hy. rewrite Hset in Hx.
    destruct d; [by destruct (Hs o0)|done].
Qed.

(** A pod that was there is kept. *)
Lemma applyPod_Ok ns n id spec w w' : applyPod kube quantity_ok cfg ns n id spec w = (w', Ok ()) →
  steady (objects w !! (KPod, (ns, n))) →
  objects w' !! (KPod, (ns, n)) =
    match objects w !! (KPod, (ns, n)) with Some x => Some x | None => Some (pod_of quantity_ok cfg ns n id spec, false) end.
Proof.
  intros E Hs. revert E. unfold applyPod, mbind, M_bind, attempt, mret, M_ret, throw.
  set (o := pod_of quantity_ok cfg ns n id spec). assert (key o = (KPod, (ns, n))) as Ek by reflexivity. rewrite <-Ek in *.
  destruct (kb_create _ _ Hk o w) as [_ Hc]. destruct (KCreate kube o w) as [w1 [o1|e]]; cbn in Hc.
  - destruct Hc as (_ & [->|[o' Ho']] & Hst & Hy); [|by destruct (Hs o')].
    apply stored_as_plain in Hst as ->; [|done]. by intros [= <-].
  - case_bool_decide as Ee; [subst e|cbn; done].
    cbn. intros [= <-]. destruct Hc as [Hset [x Hx]]. apply settled_steady in Hset; [|done]. rewrite Hset in Hx |- *. by rewrite Hx.
Qed.

(** So is a service. *)
Lemma create_service_Ok ns n id port w w' o : create_service kube cfg ns n id port w = (w', Ok o) →
  objects w !! (KService, (ns, n)) = None →
  objects w' !! (KService, (ns, n)) = Some (o, false) ∧ stored_as (service_of cfg ns n id port) o.
Proof.
  set (k := (KService, (ns, n))). intros E Hn. revert E. unfold create_service, mbind, M_bind, attempt, mret, M_ret, throw.
  destruct (kb_create _ _ Hk (service_of cfg ns n id port) w) as [_ Hc]. change (key _) with k in Hc.
  destruct (KCreate kube (service_of cfg ns n id port) w) as [w3 [o3|e]]; cbn in Hc.
  - destruct Hc as (_ & _ & Hst & Hy). by intros [= <- <-].
  - case_bool_decide as Ee; [subst e|cbn; done]. destruct Hc as [Hse [x Hx]]. rewrite Hn in Hse. apply settled_None in Hse. congruence.
Qed.
Lemma applyService_Ok ns n id w w' o : applyService kube cfg ns n id w = (w', Ok o) →
  steady (objects w !! (KService, (ns, n))) →
  objects w' !! (KService, (ns, n)) = Some (o, false) ∧
  match objects w !! (KService, (ns, n)) with
  | Some x => x = (o, false)
  | None => ∃ port, stored_as (service_of cfg ns n id port) o
  end.
Proof.
  set (k := (KService, (ns, n))). intros E Hs. revert E. unfold applyService, mbind, M_bind, attempt, mret, M_ret, throw.
  destruct (kb_get _ _ Hk KService ns n w) as [Hset Hg]. specialize (Hset k). apply settled_steady in Hset; [|done].
  fold k in Hg. destruct (KGet kube KService ns n w) as [w1 [[o1 st]|e]]; cbn in Hg, Hset.
  { destruct Hg as (_ & d & Hd). intros [= <- <-]. rewrite Hset in *. destruct d; [by destruct (Hs o1)|]. by rewrite Hd. }
  case_bool_decide as Ee; [subst e|cbn; done]. cbn [negb]. rewrite <-Hset, Hg. destruct (_ && _).
  - pose proof (only_free [] w1 k (not_elem_of_nil _)) as Hf. rewrite Hg in Hf. apply settled_None in Hf.
    destruct (freeNodePort kube cfg w1) as [w2 [port|e]]; [|done]. intros [? ?]%create_service_Ok; [eauto|done].
  - intros [? ?]%create_service_Ok; eauto.
Qed.

(** ** Provisioning *)

Definition env_key (kd : kkind) (id : ResourceID) : kkey := (kd, (Namespace cfg, objectName id)).
Definition env_keys (id : ResourceID) : list kkey := [env_key KPod id; env_key KService id; env_key KSecret id].
Lemma env_key_in kd id : env_key kd id ∈ env_keys id.
Proof. unfold env_keys. destruct kd; set_solver. Qed.

Lemma only_mono {A} K K' (m : M W A) : K ⊆ K' → keeps (only K) m → keeps (only K') m.
Proof. intros HK Hm w k Hin. apply (Hm w). auto. Qed.
Lemma only_in {A} kd id (m : M W A) : keeps (only [env_key kd id]) m → keeps (only (env_keys id)) m.
Proof. apply only_mono. intros k. rewrite list_elem_of_singleton. intros ->. apply env_key_in. Qed.

Lemma only_Provision r token : keeps (only (env_keys (r_id r))) (Provision kube quantity_ok cfg r token).
Proof.
  unfold Provision. apply keeps_bind; [apply _|apply keeps_of_result; apply _|intros spec].
  apply keeps_bind; [apply _|apply only_ensure|intros _].
  apply keeps_bind; [apply _|eapply (only_in KSecret), only_secret|intros _].
  apply keeps_bind; [apply _|eapply (only_in KPod), only_pod|intros _].
  apply keeps_bind; [apply _|eapply (only_in KService), only_service|intros o]. apply keeps_of_result; apply _.
Qed.

(** The environment a successful call leaves. *)
Record provisioned (r : Resource) (token : string) (h : json) (w w' : W) (spec : DevEnvSpec) (svc : kobject) : Prop := {
  pv_spec : ParseDevEnvSpec (r_spec r) = Ok spec;
  pv_secret : objects w' !! env_key KSecret (r_id r) =
    Some (secret_of (Namespace cfg) (objectName (r_id r)) (r_id r) token, false);
  pv_pod : objects w' !! env_key KPod (r_id r) =
    match objects w !! env_key KPod (r_id r) with
    | Some x => Some x
    | None => Some (pod_of quantity_ok cfg (Namespace cfg) (objectName (r_id r)) (r_id r) spec, false)
    end;
  pv_service : objects w' !! env_key KService (r_id r) = Some (svc, false);
  pv_kept : match objects w !! env_key KService (r_id r) with
    | Some x => x = (svc, false)
    | None => ∃ port, stored_as (service_of cfg (Namespace cfg) (objectName (r_id r)) (r_id r) port) svc
    end;
  pv_handle : encodeHandle (MkKubeHandle (Namespace cfg) (objectName (r_id r)) (r_id r)
    (if bool_decide (kcEndpointMode cfg = EndpointModeNodePort) then default 0%Z (first_port svc) else 0%Z) "") = Ok h;
}.

Lemma Provision_Ok r token w w' h :
  Provision kube quantity_ok cfg r token w = (w', Ok h) → (∀ kd, steady (objects w !! env_key kd (r_id r))) →
  ∃ spec svc, provisioned r token h w w' spec svc.
Proof.
  intros E Hs. revert E. unfold Provision. destruct (ParseDevEnvSpec (r_spec r)) as [spec|e] eqn:Esp; [|done].
  unfold mbind, M_bind, of_result. pose proof (only_ensure [] (Namespace cfg) w) as H1.
  destruct (ensureNamespace kube (Namespace cfg) w) as [w1 [[]|]]; [|done]. cbn [fst] in H1.
  pose proof (only_secret (Namespace cfg) (objectName (r_id r)) (r_id r) token w1) as H2.
  destruct (applySecret _ _ _ _ _ w1) as [w2 [[]|]] eqn:E2; [|done]. cbn [fst] in H2.
  pose proof (only_pod (Namespace cfg) (objectName (r_id r)) (r_id r) spec w2) as H3.
  destruct (applyPod _ _ _ _ _ _ _ w2) as [w3 [[]|]] eqn:E3; [|done]. cbn [fst] in H3.
  pose proof (only_service (Namespace cfg) (objectName (r_id r)) (r_id r) w3) as H4.
  destruct (applyService _ _ _ _ _ w3) as [w4 [svc|]] eqn:E4; [|done]. cbn [fst] in H4. intros [= <- Eh].
  assert (∀ kd, objects w1 !! env_key kd (r_id r) = objects w !! env_key kd (r_id r)) as K1
    by (intros kd; apply settled_steady, H1; [done|apply not_elem_of_nil]).
  apply applySecret_Ok in E2; [|change (steady (objects w1 !! env_key KSecret (r_id r))); rewrite (K1 KSecret); apply Hs].
  assert (∀ kd, kd ≠ KSecret → objects w2 !! env_key kd (r_id r) = objects w !! env_key kd (r_id r)) as K2.
  { intros kd Hne. rewrite <-K1. apply settled_steady, H2; [rewrite K1; apply Hs|]. rewrite list_elem_of_singleton. by intros [= ->]. }
  apply applyPod_Ok in E3; change (KPod, (Namespace cfg, objectName (r_id r))) with (env_key KPod (r_id r)) in *;
    rewrite (K2 KPod) in * by done; [|apply Hs].
  assert (objects w3 !! env_key KService (r_id r) = objects w !! env_key KService (r_id r)) as K3.
  { rewrite <-(K2 KService) by done. apply settled_steady, H3; [rewrite K2 by done; apply Hs|]. by rewrite list_elem_of_singleton. }
  apply applyService_Ok in E4 as [Hsvc Hkept]; change (KService, (Namespace cfg, objectName (r_id r))) with (env_key KService (r_id r)) in *;
    rewrite K3 in *; [|apply Hs].
  assert (∀ kd x, kd ≠ KService → objects w3 !! env_key kd (r_id r) = x → steady x → objects w4 !! env_key kd (r_id r) = x) as K4.
  { intros kd x Hne <- Hst. apply settled_steady, H4; [done|]. rewrite list_elem_of_singleton. by intros [= ->]. }
  exists spec, svc. split; [done| | |done|done|by rewrite <-Eh].
  - apply K4; [done| |by intros o]. change (env_key KSecret (r_id r)) with (KSecret, (Namespace cfg, objectName (r_id r))).
    rewrite <-E2. apply settled_steady, H3; [rewrite E2; by intros o|by rewrite list_elem_of_singleton].
  - apply K4; [done|exact E3|]. specialize (Hs KPod). destruct (objects w !! env_key KPod (r_id r)); [done|by intros o].
Qed.

(** ** Restarting *)

Lemma awaitPodAbsent_Ok n ns name w w' : awaitPodAbsent kube cancelled n ns name w = (w', Ok ()) →
  objects w' !! (KPod, (ns, name)) = None.
Proof.
  revert w. induction n as [|n IH]; intros w; cbn [awaitPodAbsent]; [done|]. unfold mbind, M_bind, attempt.
  destruct (kb_get _ _ Hk KPod ns name w) as [_ Hg]. destruct (KGet kube KPod ns name w) as [w1 [o|e]]; cbn in Hg |- *.
  - destruct cancelled; [done|apply IH].
  - case_bool_decide as Ee; [subst e|done]. by intros [= <-].
Qed.

(** A successful restart leaves a pod that was made after the old one had gone,
    a secret with the rotated token, and the service there was, if there was one;
    it touches no other object. *)
Theorem kube_restart_replaces r port token w w' h :
  decodeHandle (r_handle r) = Ok (MkKubeHandle (Namespace cfg) (objectName (r_id r)) (r_id r) port "") →
  steady (objects w !! env_key KSecret (r_id r)) → steady (objects w !! env_key KService (r_id r)) →
  prRestart provider r token w = (w', Ok h) →
  ∃ spec svc, ParseDevEnvSpec (r_spec r) = Ok spec ∧
    objects w' !! env_key KPod (r_id r) = Some (pod_of quantity_ok cfg (Namespace cfg) (objectName (r_id r)) (r_id r) spec, false) ∧
    objects w' !! env_key KSecret (r_id r) = Some (secret_of (Namespace cfg) (objectName (r_id r)) (r_id r) token, false) ∧
    objects w' !! env_key KService (r_id r) = Some (svc, false) ∧
    (∀ x, objects w !! env_key KService (r_id r) = Some x → x = (svc, false)) ∧
    only (env_keys (r_id r)) w w'.
Proof.
  intros Hd Hsec Hsvc. cbn. unfold Restart. rewrite Hd. unfold mbind, M_bind, of_result. cbn [khNamespace khName].
  pose proof (only_deleted [env_key KPod (r_id r)] "pod for restart" KPod _ _ (list_elem_of_here _ _) w) as H1.
  destruct (deleted kube "pod for restart" KPod (Namespace cfg) (objectName (r_id r)) w) as [w1 [[]|]]; [|done]. cbn [fst] in H1.
  pose proof (only_await [env_key KPod (r_id r)] polls (Namespace cfg) (objectName (r_id r)) w1) as H2.
  destruct (awaitPodAbsent kube cancelled polls (Namespace cfg) (objectName (r_id r)) w1) as [w2 [[]|]] eqn:Ea; [|done]. cbn [fst] in H2.
  apply awaitPodAbsent_Ok in Ea. pose proof (transitivity H1 H2) as H12. clear H1 H2.
  assert (∀ kd, kd ≠ KPod → steady (objects w !! env_key kd (r_id r)) →
    objects w2 !! env_key kd (r_id r) = objects w !! env_key kd (r_id r)) as Hsame.
  { intros kd Hne Hst. apply settled_steady, H12; [done|]. rewrite list_elem_of_singleton. by intros [= ->]. }
  intros Hp. pose proof (only_Provision r token w2) as H3. rewrite Hp in H3. cbn [fst] in H3.
  apply Provision_Ok in Hp as (spec & svc & [Hsp Hs Hpod Hsv Hkept _]).
  - exists spec, svc. change (env_key KPod (r_id r)) with (KPod, (Namespace cfg, objectName (r_id r))) in Hpod.
    rewrite Ea in Hpod. rewrite (Hsame KService) in Hkept by done. split_and!; [done..| |].
    + intros x Hx. by rewrite Hx in Hkept.
    + etrans; [|exact H3]. intros k Hin. apply H12. intros ->%list_elem_of_singleton. apply Hin, env_key_in.
  - intros []; [|by rewrite (Hsame KService)|by rewrite (Hsame KSecret)].
    change (env_key KPod (r_id r)) with (KPod, (Namespace cfg, objectName (r_id r))). rewrite Ea. by intros o.
Qed.

(** ** Terminating *)

Lemma decodeHandle_kube ns n id port h : (0 ≤ port ≤ 65535)%Z →
  encodeHandle (MkKubeHandle ns n id port "") = Ok h → decodeHandle (Some h) = Ok (MkKubeHandle ns n id port "").
Proof.
  intros Hp Hh. eapply DecodeHandle_Encode; [exact Hh|]. unfold kube_data_json. cbn [khNamespace khName khResourceID khNodePort khEndpoint].
  case_bool_decide as E; [subst port; reflexivity|]. unfold decode_struct, fill_struct, opt_field. rewrite bool_decide_eq_true_2 by done. cbn [app].
  rewrite (fill_cons _ _ _ _ _ (MkKubeHandle ns "" "" 0 "")), (fill_cons _ _ _ _ _ (MkKubeHandle ns n "" 0 "")),
    (fill_cons _ _ _ _ _ (MkKubeHandle ns n id 0 "")), (fill_cons _ _ _ _ _ (MkKubeHandle ns n id port "")); try done.
  change (set_kube_data "node_port" (JNum port) (MkKubeHandle ns n id 0 "")) with
    (p ← set_int32 (JNum port) 0%Z; Some (MkKubeHandle ns n id p "")).
  unfold set_int32. by rewrite bool_decide_eq_true_2 by lia.
Qed.

Lemma get_ports kd ns n w w' o st : KGet kube kd ns n w = (w', Ok (o, st)) → ports_ok o = true.
Proof. intros E. destruct (kb_get _ _ Hk kd ns n w) as [_ Hg]. rewrite E in Hg. apply Hg. Qed.
Lemma applyService_ports ns n id w w' o : applyService kube cfg ns n id w = (w', Ok o) → ports_ok o = true.
Proof.
  unfold applyService, mbind, M_bind, attempt, mret, M_ret, throw.
  destruct (KGet kube KService ns n w) as [w1 [[o1 st]|e]] eqn:Eg; [intros [= <- <-]; by eapply get_ports|].
  case_match; [done|]. assert (∀ port w2, create_service kube cfg ns n id port w2 = (w', Ok o) → ports_ok o = true) as Hc.
  { intros port w2. unfold create_service, mbind, M_bind, attempt, mret, M_ret, throw.
    destruct (kb_create _ _ Hk (service_of cfg ns n id port) w2) as [_ Hc].
    destruct (KCreate kube (service_of cfg ns n id port) w2) as [w3 [o3|e3]]; cbn in Hc.
    - intros [= <- <-]. apply Hc.
    - destruct (bool_decide (e3 = ErrAlreadyExists)); [|cbn; done]. cbn.
      destruct (KGet kube KService ns n w3) as [w4 [[o4 st]|e4]] eqn:Eg4; [|done].
      intros [= <- <-]. by eapply get_ports. }
  destruct (_ && _); [|apply Hc]. destruct (freeNodePort kube cfg w1) as [w2 [port|]]; [apply Hc|done].
Qed.

Lemma Provision_handle r token w w' h : Provision kube quantity_ok cfg r token w = (w', Ok h) →
  ∃ port, decodeHandle (Some h) = Ok (MkKubeHandle (Namespace cfg) (objectName (r_id r)) (r_id r) port "").
Proof.
  unfold Provision. destruct (ParseDevEnvSpec (r_spec r)) as [spec|e]; [|done]. unfold mbind, M_bind, of_result.
  destruct (ensureNamespace _ _ w) as [w1 [[]|]]; [|done]. destruct (applySecret _ _ _ _ _ w1) as [w2 [[]|]]; [|done].
  destruct (applyPod _ _ _ _ _ _ _ w2) as [w3 [[]|]]; [|done]. destruct (applyService _ _ _ _ _ w3) as [w4 [svc|]] eqn:Es; [|done].
  apply applyService_ports in Es. intros [= _ Eh]. eexists. eapply decodeHandle_kube; [|by rewrite <-Eh].
  case_bool_decide; [|lia]. unfold first_port, ports_ok in *. destruct (koBody svc) as [|sp|]; simpl; try lia.
  destruct (ssNodePorts sp) as [|q l]; simpl in *; [lia|]. unfold between in Es. lia.
Qed.

Lemma deleted_Ok what kd ns n w w' : deleted kube what kd ns n w = (w', Ok ()) → gone (objects w' !! (kd, (ns, n))).
Proof.
  unfold deleted, mbind, M_bind, attempt. destruct (kb_delete _ _ Hk kd ns n w) as (_ & _ & Hd).
  destruct (KDelete kube kd ns n w) as [w1 [[]|e]]; cbn in Hd |- *; [by intros [= <-]|].
  case_bool_decide as Ee; [subst e|done]. intros [= <-]. by left.
Qed.

(** Terminating the handle a provision returned leaves none of the environment's
    objects but what is being deleted, and touches no other: also when the
    provision found parts of an earlier one. *)
Theorem kube_release r token w w1 w2 h :
  prProvision provider r token w = (w1, Ok h) → prTerminate provider (rWithHandle r h) w1 = (w2, Ok ()) →
  (∀ k, k ∈ env_keys (r_id r) → gone (objects w2 !! k)) ∧ only (env_keys (r_id r)) w w2.
Proof.
  intros Hp Ht. pose proof (only_Provision r token w) as Hw1. cbn in Hp. rewrite Hp in Hw1. cbn [fst] in Hw1.
  apply Provision_handle in Hp as [port Hd]. cbn in Ht. unfold Terminate in Ht.
  change (r_handle (rWithHandle r h)) with (Some h) in Ht. rewrite Hd in Ht. cbn [khNamespace khName] in Ht.
  unfold mbind, M_bind in Ht. set (ns := Namespace cfg) in *. set (n := objectName (r_id r)) in *.
  assert (∀ what kd, keeps (only [(kd, (ns, n))]) (deleted kube what kd ns n)) as Hdel by (intros; apply only_deleted, list_elem_of_here).
  pose proof (Hdel "pod" KPod w1) as Ha. destruct (deleted kube "pod" KPod ns n w1) as [wa [[]|]] eqn:Ea; [|done].
  pose proof (Hdel "service" KService wa) as Hb. destruct (deleted kube "service" KService ns n wa) as [wb [[]|]] eqn:Eb; [|done].
  pose proof (Hdel "secret" KSecret wb) as Hc. rewrite Ht in Hc. cbn [fst] in Ha, Hb, Hc.
  apply deleted_Ok in Ea, Eb, Ht. unfold env_keys, env_key. fold ns n. split.
  - intros k. rewrite !elem_of_cons, elem_of_nil. intros [->|[->|[->|[]]]]; [| |done].
    + eapply settled_gone, Hc; [|by rewrite list_elem_of_singleton]. eapply settled_gone, Hb; [done|by rewrite list_elem_of_singleton].
    + eapply settled_gone, Hc; [done|by rewrite list_elem_of_singleton].
  - intros k Hin. rewrite !not_elem_of_cons in Hin. destruct Hin as (H1 & H2 & H3 & _). etrans; [apply Hw1|].
    { unfold env_keys, env_key. fold ns n. rewrite !not_elem_of_cons. split_and!; [done..|apply not_elem_of_nil]. }
    etrans; [apply Ha; by rewrite list_elem_of_singleton|]. etrans; [apply Hb|apply Hc]; by rewrite list_elem_of_singleton.
Qed.

End kube.

(** ** Node ports *)

Lemma wrap32_id z : (-2147483648 ≤ z ≤ 2147483647)%Z → wrap32 z = z.
Proof. intros Hz. unfold wrap32. rewrite Z.mod_small by lia. lia. Qed.

(** Each port the scan passes is one of those taken. *)
Lemma taken_above low taken : low ∈ taken →
  (length (filter (λ q, low + 1 ≤ q)%Z taken) < length (filter (λ q, low ≤ q)%Z taken))%nat.
Proof.
  assert (∀ l : list Z, length (filter (λ q, low + 1 ≤ q)%Z l) ≤ length (filter (λ q, low ≤ q)%Z l))%nat as Hle.
  { induction l as [|x l IH]; [done|]. rewrite !filter_cons. repeat case_decide; simpl; lia. }
  induction taken as [|x l IH]; [by rewrite elem_of_nil|]. rewrite elem_of_cons, !filter_cons. specialize (Hle l).
  intros [<-|Hin]; [|specialize (IH Hin)]; repeat case_decide; simpl; lia.
Qed.
Lemma scan_ports_spec fuel taken low high :
  (-2147483648 ≤ low)%Z → (high < 2147483647)%Z → (length (filter (λ q, low ≤ q)%Z taken) < fuel)%nat →
  match scan_ports fuel taken low high with
  | Some p => (low ≤ p ≤ high)%Z ∧ p ∉ taken ∧ ∀ q, (low ≤ q < p)%Z → q ∈ taken
  | None => ∀ q, (low ≤ q ≤ high)%Z → q ∈ taken
  end.
Proof.
  intros Hl Hh. revert low Hl. induction fuel as [|fuel IH]; intros low Hl Hf; [lia|]. cbn [scan_ports].
  case_bool_decide; [intros q Hq; lia|]. case_bool_decide as Ht; [|split_and!; [lia|lia|done|intros q Hq; lia]].
  rewrite wrap32_id by lia. pose proof (taken_above low taken Ht) as Hlt. specialize (IH (low + 1)%Z ltac:(lia) ltac:(lia)).
  destruct (scan_ports fuel taken (low + 1) high) as [p|].
  - destruct IH as (? & ? & IH). split_and!; [lia|lia|done|]. intros q Hq. destruct (decide (q = low)) as [->|]; [done|apply IH; lia].
  - intros q Hq. destruct (decide (q = low)) as [->|]; [done|apply IH; lia].
Qed.

(** The scan ends; it gives the first port of the range no listed service uses,
    and fails only when every one is used. *)
Theorem node_port_first_free {W} (kube : Kube W) (cfg : Config) w w1 services :
  (-2147483648 ≤ kcPortLow cfg)%Z → (kcPortHigh cfg < 2147483647)%Z →
  KList kube KService "" "" w = (w1, Ok services) →
  (freeNodePort kube cfg w).1 = w1 ∧
  match (freeNodePort kube cfg w).2 with
  | Ok p => (kcPortLow cfg ≤ p ≤ kcPortHigh cfg)%Z ∧ p ∉ taken_ports services ∧
            ∀ q, (kcPortLow cfg ≤ q < p)%Z → q ∈ taken_ports services
  | Err _ => ∀ q, (kcPortLow cfg ≤ q ≤ kcPortHigh cfg)%Z → q ∈ taken_ports services
  end.
Proof.
  intros Hl Hh E. unfold freeNodePort, mbind, M_bind. rewrite wrapped_run, E.
  assert (length (filter (λ q, kcPortLow cfg ≤ q)%Z (taken_ports services)) < S (length (taken_ports services)))%nat as Hf
    by (pose proof (length_filter (λ q, kcPortLow cfg ≤ q)%Z (taken_ports services)); lia).
  pose proof (scan_ports_spec _ _ _ _ Hl Hh Hf) as Hs.
  destruct (scan_ports _ _ _ _) as [p|]; split; done.
Qed.

(** ** A cluster *)

Module KubeDemo.

Notation World := (gmap kkey (kobject * bool)).

(** Deletions finish at the next lookup of a pod. *)
Definition create (o : kobject) : M World kobject :=
  w ← get;
  if match w !! key o with Some _ => true | None => false end then throw ErrAlreadyExists
  else if negb (ports_ok o) then throw (ErrorText "invalid port")
  else _ ← put (<[key o := (o, false)]> w); mret o.
Definition update (o : kobject) : M World kobject :=
  w ← get; match w !! key o with None => throw ErrNotFound | Some (_, d) => _ ← put (<[key o := (o, d)]> w); mret o end.
Definition lookup_object (kd : kkind) (ns n : string) : M World (kobject * pod_status) :=
  w ← get;
  match w !! (kd, (ns, n)) with
  | Some (o, true) => _ ← put (delete (kd, (ns, n)) w); throw ErrNotFound
  | Some (o, false) => if negb (ports_ok o) then throw (ErrorText "invalid port")
                       else mret (o, MkPodStatus "Running" [("Ready", "True")] [])
  | None => throw ErrNotFound
  end.
Definition mark (kd : kkind) (ns n : string) : M World unit :=
  w ← get;
  match w !! (kd, (ns, n)) with Some (o, _) => put (<[(kd, (ns, n)) := (o, true)]> w) | None => throw ErrNotFound end.

Definition kube : Kube World := {|
  CreateNamespace := λ _, mret ();
  KCreate := create;
  KUpdate := update;
  KGet := lookup_object;
  KDelete := mark;
  KList := λ kd _ _, w ← get; mret (bool_filter (λ o, bool_decide (kind_of (koBody o) = kd)) (map_to_list w).*2.*1);
  ServerVersion := mret ();
  AccessReview := λ _ _, mret (true, "");
|}.

Lemma cluster_meets : kube_api kube id.
Proof.
  split; try done; cbn.
  - intros kd ns n w. unfold lookup_object, mbind, M_bind, get, put, throw, id. cbn.
    destruct (w !! (kd, (ns, n))) as [[o []]|] eqn:E; cbn.
    + split; [|by rewrite lookup_delete_eq]. intros k. rewrite lookup_delete. case_decide; [|done].
      subst k. right. by exists o.
    + destruct (ports_ok o) eqn:Ep; cbn; split; [done|eauto|done|done].
    + done.
  - intros o w. unfold create, mbind, M_bind, get, put, throw, id. cbn.
    destruct (w !! key o) as [x|] eqn:Ex; cbn; [split; [intros; reflexivity|]; rewrite ?Ex; split; [reflexivity|by exists x]|].
    destruct (ports_ok o) eqn:Ep; cbn; [|split; [done|left; left; congruence]]. split; [intros k Hne; by rewrite lookup_insert_ne|].
    split_and!; [done|by left|apply stored_as_refl|by rewrite lookup_insert_eq].
  - intros o w. unfold update, mbind, M_bind, get, put, throw, id. cbn. destruct (w !! key o) as [[o0 d]|] eqn:E; cbn; [|split; [done|left; left; congruence]].
    split; [intros k Hne; by rewrite lookup_insert_ne|]. exists o0, d. split_and!; [done|apply stored_as_refl|by rewrite lookup_insert_eq].
  - intros kd ns n w. unfold mark, mbind, M_bind, get, put, throw, id. cbn. destruct (w !! (kd, (ns, n))) as [[o d]|] eqn:E; cbn.
    + split; [intros k Hne; by rewrite lookup_insert_ne|]. rewrite lookup_insert_eq. split; [right|]; right; by exists o.
    + split; [done|]. split; [left; left; congruence|congruence].
Qed.

Definition cfg : Config := NewWithClient (MkConfig "" "" "" "" "" "" EndpointModeNodePort "" 30000 30002).
Definition box (id : ResourceID) (h : option json) : Resource :=
  MkResource id "acme" "s1" ResourceKindDevEnv "p1" ResourceReady (Some (spec_json (MkDevEnvSpec "box" "" "" ∅ ∅))) h "" "" "" 1 "" None
    0 0 None None.
Definition provider : ResourceProvider World := kube_provider kube (λ _, true) cfg 10 false.
Definition first : World * result json := prProvision provider (box "e1" None) "t1" ∅.
Definition handle : json := default JNull match first.2 with Ok h => Some h | Err _ => None end.
Definition services : list kobject := bool_filter (λ o, bool_decide (kind_of (koBody o) = KService)) (map_to_list first.1).*2.*1.

End KubeDemo.

Lemma demo_provisioned : prProvision KubeDemo.provider (KubeDemo.box "e1" None) "t1" ∅ = (KubeDemo.first.1, Ok KubeDemo.handle).
Proof.
  transitivity KubeDemo.first; [reflexivity|]. rewrite (surjective_pairing KubeDemo.first). cbn [fst snd]. f_equal.
Qed.
Lemma kube_restart_replaces_witness :
  ∃ w' h svc, prRestart KubeDemo.provider (KubeDemo.box "e1" (Some KubeDemo.handle)) "t2" KubeDemo.first.1 = (w', Ok h) ∧
    w' !! env_key KubeDemo.cfg KSecret "e1" = Some (secret_of "ultracore-envs" "ultra-env-e1" "e1" "t2", false) ∧
    w' !! env_key KubeDemo.cfg KService "e1" = Some (svc, false) ∧ first_port svc = Some 30000%Z.
Proof.
  destruct (prRestart KubeDemo.provider (KubeDemo.box "e1" (Some KubeDemo.handle)) "t2" KubeDemo.first.1) as [w' res] eqn:E.
  assert (res = Ok KubeDemo.handle) as -> by (transitivity (w', res).2; [done|rewrite <-E; vm_compute; reflexivity]).
  destruct (kube_restart_replaces KubeDemo.kube id KubeDemo.cluster_meets (λ _, true) KubeDemo.cfg 10 false
    (KubeDemo.box "e1" (Some KubeDemo.handle)) 30000 "t2" KubeDemo.first.1 w' KubeDemo.handle)
    as (spec & svc & _ & _ & Hsec & Hsvc & Hkept & _).
  - vm_compute. reflexivity.
  - intros o. vm_compute. discriminate.
  - intros o. vm_compute. discriminate.
  - exact E.
  - exists w', KubeDemo.handle, svc. split_and!; [done|exact Hsec|exact Hsvc|].
    destruct (id KubeDemo.first.1 !! env_key KubeDemo.cfg KService "e1") as [[o d]|] eqn:Eo; [|vm_compute in Eo; discriminate].
    specialize (Hkept _ Eo). injection Hkept as -> ->. vm_compute in Eo. injection Eo as <-. reflexivity.
Defined.

Lemma kube_release_witness :
  ∃ w2, prTerminate KubeDemo.provider (rWithHandle (KubeDemo.box "e1" None) KubeDemo.handle) KubeDemo.first.1 = (w2, Ok ()) ∧
    size KubeDemo.first.1 = 3 ∧ ∀ k, k ∈ env_keys KubeDemo.cfg "e1" → gone (w2 !! k).
Proof.
  destruct (prTerminate KubeDemo.provider (rWithHandle (KubeDemo.box "e1" None) KubeDemo.handle) KubeDemo.first.1) as [w2 res] eqn:E.
  assert (res = Ok ()) as -> by (transitivity (w2, res).2; [done|rewrite <-E; vm_compute; reflexivity]).
  exists w2. split; [done|]. split; [vm_compute; reflexivity|].
  apply (kube_release KubeDemo.kube id KubeDemo.cluster_meets (λ _, true) KubeDemo.cfg 10 false
    (KubeDemo.box "e1" None) "t1" ∅ KubeDemo.first.1 w2 KubeDemo.handle demo_provisioned E).
Defined.

Lemma node_port_first_free_witness :
  (freeNodePort KubeDemo.kube KubeDemo.cfg KubeDemo.first.1).2 = Ok 30001%Z ∧ 30000%Z ∈ taken_ports KubeDemo.services.
Proof.
  split; [vm_compute; reflexivity|].
  pose proof (node_port_first_free KubeDemo.kube KubeDemo.cfg KubeDemo.first.1 KubeDemo.first.1 KubeDemo.services
    ltac:(vm_compute; discriminate) ltac:(vm_compute; reflexivity) eq_refl) as [_ Hp].
  assert ((freeNodePort KubeDemo.kube KubeDemo.cfg KubeDemo.first.1).2 = Ok 30001%Z) as E by (vm_compute; reflexivity).
  rewrite E in Hp. destruct Hp as (_ & _ & Hq). apply Hq. split; [vm_compute; discriminate|vm_compute; reflexivity].
Defined.

(** ** Where code and comments part *)

(** A cluster that refuses pods. *)
Definition full_cluster : Kube KubeDemo.World :=
  MkKube _ (CreateNamespace KubeDemo.kube)
    (λ o, if bool_decide (kind_of (koBody o) = KPod) then throw (ErrorText "quota exceeded") else KubeDemo.create o)
    (KUpdate KubeDemo.kube) (KGet KubeDemo.kube) (KDelete KubeDemo.kube) (KList KubeDemo.kube) (ServerVersion KubeDemo.kube)
    (AccessReview KubeDemo.kube).

(** A provision that fails at the pod returns no handle and has created the
    secret; terminating without a handle does nothing, so it stays. *)
Example failed_provision_leaks_secret :
  let p := kube_provider full_cluster (λ _, true) KubeDemo.cfg 10 false in
  let '(w1, res) := prProvision p (KubeDemo.box "e1" None) "t1" ∅ in
  let '(w2, released) := prTerminate p (KubeDemo.box "e1" None) w1 in
  res = Err (ErrorText "k8s: create pod: quota exceeded") ∧ released = Ok () ∧
  w2 !! env_key KubeDemo.cfg KSecret "e1" = Some (secret_of "ultracore-envs" "ultra-env-e1" "e1" "t1", false).
Proof. vm_compute. split_and!; reflexivity. Qed.

(** The listing reports the label, which is not the id when the id has capitals
    or is long. *)
Example label_is_not_id : label "Env_A.1" = "env-a-1".
Proof. vm_compute. reflexivity. Qed.
