(* ===== verification/StaticProvider.v ===== *)
(** * The static provider ([provider/static/static.go], [provider/static/resource_api.go])

    One environment is one sandboxed process and one directory of the host.  The
    host is a parameter: the record [Host] of the system calls the adapter makes,
    on a world of its own; [ErrNotFound] is what [os.IsNotExist] recognises.  How
    often [awaitReady] looks before its deadline is an argument.  The environment
    the worker itself runs in ([os.Environ]) is an argument. *)
From S2P Require Import Prelude Policy Domain Text Store StoreRuns EventLog Loop Waits Batcher Tools Api.
From S2P Require Import ResourceStore OperatorTx ResourceWork Strings GoJson AdminQuery Handles LocalDocker.

(** ** Paths ([filepath.Join] and [Clean] on Unix) *)

(** The elements between slashes. *)
Fixpoint elements (cur : list Z) (l : list Z) : list (list Z) :=
  match l with
  | [] => [cur]
  | b :: rest => if (b =? 47)%Z then cur :: elements [] rest else elements (cur ++ [b]) rest
  end.

(** [out] is what was kept so far, the last element first. *)
Definition clean_step (rooted : bool) (out : list (list Z)) (e : list Z) : list (list Z) :=
  if bool_decide (e = []) || bool_decide (e = [46%Z]) then out
  else if bool_decide (e = [46; 46]%Z) then
    match out with
    | top :: rest => if bool_decide (top = [46; 46]%Z) then e :: out else rest
    | [] => if rooted then [] else [e]
    end
  else e :: out.
Fixpoint with_slashes (l : list (list Z)) : list Z :=
  match l with [] => [] | [e] => e | e :: rest => e ++ 47%Z :: with_slashes rest end.
Definition Clean (path : string) : string :=
  let l := bytes_of path in
  let rooted := bool_decide (head l = Some 47%Z) in
  let out := with_slashes (reverse (foldl (clean_step rooted) [] (elements [] l))) in
  if rooted then of_bytes (47%Z :: out) else if bool_decide (out = []) then "." else of_bytes out.
Definition Join (a b : string) : string :=
  if bool_decide (a = "") then (if bool_decide (b = "") then "" else Clean b)
  else if bool_decide (b = "") then Clean a else Clean (a +:+ "/" +:+ b).

(** ** The host *)

(** The command of a sandbox: its script, its environment and its log. *)
Record sandbox := MkSandbox { sbScript : string; sbEnv : list string; sbLog : string }.

Record Host (W : Type) := MkHost {
  Stat : string → M W unit;
  MkdirAll : string → M W unit;
  ReservePort : M W Z;
  CreateFile : string → M W unit;
  StartSandbox : sandbox → M W Z;
  (** [syscall.Kill(pid, 0) == nil] *)
  Alive : Z → M W bool;
  (** [SIGKILL]; a negative number is a process group. *)
  KillProcess : Z → M W unit;
  DialPort : Z → M W unit;
  ReadFile : string → M W string;
  RemoveAll : string → M W unit;
  (** The entries of a directory, with whether each is one. *)
  ReadDir : string → M W (list (string * bool));
  Unshare : M W unit;
}.
Arguments Stat {W}. Arguments MkdirAll {W}. Arguments ReservePort {W}. Arguments CreateFile {W}. Arguments StartSandbox {W}.
Arguments Alive {W}. Arguments KillProcess {W}. Arguments DialPort {W}. Arguments ReadFile {W}. Arguments RemoveAll {W}.
Arguments ReadDir {W}. Arguments Unshare {W}.

(** ** Configuration and handles *)

Record Config := MkConfig { stBinary : string; stRoot : string }.

Record static_handle := MkStaticHandle { shResourceID : string; shPID : Z; shPort : Z }.
Definition static_data_json (d : static_handle) : json :=
  JObj [("resource_id", JStr (shResourceID d)); ("pid", JNum (shPID d)); ("port", JNum (shPort d))].
Definition set_static_data (k : string) (v : json) (d : static_handle) : option static_handle :=
  let '(MkStaticHandle r pid port) := d in
  if key_matches "resource_id" k then r ← set_string v r; Some (MkStaticHandle r pid port)
  else if key_matches "pid" k then pid ← set_int v pid; Some (MkStaticHandle r pid port)
  else if key_matches "port" k then port ← set_int v port; Some (MkStaticHandle r pid port)
  else Some d.
Definition encode_static (d : static_handle) : result json := EncodeHandle 1 (static_data_json d).
Definition decode_static (h : option json) : result static_handle := DecodeHandle set_static_data (MkStaticHandle "" 0 0) h.

(** ** The sandbox *)

Definition quoted (s : string) : string := let q := String (Ascii.ascii_of_nat 34) "" in q +:+ s +:+ q.
Definition line (s : string) : string := s +:+ newline.

Definition sandboxScript (binary dir workspace workdir : string) (port : Z) : string :=
  let r := Join dir "root" in
  line "set -e" +:+
  line ("mkdir -p " +:+ r +:+ " && mount -t tmpfs -o size=64m tmpfs " +:+ r) +:+
  line ("mkdir -p " +:+ r +:+ "/usr " +:+ r +:+ "/proc " +:+ r +:+ "/dev " +:+ r +:+ "/tmp " +:+ r +:+ "/etc " +:+ r +:+ "/opt " +:+
        r +:+ workdir) +:+
  line ("mount --bind /usr " +:+ r +:+ "/usr && mount -t proc proc " +:+ r +:+ "/proc") +:+
  line ("touch " +:+ r +:+ "/dev/null " +:+ r +:+ "/dev/zero " +:+ r +:+ "/dev/urandom") +:+
  line ("mount --bind /dev/null " +:+ r +:+ "/dev/null && mount --bind /dev/zero " +:+ r +:+
        "/dev/zero && mount --bind /dev/urandom " +:+ r +:+ "/dev/urandom") +:+
  line ("mount --bind " +:+ workspace +:+ " " +:+ r +:+ workdir +:+ " && cp " +:+ binary +:+ " " +:+ r +:+ "/opt/bezalel") +:+
  line ("ln -s usr/bin " +:+ r +:+ "/bin && ln -s usr/lib " +:+ r +:+ "/lib && ln -s usr/lib64 " +:+ r +:+ "/lib64 2>/dev/null || true") +:+
  line ("ln -s usr/sbin " +:+ r +:+ "/sbin 2>/dev/null || true") +:+
  line "# chroot lives in /usr/sbin on Ubuntu runners; PATH after env -i would miss it." +:+
  line ("exec env -i PATH=/usr/bin:/bin:/usr/sbin HOME=" +:+ workdir +:+ " BEZALEL_AUTH_TOKEN=" +:+ quoted "$BEZALEL_AUTH_TOKEN" +:+ " \") +:+
  line ("  /usr/sbin/chroot " +:+ r +:+ " /opt/bezalel --workdir " +:+ workdir +:+ " --port " +:+ pretty port +:+ " --host 127.0.0.1").

(** ** The adapter *)

Section adapter.
Context {W : Type} (host : Host W) (environ : list string) (cfg : Config) (polls : nat).

Notation wrapped := LocalDocker.wrapped.

Definition dir (id : ResourceID) : string := Join (stRoot cfg) id.

(** The last 512 bytes of the trimmed log. *)
Definition tailLog (path : string) : M W string :=
  body ← attempt (ReadFile host path);
  mret match body with
       | Err _ => "(no sandbox log)"
       | Ok body =>
           if bool_decide (body = "") then "(no sandbox log)"
           else let s := bytes_of (TrimSpace body) in of_bytes (drop (length s - 512) s)
       end.

Fixpoint awaitReady (n : nat) (port : Z) (logPath : string) (pid : Z) : M W unit :=
  match n with
  | O => tail ← tailLog logPath; throw (ErrorText ("static: sandbox never ready: " +:+ tail))
  | S n' =>
      alive ← Alive host pid;
      if negb alive then tail ← tailLog logPath; throw (ErrorText ("static: sandbox exited: " +:+ tail))
      else
        c ← attempt (DialPort host port);
        match c with Ok _ => mret () | Err _ => awaitReady n' port logPath pid end
  end.

Definition stop (h : option json) : M W unit :=
  match decode_static h with
  | Err _ => mret ()
  | Ok d => _ ← ignore (KillProcess host (- shPID d)%Z); ignore (KillProcess host (shPID d))
  end.

(** The sandbox of a resource: the worker's environment, the token and the spec's
    variables, in that order. *)
Definition sandbox_of (r : Resource) (spec : DevEnvSpec) (token : string) (port : Z) : sandbox :=
  let workdir := if bool_decide (dsWorkdir spec = "") then "/work" else dsWorkdir spec in
  MkSandbox (sandboxScript (stBinary cfg) (dir (r_id r)) (Join (dir (r_id r)) "workspace") workdir port)
    (environ ++ ("BEZALEL_AUTH_TOKEN=" +:+ token) :: ((λ kv, kv.1 +:+ "=" +:+ kv.2) <$> map_to_list (dsEnv spec)))
    (Join (dir (r_id r)) "sandbox.log").

Definition Provision (r : Resource) (token : string) : M W json :=
  spec ← of_result (ParseDevEnvSpec (r_spec r));
  _ ← wrapped "static: create workspace" (MkdirAll host (Join (dir (r_id r)) "workspace"));
  port ← wrapped "static: reserve port" (ReservePort host);
  let sb := sandbox_of r spec token port in
  _ ← wrapped "static: create sandbox log" (CreateFile host (sbLog sb));
  pid ← wrapped "static: start sandbox" (StartSandbox host sb);
  match encode_static (MkStaticHandle (r_id r) pid port) with
  | Err e => throw e
  | Ok h =>
      ready ← attempt (awaitReady polls port (sbLog sb) pid);
      match ready with
      | Err e => _ ← stop (Some h); throw e
      | Ok _ => mret h
      end
  end.

Definition Status (r : Resource) : M W (ResourceState * string) :=
  d ← of_result (decode_static (r_handle r));
  alive ← Alive host (shPID d);
  if negb alive then tail ← tailLog (Join (dir (shResourceID d)) "sandbox.log"); mret (ResourceFailed, "gone: " +:+ tail)
  else mret (ResourceReady, "").

Definition HealthCheck (r : Resource) : M W unit :=
  st ← Status r; if negb (bool_decide (st.1 = ResourceReady)) then throw (not_ready "static" st) else mret ().

Definition Endpoint (r : Resource) : M W string :=
  d ← of_result (decode_static (r_handle r)); mret ("http://127.0.0.1:" +:+ pretty (shPort d) +:+ "/mcp").

Definition Restart (r : Resource) (token : string) : M W json := _ ← stop (r_handle r); Provision r token.

Definition Terminate (r : Resource) : M W unit :=
  match decode_static (r_handle r) with
  | Err _ => mret ()
  | Ok d =>
      _ ← stop (r_handle r);
      res ← attempt (RemoveAll host (dir (shResourceID d)));
      match res with
      | Err e => if bool_decide (e = ErrNotFound) then mret () else throw (ErrorText ("static: remove environment state: " +:+ err_text e))
      | Ok _ => mret ()
      end
  end.

Definition ListOwned : M W (list (ResourceID * list string)) :=
  entries ← attempt (ReadDir host (stRoot cfg));
  match entries with
  | Err e => if bool_decide (e = ErrNotFound) then mret [] else throw e
  | Ok l => mret ((λ e, (e.1, ["sandbox/" +:+ e.1])) <$> bool_filter snd l)
  end.

Definition Resources (id : ResourceID) : M W (list string) :=
  res ← attempt (Stat host (dir id)); mret match res with Err _ => [] | Ok _ => ["sandbox/" +:+ id] end.

Definition Probe : M W ProviderCapabilities :=
  _ ← wrapped "static: this host has no unprivileged user namespaces" (Unshare host);
  mret (MkCapabilities "static" ["enumerates_resources"; "restart_preserves_state"; "serves_tool_endpoint"] ∅).

Definition static_provider : ResourceProvider W := {|
  prKind := ResourceKindDevEnv;
  prValidateSpec := validate_spec "static";
  prProvision := Provision;
  prStatus := Status;
  prEndpoint := Endpoint;
  prRestart := Restart;
  prTerminate := Terminate;
  prAdopt := None;
|}.

End adapter.

(** [New]: [exists_] is whether the binary can be found, [temp] the directory
    for temporary files. *)
Definition New (exists_ : string → bool) (temp : string) (cfg : Config) : result Config :=
  if bool_decide (stBinary cfg = "") then Err (ErrorText "static: a Bezalel binary path is required")
  else if negb (exists_ (stBinary cfg)) then Err (ErrorText "static: bezalel binary")
  else Ok (MkConfig (stBinary cfg) (if bool_decide (stRoot cfg = "") then Join temp "ultra-static" else stRoot cfg)).
