(* ===== verification/StaticSpec.v ===== *)
(** * What the static provider promises

    Given what the operating system documents: a provision that fails leaves no
    process behind, one that succeeds leaves one more, a restart replaces it, and
    terminating its handle leaves neither the process nor the directory. *)
From S2P Require Import Prelude Policy Domain Text Store StoreRuns EventLog Loop Waits Batcher Tools Step Api.
From S2P Require Import ResourceStore OperatorTx ResourceWork Frames Invariants RunStates System Scenario ResourceSpec Strings GoJson AdminQuery Paging Handles NullProvider LocalDocker AdapterSpec StaticProvider.

(** Processes may end by themselves at any call.  A sandbox leads its own process
    group; [SIGKILL] cannot be refused. *)
Record host_api {W} (host : Host W) (procs : W → gset Z) (dirs : W → gset string) : Prop := {
  ho_stat p w : procs (Stat host p w).1 ⊆ procs w;
  ho_mkdir p w : procs (MkdirAll host p w).1 ⊆ procs w;
  ho_reserve w : procs (ReservePort host w).1 ⊆ procs w ∧
    match (ReservePort host w).2 with Ok port => (0 ≤ port ≤ 65535)%Z | Err _ => True end;
  ho_create p w : procs (CreateFile host p w).1 ⊆ procs w;
  ho_start sb w : match StartSandbox host sb w with
    | (w', Ok pid) => (0 < pid ≤ 2147483647)%Z ∧ pid ∉ procs w ∧ procs w' ⊆ {[pid]} ∪ procs w
    | (w', Err _) => procs w' ⊆ procs w
    end;
  ho_alive p w : procs (Alive host p w).1 ⊆ procs w ∧
    match (Alive host p w).2 with Ok b => b = true → p ∈ procs (Alive host p w).1 | Err _ => True end;
  ho_kill p w : procs (KillProcess host p w).1 ⊆ procs w ∖ {[Z.abs p]};
  ho_dial p w : procs (DialPort host p w).1 ⊆ procs w;
  ho_read p w : procs (ReadFile host p w).1 ⊆ procs w;
  ho_remove p w : procs (RemoveAll host p w).1 ⊆ procs w ∧
    match (RemoveAll host p w).2 with Ok _ | Err ErrNotFound => p ∉ dirs (RemoveAll host p w).1 | Err _ => True end;
}.

Section static.
Context {W : Type} (host : Host W) (procs : W → gset Z) (dirs : W → gset string) (Hh : host_api host procs dirs).
Context (environ : list string) (cfg : Config) (polls : nat).

Notation provider := (static_provider host environ cfg polls).

Definition fewer : relation W := λ w w', procs w' ⊆ procs w.
#[local] Instance fewer_pre : PreOrder fewer.
Proof. split; [by intros w x|]. intros a b c H1 H2. unfold fewer in *. set_solver. Qed.

Lemma fewer_stat p : keeps fewer (Stat host p).
Proof. intros w. apply (ho_stat _ _ _ Hh). Qed.
Lemma fewer_mkdir p : keeps fewer (MkdirAll host p).
Proof. intros w. apply (ho_mkdir _ _ _ Hh). Qed.
Lemma fewer_reserve : keeps fewer (ReservePort host).
Proof. intros w. apply (ho_reserve _ _ _ Hh). Qed.
Lemma fewer_create p : keeps fewer (CreateFile host p).
Proof. intros w. apply (ho_create _ _ _ Hh). Qed.
Lemma fewer_alive p : keeps fewer (Alive host p).
Proof. intros w. apply (ho_alive _ _ _ Hh). Qed.
Lemma fewer_kill p : keeps fewer (KillProcess host p).
Proof. intros w. pose proof (ho_kill _ _ _ Hh p w). unfold fewer. set_solver. Qed.
Lemma fewer_dial p : keeps fewer (DialPort host p).
Proof. intros w. apply (ho_dial _ _ _ Hh). Qed.
Lemma fewer_read p : keeps fewer (ReadFile host p).
Proof. intros w. apply (ho_read _ _ _ Hh). Qed.
Lemma fewer_remove p : keeps fewer (RemoveAll host p).
Proof. intros w. apply (ho_remove _ _ _ Hh). Qed.
#[local] Hint Resolve fewer_stat fewer_mkdir fewer_reserve fewer_create fewer_alive fewer_kill fewer_dial fewer_read fewer_remove : keeps.

Lemma fewer_wrapped {A} prefix (m : M W A) : keeps fewer m → keeps fewer (LocalDocker.wrapped prefix m).
Proof. intros Hm. unfold LocalDocker.wrapped. solve_keeps. Qed.
Lemma fewer_tail p : keeps fewer (tailLog host p).
Proof. unfold tailLog. solve_keeps. Qed.
#[local] Hint Resolve fewer_wrapped fewer_tail : keeps.
Lemma fewer_await n port log pid : keeps fewer (awaitReady host n port log pid).
Proof. induction n; simpl; solve_keeps. Qed.
Lemma fewer_stop h : keeps fewer (stop host h).
Proof. unfold stop. solve_keeps. Qed.

(** ** Handles *)

Lemma decode_encode_static d h : (0 < shPID d ≤ 2147483647)%Z → (0 ≤ shPort d ≤ 65535)%Z →
  encode_static d = Ok h → decode_static (Some h) = Ok d.
Proof.
  intros Hpid Hport Hd. eapply DecodeHandle_Encode; [exact Hd|]. destruct d as [r pid port]. cbn in Hpid, Hport.
  assert (∀ z, (0 ≤ z ≤ 2147483647)%Z → (int64_min ≤ z ≤ int64_max)%Z) as Hin by (unfold int64_min, int64_max; lia).
  unfold decode_struct, fill_struct, static_data_json. cbn [shResourceID shPID shPort].
  rewrite (fill_cons _ _ _ _ _ (MkStaticHandle r 0 0)) by done.
  rewrite (fill_cons _ _ _ _ _ (MkStaticHandle r pid 0)), (fill_cons _ _ _ _ _ (MkStaticHandle r pid port)); [done|..].
  - change (set_static_data "port" (JNum port) (MkStaticHandle r pid 0)) with (p ← set_int (JNum port) 0%Z; Some (MkStaticHandle r pid p)).
    unfold set_int. rewrite bool_decide_eq_true_2 by (apply Hin; lia). done.
  - change (set_static_data "pid" (JNum pid) (MkStaticHandle r 0 0)) with (p ← set_int (JNum pid) 0%Z; Some (MkStaticHandle r p 0)).
    unfold set_int. rewrite bool_decide_eq_true_2 by (apply Hin; lia). done.
Qed.

(** A stopped process is gone. *)
Lemma stop_gone h d w : decode_static h = Ok d → shPID d ∉ procs (stop host h w).1 ∨ (shPID d < 0)%Z.
Proof.
  intros Hd. unfold stop. rewrite Hd. unfold ignore, mbind, M_bind. cbn.
  pose proof (ho_kill _ _ _ Hh (shPID d) (KillProcess host (- shPID d)%Z w).1) as Hk.
  destruct (decide (shPID d < 0)%Z); [by right|left]. rewrite Z.abs_eq in Hk by lia. set_solver.
Qed.

(** ** Provisioning *)

Lemma Provision_result r token w :
  let '(w', res) := Provision host environ cfg polls r token w in
  match res with
  | Err _ => procs w' ⊆ procs w
  | Ok h => ∃ pid port, decode_static (Some h) = Ok (MkStaticHandle (r_id r) pid port) ∧ (0 < pid)%Z ∧ procs w' ⊆ {[pid]} ∪ procs w
  end.
Proof.
  unfold Provision. destruct (ParseDevEnvSpec (r_spec r)) as [spec|e]; [|cbn; set_solver].
  unfold mbind, M_bind, of_result. rewrite wrapped_run.
  pose proof (fewer_mkdir (Join (dir cfg (r_id r)) "workspace") w) as H1. destruct (MkdirAll host _ w) as [w1 [[]|]]; cbn in H1; [|exact H1].
  rewrite wrapped_run. destruct (ho_reserve _ _ _ Hh w1) as [H2 Hport]. destruct (ReservePort host w1) as [w2 [port|]]; cbn [fst snd] in H2, Hport |- *;
    [|unfold fewer in H1; set_solver].
  rewrite wrapped_run. set (sb := sandbox_of environ cfg r spec token port). pose proof (fewer_create (sbLog sb) w2) as H3.
  destruct (CreateFile host (sbLog sb) w2) as [w3 [[]|]]; unfold fewer in *; cbn [fst snd] in H3 |- *; [|set_solver].
  rewrite wrapped_run. pose proof (ho_start _ _ _ Hh sb w3) as H4. destruct (StartSandbox host sb w3) as [w4 [pid|]]; cbn [fst snd]; [|set_solver].
  destruct H4 as (Hpid & Hnew & H4). unfold attempt, throw, mret, M_ret.
  assert (decode_static (Some (JObj [("version", JNum 1); ("data", static_data_json (MkStaticHandle (r_id r) pid port))])) =
    Ok (MkStaticHandle (r_id r) pid port)) as Hd by (by apply decode_encode_static).
  assert (encode_static (MkStaticHandle (r_id r) pid port) =
    Ok (JObj [("version", JNum 1); ("data", static_data_json (MkStaticHandle (r_id r) pid port))])) as -> by reflexivity.
  pose proof (fewer_await polls port (sbLog sb) pid w4) as H5.
  destruct (awaitReady host polls port (sbLog sb) pid w4) as [w5 [[]|e]]; unfold fewer in H5; cbn in H5.
  - exists pid, port. split_and!; [done|lia|]. clear -H1 H2 H3 H4 H5. set_solver.
  - destruct (stop_gone _ _ w5 Hd) as [Hg|]; [|cbn in *; lia]. pose proof (fewer_stop (Some (JObj [("version", JNum 1);
      ("data", static_data_json (MkStaticHandle (r_id r) pid port))])) w5) as H6. unfold fewer in H6. cbn [shPID] in Hg.
    destruct (stop host _ w5) as [w6 [[]|]]; cbn in *; clear -H1 H2 H3 H4 H5 H6 Hg; set_solver.
Qed.

(** Whatever happens, a provision adds at most the process its handle names, and
    none when it fails; a restart ends the process of the old handle first; and
    terminating a handle leaves neither its process nor its directory. *)
Theorem static_lifecycle r token w :
  (∀ w' e, prProvision provider r token w = (w', Err e) → procs w' ⊆ procs w) ∧
  (∀ w1 w2 h, prProvision provider r token w = (w1, Ok h) → prTerminate provider (rWithHandle r h) w1 = (w2, Ok ()) →
     procs w2 ⊆ procs w ∧ dir cfg (r_id r) ∉ dirs w2) ∧
  (∀ d w' h, decode_static (r_handle r) = Ok d → (0 ≤ shPID d)%Z → prRestart provider r token w = (w', Ok h) →
     ∃ pid port, decode_static (Some h) = Ok (MkStaticHandle (r_id r) pid port) ∧ procs w' ⊆ {[pid]} ∪ procs w ∖ {[shPID d]}).
Proof.
  cbn. split_and!.
  - intros w' e E. pose proof (Provision_result r token w) as H. by rewrite E in H.
  - intros w1 w2 h E Ht. pose proof (Provision_result r token w) as H. rewrite E in H. destruct H as (pid & port & Hd & Hpos & H1).
    unfold Terminate in Ht. change (r_handle (rWithHandle r h)) with (Some h) in Ht. rewrite Hd in Ht. unfold mbind, M_bind, attempt in Ht.
    destruct (stop_gone _ _ w1 Hd) as [Hg|]; [|cbn in *; lia]. pose proof (fewer_stop (Some h) w1) as H2. unfold fewer in H2.
    destruct (stop host (Some h) w1) as [w3 [[]|]]; [|done]. cbn in Hg, H2, Ht.
    destruct (ho_remove _ _ _ Hh (dir cfg (r_id r)) w3) as [H3 H4]. destruct (RemoveAll host (dir cfg (r_id r)) w3) as [w4 [[]|e]]; cbn in *.
    + injection Ht as <-. split; [set_solver|done].
    + case_bool_decide as Ee; [subst e; injection Ht as <-|done]. split; [set_solver|done].
  - intros d w' h Hd Hpos. unfold Restart, mbind, M_bind. destruct (stop_gone _ _ w Hd) as [Hg|]; [|lia].
    pose proof (fewer_stop (r_handle r) w) as H1. unfold fewer in H1. destruct (stop host (r_handle r) w) as [w1 [[]|]]; [|done].
    cbn in Hg, H1. intros E. pose proof (Provision_result r token w1) as H. rewrite E in H. destruct H as (pid & port & Hh' & _ & H2).
    exists pid, port. split; [done|set_solver].
Qed.

End static.

(** ** A host *)

Module StaticDemo.

(** The processes, the directories and the next process number. *)
Record World := MkWorld { hwProcs : gset Z; hwDirs : gset string; hwNext : Z }.

Definition host (ready : bool) : Host World := {|
  Stat := λ p, w ← get; if bool_decide (p ∈ hwDirs w) then mret () else throw ErrNotFound;
  MkdirAll := λ p, modify (λ w, MkWorld (hwProcs w) ({[p]} ∪ hwDirs w) (hwNext w));
  ReservePort := mret 40000%Z;
  CreateFile := λ _, mret ();
  StartSandbox := λ _, w ← get;
    let pid := hwNext w in
    if bool_decide (0 < pid ≤ 2147483647)%Z && bool_decide (pid ∉ hwProcs w)
    then _ ← put (MkWorld ({[pid]} ∪ hwProcs w) (hwDirs w) (pid + 1)); mret pid else throw (ErrorText "fork");
  Alive := λ p, w ← get; mret (bool_decide (p ∈ hwProcs w));
  KillProcess := λ p, modify (λ w, MkWorld (hwProcs w ∖ {[Z.abs p]}) (hwDirs w) (hwNext w));
  DialPort := λ _, if ready then mret () else throw (ErrorText "connection refused");
  ReadFile := λ _, mret "boom";
  RemoveAll := λ p, modify (λ w, MkWorld (hwProcs w) (hwDirs w ∖ {[p]}) (hwNext w));
  ReadDir := λ _, mret [];
  Unshare := mret ();
|}.

Lemma host_meets ready : host_api (host ready) hwProcs hwDirs.
Proof.
  split; try done.
  - intros p w. cbn. unfold mbind, M_bind, get, throw. cbn. by case_bool_decide.
  - intros sb w. cbn. unfold mbind, M_bind, get, put, throw, mret, M_ret. cbn.
    case_bool_decide; cbn; [|done]. case_bool_decide; cbn; done.
  - intros p w. split; [done|]. cbn. by intros ?%bool_decide_eq_true.
  - intros p w. by destruct ready.
  - intros p w. split; [done|]. cbn. set_solver.
Qed.

Definition cfg : Config := MkConfig "/opt/bezalel" "/srv/envs".
Definition box (h : option json) : Resource :=
  MkResource "e1" "acme" "s1" ResourceKindDevEnv "p1" ResourceReady (Some (spec_json (MkDevEnvSpec "box" "" "" ∅ ∅))) h "" "" "" 1 "" None
    0 0 None None.
Definition provider (ready : bool) : ResourceProvider World := static_provider (host ready) [] cfg 3.
Definition fresh : World := MkWorld ∅ ∅ 100.
Definition handle : json :=
  JObj [("version", JNum 1); ("data", JObj [("resource_id", JStr "e1"); ("pid", JNum 100); ("port", JNum 40000)])].

End StaticDemo.

Lemma static_lifecycle_witness :
  ∃ w1 w2, prProvision (StaticDemo.provider true) (StaticDemo.box None) "t1" StaticDemo.fresh = (w1, Ok StaticDemo.handle) ∧
    StaticDemo.hwProcs w1 = {[100%Z]} ∧
    prTerminate (StaticDemo.provider true) (rWithHandle (StaticDemo.box None) StaticDemo.handle) w1 = (w2, Ok ()) ∧
    StaticDemo.hwProcs w2 ⊆ ∅ ∧
    ∃ w3 e, prProvision (StaticDemo.provider false) (StaticDemo.box None) "t1" StaticDemo.fresh = (w3, Err e) ∧ StaticDemo.hwProcs w3 ⊆ ∅.
Proof.
  destruct (prProvision (StaticDemo.provider true) (StaticDemo.box None) "t1" StaticDemo.fresh) as [w1 res] eqn:E1.
  assert (res = Ok StaticDemo.handle) as -> by (transitivity (w1, res).2; [done|rewrite <-E1; vm_compute; reflexivity]).
  assert (StaticDemo.hwProcs w1 = {[100%Z]}) as Hp
    by (transitivity (StaticDemo.hwProcs (w1, Ok StaticDemo.handle : result json).1); [done|rewrite <-E1; vm_compute; reflexivity]).
  destruct (prTerminate (StaticDemo.provider true) (rWithHandle (StaticDemo.box None) StaticDemo.handle) w1) as [w2 res] eqn:E2.
  assert (res = Ok ()) as ->.
  { transitivity (w2, res).2; [done|]. rewrite <-E2. vm_compute. reflexivity. }
  destruct (prProvision (StaticDemo.provider false) (StaticDemo.box None) "t1" StaticDemo.fresh) as [w3 res] eqn:E3.
  assert (∃ e, res = Err e) as [e ->].
  { exists (ErrorText "static: sandbox never ready: boom"). transitivity (w3, res).2; [done|]. rewrite <-E3. vm_compute. reflexivity. }
  pose proof (static_lifecycle (StaticDemo.host true) StaticDemo.hwProcs StaticDemo.hwDirs (StaticDemo.host_meets true) [] StaticDemo.cfg 3
    (StaticDemo.box None) "t1" StaticDemo.fresh) as (_ & Hrel & _).
  pose proof (static_lifecycle (StaticDemo.host false) StaticDemo.hwProcs StaticDemo.hwDirs (StaticDemo.host_meets false) [] StaticDemo.cfg 3
    (StaticDemo.box None) "t1" StaticDemo.fresh) as (Hfail & _ & _).
  exists w1, w2. split_and!; [done|done|done|exact (proj1 (Hrel _ _ _ E1 E2))|].
  exists w3, e. split; [done|exact (Hfail _ _ E3)].
Defined.

(** ** Where code and comments part *)

(** The spec's variables are in the environment of the shell, which starts the
    agent under [env -i] and passes on none of them. *)
Example spec_env_dropped :
  let sb := sandbox_of [] StaticDemo.cfg (StaticDemo.box None) (MkDevEnvSpec "box" "" "" {["FOO" := "bar"]} ∅) "t1" 40000 in
  sbEnv sb = ["BEZALEL_AUTH_TOKEN=t1"; "FOO=bar"] ∧ Contains (sbScript sb) "exec env -i " = true ∧ Contains (sbScript sb) "FOO" = false.
Proof. vm_compute. split_and!; reflexivity. Qed.

(** The working directory of a spec is part of the script the host's shell runs,
    and is not quoted: a command in it is a line of the script. *)
Example workdir_is_a_command :
  Contains (sbScript (sandbox_of [] StaticDemo.cfg (StaticDemo.box None)
    (MkDevEnvSpec "box" "" ("/w" +:+ newline +:+ "touch /tmp/x" +:+ newline) ∅ ∅) "t1" 40000))
    (newline +:+ "touch /tmp/x" +:+ newline) = true.
Proof. vm_compute. reflexivity. Qed.

(** A provision that fails after its directory was made returns no handle, so
    that terminating leaves the directory. *)
Example failed_sandbox_leaves_directory :
  let '(w1, res) := prProvision (StaticDemo.provider false) (StaticDemo.box None) "t1" StaticDemo.fresh in
  let w2 := (prTerminate (StaticDemo.provider false) (StaticDemo.box None) w1).1 in
  res = Err (ErrorText "static: sandbox never ready: boom") ∧ StaticDemo.hwDirs w2 = {["/srv/envs/e1/workspace"]}.
Proof. vm_compute. split; reflexivity. Qed.

(** [Join] on identifiers with separators. *)
Example join_cleans : Join "/srv/envs" "../x" = "/srv/x" ∧ Join "/srv/envs/" "e1" = "/srv/envs/e1" ∧ Join "a" "../../b" = "../b" ∧ Join "" "" = "".
Proof. vm_compute. split_and!; reflexivity. Qed.
