(* ===== verification/Accounts.v ===== *)
(** * Tenants, API keys, credentials and periodic prompts

    The stores of [postgres/org.go], [postgres/periodic.go] and of the
    credentials ([postgres/run.go]); the AES-GCM keyring ([secrets/secrets.go]);
    API keys and authentication ([auth.go], [http/auth.go]); the tenant,
    credential, provider and automation services ([http/org_handler.go],
    [http/automation_handler.go]); the resolution of a run's model
    ([loop/model.go]).

    These tables sit beside the core tables: a [World] is the core database, the
    account tables and the process's redactor.  Responses are domain values.
    Random bytes and fresh ids are arguments; [None] is a failing random source.

    Parameters: [Sha256]; [Aead], the AES-GCM of the standard library under the
    master key; [CredentialJSON], the JSON of a credential's payload and headers;
    [DurationText], [time.Duration]'s text form; [ProviderRegistry], the provider
    factories of the deployment. *)
From S2P Require Import Prelude Policy Domain Text Store StoreRuns EventLog Loop Waits Tools Api ResourceStore Strings Redact AdminQuery.

(** ** Data *)

Record Tenant := MkTenant { tn_id : TenantID; tn_name : string; tn_created_at : time }.

Record APIKey := MkAPIKey {
  ak_id : string; ak_tenant : TenantID; ak_name : string; ak_scope : string; ak_prefix : string;
  ak_hash : list Z; ak_enc : list Z; ak_created_at : time; ak_revoked_at : option time;
}.

Record APIKeyInfo := MkAPIKeyInfo {
  ki_id : string; ki_tenant : TenantID; ki_name : string; ki_scope : string; ki_prefix : string;
  ki_created_at : time; ki_revoked_at : option time;
}.
Definition Info (k : APIKey) : APIKeyInfo :=
  MkAPIKeyInfo (ak_id k) (ak_tenant k) (ak_name k) (ak_scope k) (ak_prefix k) (ak_created_at k) (ak_revoked_at k).

Record Credential := MkCredential {
  cr_tenant : TenantID; cr_kind : string; cr_name : string; cr_enc : list Z; cr_created_at : time; cr_rotated_at : time;
}.
Record CredentialInfo := MkCredentialInfo { ci_kind : string; ci_name : string; ci_created_at : time; ci_rotated_at : time }.

Record InferencePayload := MkInferencePayload {
  ip_api_key : string; ip_base_url : string; ip_extra_headers : gmap string string;
}.

(** A row of [periodic_prompts]: the schedule is text. *)
Record PeriodicRow := MkPeriodicRow {
  pp_id : string; pp_tenant : TenantID; pp_session : SessionID; pp_run : option RunID; pp_schedule : string;
  pp_prompt : string; pp_enabled : bool; pp_next_at : time; pp_created_at : time;
}.
Record PeriodicPrompt := MkPeriodicPrompt {
  pr_id : string; pr_tenant : TenantID; pr_session : SessionID; pr_run : RunID; pr_schedule : Z;
  pr_prompt : string; pr_enabled : bool; pr_next_at : time; pr_created_at : time;
}.

Record AuthIdentity := MkAuthIdentity { aiTenant : TenantID; aiKey : string; aiScope : string }.

(** ** The world *)

Record Accounts := MkAccounts {
  ac_tenants : gmap TenantID Tenant;
  ac_keys : gmap string APIKey;
  ac_credentials : gmap (TenantID * string * string) Credential;
  ac_periodic : gmap string PeriodicRow;
}.
Definition no_accounts : Accounts := MkAccounts ∅ ∅ ∅ ∅.

Record World := MkWorld { w_db : DB; w_acc : Accounts; w_redactor : Redactor }.

Definition with_tenants (x : gmap TenantID Tenant) (a : Accounts) : Accounts :=
  MkAccounts x (ac_keys a) (ac_credentials a) (ac_periodic a).
Definition with_keys (x : gmap string APIKey) (a : Accounts) : Accounts :=
  MkAccounts (ac_tenants a) x (ac_credentials a) (ac_periodic a).
Definition with_credentials (x : gmap (TenantID * string * string) Credential) (a : Accounts) : Accounts :=
  MkAccounts (ac_tenants a) (ac_keys a) x (ac_periodic a).
Definition with_periodic (x : gmap string PeriodicRow) (a : Accounts) : Accounts :=
  MkAccounts (ac_tenants a) (ac_keys a) (ac_credentials a) x.

Definition put_acc (a : Accounts) : M World unit := modify (λ w, MkWorld (w_db w) a (w_redactor w)).
Definition get_acc : M World Accounts := gets w_acc.
Definition now_ : M World time := gets (λ w, db_now (w_db w)).

(** A statement on the core tables. *)
Definition core {A} (m : M DB A) : M World A := λ w,
  let '(d, r) := m (w_db w) in (MkWorld d (w_acc w) (w_redactor w), r).

(** [DefaultRedactor.Register] *)
Definition register (vs : list string) : M World unit :=
  modify (λ w, MkWorld (w_db w) (w_acc w) (Register vs (w_redactor w))).

(** A transaction of the pool: the tables are rolled back, the process is not. *)
Definition InTx {A} (m : M World A) : M World A := λ w,
  match m w with
  | (w', Ok a) => (w', Ok a)
  | (w', Err e) => (MkWorld (w_db w) (w_acc w) (w_redactor w'), Err e)
  end.

Definition mapped {A} (f : err → err) (m : M World A) : M World A :=
  r ← attempt m; match r with Ok a => mret a | Err e => throw (f e) end.

(** ** Tenants ([tenantStore]) *)

Definition TenantCreate (id : TenantID) (name : string) : M World unit :=
  a ← get_acc;
  now ← now_;
  match ac_tenants a !! id with
  | Some _ => throw ErrAlreadyExists
  | None => put_acc (with_tenants (<[id := MkTenant id name now]> (ac_tenants a)) a)
  end.

Definition TenantGet (id : TenantID) : M World Tenant :=
  a ← get_acc; of_option ErrNotFound (ac_tenants a !! id).

Definition TenantList : M World (list Tenant) :=
  a ← get_acc; mret (Store.order_by tn_created_at (rows (ac_tenants a))).

(** ** API keys ([apiKeyStore]) *)

(** The primary key and [key_hash UNIQUE]. *)
Definition key_taken (a : Accounts) (id : string) (hash : list Z) : bool :=
  bool_decide (is_Some (ac_keys a !! id)) || existsb (λ k, bool_decide (ak_hash k = hash)) (rows (ac_keys a)).

Definition APIKeyCreate (key : APIKey) : M World unit :=
  a ← get_acc;
  now ← now_;
  if key_taken a (ak_id key) (ak_hash key) then throw ErrAlreadyExists
  else match ac_tenants a !! ak_tenant key with
       | None => throw (ErrorText "postgres: create api key: foreign key violation")
       | Some _ =>
           put_acc (with_keys (<[ak_id key := MkAPIKey (ak_id key) (ak_tenant key) (ak_name key) (ak_scope key)
                                  (ak_prefix key) (ak_hash key) (ak_enc key) now None]> (ac_keys a)) a)
       end.

Definition key_by_hash (a : Accounts) (hash : list Z) : option APIKey :=
  head (bool_filter (λ k, bool_decide (ak_hash k = hash)) (rows (ac_keys a))).

Definition GetByHash (hash : list Z) : M World APIKey :=
  a ← get_acc; of_option ErrNotFound (key_by_hash a hash).

Definition APIKeyGet (id : string) : M World APIKey :=
  a ← get_acc; of_option ErrNotFound (ac_keys a !! id).

Definition APIKeyList (tenant : TenantID) : M World (list APIKeyInfo) :=
  a ← get_acc;
  mret (Info <$> Store.order_by ak_created_at (bool_filter (λ k, bool_decide (ak_tenant k = tenant)) (rows (ac_keys a)))).

Definition set_revoked (t : time) (k : APIKey) : APIKey :=
  MkAPIKey (ak_id k) (ak_tenant k) (ak_name k) (ak_scope k) (ak_prefix k) (ak_hash k) (ak_enc k) (ak_created_at k)
    (match ak_revoked_at k with Some t0 => Some t0 | None => Some t end).

(** [clock] is [time.Now()]. *)
Definition APIKeyRevoke (clock : time) (tenant : TenantID) (id : string) : M World unit :=
  a ← get_acc;
  match ac_keys a !! id with
  | Some k => if bool_decide (ak_tenant k = tenant)
              then put_acc (with_keys (<[id := set_revoked clock k]> (ac_keys a)) a)
              else throw ErrNotFound
  | None => throw ErrNotFound
  end.

(** ** Credentials ([credentialStore]) *)

Definition CredentialPut (tenant : TenantID) (kind name : string) (enc : list Z) : M World unit :=
  a ← get_acc;
  now ← now_;
  let created := match ac_credentials a !! (tenant, kind, name) with Some c => cr_created_at c | None => now end in
  match ac_tenants a !! tenant with
  | None => throw (ErrorText "postgres: put credential: foreign key violation")
  | Some _ =>
      put_acc (with_credentials (<[(tenant, kind, name) := MkCredential tenant kind name enc created now]> (ac_credentials a)) a)
  end.

Definition cred_le : relation Credential := λ x y,
  String.ltb (cr_kind x) (cr_kind y) = true ∨ (cr_kind x = cr_kind y ∧ String.leb (cr_name x) (cr_name y) = true).
#[export] Instance cred_le_dec : RelDecision cred_le.
Proof. unfold cred_le. intros x y. apply _. Defined.

Definition CredentialList (tenant : TenantID) : M World (list CredentialInfo) :=
  a ← get_acc;
  mret ((λ c, MkCredentialInfo (cr_kind c) (cr_name c) (cr_created_at c) (cr_rotated_at c)) <$>
        merge_sort cred_le (bool_filter (λ c, bool_decide (cr_tenant c = tenant)) (rows (ac_credentials a)))).

Definition CredentialGet (tenant : TenantID) (kind name : string) : M World Credential :=
  a ← get_acc; of_option ErrNotFound (ac_credentials a !! (tenant, kind, name)).

Definition CredentialDelete (tenant : TenantID) (kind name : string) : M World unit :=
  a ← get_acc;
  match ac_credentials a !! (tenant, kind, name) with
  | Some _ => put_acc (with_credentials (delete (tenant, kind, name) (ac_credentials a)) a)
  | None => throw ErrNotFound
  end.

(** ** Periodic prompts ([periodicStore]) *)

Class DurationText := DurString : Z → string.

Section periodic.
Context `{DurationText} `{Durations}.

(** The run of the prompt is not stored: the statement binds a nil. *)
Definition PeriodicCreate (tenant : TenantID) (p : PeriodicPrompt) : M World unit :=
  a ← get_acc;
  now ← now_;
  d ← gets w_db;
  match ac_periodic a !! pr_id p, ac_tenants a !! tenant, db_sessions d !! pr_session p with
  | None, Some _, Some _ =>
      put_acc (with_periodic (<[pr_id p := MkPeriodicRow (pr_id p) tenant (pr_session p) None (DurString (pr_schedule p))
                                  (pr_prompt p) (pr_enabled p) (pr_next_at p) now]> (ac_periodic a)) a)
  | _, _, _ => throw (ErrorText "constraint violation")
  end.

Definition scanPeriodic (r : PeriodicRow) : PeriodicPrompt :=
  MkPeriodicPrompt (pp_id r) (pp_tenant r) (pp_session r) (default "" (pp_run r)) (default 0%Z (ParseDuration (pp_schedule r)))
    (pp_prompt r) (pp_enabled r) (pp_next_at r) (pp_created_at r).

Definition PeriodicList (tenant : TenantID) (session : SessionID) : M World (list PeriodicPrompt) :=
  a ← get_acc;
  mret (scanPeriodic <$>
        Store.order_by pp_created_at
          (bool_filter (λ r, bool_decide (pp_tenant r = tenant) && bool_decide (pp_session r = session)) (rows (ac_periodic a)))).

Definition periodic_of (a : Accounts) (tenant : TenantID) (id : string) : option PeriodicRow :=
  r ← ac_periodic a !! id; if bool_decide (pp_tenant r = tenant) then Some r else None.

Definition PeriodicGetForUpdate (tenant : TenantID) (id : string) : M World PeriodicPrompt :=
  a ← get_acc; r ← of_option ErrNotFound (periodic_of a tenant id); mret (scanPeriodic r).

Definition set_enabled (v : bool) (r : PeriodicRow) : PeriodicRow :=
  MkPeriodicRow (pp_id r) (pp_tenant r) (pp_session r) (pp_run r) (pp_schedule r) (pp_prompt r) v (pp_next_at r) (pp_created_at r).
Definition set_next (t : time) (r : PeriodicRow) : PeriodicRow :=
  MkPeriodicRow (pp_id r) (pp_tenant r) (pp_session r) (pp_run r) (pp_schedule r) (pp_prompt r) (pp_enabled r) t (pp_created_at r).

(** An update that matches no row is not an error. *)
Definition periodic_update (tenant : TenantID) (id : string) (f : PeriodicRow → PeriodicRow) : M World unit :=
  a ← get_acc;
  match periodic_of a tenant id with
  | Some r => put_acc (with_periodic (<[id := f r]> (ac_periodic a)) a)
  | None => mret ()
  end.
Definition SetEnabled (tenant : TenantID) (id : string) (v : bool) : M World unit := periodic_update tenant id (set_enabled v).
Definition SetNext (tenant : TenantID) (id : string) (t : time) : M World unit := periodic_update tenant id (set_next t).

End periodic.

(** ** The keyring ([AESKeyring]) *)

Class Aead := {
  NonceSize : nat;
  Seal : list Z → list Z → list Z;
  Open : list Z → list Z → option (list Z);
}.

Section keyring.
Context `{Aead}.

(** [nonce] is what the random source returned. *)
Definition Encrypt (nonce : option (list Z)) (plaintext : list Z) : result (list Z) :=
  match nonce with
  | None => Err (ErrorText "secrets: nonce")
  | Some n => Ok (n ++ Seal n plaintext)
  end.

Definition Decrypt (ciphertext : list Z) : result (list Z) :=
  if (length ciphertext <? NonceSize)%nat then Err (ErrorText "secrets: ciphertext too short")
  else match Open (take NonceSize ciphertext) (drop NonceSize ciphertext) with
       | None => Err (ErrorText "secrets: decrypt failed")
       | Some p => Ok p
       end.
End keyring.

(** ** Authentication *)

Class Sha256 := HashAPIKey : string → list Z.

Definition KeyScopeSessions : string := "sessions".

Definition Authenticate `{Sha256} (token : string) : M World AuthIdentity :=
  if bool_decide (token = "") then throw ErrPermissionDenied
  else
    r ← attempt (GetByHash (HashAPIKey token));
    match r with
    | Err _ => throw ErrPermissionDenied
    | Ok key => match ak_revoked_at key with
                | Some _ => throw ErrPermissionDenied
                | None => mret (MkAuthIdentity (ak_tenant key) (ak_id key) (ak_scope key))
                end
    end.

(** [random] is the 32 bytes the random source returned. *)
Definition GenerateAPIKey (random : option (list Z)) : result (string * string) :=
  match random with
  | None => Err (ErrorText "core: generate api key")
  | Some b => let raw := "uck_" +:+ hexs b in Ok (raw, String.substring 0 12 raw)
  end.

(** [bearer] of [http/auth.go] *)
Definition http_bearer (header : string) : string := default "" (cut_prefix "Bearer " header).

Definition authenticate `{Sha256} (authorization actorHeader : string) : M World authContext :=
  let token := http_bearer authorization in
  if bool_decide (token = "") then throw errUnauthenticated
  else
    id ← mapped (λ _, errUnauthenticated) (Authenticate token);
    let actor := ParseActorHeader actorHeader in
    let actor := if bool_decide (actKind actor = "") && bool_decide (actID actor = "")
                 then MkActor "service" (aiKey id) "" else actor in
    mret (MkAuthContext (aiTenant id) (aiKey id) (aiScope id) actor).

(** ** The provider registry ([provider/registry.go]) *)

(** What a factory builds: an adapter, with the outcome of its probe if it has
    one. *)
Record Adapter := MkAdapter { adProbe : option (result ProviderCapabilities) }.
Definition Factory : Type := json → result Adapter.
Definition ProviderRegistry : Type := gmap string Factory.

(** Registering a kind twice panics. *)
Definition RegisterKind_ (kind : string) (f : Factory) (r : ProviderRegistry) : option ProviderRegistry :=
  match r !! kind with Some _ => None | None => Some (<[kind := f]> r) end.
Definition Kinds (r : ProviderRegistry) : list string := order_by_text id (map_to_list r).*1.
Definition Enabled (r : ProviderRegistry) (kind : string) : bool := bool_decide (is_Some (r !! kind)).
Definition Build (r : ProviderRegistry) (kind : string) (config : json) : result Adapter :=
  match r !! kind with
  | None => Err (ErrorText ("provider: provider kind " +:+ kind +:+ " is not enabled in this deployment"))
  | Some factory => factory config
  end.
Definition DryRun (r : ProviderRegistry) (kind : string) (config : json) : result ProviderCapabilities :=
  match Build r kind config with
  | Err e => Err e
  | Ok a => match adProbe a with
            | None => Ok (MkCapabilities kind [] ∅)
            | Some (Err e) => Err e
            | Some (Ok c) => Ok (MkCapabilities kind (capSupported c) (capNotes c))
            end
  end.

(** ** The tenant service ([tenantHandler]) *)

Definition who_ (who : option authContext) : M World authContext := core (identityFrom who).
Definition tenant_ (who : option authContext) (t : TenantID) : M World authContext := core (requireTenant who t).
Definition admin_ (who : option authContext) (t : TenantID) : M World unit := core (requireAdmin who t).

Definition requires_admin : err := CodeError "permission_denied" "requires admin key".
Definition invalid_argument (msg : string) : err := CodeError "invalid_argument" msg.

(** [KeyScope] of the request: [None] is unspecified. *)
Definition keyScopeFromProto (s : option bool) : option string :=
  match s with Some true => Some KeyScopeAdmin | Some false => Some KeyScopeSessions | None => None end.

Section services.
Context `{Sha256} `{Aead} `{DurationText} `{Durations}.

(** Fresh values a handler draws: an id, the random bytes of a key, a nonce. *)
Record Fresh := MkFresh { frID : string; frKey : option (list Z); frNonce : option (list Z) }.

Definition mintKey (fr : Fresh) (tenant : TenantID) (name scope : string) : M World (APIKeyInfo * string) :=
  '(raw, prefix) ← of_result (GenerateAPIKey (frKey fr));
  _ ← register [raw];
  enc ← of_result (Encrypt (frNonce fr) (bytes_of raw));
  let key := MkAPIKey (frID fr) tenant name scope prefix (HashAPIKey raw) enc 0 None in
  _ ← APIKeyCreate key;
  mret (Info key, raw).

Definition CreateTenant (who : option authContext) (tenantID : TenantID) (fr : Fresh) (name : string)
  : M World (Tenant * string) :=
  a ← who_ who;
  if negb (bool_decide (auScope a = KeyScopeAdmin)) then throw requires_admin
  else if bool_decide (name = "") then throw (invalid_argument "name is required")
  else
    raw ← mapped mapStoreErr (InTx (
      _ ← TenantCreate tenantID name;
      '(_, raw) ← mintKey fr tenantID "owner" KeyScopeAdmin;
      mret raw));
    created ← mapped mapStoreErr (TenantGet tenantID);
    mret (created, raw).

Definition GetTenant (who : option authContext) (id : TenantID) : M World Tenant :=
  _ ← tenant_ who id; mapped mapStoreErr (TenantGet id).

Definition ListTenants (who : option authContext) : M World (list Tenant) :=
  a ← who_ who; t ← mapped mapStoreErr (TenantGet (auTenant a)); mret [t].

Definition CreateAPIKey (who : option authContext) (fr : Fresh) (id : TenantID) (name : string) (scope : option bool)
  : M World (APIKeyInfo * string) :=
  _ ← admin_ who id;
  match keyScopeFromProto scope with
  | None => throw (invalid_argument "scope is required")
  | Some s => mapped mapStoreErr (mintKey fr id name s)
  end.

Definition ListAPIKeys (who : option authContext) (id : TenantID) : M World (list APIKeyInfo) :=
  _ ← admin_ who id; mapped mapStoreErr (APIKeyList id).

Definition RevokeAPIKey (who : option authContext) (clock : time) (id : TenantID) (key : string) : M World unit :=
  _ ← admin_ who id; mapped mapStoreErr (APIKeyRevoke clock id key).

(** ** The credential service ([credentialHandler]) *)

Definition CredentialKindOpenAI : string := "inference:openai".
Definition CredentialKindAnthropic : string := "inference:anthropic".
Definition CredentialKindBedrock : string := "inference:bedrock".
Definition validCredentialKind (kind : string) : bool :=
  bool_decide (kind ∈ [CredentialKindOpenAI; CredentialKindAnthropic; CredentialKindBedrock]).

End services.

(** The JSON of headers and payloads. *)
Class CredentialJSON := {
  unmarshalHeaders : string → option (gmap string string);
  marshalPayload : InferencePayload → list Z;
  unmarshalPayload : list Z → option InferencePayload;
}.

Definition header_values (h : gmap string string) : list string := (map_to_list h).*2.

Section credentials.
Context `{Aead} `{CredentialJSON}.

Definition PutCredential (who : option authContext) (nonce : option (list Z)) (tenant : TenantID) (kind name apiKey baseURL
    extraHeadersJSON : string) : M World CredentialInfo :=
  _ ← admin_ who tenant;
  if negb (validCredentialKind kind) then throw (invalid_argument "unknown credential kind")
  else if bool_decide (apiKey = "") then throw (invalid_argument "api_key is required")
  else
    _ ← register [apiKey];
    let name := if bool_decide (name = "") then "default" else name in
    headers ← (if bool_decide (extraHeadersJSON = "") then mret ∅
               else of_option (invalid_argument "extra_headers_json must be a JSON object of string values")
                      (unmarshalHeaders extraHeadersJSON));
    _ ← register (header_values headers);
    enc ← mapped mapStoreErr (of_result (Encrypt nonce (marshalPayload (MkInferencePayload apiKey baseURL headers))));
    _ ← mapped mapStoreErr (CredentialPut tenant kind name enc);
    info ← mapped mapStoreErr (CredentialGet tenant kind name);
    mret (MkCredentialInfo (cr_kind info) (cr_name info) (cr_created_at info) (cr_rotated_at info)).

Definition ListCredentials (who : option authContext) (tenant : TenantID) : M World (list CredentialInfo) :=
  _ ← tenant_ who tenant; mapped mapStoreErr (CredentialList tenant).

Definition DeleteCredential (who : option authContext) (tenant : TenantID) (kind name : string) : M World unit :=
  _ ← admin_ who tenant; mapped mapStoreErr (CredentialDelete tenant kind name).

(** ** Models ([loop/model.go]) *)

Definition InferenceCredentialKind (provider : string) : string :=
  if bool_decide (provider = "openai") then CredentialKindOpenAI
  else if bool_decide (provider = "anthropic") then CredentialKindAnthropic
  else if bool_decide (provider = "bedrock") then CredentialKindBedrock
  else "".

(** The options a provider client is built with. *)
Record ProviderOptions := MkProviderOptions {
  poVendor : string; poAPIKey : string; poHeaders : option (gmap string string); poBaseURL : option string;
}.

Definition buildProvider (name : string) (payload : InferencePayload) : result ProviderOptions :=
  if bool_decide (name ∈ ["openai"; "anthropic"; "bedrock"]) then
    Ok (MkProviderOptions name (ip_api_key payload)
          (if bool_decide (ip_extra_headers payload = ∅) then None else Some (ip_extra_headers payload))
          (if bool_decide (ip_base_url payload = "") then None else Some (ip_base_url payload)))
  else Err (ErrorText "loop: unsupported provider").

(** A [CredentialError] is a value, not an error of the store; the resolved
    model is the client's options and the model id. *)
Inductive resolved :=
  | Resolved (options : ProviderOptions) (modelID : string)
  | CredentialError (reason message : string).

Definition ResolveModel (tenant : TenantID) (cfg : ModelConfig) : M World resolved :=
  let '(MkModelConfig provider modelID credential _) := cfg in
  let kind := InferenceCredentialKind provider in
  if bool_decide (kind = "") then mret (CredentialError FailureCredentialMissing ("unknown inference provider " +:+ provider))
  else
    let name := if bool_decide (credential = "") then "default" else credential in
    r ← attempt (CredentialGet tenant kind name);
    match r with
    | Err _ =>
        mret (CredentialError FailureCredentialMissing ("no " +:+ kind +:+ " credential named " +:+ name +:+ " - add one in org settings"))
    | Ok cred =>
        plaintext ← of_result (Decrypt (cr_enc cred));
        payload ← of_option (ErrorText "loop: decode credential payload") (unmarshalPayload plaintext);
        _ ← register [ip_api_key payload];
        _ ← register (header_values (ip_extra_headers payload));
        options ← of_result (buildProvider provider payload);
        mret (Resolved options modelID)
    end.

End credentials.

(** ** The provider service ([providerHandler]) *)

(** The text of an error. *)
Definition err_text (e : err) : string :=
  match e with ErrorText m => m | CodeError _ m => m | DeniedError m => m | ErrNotFound => "not found" | _ => "" end.

(** [parse] is the JSON reader; [None] is invalid JSON. *)
Definition RegisterProvider (parse : string → option json) (reg : option ProviderRegistry) (who : option authContext)
    (fresh : ProviderInstanceID) (tenant : TenantID) (kind name configJSON : string) : M World ProviderInstance :=
  _ ← admin_ who tenant;
  match reg with
  | None => throw (invalid_argument "provider kind is not enabled")
  | Some reg =>
      if negb (Enabled reg kind) then throw (invalid_argument "provider kind is not enabled")
      else
        let name := if bool_decide (name = "") then "default" else name in
        match parse (if bool_decide (configJSON = "") then "{}" else configJSON) with
        | None => throw (invalid_argument "config_json is invalid")
        | Some config =>
            match DryRun reg kind config with
            | Err e => r ← gets w_redactor; throw (invalid_argument (Redact r (err_text e)))
            | Ok caps =>
                _ ← mapped mapStoreErr (core (ProviderCreate tenant (MkProviderInstance fresh tenant kind name config "ready" caps None 0)));
                mapped mapStoreErr (core (ProviderGet tenant fresh))
            end
        end
  end.

Definition ListProviders (who : option authContext) (tenant : TenantID) : M World (list ProviderInstance) :=
  _ ← tenant_ who tenant; mapped mapStoreErr (core (ProviderList tenant)).

Definition GetProvider (who : option authContext) (tenant : TenantID) (id : ProviderInstanceID) : M World ProviderInstance :=
  _ ← tenant_ who tenant; mapped mapStoreErr (core (ProviderGet tenant id)).

Definition DeregisterProvider (who : option authContext) (tenant : TenantID) (id : ProviderInstanceID) : M World unit :=
  _ ← admin_ who tenant;
  active ← mapped mapStoreErr (core (ListActive tenant));
  let hosted := length (bool_filter (λ r, bool_decide (r_provider r = id)) active) in
  if (0 <? hosted)%nat then
    throw (CodeError "failed_precondition" ("this provider still hosts " +:+ pretty (Z.of_nat hosted) +:+
             " resource(s); terminate them before removing it"))
  else mapped mapStoreErr (core (ProviderDelete tenant id)).

(** ** The automation service ([automationHandler]) *)

Section automation.
Context `{DurationText} `{Durations}.

Definition PutPeriodicPrompt (who : option authContext) (fresh : string) (clock : time) (session : SessionID) (run : RunID)
    (schedule prompt : string) : M World PeriodicPrompt :=
  '(org, _) ← core (resolveSessionTenant who session);
  match ParseDuration schedule with
  | None => throw (invalid_argument "schedule must be duration >=1s")
  | Some s =>
      if bool_decide (s < 1000000000)%Z then throw (invalid_argument "schedule must be duration >=1s")
      else
        let p := MkPeriodicPrompt fresh org session run s prompt true (clock + s) 0 in
        _ ← mapped mapStoreErr (PeriodicCreate org p);
        mret p
  end.

Definition ListPeriodicPrompts (who : option authContext) (session : SessionID) : M World (list PeriodicPrompt) :=
  '(org, _) ← core (resolveSessionTenant who session); mapped mapStoreErr (PeriodicList org session).

Definition SetPeriodicPromptEnabled (who : option authContext) (id : string) (enabled : bool) : M World unit :=
  a ← who_ who;
  _ ← mapped (λ _, errNotFound) (PeriodicGetForUpdate (auTenant a) id);
  mapped mapStoreErr (SetEnabled (auTenant a) id enabled).

End automation.
