(* ===== verification/Wiring.v ===== *)
(** * Which adapters a deployment offers ([provider/wiring.go])

    [StandardRegistry] fills the provider registry of [Accounts] with a factory
    per kind: decode the configuration of a registration strictly, complete it
    from the deployment, build the adapter.  Building the client of a control
    plane is third-party code: [connect] makes an adapter of a completed
    configuration.  Whether the static provider's binary exists and where
    temporary files go are arguments. *)
From S2P Require Import Prelude Policy Domain Text Store StoreRuns EventLog Loop Waits Batcher Tools Step Api.
From S2P Require Import ResourceStore OperatorTx ResourceWork Strings Redact GoJson AdminQuery Handles Tunnel LocalDocker Nomad K8s StaticProvider Accounts.

(** ** Configurations *)

Definition ProviderKindLocalDocker : string := "local_docker".
Definition ProviderKindBYOKubernetes : string := "byo_k8s".
Definition ProviderKindBYONomad : string := "byo_nomad".
Definition ProviderKindTunnelLocal : string := "tunnel_local".
Definition ProviderKindStatic : string := "static".
Definition ProviderKindNull : string := "null".

Record Deployment := MkDeployment {
  dpBezalelImage : string; dpBezalelBinary : string; dpEnabledKinds : list string;
  dpEndpointMode : string; dpEndpointHost : string; dpNodePortRange : Z * Z }.

(** The field of [fields] that [key] names, if any: [DisallowUnknownFields] makes
    the others an error. *)
Definition field_of (fields : list string) (key : string) : option string :=
  head (bool_filter (λ name, key_matches name key) fields).
Definition strict {A} (fields : list string) (set : string → json → A → option A) (key : string) (v : json) (x : A) : option A :=
  name ← field_of fields key; set name v x.

Definition decode {A} (fields : list string) (set : string → json → A → option A) (zero : A) (config : option json) : result A :=
  match decode_struct (strict fields set) zero (default (JObj []) config) with
  | Some x => Ok x
  | None => Err (ErrorText "provider: invalid provider configuration")
  end.

(** An [http.Client]: its interfaces and its function take only [null]. *)
Definition client_fields : list string := ["Transport"; "CheckRedirect"; "Jar"; "Timeout"].
Definition set_client (name : string) (v : json) (timeout : Z) : option Z :=
  if bool_decide (name = "Timeout") then set_int v timeout else match v with JNull => Some timeout | _ => None end.

Definition docker_fields : list string := ["Image"; "PullImage"; "Host"; "HTTPClient"; "WaitTimeout"].
Definition set_docker (name : string) (v : json) (c : LocalDocker.Config) : option LocalDocker.Config :=
  let '(LocalDocker.MkConfig i p h t) := c in
  if bool_decide (name = "Image") then i ← set_string v i; Some (LocalDocker.MkConfig i p h t)
  else if bool_decide (name = "PullImage") then p ← set_bool v p; Some (LocalDocker.MkConfig i p h t)
  else if bool_decide (name = "Host") then h ← set_string v h; Some (LocalDocker.MkConfig i p h t)
  else if bool_decide (name = "HTTPClient") then _ ← decode_struct (strict client_fields set_client) 0%Z v; Some c
  else t ← set_int v t; Some (LocalDocker.MkConfig i p h t).

(** A [[2]int32]: what is missing is zero, what is beyond is dropped. *)
Definition set_range (v : json) (old : Z * Z) : option (Z * Z) :=
  match v with
  | JArr l =>
      let at_ (i : nat) (x : Z) := match l !! i with Some e => set_int32 e x | None => Some 0%Z end in
      lo ← at_ 0 old.1; hi ← at_ 1 old.2; Some (lo, hi)
  | JNull => Some old
  | _ => None
  end.

(** The Kubernetes configuration with its kubeconfig and context. *)
Definition kube_config : Type := string * string * K8s.Config.
Definition kube_fields : list string :=
  ["kubeconfig"; "context"; "namespace"; "image"; "cpu_request"; "cpu_limit"; "memory_request"; "memory_limit"; "endpoint_mode";
   "endpoint_host"; "node_port_range"].
Definition set_kube (name : string) (v : json) (c : kube_config) : option kube_config :=
  let '(kc, ctx, K8s.MkConfig ns i cr cl mr ml em eh lo hi) := c in
  if bool_decide (name = "kubeconfig") then kc ← set_string v kc; Some (kc, ctx, K8s.MkConfig ns i cr cl mr ml em eh lo hi)
  else if bool_decide (name = "context") then ctx ← set_string v ctx; Some (kc, ctx, K8s.MkConfig ns i cr cl mr ml em eh lo hi)
  else if bool_decide (name = "namespace") then ns ← set_string v ns; Some (kc, ctx, K8s.MkConfig ns i cr cl mr ml em eh lo hi)
  else if bool_decide (name = "image") then i ← set_string v i; Some (kc, ctx, K8s.MkConfig ns i cr cl mr ml em eh lo hi)
  else if bool_decide (name = "cpu_request") then cr ← set_string v cr; Some (kc, ctx, K8s.MkConfig ns i cr cl mr ml em eh lo hi)
  else if bool_decide (name = "cpu_limit") then cl ← set_string v cl; Some (kc, ctx, K8s.MkConfig ns i cr cl mr ml em eh lo hi)
  else if bool_decide (name = "memory_request") then mr ← set_string v mr; Some (kc, ctx, K8s.MkConfig ns i cr cl mr ml em eh lo hi)
  else if bool_decide (name = "memory_limit") then ml ← set_string v ml; Some (kc, ctx, K8s.MkConfig ns i cr cl mr ml em eh lo hi)
  else if bool_decide (name = "endpoint_mode") then em ← set_string v em; Some (kc, ctx, K8s.MkConfig ns i cr cl mr ml em eh lo hi)
  else if bool_decide (name = "endpoint_host") then eh ← set_string v eh; Some (kc, ctx, K8s.MkConfig ns i cr cl mr ml em eh lo hi)
  else '(lo, hi) ← set_range v (lo, hi); Some (kc, ctx, K8s.MkConfig ns i cr cl mr ml em eh lo hi).

Definition nomad_fields : list string :=
  ["address"; "token"; "region"; "namespace"; "datacenters"; "image"; "cpu"; "memory"; "endpoint_host"].
Definition set_nomad (name : string) (v : json) (c : Nomad.Config) : option Nomad.Config :=
  let '(Nomad.MkConfig a t r n d i cpu mem e) := c in
  if bool_decide (name = "address") then a ← set_string v a; Some (Nomad.MkConfig a t r n d i cpu mem e)
  else if bool_decide (name = "token") then t ← set_string v t; Some (Nomad.MkConfig a t r n d i cpu mem e)
  else if bool_decide (name = "region") then r ← set_string v r; Some (Nomad.MkConfig a t r n d i cpu mem e)
  else if bool_decide (name = "namespace") then n ← set_string v n; Some (Nomad.MkConfig a t r n d i cpu mem e)
  else if bool_decide (name = "datacenters") then d ← set_strings v d; Some (Nomad.MkConfig a t r n d i cpu mem e)
  else if bool_decide (name = "image") then i ← set_string v i; Some (Nomad.MkConfig a t r n d i cpu mem e)
  else if bool_decide (name = "cpu") then cpu ← set_int v cpu; Some (Nomad.MkConfig a t r n d i cpu mem e)
  else if bool_decide (name = "memory") then mem ← set_int v mem; Some (Nomad.MkConfig a t r n d i cpu mem e)
  else e ← set_string v e; Some (Nomad.MkConfig a t r n d i cpu mem e).

Definition tunnel_fields : list string := ["control_url"; "token"; "secret"].
Definition set_tunnel (name : string) (v : json) (c : Tunnel.Config) : option Tunnel.Config :=
  let '(Tunnel.MkConfig u t s d) := c in
  if bool_decide (name = "control_url") then u ← set_string v u; Some (Tunnel.MkConfig u t s d)
  else if bool_decide (name = "token") then t ← set_string v t; Some (Tunnel.MkConfig u t s d)
  else s ← set_string v s; Some (Tunnel.MkConfig u t s d).

Definition static_fields : list string := ["binary"; "root"].
Definition set_static (name : string) (v : json) (c : StaticProvider.Config) : option StaticProvider.Config :=
  let '(StaticProvider.MkConfig b r) := c in
  if bool_decide (name = "binary") then b ← set_string v b; Some (StaticProvider.MkConfig b r)
  else r ← set_string v r; Some (StaticProvider.MkConfig b r).

(** A completed configuration. *)
Inductive adapter_config :=
  | ADocker (c : LocalDocker.Config)
  | AKube (kubeconfig context : string) (c : K8s.Config)
  | ANomad (c : Nomad.Config)
  | ATunnel (c : Tunnel.Config)
  | AStatic (c : StaticProvider.Config)
  | ANull.

(** ** The registry *)

Section registry.
Context (connect : adapter_config → result Adapter) (exists_ : string → bool) (temp : string) (deployment : Deployment).

Definition orElse (x y : string) : string := if bool_decide (x = "") then y else x.

Definition docker_factory (config : json) : result Adapter :=
  match decode docker_fields set_docker (LocalDocker.MkConfig "" false "" 0) (Some config) with
  | Err e => Err e
  | Ok (LocalDocker.MkConfig i p h t) =>
      connect (ADocker (LocalDocker.New (LocalDocker.MkConfig (orElse i (dpBezalelImage deployment)) p h t)))
  end.
Definition kube_factory (config : json) : result Adapter :=
  match decode kube_fields set_kube ("", "", K8s.MkConfig "" "" "" "" "" "" "" "" 0 0) (Some config) with
  | Err e => Err e
  | Ok (kc, ctx, K8s.MkConfig ns i cr cl mr ml em eh lo hi) =>
      let '(lo, hi) := if bool_decide (hi = 0%Z) then dpNodePortRange deployment else (lo, hi) in
      connect (AKube kc ctx (K8s.NewWithClient (K8s.MkConfig ns (orElse i (dpBezalelImage deployment)) cr cl mr ml
        (orElse em (dpEndpointMode deployment)) (orElse eh (dpEndpointHost deployment)) lo hi)))
  end.
Definition nomad_factory (config : json) : result Adapter :=
  match decode nomad_fields set_nomad (Nomad.MkConfig "" "" "" "" [] "" 0 0 "") (Some config) with
  | Err e => Err e
  | Ok (Nomad.MkConfig a t r n d i cpu mem e) =>
      connect (ANomad (Nomad.New (Nomad.MkConfig a t r n d (orElse i (dpBezalelImage deployment)) cpu mem e)))
  end.
Definition tunnel_factory (config : json) : result Adapter :=
  match decode tunnel_fields set_tunnel (Tunnel.MkConfig "" "" "" 0) (Some config) with
  | Err e => Err e
  | Ok (Tunnel.MkConfig u t s _) =>
      match Tunnel.New (Tunnel.MkConfig u t s 60000000000) with Err e => Err e | Ok c => connect (ATunnel c) end
  end.
Definition static_factory (config : json) : result Adapter :=
  match decode static_fields set_static (StaticProvider.MkConfig "" "") (Some config) with
  | Err e => Err e
  | Ok (StaticProvider.MkConfig b r) =>
      match StaticProvider.New exists_ temp (StaticProvider.MkConfig (orElse b (dpBezalelBinary deployment)) r) with
      | Err e => Err e
      | Ok c => connect (AStatic c)
      end
  end.

Definition enabled (kind : string) : bool :=
  bool_decide (dpEnabledKinds deployment = []) || existsb (λ c, bool_decide (c = kind)) (dpEnabledKinds deployment).

(** [None] is the panic of a kind that is registered twice. *)
Definition register_if (on : bool) (kind : string) (f : Factory) (r : option ProviderRegistry) : option ProviderRegistry :=
  if on then r ← r; RegisterKind_ kind f r else r.
Definition StandardRegistry : option ProviderRegistry :=
  register_if true ProviderKindNull (λ _, connect ANull)
  (register_if (enabled ProviderKindStatic) ProviderKindStatic static_factory
  (register_if (enabled ProviderKindTunnelLocal) ProviderKindTunnelLocal tunnel_factory
  (register_if (enabled ProviderKindBYONomad) ProviderKindBYONomad nomad_factory
  (register_if (enabled ProviderKindBYOKubernetes) ProviderKindBYOKubernetes kube_factory
  (register_if (enabled ProviderKindLocalDocker) ProviderKindLocalDocker docker_factory (Some ∅)))))).

End registry.

(** ** What is offered *)

Definition adapter_kind (c : adapter_config) : string :=
  match c with
  | ADocker _ => ProviderKindLocalDocker | AKube _ _ _ => ProviderKindBYOKubernetes | ANomad _ => ProviderKindBYONomad
  | ATunnel _ => ProviderKindTunnelLocal | AStatic _ => ProviderKindStatic | ANull => ProviderKindNull
  end.
Definition configured_kinds : list string :=
  [ProviderKindLocalDocker; ProviderKindBYOKubernetes; ProviderKindBYONomad; ProviderKindTunnelLocal; ProviderKindStatic].
Definition config_fields (kind : string) : list string :=
  if bool_decide (kind = ProviderKindLocalDocker) then docker_fields
  else if bool_decide (kind = ProviderKindBYOKubernetes) then kube_fields
  else if bool_decide (kind = ProviderKindBYONomad) then nomad_fields
  else if bool_decide (kind = ProviderKindTunnelLocal) then tunnel_fields
  else static_fields.

(** A configuration that names only fields there are. *)
Definition known_fields (fields : list string) (config : json) : Prop :=
  match config with
  | JObj l => ∀ f, f ∈ l → ∃ name, name ∈ fields ∧ key_matches name f.1 = true
  | JNull => True
  | _ => False
  end.

Lemma fill_flag {A} (set : string → json → A → option A) l x b :
  (foldl (λ acc f, match set f.1 f.2 acc.1 with Some x => (x, acc.2) | None => (acc.1, false) end) (x, b) l).2 = true →
  b = true ∧ ∀ f, f ∈ l → ∃ y, is_Some (set f.1 f.2 y).
Proof.
  revert x b. induction l as [|f l IH]; intros x b; simpl; [intros ->; split; [done|]; intros f Hf; by apply elem_of_nil in Hf|].
  destruct (set f.1 f.2 x) as [y|] eqn:E; intros [Hb Hl]%IH; [|done]. split; [done|].
  intros g. rewrite elem_of_cons. intros [->|Hg]; [exists x; by rewrite E|auto].
Qed.
Lemma decode_known {A} fields (set : string → json → A → option A) zero config x :
  decode fields set zero (Some config) = Ok x → known_fields fields config.
Proof.
  unfold decode, decode_struct, fill_struct, fill. cbn [default from_option id]. destruct config as [| | | | | |l]; try done. cbn [known_fields].
  pose proof (fill_flag (strict fields set) l zero true) as Hf. destruct (foldl _ _ l) as [y b]. destruct b; [|done]. intros _.
  destruct (Hf eq_refl) as [_ Hl]. intros f Hin. destruct (Hl f Hin) as (z & r & Hr). unfold strict in Hr.
  destruct (field_of fields f.1) as [name|] eqn:En; [|done]. exists name. unfold field_of in En.
  destruct (bool_filter _ fields) as [|n l'] eqn:Eb; [done|]. injection En as ->.
  assert (name ∈ bool_filter (λ name, key_matches name f.1) fields) as [? ?]%elem_of_bool_filter
    by (rewrite Eb; apply list_elem_of_here). done.
Qed.

Section offers.
Context (connect : adapter_config → result Adapter) (exists_ : string → bool) (temp : string) (deployment : Deployment).

Notation enabled := (enabled deployment).

(** A factory builds its own adapter, from a configuration it knows. *)
Definition builds (kind : string) (f : Factory) : Prop :=
  ∀ config a, f config = Ok a → ∃ c, connect c = Ok a ∧ adapter_kind c = kind ∧ known_fields (config_fields kind) config.

Lemma docker_builds : builds ProviderKindLocalDocker (docker_factory connect deployment).
Proof.
  intros config a. unfold docker_factory. destruct (decode _ _ _ _) as [[i p h t]|] eqn:E; [|done]. apply decode_known in E. intros. by eexists.
Qed.
Lemma kube_builds : builds ProviderKindBYOKubernetes (kube_factory connect deployment).
Proof.
  intros config a. unfold kube_factory. destruct (decode _ _ _ _) as [[[kc ctx] [ns i cr cl mr ml em eh lo hi]]|] eqn:E; [|done].
  apply decode_known in E. case_bool_decide; [destruct (dpNodePortRange deployment)|]; intros; by eexists.
Qed.
Lemma nomad_builds : builds ProviderKindBYONomad (nomad_factory connect deployment).
Proof.
  intros config a. unfold nomad_factory. destruct (decode _ _ _ _) as [[]|] eqn:E; [|done]. apply decode_known in E. intros. by eexists.
Qed.
Lemma tunnel_builds : builds ProviderKindTunnelLocal (tunnel_factory connect).
Proof.
  intros config a. unfold tunnel_factory. destruct (decode _ _ _ _) as [[]|] eqn:E; [|done]. apply decode_known in E.
  destruct (Tunnel.New _); [|done]. intros. by eexists.
Qed.
Lemma static_builds : builds ProviderKindStatic (static_factory connect exists_ temp deployment).
Proof.
  intros config a. unfold static_factory. destruct (decode _ _ _ _) as [[]|] eqn:E; [|done]. apply decode_known in E.
  destruct (StaticProvider.New _ _ _); [|done]. intros. by eexists.
Qed.

Lemma registered (reg : ProviderRegistry) kind f k :
  (<[kind := f]> reg : ProviderRegistry) !! k = if decide (kind = k) then Some f else reg !! k.
Proof. apply (lookup_insert (M := gmap string)). Qed.

(** A registry that offers just the kinds of a list, those that are on. *)
Record offers (kinds : list string) (reg : ProviderRegistry) : Prop := {
  of_enabled kind : is_Some (reg !! kind) ↔ kind ∈ kinds ∧ enabled kind = true;
  of_builds kind f : reg !! kind = Some f → builds kind f;
}.
Lemma register_offers kinds reg kind f : offers kinds reg → kind ∉ kinds → builds kind f →
  ∃ reg', register_if (enabled kind) kind f (Some reg) = Some reg' ∧ offers (kind :: kinds) reg'.
Proof.
  intros [He Hb] Hn Hf. unfold register_if. destruct (enabled kind) eqn:On.
  - assert (reg !! kind = None) as Hr by (apply eq_None_not_Some; rewrite He; by intros []).
    cbn. unfold RegisterKind_. rewrite Hr. exists (<[kind := f]> reg). split; [done|]. split.
    + intros k. rewrite registered, elem_of_cons. case_decide; [subst k; split; eauto|]. rewrite He.
      split; [intros [? ?]; split; [by right|done]|intros [[->|?] ?]; done].
    + intros k g. rewrite registered. case_decide; [subst k; by intros [= <-]|apply Hb].
  - exists reg. split; [done|]. split; [|done]. intros k. rewrite He, elem_of_cons.
    split; [intros [? ?]; split; [by right|done]|intros [[->|?] ?]; [congruence|done]].
Qed.

(** The registry is built without registering a kind twice; it offers the null
    provider and exactly the other kinds the deployment enables; and what a
    registration of a kind builds is the adapter of that kind, from a
    configuration whose every field the adapter has. *)
Theorem standard_registry_offers :
  ∃ reg, StandardRegistry connect exists_ temp deployment = Some reg ∧
    (∀ kind, Enabled reg kind = true ↔ kind = ProviderKindNull ∨ (kind ∈ configured_kinds ∧ enabled kind = true)) ∧
    (∀ kind config a, Build reg kind config = Ok a →
       ∃ c, connect c = Ok a ∧ adapter_kind c = kind ∧ (kind ≠ ProviderKindNull → known_fields (config_fields kind) config)).
Proof.
  assert (offers [] ∅) as H0 by (split; [intros k; rewrite elem_of_nil; split; [by intros []|by intros []]|done]).
  destruct (register_offers _ _ ProviderKindLocalDocker _ H0 ltac:(apply not_elem_of_nil) docker_builds) as (r1 & E1 & H1).
  destruct (register_offers _ _ ProviderKindBYOKubernetes _ H1 ltac:(apply (bool_decide_unpack _); vm_compute; exact I) kube_builds) as (r2 & E2 & H2).
  destruct (register_offers _ _ ProviderKindBYONomad _ H2 ltac:(apply (bool_decide_unpack _); vm_compute; exact I) nomad_builds) as (r3 & E3 & H3).
  destruct (register_offers _ _ ProviderKindTunnelLocal _ H3 ltac:(apply (bool_decide_unpack _); vm_compute; exact I) tunnel_builds) as (r4 & E4 & H4).
  destruct (register_offers _ _ ProviderKindStatic _ H4 ltac:(apply (bool_decide_unpack _); vm_compute; exact I) static_builds) as (r5 & E5 & [He Hb]).
  assert (r5 !! ProviderKindNull = None) as Hn.
  { apply eq_None_not_Some. rewrite He. intros [Hin _]. revert Hin. apply (bool_decide_unpack _). vm_compute. exact I. }
  exists (<[ProviderKindNull := λ _, connect ANull]> r5). split_and!.
  - unfold StandardRegistry. rewrite E1, E2, E3, E4, E5. cbn. unfold RegisterKind_. by rewrite Hn.
  - intros kind. unfold Enabled. rewrite bool_decide_eq_true, registered. case_decide as E; [subst; split; eauto|].
    rewrite He. assert (kind ∈ configured_kinds ↔ kind ∈ reverse configured_kinds) as -> by (by rewrite elem_of_reverse).
    split; [by right|intros [->|?]; done].
  - intros kind config a. unfold Build. rewrite registered. case_decide as E; [subst; intros Ha; by exists ANull|].
    destruct (r5 !! kind) as [f|] eqn:Ef; [|done]. intros Ha. destruct (Hb kind f Ef config a Ha) as (c & ? & ? & ?). by exists c.
Qed.

End offers.

(** ** Where code and comments part *)

(** A deployment without a binary offers the static provider and cannot build it. *)
Example static_offered_without_binary :
  match StandardRegistry (λ _, Ok (MkAdapter None)) (λ _, true) "/tmp" (MkDeployment "img" "" [] "" "" (0, 0)%Z) with
  | Some reg => Enabled reg ProviderKindStatic = true ∧
                Build reg ProviderKindStatic (JObj []) = Err (ErrorText "static: a Bezalel binary path is required")
  | None => False
  end.
Proof. vm_compute. split; reflexivity. Qed.

(** A field that is no setting is refused. *)
Example unknown_field_refused :
  docker_factory (λ _, Ok (MkAdapter None)) (MkDeployment "img" "" [] "" "" (0, 0)%Z) (JObj [("imagee", JStr "x")]) =
  Err (ErrorText "provider: invalid provider configuration").
Proof. vm_compute. reflexivity. Qed.
