(* ===== verification/AccountSpec.v ===== *)
(** * What the account services promise

    Histories of the account tables: which requests change them, how API keys
    live and die, what an authenticated request may touch, and how a stored
    credential reaches the model client. *)
From S2P Require Import Prelude Policy Domain Text Store StoreRuns EventLog Loop Waits Tools Api ResourceStore Frames Strings Redact AdminQuery Accounts.

Section spec.
Context `{Sha256} `{Aead} `{DurationText} `{Durations} `{CredentialJSON}.

(** ** Histories *)

(** One request on the account tables, with its inputs.  [ACore] is any change
    of the core tables; the last four are the operator's commands. *)
Inductive acct_op :=
  | ACore (d : DB)
  | ACreateTenant (who : option authContext) (tenantID : TenantID) (fr : Fresh) (name : string)
  | ACreateAPIKey (who : option authContext) (fr : Fresh) (id : TenantID) (name : string) (scope : option bool)
  | ARevokeAPIKey (who : option authContext) (clock : time) (id : TenantID) (key : string)
  | APutCredential (who : option authContext) (nonce : option (list Z)) (tenant : TenantID)
      (kind name apiKey baseURL headers : string)
  | ADeleteCredential (who : option authContext) (tenant : TenantID) (kind name : string)
  | APutPeriodic (who : option authContext) (fresh : string) (clock : time) (session : SessionID) (run : RunID)
      (schedule prompt : string)
  | ASetPeriodic (who : option authContext) (id : string) (enabled : bool)
  | AResolve (tenant : TenantID) (cfg : ModelConfig)
  | AOperatorRevoke (clock : time) (tenant : TenantID) (id : string)
  | AOperatorDisable (tenant : TenantID) (kind name : string)
  | AOperatorPeriodic (tenant : TenantID) (id : string) (enabled : bool)
  | AOperatorReveal (plaintext : string).

Definition run_acct (o : acct_op) (w : World) : World :=
  match o with
  | ACore d => MkWorld d (w_acc w) (w_redactor w)
  | ACreateTenant who t fr name => (CreateTenant who t fr name w).1
  | ACreateAPIKey who fr id name scope => (CreateAPIKey who fr id name scope w).1
  | ARevokeAPIKey who clock id key => (RevokeAPIKey who clock id key w).1
  | APutCredential who nonce t kind name key url headers => (PutCredential who nonce t kind name key url headers w).1
  | ADeleteCredential who t kind name => (DeleteCredential who t kind name w).1
  | APutPeriodic who fresh clock session run schedule prompt => (PutPeriodicPrompt who fresh clock session run schedule prompt w).1
  | ASetPeriodic who id enabled => (SetPeriodicPromptEnabled who id enabled w).1
  | AResolve t cfg => (ResolveModel t cfg w).1
  | AOperatorRevoke clock t id => (APIKeyRevoke clock t id w).1
  | AOperatorDisable t kind name => (CredentialDelete t kind name w).1
  | AOperatorPeriodic t id enabled => (SetEnabled t id enabled w).1
  | AOperatorReveal plaintext => (register [plaintext] w).1
  end.

Definition acct_step (w w' : World) : Prop := ∃ o, w' = run_acct o w.

(** ** Relations the store methods keep *)

Definition on_acc (R : relation Accounts) : relation World := λ w w', R (w_acc w) (w_acc w').

(** What a relation on the account tables has to allow. *)
Class AccCore (R : relation Accounts) : Prop := {
  acc_preorder :: PreOrder R;
  acc_TenantCreate id name : keeps (on_acc R) (TenantCreate id name);
  acc_APIKeyCreate key : keeps (on_acc R) (APIKeyCreate key);
  acc_credentials x a : R a (with_credentials x a);
  acc_periodic x a : R a (with_periodic x a);
}.
Class AccPrim (R : relation Accounts) : Prop := {
  acc_core :: AccCore R;
  acc_APIKeyRevoke clock t id : keeps (on_acc R) (APIKeyRevoke clock t id);
}.

#[local] Instance on_acc_pre R `{!PreOrder R} : PreOrder (on_acc R).
Proof. split; [intros w; unfold on_acc; reflexivity|]. intros u v w Huv Hvw. unfold on_acc in *. by etrans. Qed.

Section keeping.
Context (R : relation Accounts) `{!AccCore R}.

Lemma keeps_core {A} (m : M DB A) : keeps (on_acc R) (core m).
Proof. intros w. unfold core, on_acc. destruct (m (w_db w)). simpl. reflexivity. Qed.
Lemma keeps_register vs : keeps (on_acc R) (register vs).
Proof. intros w. unfold on_acc. simpl. reflexivity. Qed.
Lemma keeps_mapped {A} f (m : M World A) : keeps (on_acc R) m → keeps (on_acc R) (mapped f m).
Proof. intros Hm. unfold mapped. repeat first [solve [eauto 6 with keeps typeclass_instances] | keeps_step; try apply _]. Qed.
Lemma keeps_InTx {A} (m : M World A) : keeps (on_acc R) m → keeps (on_acc R) (InTx m).
Proof. intros Hm w. specialize (Hm w). unfold InTx, on_acc in *. destruct (m w) as [w' [a|e]]; simpl in *; [done|reflexivity]. Qed.

Ltac acc_method := intros w; unfold on_acc, get_acc, now_, put_acc, gets, modify; run_method; try reflexivity.
Lemma keeps_CredentialPut t k n e : keeps (on_acc R) (CredentialPut t k n e).
Proof. unfold CredentialPut. acc_method; apply acc_credentials. Qed.
Lemma keeps_CredentialDelete t k n : keeps (on_acc R) (CredentialDelete t k n).
Proof. unfold CredentialDelete. acc_method. apply acc_credentials. Qed.
Lemma keeps_PeriodicCreate t p : keeps (on_acc R) (PeriodicCreate t p).
Proof. unfold PeriodicCreate. acc_method. apply acc_periodic. Qed.
Lemma keeps_periodic_update t i f : keeps (on_acc R) (periodic_update t i f).
Proof. unfold periodic_update. acc_method. apply acc_periodic. Qed.
Hint Resolve acc_TenantCreate acc_APIKeyCreate keeps_core keeps_register keeps_CredentialPut
  keeps_CredentialDelete keeps_PeriodicCreate keeps_periodic_update : keeps.

Ltac acc_step :=
  match goal with
  | |- keeps _ (mapped _ _) => apply keeps_mapped
  | |- keeps _ (InTx _) => apply keeps_InTx
  | |- keeps _ (let '_ := ?x in _) => destruct x
  | _ => keeps_step
  end.
Ltac solve_acc := repeat first [ solve [eauto 6 with keeps typeclass_instances] | acc_step; try apply _ ].

Definition is_revoke (o : acct_op) : bool :=
  match o with ARevokeAPIKey _ _ _ _ | AOperatorRevoke _ _ _ => true | _ => false end.

Lemma acct_core_keeps o w : is_revoke o = false → on_acc R w (run_acct o w).
Proof.
  intros Ho. destruct o; try done; cbn [run_acct]; try (unfold on_acc; simpl; reflexivity); revert w;
    match goal with |- ∀ w, on_acc R w (?m w).1 => change (keeps (on_acc R) m) end;
    unfold CreateTenant, CreateAPIKey, PutCredential, DeleteCredential, PutPeriodicPrompt,
      SetPeriodicPromptEnabled, ResolveModel, mintKey, who_, admin_, TenantGet, CredentialGet, PeriodicGetForUpdate,
      SetEnabled, get_acc; solve_acc.
Qed.

Lemma acct_op_keeps `{!AccPrim R} o w : on_acc R w (run_acct o w).
Proof.
  destruct (is_revoke o) eqn:Ho; [|by apply acct_core_keeps]. destruct o; try done; cbn [run_acct].
  - assert (keeps (on_acc R) (RevokeAPIKey who clock id key)) as Hk; [|apply Hk].
    unfold RevokeAPIKey, admin_. pose proof acc_APIKeyRevoke. solve_acc.
  - apply (acc_APIKeyRevoke clock tenant id).
Qed.

Lemma acct_history_keeps `{!AccPrim R} w w' : rtc acct_step w w' → on_acc R w w'.
Proof. induction 1 as [|w1 w2 w3 [o ->] _ IH]; [reflexivity|]. etrans; [apply acct_op_keeps|done]. Qed.

End keeping.


(** ** API keys *)

(** A key keeps everything but its revocation, which is final. *)
Definition key_le (k k' : APIKey) : Prop :=
  ak_id k' = ak_id k ∧ ak_tenant k' = ak_tenant k ∧ ak_name k' = ak_name k ∧ ak_scope k' = ak_scope k ∧
  ak_prefix k' = ak_prefix k ∧ ak_hash k' = ak_hash k ∧ ak_enc k' = ak_enc k ∧ ak_created_at k' = ak_created_at k ∧
  ∀ t, ak_revoked_at k = Some t → ak_revoked_at k' = Some t.

Definition keys_wf (a : Accounts) : Prop :=
  (∀ i k, ac_keys a !! i = Some k → ak_id k = i) ∧
  ∀ i j k l, ac_keys a !! i = Some k → ac_keys a !! j = Some l → ak_hash k = ak_hash l → i = j.

Definition keys_evolve : relation Accounts := λ a a', keys_wf a →
  keys_wf a' ∧ ∀ i k, ac_keys a !! i = Some k → ∃ k', ac_keys a' !! i = Some k' ∧ key_le k k'.

#[local] Instance key_le_pre : PreOrder key_le.
Proof.
  split; [by intros k|]. intros k l m (? & ? & ? & ? & ? & ? & ? & ? & ?) (? & ? & ? & ? & ? & ? & ? & ? & ?).
  split_and!; try congruence. eauto.
Qed.
#[local] Instance keys_evolve_pre : PreOrder keys_evolve.
Proof.
  split; [intros a Hw; split; [done|]; intros i k Hk; by exists k|]. intros a b c Hab Hbc Ha.
  destruct (Hab Ha) as [Hb Hk1]. destruct (Hbc Hb) as [Hc Hk2]. split; [done|]. intros i k Hk.
  destruct (Hk1 i k Hk) as (k' & Hk' & Hle). destruct (Hk2 i k' Hk') as (k'' & ? & ?).
  exists k''. split; [done|by etrans].
Qed.

Lemma keys_same (a a' : Accounts) : ac_keys a' = ac_keys a → keys_evolve a a'.
Proof. intros E [Hi Hh]. unfold keys_wf. rewrite E. split; [done|]. intros i k Hk. by exists k. Qed.

Lemma key_taken_false a id hash : key_taken a id hash = false →
  ac_keys a !! id = None ∧ ∀ i k, ac_keys a !! i = Some k → ak_hash k ≠ hash.
Proof.
  unfold key_taken. rewrite orb_false_iff, bool_decide_eq_false, eq_None_not_Some. intros [Hid Hh]. split; [done|].
  intros i k Hk E. apply not_true_iff_false in Hh. apply Hh, existsb_exists. exists k.
  split; [|by apply bool_decide_eq_true]. apply list_elem_of_In. unfold rows.
  apply elem_of_map_to_list_values. by exists i.
Qed.

#[local] Instance keys_acc_prim : AccPrim keys_evolve.
Proof.
  split; [split; [apply _|..]|].
  - intros id name w. unfold TenantCreate, get_acc, now_, put_acc, gets, modify. run_method; by apply keys_same.
  - intros key w. unfold APIKeyCreate, get_acc, now_, put_acc, gets, modify, on_acc. run_method; try reflexivity.
    intros [Hi Hh]. edestruct key_taken_false as [Hn Hne]; [eassumption|]. split; [split|]; simpl.
    + intros i k. rewrite lookup_insert_Some. intros [[<- <-]|[_ Hk]]; [done|by apply Hi].
    + intros i j k l. rewrite !lookup_insert_Some. intros [[<- <-]|[_ Hk]] [[<- <-]|[_ Hl]] E; [done| | |by eapply Hh].
      * simpl in E. by destruct (Hne j l Hl).
      * simpl in E. by destruct (Hne i k Hk).
    + intros i k Hk. exists k. split; [|reflexivity]. rewrite lookup_insert_ne; [done|]. intros <-. congruence.
  - intros x a. by apply keys_same.
  - intros x a. by apply keys_same.
  - intros clock t id w. unfold APIKeyRevoke, get_acc, put_acc, gets, modify, on_acc. run_method; try reflexivity.
    match goal with Hx : _ !! id = Some ?k0 |- _ => rename k0 into k end. intros [Hi Hh]. split; [split|]; simpl.
    + intros i k'. rewrite lookup_insert_Some. intros [[<- <-]|[_ Hk]]; [simpl; by apply Hi|by apply Hi].
    + intros i j k1 k2. rewrite !lookup_insert_Some. intros [[<- <-]|[_ Hk]] [[<- <-]|[_ Hl]] E; simpl in E; eauto.
    + intros i k' Hk. destruct (decide (i = id)) as [->|]; [|exists k'; by rewrite lookup_insert_ne].
      simplify_eq. exists (set_revoked clock k). rewrite lookup_insert_eq. split; [done|].
      split_and!; try done. intros t' Ht. simpl. by rewrite Ht.
Qed.

Lemma keys_history w w' : rtc acct_step w w' → on_acc keys_evolve w w'.
Proof. apply (acct_history_keeps keys_evolve). Qed.

Lemma key_by_hash_wf a i k : keys_wf a → ac_keys a !! i = Some k → key_by_hash a (ak_hash k) = Some k.
Proof.
  intros [Hi Hh] Hk. unfold key_by_hash. destruct (bool_filter _ _) as [|x l] eqn:E; simpl.
  - exfalso. apply (not_elem_of_nil k). rewrite <-E. apply elem_of_bool_filter. split; [by apply bool_decide_eq_true|].
    apply elem_of_map_to_list_values. by exists i.
  - assert (x ∈ bool_filter (λ y, bool_decide (ak_hash y = ak_hash k)) (rows (ac_keys a))) as Hx by (rewrite E; left).
    apply elem_of_bool_filter in Hx as [Hx%bool_decide_eq_true Hr].
    apply elem_of_map_to_list_values in Hr as [j Hj]. pose proof (Hh j i x k Hj Hk Hx). by simplify_eq.
Qed.

(** Authentication of a token whose hash is a key's. *)
Lemma Authenticate_key w i k token : keys_wf (w_acc w) → ac_keys (w_acc w) !! i = Some k → token ≠ "" →
  HashAPIKey token = ak_hash k →
  (Authenticate token w).2 = match ak_revoked_at k with
                             | Some _ => Err ErrPermissionDenied
                             | None => Ok (MkAuthIdentity (ak_tenant k) i (ak_scope k))
                             end.
Proof.
  intros Hw Hk Ht Hh. assert (GetByHash (HashAPIKey token) w = (w, Ok k)) as E.
  { unfold GetByHash, mbind, M_bind, get_acc, gets. rewrite Hh, (key_by_hash_wf _ i) by done. done. }
  unfold Authenticate. rewrite bool_decide_eq_false_2 by done. unfold mbind, M_bind, attempt. rewrite E.
  destruct Hw as [Hi _]. rewrite <-(Hi i k Hk). by destruct (ak_revoked_at k).
Qed.


(** A live key of one id stays live. *)
Definition stays_live (id : string) : relation Accounts := λ a a',
  ∀ k, ac_keys a !! id = Some k → ak_revoked_at k = None →
       ∃ k', ac_keys a' !! id = Some k' ∧ ak_revoked_at k' = None.

#[local] Instance stays_live_pre id : PreOrder (stays_live id).
Proof. split; [intros a k Hk Hr; by exists k|]. intros a b c Hab Hbc k Hk Hr. destruct (Hab k Hk Hr) as (k' & ? & ?). eauto. Qed.

#[local] Instance stays_live_core id : AccCore (stays_live id).
Proof.
  split; [apply _|..].
  - intros i name w. unfold TenantCreate, get_acc, now_, put_acc, gets, modify, on_acc. run_method; try reflexivity.
    intros k Hk Hr. by exists k.
  - intros key w. unfold APIKeyCreate, get_acc, now_, put_acc, gets, modify, on_acc. run_method; try reflexivity.
    intros k Hk Hr. edestruct key_taken_false as [Hn _]; [eassumption|]. exists k. split; [|done]. simpl.
    rewrite lookup_insert_ne; [done|]. intros <-. congruence.
  - intros x a k Hk Hr. by exists k.
  - intros x a k Hk Hr. by exists k.
Qed.

(** The requests that revoke a key: of an administrator of its tenant, and of
    an operator. *)
Definition revokes (o : acct_op) (tenant : TenantID) (id : string) : Prop :=
  match o with
  | ARevokeAPIKey who _ t key => t = tenant ∧ key = id ∧ ∃ a, who = Some a ∧ auTenant a = tenant ∧ auScope a = KeyScopeAdmin
  | AOperatorRevoke _ t key => t = tenant ∧ key = id
  | _ => False
  end.

Lemma APIKeyRevoke_other clock t id w i k : ac_keys (w_acc w) !! i = Some k → i ≠ id ∨ ak_tenant k ≠ t →
  ac_keys (w_acc (APIKeyRevoke clock t id w).1) !! i = Some k.
Proof.
  intros Hk Hne. unfold APIKeyRevoke, get_acc, put_acc, gets, modify. run_method; try done.
  match goal with Hb : bool_decide _ = true |- _ => apply bool_decide_eq_true in Hb end.
  destruct Hne as [Hne|Hne]; [by rewrite lookup_insert_ne|]. destruct (decide (i = id)) as [->|]; [congruence|].
  by rewrite lookup_insert_ne.
Qed.

(** A request for the tenant is made by an administrator of it, or refused. *)
Lemma admin_ok who t w : admin_ who t w = (w, Ok ()) ∧ (∃ a, who = Some a ∧ auTenant a = t ∧ auScope a = KeyScopeAdmin) ∨
  ∃ e, admin_ who t w = (w, Err e).
Proof.
  unfold admin_, core, requireAdmin, requireTenant, identityFrom. destruct who as [a|]; [|right; destruct w; by eexists].
  unfold mbind, M_bind, of_option, mret, M_ret, throw. destruct w as [d ac r]. simpl.
  case_bool_decide; [|right; by eexists]. case_bool_decide; [left|right; by eexists]. split; [done|]. by exists a.
Qed.

Lemma mapped_fst {A} f (m : M World A) w : (mapped f m w).1 = (m w).1.
Proof. unfold mapped, mbind, M_bind, attempt. by destruct (m w) as [w' [a|e]]. Qed.
Lemma mapped_Ok {A} f (m : M World A) w w' a : mapped f m w = (w', Ok a) → m w = (w', Ok a).
Proof. unfold mapped, mbind, M_bind, attempt. by destruct (m w) as [w'' [b|e]]; intros [= <- <-]. Qed.

Lemma revoked_by w o i k k' : ac_keys (w_acc w) !! i = Some k → ak_revoked_at k = None →
  ac_keys (w_acc (run_acct o w)) !! i = Some k' → ak_revoked_at k' ≠ None → revokes o (ak_tenant k) i.
Proof.
  intros Hk Hr Hk' Hr'. destruct (is_revoke o) eqn:Ho.
  2:{ destruct (acct_core_keeps (stays_live i) o w Ho k Hk Hr) as (k'' & ? & ?). congruence. }
  destruct o; try done; cbn [run_acct revokes] in *.
  - unfold RevokeAPIKey, mbind, M_bind in Hk'. destruct (admin_ok who id w) as [[E (a & -> & Ht & Hs)]|[e E]];
      rewrite E in Hk'; [|simpl in Hk'; congruence]. rewrite mapped_fst in Hk'.
    destruct (decide (i = key)) as [->|Hne]; [|rewrite (APIKeyRevoke_other _ _ _ _ _ k) in Hk' by auto; congruence].
    destruct (decide (ak_tenant k = id)) as [<-|Hne]; [|rewrite (APIKeyRevoke_other _ _ _ _ _ k) in Hk' by auto; congruence].
    split_and!; [done|done|]. by exists a.
  - destruct (decide (i = id)) as [->|Hne]; [|rewrite (APIKeyRevoke_other _ _ _ _ _ k) in Hk' by auto; congruence].
    destruct (decide (ak_tenant k = tenant)) as [<-|Hne]; [done|].
    rewrite (APIKeyRevoke_other _ _ _ _ _ k) in Hk' by auto. congruence.
Qed.

Lemma mintKey_ok fr t name scope w w1 info raw : mintKey fr t name scope w = (w1, Ok (info, raw)) →
  raw ≠ "" ∧ ki_scope info = scope ∧ ki_tenant info = t ∧
  ∃ k, ac_keys (w_acc w1) !! ki_id info = Some k ∧ ak_hash k = HashAPIKey raw ∧ ak_tenant k = t ∧ ak_scope k = scope ∧
       ak_revoked_at k = None.
Proof.
  unfold mintKey, GenerateAPIKey, Encrypt. destruct (frKey fr) as [b|]; [|done].
  destruct (frNonce fr) as [n|]; [|done].
  unfold APIKeyCreate, get_acc, now_, put_acc, gets, modify, register, of_result.
  unfold mbind, M_bind, mret, M_ret, throw, modify. simpl.
  destruct (key_taken _ _ _); [done|]. destruct (ac_tenants (w_acc w) !! t) as [tn|]; [|done].
  intros [= <- <- <-]. split_and!; [done|done|done|]. eexists. simpl. rewrite lookup_insert_eq. by split_and!.
Qed.

(** C22: the life of an API key.  The key an administrator of a tenant creates
    authenticates, in every later state, as that tenant with the scope that was
    asked for, until it is revoked; from then on it is refused for ever.  Only a
    request of an administrator of the same tenant, or of an operator, revokes
    it, whatever else happens to accounts and to the rest of the store. *)
Theorem key_lifecycle who fr t name scope w w1 info raw w2 :
  rtc acct_step (MkWorld empty_db no_accounts []) w → CreateAPIKey who fr t name scope w = (w1, Ok (info, raw)) →
  rtc acct_step w1 w2 →
  ∃ k, ac_keys (w_acc w2) !! ki_id info = Some k ∧
    (Authenticate raw w2).2 =
      (match ak_revoked_at k with
       | Some _ => Err ErrPermissionDenied
       | None => Ok (MkAuthIdentity t (ki_id info) (ki_scope info))
       end) ∧
    keyScopeFromProto scope = Some (ki_scope info) ∧
    (∃ a, who = Some a ∧ auTenant a = t ∧ auScope a = KeyScopeAdmin) ∧
    ∀ o k', ac_keys (w_acc (run_acct o w2)) !! ki_id info = Some k' →
      (ak_revoked_at k ≠ None → ak_revoked_at k' ≠ None) ∧
      (ak_revoked_at k = None → ak_revoked_at k' ≠ None → revokes o t (ki_id info)).
Proof.
  intros Hw Hc Hw2. destruct (keys_history _ _ Hw) as [Hwf _]; [by split|].
  unfold CreateAPIKey, mbind, M_bind in Hc. destruct (admin_ok who t w) as [[E Ha]|[e E]]; rewrite E in Hc; [|done].
  destruct (keyScopeFromProto scope) as [s|] eqn:Hs; [|done]. apply mapped_Ok in Hc.
  destruct (mintKey_ok _ _ _ _ _ _ _ _ Hc) as (Hraw & Hsc & Ht & k1 & Hk1 & Hh & Hkt & Hks & Hr).
  assert (on_acc keys_evolve w w1) as Hev.
  { pose proof (acct_op_keeps keys_evolve (ACreateAPIKey who fr t name scope) w) as Hx. cbn [run_acct] in Hx.
    unfold CreateAPIKey, mbind, M_bind in Hx. rewrite E, Hs in Hx. rewrite mapped_fst, Hc in Hx. done. }
  destruct (Hev Hwf) as [Hwf1 _]. destruct (keys_history _ _ Hw2 Hwf1) as [Hwf2 Hle].
  destruct (Hle _ _ Hk1) as (k & Hk & Hkle). exists k.
  assert (ak_tenant k = t ∧ ak_scope k = ki_scope info ∧ ak_hash k = HashAPIKey raw) as (Et & Es & Eh).
  { destruct Hkle as (_ & -> & _ & -> & _ & -> & _). by rewrite Hkt, Hks, Hsc, Hh. }
  split_and!; [done| |congruence|done|].
  - rewrite (Authenticate_key _ _ k) by done. by rewrite Et, Es.
  - intros o k' Hk'. split.
    + destruct (acct_op_keeps keys_evolve o w2 Hwf2) as [_ Hle2]. destruct (Hle2 _ _ Hk) as (k'' & Hk'' & Hkle2).
      simplify_eq. destruct (ak_revoked_at k) as [r|] eqn:Er; [|done]. intros _.
      destruct Hkle2 as (_ & _ & _ & _ & _ & _ & _ & _ & Hrev). by rewrite (Hrev _ Er).
    + intros Hn Hn'. rewrite <-Et. by eapply revoked_by.
Qed.


(** ** Credentials *)

(** Text JSON can carry. *)
Definition plain_inference (p : InferencePayload) : Prop :=
  valid_utf8 (ip_api_key p) = true ∧ valid_utf8 (ip_base_url p) = true ∧
  map_Forall (λ k v, valid_utf8 k = true ∧ valid_utf8 v = true) (ip_extra_headers p).

(** The cipher opens what it sealed, under the same nonce; JSON reads back what
    it wrote. *)
Class AeadOk : Prop := Open_Seal n p : length n = NonceSize → Open n (Seal n p) = Some p.
Class CredentialJSONOk : Prop := unmarshal_payload p : plain_inference p → unmarshalPayload (marshalPayload p) = Some p.

Lemma Decrypt_Encrypt `{!AeadOk} n p c : length n = NonceSize → Encrypt (Some n) p = Ok c → Decrypt c = Ok p.
Proof.
  intros Hn [= <-]. unfold Decrypt. rewrite length_app, (proj2 (Nat.ltb_ge _ _)) by lia.
  by rewrite take_app_length', drop_app_length', Open_Seal by done.
Qed.

Definition parsed_headers (json : string) : option (gmap string string) :=
  if bool_decide (json = "") then Some ∅ else unmarshalHeaders json.
Definition or_default (name : string) : string := if bool_decide (name = "") then "default" else name.

Lemma bind_Ok {A B} (m : M World A) (f : A → M World B) w w' b : (m ≫= f) w = (w', Ok b) →
  ∃ w1 a, m w = (w1, Ok a) ∧ f a w1 = (w', Ok b).
Proof. unfold mbind, M_bind. destruct (m w) as [w1 [a|e]]; [by exists w1, a|done]. Qed.

Lemma CredentialPut_ok t k n e w w1 u : CredentialPut t k n e w = (w1, Ok u) →
  w_redactor w1 = w_redactor w ∧ ∃ c, ac_credentials (w_acc w1) !! (t, k, n) = Some c ∧ cr_enc c = e.
Proof.
  unfold CredentialPut, get_acc, now_, put_acc, gets, modify, mbind, M_bind, mret, M_ret, throw.
  destruct (ac_tenants (w_acc w) !! t); [|done]. intros [= <-]. split; [done|]. eexists.
  cbn [w_acc ac_credentials with_credentials]. rewrite lookup_insert_eq. done.
Qed.
Lemma CredentialGet_ok t k n w w1 c : CredentialGet t k n w = (w1, Ok c) →
  w1 = w ∧ ac_credentials (w_acc w) !! (t, k, n) = Some c.
Proof.
  unfold CredentialGet, get_acc, gets, of_option, mbind, M_bind, mret, M_ret, throw. 
  destruct (ac_credentials (w_acc w) !! (t, k, n)); [|done]. by intros [= <- <-].
Qed.

Lemma PutCredential_ok who n t kind name key url hj w w1 info :
  PutCredential who n t kind name key url hj w = (w1, Ok info) →
  validCredentialKind kind = true ∧ key ≠ "" ∧
  ∃ headers enc c, parsed_headers hj = Some headers ∧ Encrypt n (marshalPayload (MkInferencePayload key url headers)) = Ok enc ∧
    ac_credentials (w_acc w1) !! (t, kind, or_default name) = Some c ∧ cr_enc c = enc ∧
    w_redactor w1 = Register (header_values headers) (Register [key] (w_redactor w)).
Proof.
  unfold PutCredential. intros (w0 & [] & E & Hp)%bind_Ok.
  destruct (admin_ok who t w) as [[E' _]|[e E']]; rewrite E' in E; [injection E as <-|done].
  destruct (validCredentialKind kind); [|done]. cbn [negb] in Hp.
  destruct (bool_decide (key = "")) eqn:Hk; [done|]. apply bool_decide_eq_false in Hk.
  apply bind_Ok in Hp as (w2 & ? & [= <-] & Hp). apply bind_Ok in Hp as (w3 & headers & Hh & Hp).
  assert (parsed_headers hj = Some headers ∧ w3 = MkWorld (w_db w) (w_acc w) (Register [key] (w_redactor w))) as [Hph ->].
  { unfold parsed_headers. destruct (bool_decide (hj = "")); [by injection Hh as <- <-|].
    unfold of_option in Hh. destruct (unmarshalHeaders hj); [by injection Hh as <- <-|done]. }
  apply bind_Ok in Hp as (w4 & ? & [= <-] & Hp). apply bind_Ok in Hp as (w5 & enc & He%mapped_Ok & Hp).
  injection He as <- He. apply bind_Ok in Hp as (w6 & u & Hput%mapped_Ok & Hp).
  apply CredentialPut_ok in Hput as (Hr & c & Hc & Henc).
  apply bind_Ok in Hp as (w7 & c' & Hget%mapped_Ok & Hp). apply CredentialGet_ok in Hget as [-> _].
  injection Hp as <- <-. split_and!; [done|done|]. exists headers, enc, c. by split_and!.
Qed.

Lemma kind_of_provider kind provider : InferenceCredentialKind provider = kind → validCredentialKind kind = true →
  kind ≠ "" ∧ provider ∈ ["openai"; "anthropic"; "bedrock"].
Proof.
  intros <-. unfold InferenceCredentialKind. repeat case_bool_decide; subst; try done; intros _; (split; [done|]); set_solver.
Qed.

(** C25: a credential an administrator stores is the one the model client is
    built with: resolving a model of the vendor under the credential's name, in
    any later state in which the credential was not rotated or deleted, decrypts
    the payload and yields the key, the base URL and the headers as they were
    given, and both the process that stored it and the one that uses it redact
    every encoding of the key. *)
Theorem credential_roundtrip `{!AeadOk} `{!CredentialJSONOk} who n t kind name key url hj headers w w1 info w2 provider model fb :
  length n = NonceSize → parsed_headers hj = Some headers → plain_inference (MkInferencePayload key url headers) →
  PutCredential who (Some n) t kind name key url hj w = (w1, Ok info) →
  InferenceCredentialKind provider = kind →
  ac_credentials (w_acc w2) !! (t, kind, or_default name) = ac_credentials (w_acc w1) !! (t, kind, or_default name) →
  ∃ w3, ResolveModel t (MkModelConfig provider model name fb) w2 =
      (w3, Ok (Resolved (MkProviderOptions provider key (if bool_decide (headers = ∅) then None else Some headers)
                           (if bool_decide (url = "") then None else Some url)) model)) ∧
    w_db w3 = w_db w2 ∧ w_acc w3 = w_acc w2 ∧
    ∀ form, form ∈ encodings key → (6 ≤ slen key)%Z → (6 ≤ slen form)%Z → form ∈ w_redactor w1 ∧ form ∈ w_redactor w3.
Proof.
  intros Hn Hh Hpl Hput Hkind Hsame. apply PutCredential_ok in Hput as (Hv & Hne & headers' & enc & c & Hh' & He & Hc & Henc & Hr).
  simplify_eq. destruct (kind_of_provider _ _ eq_refl Hv) as [Hk Hp]. rewrite Hc in Hsame.
  assert (CredentialGet t (InferenceCredentialKind provider) (or_default name) w2 = (w2, Ok c)) as Hget.
  { unfold CredentialGet, get_acc, gets, of_option, mbind, M_bind. by rewrite Hsame. }
  eexists. split.
  - unfold ResolveModel. rewrite bool_decide_eq_false_2 by done. fold (or_default name).
    unfold mbind, M_bind, attempt. rewrite Hget. unfold of_result. rewrite (Decrypt_Encrypt _ _ _ Hn He).
    unfold of_option. rewrite unmarshal_payload by done. unfold register, modify, mret, M_ret.
    unfold buildProvider. rewrite bool_decide_eq_true_2 by done. done.
  - cbn [w_db w_acc w_redactor]. split_and!; [done|done|]. intros form Hf Hlk Hlf. rewrite Hr.
    split; apply Register_mono, Register_in with key; try done; by left.
Qed.


(** ** Tenants do not reach each other *)

(** The rows of tenant [u] are the same. *)
Definition same_for (u : TenantID) : relation Accounts := λ a a',
  ac_tenants a' !! u = ac_tenants a !! u ∧
  (∀ i k, ak_tenant k = u → ac_keys a' !! i = Some k ↔ ac_keys a !! i = Some k) ∧
  (∀ kind name, ac_credentials a' !! (u, kind, name) = ac_credentials a !! (u, kind, name)) ∧
  (∀ i r, pp_tenant r = u → ac_periodic a' !! i = Some r ↔ ac_periodic a !! i = Some r).

#[local] Instance same_for_pre u : PreOrder (same_for u).
Proof.
  split; [by intros a|]. intros a b c (T & K & C & P) (T' & K' & C' & P').
  split_and!; [congruence| |congruence|]; intros i x Hx; [by rewrite K', K|by rewrite P', P].
Qed.

Section confined.
Context (u : TenantID).
Let R := on_acc (same_for u).

Ltac confined_method := intros w; unfold R, on_acc, get_acc, now_, put_acc, gets, modify; run_method; try reflexivity.

Lemma confined_TenantCreate id name : id ≠ u → keeps R (TenantCreate id name).
Proof. intros Hne. unfold TenantCreate. confined_method. split_and!; try done. simpl. by rewrite lookup_insert_ne. Qed.
Lemma confined_APIKeyCreate key : ak_tenant key ≠ u → keeps R (APIKeyCreate key).
Proof.
  intros Hne. unfold APIKeyCreate. confined_method. edestruct key_taken_false as [Hn _]; [eassumption|].
  split_and!; try done. intros i k Hk. cbn [ac_keys with_keys]. rewrite lookup_insert_Some. split; [|intros Hi; right].
  - intros [[_ <-]|[_ ?]]; [simpl in *; congruence|done].
  - split; [|done]. intros <-. congruence.
Qed.
Lemma confined_APIKeyRevoke clock t id : t ≠ u → keeps R (APIKeyRevoke clock t id).
Proof.
  intros Hne. unfold APIKeyRevoke. confined_method.
  match goal with Hb : bool_decide _ = true |- _ => apply bool_decide_eq_true in Hb end.
  split_and!; try done. intros i k Hk. cbn [ac_keys with_keys]. rewrite lookup_insert_Some. split; [|intros Hi; right].
  - intros [[_ <-]|[_ ?]]; [simpl in *; congruence|done].
  - split; [|done]. intros <-. congruence.
Qed.
Lemma confined_CredentialPut t k n e : t ≠ u → keeps R (CredentialPut t k n e).
Proof.
  intros Hne. unfold CredentialPut. confined_method; split_and!; try done; intros kind name; cbn [ac_credentials with_credentials];
    rewrite lookup_insert_ne by congruence; done.
Qed.
Lemma confined_CredentialDelete t k n : t ≠ u → keeps R (CredentialDelete t k n).
Proof.
  intros Hne. unfold CredentialDelete. confined_method. split_and!; try done; intros kind name; cbn [ac_credentials with_credentials].
  rewrite lookup_delete_ne by congruence. done.
Qed.
Lemma confined_PeriodicCreate t p : t ≠ u → keeps R (PeriodicCreate t p).
Proof.
  intros Hne. unfold PeriodicCreate. confined_method. split_and!; try done. intros i r Hr. cbn [ac_periodic with_periodic].
  rewrite lookup_insert_Some. split; [|intros Hi; right].
  - intros [[_ <-]|[_ ?]]; [simpl in *; congruence|done].
  - split; [|done]. intros <-. congruence.
Qed.
Lemma confined_SetEnabled t id v : t ≠ u → keeps R (SetEnabled t id v).
Proof.
  intros Hne. unfold SetEnabled, periodic_update, periodic_of. confined_method.
  match goal with Hx : option_bind _ _ _ _ = Some ?r0 |- _ => apply bind_Some in Hx as (r1 & Hr1 & Hx) end.
  case_bool_decide as Ht; [|done]. simplify_eq. split_and!; try done. intros i r Hr. cbn [ac_periodic with_periodic].
  rewrite lookup_insert_Some. split; [|intros Hi; right].
  - intros [[_ <-]|[_ ?]]; [simpl in *; congruence|done].
  - split; [|done]. intros <-. congruence.
Qed.
Lemma confined_core {A} (m : M DB A) : keeps R (core m).
Proof. intros w. unfold core, R, on_acc. destruct (m (w_db w)). simpl. reflexivity. Qed.
Lemma confined_register vs : keeps R (register vs).
Proof. intros w. unfold R, on_acc. simpl. reflexivity. Qed.
Lemma confined_InTx {A} (m : M World A) : keeps R m → keeps R (InTx m).
Proof.
  intros Hm w. specialize (Hm w). unfold InTx, R, on_acc in *. destruct (m w) as [w' [a|e]]; simpl in *; [done|reflexivity].
Qed.
#[local] Instance R_pre : PreOrder R.
Proof. apply on_acc_pre, _. Qed.
Lemma confined_mapped {A} f (m : M World A) : keeps R m → keeps R (mapped f m).
Proof. intros Hm w. rewrite mapped_fst. apply Hm. Qed.
Hint Resolve confined_TenantCreate confined_APIKeyCreate confined_APIKeyRevoke confined_CredentialPut confined_CredentialDelete
  confined_PeriodicCreate confined_SetEnabled confined_core confined_register confined_InTx confined_mapped R_pre : keeps.
Ltac solve_confined :=
  repeat first [ solve [eauto 6 with keeps typeclass_instances] |
    match goal with
    | |- keeps _ (mapped _ _) => apply confined_mapped
    | |- keeps _ (InTx _) => apply confined_InTx
    | |- keeps _ (let '_ := ?x in _) => destruct x
    | _ => keeps_step
    end; try apply _ ].

Lemma confined_mint fr t name scope : t ≠ u → keeps R (mintKey fr t name scope).
Proof. intros Hne. unfold mintKey. solve_confined. Qed.
Hint Resolve confined_mint : keeps.

(** After the check for an administrator of [t]. *)
Lemma after_admin {A} a t (f : unit → M World A) : (auTenant a = t → keeps R (f ())) → keeps R (admin_ (Some a) t ≫= f).
Proof.
  intros Hf w. unfold mbind, M_bind. destruct (admin_ok (Some a) t w) as [[E (b & [= <-] & Ht & _)]|[e E]]; rewrite E.
  - by apply Hf.
  - reflexivity.
Qed.

Lemma resolved_tenant a session d x : (resolveSessionTenant (Some a) session d).2 = Ok x → x.1 = auTenant a.
Proof.
  unfold resolveSessionTenant, identityFrom, stored, of_option. unfold mbind, M_bind, attempt, mret, M_ret, throw. cbn.
  destruct (SessionTenant session d) as [d' [t|e]]; cbn; [|done]. case_bool_decide as E; cbn; [|done]. by intros [= <-].
Qed.

Lemma after_session {A} a session (f : TenantID * authContext → M World A) :
  (∀ b, keeps R (f (auTenant a, b))) → keeps R (core (resolveSessionTenant (Some a) session) ≫= f).
Proof.
  intros Hf. apply (keeps_bind_val _ (λ x, x.1 = auTenant a)); [apply confined_core| |].
  - intros w x Hx. unfold core in Hx. destruct (resolveSessionTenant (Some a) session (w_db w)) as [d r] eqn:E.
    apply (resolved_tenant a session (w_db w)). by rewrite E.
  - intros [t b] Ht. simpl in Ht. subst t. apply Hf.
Qed.

(** What each service may touch. *)
Lemma confined_CreateTenant who t fr name : t ≠ u → keeps R (CreateTenant who t fr name).
Proof. intros Hne. unfold CreateTenant, who_, TenantGet, get_acc. solve_confined. Qed.
Lemma confined_CreateAPIKey a fr t name scope : auTenant a ≠ u → keeps R (CreateAPIKey (Some a) fr t name scope).
Proof. intros Hne. apply after_admin. intros <-. solve_confined. Qed.
Lemma confined_RevokeAPIKey a clock t key : auTenant a ≠ u → keeps R (RevokeAPIKey (Some a) clock t key).
Proof. intros Hne. apply after_admin. intros <-. solve_confined. Qed.
Lemma confined_PutCredential a n t kind name key url h : auTenant a ≠ u → keeps R (PutCredential (Some a) n t kind name key url h).
Proof. intros Hne. apply after_admin. intros <-. unfold CredentialGet, get_acc. solve_confined. Qed.
Lemma confined_DeleteCredential a t kind name : auTenant a ≠ u → keeps R (DeleteCredential (Some a) t kind name).
Proof. intros Hne. apply after_admin. intros <-. solve_confined. Qed.
Lemma confined_PutPeriodic a fresh clock session run schedule prompt : auTenant a ≠ u →
  keeps R (PutPeriodicPrompt (Some a) fresh clock session run schedule prompt).
Proof. intros Hne. apply after_session. intros b. cbv beta iota zeta. solve_confined. Qed.
Lemma confined_SetPeriodic a id enabled : auTenant a ≠ u → keeps R (SetPeriodicPromptEnabled (Some a) id enabled).
Proof.
  intros Hne. apply (keeps_bind_val _ (λ x, x = a)); [apply confined_core| |].
  - intros w x Hx. unfold who_, core, identityFrom, of_option, mret, M_ret in Hx. by injection Hx as <-.
  - intros x ->. unfold PeriodicGetForUpdate, get_acc. solve_confined.
Qed.

(** A request that fails leaves nothing of its transaction. *)
Lemma CreateTenant_taken a t fr name w : is_Some (ac_tenants (w_acc w) !! t) →
  w_acc (CreateTenant (Some a) t fr name w).1 = w_acc w.
Proof.
  intros [tn Htn]. assert (TenantCreate t name w = (w, Err ErrAlreadyExists)) as E.
  { unfold TenantCreate, get_acc, now_, gets, mbind, M_bind. by rewrite Htn. }
  unfold CreateTenant, mbind, M_bind at 1. unfold who_, core, identityFrom, of_option, mret, M_ret. cbn [w_db].
  destruct w as [d ac r]. cbn [w_db w_acc w_redactor]. destruct (negb _); [done|]. case_bool_decide; [done|].
  unfold mapped, InTx, attempt, mbind, M_bind. cbv beta iota. by rewrite E.
Qed.

End confined.

(** The caller of a request. *)
Definition caller (o : acct_op) : option (option authContext) :=
  match o with
  | ACreateTenant who _ _ _ | ACreateAPIKey who _ _ _ _ | ARevokeAPIKey who _ _ _ | APutCredential who _ _ _ _ _ _ _
  | ADeleteCredential who _ _ _ | APutPeriodic who _ _ _ _ _ _ | ASetPeriodic who _ _ => Some who
  | _ => None
  end.

(** C23: an account request changes nothing of a tenant other than its caller's:
    not the tenant, not its API keys, credentials or periodic prompts, and a
    request without an identity changes no account table at all. *)
Theorem accounts_confined o w who : caller o = Some who →
  match who with
  | None => w_acc (run_acct o w) = w_acc w
  | Some a => ∀ u, u ≠ auTenant a → is_Some (ac_tenants (w_acc w) !! u) → same_for u (w_acc w) (w_acc (run_acct o w))
  end.
Proof.
  intros Hc. destruct who as [a|].
  - intros u Hu Hex. assert (auTenant a ≠ u) as Hne by congruence. destruct o; try done; injection Hc as ->; cbn [run_acct].
    + destruct (decide (tenantID = u)) as [->|?]; [by rewrite CreateTenant_taken|]. by apply (confined_CreateTenant u).
    + by apply (confined_CreateAPIKey u).
    + by apply (confined_RevokeAPIKey u).
    + by apply (confined_PutCredential u).
    + by apply (confined_DeleteCredential u).
    + by apply (confined_PutPeriodic u).
    + by apply (confined_SetPeriodic u).
  - destruct o; try done; injection Hc as ->; cbn [run_acct]; by destruct w.
Qed.

End spec.

(** ** A concrete history *)

Module AccountDemo.

#[global] Instance sha : Sha256 := bytes_of.
#[global] Instance aead : Aead := {| NonceSize := 1; Seal := λ n p, n ++ p; Open := λ n c, Some (drop (length n) c) |}.
#[global] Instance aead_ok : AeadOk.
Proof. intros n p Hn. simpl. by rewrite drop_app_length. Qed.
#[global] Instance dur_text : DurationText := λ z, pretty z.
#[global] Instance durations : Durations := ParseInt.

#[global] Instance payload_eq_dec : EqDecision InferencePayload.
Proof. solve_decision. Defined.
#[global] Instance payload_countable : Countable InferencePayload :=
  inj_countable' (λ p, (ip_api_key p, ip_base_url p, ip_extra_headers p)) (λ '(k, u, h), MkInferencePayload k u h) ltac:(by intros []).
#[global] Instance json_ : CredentialJSON :=
  {| unmarshalHeaders := λ _, None; marshalPayload := λ p, [Z.pos (encode p)];
     unmarshalPayload := λ l, match l with [Z.pos n] => decode n | _ => None end |}.
#[global] Instance json_ok : CredentialJSONOk.
Proof. intros p _. simpl. apply decode_encode. Qed.

Definition ops : option authContext := Some (MkAuthContext "ops" "k0" "admin" (MkActor "service" "k0" "")).
Definition owner : option authContext := Some (MkAuthContext "acme" "k1" "admin" (MkActor "service" "k1" "")).
Definition fresh_key (id : string) (b : Z) : Fresh := MkFresh id (Some (replicate 32 b)) (Some [b]).

Definition empty_world : World := MkWorld empty_db no_accounts [].
Definition create_acme : acct_op := ACreateTenant ops "acme" (fresh_key "k1" 17) "Acme".
Definition w_acme : World := run_acct create_acme empty_world.
Definition key2 : World * result (APIKeyInfo * string) := CreateAPIKey owner (fresh_key "k2" 34) "acme" "ci" (Some false) w_acme.
Definition info2 : APIKeyInfo := match key2.2 with Ok (i, _) => i | Err _ => MkAPIKeyInfo "" "" "" "" "" 0 None end.
Definition raw2 : string := match key2.2 with Ok (_, r) => r | Err _ => "" end.

Lemma key_lifecycle_witness :
  (∃ k, ac_keys (w_acc (run_acct (ARevokeAPIKey owner 9 "acme" "k2") key2.1)) !! "k2" = Some k ∧
    (Authenticate raw2 (run_acct (ARevokeAPIKey owner 9 "acme" "k2") key2.1)).2 =
      match ak_revoked_at k with
      | Some _ => Err ErrPermissionDenied
      | None => Ok (MkAuthIdentity "acme" "k2" "sessions")
      end) ∧
  (Authenticate raw2 key2.1).2 = Ok (MkAuthIdentity "acme" "k2" "sessions") ∧
  (Authenticate raw2 (run_acct (ARevokeAPIKey owner 9 "acme" "k2") key2.1)).2 = Err ErrPermissionDenied.
Proof.
  split; [|split; vm_compute; reflexivity].
  destruct (key_lifecycle owner (fresh_key "k2" 34) "acme" "ci" (Some false) w_acme key2.1 info2 raw2
    (run_acct (ARevokeAPIKey owner 9 "acme" "k2") key2.1)) as (k & Hk & Ha & _).
  - apply rtc_once. by exists create_acme.
  - vm_compute. reflexivity.
  - apply rtc_once. by exists (ARevokeAPIKey owner 9 "acme" "k2").
  - exists k. split; [exact Hk|exact Ha].
Defined.

Definition put_openai : World * result CredentialInfo :=
  PutCredential owner (Some [5]%Z) "acme" CredentialKindOpenAI "" "sk-secret-key" "" "" w_acme.
Definition openai_info : CredentialInfo := match put_openai.2 with Ok i => i | Err _ => MkCredentialInfo "" "" 0 0 end.

Lemma credential_roundtrip_witness :
  ∃ w3, ResolveModel "acme" (MkModelConfig "openai" "gpt" "" []) put_openai.1 =
      (w3, Ok (Resolved (MkProviderOptions "openai" "sk-secret-key" None None) "gpt")).
Proof.
  destruct (credential_roundtrip owner [5]%Z "acme" CredentialKindOpenAI "" "sk-secret-key" "" "" ∅ w_acme put_openai.1
    openai_info put_openai.1 "openai" "gpt" []) as (w3 & Hr & _).
  - reflexivity.
  - reflexivity.
  - split_and!; [reflexivity|reflexivity|]. apply map_Forall_empty.
  - vm_compute. reflexivity.
  - reflexivity.
  - reflexivity.
  - exists w3. exact Hr.
Defined.

Lemma accounts_confined_witness :
  caller (ARevokeAPIKey ops 9 "acme" "k1") = Some ops ∧
  same_for "acme" (w_acc w_acme) (w_acc (run_acct (ARevokeAPIKey ops 9 "acme" "k1") w_acme)).
Proof.
  split; [reflexivity|]. apply (accounts_confined (ARevokeAPIKey ops 9 "acme" "k1") w_acme ops).
  - reflexivity.
  - discriminate.
  - vm_compute. eauto.
Defined.

End AccountDemo.
