(* ===== verification/AdminCommands.v ===== *)
(** * The operator's commands (package [admin/command])

    [admin/command/engine.go]: the engine that authorises, rate-limits, previews,
    applies and audits a command, and its eighteen commands.

    The engine works on the tables of the core ([World]), the audit table, the
    River queue and its own counters ([AdminWorld]).  A [map[string]any] is a
    finite map of JSON values; a nil map is [None].  The token bucket counts
    thousand millionths of a token, so that refilling is exact; the float
    arithmetic of the code is not modelled.  The clock and the id of the audit
    row are arguments.  An insert into the audit table fails on a taken
    idempotency key only.

    Parameters: [River], the job operations of the River client;
    [PreviewDigest], the hex SHA-256 of the JSON of command, targets and summary;
    [EvidenceText], the JSON text of a bundle and the database's preview of a
    payload. *)
From S2P Require Import Prelude Policy Domain Text Store StoreRuns EventLog Loop Waits Tools Api ResourceStore OperatorTx ResourceWork Strings Redact AdminQuery AdminAuthz Accounts.

(** ** Data *)

Definition summary : Type := gmap string json.

Record Flags := MkFlags { flReveal : bool; flTerminate : bool; flSuspend : bool; flDisconnect : bool }.

(** Which optional dependencies are set, and the limits. *)
Record Deps := MkDeps {
  dpRiver : bool; dpEnqueue : bool; dpResources : bool; dpKeyring : bool; dpBuild : string; dpFlags : Flags;
  dpRateLimit : Z; dpMaxConcurrent : Z;
}.

Record Meta := MkMeta { mtOperator : Operator; mtRequestID : string; mtSourceIP : string; mtReauthOK : bool }.

Record CommandOptions := MkOptions { coDryRun : bool; coReason : string; coIdempotencyKey : string; coPreviewHash : string }.
Definition no_options : CommandOptions := MkOptions false "" "" "".

Inductive cmd_err :=
  | errStalePreview | errDenied | errRateLimited | errBusy | errRevealDisabled | errReauthRequired | errDisabled
  | errOther (e : err).

Record Result := MkResult {
  rsDryRun : bool; rsPreviewHash : string; rsBefore : option summary; rsAfter : option summary; rsEffects : list string;
  rsOutcome : string; rsMessage : string; rsAuditID : string; rsReplay : bool; rsEvidence : string; rsPlaintext : string;
  rsExpires : time;
}.

(** A row of [admin_audit_events]; [None] is a null idempotency key. *)
Record AuditRow := MkAuditRow {
  auID : string; auTs : time; auOperatorID : string; auOperatorRole : string; auRequestID : string; auCommand : string;
  auTargets : summary; auReason : string; auPreviewHash : string; auBefore : option summary; auAfter : option summary;
  auResult : string; auError : string; auSourceIP : string; auBuild : string; auIdempotency : option string;
}.

(** ** The world of the engine *)

Record AdminWorld (Q : Type) := MkAdminWorld {
  aw_world : World; aw_audit : list AuditRow; aw_river : Q; aw_tokens : Z; aw_lastFill : time; aw_inflight : Z;
}.
Arguments MkAdminWorld {Q}. Arguments aw_world {Q}. Arguments aw_audit {Q}. Arguments aw_river {Q}.
Arguments aw_tokens {Q}. Arguments aw_lastFill {Q}. Arguments aw_inflight {Q}.

Record JobInfo := MkJobInfo { jiState : string; jiAttempt : Z; jiKind : string }.
Class River (Q : Type) := {
  JobGet : Z → M Q JobInfo;
  JobRetry : Z → M Q JobInfo;
  JobCancel : Z → M Q JobInfo;
}.

Class PreviewDigest := preview_digest : string → summary → summary → string.
Class EvidenceText := { json_text : json → string; payload_preview : payload → string }.

(** What a command's body returns. *)
Record extraOut := MkExtra { xoEvidence : string; xoPlaintext : string; xoExpires : time }.
Record Exec := MkExec {
  xBefore : option summary; xAfter : option summary; xEffects : list string; xExtra : option extraOut; xErr : option cmd_err;
}.

Section engine.
Context {Q : Type} `{PreviewDigest}.
Notation AW := (AdminWorld Q).

Definition with_world (w : World) (a : AW) : AW :=
  MkAdminWorld w (aw_audit a) (aw_river a) (aw_tokens a) (aw_lastFill a) (aw_inflight a).
Definition with_audit (l : list AuditRow) (a : AW) : AW :=
  MkAdminWorld (aw_world a) l (aw_river a) (aw_tokens a) (aw_lastFill a) (aw_inflight a).
Definition with_river (q : Q) (a : AW) : AW :=
  MkAdminWorld (aw_world a) (aw_audit a) q (aw_tokens a) (aw_lastFill a) (aw_inflight a).
Definition with_bucket (tokens : Z) (last : time) (inflight : Z) (a : AW) : AW :=
  MkAdminWorld (aw_world a) (aw_audit a) (aw_river a) tokens last inflight.

Definition on_world {A} (m : M World A) : M AW A := λ a, let '(w, r) := m (aw_world a) in (with_world w a, r).
Definition on_core {A} (m : M DB A) : M AW A := on_world (core m).
Definition on_river {A} (m : M Q A) : M AW A := λ a, let '(q, r) := m (aw_river a) in (with_river q a, r).

(** [New] *)
Definition rate (e : Deps) : Z := if bool_decide (dpRateLimit e ≤ 0)%Z then 20 else dpRateLimit e.
Definition max_concurrent (e : Deps) : Z := if bool_decide (dpMaxConcurrent e ≤ 0)%Z then 8 else dpMaxConcurrent e.
Definition one_token : Z := 1000000000.
Definition New (e : Deps) (now : time) (w : World) (audit : list AuditRow) (q : Q) : AW :=
  MkAdminWorld w audit q (rate e * one_token) now 0.

(** ** The token bucket *)

Definition acquire (e : Deps) (now : time) (a : AW) : AW * option cmd_err :=
  let elapsed := (now - aw_lastFill a)%Z in
  let tokens := Z.min (aw_tokens a + elapsed * rate e) (rate e * one_token) in
  if bool_decide (tokens < one_token)%Z then (with_bucket tokens now (aw_inflight a) a, Some errRateLimited)
  else if bool_decide (max_concurrent e ≤ aw_inflight a)%Z then (with_bucket tokens now (aw_inflight a) a, Some errBusy)
  else (with_bucket (tokens - one_token) now (aw_inflight a + 1) a, None).

Definition release (a : AW) : AW :=
  if bool_decide (0 < aw_inflight a)%Z then with_bucket (aw_tokens a) (aw_lastFill a) (aw_inflight a - 1) a else a.

(** ** Preview and audit *)

Definition previewHash (command : string) (targets : summary) (before : option summary) : string :=
  preview_digest command targets (default ∅ before).

Definition cmd_err_text (e : cmd_err) : string :=
  match e with
  | errStalePreview => "stale preview hash" | errDenied => "permission denied" | errRateLimited => "rate limited"
  | errBusy => "too many concurrent commands" | errRevealDisabled => "secret reveal is disabled"
  | errReauthRequired => "re-authentication required" | errDisabled => "command disabled by configuration"
  | errOther e => err_text e
  end.

Definition succeeded (result : string) : bool := bool_decide (result = "ok") || bool_decide (result = "already_applied").

Definition lookup_row (key : string) (l : list AuditRow) : option AuditRow :=
  head (bool_filter (λ r, bool_decide (auIdempotency r = Some key) && succeeded (auResult r)) l).

Definition lookupIdempotent (key : string) (a : AW) : option Result :=
  r ← lookup_row key (aw_audit a);
  Some (MkResult false (auPreviewHash r) (auBefore r) (auAfter r) [] (auResult r)
          (auError r) (auID r) false "" "" 0).

Definition key_used (key : string) (l : list AuditRow) : bool := existsb (λ r, bool_decide (auIdempotency r = Some key)) l.

(** The row an attempt leaves. *)
Definition audit_row (e : Deps) (meta : Meta) (ts : time) (aid command : string) (targets : summary) (opts : option CommandOptions)
    (before after : option summary) (result errText idem : string) : AuditRow :=
  let reason := from_option coReason "" opts in
  let preview := match opts with
                 | None => ""
                 | Some o => if bool_decide (coPreviewHash o = "") then previewHash command targets before else coPreviewHash o
                 end in
  MkAuditRow aid ts (opID (mtOperator meta)) (opRole (mtOperator meta)) (mtRequestID meta) command targets reason preview before after
    result errText (mtSourceIP meta) (dpBuild e) (if bool_decide (idem = "") then None else Some idem).

Definition writeAudit (e : Deps) (meta : Meta) (aid command : string) (targets : summary) (opts : option CommandOptions)
    (before after : option summary) (result errText idem : string) (a : AW) : AW * option string :=
  if negb (bool_decide (idem = "")) && key_used idem (aw_audit a)
  then match lookupIdempotent idem a with Some prev => (a, Some (rsAuditID prev)) | None => (a, None) end
  else (with_audit (aw_audit a ++ [audit_row e meta (db_now (w_db (aw_world a))) aid command targets opts before after result errText
                                     idem]) a, Some aid).

(** ** Running a command *)

(** A body's error before it has a summary returns four nils and the error. *)
Definition run_exec (m : M AW Exec) (a : AW) : AW * Exec :=
  match m a with
  | (a', Ok x) => (a', x)
  | (a', Err e) => (a', MkExec None None [] None (Some (errOther e)))
  end.

Definition applied (after : option summary) : bool :=
  match after with Some m => match m !! "already_applied" with Some (JBool b) => b | _ => false end | None => false end.

(** The part of [Run] that [release] follows when the command is not a dry run. *)
Definition run_body (e : Deps) (meta : Meta) (command : string) (opts : CommandOptions) (targets : summary) (aid : string)
    (idem : string) (exec : bool → M AW Exec) (a : AW) : AW * (option Result * option cmd_err) :=
  let dry := coDryRun opts in
  let '(a1, x) := run_exec (exec true) a in
  match xErr x with
  | Some er =>
      let '(a2, _) := writeAudit e meta aid command targets (Some opts) (xBefore x) (xAfter x) "failed" (cmd_err_text er) "" a1 in
      (a2, (None, Some er))
  | None =>
      let hash := previewHash command targets (xBefore x) in
      if dry then
        let '(a2, id) := writeAudit e meta aid command targets (Some opts) (xBefore x) (xBefore x) "dry_run" "" "" a1 in
        (a2, (Some (MkResult true hash (xBefore x) (xAfter x) (xEffects x) "dry_run" "" (default "" id) false
                      (from_option xoEvidence "" (xExtra x)) "" (from_option xoExpires 0%Z (xExtra x))), None))
      else if negb (bool_decide (coPreviewHash opts = hash)) then
        let '(a2, _) := writeAudit e meta aid command targets (Some opts) (xBefore x) None "failed" (cmd_err_text errStalePreview) "" a1 in
        (a2, (None, Some errStalePreview))
      else
        let '(a2, y) := run_exec (exec false) a1 in
        match xErr y with
        | Some er =>
            let '(a3, _) := writeAudit e meta aid command targets (Some opts) (xBefore y) (xAfter y) "failed" (cmd_err_text er) "" a2 in
            (a3, (None, Some er))
        | None =>
            let outcome := if applied (xAfter y) then "already_applied" else "ok" in
            let res := λ id, MkResult false hash (xBefore y) (xAfter y) (xEffects y) outcome "" id false
                         (from_option xoEvidence (from_option xoEvidence "" (xExtra x)) (xExtra y))
                         (from_option xoPlaintext "" (xExtra y))
                         (from_option xoExpires (from_option xoExpires 0%Z (xExtra x)) (xExtra y)) in
            match writeAudit e meta aid command targets (Some opts) (xBefore y) (xAfter y) outcome "" idem a2 with
            | (a3, Some id) => (a3, (Some (res id), None))
            | (a3, None) => (a3, (Some (res ""), Some (errOther (ErrorText "command applied but audit failed"))))
            end
        end
  end.

Definition Run (e : Deps) (meta : Meta) (now : time) (aid command : string) (opts : option CommandOptions) (targets : summary)
    (exec : bool → M AW Exec) (a : AW) : AW * (option Result * option cmd_err) :=
  if negb (Can (opRole (mtOperator meta)) command) then
    let '(a', _) := writeAudit e meta aid command targets opts None None "denied" (cmd_err_text errDenied) "" a in
    (a', (None, Some errDenied))
  else
    let opts := default no_options opts in
    let idem := TrimSpace (coIdempotencyKey opts) in
    if coDryRun opts then run_body e meta command opts targets aid idem exec a
    else if bool_decide (TrimSpace (coReason opts) = "") then (a, (None, Some (errOther (ErrorText "reason is required"))))
    else if bool_decide (idem = "") then (a, (None, Some (errOther (ErrorText "idempotency_key is required"))))
    else match lookupIdempotent idem a with
         | Some p => (a, (Some (MkResult (rsDryRun p) (rsPreviewHash p) (rsBefore p) (rsAfter p) (rsEffects p) (rsOutcome p)
                                  (rsMessage p) (rsAuditID p) true (rsEvidence p) (rsPlaintext p) (rsExpires p)), None))
         | None =>
             match acquire e now a with
             | (a1, Some er) => (a1, (None, Some er))
             | (a1, None) => let '(a2, r) := run_body e meta command opts targets aid idem exec a1 in (release a2, r)
             end
         end.


(** ** Bodies *)

Notation body := (M AW Exec).

Definition preview (before : summary) (effects : list string) : body := mret (MkExec (Some before) (Some before) effects None None).
Definition done_ (before after : summary) (effects : list string) : body := mret (MkExec (Some before) (Some after) effects None None).
Definition refuse (er : cmd_err) : body := mret (MkExec None None [] None (Some er)).
Definition fails (before : summary) (effects : list string) (er : cmd_err) : body :=
  mret (MkExec (Some before) None effects None (Some er)).

(** [if err != nil { return before, nil, effects, nil, err }] *)
Definition or_fail {A} (before : summary) (effects : list string) (m : M AW A) (k : A → body) : body :=
  r ← attempt m; match r with Ok x => k x | Err er => fails before effects (errOther er) end.

(** [afterRun, _ := e.loadRun(...)]: the zero value stands for an error, which
    cannot occur here: no statement deletes a run or a resource. *)
Definition or_zero {A} (zero : A) (m : M AW A) : M AW A :=
  r ← attempt m; mret (match r with Ok x => x | Err _ => zero end).

Definition zero_run : AgentRun := new_run "" "" "" (MkActor "" "" "") (MkModelConfig "" "" "" []) "" DefaultRunPolicy.
Definition zero_resource : Resource :=
  MkResource "" "" "" "" "" ResourceRequested None None "" "" "" 0 "" None 0 0 None None.

(** ** Loading the targets *)

Definition loadRun (id : RunID) : M AW AgentRun :=
  on_core (d ← get;
           tenant ← of_option ErrNotFound (ar_tenant <$> (db_runs d !! id));
           RunGet tenant id).

Definition loadResource (id : ResourceID) : M AW Resource :=
  on_core (d ← get;
           tenant ← of_option ErrNotFound (r_tenant <$> (db_resources d !! id));
           ResourceGet tenant id).

Definition resource_state_name (s : ResourceState) : string :=
  match s with
  | ResourceRequested => "requested" | ResourceProvisioning => "provisioning" | ResourceReady => "ready"
  | ResourceSuspended => "suspended" | ResourceTerminating => "terminating" | ResourceTerminated => "terminated"
  | ResourceFailed => "failed"
  end.

Definition resourceSummary (r : Resource) : summary :=
  list_to_map [("resource_id", JStr (r_id r)); ("tenant_id", JStr (r_tenant r)); ("session_id", JStr (r_session r));
               ("state", JStr (resource_state_name (r_state r))); ("kind", JStr (r_kind r)); ("epoch", JNum (r_epoch r));
               ("provider_id", JStr (r_provider r))].

(** ** Queue jobs *)

Section river.
Context `{River Q}.

Definition job_summary (id : Z) (j : JobInfo) : summary :=
  list_to_map [("job_id", JNum id); ("state", JStr (jiState j)); ("attempt", JNum (jiAttempt j)); ("kind", JStr (jiKind j))].

Definition job_body (e : Deps) (effects : list string) (change : Z → M Q JobInfo) (id : Z) (dryRun : bool) : body :=
  if negb (dpRiver e) then throw (ErrorText "river queue unavailable")
  else
    row ← on_river (JobGet id);
    let before := job_summary id row in
    if dryRun then preview before effects
    else or_fail before effects (on_river (change id)) (λ row', done_ before (job_summary id row') effects).

Definition RetryQueueJob (e : Deps) (meta : Meta) (now : time) (aid : string) (opts : option CommandOptions) (id : Z) :=
  Run e meta now aid CmdRetryQueueJob opts {["job_id" := JNum id]} (job_body e ["schedule job for immediate retry"] JobRetry id).

Definition CancelQueueJob (e : Deps) (meta : Meta) (now : time) (aid : string) (opts : option CommandOptions) (id : Z) :=
  Run e meta now aid CmdCancelQueueJob opts {["job_id" := JNum id]} (job_body e ["cancel river job"] JobCancel id).

End river.

(** ** Runs *)

Definition cancel_run_body (id : RunID) (dryRun : bool) : body :=
  run ← loadRun id;
  let before : summary := list_to_map [("run_id", JStr (ar_id run)); ("tenant_id", JStr (ar_tenant run));
      ("session_id", JStr (ar_session run)); ("state", JStr (run_state_name (ar_state run)));
      ("cancel_requested", JBool (bool_decide (is_Some (ar_cancel_requested_at run))))] in
  let effects := ["request run cancellation"; "finalize awaiting runs immediately"] in
  if Terminal (ar_state run) then preview (<["already_applied" := JBool true]> before) ["run already terminal"]
  else if dryRun then preview before effects
  else or_fail before effects (on_core (Tx Pool (operator_cancel_tx run))) (λ _,
    after ← or_zero zero_run (loadRun id);
    done_ before (list_to_map [("run_id", JStr (ar_id after)); ("state", JStr (run_state_name (ar_state after)));
                    ("cancel_requested", JBool (bool_decide (is_Some (ar_cancel_requested_at after))))]) effects).

Definition CancelRun (e : Deps) (meta : Meta) (now : time) (aid : string) (opts : option CommandOptions) (id : RunID) :=
  Run e meta now aid CmdCancelRun opts {["run_id" := JStr id]} (cancel_run_body id).

Definition run_after (id : RunID) (before : summary) (effects : list string) : body :=
  after ← or_zero zero_run (loadRun id);
  done_ before (list_to_map [("run_id", JStr (ar_id after)); ("state", JStr (run_state_name (ar_state after)))]) effects.

Definition answer_await_body (e : Deps) (meta : Meta) (id : RunID) (message : string) (dryRun : bool) : body :=
  if bool_decide (TrimSpace message = "") then throw (ErrorText "message is required")
  else if negb (dpEnqueue e) then throw (ErrorText "enqueue unavailable")
  else
    run ← loadRun id;
    let before : summary := list_to_map [("run_id", JStr (ar_id run)); ("state", JStr (run_state_name (ar_state run)));
                                         ("tenant_id", JStr (ar_tenant run))] in
    let effects := ["append operator answer"; "set run running"; "enqueue next step"] in
    if negb (bool_decide (ar_state run = RunAwaiting)) && negb (bool_decide (ar_state run = RunCompleted))
    then fails before effects (errOther (ErrorText "run is not awaiting input or completed"))
    else if dryRun then preview before effects
    else or_fail before effects
           (on_core (Tx Pool (operator_answer_tx run
              (MkActor "operator" (opID (mtOperator meta)) (opName (mtOperator meta))) message)))
           (λ _, run_after id before effects).

Definition AnswerAwait (e : Deps) (meta : Meta) (now : time) (aid : string) (opts : option CommandOptions) (id : RunID)
    (message : string) :=
  Run e meta now aid CmdAnswerAwait opts {["run_id" := JStr id]} (answer_await_body e meta id message).

Definition expire_await_body (id : RunID) (dryRun : bool) : body :=
  run ← loadRun id;
  let before : summary := list_to_map [("run_id", JStr (ar_id run)); ("state", JStr (run_state_name (ar_state run)))] in
  let effects := ["expire awaiting run as cancelled"] in
  if negb (bool_decide (ar_state run = RunAwaiting)) then fails before effects (errOther (ErrorText "run is not awaiting"))
  else if dryRun then preview before effects
  else or_fail before effects (on_core (Tx Pool (operator_expire_tx run))) (λ _, run_after id before effects).

Definition ExpireAwait (e : Deps) (meta : Meta) (now : time) (aid : string) (opts : option CommandOptions) (id : RunID) :=
  Run e meta now aid CmdExpireAwait opts {["run_id" := JStr id]} (expire_await_body id).

(** ** Resources *)

Definition enqueue_job (e : Deps) (job : Job) : M AW unit :=
  if negb (dpEnqueue e) then throw (ErrorText "enqueue unavailable") else on_core (enqueueResourceJob job).

Definition reconcile_body (e : Deps) (id : ResourceID) (dryRun : bool) : body :=
  r ← loadResource id;
  let before := resourceSummary r in
  let effects := ["enqueue resource.reconcile job"] in
  if dryRun then preview before effects
  else or_fail before effects (enqueue_job e (ReconcileJob (r_tenant r) (r_id r))) (λ _,
    done_ before (<["enqueued" := JStr "resource.reconcile"]> (resourceSummary r)) effects).

Definition ResourceReconcile (e : Deps) (meta : Meta) (now : time) (aid : string) (opts : option CommandOptions) (id : ResourceID) :=
  Run e meta now aid CmdResourceReconcile opts {["resource_id" := JStr id]} (reconcile_body e id).

Definition resource_after (id : ResourceID) (before : summary) (effects : list string) : body :=
  after ← or_zero zero_resource (loadResource id); done_ before (resourceSummary after) effects.

(** With the resource service set, its request is used; otherwise the engine's
    own transaction. *)
Definition restart_body (e : Deps) (id : ResourceID) (dryRun : bool) : body :=
  r ← loadResource id;
  let before := resourceSummary r in
  let effects := ["mark provisioning"; "enqueue resource.restart"] in
  if ResTerminal (r_state r) || bool_decide (r_state r = ResourceTerminating)
  then fails before effects (errOther (ErrorText ("resource is " +:+ resource_state_name (r_state r) +:+ " and cannot restart")))
  else if dryRun then preview before effects
  else or_fail before effects
         (on_core (if dpResources e then _ ← RequestRestart (r_tenant r) (r_id r); mret ()
                   else operator_restart (r_tenant r) (r_id r)))
         (λ _, resource_after id before effects).

Definition ResourceRestart (e : Deps) (meta : Meta) (now : time) (aid : string) (opts : option CommandOptions) (id : ResourceID) :=
  Run e meta now aid CmdResourceRestart opts {["resource_id" := JStr id]} (restart_body e id).

Definition suspend_body (e : Deps) (id : ResourceID) (message : string) (dryRun : bool) : body :=
  if negb (flSuspend (dpFlags e)) then refuse errDisabled
  else
    r ← loadResource id;
    let before := resourceSummary r in
    let effects := ["set resource suspended"] in
    let message := if bool_decide (message = "") then "operator suspended" else message in
    if dryRun then preview before effects
    else or_fail before effects (on_core (operator_suspend (r_tenant r) (r_id r) message)) (λ _, resource_after id before effects).

Definition ResourceSuspend (e : Deps) (meta : Meta) (now : time) (aid : string) (opts : option CommandOptions) (id : ResourceID)
    (message : string) :=
  Run e meta now aid CmdResourceSuspend opts {["resource_id" := JStr id]} (suspend_body e id message).

Definition terminate_body (e : Deps) (id : ResourceID) (dryRun : bool) : body :=
  if negb (flTerminate (dpFlags e)) then refuse errDisabled
  else
    r ← loadResource id;
    let before := resourceSummary r in
    let effects := ["mark terminating"; "enqueue resource.terminate"] in
    if bool_decide (r_state r = ResourceTerminated) then preview (<["already_applied" := JBool true]> before) ["already terminated"]
    else if dryRun then preview before effects
    else or_fail before effects
           (on_core (if dpResources e then RequestTerminate (r_tenant r) (r_id r) else operator_terminate (r_tenant r) (r_id r)))
           (λ _, resource_after id before effects).

Definition ResourceTerminate (e : Deps) (meta : Meta) (now : time) (aid : string) (opts : option CommandOptions) (id : ResourceID) :=
  Run e meta now aid CmdResourceTerminate opts {["resource_id" := JStr id]} (terminate_body e id).

Definition adoption_probe_body (e : Deps) (id : ResourceID) (dryRun : bool) : body :=
  r ← loadResource id;
  let effects := ["record adoption probe metadata"; "enqueue reconcile"] in
  let probe := JObj [("has_handle", JBool (HandlePresent (r_handle r))); ("state", JStr (resource_state_name (r_state r)));
                     ("epoch", JNum (r_epoch r))] in
  let before := <["probe" := probe]> (resourceSummary r) in
  if dryRun then preview before effects
  else or_fail before effects (enqueue_job e (ReconcileJob (r_tenant r) (r_id r))) (λ _,
    done_ before (<["enqueued" := JStr "resource.reconcile"]> (<["probe" := probe]> (resourceSummary r))) effects).

Definition ResourceAdoptionProbe (e : Deps) (meta : Meta) (now : time) (aid : string) (opts : option CommandOptions) (id : ResourceID) :=
  Run e meta now aid CmdResourceAdoptionProbe opts {["resource_id" := JStr id]} (adoption_probe_body e id).


(** ** Providers, keys, credentials, periodic prompts *)

Context `{GoTime}.

Definition reprobe_body (id : ProviderInstanceID) (dryRun : bool) : body :=
  a ← get;
  match db_providers (w_db (aw_world a)) !! id with
  | None => throw ErrNotFound
  | Some p =>
      let before : summary := list_to_map [("provider_id", JStr id); ("tenant_id", JStr (pi_tenant p)); ("kind", JStr (pi_kind p));
                                           ("name", JStr (pi_name p)); ("state", JStr (pi_state p))] in
      let before := match pi_last_healthy_at p with
                    | Some t => <["last_healthy_at" := JStr (FormatTime t)]> before
                    | None => before
                    end in
      let effects := ["mark provider healthy (metadata refresh)"] in
      if dryRun then preview before effects
      else or_fail before effects (on_core (operator_healthy (pi_tenant p) id)) (λ _,
        done_ before (list_to_map [("provider_id", JStr id); ("state", JStr "ready"); ("probed", JBool true)]) effects)
  end.

Definition ReprobeProvider (e : Deps) (meta : Meta) (now : time) (aid : string) (opts : option CommandOptions) (id : ProviderInstanceID) :=
  Run e meta now aid CmdReprobeProvider opts {["provider_id" := JStr id]} (reprobe_body id).

Definition revoke_key_body (clock : time) (id : string) (dryRun : bool) : body :=
  a ← get;
  match ac_keys (w_acc (aw_world a)) !! id with
  | None => throw ErrNotFound
  | Some k =>
      let before : summary := list_to_map [("api_key_id", JStr id); ("tenant_id", JStr (ak_tenant k)); ("name", JStr (ak_name k));
          ("prefix", JStr (ak_prefix k)); ("revoked", JBool (bool_decide (is_Some (ak_revoked_at k))))] in
      let effects := ["set api_keys.revoked_at"] in
      if bool_decide (is_Some (ak_revoked_at k)) then preview (<["already_applied" := JBool true]> before) ["already revoked"]
      else if dryRun then preview before effects
      else or_fail before effects (on_world (APIKeyRevoke clock (ak_tenant k) id)) (λ _,
        done_ before (list_to_map [("api_key_id", JStr id); ("revoked", JBool true)]) effects)
  end.

Definition RevokeAPIKey (e : Deps) (meta : Meta) (now : time) (aid : string) (opts : option CommandOptions) (id : string) :=
  Run e meta now aid CmdRevokeAPIKey opts {["api_key_id" := JStr id]} (revoke_key_body now id).

Definition credential_targets (tenant kind name : string) : summary :=
  list_to_map [("tenant_id", JStr tenant); ("kind", JStr kind); ("name", JStr name)].

Definition disable_credential_body (tenant kind name : string) (dryRun : bool) : body :=
  a ← get;
  match ac_credentials (w_acc (aw_world a)) !! (tenant, kind, name) with
  | None => throw ErrNotFound
  | Some c =>
      let before := <["created_at" := JStr (FormatTime (cr_created_at c))]> (credential_targets tenant kind name) in
      let effects := ["delete credential metadata (ciphertext removed; not recoverable via admin)"] in
      if dryRun then preview before effects
      else or_fail before effects (on_world (CredentialDelete tenant kind name)) (λ _,
        done_ before (<["deleted" := JBool true]> (credential_targets tenant kind name)) effects)
  end.

Definition DisableCredential (e : Deps) (meta : Meta) (now : time) (aid : string) (opts : option CommandOptions)
    (tenant kind name : string) :=
  Run e meta now aid CmdDisableCredential opts (credential_targets tenant kind name) (disable_credential_body tenant kind name).

Definition periodic_body (id : string) (enabled : bool) (dryRun : bool) : body :=
  a ← get;
  match ac_periodic (w_acc (aw_world a)) !! id with
  | None => throw ErrNotFound
  | Some p =>
      let before : summary := list_to_map [("periodic_prompt_id", JStr id); ("tenant_id", JStr (pp_tenant p));
                                           ("enabled", JBool (pp_enabled p))] in
      let action := if enabled then "resume" else "pause" in
      let effects := [action +:+ " periodic prompt"] in
      if bool_decide (pp_enabled p = enabled) then preview (<["already_applied" := JBool true]> before) ["already " +:+ action +:+ "d"]
      else if dryRun then preview before effects
      else or_fail before effects (on_world (SetEnabled (pp_tenant p) id enabled)) (λ _,
        done_ before (list_to_map [("periodic_prompt_id", JStr id); ("enabled", JBool enabled)]) effects)
  end.

Definition setPeriodicEnabled (e : Deps) (meta : Meta) (now : time) (aid : string) (opts : option CommandOptions) (id : string)
    (enabled : bool) (cmd : string) :=
  Run e meta now aid cmd opts {["periodic_prompt_id" := JStr id]} (periodic_body id enabled).
Definition PausePeriodicPrompt (e : Deps) (meta : Meta) (now : time) (aid : string) (opts : option CommandOptions) (id : string) :=
  setPeriodicEnabled e meta now aid opts id false CmdPausePeriodicPrompt.
Definition ResumePeriodicPrompt (e : Deps) (meta : Meta) (now : time) (aid : string) (opts : option CommandOptions) (id : string) :=
  setPeriodicEnabled e meta now aid opts id true CmdResumePeriodicPrompt.

(** ** Subscribers and evidence *)

Definition subscriber_targets (session subscriber : string) : summary :=
  list_to_map [("session_id", JStr session); ("subscriber_id", JStr subscriber)].

Definition disconnect_body (e : Deps) (session subscriber : string) (_ : bool) : body :=
  if negb (flDisconnect (dpFlags e)) then
    fails (<["supported" := JBool false]> (subscriber_targets session subscriber)) []
      (errOther (ErrorText "DisconnectSubscriber unsupported: event bus has no admin disconnect handle (FailedPrecondition)"))
  else refuse errDisabled.

Definition DisconnectSubscriber (e : Deps) (meta : Meta) (now : time) (aid : string) (opts : option CommandOptions)
    (session subscriber : string) :=
  Run e meta now aid CmdDisconnectSubscriber opts (subscriber_targets session subscriber) (disconnect_body e session subscriber).

Section evidence.
Context `{EvidenceText}.

Definition evidence_targets (session run resource : string) : summary :=
  list_to_map [("session_id", JStr session); ("run_id", JStr run); ("resource_id", JStr resource)].

Definition clamp_events (n : Z) : Z :=
  let n := if bool_decide (n ≤ 0)%Z then 100%Z else n in if bool_decide (500 < n)%Z then 500%Z else n.

Definition event_evidence (e : Event) : json :=
  JObj [("seq", JNum (ev_seq e)); ("ts", JStr (FormatTime (ev_ts e))); ("actor_kind", JStr (actKind (ev_actor e)));
        ("actor_id", JStr (actID (ev_actor e))); ("kind", JStr (ev_kind e)); ("payload_preview", JStr (payload_preview (ev_payload e)))].

(** The newest events of the session, newest first. *)
Definition newest_events (d : DB) (session : SessionID) (n : Z) : list Event :=
  take (Z.to_nat n) (reverse (order_by ev_seq (session_log d session))).

Definition run_evidence (id : RunID) : M AW (option (json * SessionID)) :=
  if bool_decide (id = "") then mret None
  else
    run ← loadRun id;
    mret (Some (JObj [("id", JStr (ar_id run)); ("state", JStr (run_state_name (ar_state run)));
                      ("session_id", JStr (ar_session run)); ("tenant_id", JStr (ar_tenant run));
                      ("failure_reason", JStr (ar_failure_reason run))], ar_session run)).
Definition resource_evidence (id : ResourceID) : M AW (option (json * SessionID)) :=
  if bool_decide (id = "") then mret None
  else
    r ← loadResource id;
    mret (Some (JObj (map_to_list (resourceSummary r)), r_session r)).

Definition session_evidence (d : DB) (session : SessionID) (n : Z) : list (string * json) :=
  if bool_decide (session = "") then []
  else
    let events := newest_events d session n in
    [("session", JObj [("id", JStr session); ("tenant_id", JStr (from_option se_tenant "" (db_sessions d !! session)))]);
     ("events", match events with [] => JNull | _ => JArr (event_evidence <$> events) end); ("event_count", JNum (Z.of_nat (length events)))].

Definition export_body (meta : Meta) (clock : time) (session run resource : string) (maxEvents : Z) (dryRun : bool) : body :=
  let n := clamp_events maxEvents in
  let effects := ["export bounded incident evidence JSON (no secret plaintext)"] in
  rj ← run_evidence run;
  let session1 := if bool_decide (session = "") then from_option snd "" rj else session in
  sj ← resource_evidence resource;
  let session2 := if bool_decide (session1 = "") then from_option snd "" sj else session1 in
  a ← get;
  let d := w_db (aw_world a) in
  let bundle := JObj ([("exported_at", JStr (FormatTime clock)); ("operator_id", JStr (opID (mtOperator meta)))] ++
                      (match rj with Some (j, _) => [("run", j)] | None => [] end) ++
                      (match sj with Some (j, _) => [("resource", j)] | None => [] end) ++ session_evidence d session2 n) in
  let before : summary := list_to_map [("targets", JObj (map_to_list (evidence_targets session run resource))); ("max_events", JNum n)] in
  let text := json_text bundle in
  let extra := MkExtra text "" 0 in
  if dryRun then mret (MkExec (Some before) (Some before) effects (Some extra) None)
  else mret (MkExec (Some before)
               (Some (list_to_map [("bytes", JNum (slen text));
                        ("event_count", if bool_decide (session2 = "") then JNull
                                        else JNum (Z.of_nat (length (newest_events d session2 n))))]))
               effects (Some extra) None).

Definition ExportIncidentEvidence (e : Deps) (meta : Meta) (now : time) (aid : string) (opts : option CommandOptions)
    (session run resource : string) (maxEvents : Z) :=
  Run e meta now aid CmdExportIncidentEvidence opts (evidence_targets session run resource)
    (export_body meta now session run resource maxEvents).

End evidence.

(** ** Secrets *)

Section reveal.
Context `{Aead}.

Definition reveal_targets (secretKind apiKeyID tenant kind name : string) : summary :=
  if bool_decide (secretKind = "api_key") then list_to_map [("secret_kind", JStr secretKind); ("api_key_id", JStr apiKeyID)]
  else list_to_map [("secret_kind", JStr secretKind); ("tenant_id", JStr tenant); ("credential_kind", JStr kind);
                    ("credential_name", JStr name)].

(** Two minutes. *)
Definition reveal_lifetime : Z := 120000000000.

(** Decrypts and registers the plain text, unless it is a dry run. *)
Definition reveal_plain (clock : time) (before : summary) (enc : list Z) (dryRun : bool) : body :=
  let effects := ["decrypt single secret for short-lived operator display"] in
  if dryRun then preview before effects
  else or_fail before effects (of_result (Decrypt enc)) (λ plain,
    let plaintext := of_bytes plain in
    _ ← on_world (register [plaintext]);
    let exp := (clock + reveal_lifetime)%Z in
    mret (MkExec (Some before) (Some (list_to_map [("revealed", JBool true); ("expires_at", JStr (FormatTime exp))])) effects
            (Some (MkExtra "" plaintext exp)) None)).

Definition reveal_body (e : Deps) (meta : Meta) (opts : option CommandOptions) (clock : time) (secretKind apiKeyID tenant kind name : string)
    (dryRun : bool) : body :=
  if negb (flReveal (dpFlags e)) then refuse errRevealDisabled
  else if negb (mtReauthOK meta) then refuse errReauthRequired
  else if negb (dpKeyring e) then throw (ErrorText "keyring unavailable")
  else if bool_decide (TrimSpace (from_option coReason "" opts) = "") && negb dryRun then throw (ErrorText "reason is required")
  else if bool_decide (secretKind = "api_key") then
    if bool_decide (apiKeyID = "") then throw (ErrorText "api_key_id required")
    else
      k ← on_world (APIKeyGet apiKeyID);
      reveal_plain clock
        (list_to_map [("secret_kind", JStr "api_key"); ("api_key_id", JStr apiKeyID); ("tenant_id", JStr (ak_tenant k));
                      ("name", JStr (ak_name k)); ("prefix", JStr (ak_prefix k));
                      ("revoked", JBool (bool_decide (is_Some (ak_revoked_at k))))]) (ak_enc k) dryRun
  else if bool_decide (secretKind = "credential") then
    if bool_decide (tenant = "") || bool_decide (kind = "") || bool_decide (name = "")
    then throw (ErrorText "tenant_id, credential_kind, credential_name required")
    else
      c ← on_world (CredentialGet tenant kind name);
      reveal_plain clock
        (list_to_map [("secret_kind", JStr "credential"); ("tenant_id", JStr tenant); ("kind", JStr kind); ("name", JStr name);
                      ("ciphertext_bytes", JNum (Z.of_nat (length (cr_enc c))))]) (cr_enc c) dryRun
  else throw (ErrorText "secret_kind must be api_key or credential").

Definition RevealSecret (e : Deps) (meta : Meta) (now : time) (aid : string) (opts : option CommandOptions)
    (secretKind apiKeyID tenant kind name : string) :=
  Run e meta now aid CmdRevealSecret opts (reveal_targets secretKind apiKeyID tenant kind name)
    (reveal_body e meta opts now secretKind apiKeyID tenant kind name).

End reveal.

End engine.

(** ** Errors on the wire *)

Definition MapError (er : option cmd_err) : string * string :=
  match er with
  | None => ("", "")
  | Some errDenied => ("permission_denied", cmd_err_text errDenied)
  | Some errStalePreview => ("failed_precondition", cmd_err_text errStalePreview)
  | Some errRateLimited => ("resource_exhausted", cmd_err_text errRateLimited)
  | Some errBusy => ("resource_exhausted", cmd_err_text errBusy)
  | Some errRevealDisabled => ("failed_precondition", cmd_err_text errRevealDisabled)
  | Some errDisabled => ("failed_precondition", cmd_err_text errDisabled)
  | Some errReauthRequired => ("unauthenticated", cmd_err_text errReauthRequired)
  | Some (errOther ErrNotFound) => ("not_found", "not found")
  | Some (errOther e) =>
      let text := err_text e in
      if Contains text "FailedPrecondition" || Contains text "unsupported" then ("failed_precondition", text)
      else ("invalid_argument", text)
  end.
