(* ===== verification/CommandSpec.v ===== *)
(** * What the operator's commands promise

    Every command of [AdminCommands] runs through [Run].  This file classifies
    what a run can do ([outcome]) and derives the engine's contract: nothing
    changes without authority and a matching confirmation, everything that
    changes is audited, a key replays, secrets stay out of the audit trail, the
    rate is bounded, and what a command writes is a step of the system. *)
From S2P Require Import Prelude Policy Domain Text Store StoreRuns EventLog Loop Waits Batcher Tools Step Api.
From S2P Require Import ResourceStore OperatorTx ResourceWork Frames Invariants RunStates System Scenario Strings Redact AdminQuery AdminAuthz Accounts AccountSpec AdminCommands.

Section contract.
Context {Q : Type} `{PreviewDigest}.
Notation AW := (AdminWorld Q).

(** ** The audit table *)

(** Only successful rows carry an idempotency key, and no two the same. *)
Definition audit_wf (l : list AuditRow) : Prop :=
  (∀ r k, r ∈ l → auIdempotency r = Some k → succeeded (auResult r) = true ∧ k ≠ "") ∧
  ∀ i j r s k, l !! i = Some r → l !! j = Some s → auIdempotency r = Some k → auIdempotency s = Some k → i = j.

Lemma key_used_spec k l : key_used k l = true ↔ ∃ r, r ∈ l ∧ auIdempotency r = Some k.
Proof. unfold key_used. rewrite existsb_exists. setoid_rewrite <-list_elem_of_In. by setoid_rewrite bool_decide_eq_true. Qed.

Lemma lookup_row_None k l : audit_wf l → lookup_row k l = None → key_used k l = false.
Proof.
  intros [Hs _] Hl. apply not_true_iff_false. rewrite key_used_spec. intros (r & Hr & Hk).
  destruct (Hs r k Hr Hk) as [Hsuc _]. unfold lookup_row in Hl.
  assert (r ∈ bool_filter (λ r, bool_decide (auIdempotency r = Some k) && succeeded (auResult r)) l) as Hin.
  { apply elem_of_bool_filter. by rewrite bool_decide_eq_true_2, Hsuc. }
  destruct (bool_filter _ l); [by apply elem_of_nil in Hin|done].
Qed.

Lemma audit_wf_plain l r : audit_wf l → auIdempotency r = None → audit_wf (l ++ [r]).
Proof.
  intros [Hs Hu] Hr. split.
  - intros x k Hx Hk. apply elem_of_app in Hx as [Hx|Hx%list_elem_of_singleton]; [by apply Hs|congruence].
  - intros i j x y k Hx Hy Hkx Hky. rewrite lookup_snoc_Some in Hx, Hy.
    destruct Hx as [[_ Hx]|[_ <-]], Hy as [[_ Hy]|[_ <-]]; [by eapply Hu|congruence..].
Qed.

Lemma audit_wf_key l r k : audit_wf l → key_used k l = false → auIdempotency r = Some k → succeeded (auResult r) = true → k ≠ "" →
  audit_wf (l ++ [r]).
Proof.
  intros [Hs Hu] Hn Hr Hsuc Hk. assert (∀ x, x ∈ l → auIdempotency x ≠ Some k) as Hfree.
  { intros x Hx E. apply not_true_iff_false in Hn. apply Hn, key_used_spec. by exists x. }
  split.
  - intros x k' Hx Hk'. apply elem_of_app in Hx as [Hx|Hx%list_elem_of_singleton]; [by apply Hs|]. subst x.
    rewrite Hr in Hk'. by injection Hk' as <-.
  - intros i j x y k' Hx Hy Hkx Hky. rewrite lookup_snoc_Some in Hx, Hy.
    destruct Hx as [[_ Hx]|[-> <-]], Hy as [[_ Hy]|[-> <-]]; [by eapply Hu| | |done].
    + apply list_elem_of_lookup_2 in Hx. destruct (Hfree x Hx). congruence.
    + apply list_elem_of_lookup_2 in Hy. destruct (Hfree y Hy). congruence.
Qed.

(** ** What a run can do *)

(** A command whose probe changes nothing, and whose body leaves the audit
    table and the counters to the engine. *)
Record well_behaved (exec : bool → M AW Exec) : Prop := {
  probe_inert a : (run_exec (exec true) a).1 = a;
  body_frame a : let a' := (run_exec (exec false) a).1 in
    aw_audit a' = aw_audit a ∧ aw_tokens a' = aw_tokens a ∧ aw_lastFill a' = aw_lastFill a ∧ aw_inflight a' = aw_inflight a;
}.

Section run.
Context (e : Deps) (meta : Meta) (now : time) (aid command : string) (opts : option CommandOptions) (targets : summary).
Context (exec : bool → M AW Exec) (Hexec : well_behaved exec).

Let o := default no_options opts.
Let idem := TrimSpace (coIdempotencyKey o).

Definition same_tables (a a' : AW) : Prop := aw_world a' = aw_world a ∧ aw_river a' = aw_river a.

(** The operator may run the command, gave a reason and a key not used before,
    and confirmed the state the targets are in; [b] is [a] with the counters
    moved by [acquire]. *)
Definition confirmed (a b : AW) : Prop :=
  Can (opRole (mtOperator meta)) command = true ∧ coDryRun o = false ∧ TrimSpace (coReason o) ≠ "" ∧ idem ≠ "" ∧
  lookup_row idem (aw_audit a) = None ∧
  ∃ x, (run_exec (exec true) b).2 = x ∧ xErr x = None ∧ coPreviewHash o = previewHash command targets (xBefore x).

(** The state before the body ran: the counters may have moved. *)
Definition same_but_counters (a b : AW) : Prop :=
  aw_world b = aw_world a ∧ aw_river b = aw_river a ∧ aw_audit b = aw_audit a.

Inductive outcome (a a' : AW) : option Result → option cmd_err → Prop :=
  | Unchanged er : same_tables a a' → aw_audit a' = aw_audit a → outcome a a' None (Some er)
  | Replayed p : a' = a → coDryRun o = false → idem ≠ "" → lookup_row idem (aw_audit a) = Some p →
      ∀ r, rsReplay r = true → rsAuditID r = auID p → rsOutcome r = auResult p → rsPlaintext r = "" → outcome a a' (Some r) None
  | Recorded row r er : same_tables a a' → aw_audit a' = aw_audit a ++ [row] → auIdempotency row = None →
      auOperatorID row = opID (mtOperator meta) → auCommand row = command → auTargets row = targets →
      succeeded (auResult row) = false → from_option rsPlaintext "" r = "" → (r = None ∨ coDryRun o = true) → outcome a a' r er
  | Applied b y row r er : confirmed a b → same_but_counters a b → (run_exec (exec false) b).2 = y →
      same_tables (run_exec (exec false) b).1 a' →
      aw_audit a' = aw_audit a ++ [row] → auOperatorID row = opID (mtOperator meta) → auCommand row = command →
      auTargets row = targets → auBefore row = xBefore y → auAfter row = xAfter y →
      match xErr y with
      | Some er' => r = None ∧ er = Some er' ∧ auResult row = "failed" ∧ auIdempotency row = None
      | None => ∃ res, r = Some res ∧ er = None ∧ succeeded (auResult row) = true ∧ auIdempotency row = Some idem ∧
                  rsOutcome res = auResult row ∧ rsAuditID res = auID row ∧ rsPlaintext res = from_option xoPlaintext "" (xExtra y) ∧
                  rsReplay res = false
      end → outcome a a' r er.

Lemma writeAudit_plain before after result text opts' (a : AW) :
  writeAudit e meta aid command targets opts' before after result text "" a =
  (with_audit (aw_audit a ++ [audit_row e meta (db_now (w_db (aw_world a))) aid command targets opts' before after result text ""]) a,
   Some aid).
Proof. done. Qed.

Lemma writeAudit_key before after result text opts' k (a : AW) : k ≠ "" → key_used k (aw_audit a) = false →
  writeAudit e meta aid command targets opts' before after result text k a =
  (with_audit (aw_audit a ++ [audit_row e meta (db_now (w_db (aw_world a))) aid command targets opts' before after result text k]) a,
   Some aid).
Proof. intros Hk Hu. unfold writeAudit. by rewrite Hu, andb_false_r. Qed.

Lemma recorded_plain a b ts before after result text opts' r er : same_but_counters a b → succeeded result = false →
  from_option rsPlaintext "" r = "" → (r = None ∨ coDryRun o = true) →
  outcome a (with_audit (aw_audit b ++ [audit_row e meta ts aid command targets opts' before after result text ""]) b) r er.
Proof. 
  intros (Hw & Hq & Hau) Hres Hp Hr.
  apply (Recorded a _ (audit_row e meta ts aid command targets opts' before after result text "")); try done.
  cbn [aw_audit with_audit]. by rewrite Hau.
Qed.

(** A run's effects before [release]. *)
Lemma run_body_outcome a b : audit_wf (aw_audit a) → same_but_counters a b → Can (opRole (mtOperator meta)) command = true →
  (coDryRun o = false → TrimSpace (coReason o) ≠ "" ∧ idem ≠ "" ∧ lookup_row idem (aw_audit a) = None) →
  outcome a (run_body e meta command o targets aid idem exec b).1 (run_body e meta command o targets aid idem exec b).2.1
    (run_body e meta command o targets aid idem exec b).2.2.
Proof.
  intros Hwf Hb Hcan Hnd. pose proof Hb as (Hw & Hq & Hau). unfold run_body.
  pose proof (probe_inert _ Hexec b) as Hp. destruct (run_exec (exec true) b) as [b1 x] eqn:Ex. simpl in Hp. subst b1.
  destruct (xErr x) as [er|] eqn:Her.
  { rewrite writeAudit_plain. apply recorded_plain; first [done|by left|by right]. }
  destruct (coDryRun o) eqn:Hdry.
  { rewrite writeAudit_plain. apply recorded_plain; first [done|by left|by right]. }
  destruct (Hnd eq_refl) as (Hreason & Hidem & Hlook). case_bool_decide as Hhash; cbn [negb].
  2:{ rewrite writeAudit_plain. apply recorded_plain; first [done|by left|by right]. }
  assert (confirmed a b) as Hconf.
  { split_and!; try done. exists x. by rewrite Ex. }
  pose proof (body_frame _ Hexec b) as Hf. destruct (run_exec (exec false) b) as [b2 y] eqn:Ey. simpl in Hf.
  destruct Hf as (Hau2 & _). destruct (xErr y) as [er|] eqn:Hery.
  { rewrite writeAudit_plain. simpl.
    eapply (Applied a _ b y); [done|done|by rewrite Ey|by rewrite Ey|by simpl; rewrite Hau2, Hau|done..|]. rewrite Hery. done. }
  assert (key_used idem (aw_audit b2) = false) as Hunused by (rewrite Hau2, Hau; by apply lookup_row_None).
  rewrite (writeAudit_key _ _ _ _ _ idem) by done. cbn [fst snd].
  eapply (Applied a _ b y); [done|done|by rewrite Ey|by rewrite Ey|by simpl; rewrite Hau2, Hau|done..|]. rewrite Hery.
  eexists. split_and!; try done; cbn [audit_row auResult auIdempotency].
  - by destruct (applied (xAfter y)).
  - by rewrite bool_decide_eq_false_2.
Qed.

Lemma acquire_frame a : same_but_counters a (acquire e now a).1.
Proof. unfold acquire. repeat case_bool_decide; done. Qed.
Lemma release_frame (a : AW) : same_tables a (release a) ∧ aw_audit (release a) = aw_audit a.
Proof. unfold release. case_bool_decide; done. Qed.

Lemma outcome_release a a' r er : outcome a a' r er → (∀ p, lookup_row idem (aw_audit a) ≠ Some p) →
  outcome a (release a') r er.
Proof.
  intros Ho Hn. destruct (release_frame a') as [[Hw Hq] Hau].
  destruct Ho as [er [] ?|p ? ? ? Hp|row r er [] ? ? ? ? ? ? ? ?|b y row r er ? ? ? [] ? ? ? ? ? ? ?].
  - apply Unchanged; [split; congruence|congruence].
  - by destruct (Hn p).
  - eapply (Recorded a _ row); try done; [split; congruence|congruence].
  - eapply (Applied a _ b y row); try done; [split; congruence|congruence].
Qed.

Lemma Run_outcome a : audit_wf (aw_audit a) →
  let '(a', (r, er)) := Run e meta now aid command opts targets exec a in outcome a a' r er.
Proof.
  intros Hwf. unfold Run. destruct (Can _ _) eqn:Hcan; cbn [negb].
  2:{ rewrite writeAudit_plain. apply recorded_plain; first [done|by left|by right]. }
  fold o. fold idem. destruct (coDryRun o) eqn:Hdry.
  { pose proof (run_body_outcome a a Hwf ltac:(done) Hcan ltac:(congruence)) as Ho.
    destruct (run_body _ _ _ _ _ _ _ _ a) as [a' [r er]]. exact Ho. }
  case_bool_decide as Hr; [by apply Unchanged|]. case_bool_decide as Hi; [by apply Unchanged|].
  destruct (lookupIdempotent idem a) as [p|] eqn:Hl.
  { unfold lookupIdempotent in Hl. destruct (lookup_row idem (aw_audit a)) as [row|] eqn:Hrow; simpl in Hl; [|done].
    injection Hl as <-. by eapply (Replayed a a row). }
  assert (lookup_row idem (aw_audit a) = None) as Hnone.
  { unfold lookupIdempotent in Hl. by destruct (lookup_row idem (aw_audit a)). }
  pose proof (acquire_frame a) as Hf. destruct (acquire e now a) as [a1 [er|]] eqn:Hac; simpl in Hf.
  { destruct Hf as (? & ? & ?). by apply Unchanged. }
  pose proof (run_body_outcome a a1 Hwf Hf Hcan ltac:(done)) as Ho.
  destruct (run_body _ _ _ _ _ _ _ _ a1) as [a' [r er]]. apply outcome_release; [exact Ho|]. intros p. congruence.
Qed.


End run.

End contract.

(** ** The commands *)

(** Reading a job does not change the queue. *)
Class RiverOk (Q : Type) `{River Q} : Prop := JobGet_reads id q : (JobGet id q).1 = q.

Section commands.
Context {Q : Type} `{RiverOk Q} `{PreviewDigest} `{GoTime} `{EvidenceText} `{ring : Aead}.
Notation AW := (AdminWorld Q).

Inductive command :=
  | CRetryQueueJob (id : Z) | CCancelQueueJob (id : Z)
  | CCancelRun (id : RunID) | CAnswerAwait (id : RunID) (message : string) | CExpireAwait (id : RunID)
  | CReconcile (id : ResourceID) | CRestart (id : ResourceID) | CSuspend (id : ResourceID) (message : string)
  | CTerminate (id : ResourceID) | CAdoptionProbe (id : ResourceID) | CReprobe (id : ProviderInstanceID)
  | CRevokeKey (id : string) | CDisableCredential (tenant kind name : string) | CPause (id : string) | CResume (id : string)
  | CDisconnect (session subscriber : string) | CExport (session run resource : string) (maxEvents : Z)
  | CReveal (secretKind apiKeyID tenant kind name : string).

Definition run_command (e : Deps) (meta : Meta) (now : time) (aid : string) (opts : option CommandOptions) (c : command)
  : AW → AW * (option Result * option cmd_err) :=
  match c with
  | CRetryQueueJob id => RetryQueueJob e meta now aid opts id
  | CCancelQueueJob id => CancelQueueJob e meta now aid opts id
  | CCancelRun id => AdminCommands.CancelRun e meta now aid opts id
  | CAnswerAwait id message => AnswerAwait e meta now aid opts id message
  | CExpireAwait id => ExpireAwait e meta now aid opts id
  | CReconcile id => ResourceReconcile e meta now aid opts id
  | CRestart id => ResourceRestart e meta now aid opts id
  | CSuspend id message => ResourceSuspend e meta now aid opts id message
  | CTerminate id => ResourceTerminate e meta now aid opts id
  | CAdoptionProbe id => ResourceAdoptionProbe e meta now aid opts id
  | CReprobe id => ReprobeProvider e meta now aid opts id
  | CRevokeKey id => AdminCommands.RevokeAPIKey e meta now aid opts id
  | CDisableCredential t k n => DisableCredential e meta now aid opts t k n
  | CPause id => PausePeriodicPrompt e meta now aid opts id
  | CResume id => ResumePeriodicPrompt e meta now aid opts id
  | CDisconnect s u => DisconnectSubscriber e meta now aid opts s u
  | CExport s r rs n => ExportIncidentEvidence e meta now aid opts s r rs n
  | CReveal sk key t k n => RevealSecret e meta now aid opts sk key t k n
  end.

Definition cmd_name (c : command) : string :=
  match c with
  | CRetryQueueJob _ => CmdRetryQueueJob | CCancelQueueJob _ => CmdCancelQueueJob | CCancelRun _ => CmdCancelRun
  | CAnswerAwait _ _ => CmdAnswerAwait | CExpireAwait _ => CmdExpireAwait | CReconcile _ => CmdResourceReconcile
  | CRestart _ => CmdResourceRestart | CSuspend _ _ => CmdResourceSuspend | CTerminate _ => CmdResourceTerminate
  | CAdoptionProbe _ => CmdResourceAdoptionProbe | CReprobe _ => CmdReprobeProvider | CRevokeKey _ => CmdRevokeAPIKey
  | CDisableCredential _ _ _ => CmdDisableCredential | CPause _ => CmdPausePeriodicPrompt | CResume _ => CmdResumePeriodicPrompt
  | CDisconnect _ _ => CmdDisconnectSubscriber | CExport _ _ _ _ => CmdExportIncidentEvidence | CReveal _ _ _ _ _ => CmdRevealSecret
  end.

Definition cmd_targets (c : command) : summary :=
  match c with
  | CRetryQueueJob id | CCancelQueueJob id => {["job_id" := JNum id]}
  | CCancelRun id | CAnswerAwait id _ | CExpireAwait id => {["run_id" := JStr id]}
  | CReconcile id | CRestart id | CSuspend id _ | CTerminate id | CAdoptionProbe id => {["resource_id" := JStr id]}
  | CReprobe id => {["provider_id" := JStr id]}
  | CRevokeKey id => {["api_key_id" := JStr id]}
  | CDisableCredential t k n => credential_targets t k n
  | CPause id | CResume id => {["periodic_prompt_id" := JStr id]}
  | CDisconnect s u => subscriber_targets s u
  | CExport s r rs _ => evidence_targets s r rs
  | CReveal sk key t k n => reveal_targets sk key t k n
  end.

Definition cmd_body (e : Deps) (meta : Meta) (now : time) (opts : option CommandOptions) (c : command) : bool → M AW Exec :=
  match c with
  | CRetryQueueJob id => job_body e ["schedule job for immediate retry"] JobRetry id
  | CCancelQueueJob id => job_body e ["cancel river job"] JobCancel id
  | CCancelRun id => cancel_run_body id
  | CAnswerAwait id message => answer_await_body e meta id message
  | CExpireAwait id => expire_await_body id
  | CReconcile id => reconcile_body e id
  | CRestart id => restart_body e id
  | CSuspend id message => suspend_body e id message
  | CTerminate id => terminate_body e id
  | CAdoptionProbe id => adoption_probe_body e id
  | CReprobe id => reprobe_body id
  | CRevokeKey id => revoke_key_body now id
  | CDisableCredential t k n => disable_credential_body t k n
  | CPause id => periodic_body id false
  | CResume id => periodic_body id true
  | CDisconnect s u => disconnect_body e s u
  | CExport s r rs n => export_body meta now s r rs n
  | CReveal sk key t k n => reveal_body e meta opts now sk key t k n
  end.

Lemma run_command_Run e meta now aid opts c a :
  run_command e meta now aid opts c a = Run e meta now aid (cmd_name c) opts (cmd_targets c) (cmd_body e meta now opts c) a.
Proof. by destruct c. Qed.

(** ** The bodies behave *)

Lemma run_exec_fst (m : M AW Exec) a : (run_exec m a).1 = (m a).1.
Proof. unfold run_exec. by destruct (m a) as [a' [x|er]]. Qed.

Lemma inert_on_world {A} (m : M World A) : keeps eq m → keeps eq (on_world (Q:=Q) m).
Proof.
  intros Hm a. specialize (Hm (aw_world a)). unfold on_world. destruct (m (aw_world a)) as [w r]. simpl in *. subst.
  by destruct a.
Qed.
Lemma inert_core {A} (m : M DB A) : keeps eq m → keeps eq (core m).
Proof. intros Hm w. specialize (Hm (w_db w)). unfold core. destruct (m (w_db w)). simpl in *. subst. by destruct w. Qed.
Lemma inert_JobGet id : keeps eq (on_river (JobGet (Q:=Q) id)).
Proof.
  intros a. pose proof (JobGet_reads id (aw_river a)) as Hq. unfold on_river. destruct (JobGet id (aw_river a)). simpl in *.
  subst. by destruct a.
Qed.
Lemma inert_loadRun id : keeps eq (loadRun (Q:=Q) id).
Proof. apply inert_on_world, inert_core. unfold RunGet. solve_handler. Qed.
Lemma inert_loadResource id : keeps eq (loadResource (Q:=Q) id).
Proof. apply inert_on_world, inert_core. unfold ResourceGet. solve_handler. Qed.

Lemma inert_or_fail {A} b ef (m : M AW A) (k : A → M AW Exec) : keeps eq m → (∀ x, keeps eq (k x)) → keeps eq (or_fail b ef m k).
Proof. intros Hm Hk. unfold or_fail, fails. solve_handler. Qed.
Lemma inert_get_key id : keeps eq (on_world (Q:=Q) (APIKeyGet id)).
Proof. apply inert_on_world. unfold APIKeyGet, get_acc. solve_handler. Qed.
Lemma inert_get_cred t k n : keeps eq (on_world (Q:=Q) (CredentialGet t k n)).
Proof. apply inert_on_world. unfold CredentialGet, get_acc. solve_handler. Qed.
Hint Resolve inert_JobGet inert_loadRun inert_loadResource inert_or_fail inert_get_key inert_get_cred : keeps.

Lemma cmd_probe_inert e meta now opts c : keeps eq (cmd_body e meta now opts c true).
Proof.
  destruct c; cbn [cmd_body];
    unfold job_body, cancel_run_body, answer_await_body, expire_await_body, reconcile_body, restart_body, suspend_body, terminate_body,
      adoption_probe_body, reprobe_body, revoke_key_body, disable_credential_body, periodic_body, disconnect_body, export_body,
      run_evidence, resource_evidence, reveal_body, reveal_plain, preview, fails, refuse; solve_handler.
Qed.

Definition frame : relation AW := λ a a', aw_audit a' = aw_audit a ∧ aw_tokens a' = aw_tokens a ∧
  aw_lastFill a' = aw_lastFill a ∧ aw_inflight a' = aw_inflight a.
#[local] Instance frame_pre : PreOrder frame.
Proof. split; [by intros a|]. intros a b c (? & ? & ? & ?) (? & ? & ? & ?). unfold frame. split_and!; congruence. Qed.

Lemma frame_on_world {A} (m : M World A) : keeps frame (on_world (Q:=Q) m).
Proof. intros a. unfold on_world. by destruct (m (aw_world a)). Qed.
Lemma frame_on_river {A} (m : M Q A) : keeps frame (on_river m).
Proof. intros a. unfold on_river. by destruct (m (aw_river a)). Qed.
Hint Resolve frame_on_world frame_on_river : keeps.

Lemma cmd_frame e meta now opts c dry : keeps frame (cmd_body e meta now opts c dry).
Proof.
  destruct c; cbn [cmd_body];
    unfold job_body, cancel_run_body, answer_await_body, expire_await_body, reconcile_body, restart_body, suspend_body, terminate_body,
      adoption_probe_body, reprobe_body, revoke_key_body, disable_credential_body, periodic_body, disconnect_body, export_body,
      run_evidence, resource_evidence, reveal_body, reveal_plain, preview, done_, fails, refuse, or_fail, run_after, resource_after,
      or_zero, loadRun, loadResource, enqueue_job, on_core; solve_handler.
Qed.

Lemma cmd_well_behaved e meta now opts c : well_behaved (cmd_body e meta now opts c).
Proof.
  split; intros a; rewrite run_exec_fst.
  - symmetry. apply cmd_probe_inert.
  - apply cmd_frame.
Qed.


(** ** Histories of the engine *)

(** A command, or anything the rest of the system does: it shares the store and
    the queue, and does not write the audit table. *)
Inductive admin_step (a : AW) : AW → Prop :=
  | AdminCommand e meta now aid opts c : admin_step a (run_command e meta now aid opts c a).1
  | AdminOther a' : aw_audit a' = aw_audit a → admin_step a a'.

Lemma run_command_outcome e meta now aid opts c a : audit_wf (aw_audit a) →
  outcome meta (cmd_name c) opts (cmd_targets c) (cmd_body e meta now opts c) a (run_command e meta now aid opts c a).1
    (run_command e meta now aid opts c a).2.1 (run_command e meta now aid opts c a).2.2.
Proof.
  intros Hwf. rewrite run_command_Run.
  pose proof (Run_outcome e meta now aid (cmd_name c) opts (cmd_targets c) _ (cmd_well_behaved e meta now opts c) a Hwf) as Ho.
  by destruct (Run _ _ _ _ _ _ _ _ a) as [a' [r er]].
Qed.

Lemma outcome_audit meta name opts targets exec (a a' : AW) r er : audit_wf (aw_audit a) →
  outcome meta name opts targets exec a a' r er →
  audit_wf (aw_audit a') ∧ ∃ rows, aw_audit a' = aw_audit a ++ rows ∧ length rows ≤ 1.
Proof.
  intros Hwf Ho. destruct Ho as [er ? ->|p -> ? ? ? ? ? ? ? ?|row r er ? -> Hn ? ? ? ? ? ?|b y row r er Hc ? ? ? -> ? ? ? ? ? Hm].
  - split; [done|]. exists []. rewrite app_nil_r. simpl. split; [done|lia].
  - split; [done|]. exists []. rewrite app_nil_r. simpl. split; [done|lia].
  - split; [by apply audit_wf_plain|]. exists [row]. by split.
  - split; [|exists [row]; by split]. destruct (xErr y).
    + destruct Hm as (_ & _ & _ & Hn). by apply audit_wf_plain.
    + destruct Hm as (res & _ & _ & Hs & Hk & _). destruct Hc as (_ & _ & _ & Hi & Hl & _).
      eapply audit_wf_key; [done|by apply lookup_row_None|done|done|done].
Qed.

Lemma admin_history_audit a a' : rtc admin_step a a' → audit_wf (aw_audit a) →
  audit_wf (aw_audit a') ∧ aw_audit a `prefix_of` aw_audit a'.
Proof.
  induction 1 as [|a1 a2 a3 [e meta now aid opts c|a2' E] _ IH]; intros Hwf; [done| |by rewrite E in IH; apply IH].
  destruct (outcome_audit _ _ _ _ _ _ _ _ _ Hwf (run_command_outcome e meta now aid opts c a1 Hwf)) as [Hwf2 (rows & E & _)].
  destruct (IH Hwf2) as [Hwf3 Hp]. split; [done|]. etrans; [|exact Hp]. rewrite E. by exists rows.
Qed.

(** C15: confirmation.  A command changes the store, the accounts, the redactor
    or the job queue only if the operator's role allows it, it is not a dry run,
    it has a reason and an idempotency key no successful command used, its probe
    of the current state succeeds, and the preview hash it carries is the hash of
    that probe.  A denied, refused, stale, failed-to-preview or replayed command
    and a dry run change none of them, and none of them returns a secret. *)
Theorem command_confirmed e meta now aid opts c a : audit_wf (aw_audit a) →
  let a' := (run_command e meta now aid opts c a).1 in
  let r := (run_command e meta now aid opts c a).2.1 in
  (aw_world a' ≠ aw_world a ∨ aw_river a' ≠ aw_river a ∨ from_option rsPlaintext "" r ≠ "") →
  ∃ o b x, opts = Some o ∧ Can (opRole (mtOperator meta)) (cmd_name c) = true ∧ coDryRun o = false ∧ TrimSpace (coReason o) ≠ "" ∧
    TrimSpace (coIdempotencyKey o) ≠ "" ∧ lookup_row (TrimSpace (coIdempotencyKey o)) (aw_audit a) = None ∧
    same_but_counters a b ∧ run_exec (cmd_body e meta now opts c true) b = (b, x) ∧ xErr x = None ∧
    coPreviewHash o = previewHash (cmd_name c) (cmd_targets c) (xBefore x).
Proof.
  intros Hwf. cbv zeta. pose proof (run_command_outcome e meta now aid opts c a Hwf) as Ho.
  destruct Ho as [er [Hw Hq] _|p -> _ _ _ r _ _ _ Hp|row r er [Hw Hq] _ _ _ _ _ _ Hp _|b y row r er Hc Hb _ _ _ _ _ _ _ _ _];
    [naive_solver|naive_solver|naive_solver|]. intros _.
  destruct Hc as (Hcan & Hdry & Hreason & Hidem & Hlook & x & Hx & Hxe & Hhash).
  destruct opts as [o|]; [|by vm_compute in Hreason]. exists o, b, x. simpl in *.
  split_and!; try done. rewrite (surjective_pairing (run_exec _ b)), Hx.
  by rewrite (probe_inert _ (cmd_well_behaved e meta now (Some o) c)).
Qed.


Lemma lookup_row_mono k l l' r : audit_wf l' → l `prefix_of` l' → lookup_row k l = Some r → lookup_row k l' = Some r.
Proof.
  intros Hwf [m ->] Hl. unfold lookup_row in *. rewrite bool_filter_app. by destruct (bool_filter _ l).
Qed.

Lemma lookup_row_snoc k l row : lookup_row k l = None → auIdempotency row = Some k → succeeded (auResult row) = true →
  lookup_row k (l ++ [row]) = Some row.
Proof.
  unfold lookup_row. intros Hl Hk Hs. rewrite bool_filter_app. destruct (bool_filter _ l); [|done].
  unfold bool_filter. rewrite filter_cons_True; [done|]. by rewrite Hk, Hs, bool_decide_eq_true_2.
Qed.

(** A command that succeeds, not as a replay, binds its key. *)
Lemma success_bound meta name o targets exec (a a' : AW) res : audit_wf (aw_audit a) → coDryRun o = false → rsReplay res = false →
  outcome meta name (Some o) targets exec a a' (Some res) None →
  ∃ row, lookup_row (TrimSpace (coIdempotencyKey o)) (aw_audit a') = Some row ∧ auID row = rsAuditID res ∧
    auResult row = rsOutcome res ∧ TrimSpace (coIdempotencyKey o) ≠ "".
Proof.
  intros Hwf Hdry Hrep Ho. remember (Some res) as r0 eqn:Er. remember None as e0 eqn:Ee.
  destruct Ho as [|p ? ? ? ? r Hr|row r er ? ? ? ? ? ? ? ? Hnd|b y row r er Hc ? ? ? Hau ? ? ? ? ? Hm].
  - done.
  - congruence.
  - subst. destruct Hnd as [?|Hnd]; [done|]. simpl in Hnd. congruence.
  - subst r er. destruct (xErr y); [by destruct Hm as (? & _)|].
    destruct Hm as (res' & [= <-] & _ & Hs & Hk & Hout & Hid & _). destruct Hc as (_ & _ & _ & Hi & Hl & _).
    exists row. rewrite Hau. split_and!; [by apply lookup_row_snoc|done|done|exact Hi].
Qed.


(** ** What a command writes is a step of the system *)

Context `{Uuid} `{Durations} `{Fantasy} {W : Type} (sv : Service W).
Context `{Sha256} `{DurationText} `{CredentialJSON}.

Definition writes : relation AW := λ a a',
  rtc (sys_step sv) (w_db (aw_world a)) (w_db (aw_world a')) ∧ rtc acct_step (aw_world a) (aw_world a').
#[local] Instance writes_pre : PreOrder writes.
Proof. split; [intros a; split; reflexivity|]. intros a b c [] []. split; by etrans. Qed.

Lemma writes_same a a' : aw_world a' = aw_world a → writes a a'.
Proof. intros Hw. unfold writes. rewrite Hw. split; reflexivity. Qed.

(** A transaction of the system, run by a command. *)
Lemma writes_op {A} (m : M DB A) o : (∀ d, allowed d o) → (∀ d, (m d).1 = run_op sv o d) → keeps writes (on_core (Q:=Q) m).
Proof.
  intros Ha Hm a. unfold on_core, on_world, core, writes. specialize (Hm (w_db (aw_world a))).
  destruct (m (w_db (aw_world a))) as [d r]. simpl in *. subst. split; apply rtc_once.
  - exists o. split; [apply Ha|done].
  - by exists (ACore (run_op sv o (w_db (aw_world a)))).
Qed.
Lemma writes_acct {A} (m : M World A) o : (∀ w, (m w).1 = run_acct o w ∧ w_db (m w).1 = w_db w) → keeps writes (on_world (Q:=Q) m).
Proof.
  intros Hm a. destruct (Hm (aw_world a)) as [Hr Hd]. unfold on_world, writes. destruct (m (aw_world a)) as [w r]. simpl in *.
  rewrite Hd. split; [reflexivity|]. apply rtc_once. by exists o.
Qed.
Lemma writes_river {A} (m : M Q A) : keeps writes (on_river m).
Proof. intros a. apply writes_same. unfold on_river. by destruct (m (aw_river a)). Qed.
Lemma keeps_eq (R : relation AW) `{!PreOrder R} {A} (m : M AW A) : keeps eq m → keeps R m.
Proof. intros Hm a. rewrite <-(Hm a). reflexivity. Qed.

Lemma writes_enqueue e org id : keeps writes (enqueue_job (Q:=Q) e (ReconcileJob org id)).
Proof.
  unfold enqueue_job. case_match; [solve_handler|]. by apply (writes_op _ (OpResource (RoOperatorReconcile org id))).
Qed.
Lemma writes_cancel r : keeps writes (on_core (Q:=Q) (Tx Pool (operator_cancel_tx r))).
Proof. by apply (writes_op _ (OpOperatorCancel r)). Qed.
Lemma writes_answer r actor msg : keeps writes (on_core (Q:=Q) (Tx Pool (operator_answer_tx r actor msg))).
Proof. by apply (writes_op _ (OpOperatorAnswer r actor msg)). Qed.
Lemma writes_expire r : keeps writes (on_core (Q:=Q) (Tx Pool (operator_expire_tx r))).
Proof. by apply (writes_op _ (OpOperatorExpire r)). Qed.
Lemma writes_restart (b : bool) org id :
  keeps writes (on_core (Q:=Q) (if b then _ ← RequestRestart org id; mret () else operator_restart org id)).
Proof. destruct b; [by apply (writes_op _ (OpResource (RoRequestRestart org id)))|by apply (writes_op _ (OpResource (RoOperatorRestart org id)))]. Qed.
Lemma writes_terminate (b : bool) org id :
  keeps writes (on_core (Q:=Q) (if b then RequestTerminate org id else operator_terminate org id)).
Proof. destruct b; [by apply (writes_op _ (OpResource (RoRequestTerminate org id)))|by apply (writes_op _ (OpResource (RoOperatorTerminate org id)))]. Qed.
Lemma writes_suspend org id msg : keeps writes (on_core (Q:=Q) (operator_suspend org id msg)).
Proof. by apply (writes_op _ (OpResource (RoOperatorSuspend org id msg))). Qed.
Lemma writes_healthy org id : keeps writes (on_core (Q:=Q) (operator_healthy org id)).
Proof. by apply (writes_op _ (OpResource (RoOperatorHealthy org id))). Qed.

Lemma writes_revoke clock t id : keeps writes (on_world (Q:=Q) (APIKeyRevoke clock t id)).
Proof.
  apply (writes_acct _ (AOperatorRevoke clock t id)). intros w. split; [done|]. unfold APIKeyRevoke, get_acc, put_acc, gets. by run_method.
Qed.
Lemma writes_disable t kind name : keeps writes (on_world (Q:=Q) (CredentialDelete t kind name)).
Proof.
  apply (writes_acct _ (AOperatorDisable t kind name)). intros w. split; [done|]. unfold CredentialDelete, get_acc, put_acc, gets. by run_method.
Qed.
Lemma writes_periodic t id v : keeps writes (on_world (Q:=Q) (SetEnabled t id v)).
Proof.
  apply (writes_acct _ (AOperatorPeriodic t id v)). intros w. split; [done|]. unfold SetEnabled, periodic_update, get_acc, put_acc, gets. by run_method.
Qed.
Lemma writes_reveal plain : keeps writes (on_world (Q:=Q) (register [plain])).
Proof. by apply (writes_acct _ (AOperatorReveal plain)). Qed.
Lemma writes_JobGet id : keeps writes (on_river (JobGet (Q:=Q) id)).
Proof. apply writes_river. Qed.
Lemma writes_loadRun id : keeps writes (loadRun (Q:=Q) id).
Proof. apply (keeps_eq _), inert_loadRun. Qed.
Lemma writes_loadResource id : keeps writes (loadResource (Q:=Q) id).
Proof. apply (keeps_eq _), inert_loadResource. Qed.
Lemma writes_get_key id : keeps writes (on_world (Q:=Q) (APIKeyGet id)).
Proof. apply (keeps_eq _), inert_get_key. Qed.
Lemma writes_get_cred t k n : keeps writes (on_world (Q:=Q) (CredentialGet t k n)).
Proof. apply (keeps_eq _), inert_get_cred. Qed.
Hint Resolve writes_enqueue writes_cancel writes_answer writes_expire writes_restart writes_terminate writes_suspend writes_healthy
  writes_revoke writes_disable writes_periodic writes_reveal writes_river writes_loadRun writes_loadResource writes_get_key
  writes_get_cred : keeps.

Lemma cmd_writes e meta now opts c dry : keeps writes (cmd_body e meta now opts c dry).
Proof.
  destruct c; cbn [cmd_body];
    unfold job_body, cancel_run_body, answer_await_body, expire_await_body, reconcile_body, restart_body, suspend_body, terminate_body,
      adoption_probe_body, reprobe_body, revoke_key_body, disable_credential_body, periodic_body, disconnect_body, export_body,
      run_evidence, resource_evidence, reveal_body, reveal_plain, preview, done_, fails, refuse, or_fail, run_after, resource_after,
      or_zero; solve_handler.
Qed.

Lemma writeAudit_world e meta aid command targets opts before after result text idem (a : AW) :
  aw_world (writeAudit e meta aid command targets opts before after result text idem a).1 = aw_world a.
Proof. unfold writeAudit. by repeat case_match. Qed.

Lemma run_exec_writes m a : keeps writes m → writes a (run_exec m a).1.
Proof. intros Hm. rewrite run_exec_fst. apply Hm. Qed.

Lemma writes_world a b c : writes a b → aw_world c = aw_world b → writes a c.
Proof. intros Hab Hc. etrans; [exact Hab|by apply writes_same]. Qed.

Lemma run_body_writes e meta command opts targets aid idem exec a : (∀ dry, keeps writes (exec dry)) →
  writes a (run_body (Q:=Q) e meta command opts targets aid idem exec a).1.
Proof.
  intros Hx. unfold run_body. pose proof (run_exec_writes _ a (Hx true)) as W1.
  destruct (run_exec (exec true) a) as [a1 x]. pose proof (run_exec_writes _ a1 (Hx false)) as W2.
  destruct (run_exec (exec false) a1) as [a2 y]. simpl in W1, W2. assert (writes a a2) as W12 by (by etrans).
  repeat case_match; simpl;
    match goal with E : writeAudit ?e ?m ?i ?c ?t ?o ?b ?f ?r ?x ?k ?s = _ |- _ =>
      pose proof (writeAudit_world e m i c t o b f r x k s) as Hw; rewrite E in Hw; simpl in Hw end;
    by (eapply writes_world; [|eassumption]).
Qed.

(** Refinement.  Whatever a command does to the core tables is a sequence of
    the transactions of the system, and whatever it does to the accounts and the
    redactor is a sequence of account steps: every theorem about histories of the
    system and of the accounts also covers operators. *)
Theorem command_is_step e meta now aid opts c (a : AW) :
  rtc (sys_step sv) (w_db (aw_world a)) (w_db (aw_world (run_command e meta now aid opts c a).1)) ∧
  rtc acct_step (aw_world a) (aw_world (run_command e meta now aid opts c a).1).
Proof.
  change (writes a (run_command e meta now aid opts c a).1). rewrite run_command_Run. unfold Run.
  assert (∀ o idem b, writes b (run_body e meta (cmd_name c) o (cmd_targets c) aid idem (cmd_body e meta now opts c) b).1) as Hb
    by (intros; apply run_body_writes, cmd_writes).
  case_match; [|cbv zeta; case_match; [apply Hb|]].
  { by apply writes_same. }
  repeat case_match; simpl; try reflexivity.
  all: match goal with E : acquire ?e ?t ?s = _ |- _ => pose proof (acquire_frame e t s) as (Hw & _); rewrite E in Hw; simpl in Hw end.
  - by apply writes_same.
  - match goal with E : run_body _ _ _ ?o _ _ ?i _ ?b = (?x, _) |- _ => pose proof (Hb o i b) as Hr; rewrite E in Hr end.
    etrans; [by apply writes_same|]. eapply writes_world; [exact Hr|]. apply release_frame.
Qed.

End commands.


(** ** Secrets stay out of the audit trail *)

Section secrecy.
Context {Q : Type} `{River Q} `{PreviewDigest} `{GoTime} `{EvidenceText}.
Notation AW := (AdminWorld Q).

(** What the audit row of a run is made of. *)
Definition same_row (p q : AW * Exec) : Prop :=
  aw_audit p.1 = aw_audit q.1 ∧ db_now (w_db (aw_world p.1)) = db_now (w_db (aw_world q.1)) ∧
  xBefore p.2 = xBefore q.2 ∧ xAfter p.2 = xAfter q.2 ∧ xErr p.2 = xErr q.2.

Lemma writeAudit_same e meta aid command targets opts before after result text idem (a b : AW) :
  aw_audit a = aw_audit b → db_now (w_db (aw_world a)) = db_now (w_db (aw_world b)) →
  aw_audit (writeAudit e meta aid command targets opts before after result text idem a).1 =
  aw_audit (writeAudit e meta aid command targets opts before after result text idem b).1.
Proof.
  intros Ha Hn. unfold writeAudit, lookupIdempotent. rewrite Ha, Hn. case_match; [by case_match|done].
Qed.

Lemma run_body_same e meta command opts targets aid idem f g (a : AW) :
  run_exec (f true) a = run_exec (g true) a → (∀ b, same_row (run_exec (f false) b) (run_exec (g false) b)) →
  aw_audit (run_body e meta command opts targets aid idem f a).1 = aw_audit (run_body e meta command opts targets aid idem g a).1.
Proof.
  intros Hp Hs. unfold run_body. rewrite Hp. destruct (run_exec (g true) a) as [b x]. specialize (Hs b).
  destruct (run_exec (f false) b) as [c1 y1], (run_exec (g false) b) as [c2 y2]. destruct Hs as (Ha & Hn & Hb & Hf & He). cbn [fst snd] in Ha, Hn, Hb, Hf, He.
  destruct (xErr x); [done|]. destruct (coDryRun opts); [done|].
  case_bool_decide; cbn [negb]; [|done].
  rewrite <-He, <-Hb, <-Hf. destruct (xErr y1).
  - pose proof (writeAudit_same e meta aid command targets (Some opts) (xBefore y1) (xAfter y1) "failed" (cmd_err_text c) "" c1 c2 Ha Hn) as E.
    destruct (writeAudit (Q:=Q) _ _ _ _ _ _ _ _ _ _ _ c1), (writeAudit (Q:=Q) _ _ _ _ _ _ _ _ _ _ _ c2). exact E.
  - cbv zeta. set (w := if applied (xAfter y1) then "already_applied" else "ok").
    pose proof (writeAudit_same e meta aid command targets (Some opts) (xBefore y1) (xAfter y1) w "" idem c1 c2 Ha Hn) as E.
    destruct (writeAudit (Q:=Q) _ _ _ _ _ _ _ _ _ _ _ c1) as [? []], (writeAudit (Q:=Q) _ _ _ _ _ _ _ _ _ _ _ c2) as [? []]; exact E.
Qed.

Lemma Run_same e meta now aid command opts targets f g (a : AW) :
  (∀ b, run_exec (f true) b = run_exec (g true) b) → (∀ b, same_row (run_exec (f false) b) (run_exec (g false) b)) →
  aw_audit (Run e meta now aid command opts targets f a).1 = aw_audit (Run e meta now aid command opts targets g a).1.
Proof.
  intros Hp Hs. unfold Run. repeat (case_match; simplify_eq; try done); try (by apply run_body_same).
  match goal with E : acquire _ _ _ = (?b, None), E1 : run_body _ _ _ ?o _ _ ?i f _ = _, E2 : run_body _ _ _ _ _ _ _ g _ = _ |- _ =>
    pose proof (run_body_same e meta command o targets aid i f g b (Hp b) Hs) as R; rewrite E1, E2 in R end.
  unfold release. by repeat case_bool_decide.
Qed.

(** Two keyrings that open the same ciphertexts, to whatever plain texts. *)
Definition same_ciphertexts (r1 r2 : Aead) : Prop := ∀ enc,
  match Decrypt (H:=r1) enc, Decrypt (H:=r2) enc with
  | Ok _, Ok _ => True
  | Err e1, Err e2 => e1 = e2
  | _, _ => False
  end.

Lemma reveal_plain_same r1 r2 clock before enc (b : AW) : same_ciphertexts r1 r2 →
  same_row (run_exec (reveal_plain (H1:=r1) clock before enc false) b) (run_exec (reveal_plain (H1:=r2) clock before enc false) b).
Proof.
  intros Hr. specialize (Hr enc). unfold reveal_plain, or_fail, attempt, of_result, run_exec, mbind, M_bind.
  by destruct (Decrypt (H:=r1) enc), (Decrypt (H:=r2) enc); simplify_eq.
Qed.

Lemma same_row_refl (p : AW * Exec) : same_row p p.
Proof. done. Qed.

(** What follows a read of the state. *)
Lemma same_row_bind {A} (m : M AW A) f g (b : AW) : (∀ x c, same_row (run_exec (f x) c) (run_exec (g x) c)) →
  same_row (run_exec (x ← m; f x) b) (run_exec (x ← m; g x) b).
Proof. intros Hfg. unfold run_exec, mbind, M_bind. destruct (m b) as [c [x|er]]; [apply (Hfg x c)|done]. Qed.

Lemma reveal_body_same r1 r2 e meta opts clock sk key t k n (b : AW) : same_ciphertexts r1 r2 →
  same_row (run_exec (reveal_body (H1:=r1) e meta opts clock sk key t k n false) b)
           (run_exec (reveal_body (H1:=r2) e meta opts clock sk key t k n false) b).
Proof.
  intros Hr. unfold reveal_body. repeat (case_match; try apply same_row_refl);
    apply same_row_bind; intros x c; by apply reveal_plain_same.
Qed.

(** Secrecy.  What a command leaves in the audit trail does not depend on
    the secrets it decrypts: under two keyrings that open the same ciphertexts to
    different plain texts the same command leaves the same trail. *)
Theorem reveal_not_audited r1 r2 e meta now aid opts c (a : AW) : same_ciphertexts r1 r2 →
  aw_audit (run_command (ring:=r1) e meta now aid opts c a).1 = aw_audit (run_command (ring:=r2) e meta now aid opts c a).1.
Proof.
  intros Hr. rewrite !run_command_Run. apply Run_same; intros b.
  - by destruct c.
  - destruct c; try apply same_row_refl. by apply reveal_body_same.
Qed.

End secrecy.

(** ** The rate limit *)

Section rate.
Context {Q : Type}.
Notation AW := (AdminWorld Q).

(** Concurrent commands take and return tokens under the engine's lock, in any
    order: [Take t] is an [acquire] at [t], [Return] a [release]. *)
Inductive bucket_op := Take (t : time) | Return.

(** The state after the operations and the number of commands let in. *)
Fixpoint bucket_run (e : Deps) (ops : list bucket_op) (a : AW) : AW * Z :=
  match ops with
  | [] => (a, 0%Z)
  | Take t :: ops => match acquire e t a with
                     | (a', None) => let '(a'', n) := bucket_run e ops a' in (a'', n + 1)%Z
                     | (a', Some _) => bucket_run e ops a'
                     end
  | Return :: ops => bucket_run e ops (release a)
  end.

(** The clock does not go back. *)
Fixpoint in_order (t0 : time) (ops : list bucket_op) : bool :=
  match ops with
  | [] => true
  | Take t :: ops => bool_decide (t0 ≤ t)%Z && in_order t ops
  | Return :: ops => in_order t0 ops
  end.

Definition bucket_ok (e : Deps) (a : AW) : Prop :=
  (0 ≤ aw_tokens a ≤ rate e * one_token ∧ 0 ≤ aw_inflight a ≤ max_concurrent e)%Z.

Lemma rate_pos e : (1 ≤ rate e)%Z ∧ (1 ≤ max_concurrent e)%Z.
Proof. unfold rate, max_concurrent. repeat case_bool_decide; lia. Qed.

Lemma acquire_ok e t (a : AW) : bucket_ok e a → (aw_lastFill a ≤ t)%Z → let '(a', er) := acquire e t a in
  bucket_ok e a' ∧ aw_lastFill a' = t ∧
  (aw_tokens a' + (if er then 0 else one_token) ≤ aw_tokens a + rate e * (t - aw_lastFill a))%Z.
Proof.
  intros [Ht Hi] Hl. destruct (rate_pos e) as [Hr Hm]. unfold acquire, bucket_ok, one_token in *.
  repeat case_bool_decide; cbn [aw_tokens aw_inflight aw_lastFill with_bucket]; split_and!; try lia; nia.
Qed.

Lemma release_ok e (a : AW) : bucket_ok e a → bucket_ok e (release a) ∧ aw_lastFill (release a) = aw_lastFill a ∧
  aw_tokens (release a) = aw_tokens a.
Proof. intros [Ht Hi]. unfold release, bucket_ok. case_bool_decide; simpl; split_and!; done || lia. Qed.

Lemma bucket_run_ok e ops : ∀ a : AW, bucket_ok e a → in_order (aw_lastFill a) ops = true →
  let '(a', n) := bucket_run e ops a in bucket_ok e a' ∧ (aw_lastFill a ≤ aw_lastFill a')%Z ∧
  (aw_tokens a' + n * one_token ≤ aw_tokens a + rate e * (aw_lastFill a' - aw_lastFill a))%Z.
Proof.
  induction ops as [|[t|] ops IH]; intros a Ha Ho; cbn [bucket_run in_order] in *.
  - split; [done|]. lia.
  - apply andb_true_iff in Ho as [Hle%bool_decide_eq_true Ho]. pose proof (acquire_ok e t a Ha Hle) as Hac.
    destruct (acquire e t a) as [a1 er]. destruct Hac as (Ha1 & Hl & Htok). rewrite <-Hl in Ho. specialize (IH a1 Ha1 Ho).
    destruct er; destruct (bucket_run e ops a1) as [a2 n]; destruct IH as (? & ? & ?); (split; [done|]); nia.
  - destruct (release_ok e a Ha) as (Ha1 & Hl & Htok). rewrite <-Hl in Ho. specialize (IH _ Ha1 Ho).
    destruct (bucket_run e ops (release a)) as [a2 n]. by rewrite Hl, Htok in IH.
Qed.

(** C21: the rate limit.  However takes and returns interleave after the engine
    starts, the number of commands let in up to the last take is at most the
    burst plus what the rate allows in the time passed, no more than the
    configured number run at once, and the bucket never holds less than nothing
    or more than the burst. *)
Theorem rate_bounded e t0 w audit (q : Q) ops : in_order t0 ops = true →
  let '(a, n) := bucket_run e ops (New e t0 w audit q) in
  (n * one_token ≤ rate e * one_token + rate e * (aw_lastFill a - t0) ∧
   0 ≤ aw_inflight a ≤ max_concurrent e ∧ 0 ≤ aw_tokens a ≤ rate e * one_token)%Z.
Proof.
  intros Ho. destruct (rate_pos e) as [Hr Hm]. pose proof (bucket_run_ok e ops (New e t0 w audit q)) as Hb.
  assert (bucket_ok e (New e t0 w audit q)) as Hok by (unfold bucket_ok, New, one_token; simpl; lia).
  specialize (Hb Hok Ho). destruct (bucket_run _ _ _) as [a n]. destruct Hb as ([? ?] & ? & ?).
  cbn [aw_tokens aw_lastFill New] in *. split_and!; lia.
Qed.

End rate.

(** ** A concrete engine *)

Module CommandDemo.

#[local] Instance river : River (gmap Z JobInfo) := {|
  JobGet := λ id q, (q, match q !! id with Some j => Ok j | None => Err ErrNotFound end);
  JobRetry := λ id q, match q !! id with
                      | Some j => let j' := MkJobInfo "available" (jiAttempt j) (jiKind j) in (<[id := j']> q, Ok j')
                      | None => (q, Err ErrNotFound)
                      end;
  JobCancel := λ id q, match q !! id with
                       | Some j => let j' := MkJobInfo "cancelled" (jiAttempt j) (jiKind j) in (<[id := j']> q, Ok j')
                       | None => (q, Err ErrNotFound)
                       end;
|}.
#[local] Instance river_ok : RiverOk (gmap Z JobInfo).
Proof. intros id q. simpl. by destruct (q !! id). Qed.
#[local] Instance preview_text : PreviewDigest :=
  λ command targets before, command +:+ ":" +:+ match before !! "state" with Some (JStr s) => s | _ => "-" end.
#[local] Instance clock_format : GoTime := {| ParseTime := λ _, None; FormatTime := λ t, pretty t |}.
#[local] Instance evidence : EvidenceText := {| json_text := λ _, "{}"; payload_preview := λ _, "{}" |}.
Definition ring1 : Aead := {| NonceSize := 1; Seal := λ n p, n ++ p; Open := λ n c, Some (drop (length n) c) |}.
Definition ring2 : Aead := {| NonceSize := 1; Seal := λ n p, n ++ p; Open := λ n c, Some (replicate 4 65%Z) |}.
#[local] Instance ring : Aead := ring1.

Definition deps : Deps := MkDeps true true true true "v1" (MkFlags true true true false) 2 1.
Definition operator : Meta := MkMeta (MkOperator "op1" "Olga" RoleAdmin) "req-1" "10.0.0.1" true.

(** The run "r1" waits for its child; the accounts hold one key. *)
Definition key1 : APIKey := MkAPIKey "k1" "acme" "ci" "sessions" "ul_1" [1; 2]%Z [9; 9; 83; 69; 67]%Z 0 None.
Definition start : AdminWorld (gmap Z JobInfo) :=
  New deps 0 (MkWorld d_parked (MkAccounts ∅ {["k1" := key1]} ∅ ∅) []) [] ∅.

(** The two phases: a dry run, then the command with the hash it returned. *)
Definition dry : CommandOptions := MkOptions true "" "" "".
Definition confirm (c : command) (key : string) (a : AdminWorld (gmap Z JobInfo)) : CommandOptions :=
  MkOptions false "stuck" key (from_option rsPreviewHash "" (run_command deps operator 1 "a0" (Some dry) c a).2.1).

Definition cancel : CommandOptions := confirm (CCancelRun "r1") "key-1" start.
Definition cancelled : AdminWorld (gmap Z JobInfo) * (option Result * option cmd_err) :=
  run_command deps operator 1 "a1" (Some cancel) (CCancelRun "r1") start.

Lemma audit_wf_nil : audit_wf [].
Proof. by split; intros; set_solver. Qed.

Lemma cancelled_world : aw_world cancelled.1 ≠ aw_world start.
Proof. intros E. apply (f_equal (λ w, ar_state <$> db_runs (w_db w) !! "r1")) in E. vm_compute in E. discriminate E. Qed.

Lemma command_confirmed_witness :
  (∃ b x, same_but_counters start b ∧ run_exec (cmd_body deps operator 1 (Some cancel) (CCancelRun "r1") true) b = (b, x) ∧
     coPreviewHash cancel = previewHash CmdCancelRun {["run_id" := JStr "r1"]} (xBefore x)) ∧
  (ar_state <$> db_runs (w_db (aw_world cancelled.1)) !! "r1") = Some RunCancelled.
Proof.
  split; [|vm_compute; reflexivity].
  destruct (command_confirmed deps operator 1 "a1" (Some cancel) (CCancelRun "r1") start audit_wf_nil)
    as (o & b & x & [= <-] & _ & _ & _ & _ & _ & Hb & Hx & _ & Hh).
  - left. exact cancelled_world.
  - exists b, x. split_and!; [exact Hb|exact Hx|exact Hh].
Defined.


Definition result1 : Result := default (MkResult false "" None None [] "" "" "" false "" "" 0) cancelled.2.1.


Definition reveal : command := CReveal "api_key" "k1" "" "" "".
Definition reveal_options : CommandOptions := confirm reveal "key-2" start.

Lemma reveal_not_audited_witness :
  aw_audit (run_command (ring:=ring1) deps operator 1 "a1" (Some reveal_options) reveal start).1 =
  aw_audit (run_command (ring:=ring2) deps operator 1 "a1" (Some reveal_options) reveal start).1 ∧
  (rsPlaintext <$> (run_command (ring:=ring1) deps operator 1 "a1" (Some reveal_options) reveal start).2.1) = Some "SEC" ∧
  (rsPlaintext <$> (run_command (ring:=ring2) deps operator 1 "a1" (Some reveal_options) reveal start).2.1) = Some "AAAA".
Proof.
  split; [|split; vm_compute; reflexivity].
  apply (reveal_not_audited ring1 ring2). intros enc. unfold Decrypt. simpl. by destruct (length enc <? 1)%nat.
Defined.

Definition burst : list bucket_op := [Take 0; Take 0; Return; Take 1; Return; Take 2; Take 1000000002].

Lemma rate_bounded_witness : in_order 0 burst = true ∧
  let '(a, n) := bucket_run deps burst (New deps 0 (aw_world start) [] (∅ : gmap Z JobInfo)) in
  (n * one_token ≤ 2 * one_token + 2 * 1000000002)%Z ∧ n = 3%Z.
Proof.
  split; [vm_compute; reflexivity|].
  pose proof (rate_bounded deps 0 (aw_world start) [] (∅ : gmap Z JobInfo) burst ltac:(vm_compute; reflexivity)) as Hb.
  destruct (bucket_run _ _ _) as [a n] eqn:E. vm_compute in E. injection E as <- <-. split; [|reflexivity].
  destruct Hb as [Hb _]. exact Hb.
Defined.

End CommandDemo.
