(* ===== verification/AdminReads.v ===== *)
(** * The reads of the admin store (package [admin/store])

    [admin/store/store.go]: the conversions of scanned values, the listing of a
    collection with the row handler of each, the single-object reads, the runtime
    health, the timeline of a session and the related objects.

    The tables are those of the core and the accounts ([World]), the audit table,
    the queue table of River and the two columns of [run_waits] that the core
    never reads ([Tables]).  A collection is a [View] of them: the rows of its
    [FROM], the value of each column expression its descriptor names, and the
    values of its select list, in order.  The database answers the statement the
    compiler writes by the plan it renders ([Paging.exec]); the sort columns follow
    the data columns ([injectSortSelect]).  Statements do not fail: the code's
    error paths for a lost connection are left out.  Ids are strings, as
    everywhere; the timeout of a query has no counterpart.

    Parameters: [RowText], the text of the JSON columns; [GoFmt], the text
    [fmt.Sprint] and [time.Time.String] give; [Structpb], the conversion of a JSON
    object to a protobuf struct. *)
From S2P Require Import Prelude Policy Domain Text Store StoreRuns EventLog Waits Strings Redact AdminQuery QuerySpec Plans Paging Descriptors Accounts AdminCommands.

Definition MaxPreviewBytes : Z := 256.

(** ** Scanned values *)

(** What the driver hands out: the values [FormatSortValue] tells apart, a
    float, and a decoded JSON object or map of strings. *)
Inductive dbval :=
  | Col (v : goval)
  | ColFloat (trunc : Z) (text : string)
  | ColMap (m : list (string * json))
  | ColStrings (m : gmap string string).

Class RowText := {
  payload_text : payload → string;
  history_text : raw_history → string;
  doc_text : json → string;
  policy_text : RunPolicy → string;
  model_text : ModelConfig → string;
  capabilities_text : ProviderCapabilities → string;
  array_text : list string → string;
}.
Class GoFmt := { time_String : time → string; any_String : json → string }.
Definition Struct : Type := list (string * json).
Class Structpb := { NewStruct : list (string * json) → option Struct; unmarshal_object : list Z → option (list (string * json)) }.

(** A timestamp of a message; the zero time is left out. *)
Definition ts (t : time) : option time := if bool_decide (t = 0%Z) then None else Some t.
Definition tsPtr (t : option time) : option time :=
  match t with None => None | Some x => if bool_decide (x = 0%Z) then None else Some x end.

Section conversions.
Context `{GoFmt} `{Structpb}.

(** The [String] method of a nil pointer would panic; the driver returns none. *)
Definition asString (v : dbval) : string :=
  match v with
  | Col GoNil => ""
  | Col (GoString s) => s
  | Col (GoUUID b) => formatUUIDBytes b
  | Col (GoBytes b) => if (length b =? 16)%nat then formatUUIDBytes b else of_bytes b
  | Col (GoTimeVal t) | Col (GoTimePtr (Some t)) => time_String t
  | Col (GoTimePtr None) => ""
  | Col (GoInt z) => pretty z
  | Col (GoBool b) => if b then "true" else "false"
  | Col (GoOther s) => s
  | ColFloat _ s => s
  | ColMap m => any_String (JObj m)
  | ColStrings m => any_String (JObj (map_to_list (JStr <$> m)))
  end.

Definition asTime (v : dbval) : time :=
  match v with
  | Col (GoTimeVal t) | Col (GoTimePtr (Some t)) => t
  | _ => 0%Z
  end.

Definition asTimePtr (v : dbval) : option time :=
  match v with
  | Col (GoTimeVal t) => if bool_decide (t = 0%Z) then None else Some t
  | Col (GoTimePtr t) => t
  | _ => None
  end.

Definition asInt64 (v : dbval) : Z :=
  match v with
  | Col (GoInt z) => z
  | ColFloat z _ => z
  | _ => 0%Z
  end.

Definition asInt32 (v : dbval) : Z := int32 (asInt64 v).

Definition asBool (v : dbval) : bool := match v with Col (GoBool b) => b | _ => false end.

Definition asStruct (v : dbval) : Struct :=
  match v with
  | Col (GoBytes b) => match unmarshal_object b with Some m => default [] (NewStruct m) | None => [] end
  | ColMap m => default [] (NewStruct m)
  | _ => []
  end.

(** A value of a decoded JSON object. *)
Definition any_text (j : json) : string :=
  match j with JNull => "" | JStr s => s | _ => any_String j end.

Definition asStringMap (v : dbval) : gmap string string :=
  match v with
  | ColStrings m => m
  | ColMap m => list_to_map ((λ kv, (kv.1, any_text kv.2)) <$> m)
  | _ => ∅
  end.

End conversions.

(** ** Messages *)

Record TenantSummary := MkTenantSummary {
  ts_id : string; ts_name : string; ts_created_at : option time; ts_sessions : Z; ts_runs : Z; ts_keys : Z;
}.
Record APIKeySummary := MkAPIKeySummary {
  ks_id : string; ks_tenant : string; ks_name : string; ks_scope : string; ks_prefix : string; ks_created_at : option time;
  ks_revoked_at : option time; ks_hash_prefix : string; ks_has_ciphertext : bool;
}.
Record SessionSummary := MkSessionSummary {
  ss_id : string; ss_tenant : string; ss_title : string; ss_labels : gmap string string; ss_last_seq : Z;
  ss_created_at : option time; ss_archived_at : option time; ss_events : Z; ss_runs : Z; ss_resources : Z;
}.
Record SessionDetail := MkSessionDetail { sd_summary : SessionSummary; sd_label_keys : list string }.
Record EventSummary := MkEventSummary {
  es_session : string; es_tenant : string; es_seq : Z; es_ts : option time; es_actor_kind : string; es_actor_id : string;
  es_actor_display : string; es_kind : string; es_payload_bytes : Z; es_payload_preview : string;
}.
Record EventDetail := MkEventDetail { ed_summary : EventSummary; ed_payload : string }.
Record RunSummary := MkRunSummary {
  us_id : string; us_session : string; us_tenant : string; us_state : string; us_loop_kind : string; us_loop_version : Z;
  us_parent : string; us_spawn_key : string; us_cohort : string; us_cohort_ordinal : Z; us_failure_reason : string;
  us_actor_kind : string; us_actor_id : string; us_actor_display : string; us_created_at : option time;
  us_updated_at : option time; us_cancel_requested_at : option time; us_steps : Z; us_prompt_bytes : Z;
  us_history_bytes : Z; us_has_result : bool;
}.
Record RunDetail := MkRunDetail {
  ud_summary : RunSummary; ud_model : string; ud_policy : string; ud_result : string; ud_failure_message : string;
  ud_prompt : string;
}.
Record RunHistoryBlob := MkRunHistoryBlob { rh_run : string; rh_history : string }.
Record RunStepSummary := MkRunStepSummary {
  ps_run : string; ps_tenant : string; ps_session : string; ps_index : Z; ps_attempt : Z; ps_tokens_in : Z; ps_tokens_out : Z;
  ps_finish_reason : string; ps_created_at : option time;
}.
Record ResourceSummary := MkResourceSummary {
  os_id : string; os_tenant : string; os_session : string; os_provider : string; os_kind : string; os_state : string;
  os_endpoint : string; os_epoch : Z; os_failure_message : string; os_created_by : string; os_created_at : option time;
  os_updated_at : option time; os_ready_at : option time; os_terminated_at : option time; os_spec_bytes : Z;
  os_handle_bytes : Z; os_has_token : bool;
}.
Record ResourceDetail := MkResourceDetail {
  od_summary : ResourceSummary; od_spec : string; od_handle : string; od_hash_prefix : string; od_has_ciphertext : bool;
}.
Record ProviderSummary := MkProviderSummary {
  vs_id : string; vs_tenant : string; vs_kind : string; vs_name : string; vs_state : string; vs_last_healthy_at : option time;
  vs_created_at : option time; vs_config_bytes : Z; vs_capabilities_bytes : Z; vs_resources : Z;
}.
Record ProviderDetail := MkProviderDetail { vd_summary : ProviderSummary; vd_config : string; vd_capabilities : string }.
Record CredentialSummary := MkCredentialSummary {
  cs_tenant : string; cs_kind : string; cs_name : string; cs_created_at : option time; cs_rotated_at : option time;
  cs_ciphertext_bytes : Z; cs_encrypted : bool;
}.
Record PeriodicPromptSummary := MkPeriodicPromptSummary {
  qs_id : string; qs_tenant : string; qs_session : string; qs_run : string; qs_schedule : string; qs_enabled : bool;
  qs_next_at : option time; qs_created_at : option time; qs_prompt_bytes : Z; qs_prompt_preview : string;
}.
Record PeriodicPromptDetail := MkPeriodicPromptDetail { qd_summary : PeriodicPromptSummary; qd_prompt : string }.
Record MemorySummary := MkMemorySummary {
  ms_session : string; ms_tenant : string; ms_key : string; ms_updated_by_kind : string; ms_updated_by_id : string;
  ms_updated_at : option time; ms_value_bytes : Z;
}.
Record MemoryDetail := MkMemoryDetail { md_summary : MemorySummary; md_value : string }.
Record WaitSummary := MkWaitSummary {
  ws_id : string; ws_parent : string; ws_tenant : string; ws_session : string; ws_step_index : Z; ws_tool_call_id : string;
  ws_kind : string; ws_state : string; ws_timeout_policy : string; ws_deadline : option time; ws_created_at : option time;
  ws_resolved_at : option time; ws_resumed_at : option time; ws_members : Z; ws_has_result : bool;
}.
Record WaitDetail := MkWaitDetail { wd_summary : WaitSummary; wd_result : string; wd_members : list (string * Z) }.
Record JobSummary := MkJobSummary {
  js_id : Z; js_kind : string; js_state : string; js_attempt : Z; js_max_attempts : Z; js_queue : string; js_priority : string;
  js_created_at : option time; js_scheduled_at : option time; js_attempted_at : option time; js_finalized_at : option time;
  js_errors_preview : string; js_errors : Z; js_tags : string;
}.
Record JobDetail := MkJobDetail { jd_summary : JobSummary; jd_args : string; jd_metadata : string; jd_errors : list string }.
Record AuditEventSummary := MkAuditEventSummary {
  as_id : string; as_ts : option time; as_operator : string; as_role : string; as_request : string; as_command : string;
  as_targets : Struct; as_reason : string; as_preview : string; as_before : Struct; as_after : Struct; as_result : string;
  as_error : string; as_source_ip : string; as_build : string; as_idempotency : string;
}.

(** ** Tables *)

(** A row of [river_job]; [None] are null errors. *)
Record RiverJob := MkRiverJob {
  rj_id : Z; rj_kind : string; rj_state : string; rj_attempt : Z; rj_max_attempts : Z; rj_queue : string; rj_priority : Z;
  rj_created_at : time; rj_scheduled_at : time; rj_attempted_at : option time; rj_finalized_at : option time;
  rj_args : string; rj_metadata : string; rj_errors : option (list string); rj_tags : list string;
}.

(** [tb_jobs] is [None] while River's schema is absent; [tb_wait_times] holds
    [created_at] and [resolved_at] of the waits. *)
Record Tables := MkTables {
  tb_world : World; tb_audit : list AuditRow; tb_jobs : option (list RiverJob);
  tb_wait_times : gmap string (time * option time); tb_schema : Z;
}.
Definition tb_db (t : Tables) : DB := w_db (tb_world t).
Definition tb_acc (t : Tables) : Accounts := w_acc (tb_world t).

Definition RiverAvailable (t : Tables) : bool := bool_decide (is_Some (tb_jobs t)).

(** [count( * )] of the rows that satisfy a condition. *)
Definition count {A} (p : A → bool) (l : list A) : Z := Z.of_nat (length (bool_filter p l)).

(** [left(text, n)]: the first [n] characters of UTF-8 text. *)
Definition continuation (c : Ascii.ascii) : bool := between 128 (byte_of c) 191.
Fixpoint left_chars (n : nat) (s : string) : string :=
  match s with
  | EmptyString => EmptyString
  | String c rest =>
      if continuation c then String c (left_chars n rest)
      else match n with O => EmptyString | S n' => String c (left_chars n' rest) end
  end.

(** ** Views *)

Record View (R : Type) := MkView { vw_rows : list R; vw_row : R → row; vw_data : R → list dbval }.
Arguments MkView {R}. Arguments vw_rows {R}. Arguments vw_row {R}. Arguments vw_data {R}.

Fixpoint lookup_col (cols : list (string * option sqlval)) (c : string) : option sqlval :=
  match cols with
  | [] => None
  | (k, v) :: rest => if bool_decide (k = c) then v else lookup_col rest c
  end.

(** The driver's value of a column. *)
Definition scanned (v : option sqlval) : goval :=
  match v with
  | None => GoNil
  | Some (VStr s) => GoString s
  | Some (VInt z) => GoInt z
  | Some (VBool b) => GoBool b
  | Some (VTime t) => GoTimeVal t
  end.

Definition str (s : string) : dbval := Col (GoString s).
Definition int (z : Z) : dbval := Col (GoInt z).
Definition tim (t : time) : dbval := Col (GoTimeVal t).
Definition nullable {A} (f : A → dbval) (o : option A) : dbval := match o with Some x => f x | None => Col GoNil end.
Definition boo (b : bool) : dbval := Col (GoBool b).
Definition text (s : string) : option sqlval := Some (VStr s).
Definition text_or_null (s : string) : option sqlval := if bool_decide (s = "") then None else Some (VStr s).

Section views.
Context `{RowText}.

(** The text of a JSON column; [None] is an empty one. *)
Definition column_text (j : option json) : string := from_option doc_text "" j.

Definition tenants_view (t : Tables) : View Tenant :=
  MkView (rows (ac_tenants (tb_acc t)))
    (λ x, lookup_col [("t.id", text (tn_id x)); ("t.name", text (tn_name x)); ("t.created_at", Some (VTime (tn_created_at x)))])
    (λ x, [str (tn_id x); str (tn_name x); tim (tn_created_at x);
           int (count (λ s, bool_decide (se_tenant s = tn_id x)) (rows (db_sessions (tb_db t))));
           int (count (λ r, bool_decide (ar_tenant r = tn_id x)) (rows (db_runs (tb_db t))));
           int (count (λ k, bool_decide (ak_tenant k = tn_id x)) (rows (ac_keys (tb_acc t))))]).

Definition hash_prefix (hash : list Z) : string := hexs (take 4 hash).

Definition api_keys_view (t : Tables) : View APIKey :=
  MkView (rows (ac_keys (tb_acc t)))
    (λ k, lookup_col [("k.id", text (ak_id k)); ("k.tenant_id", text (ak_tenant k)); ("k.name", text (ak_name k));
                      ("k.scope", text (ak_scope k)); ("k.prefix", text (ak_prefix k));
                      ("k.created_at", Some (VTime (ak_created_at k))); ("k.revoked_at", VTime <$> ak_revoked_at k)])
    (λ k, [str (ak_id k); str (ak_tenant k); str (ak_name k); str (ak_scope k); str (ak_prefix k); tim (ak_created_at k);
           nullable tim (ak_revoked_at k); str (hash_prefix (ak_hash k)); boo (negb (bool_decide (ak_enc k = [])))]).

Definition sessions_view (t : Tables) : View Session :=
  MkView (rows (db_sessions (tb_db t)))
    (λ s, lookup_col [("s.id", text (se_id s)); ("s.tenant_id", text (se_tenant s)); ("s.title", text (se_title s));
                      ("s.last_seq", Some (VInt (se_last_seq s))); ("s.created_at", Some (VTime (se_created_at s)));
                      ("s.archived_at", VTime <$> se_archived_at s)])
    (λ s, [str (se_id s); str (se_tenant s); str (se_title s); ColMap (map_to_list (JStr <$> se_labels s));
           int (se_last_seq s); tim (se_created_at s); nullable tim (se_archived_at s);
           int (count (λ e, bool_decide (ev_session e = se_id s)) (db_events (tb_db t)));
           int (count (λ r, bool_decide (ar_session r = se_id s)) (rows (db_runs (tb_db t))));
           int (count (λ r, bool_decide (r_session r = se_id s)) (rows (db_resources (tb_db t))))]).

(** An inner join on the session's, or the run's, id. *)
Definition join {A B} (key : A → string) (m : gmap string B) (l : list A) : list (A * B) :=
  omap (λ a, (λ b, (a, b)) <$> m !! key a) l.

Definition events_view (t : Tables) : View (Event * Session) :=
  MkView (join ev_session (db_sessions (tb_db t)) (db_events (tb_db t)))
    (λ '(e, s), lookup_col [("e.session_id", text (ev_session e)); ("e.seq", Some (VInt (ev_seq e)));
                            ("s.tenant_id", text (se_tenant s)); ("e.ts", Some (VTime (ev_ts e))); ("e.kind", text (ev_kind e));
                            ("e.actor_type", text (actKind (ev_actor e))); ("e.actor_id", text (actID (ev_actor e)))])
    (λ '(e, s), [str (ev_session e); str (se_tenant s); int (ev_seq e); tim (ev_ts e); str (actKind (ev_actor e));
                 str (actID (ev_actor e)); str (actDisplay (ev_actor e)); str (ev_kind e);
                 int (slen (payload_text (ev_payload e))); str (left_chars 256 (payload_text (ev_payload e)))]).

Definition runs_view (t : Tables) : View AgentRun :=
  MkView (rows (db_runs (tb_db t)))
    (λ r, lookup_col [("r.id", text (ar_id r)); ("r.session_id", text (ar_session r)); ("r.tenant_id", text (ar_tenant r));
                      ("r.state", text (run_state_name (ar_state r))); ("r.loop_kind", text (ar_loop_kind r));
                      ("r.parent_run_id", VStr <$> ar_parent r); ("r.cohort_id", text_or_null (ar_cohort_id r));
                      ("r.spawn_key", text_or_null (ar_spawn_key r)); ("r.created_at", Some (VTime (ar_created_at r)));
                      ("r.updated_at", Some (VTime (ar_updated_at r)))])
    (λ r, [str (ar_id r); str (ar_session r); str (ar_tenant r); str (run_state_name (ar_state r)); str (ar_loop_kind r);
           int (ar_loop_version r); str (default "" (ar_parent r)); str (ar_spawn_key r); str (ar_cohort_id r);
           int (ar_cohort_ordinal r); str (ar_failure_reason r); str (actKind (ar_actor r)); str (actID (ar_actor r));
           str (actDisplay (ar_actor r)); tim (ar_created_at r); tim (ar_updated_at r);
           nullable tim (ar_cancel_requested_at r);
           int (count (λ s, bool_decide (rs_run s = ar_id r)) (db_steps (tb_db t)));
           int (slen (ar_prompt r)); int (slen (history_text (ar_history r))); boo (bool_decide (is_Some (ar_result r)))]).

Definition run_steps_view (t : Tables) : View (RunStep * AgentRun) :=
  MkView (join rs_run (db_runs (tb_db t)) (db_steps (tb_db t)))
    (λ '(s, r), lookup_col [("st.agent_run_id", text (rs_run s)); ("st.step_index", Some (VInt (rs_step_index s)));
                            ("r.tenant_id", text (ar_tenant r)); ("r.session_id", text (ar_session r));
                            ("st.created_at", Some (VTime (rs_created_at s))); ("st.finish_reason", text (rs_finish_reason s))])
    (λ '(s, r), [str (rs_run s); str (ar_tenant r); str (ar_session r); int (rs_step_index s); int (rs_attempt s);
                 int (rs_tokens_in s); int (rs_tokens_out s); str (rs_finish_reason s); tim (rs_created_at s)]).

Definition resources_view (t : Tables) : View Resource :=
  MkView (rows (db_resources (tb_db t)))
    (λ r, lookup_col [("res.id", text (r_id r)); ("res.tenant_id", text (r_tenant r)); ("res.session_id", text (r_session r));
                      ("res.provider_instance_id", text (r_provider r)); ("res.kind", text (r_kind r));
                      ("res.state", text (resource_state_name (r_state r))); ("res.created_at", Some (VTime (r_created_at r)));
                      ("res.updated_at", Some (VTime (r_updated_at r)))])
    (λ r, [str (r_id r); str (r_tenant r); str (r_session r); str (r_provider r); str (r_kind r);
           str (resource_state_name (r_state r)); str (r_endpoint r); int (r_epoch r); str (r_failure_message r);
           str (default "" (r_created_by r)); tim (r_created_at r); tim (r_updated_at r); nullable tim (r_ready_at r);
           nullable tim (r_terminated_at r); int (slen (column_text (r_spec r))); int (slen (column_text (r_handle r)));
           boo (negb (bool_decide (r_token_enc r = "")))]).

Definition providers_view (t : Tables) : View ProviderInstance :=
  MkView (rows (db_providers (tb_db t)))
    (λ p, lookup_col [("p.id", text (pi_id p)); ("p.tenant_id", text (pi_tenant p)); ("p.kind", text (pi_kind p));
                      ("p.name", text (pi_name p)); ("p.state", text (pi_state p)); ("p.created_at", Some (VTime (pi_created_at p)));
                      ("p.last_healthy_at", VTime <$> pi_last_healthy_at p)])
    (λ p, [str (pi_id p); str (pi_tenant p); str (pi_kind p); str (pi_name p); str (pi_state p);
           nullable tim (pi_last_healthy_at p); tim (pi_created_at p); int (slen (doc_text (pi_config p)));
           int (slen (capabilities_text (pi_capabilities p)));
           int (count (λ r, bool_decide (r_provider r = pi_id p)) (rows (db_resources (tb_db t))))]).

Definition credentials_view (t : Tables) : View Credential :=
  MkView (rows (ac_credentials (tb_acc t)))
    (λ c, lookup_col [("c.tenant_id", text (cr_tenant c)); ("c.kind", text (cr_kind c)); ("c.name", text (cr_name c));
                      ("c.created_at", Some (VTime (cr_created_at c))); ("c.rotated_at", Some (VTime (cr_rotated_at c)))])
    (λ c, [str (cr_tenant c); str (cr_kind c); str (cr_name c); tim (cr_created_at c); tim (cr_rotated_at c);
           int (Z.of_nat (length (cr_enc c))); boo true]).

Definition periodic_prompts_view (t : Tables) : View PeriodicRow :=
  MkView (rows (ac_periodic (tb_acc t)))
    (λ p, lookup_col [("pp.id", text (pp_id p)); ("pp.tenant_id", text (pp_tenant p)); ("pp.session_id", text (pp_session p));
                      ("pp.run_id", VStr <$> pp_run p); ("pp.schedule", text (pp_schedule p));
                      ("pp.enabled", Some (VBool (pp_enabled p))); ("pp.next_at", Some (VTime (pp_next_at p)));
                      ("pp.created_at", Some (VTime (pp_created_at p)))])
    (λ p, [str (pp_id p); str (pp_tenant p); str (pp_session p); str (default "" (pp_run p)); str (pp_schedule p);
           boo (pp_enabled p); tim (pp_next_at p); tim (pp_created_at p); int (slen (pp_prompt p));
           str (left_chars 256 (pp_prompt p))]).

Definition memory_view (t : Tables) : View (SessionMemoryEntry * Session) :=
  MkView (join me_session (db_sessions (tb_db t)) (rows (db_memory (tb_db t))))
    (λ '(m, s), lookup_col [("m.session_id", text (me_session m)); ("m.key", text (me_key m)); ("s.tenant_id", text (se_tenant s));
                            ("m.updated_at", Some (VTime (me_updated_at m)));
                            ("m.updated_by_type", text (actKind (me_updated_by m)))])
    (λ '(m, s), [str (me_session m); str (se_tenant s); str (me_key m); str (actKind (me_updated_by m));
                 str (actID (me_updated_by m)); tim (me_updated_at m); int (slen (me_value m))]).

Definition wait_created (t : Tables) (w : RunWait) : time := from_option fst 0%Z (tb_wait_times t !! rw_id w).
Definition wait_resolved (t : Tables) (w : RunWait) : option time := tb_wait_times t !! rw_id w ≫= snd.

Definition waits_view (t : Tables) : View (RunWait * AgentRun) :=
  MkView (join rw_parent (db_runs (tb_db t)) (rows (db_waits (tb_db t))))
    (λ '(w, r), lookup_col [("w.id", text (rw_id w)); ("w.parent_run_id", text (rw_parent w)); ("r.tenant_id", text (ar_tenant r));
                            ("r.session_id", text (ar_session r)); ("w.state", text (wait_state_name (Some (rw_state w))));
                            ("w.kind", text (rw_kind w)); ("w.deadline", Some (VTime (rw_deadline w)));
                            ("w.created_at", Some (VTime (wait_created t w)))])
    (λ '(w, r), [str (rw_id w); str (rw_parent w); str (ar_tenant r); str (ar_session r); int (rw_step_index w);
                 str (rw_tool_call_id w); str (rw_kind w); str (wait_state_name (Some (rw_state w))); str (rw_timeout_policy w);
                 tim (rw_deadline w); tim (wait_created t w); nullable tim (wait_resolved t w); nullable tim (rw_resumed_at w);
                 int (count (λ m, bool_decide (wm_wait m = rw_id w)) (db_members (tb_db t)));
                 boo (bool_decide (is_Some (rw_result w)))]).

Definition jobs_view (t : Tables) : View RiverJob :=
  MkView (default [] (tb_jobs t))
    (λ j, lookup_col [("j.id", Some (VInt (rj_id j))); ("j.kind", text (rj_kind j)); ("j.state::text", text (rj_state j));
                      ("j.queue", text (rj_queue j)); ("j.attempt", Some (VInt (rj_attempt j)));
                      ("j.created_at", Some (VTime (rj_created_at j))); ("j.scheduled_at", Some (VTime (rj_scheduled_at j)));
                      ("j.finalized_at", VTime <$> rj_finalized_at j)])
    (λ j, [int (rj_id j); str (rj_kind j); str (rj_state j); int (rj_attempt j); int (rj_max_attempts j); str (rj_queue j);
           str (pretty (rj_priority j)); tim (rj_created_at j); tim (rj_scheduled_at j); nullable tim (rj_attempted_at j);
           nullable tim (rj_finalized_at j); str (left_chars 256 (from_option array_text "" (rj_errors j)));
           int (Z.of_nat (length (default [] (rj_errors j)))); str (Join "," (rj_tags j))]).

(** A null JSON document is scanned as nil. *)
Definition summary_column (s : option summary) : dbval := nullable (λ m, ColMap (map_to_list m)) s.

Definition audit_data (a : AuditRow) : list dbval :=
  [str (auID a); tim (auTs a); str (auOperatorID a); str (auOperatorRole a); str (auRequestID a); str (auCommand a);
   ColMap (map_to_list (auTargets a)); str (auReason a); str (auPreviewHash a); summary_column (auBefore a);
   summary_column (auAfter a); str (auResult a); str (auError a); str (auSourceIP a); str (auBuild a);
   str (default "" (auIdempotency a))].

Definition audit_events_view (t : Tables) : View AuditRow :=
  MkView (tb_audit t)
    (λ a, lookup_col [("a.id", text (auID a)); ("a.ts", Some (VTime (auTs a))); ("a.operator_id", text (auOperatorID a));
                      ("a.operator_role", text (auOperatorRole a)); ("a.command", text (auCommand a));
                      ("a.result", text (auResult a)); ("a.request_id", text (auRequestID a));
                      ("a.idempotency_key", VStr <$> auIdempotency a); ("a.reason", text (auReason a))])
    audit_data.

End views.

(** ** Results *)

(** An error of package [query] or one of the store's. *)
Inductive read_err := QueryError (e : query_err) | StoreError (e : err).
Inductive rres (A : Type) := ROk (a : A) | RErr (e : read_err).
Arguments ROk {A} a.
Arguments RErr {A} e.
#[export] Instance rres_ret : MRet rres := @ROk.
#[export] Instance rres_bind : MBind rres := λ A B f m, match m with ROk a => f a | RErr e => RErr e end.
Definition of_query {A} (q : qres A) : rres A := match q with QOk a => ROk a | QErr e => RErr (QueryError e) end.
Definition or_not_found {A} (o : option A) : rres A := match o with Some a => ROk a | None => RErr (StoreError ErrNotFound) end.

(** ** Listing *)

Section reads.
Context `{GoTime} `{Mac} `{CursorCodec} `{Digest} `{SqlOrder} `{CaseFold} `{RowText} `{GoFmt} `{Structpb}.
Context (signer : option Signer) (now : time) (buildVers : string) (t : Tables).

(** No descriptor has a [SearchExpr]. *)
Definition no_search_expr (_ : string) (_ : sqlval) (_ : row) : option bool := None.

(** The database's answer: the data columns of each selected row and behind them its sort columns. *)
Definition answer {R} (v : View R) (col : Collection) (req : Request) (c : Compiled) : qres (list (list dbval)) :=
  match where_of col req (cmCursor c) with
  | None => QErr (QueryErr "syntax error")
  | Some w =>
      QOk ((λ r, vw_data v r ++ ((λ x, Col (scanned (vw_row v r x))) <$> cmSortColumns c)) <$>
           exec no_search_expr (vw_row v) (vw_rows v) w (cmSorts c) (cmSortColumns c) (cmLimit c + 1))
  end.

(** The value as [FormatSortValue] sees it. *)
Definition sort_value (v : dbval) : goval :=
  match v with Col g => g | _ => GoOther (asString v) end.

(** The loop over the rows: [n] rows were read, [items] kept, [lastSort] is the
    sort key of the last one kept. *)
Fixpoint scan_rows {A} (nDataCols nSort : nat) (limit : Z) (handle : list dbval → A) (rs : list (list dbval))
    (n : Z) (items : list A) (lastSort : list string) : qres (Z * list A * list string) :=
  match rs with
  | [] => QOk (n, items, lastSort)
  | vals :: rest =>
      if (length vals <? nDataCols + nSort)%nat then QErr (QueryErr "admin/store: list: too few columns")
      else if bool_decide (n < limit)%Z
           then scan_rows nDataCols nSort limit handle rest (n + 1) (items ++ [handle (take nDataCols vals)])
                  (FormatSortValue ∘ sort_value <$> drop (length vals - nSort) vals)
           else scan_rows nDataCols nSort limit handle rest (n + 1) items lastSort
  end.

Definition list_ {R A} (v : View R) (name : string) (req : Request) (nDataCols : nat) (handle : list dbval → A)
  : qres (list A * PageInfo) :=
  match RegistryGet name with
  | None => QErr ErrUnknownCollection
  | Some col =>
      if bool_decide (name = "jobs") && negb (RiverAvailable t) then QOk ([], MkPageInfo "" false)
      else
        c ← Compile signer now col req;
        let '(_, nSort) := injectSortSelect c in
        rs ← answer v col req c;
        '(n, items, lastSort) ← scan_rows nDataCols (Z.to_nat nSort) (cmLimit c) handle rs 0 [] [];
        let hasMore := bool_decide (cmLimit c < n)%Z in
        if hasMore && negb (bool_decide (lastSort = []))
        then cur ← NextCursor signer now col c lastSort; QOk (items, MkPageInfo cur hasMore)
        else QOk (items, MkPageInfo "" hasMore)
  end.

(** A column of the row. *)
Definition col (vals : list dbval) (i : nat) : dbval := default (Col GoNil) (vals !! i).

Definition strAt (vals : list dbval) (i : nat) : string := asString (col vals i).
Definition i64At (vals : list dbval) (i : nat) : Z := asInt64 (col vals i).
Definition i32At (vals : list dbval) (i : nat) : Z := asInt32 (col vals i).
Definition boolAt (vals : list dbval) (i : nat) : bool := asBool (col vals i).
(** [ts(asTime(vals[i]))] and [tsPtr(asTimePtr(vals[i]))] *)
Definition tsAt (vals : list dbval) (i : nat) : option time := ts (asTime (col vals i)).
Definition tsPtrAt (vals : list dbval) (i : nat) : option time := tsPtr (asTimePtr (col vals i)).

(** ** Row handlers *)

Definition tenant_row (v : list dbval) : TenantSummary :=
  MkTenantSummary (strAt v 0) (strAt v 1) (tsAt v 2) (i64At v 3) (i64At v 4) (i64At v 5).
Definition ListTenants (req : Request) : qres (list TenantSummary * PageInfo) :=
  list_ (tenants_view t) "tenants" req 6 tenant_row.

Definition api_key_row (v : list dbval) : APIKeySummary :=
  MkAPIKeySummary (strAt v 0) (strAt v 1) (strAt v 2) (strAt v 3) (strAt v 4) (tsAt v 5) (tsPtrAt v 6) (strAt v 7) (boolAt v 8).
Definition ListAPIKeys (req : Request) : qres (list APIKeySummary * PageInfo) :=
  list_ (api_keys_view t) "api_keys" req 9 api_key_row.

Definition session_row (v : list dbval) : SessionSummary :=
  MkSessionSummary (strAt v 0) (strAt v 1) (strAt v 2) (asStringMap (col v 3)) (i64At v 4) (tsAt v 5) (tsPtrAt v 6) (i64At v 7)
    (i64At v 8) (i64At v 9).
Definition ListSessions (req : Request) : qres (list SessionSummary * PageInfo) :=
  list_ (sessions_view t) "sessions" req 10 session_row.

Definition event_row (v : list dbval) : EventSummary :=
  MkEventSummary (strAt v 0) (strAt v 1) (i64At v 2) (tsAt v 3) (strAt v 4) (strAt v 5) (strAt v 6) (strAt v 7) (i32At v 8)
    (strAt v 9).
Definition ListEvents (req : Request) : qres (list EventSummary * PageInfo) :=
  list_ (events_view t) "events" req 10 event_row.

Definition run_row (v : list dbval) : RunSummary :=
  MkRunSummary (strAt v 0) (strAt v 1) (strAt v 2) (strAt v 3) (strAt v 4) (i32At v 5) (strAt v 6) (strAt v 7) (strAt v 8)
    (i32At v 9) (strAt v 10) (strAt v 11) (strAt v 12) (strAt v 13) (tsAt v 14) (tsAt v 15) (tsPtrAt v 16) (i32At v 17)
    (i32At v 18) (i32At v 19) (boolAt v 20).
Definition ListRuns (req : Request) : qres (list RunSummary * PageInfo) :=
  list_ (runs_view t) "runs" req 21 run_row.

Definition run_step_row (v : list dbval) : RunStepSummary :=
  MkRunStepSummary (strAt v 0) (strAt v 1) (strAt v 2) (i32At v 3) (i32At v 4) (i64At v 5) (i64At v 6) (strAt v 7) (tsAt v 8).
Definition ListRunSteps (req : Request) : qres (list RunStepSummary * PageInfo) :=
  list_ (run_steps_view t) "run_steps" req 9 run_step_row.

Definition resource_row (v : list dbval) : ResourceSummary :=
  MkResourceSummary (strAt v 0) (strAt v 1) (strAt v 2) (strAt v 3) (strAt v 4) (strAt v 5) (strAt v 6) (i32At v 7) (strAt v 8)
    (strAt v 9) (tsAt v 10) (tsAt v 11) (tsPtrAt v 12) (tsPtrAt v 13) (i32At v 14) (i32At v 15) (boolAt v 16).
Definition ListResources (req : Request) : qres (list ResourceSummary * PageInfo) :=
  list_ (resources_view t) "resources" req 17 resource_row.

Definition provider_row (v : list dbval) : ProviderSummary :=
  MkProviderSummary (strAt v 0) (strAt v 1) (strAt v 2) (strAt v 3) (strAt v 4) (tsPtrAt v 5) (tsAt v 6) (i32At v 7) (i32At v 8)
    (i64At v 9).
Definition ListProviders (req : Request) : qres (list ProviderSummary * PageInfo) :=
  list_ (providers_view t) "providers" req 10 provider_row.

Definition credential_row (v : list dbval) : CredentialSummary :=
  MkCredentialSummary (strAt v 0) (strAt v 1) (strAt v 2) (tsAt v 3) (tsAt v 4) (i32At v 5) (boolAt v 6).
Definition ListCredentials (req : Request) : qres (list CredentialSummary * PageInfo) :=
  list_ (credentials_view t) "credentials" req 7 credential_row.

Definition periodic_prompt_row (v : list dbval) : PeriodicPromptSummary :=
  MkPeriodicPromptSummary (strAt v 0) (strAt v 1) (strAt v 2) (strAt v 3) (strAt v 4) (boolAt v 5) (tsAt v 6) (tsAt v 7) (i32At v 8)
    (strAt v 9).
Definition ListPeriodicPrompts (req : Request) : qres (list PeriodicPromptSummary * PageInfo) :=
  list_ (periodic_prompts_view t) "periodic_prompts" req 10 periodic_prompt_row.

Definition memory_row (v : list dbval) : MemorySummary :=
  MkMemorySummary (strAt v 0) (strAt v 1) (strAt v 2) (strAt v 3) (strAt v 4) (tsAt v 5) (i32At v 6).
Definition ListMemory (req : Request) : qres (list MemorySummary * PageInfo) :=
  list_ (memory_view t) "memory" req 7 memory_row.

Definition wait_row (v : list dbval) : WaitSummary :=
  MkWaitSummary (strAt v 0) (strAt v 1) (strAt v 2) (strAt v 3) (i32At v 4) (strAt v 5) (strAt v 6) (strAt v 7) (strAt v 8)
    (tsAt v 9) (tsAt v 10) (tsPtrAt v 11) (tsPtrAt v 12) (i32At v 13) (boolAt v 14).
Definition ListWaits (req : Request) : qres (list WaitSummary * PageInfo) :=
  list_ (waits_view t) "waits" req 15 wait_row.

Definition job_row (v : list dbval) : JobSummary :=
  MkJobSummary (i64At v 0) (strAt v 1) (strAt v 2) (i32At v 3) (i32At v 4) (strAt v 5) (strAt v 6) (tsAt v 7) (tsAt v 8)
    (tsPtrAt v 9) (tsPtrAt v 10) (strAt v 11) (i32At v 12) (strAt v 13).
Definition ListJobs (req : Request) : qres (list JobSummary * PageInfo) :=
  if negb (RiverAvailable t) then QOk ([], MkPageInfo "" false)
  else list_ (jobs_view t) "jobs" req 14 job_row.

Definition auditFromVals (v : list dbval) : AuditEventSummary :=
  MkAuditEventSummary (strAt v 0) (tsAt v 1) (strAt v 2) (strAt v 3) (strAt v 4) (strAt v 5) (asStruct (col v 6)) (strAt v 7)
    (strAt v 8) (asStruct (col v 9)) (asStruct (col v 10)) (strAt v 11) (strAt v 12) (strAt v 13) (strAt v 14) (strAt v 15).
Definition ListAuditEvents (req : Request) : qres (list AuditEventSummary * PageInfo) :=
  list_ (audit_events_view t) "audit_events" req 16 auditFromVals.

(** ** Single objects found by listing *)

Definition by_fields (fs : list (string * string)) : Request :=
  MkRequest "" ((λ f, MkFilter f.1 OpEq f.2 []) <$> fs) [] (MkPage 1 "").

(** The first item of a listing by key. *)
Definition first_of {A} (l : qres (list A * PageInfo)) : rres A :=
  '(items, _) ← of_query l; or_not_found (head items).

Definition GetTenant (id : string) : rres TenantSummary := first_of (ListTenants (by_fields [("id", id)])).
Definition GetAPIKey (id : string) : rres APIKeySummary := first_of (ListAPIKeys (by_fields [("id", id)])).
Definition GetSession (id : string) : rres SessionDetail :=
  s ← first_of (ListSessions (by_fields [("id", id)]));
  ROk (MkSessionDetail s (map_to_list (ss_labels s)).*1).
Definition GetCredential (tenant kind name : string) : rres CredentialSummary :=
  first_of (ListCredentials (by_fields [("tenant_id", tenant); ("kind", kind); ("name", name)])).
Definition GetWait (id : string) : rres WaitDetail :=
  s ← first_of (ListWaits (by_fields [("id", id)]));
  ROk (MkWaitDetail s (column_text (db_waits (tb_db t) !! id ≫= rw_result))
         ((λ m, (wm_run m, int32 (wm_ordinal m))) <$>
          Store.order_by wm_ordinal (bool_filter (λ m, bool_decide (wm_wait m = id)) (db_members (tb_db t))))).

(** ** Single objects read directly

    A column of type [int] is scanned into an [int32]. *)

Definition cut_preview (s : string) : string :=
  if bool_decide (MaxPreviewBytes < slen s)%Z then String.substring 0 (Z.to_nat MaxPreviewBytes) s else s.

Definition GetEvent (session : string) (seq : Z) : rres EventDetail :=
  '(e, s) ← or_not_found (head (bool_filter (λ x : Event * Session, bool_decide (ev_session x.1 = session) && bool_decide (ev_seq x.1 = seq))
                       (vw_rows (events_view t))));
  let payload := payload_text (ev_payload e) in
  ROk (MkEventDetail
         (MkEventSummary session (se_tenant s) seq (ts (ev_ts e)) (actKind (ev_actor e)) (actID (ev_actor e))
            (actDisplay (ev_actor e)) (ev_kind e) (int32 (slen payload)) (cut_preview payload))
         payload).

Definition GetRun (id : string) : rres RunDetail :=
  r ← or_not_found (db_runs (tb_db t) !! id);
  ROk (MkRunDetail
         (MkRunSummary (ar_id r) (ar_session r) (ar_tenant r) (run_state_name (ar_state r)) (ar_loop_kind r)
            (int32 (ar_loop_version r)) (default "" (ar_parent r)) (ar_spawn_key r) (ar_cohort_id r) (int32 (ar_cohort_ordinal r)) (ar_failure_reason r)
            (actKind (ar_actor r)) (actID (ar_actor r)) (actDisplay (ar_actor r)) (ts (ar_created_at r)) (ts (ar_updated_at r))
            (tsPtr (ar_cancel_requested_at r)) 0 (int32 (slen (ar_prompt r))) (int32 (slen (history_text (ar_history r))))
            (bool_decide (is_Some (ar_result r))))
         (model_text (ar_model r)) (policy_text (ar_policy r)) (column_text (ar_result r)) (ar_failure_message r) (ar_prompt r)).

Definition GetRunHistory (id : string) : rres RunHistoryBlob :=
  r ← or_not_found (db_runs (tb_db t) !! id);
  ROk (MkRunHistoryBlob id (history_text (ar_history r))).

Definition GetResource (id : string) : rres ResourceDetail :=
  r ← or_not_found (db_resources (tb_db t) !! id);
  let spec := column_text (r_spec r) in
  let handle := column_text (r_handle r) in
  let hasCT := negb (bool_decide (r_token_enc r = "")) in
  ROk (MkResourceDetail
         (MkResourceSummary (r_id r) (r_tenant r) (r_session r) (r_provider r) (r_kind r) (resource_state_name (r_state r))
            (r_endpoint r) (int32 (r_epoch r)) (r_failure_message r) (default "" (r_created_by r)) (ts (r_created_at r))
            (ts (r_updated_at r)) (tsPtr (r_ready_at r)) (tsPtr (r_terminated_at r)) (int32 (slen spec)) (int32 (slen handle))
            hasCT)
         spec handle (hash_prefix (bytes_of (r_token_hash r))) hasCT).

Definition GetProvider (id : string) : rres ProviderDetail :=
  p ← or_not_found (db_providers (tb_db t) !! id);
  let cfg := doc_text (pi_config p) in
  let caps := capabilities_text (pi_capabilities p) in
  ROk (MkProviderDetail
         (MkProviderSummary (pi_id p) (pi_tenant p) (pi_kind p) (pi_name p) (pi_state p) (tsPtr (pi_last_healthy_at p))
            (ts (pi_created_at p)) (int32 (slen cfg)) (int32 (slen caps)) 0)
         cfg caps).

Definition GetPeriodicPrompt (id : string) : rres PeriodicPromptDetail :=
  p ← or_not_found (ac_periodic (tb_acc t) !! id);
  ROk (MkPeriodicPromptDetail
         (MkPeriodicPromptSummary (pp_id p) (pp_tenant p) (pp_session p) (default "" (pp_run p)) (pp_schedule p) (pp_enabled p)
            (ts (pp_next_at p)) (ts (pp_created_at p)) (int32 (slen (pp_prompt p))) (cut_preview (pp_prompt p)))
         (pp_prompt p)).

Definition GetMemory (session key : string) : rres MemoryDetail :=
  m ← or_not_found (db_memory (tb_db t) !! (session, key));
  s ← or_not_found (db_sessions (tb_db t) !! me_session m);
  ROk (MkMemoryDetail
         (MkMemorySummary session (se_tenant s) key (actKind (me_updated_by m)) (actID (me_updated_by m)) (ts (me_updated_at m))
            (int32 (slen (me_value m))))
         (me_value m)).

Definition GetJob (id : Z) : rres JobDetail :=
  if negb (RiverAvailable t) then RErr (StoreError ErrNotFound)
  else
    j ← or_not_found (head (bool_filter (λ j, bool_decide (rj_id j = id)) (vw_rows (jobs_view t))));
    let errs := default [] (rj_errors j) in
    let preview := match errs with [] => "" | e :: _ => cut_preview e end in
    let tags := match rj_tags j with [] => "" | l => Join "," l end in
    ROk (MkJobDetail
           (MkJobSummary (rj_id j) (rj_kind j) (rj_state j) (int32 (rj_attempt j)) (int32 (rj_max_attempts j)) (rj_queue j)
              (pretty (rj_priority j)) (ts (rj_created_at j)) (ts (rj_scheduled_at j)) (tsPtr (rj_attempted_at j))
              (tsPtr (rj_finalized_at j)) preview (int32 (Z.of_nat (length errs))) tags)
           (rj_args j) (rj_metadata j) errs).

Definition GetAuditEvent (id : string) : rres AuditEventSummary :=
  a ← or_not_found (head (bool_filter (λ a, bool_decide (auID a = id)) (tb_audit t)));
  ROk (auditFromVals (audit_data a)).

(** ** Runtime health *)

Record RuntimeHealth := MkRuntimeHealth {
  hl_build : string; hl_time : time; hl_schema : Z; hl_river : bool; hl_tenants : Z; hl_sessions : Z; hl_events : Z; hl_runs : Z;
  hl_resources : Z; hl_providers : Z; hl_open_waits : Z; hl_available : Z; hl_running : Z; hl_scheduled : Z; hl_retryable : Z;
  hl_discarded : Z; hl_completed : Z; hl_diagnostics : gmap string string;
}.

Definition jobs_in (state : string) : Z :=
  match tb_jobs t with
  | None => 0
  | Some l => count (λ j, bool_decide (rj_state j = state)) l
  end.

Definition table_size {K A} `{Countable K} (m : gmap K A) : Z := Z.of_nat (length (rows m)).

Definition GetRuntimeHealth : RuntimeHealth :=
  let d := tb_db t in
  MkRuntimeHealth buildVers now (tb_schema t) (RiverAvailable t) (table_size (ac_tenants (tb_acc t))) (table_size (db_sessions d))
    (Z.of_nat (length (db_events d))) (table_size (db_runs d)) (table_size (db_resources d)) (table_size (db_providers d))
    (count (λ w, bool_decide (rw_state w = WaitOpen)) (rows (db_waits d)))
    (jobs_in "available") (jobs_in "running") (jobs_in "scheduled") (jobs_in "retryable") (jobs_in "discarded")
    (jobs_in "completed")
    (if RiverAvailable t then ∅
     else {["river" := "schema not present; start coreadmin after river migrate or cored"]}).

(** ** The timeline of a session *)

Record timeline_row := MkTimelineRow { tr_ts : time; tr_kind : string; tr_id : string; tr_summary : string }.
Record TimelineEntry := MkTimelineEntry { tl_ts : option time; tl_kind : string; tl_id : string; tl_summary : string }.

(** [session_id::text || ':' || seq::text] *)
Definition event_id (e : Event) : string := ev_session e +:+ ":" +:+ pretty (ev_seq e).

(** The union of the four selects. *)
Definition timeline_rows (session : string) : list timeline_row :=
  ((λ e, MkTimelineRow (ev_ts e) "event" (event_id e) (ev_kind e +:+ " seq=" +:+ pretty (ev_seq e))) <$>
   bool_filter (λ e, bool_decide (ev_session e = session)) (db_events (tb_db t))) ++
  ((λ r, MkTimelineRow (ar_created_at r) "run" (ar_id r) ("run " +:+ run_state_name (ar_state r) +:+ " " +:+ ar_loop_kind r)) <$>
   bool_filter (λ r, bool_decide (ar_session r = session)) (rows (db_runs (tb_db t)))) ++
  ((λ r, MkTimelineRow (r_created_at r) "resource" (r_id r)
           ("resource " +:+ r_kind r +:+ " " +:+ resource_state_name (r_state r))) <$>
   bool_filter (λ r, bool_decide (r_session r = session)) (rows (db_resources (tb_db t)))) ++
  ((λ x, MkTimelineRow (wait_created t x.1) "wait" (rw_id x.1) ("wait " +:+ wait_state_name (Some (rw_state x.1)))) <$>
   bool_filter (λ x : RunWait * AgentRun, bool_decide (ar_session x.2 = session)) (vw_rows (waits_view t))).

Definition timeline_cols (r : timeline_row) : row :=
  lookup_col [("ts", Some (VTime (tr_ts r))); ("kind", text (tr_kind r)); ("id", text (tr_id r))].
(** [ORDER BY ts DESC, kind ASC, id ASC] *)
Definition timeline_order : list (bool * string) := [(true, "ts"); (false, "kind"); (false, "id")].

(** The rows behind the cursor; the database reads the first value as a
    timestamp. *)
Definition timeline_after (p : CursorPayload) : qres (timeline_row → bool) :=
  match cpSortValues p with
  | [tsText; kind; id] =>
      match ParseTime tsText with
      | None => QErr (QueryErr "admin/store: timeline: invalid timestamp")
      | Some ts0 =>
          QOk (λ r, sql_lt (VTime (tr_ts r)) (VTime ts0) ||
                    (bool_decide (tr_ts r = ts0) &&
                     (sql_lt (VStr kind) (VStr (tr_kind r)) ||
                      (bool_decide (tr_kind r = kind) && sql_lt (VStr id) (VStr (tr_id r))))))
      end
  | _ => QErr ErrCursorMismatch
  end.

Definition page_limit (page : Page) : qres Z :=
  let limit := if bool_decide (pgLimit page = 0%Z) then DefaultLimit else pgLimit page in
  if bool_decide (MaxLimit < limit)%Z then QErr ErrInvalidLimit else QOk limit.

(** The condition a cursor adds; without a signer a cursor is ignored. *)
Definition timeline_where (session : string) (page : Page) : qres (timeline_row → bool) :=
  match signer with
  | Some s =>
      if bool_decide (pgCursor page = "") then QOk (λ _, true)
      else
        p ← Verify s now (pgCursor page);
        if negb (bool_decide (cpCollection p = "session_timeline")) || negb (bool_decide (cpFingerprint p = session)) ||
           negb (length (cpSortValues p) =? 3)%nat then QErr ErrCursorMismatch
        else timeline_after p
  | None => QOk (λ _, true)
  end.

Definition timeline_sort (r : timeline_row) : list string := [FormatSortValue (GoTimeVal (tr_ts r)); tr_kind r; tr_id r].

Definition GetSessionTimeline (session : string) (page : Page) : rres (list TimelineEntry * PageInfo) :=
  limit ← of_query (page_limit page);
  match db_sessions (tb_db t) !! session with
  | None => RErr (StoreError ErrNotFound)
  | Some _ =>
      q ← of_query (timeline_where session page);
      let rs := take (Z.to_nat (limit + 1))
                  (Paging.order_by timeline_cols timeline_order (bool_filter q (timeline_rows session))) in
      let kept := take (Z.to_nat limit) rs in
      let items := (λ r, MkTimelineEntry (ts (tr_ts r)) (tr_kind r) (tr_id r) (tr_summary r)) <$> kept in
      let hasMore := bool_decide (limit < Z.of_nat (length rs))%Z in
      match signer with
      | Some s =>
          if hasMore then
            cur ← of_query (Sign s now (MkCursorPayload 0 "session_timeline" session (from_option timeline_sort [] (last kept)) 0));
            ROk (items, MkPageInfo cur hasMore)
          else ROk (items, MkPageInfo "" hasMore)
      | None => ROk (items, MkPageInfo "" hasMore)
      end
  end.

(** ** Related objects *)

Record RelatedRef := MkRelatedRef { rr_collection : string; rr_id : string; rr_label : string }.

(** One edge: the relation it serves and the rows its statement selects, in
    order and without the limit. *)
Definition newest_first : list (bool * string) := [(true, "created_at"); (true, "id")].
Definition oldest_first : list (bool * string) := [(false, "created_at"); (false, "id")].
Definition at_and_id (created : time) (id : string) : row := lookup_col [("created_at", Some (VTime created)); ("id", text id)].

Definition edge {R} (keep : R → bool) (key : R → row) (order : list (bool * string)) (ref : R → RelatedRef) (l : list R)
  : list RelatedRef := ref <$> Paging.order_by key order (bool_filter keep l).

Definition tenant_edges (id : string) : list (string * list RelatedRef) :=
  [("sessions", edge (λ s, bool_decide (se_tenant s = id)) (λ s, at_and_id (se_created_at s) (se_id s)) newest_first
      (λ s, MkRelatedRef "sessions" (se_id s) (se_title s)) (rows (db_sessions (tb_db t))));
   ("api_keys", edge (λ k, bool_decide (ak_tenant k = id)) (λ k, at_and_id (ak_created_at k) (ak_id k)) newest_first
      (λ k, MkRelatedRef "api_keys" (ak_id k) (ak_name k)) (rows (ac_keys (tb_acc t))));
   ("providers", edge (λ p, bool_decide (pi_tenant p = id)) (λ p, at_and_id (pi_created_at p) (pi_id p)) newest_first
      (λ p, MkRelatedRef "providers" (pi_id p) (pi_name p)) (rows (db_providers (tb_db t))))].

Definition resource_label (r : Resource) : string := r_kind r +:+ " " +:+ resource_state_name (r_state r).
Definition resource_edge (keep : Resource → bool) : list RelatedRef :=
  edge keep (λ r, at_and_id (r_created_at r) (r_id r)) newest_first (λ r, MkRelatedRef "resources" (r_id r) (resource_label r))
    (rows (db_resources (tb_db t))).

Definition session_edges (id : string) : list (string * list RelatedRef) :=
  [("runs", edge (λ r, bool_decide (ar_session r = id)) (λ r, at_and_id (ar_created_at r) (ar_id r)) newest_first
      (λ r, MkRelatedRef "runs" (ar_id r) (run_state_name (ar_state r) +:+ " " +:+ ar_loop_kind r)) (rows (db_runs (tb_db t))));
   ("resources", resource_edge (λ r, bool_decide (r_session r = id)));
   ("events", edge (λ e, bool_decide (ev_session e = id)) (λ e, lookup_col [("seq", Some (VInt (ev_seq e)))]) [(true, "seq")]
      (λ e, MkRelatedRef "events" (event_id e) (ev_kind e)) (db_events (tb_db t)));
   ("memory", edge (λ m, bool_decide (me_session m = id))
      (λ m, lookup_col [("updated_at", Some (VTime (me_updated_at m))); ("key", text (me_key m))])
      [(true, "updated_at"); (false, "key")]
      (λ m, MkRelatedRef "memory" (me_session m +:+ ":" +:+ me_key m) (me_key m)) (rows (db_memory (tb_db t))))].

Definition run_edges (id : string) : list (string * list RelatedRef) :=
  [("steps", edge (λ s, bool_decide (rs_run s = id)) (λ s, lookup_col [("step_index", Some (VInt (rs_step_index s)))])
      [(false, "step_index")]
      (λ s, MkRelatedRef "run_steps" (rs_run s +:+ ":" +:+ pretty (rs_step_index s)) ("step " +:+ pretty (rs_step_index s)))
      (db_steps (tb_db t)));
   ("children", edge (λ r, bool_decide (ar_parent r = Some id)) (λ r, at_and_id (ar_created_at r) (ar_id r)) oldest_first
      (λ r, MkRelatedRef "runs" (ar_id r) (run_state_name (ar_state r))) (rows (db_runs (tb_db t))));
   ("waits", edge (λ w, bool_decide (rw_parent w = id)) (λ w, at_and_id (wait_created t w) (rw_id w)) newest_first
      (λ w, MkRelatedRef "waits" (rw_id w) (wait_state_name (Some (rw_state w)))) (rows (db_waits (tb_db t))))].

Definition provider_edges (id : string) : list (string * list RelatedRef) :=
  [("resources", resource_edge (λ r, bool_decide (r_provider r = id)))].

Definition resource_edges (id : string) : list (string * list RelatedRef) :=
  [("provider", (λ x, MkRelatedRef "providers" (pi_id x.2) (pi_name x.2)) <$>
      bool_filter (λ x : Resource * ProviderInstance, bool_decide (r_id x.1 = id))
        (join r_provider (db_providers (tb_db t)) (rows (db_resources (tb_db t)))))].

Definition edges_of (collection id : string) : option (list (string * list RelatedRef)) :=
  if bool_decide (collection = "tenants") then Some (tenant_edges id)
  else if bool_decide (collection = "sessions") then Some (session_edges id)
  else if bool_decide (collection = "runs") then Some (run_edges id)
  else if bool_decide (collection = "providers") then Some (provider_edges id)
  else if bool_decide (collection = "resources") then Some (resource_edges id)
  else None.

(** [relation == "" || relation == name] *)
Definition chosen (relation : string) (edges : list (string * list RelatedRef)) : list (string * list RelatedRef) :=
  bool_filter (λ e : string * list RelatedRef, bool_decide (relation = "") || bool_decide (relation = e.1)) edges.

Definition ListRelated (collection id relation : string) (page : Page) : qres (list RelatedRef * PageInfo) :=
  limit ← page_limit page;
  if negb (bool_decide (pgCursor page = "")) then QErr ErrBadCursor
  else match edges_of collection id with
       | None => QErr ErrUnknownCollection
       | Some edges =>
           match chosen relation edges with
           | [] => QErr ErrInvalidField
           | es =>
               let items := es ≫= λ e, take (Z.to_nat (limit + 1)) e.2 in
               if bool_decide (limit < Z.of_nat (length items))%Z then QOk (take (Z.to_nat limit) items, MkPageInfo "" true)
               else QOk (items, MkPageInfo "" false)
           end
       end.

End reads.
