(* ===== verification/ReadSpec.v ===== *)
(** * What the reads of the admin store return

    Theorems about [AdminReads] ([admin/store/store.go]): a listing is a page of
    its collection with every row converted, and the single-object reads agree with
    the listings. *)
From stdpp Require Import sorting.
From S2P Require Import Prelude Policy Domain Text Store StoreRuns EventLog Waits Strings Redact AdminQuery QuerySpec Plans Paging Descriptors Registry Accounts AdminCommands AdminReads.

(** ** Listings *)

Section listing.
Context `{GoTime} `{Mac} `{CursorCodec} `{Digest} `{SqlOrder} `{CaseFold} `{RowText} `{GoFmt} `{Structpb}.

Definition scan_of {R} (v : View R) (r : R) (c : string) : goval := scanned (vw_row v r c).

(** The scan of rows that have all their columns: the first [limit] are kept. *)
Lemma scan_rows_ok {R A} (data : R → list dbval) (sorts : R → list goval) nData nSort limit (handle : list dbval → A) rs n items ls :
  (∀ r, length (data r) = nData) → (∀ r, length (sorts r) = nSort) →
  let kept := take (Z.to_nat (limit - n)) rs in
  scan_rows nData nSort limit handle ((λ r, data r ++ (Col <$> sorts r)) <$> rs) n items ls =
  QOk (n + Z.of_nat (length rs), items ++ (handle ∘ data <$> kept), from_option (λ r, FormatSortValue <$> sorts r) ls (last kept))%Z.
Proof.
  intros Hd Hs. cbn zeta. revert n items ls. induction rs as [|r rs IH]; intros n items ls; simpl.
  { rewrite take_nil. simpl. by rewrite Z.add_0_r, app_nil_r. }
  rewrite length_app, length_fmap, Hd, Hs, (proj2 (Nat.ltb_ge _ _)) by lia.
  rewrite take_app_length' by done. replace (nData + nSort - nSort) with nData by lia. rewrite drop_app_length' by done.
  replace (n + Z.of_nat (S (length rs)))%Z with (n + 1 + Z.of_nat (length rs))%Z by lia.
  case_bool_decide as Hlt.
  - rewrite IH. replace (Z.to_nat (limit - n)) with (S (Z.to_nat (limit - (n + 1)))) by lia. simpl.
    rewrite <-app_assoc. simpl. do 2 f_equal. rewrite <-list_fmap_compose.
    destruct (take (Z.to_nat (limit - (n + 1))) rs) as [|x l] eqn:E; [done|]. rewrite last_cons_cons.
    destruct (last (x :: l)) eqn:El; [done|]. by apply last_None in El.
  - rewrite IH. replace (Z.to_nat (limit - n)) with 0 by lia. replace (Z.to_nat (limit - (n + 1))) with 0 by lia. done.
Qed.

Lemma fst_pairs {A B} (f : A → B) (l : list A) : ((λ x, (x, f x)) <$> l).*1 = l.
Proof. rewrite <-list_fmap_compose. apply list_fmap_id. Qed.

Context (signer : option Signer) (now : time) (t : Tables).

Definition page_of {R A} (f : R → A) (p : qres (list R * PageInfo)) : qres (list A * PageInfo) :=
  match p with QOk (rs, info) => QOk (f <$> rs, info) | QErr e => QErr e end.

Lemma list_eq {R A} (v : View R) name col req n (handle : list dbval → A) :
  RegistryGet name = Some col → bool_decide (name = "jobs") && negb (RiverAvailable t) = false →
  (∀ r, length (vw_data v r) = n) →
  list_ signer now t v name req n handle =
  page_of (handle ∘ vw_data v) (list_once no_search_expr (vw_row v) (scan_of v) signer now col (vw_rows v) req).
Proof.
  intros Hcol Hjobs Hlen. unfold list_, list_once, page_of. rewrite Hcol, Hjobs.
  destruct (Compile signer now col req) as [c|e] eqn:Hc; [|done]. cbn [mbind qres_bind].
  destruct (injected_sorts col signer now req c (registered_wf _ _ Hcol) Hc) as (rest & _ & ->).
  unfold answer. destruct (where_of col req (cmCursor c)) as [w|]; [|done]. cbn [mbind qres_bind].
  set (rs := exec _ _ _ _ _ _ _). rewrite Nat2Z.id.
  rewrite (list_fmap_ext (λ r, vw_data v r ++ ((λ x, Col (scanned (vw_row v r x))) <$> cmSortColumns c))
             (λ r, vw_data v r ++ (Col <$> (scan_of v r <$> cmSortColumns c)))) by
    (intros _ r _; by rewrite <-list_fmap_compose).
  rewrite (scan_rows_ok (vw_data v) (λ r, scan_of v r <$> cmSortColumns c)) by (done || (intros; apply length_fmap)).
  rewrite Z.sub_0_r, Z.add_0_l. cbn [mbind qres_bind app]. unfold listPage.
  rewrite <-fmap_take, fmap_last, length_fmap, fst_pairs.
  destruct (last (take (Z.to_nat (cmLimit c)) rs)) as [r|] eqn:El; cbn [fmap option_fmap option_map from_option].
  - destruct (bool_decide (cmLimit c < Z.of_nat (length rs))%Z && _); [|done].
    by destruct (NextCursor _ _ _ _ _).
  - by rewrite andb_false_r.
Qed.

(** ** What a row is reported as *)

Definition tenant_summary (x : Tenant) : TenantSummary :=
  MkTenantSummary (tn_id x) (tn_name x) (ts (tn_created_at x))
    (count (λ s, bool_decide (se_tenant s = tn_id x)) (rows (db_sessions (tb_db t))))
    (count (λ r, bool_decide (ar_tenant r = tn_id x)) (rows (db_runs (tb_db t))))
    (count (λ k, bool_decide (ak_tenant k = tn_id x)) (rows (ac_keys (tb_acc t)))).
Definition api_key_summary (k : APIKey) : APIKeySummary :=
  MkAPIKeySummary (ak_id k) (ak_tenant k) (ak_name k) (ak_scope k) (ak_prefix k) (ts (ak_created_at k)) (tsPtr (ak_revoked_at k))
    (hash_prefix (ak_hash k)) (negb (bool_decide (ak_enc k = []))).
Definition session_summary (s : Session) : SessionSummary :=
  MkSessionSummary (se_id s) (se_tenant s) (se_title s) (se_labels s) (se_last_seq s) (ts (se_created_at s))
    (tsPtr (se_archived_at s))
    (count (λ e, bool_decide (ev_session e = se_id s)) (db_events (tb_db t)))
    (count (λ r, bool_decide (ar_session r = se_id s)) (rows (db_runs (tb_db t))))
    (count (λ r, bool_decide (r_session r = se_id s)) (rows (db_resources (tb_db t)))).
(** [preview] is the shortened payload. *)
Definition event_summary (preview : string) (x : Event * Session) : EventSummary :=
  MkEventSummary (ev_session x.1) (se_tenant x.2) (ev_seq x.1) (ts (ev_ts x.1)) (actKind (ev_actor x.1)) (actID (ev_actor x.1))
    (actDisplay (ev_actor x.1)) (ev_kind x.1) (int32 (slen (payload_text (ev_payload x.1)))) preview.
Definition run_summary (steps : Z) (r : AgentRun) : RunSummary :=
  MkRunSummary (ar_id r) (ar_session r) (ar_tenant r) (run_state_name (ar_state r)) (ar_loop_kind r) (int32 (ar_loop_version r))
    (default "" (ar_parent r)) (ar_spawn_key r) (ar_cohort_id r) (int32 (ar_cohort_ordinal r)) (ar_failure_reason r)
    (actKind (ar_actor r)) (actID (ar_actor r)) (actDisplay (ar_actor r)) (ts (ar_created_at r)) (ts (ar_updated_at r))
    (tsPtr (ar_cancel_requested_at r)) steps (int32 (slen (ar_prompt r))) (int32 (slen (history_text (ar_history r))))
    (bool_decide (is_Some (ar_result r))).
Definition run_step_summary (x : RunStep * AgentRun) : RunStepSummary :=
  MkRunStepSummary (rs_run x.1) (ar_tenant x.2) (ar_session x.2) (int32 (rs_step_index x.1)) (int32 (rs_attempt x.1))
    (rs_tokens_in x.1) (rs_tokens_out x.1) (rs_finish_reason x.1) (ts (rs_created_at x.1)).
Definition resource_summary (r : Resource) : ResourceSummary :=
  MkResourceSummary (r_id r) (r_tenant r) (r_session r) (r_provider r) (r_kind r) (resource_state_name (r_state r)) (r_endpoint r)
    (int32 (r_epoch r)) (r_failure_message r) (default "" (r_created_by r)) (ts (r_created_at r)) (ts (r_updated_at r))
    (tsPtr (r_ready_at r)) (tsPtr (r_terminated_at r)) (int32 (slen (column_text (r_spec r))))
    (int32 (slen (column_text (r_handle r)))) (negb (bool_decide (r_token_enc r = ""))).
Definition provider_summary (resources : Z) (p : ProviderInstance) : ProviderSummary :=
  MkProviderSummary (pi_id p) (pi_tenant p) (pi_kind p) (pi_name p) (pi_state p) (tsPtr (pi_last_healthy_at p))
    (ts (pi_created_at p)) (int32 (slen (doc_text (pi_config p)))) (int32 (slen (capabilities_text (pi_capabilities p)))) resources.
Definition credential_summary (c : Credential) : CredentialSummary :=
  MkCredentialSummary (cr_tenant c) (cr_kind c) (cr_name c) (ts (cr_created_at c)) (ts (cr_rotated_at c))
    (int32 (Z.of_nat (length (cr_enc c)))) true.
Definition periodic_summary (preview : string) (p : PeriodicRow) : PeriodicPromptSummary :=
  MkPeriodicPromptSummary (pp_id p) (pp_tenant p) (pp_session p) (default "" (pp_run p)) (pp_schedule p) (pp_enabled p)
    (ts (pp_next_at p)) (ts (pp_created_at p)) (int32 (slen (pp_prompt p))) preview.
Definition memory_summary (x : SessionMemoryEntry * Session) : MemorySummary :=
  MkMemorySummary (me_session x.1) (se_tenant x.2) (me_key x.1) (actKind (me_updated_by x.1)) (actID (me_updated_by x.1))
    (ts (me_updated_at x.1)) (int32 (slen (me_value x.1))).
Definition wait_summary (x : RunWait * AgentRun) : WaitSummary :=
  MkWaitSummary (rw_id x.1) (rw_parent x.1) (ar_tenant x.2) (ar_session x.2) (int32 (rw_step_index x.1)) (rw_tool_call_id x.1)
    (rw_kind x.1) (wait_state_name (Some (rw_state x.1))) (rw_timeout_policy x.1) (ts (rw_deadline x.1))
    (ts (wait_created t x.1)) (tsPtr (wait_resolved t x.1)) (tsPtr (rw_resumed_at x.1))
    (int32 (count (λ m, bool_decide (wm_wait m = rw_id x.1)) (db_members (tb_db t)))) (bool_decide (is_Some (rw_result x.1))).
Definition job_summary_of (preview : string) (j : RiverJob) : JobSummary :=
  MkJobSummary (rj_id j) (rj_kind j) (rj_state j) (int32 (rj_attempt j)) (int32 (rj_max_attempts j)) (rj_queue j)
    (pretty (rj_priority j)) (ts (rj_created_at j)) (ts (rj_scheduled_at j)) (tsPtr (rj_attempted_at j))
    (tsPtr (rj_finalized_at j)) preview (int32 (Z.of_nat (length (default [] (rj_errors j))))) (Join "," (rj_tags j)).
Definition struct_of (s : option summary) : Struct := from_option (λ m, default [] (NewStruct (map_to_list m))) [] s.
Definition audit_summary (a : AuditRow) : AuditEventSummary :=
  MkAuditEventSummary (auID a) (ts (auTs a)) (auOperatorID a) (auOperatorRole a) (auRequestID a) (auCommand a)
    (struct_of (Some (auTargets a))) (auReason a) (auPreviewHash a) (struct_of (auBefore a)) (struct_of (auAfter a)) (auResult a)
    (auError a) (auSourceIP a) (auBuild a) (default "" (auIdempotency a)).

Lemma tsPtr_scanned o : tsPtr (asTimePtr (nullable tim o)) = tsPtr o.
Proof. destruct o as [x|]; [|done]. simpl. by repeat (case_bool_decide; simpl). Qed.

Lemma labels_scanned (m : gmap string string) : asStringMap (ColMap (map_to_list (JStr <$> m))) = m.
Proof.
  cbn [asStringMap]. rewrite map_to_list_fmap, <-list_fmap_compose.
  rewrite <-(list_to_map_to_list m) at 2. f_equal. rewrite <-(list_fmap_id (map_to_list m)) at 2.
  apply list_fmap_ext. by intros _ [k v] _.
Qed.

(** The page of a collection, each row as its summary. *)
Definition page_as {R A} (v : View R) (c : Collection) (summary : R → A) (req : Request) : qres (list A * PageInfo) :=
  page_of summary (list_once no_search_expr (vw_row v) (scan_of v) signer now c (vw_rows v) req).

Lemma list_as {R A} (v : View R) name c req n (handle : list dbval → A) summary :
  RegistryGet name = Some c → bool_decide (name = "jobs") && negb (RiverAvailable t) = false →
  (∀ r, length (vw_data v r) = n ∧ handle (vw_data v r) = summary r) →
  list_ signer now t v name req n handle = page_as v c summary req.
Proof.
  intros Hc Hj Hr. rewrite (list_eq v name c) by (try done; intros; apply Hr). unfold page_as, page_of.
  destruct (list_once _ _ _ _ _ _ _ _) as [[rs info]|]; [|done]. do 2 f_equal. apply list_fmap_ext. intros _ r _. apply Hr.
Qed.

(** A row read back from its columns: nothing is lost or swapped. *)
Ltac converted :=
  intros; repeat match goal with x : (_ * _)%type |- _ => destruct x end;
  cbv [tenant_row api_key_row session_row event_row run_row run_step_row resource_row provider_row credential_row
       periodic_prompt_row memory_row wait_row job_row tenant_summary api_key_summary session_summary event_summary
       run_summary run_step_summary resource_summary provider_summary credential_summary periodic_summary memory_summary
       wait_summary job_summary_of tsPtrAt];
  cbn [vw_data tenants_view api_keys_view sessions_view events_view runs_view run_steps_view resources_view providers_view
       credentials_view periodic_prompts_view memory_view waits_view jobs_view];
  unfold col; cbn [lookup list_lookup default from_option id];
  rewrite ?tsPtr_scanned, ?labels_scanned; reflexivity.

Definition step_count (r : AgentRun) : Z := int32 (count (λ s, bool_decide (rs_run s = ar_id r)) (db_steps (tb_db t))).
Definition resource_count (p : ProviderInstance) : Z :=
  count (λ r, bool_decide (r_provider r = pi_id p)) (rows (db_resources (tb_db t))).

Lemma tenant_converted x : tenant_row (vw_data (tenants_view t) x) = tenant_summary x.
Proof. converted. Qed.
Lemma api_key_converted k : api_key_row (vw_data (api_keys_view t) k) = api_key_summary k.
Proof. converted. Qed.
Lemma session_converted x : session_row (vw_data (sessions_view t) x) = session_summary x.
Proof. converted. Qed.
Lemma event_converted x :
  event_row (vw_data (events_view t) x) = event_summary (left_chars 256 (payload_text (ev_payload x.1))) x.
Proof. converted. Qed.
Lemma run_converted r : run_row (vw_data (runs_view t) r) = run_summary (step_count r) r.
Proof. converted. Qed.
Lemma run_step_converted x : run_step_row (vw_data (run_steps_view t) x) = run_step_summary x.
Proof. converted. Qed.
Lemma resource_converted r : resource_row (vw_data (resources_view t) r) = resource_summary r.
Proof. converted. Qed.
Lemma provider_converted p : provider_row (vw_data (providers_view t) p) = provider_summary (resource_count p) p.
Proof. converted. Qed.
Lemma credential_converted c : credential_row (vw_data (credentials_view t) c) = credential_summary c.
Proof. converted. Qed.
Lemma periodic_converted p :
  periodic_prompt_row (vw_data (periodic_prompts_view t) p) = periodic_summary (left_chars 256 (pp_prompt p)) p.
Proof. converted. Qed.
Lemma memory_converted x : memory_row (vw_data (memory_view t) x) = memory_summary x.
Proof. converted. Qed.
Lemma wait_converted x : wait_row (vw_data (waits_view t) x) = wait_summary x.
Proof. converted. Qed.
Lemma job_converted j :
  job_row (vw_data (jobs_view t) j) = job_summary_of (left_chars 256 (from_option array_text "" (rj_errors j))) j.
Proof. converted. Qed.
Lemma audit_converted a : auditFromVals (audit_data a) = audit_summary a.
Proof. destruct a as [???????? ? [] [] ?????]; reflexivity. Qed.

Create HintDb converted.
Hint Resolve tenant_converted api_key_converted session_converted event_converted run_converted run_step_converted
  resource_converted provider_converted credential_converted periodic_converted memory_converted wait_converted job_converted
  audit_converted : converted.

(** C27: every listing of the admin store is a page of its collection: the rows
    the search selects, in its order, cut off at the limit and each reported by its
    summary, every field of which comes from the column it is named after.  No
    listing fails for a missing column. *)
Theorem listings_faithful req :
  ListTenants signer now t req = page_as (tenants_view t) tenantsCollection tenant_summary req ∧
  ListAPIKeys signer now t req = page_as (api_keys_view t) apiKeysCollection api_key_summary req ∧
  ListSessions signer now t req = page_as (sessions_view t) sessionsCollection session_summary req ∧
  ListEvents signer now t req = page_as (events_view t) eventsCollection
    (λ x, event_summary (left_chars 256 (payload_text (ev_payload x.1))) x) req ∧
  ListRuns signer now t req = page_as (runs_view t) runsCollection
    (λ r, run_summary (step_count r) r) req ∧
  ListRunSteps signer now t req = page_as (run_steps_view t) runStepsCollection run_step_summary req ∧
  ListResources signer now t req = page_as (resources_view t) resourcesCollection resource_summary req ∧
  ListProviders signer now t req = page_as (providers_view t) providersCollection
    (λ p, provider_summary (resource_count p) p) req ∧
  ListCredentials signer now t req = page_as (credentials_view t) credentialsCollection credential_summary req ∧
  ListPeriodicPrompts signer now t req = page_as (periodic_prompts_view t) periodicPromptsCollection
    (λ p, periodic_summary (left_chars 256 (pp_prompt p)) p) req ∧
  ListMemory signer now t req = page_as (memory_view t) memoryCollection memory_summary req ∧
  ListWaits signer now t req = page_as (waits_view t) waitsCollection wait_summary req ∧
  ListJobs signer now t req =
    (if RiverAvailable t
     then page_as (jobs_view t) jobsCollection
            (λ j, job_summary_of (left_chars 256 (from_option array_text "" (rj_errors j))) j) req
     else QOk ([], MkPageInfo "" false)) ∧
  ListAuditEvents signer now t req = page_as (audit_events_view t) auditEventsCollection audit_summary req.
Proof.
  split_and!; try (apply list_as; [reflexivity|reflexivity|]; intros r; split; [by destruct r|auto with converted]).
  unfold ListJobs. destruct (RiverAvailable t) eqn:Hr; [|done]. simpl.
  apply list_as; [reflexivity|by rewrite Hr|]. intros r. split; [done|auto with converted].
Qed.

(** ** Single objects *)

Definition ascii_text (s : string) : bool := forallb (λ b, (b <? 128)%Z) (bytes_of s).

Lemma left_chars_take n s : ascii_text s = true → left_chars n s = String.substring 0 n s.
Proof.
  unfold ascii_text. revert n. induction s as [|c s IH]; intros n Ha; [by destruct n|].
  cbn [bytes_of forallb] in Ha. apply andb_true_iff in Ha as [Hc Ha]. apply Z.ltb_lt in Hc. simpl. unfold continuation, between.
  assert (128 <=? byte_of c = false)%Z as -> by (apply Z.leb_gt; exact Hc). simpl.
  destruct n as [|n]; [done|]. f_equal. by apply IH.
Qed.

Lemma substring_all n s : (slen s ≤ Z.of_nat n)%Z → String.substring 0 n s = s.
Proof.
  unfold slen. revert n. induction s as [|c s IH]; intros [|n] Hn; simpl in *; try done. f_equal. apply IH. lia.
Qed.

(** On ASCII text a preview of 256 bytes is one of 256 characters. *)
Lemma preview_chars s : ascii_text s = true → cut_preview s = left_chars 256 s.
Proof.
  intros Ha. rewrite (left_chars_take _ _ Ha). unfold cut_preview. case_bool_decide as Hl; [done|].
  symmetry. apply substring_all. unfold MaxPreviewBytes in Hl. lia.
Qed.

Definition with_steps (n : Z) (s : RunSummary) : RunSummary :=
  MkRunSummary (us_id s) (us_session s) (us_tenant s) (us_state s) (us_loop_kind s) (us_loop_version s) (us_parent s)
    (us_spawn_key s) (us_cohort s) (us_cohort_ordinal s) (us_failure_reason s) (us_actor_kind s) (us_actor_id s)
    (us_actor_display s) (us_created_at s) (us_updated_at s) (us_cancel_requested_at s) n (us_prompt_bytes s)
    (us_history_bytes s) (us_has_result s).
Definition with_resource_count (n : Z) (s : ProviderSummary) : ProviderSummary :=
  MkProviderSummary (vs_id s) (vs_tenant s) (vs_kind s) (vs_name s) (vs_state s) (vs_last_healthy_at s) (vs_created_at s)
    (vs_config_bytes s) (vs_capabilities_bytes s) n.

(** The items a listing would show for a row. *)
Definition listed_run (r : AgentRun) : RunSummary := run_row (vw_data (runs_view t) r).
Definition listed_resource (r : Resource) : ResourceSummary := resource_row (vw_data (resources_view t) r).
Definition listed_provider (p : ProviderInstance) : ProviderSummary := provider_row (vw_data (providers_view t) p).
Definition listed_event (x : Event * Session) : EventSummary := event_row (vw_data (events_view t) x).
Definition listed_periodic (p : PeriodicRow) : PeriodicPromptSummary := periodic_prompt_row (vw_data (periodic_prompts_view t) p).
Definition listed_memory (x : SessionMemoryEntry * Session) : MemorySummary := memory_row (vw_data (memory_view t) x).
Definition listed_audit (a : AuditRow) : AuditEventSummary := auditFromVals (vw_data (audit_events_view t) a).

(** Primary keys: every row is stored under its id, and the ids of the tables
    that are lists are distinct. *)
Record keyed : Prop := {
  ky_tenants : map_Forall (λ id x, tn_id x = id) (ac_tenants (tb_acc t));
  ky_keys : map_Forall (λ id x, ak_id x = id) (ac_keys (tb_acc t));
  ky_sessions : map_Forall (λ id x, se_id x = id) (db_sessions (tb_db t));
  ky_runs : map_Forall (λ id x, ar_id x = id) (db_runs (tb_db t));
  ky_resources : map_Forall (λ id x, r_id x = id) (db_resources (tb_db t));
  ky_credentials : map_Forall (λ id x, (cr_tenant x, cr_kind x, cr_name x) = id) (ac_credentials (tb_acc t));
  ky_waits : map_Forall (λ id x, rw_id x = id ∧ is_Some (db_runs (tb_db t) !! rw_parent x)) (db_waits (tb_db t));
  ky_memory : map_Forall (λ id x, (me_session x, me_key x) = id ∧ is_Some (db_sessions (tb_db t) !! me_session x))
                (db_memory (tb_db t));
  ky_events : NoDup ((λ e, (ev_session e, ev_seq e)) <$> db_events (tb_db t));
  ky_jobs : NoDup (rj_id <$> default [] (tb_jobs t));
  ky_audit : NoDup (auID <$> tb_audit t);
}.

(** The one row with a key. *)
Lemma filter_key {A K} `{EqDecision K} (f : A → K) (p : A → bool) (l : list A) x :
  NoDup (f <$> l) → x ∈ l → (∀ y, p y = true ↔ f y = f x) → bool_filter p l = [x].
Proof.
  intros Hn Hx Hp. induction l as [|y l IH]; [by apply elem_of_nil in Hx|].
  apply NoDup_cons in Hn as [Hy Hn]. unfold bool_filter in *. apply elem_of_cons in Hx as [->|Hx].
  - rewrite filter_cons_True by by apply Hp. f_equal. apply elem_of_nil_inv. intros z [Hz Hin]%list_elem_of_filter.
    apply Hp in Hz. apply Hy. rewrite <-Hz. by apply list_elem_of_fmap_2.
  - rewrite filter_cons_False; [by apply IH|]. rewrite Hp. intros E. apply Hy. rewrite E. by apply list_elem_of_fmap_2.
Qed.

Lemma join_elem {A B} (key : A → string) (m : gmap string B) l a b : (a, b) ∈ join key m l ↔ a ∈ l ∧ m !! key a = Some b.
Proof.
  unfold join. rewrite list_elem_of_omap. split.
  - intros (x & Hx & E). destruct (m !! key x) as [y|] eqn:Ey; [|done]. by simplify_eq/=.
  - intros [Ha Hb]. exists a. by rewrite Hb.
Qed.

Lemma join_keys {A B K} (f : A → K) (key : A → string) (m : gmap string B) l :
  NoDup (f <$> l) → NoDup ((f ∘ fst) <$> join key m l).
Proof.
  unfold join. induction l as [|a l IH]; intros Hn; [constructor|]. apply NoDup_cons in Hn as [Ha Hn]. simpl.
  destruct (m !! key a) as [b|]; simpl; [|by apply IH]. constructor; [|by apply IH].
  intros ([x y] & E & Hx)%list_elem_of_fmap. apply join_elem in Hx as [Hx _]. apply Ha. simpl in E. rewrite E.
  by apply list_elem_of_fmap_2.
Qed.

Lemma head_key {A K} `{EqDecision K} (f : A → K) (p : A → bool) (l : list A) x :
  NoDup (f <$> l) → x ∈ l → (∀ y, p y = true ↔ f y = f x) → head (bool_filter p l) = Some x.
Proof. intros Hn Hx Hp. by rewrite (filter_key f p l x Hn Hx Hp). Qed.

Definition with_errors_preview (p : string) (s : JobSummary) : JobSummary :=
  MkJobSummary (js_id s) (js_kind s) (js_state s) (js_attempt s) (js_max_attempts s) (js_queue s) (js_priority s) (js_created_at s)
    (js_scheduled_at s) (js_attempted_at s) (js_finalized_at s) p (js_errors s) (js_tags s).
Definition listed_job (j : RiverJob) : JobSummary := job_row (vw_data (jobs_view t) j).

(** Reading one object shows what listing it shows.  The summary of a run, a
    resource, a provider, a memory entry, an audit row and a queue job is the item
    of the listing, except that a run's step count and a provider's resource count
    are not filled in and a job's error preview is its first error; the summary of
    an event and of a periodic prompt is the listed one when its text is ASCII,
    and otherwise differs in the preview only. *)
Theorem details_match_listings : keyed →
  (∀ id r, db_runs (tb_db t) !! id = Some r → ∃ d, GetRun t id = ROk d ∧ ud_summary d = with_steps 0 (listed_run r)) ∧
  (∀ id r, db_resources (tb_db t) !! id = Some r → ∃ d, GetResource t id = ROk d ∧ od_summary d = listed_resource r) ∧
  (∀ id p, db_providers (tb_db t) !! id = Some p →
     ∃ d, GetProvider t id = ROk d ∧ vd_summary d = with_resource_count 0 (listed_provider p)) ∧
  (∀ e s, (e, s) ∈ vw_rows (events_view t) → ∃ d, GetEvent t (ev_session e) (ev_seq e) = ROk d ∧
     ed_payload d = payload_text (ev_payload e) ∧ ed_summary d = event_summary (cut_preview (ed_payload d)) (e, s) ∧
     (ascii_text (ed_payload d) = true → ed_summary d = listed_event (e, s))) ∧
  (∀ id p, ac_periodic (tb_acc t) !! id = Some p → ∃ d, GetPeriodicPrompt t id = ROk d ∧
     qd_summary d = periodic_summary (cut_preview (pp_prompt p)) p ∧
     (ascii_text (pp_prompt p) = true → qd_summary d = listed_periodic p)) ∧
  (∀ m s, (m, s) ∈ vw_rows (memory_view t) →
     ∃ d, GetMemory t (me_session m) (me_key m) = ROk d ∧ md_summary d = listed_memory (m, s)) ∧
  (∀ j, j ∈ vw_rows (jobs_view t) → ∃ d, GetJob t (rj_id j) = ROk d ∧
     jd_summary d = with_errors_preview (cut_preview (default "" (head (jd_errors d)))) (listed_job j)) ∧
  (∀ a, a ∈ vw_rows (audit_events_view t) → GetAuditEvent t (auID a) = ROk (listed_audit a)).
Proof.
  intros Hk. split_and!.
  - intros id r Hr. unfold GetRun. rewrite Hr. eexists. split; [done|]. unfold listed_run. by rewrite run_converted.
  - intros id r Hr. unfold GetResource. rewrite Hr. eexists. split; [done|]. unfold listed_resource. by rewrite resource_converted.
  - intros id p Hp. unfold GetProvider. rewrite Hp. eexists. split; [done|]. unfold listed_provider. by rewrite provider_converted.
  - intros e s Hin. unfold GetEvent.
    rewrite (head_key ((λ e, (ev_session e, ev_seq e)) ∘ fst) _ _ (e, s)
               (join_keys _ _ _ _ (ky_events Hk)) Hin).
    2:{ intros [e' s']. unfold compose. cbn [fst]. rewrite andb_true_iff, !bool_decide_eq_true. split; [by intros [-> ->]|by intros [= -> ->]]. }
    eexists. split_and!; [done|done|done|]. intros Ha. unfold listed_event. rewrite event_converted.
    cbn [ed_payload] in Ha. cbn [ed_summary fst]. by rewrite preview_chars.
  - intros id p Hp. unfold GetPeriodicPrompt. rewrite Hp. eexists. split_and!; [done|done|]. intros Ha.
    unfold listed_periodic. rewrite periodic_converted. cbn [qd_summary]. by rewrite preview_chars.
  - intros m s (Hm & Hs)%join_elem. unfold rows in Hm. apply list_elem_of_fmap in Hm as ([k m'] & E & Hm). simpl in E. subst m'.
    apply elem_of_map_to_list in Hm. destruct (ky_memory Hk _ _ Hm) as [Ek _]. unfold GetMemory. rewrite Ek, Hm. cbn [or_not_found mbind rres_bind].
    rewrite Hs. eexists. split; [done|]. unfold listed_memory. by rewrite memory_converted.
  - intros j Hj. unfold GetJob. assert (RiverAvailable t = true) as ->.
    { apply bool_decide_eq_true. simpl in Hj. destruct (tb_jobs t); [done|by apply elem_of_nil in Hj]. }
    rewrite (head_key rj_id _ _ j (ky_jobs Hk) Hj) by (intros y; apply bool_decide_eq_true).
    eexists. split; [done|]. unfold listed_job. rewrite job_converted. cbn [jd_summary jd_errors].
    unfold with_errors_preview, job_summary_of. cbn. f_equal; [by destruct (default [] (rj_errors j))|by destruct (rj_tags j)].
  - intros a Ha. unfold GetAuditEvent.
    by rewrite (head_key auID _ _ a (ky_audit Hk) Ha) by (intros y; apply bool_decide_eq_true).
Qed.

(** ** Single objects found by listing *)

Lemma Compile_no_cursor col req c : pgCursor (rqPage req) = "" → Compile signer now col req = QOk c → cmCursor c = None.
Proof.
  intros Hcur Hc. unfold Compile in Hc. apply step_ok in Hc as [_ Hc]. apply step_ok in Hc as [_ Hc].
  apply bind_ok in Hc as (cur & Hx & Hc). rewrite Hcur in Hx. injection Hx as <-.
  apply bind_ok in Hc as ([w1 a1] & _ & Hc). apply bind_ok in Hc as ([w2 a2] & _ & Hc).
  apply bind_ok in Hc as ([w3 a3] & _ & Hc). by injection Hc as <-.
Qed.

(** The row has the values asked for. *)
Definition has_fields {R} (v : View R) (c : Collection) (fs : list (string * string)) (r : R) : bool :=
  forallb (λ f, let fd := field_or_zero (cFields c) f.1 in
                bool_decide (vw_row v r (fColumn fd) = coerce (fType fd) f.2 ∧ vw_row v r (fColumn fd) ≠ None)) fs.

Lemma by_fields_selects {R} (v : View R) c fs w r : where_of c (by_fields fs) None = Some w →
  selected no_search_expr w (vw_row v r) = has_fields v c fs r.
Proof.
  unfold where_of. destruct (filter_clauses _ _) as [cs|] eqn:Hcs; [|done]. cbn [mbind option_bind keyset_clauses]. intros [= <-].
  rewrite app_nil_r. change (search_clauses c (rqQuery (by_fields fs)) ++ cs) with cs.
  apply eq_bool_prop_intro. rewrite !Is_true_true, selected_Forall, (filter_clauses_hold _ _ _ _ _ Hcs).
  unfold has_fields. rewrite forallb_elem. cbn [rqFilters by_fields]. rewrite Forall_fmap, Forall_forall.
  apply forall_proper. intros f. unfold compose. cbn [flField flOp flValue filter_holds]. unfold filter_holds. cbn [flOp flValue].
  by rewrite bool_decide_eq_true.
Qed.

Lemma bool_filter_ext {A} (f g : A → bool) (l : list A) : (∀ x, x ∈ l → f x = g x) → bool_filter f l = bool_filter g l.
Proof.
  unfold bool_filter. induction l as [|x l IH]; intros Hfg; [done|].
  pose proof (Hfg x ltac:(by left)) as E. rewrite !filter_cons, IH by (intros; apply Hfg; by right).
  by do 2 case_decide; try congruence.
Qed.

Lemma order_by_small {R} (val : R → row) order (l : list R) : length l ≤ 1 → Paging.order_by val order l = l.
Proof.
  pose proof (order_by_perm val order l) as Hp. destruct l as [|x [|]]; simpl; [|intros _|lia].
  - intros _. by apply Permutation_nil_r.
  - by apply Permutation_singleton_r.
Qed.

Lemma first_by {R A} (v : View R) c (summary : R → A) fs found : known_ops c → valid_request c (by_fields fs) →
  effectiveSorts c (by_fields fs) ≠ [] → bool_filter (has_fields v c fs) (vw_rows v) = found → length found ≤ 1 →
  first_of (page_as v c summary (by_fields fs)) = or_not_found (summary <$> head found).
Proof.
  intros Hk Hv Hs Hf Hl. unfold page_as, page_of, list_once.
  destruct (proj2 (Compile_ok signer now c (by_fields fs) Hk)) as [cc Hc].
  { split_and!; [done|done|by left|]. by exists None. }
  rewrite Hc. cbn [mbind qres_bind]. pose proof (Compile_no_cursor c (by_fields fs) cc eq_refl Hc) as Hn.
  destruct (Compile_renders _ _ _ _ _ Hc) as (w & Hw & E). rewrite Hw. rewrite Hn in Hw. rewrite E. cbn [cmSorts cmSortColumns cmLimit].
  unfold exec. rewrite (bool_filter_ext _ (has_fields v c fs)) by (intros r _; by apply by_fields_selects).
  rewrite Hf, order_by_small by done. change (limit_of (by_fields fs)) with 1%Z.
  rewrite take_ge by (simpl; lia). unfold listPage. cbn [cmLimit]. rewrite length_fmap.
  rewrite (bool_decide_eq_false_2 (1 < Z.of_nat (length found))%Z) by lia. rewrite take_ge by (rewrite length_fmap; simpl; lia).
  destruct (last _) as [[? ?]|]; cbn [andb]; rewrite fst_pairs; destruct found as [|x [|]]; (done || simpl in Hl; lia).
Qed.

Lemma rows_elem {K A} `{Countable K} (m : gmap K A) x : x ∈ rows m ↔ ∃ k, m !! k = Some x.
Proof.
  unfold rows. rewrite list_elem_of_fmap. setoid_rewrite <-elem_of_map_to_list. split.
  - intros ([k y] & -> & Hin). by exists k.
  - intros [k Hk]. by exists (k, x).
Qed.

(** The row stored under a key. *)
Lemma rows_keyed {K A} `{Countable K} (key : A → K) (m : gmap K A) (p : A → bool) k :
  map_Forall (λ i x, key x = i) m → (∀ x, p x = true ↔ key x = k) → bool_filter p (rows m) = option_list (m !! k).
Proof.
  intros Hm Hp. destruct (m !! k) as [x|] eqn:Hx; simpl.
  - apply (filter_key key).
    + unfold rows. rewrite <-list_fmap_compose.
      rewrite (list_fmap_ext _ fst); [apply NoDup_fst_map_to_list|].
      intros _ [i y] Hin%list_elem_of_lookup_2. apply elem_of_map_to_list in Hin. by apply Hm.
    + apply rows_elem. by exists k.
    + intros y. rewrite Hp. by rewrite (Hm _ _ Hx).
  - apply elem_of_nil_inv. intros y [Hy (i & Hi)%rows_elem]%elem_of_bool_filter. apply Hp in Hy.
    pose proof (Hm _ _ Hi). congruence.
Qed.

Lemma option_list_length {A} (o : option A) : length (option_list o) ≤ 1.
Proof. destruct o; simpl; lia. Qed.
Lemma head_option_list {A} (o : option A) : head (option_list o) = o.
Proof. by destruct o. Qed.

Lemma valid_key c fs : length fs ≤ 16 →
  Forall (λ f, ∃ fd, fieldByName (cFields c) f.1 = Some fd ∧ OpEq ∈ fFilterOps fd ∧ (f.2 = "" → fType fd = TypeString) ∧
                     parseTyped (fType fd) f.2 = true) fs → valid_request c (by_fields fs).
Proof.
  intros Hl Hf. split_and!; cbn [rqFilters rqSorts rqPage rqQuery pgLimit by_fields]; try done.
  - by rewrite length_fmap.
  - simpl. lia.
  - apply Forall_fmap. eapply Forall_impl; [exact Hf|]. intros f (fd & Hfd & Hop & He & Hp). exists fd.
    split_and!; [done|done|]. right; right. by split_and!.
Qed.

Definition uuid_text (id : string) : Prop := slen id = 36%Z.

Lemma uuid_key c id fd : fieldByName (cFields c) "id" = Some fd → OpEq ∈ fFilterOps fd → fType fd = TypeUUID →
  uuid_text id → valid_request c (by_fields [("id", id)]).
Proof.
  intros Hfd Hop Hty Hid. apply valid_key; [simpl; lia|]. apply Forall_singleton. exists fd. split_and!; [done|done| |].
  - cbn [snd]. intros ->. done.
  - rewrite Hty. by apply bool_decide_eq_true.
Qed.

(** An id that is not as long as a UUID is refused before the database sees it. *)
Lemma bad_uuid {R A} (v : View R) name c n (handle : list dbval → A) id fd : RegistryGet name = Some c →
  bool_decide (name = "jobs") = false → fieldByName (cFields c) "id" = Some fd → OpEq ∈ fFilterOps fd → fType fd = TypeUUID →
  ¬ uuid_text id → first_of (list_ signer now t v name (by_fields [("id", id)]) n handle) = RErr (QueryError ErrBadValue).
Proof.
  intros Hc Hj Hfd Hop Hty Hid. unfold list_. rewrite Hc, Hj. cbn [andb]. unfold Compile.
  assert (validateRequest c (by_fields [("id", id)]) = QErr ErrBadValue) as ->; [|done].
  unfold validateRequest. cbn [rqPage pgLimit by_fields rqFilters fmap list_fmap length rqSorts rqQuery].
  change (check _ ErrInvalidLimit) with (QOk ()). change (check _ ErrTooManyFilters) with (QOk ()).
  change (check _ ErrTooManySorts) with (QOk ()). change (check _ ErrQueryTooLong) with (QOk ()). cbn [mbind qres_bind check_all].
  unfold validateFilter. cbn [flField]. cbn [fst]. rewrite Hfd. unfold opAllowed. cbn [flOp].
  assert (existsb (λ a, bool_decide (a = OpEq)) (fFilterOps fd) = true) as ->.
  { apply existsb_exists. exists OpEq. by rewrite <-list_elem_of_In, bool_decide_eq_true. }
  cbn [check mbind qres_bind]. unfold validateFilterValue. cbn [flOp flValue snd]. rewrite Hty.
  cbn [parseTyped]. rewrite (bool_decide_eq_false_2 (slen id = 36%Z)) by done. by destruct (bool_decide (id = "")).
Qed.

Lemma text_eq s id : text s = Some (VStr id) ∧ text s ≠ None ↔ s = id.
Proof. split; [by intros [[= ->] _]|by intros ->]. Qed.

(** The object of a table under its id. *)
Lemma by_id {R A} (v : View R) name c n (handle : list dbval → A) summary (key : R → string) (m : gmap string R) fd id :
  RegistryGet name = Some c → bool_decide (name = "jobs") = false →
  (∀ r, length (vw_data v r) = n ∧ handle (vw_data v r) = summary r) → vw_rows v = rows m → map_Forall (λ i x, key x = i) m →
  fieldByName (cFields c) "id" = Some fd → OpEq ∈ fFilterOps fd → fType fd = TypeUUID →
  (∀ x, vw_row v x (fColumn fd) = text (key x)) → effectiveSorts c (by_fields [("id", id)]) ≠ [] → uuid_text id →
  first_of (list_ signer now t v name (by_fields [("id", id)]) n handle) = or_not_found (summary <$> m !! id).
Proof.
  intros Hc Hj Hr Hrows Hm Hfd Hop Hty Hcol Hs Hid.
  rewrite (list_as _ _ c _ _ _ summary); [|done|by rewrite Hj|done].
  rewrite (first_by _ _ _ _ (option_list (m !! id))); [by rewrite head_option_list|..].
  - eapply wf_known_ops, registered_wf; eauto.
  - by eapply uuid_key.
  - done.
  - rewrite Hrows. apply (rows_keyed key); [done|]. intros x. unfold has_fields, field_or_zero. cbn [forallb fst snd].
    rewrite andb_true_r, bool_decide_eq_true, Hfd. change (default no_field (Some fd)) with fd. rewrite Hty, Hcol. apply text_eq.
  - apply option_list_length.
Qed.

Lemma join_cons {A B} (key : A → string) (m : gmap string B) a l :
  join key m (a :: l) = option_list ((λ b, (a, b)) <$> m !! key a) ++ join key m l.
Proof. unfold join. simpl. by destruct (m !! key a). Qed.

Lemma join_filter {A B} (key : A → string) (m : gmap string B) (p : A → bool) (q : A * B → bool) l :
  (∀ x, q x = p x.1) → bool_filter q (join key m l) = join key m (bool_filter p l).
Proof.
  intros Hq. induction l as [|a l IH]; [done|]. rewrite (join_cons _ _ a l). unfold bool_filter in *. rewrite (filter_cons _ a l).
  destruct (m !! key a) as [b|] eqn:Hb; simpl.
  - rewrite filter_cons, IH, Hq. simpl. destruct (p a); [|done]. rewrite !decide_True by done. by rewrite join_cons, Hb.
  - rewrite IH. case_decide; [|done]. by rewrite join_cons, Hb.
Qed.

(** A wait with its parent run, its result and its members in order. *)
Definition wait_detail (id : string) : option WaitDetail :=
  w ← db_waits (tb_db t) !! id;
  r ← db_runs (tb_db t) !! rw_parent w;
  Some (MkWaitDetail (wait_summary (w, r)) (column_text (rw_result w))
          ((λ m, (wm_run m, int32 (wm_ordinal m))) <$>
           Store.order_by wm_ordinal (bool_filter (λ m, bool_decide (wm_wait m = id)) (db_members (tb_db t))))).

Lemma GetWait_eq id : keyed → uuid_text id → GetWait signer now t id = or_not_found (wait_detail id).
Proof.
  intros Hk Hid. unfold GetWait, ListWaits, wait_detail.
  rewrite (list_as _ _ waitsCollection _ _ _ wait_summary); [|done|done|intros [w r]; split; [done|apply wait_converted]].
  rewrite (first_by _ _ _ _ (join rw_parent (db_runs (tb_db t)) (option_list (db_waits (tb_db t) !! id)))).
  - destruct (db_waits (tb_db t) !! id) as [w|]; [|done]. simpl. by destruct (db_runs (tb_db t) !! rw_parent w).
  - eapply (wf_known_ops waitsCollection), (registered_wf "waits"). reflexivity.
  - by eapply uuid_key; [reflexivity|left|..].
  - done.
  - cbn [vw_rows waits_view]. rewrite (join_filter _ _ (λ w, bool_decide (rw_id w = id))).
    + f_equal. apply (rows_keyed rw_id); [|intros x; apply bool_decide_eq_true].
      intros i w Hw. by destruct (ky_waits Hk i w Hw).
    + intros [w r]. apply eq_bool_prop_intro. unfold has_fields. cbn [forallb fst]. rewrite andb_True, !bool_decide_spec.
      pose proof (text_eq (rw_id w) id) as E. split; [intros [Ht _]; by apply E|intros <-; split; [by apply E|done]].
  - destruct (db_waits (tb_db t) !! id) as [w|]; [|simpl; lia]. simpl. destruct (db_runs (tb_db t) !! rw_parent w); simpl; lia.
Qed.

(** The reads that go through a listing find the object itself.  For an id of
    a UUID's length they return the tenant, API key, session, credential or wait
    stored under it, with the summary the listing gives it, and [ErrNotFound] when
    there is none; an id of another length is refused. *)
Theorem keyed_reads : keyed →
  (∀ id, uuid_text id →
    GetTenant signer now t id = or_not_found (tenant_summary <$> ac_tenants (tb_acc t) !! id) ∧
    GetAPIKey signer now t id = or_not_found (api_key_summary <$> ac_keys (tb_acc t) !! id) ∧
    GetSession signer now t id =
      or_not_found ((λ s, MkSessionDetail (session_summary s) (map_to_list (se_labels s)).*1) <$> db_sessions (tb_db t) !! id) ∧
    GetWait signer now t id = or_not_found (wait_detail id)) ∧
  (∀ tenant kind name, uuid_text tenant →
    GetCredential signer now t tenant kind name =
      or_not_found (credential_summary <$> ac_credentials (tb_acc t) !! (tenant, kind, name))) ∧
  (∀ id, ¬ uuid_text id →
    GetTenant signer now t id = RErr (QueryError ErrBadValue) ∧ GetAPIKey signer now t id = RErr (QueryError ErrBadValue) ∧
    GetSession signer now t id = RErr (QueryError ErrBadValue)).
Proof.
  intros Hk.
  split_and!.
  - intros id Hid. split_and!.
    + eapply (by_id _ _ _ _ _ _ tn_id); [reflexivity|reflexivity| |reflexivity|apply Hk|reflexivity|left|done..].
      intros x. split; [done|apply tenant_converted].
    + eapply (by_id _ _ _ _ _ _ ak_id); [reflexivity|reflexivity| |reflexivity|apply Hk|reflexivity|left|done..].
      intros x. split; [done|apply api_key_converted].
    + unfold GetSession, ListSessions.
      erewrite (by_id _ _ _ _ _ session_summary se_id); [|reflexivity|reflexivity| |reflexivity|apply Hk|reflexivity|left|done..].
      * by destruct (db_sessions (tb_db t) !! id).
      * intros x. split; [done|apply session_converted].
    + by apply GetWait_eq.
  - intros tenant kind name Hid. unfold GetCredential, ListCredentials.
    rewrite (list_as _ _ credentialsCollection _ _ _ credential_summary) by (try done; auto using credential_converted).
    rewrite (first_by _ _ _ _ (option_list (ac_credentials (tb_acc t) !! (tenant, kind, name)))); [by rewrite head_option_list|..].
    + eapply wf_known_ops, (registered_wf "credentials"). reflexivity.
    + apply valid_key; [simpl; lia|]. repeat (apply Forall_cons; split); [..|by apply Forall_nil]; eexists.
      * split; [reflexivity|]. split; [left|]. split; [|by apply bool_decide_eq_true]. intros E. unfold uuid_text in Hid. cbn in E. by rewrite E in Hid.
      * split; [reflexivity|]. split; [left|]. done.
      * split; [reflexivity|]. split; [left|]. done.
    + done.
    + apply (rows_keyed (λ x, (cr_tenant x, cr_kind x, cr_name x))); [apply Hk|]. intros x. unfold has_fields.
      cbn [forallb]. rewrite !andb_true_iff, !bool_decide_eq_true.
      pose proof (text_eq (cr_tenant x) tenant) as E1. pose proof (text_eq (cr_kind x) kind) as E2.
      pose proof (text_eq (cr_name x) name) as E3. split.
      * intros (Ht & Hkd & Hnm & _). apply E1 in Ht as ->. apply E2 in Hkd as ->. by apply E3 in Hnm as ->.
      * intros [= <- <- <-]. split_and!; by (apply E1 || apply E2 || apply E3 || done).
    + apply option_list_length.
  - intros id Hid. split_and!.
    + by eapply bad_uuid; [reflexivity|reflexivity|reflexivity|left|..].
    + by eapply bad_uuid; [reflexivity|reflexivity|reflexivity|left|..].
    + unfold GetSession, ListSessions. by erewrite bad_uuid; [|reflexivity|reflexivity|reflexivity|left|..].
Qed.

End listing.
