(* ===== verification/TimelineSpec.v ===== *)
(** * The timeline and the related objects

    Theorems about the last two reads of [AdminReads] ([admin/store/store.go]):
    following the cursors of a session's timeline enumerates it, and the related
    objects of a thing are the ones that point to it. *)
From stdpp Require Import sorting.
From S2P Require Import Prelude Policy Domain Text Store StoreRuns EventLog Waits Strings Redact AdminQuery QuerySpec Plans Paging Descriptors Registry Accounts AdminCommands AdminReads ReadSpec.

(** ** The timeline of a session *)

Section timeline.
Context `{GoTime} `{MacBytes} `{CursorCodecOk} `{SqlOrder} `{RowText}.
Context (s : Signer) (t : Tables) (clock : nat → time) (session : string) (limit : Z).

Definition entry_of (r : timeline_row) : TimelineEntry := MkTimelineEntry (ts (tr_ts r)) (tr_kind r) (tr_id r) (tr_summary r).

(** The client's loop: read, and go on with the cursor while there is more. *)
Fixpoint timeline_pages (fuel i : nat) (token : string) : rres (list TimelineEntry) :=
  match fuel with
  | O => RErr (QueryError (QueryErr "out of fuel"))
  | S fuel' =>
      '(items, info) ← GetSessionTimeline (Some s) (clock i) t session (MkPage limit token);
      if piHasMore info then rest ← timeline_pages fuel' (S i) (piNextCursor info); ROk (items ++ rest)
      else ROk items
  end.

Let all := timeline_rows t session.

Lemma NoDup_kinds {A} (k : string) (f : A → string) (g : A → time) (h : A → string) (l : list A) :
  NoDup (f <$> l) → NoDup ((λ r, (tr_kind r, tr_id r)) <$> ((λ x, MkTimelineRow (g x) k (f x) (h x)) <$> l)).
Proof.
  intros Hn. rewrite <-list_fmap_compose. rewrite (list_fmap_ext _ (pair k ∘ f)) by done. rewrite list_fmap_compose.
  apply NoDup_fmap_2; [|done]. by intros a b [= ->].
Qed.

Lemma NoDup_keys {A} (f : A → string) (p : A → bool) (m : gmap string A) :
  map_Forall (λ i x, f x = i) m → NoDup (f <$> bool_filter p (rows m)).
Proof.
  intros Hm. eapply sublist_NoDup; [|apply fmap_sublist, sublist_filter].
  unfold rows. rewrite <-list_fmap_compose. rewrite (list_fmap_ext _ fst); [apply NoDup_fst_map_to_list|].
  intros _ [i y] Hin%list_elem_of_lookup_2. apply elem_of_map_to_list in Hin. by apply Hm.
Qed.

Lemma event_ids : NoDup ((λ e, (ev_session e, ev_seq e)) <$> db_events (tb_db t)) →
  NoDup (event_id <$> bool_filter (λ e, bool_decide (ev_session e = session)) (db_events (tb_db t))).
Proof.
  intros Hn. set (l := bool_filter _ _).
  assert (NoDup ((λ e, (ev_session e, ev_seq e)) <$> l)) as Hn'
    by (eapply sublist_NoDup; [exact Hn|apply fmap_sublist, sublist_filter]).
  assert (∀ e, e ∈ l → ev_session e = session) as Hs
    by (intros e [He _]%elem_of_bool_filter; by apply bool_decide_eq_true in He).
  clearbody l. induction l as [|e l IH]; [constructor|]. apply NoDup_cons in Hn' as [He Hn']. constructor; [|apply IH; set_solver].
  intros (x & E & Hx)%list_elem_of_fmap. apply He. apply list_elem_of_fmap. exists x. split; [|done].
  unfold event_id in E. rewrite (Hs e), (Hs x) in * by set_solver. f_equal.
  apply (inj (String.append session)) in E. apply (inj (String.append ":")) in E. by apply (inj pretty) in E.
Qed.

Lemma timeline_distinct : keyed t → NoDup ((λ r, (tr_kind r, tr_id r)) <$> all).
Proof.
  intros Hk. unfold all, timeline_rows. rewrite !fmap_app. rewrite !NoDup_app.
  assert (∀ A k k' (f : A → string) g h (l : list A) x,
    x ∈ (λ r, (tr_kind r, tr_id r)) <$> ((λ x, MkTimelineRow (g x) k (f x) (h x)) <$> l) → x.1 = k' → k = k') as Hkind.
  { intros A k k' f g h l x Hx <-. rewrite <-list_fmap_compose in Hx. by apply list_elem_of_fmap in Hx as (y & -> & _). }
  split_and!.
  - apply NoDup_kinds, event_ids, Hk.
  - intros x Hx. pose proof (Hkind _ _ _ _ _ _ _ _ Hx eq_refl) as E. intros [Hy|[Hy|Hy]%elem_of_app]%elem_of_app;
      by pose proof (Hkind _ _ _ _ _ _ _ _ Hy (eq_sym E)).
  - apply NoDup_kinds, NoDup_keys, Hk.
  - intros x Hx. pose proof (Hkind _ _ _ _ _ _ _ _ Hx eq_refl) as E. intros [Hy|Hy]%elem_of_app;
      by pose proof (Hkind _ _ _ _ _ _ _ _ Hy (eq_sym E)).
  - apply NoDup_kinds, NoDup_keys, Hk.
  - intros x Hx. pose proof (Hkind _ _ _ _ _ _ _ _ Hx eq_refl) as E. intros Hy.
    by pose proof (Hkind _ _ _ _ _ _ _ _ Hy (eq_sym E)).
  - apply NoDup_kinds. eapply sublist_NoDup; [|apply fmap_sublist, sublist_filter].
    apply (join_keys rw_id). unfold rows. rewrite <-list_fmap_compose.
    rewrite (list_fmap_ext _ fst); [apply NoDup_fst_map_to_list|].
    intros _ [i y] Hin%list_elem_of_lookup_2. apply elem_of_map_to_list in Hin. by apply (ky_waits t Hk).
Qed.

Lemma timeline_keys a b : keyed t → a ∈ all → b ∈ all → same_key timeline_order (timeline_cols a) (timeline_cols b) → a = b.
Proof.
  intros Hk Ha Hb Hsame. pose proof (timeline_distinct Hk) as Hn.
  pose proof (Hsame "kind" ltac:(right; left)) as Ek. pose proof (Hsame "id" ltac:(right; right; left)) as Ei.
  apply list_elem_of_lookup in Ha as [i Hi]. apply list_elem_of_lookup in Hb as [j Hj].
  assert (i = j) as <-; [|congruence].
  eapply NoDup_lookup; [exact Hn|by rewrite list_lookup_fmap, Hi|]. rewrite list_lookup_fmap, Hj. simpl. 
  change (text (tr_kind a) = text (tr_kind b)) in Ek. change (text (tr_id a) = text (tr_id b)) in Ei.
  injection Ek as ->. by injection Ei as ->.
Qed.

(** The cursor's condition is the order of the result. *)
Lemma timeline_after_lt (x : timeline_row) p : ParseTime (FormatTime (tr_ts x)) = Some (tr_ts x) →
  cpSortValues p = timeline_sort x →
  ∃ q, timeline_after p = QOk q ∧ ∀ r, q r = row_lt timeline_order (timeline_cols x) (timeline_cols r).
Proof.
  intros Hp Hv. unfold timeline_after. rewrite Hv. cbn [timeline_sort FormatSortValue]. rewrite Hp. eexists. split; [done|].
  intros r. cbn [row_lt timeline_order]. change (timeline_cols ?a "ts") with (Some (VTime (tr_ts a))).
  change (timeline_cols ?a "kind") with (Some (VStr (tr_kind a))). change (timeline_cols ?a "id") with (Some (VStr (tr_id a))).
  cbn [before_null before1]. rewrite andb_false_r, orb_false_r. unfold before1.
  rewrite (bool_decide_ext (Some (VTime (tr_ts x)) = Some (VTime (tr_ts r))) (tr_ts r = tr_ts x)) by (split; [by intros [= ->]|by intros ->]).
  rewrite (bool_decide_ext (Some (VStr (tr_kind x)) = Some (VStr (tr_kind r))) (tr_kind r = tr_kind x)) by (split; [by intros [= ->]|by intros ->]).
  done.
Qed.

Hypothesis secret_set : sgSecret s ≠ "".
Hypothesis session_known : is_Some (db_sessions (tb_db t) !! session).
Hypothesis session_plain : valid_utf8 session = true.
Hypothesis cursors_live : ∀ i, (Unix (clock (S i)) ≤ Unix (clock i + sgttl s))%Z.
Hypothesis keys : keyed t.
Hypothesis rows_plain : Forall (λ r, ParseTime (FormatTime (tr_ts r)) = Some (tr_ts r) ∧
  Forall (λ x, valid_utf8 x = true) (timeline_sort r)) all.
Hypothesis limit_ok : (0 ≤ limit ≤ MaxLimit)%Z.

Definition timeline_size : nat := Z.to_nat (if bool_decide (limit = 0%Z) then DefaultLimit else limit).

Lemma timeline_limit token : page_limit (MkPage limit token) = QOk (Z.of_nat timeline_size) ∧ 0 < timeline_size.
Proof.
  unfold page_limit, timeline_size, DefaultLimit, MaxLimit in *. cbn [pgLimit].
  destruct (bool_decide_reflect (limit = 0)%Z); rewrite bool_decide_eq_false_2 by lia; split; (lia || f_equal; lia).
Qed.

(** The cursor behind a row, as the next read finds it. *)
Lemma timeline_cursor i r : r ∈ all → ∃ token q,
  Sign s (clock i) (MkCursorPayload 0 "session_timeline" session (timeline_sort r) 0) = QOk token ∧
  (∀ l, timeline_where (Some s) (clock (S i)) session (MkPage l token) = QOk q) ∧
  ∀ x, q x = row_lt timeline_order (timeline_cols r) (timeline_cols x).
Proof.
  intros Hr. pose proof rows_plain as Hp. rewrite Forall_forall in Hp. destruct (Hp r Hr) as [Htime Hutf].
  set (p := MkCursorPayload 0 "session_timeline" session (timeline_sort r) 0).
  destruct (Verify_Sign s (clock i) p (clock (S i))) as (token & Hsign & Hne & Hver); [done|by split_and!|].
  assert (expired (stamped s (clock i) p) (clock (S i)) = false) as He.
  { unfold expired, stamped. cbn [cpExp p]. rewrite (bool_decide_eq_true_2 (0 = 0)%Z) by done.
    specialize (cursors_live i).
    rewrite (bool_decide_eq_false_2 (Unix (clock i + sgttl s) < Unix (clock (S i)))%Z), andb_false_r by lia. done. }
  rewrite He in Hver. destruct (timeline_after_lt r (stamped s (clock i) p) Htime eq_refl) as (q & Hq & Hlt).
  exists token, q. split_and!; [done| |done]. intros l. unfold timeline_where. cbn [pgCursor].
  rewrite bool_decide_eq_false_2, Hver by done. cbn [mbind qres_bind cpCollection cpFingerprint cpSortValues stamped p].
  by rewrite !bool_decide_eq_true_2 by done.
Qed.

(** A read that starts behind some of the timeline returns what follows, up to
    the limit, and a cursor when there is more. *)
Lemma timeline_once i token q rest : timeline_where (Some s) (clock i) session (MkPage limit token) = QOk q →
  Paging.order_by timeline_cols timeline_order (bool_filter q all) = rest →
  ∃ next, GetSessionTimeline (Some s) (clock i) t session (MkPage limit token) =
      ROk (entry_of <$> take timeline_size rest, MkPageInfo next (bool_decide (timeline_size < length rest)%nat)) ∧
    (timeline_size < length rest → ∀ r, last (take timeline_size rest) = Some r → ∃ q',
      timeline_where (Some s) (clock (S i)) session (MkPage limit next) = QOk q' ∧
      ∀ x, q' x = row_lt timeline_order (timeline_cols r) (timeline_cols x)).
Proof.
  intros Hq Hrest. unfold GetSessionTimeline. destruct (timeline_limit token) as [-> Hpos]. cbn [of_query mbind rres_bind].
  destruct session_known as [se ->]. rewrite Hq. cbn [of_query mbind rres_bind]. fold all. rewrite Hrest.
  replace (Z.to_nat (Z.of_nat timeline_size + 1)) with (S timeline_size) by lia. rewrite Nat2Z.id, take_take, Nat.min_l by lia.
  rewrite length_take.
  assert (bool_decide (Z.of_nat timeline_size < Z.of_nat (S timeline_size `min` length rest))%Z =
          bool_decide (timeline_size < length rest)%nat) as -> by (apply bool_decide_ext; lia).
  case_bool_decide as Hmore; [|exists ""; split; [done|lia]].
  destruct (last (take timeline_size rest)) as [r|] eqn:Hlast.
  2:{ apply last_None in Hlast. assert (length (take timeline_size rest) = 0) as Hz by by rewrite Hlast.
      rewrite length_take in Hz. lia. }
  assert (r ∈ all) as Hr.
  { apply last_Some_elem_of, elem_of_take in Hlast as (k & Hk & _). apply list_elem_of_lookup_2 in Hk.
    rewrite <-Hrest, order_by_perm in Hk. by apply elem_of_bool_filter in Hk as [_ Hk]. }
  destruct (timeline_cursor i r Hr) as (tok & q' & Hsign & Hwhere & Hlt). cbn [from_option]. rewrite Hsign.
  exists tok. split; [done|]. intros _ r' [= <-]. by exists q'.
Qed.

Lemma timeline_behind fuel i token q pre rest : timeline_where (Some s) (clock i) session (MkPage limit token) = QOk q →
  Paging.order_by timeline_cols timeline_order all = pre ++ rest →
  Paging.order_by timeline_cols timeline_order (bool_filter q all) = rest → length rest < fuel →
  timeline_pages fuel i token = ROk (entry_of <$> rest).
Proof.
  revert i token q pre rest. induction fuel as [|fuel IH]; intros i token q pre rest Hq Hall Hrest Hf; [lia|].
  cbn [timeline_pages]. destruct (timeline_once i token q rest Hq Hrest) as (next & -> & Hnext).
  cbn [mbind rres_bind piHasMore piNextCursor]. destruct (timeline_limit token) as [_ Hpos].
  case_bool_decide as Hmore; [|by rewrite take_ge by lia].
  destruct (last (take timeline_size rest)) as [r|] eqn:Hlast.
  2:{ apply last_None in Hlast. assert (length (take timeline_size rest) = 0) as Hz by by rewrite Hlast.
      rewrite length_take in Hz. lia. }
  destruct (Hnext Hmore r eq_refl) as (q' & Hq' & Hlt). apply last_Some in Hlast as [pre' Hpre'].
  assert (Paging.order_by timeline_cols timeline_order all = (pre ++ pre') ++ r :: drop timeline_size rest) as E'.
  { rewrite Hall, <-(take_drop timeline_size rest) at 1. rewrite Hpre', <-!app_assoc. done. }
  rewrite (IH (S i) next q' (pre ++ pre' ++ [r]) (drop timeline_size rest)).
  - simpl. by rewrite <-fmap_app, take_drop.
  - done.
  - by rewrite E', <-!app_assoc.
  - eapply order_by_beyond; [| |exact E'|by intros x _].
    + intros a b Ha Hb. by apply timeline_keys.
    + eapply NoDup_fmap_1, timeline_distinct, keys.
  - rewrite length_drop. lia.
Qed.

(** C28: following the cursors of a session's timeline from its first page until
    a page reports no more ends, and the pages together hold every event, run,
    resource and wait of the session exactly once, newest first.  Each cursor is
    used within its lifetime, and the ids and times are text a cursor can carry. *)
Theorem timeline_complete : ∃ l, timeline_pages (S (length (timeline_rows t session))) 0 "" = ROk (entry_of <$> l) ∧
  l ≡ₚ timeline_rows t session ∧ NoDup l ∧ StronglySorted (row_le timeline_cols timeline_order) l.
Proof.
  exists (Paging.order_by timeline_cols timeline_order all). split_and!.
  - eapply (timeline_behind _ 0 "" (λ _, true) []); [done|done|by rewrite bool_filter_all|].
    rewrite (Permutation_length (order_by_perm _ _ _)). unfold all. lia.
  - apply order_by_perm.
  - rewrite order_by_perm. eapply NoDup_fmap_1, timeline_distinct, keys.
  - apply result_sorted.
Qed.

End timeline.

(** ** Related objects *)

Section related.
Context `{GoTime} `{SqlOrder} `{RowText}.
Context (t : Tables).

(** What it means to be related: [related collection id relation ref] for each
    edge the store can follow. *)
Inductive related : string → string → string → RelatedRef → Prop :=
  | rel_sessions k s : db_sessions (tb_db t) !! k = Some s →
      related "tenants" (se_tenant s) "sessions" (MkRelatedRef "sessions" (se_id s) (se_title s))
  | rel_keys k x : ac_keys (tb_acc t) !! k = Some x →
      related "tenants" (ak_tenant x) "api_keys" (MkRelatedRef "api_keys" (ak_id x) (ak_name x))
  | rel_providers k p : db_providers (tb_db t) !! k = Some p →
      related "tenants" (pi_tenant p) "providers" (MkRelatedRef "providers" (pi_id p) (pi_name p))
  | rel_runs k r : db_runs (tb_db t) !! k = Some r →
      related "sessions" (ar_session r) "runs"
        (MkRelatedRef "runs" (ar_id r) (run_state_name (ar_state r) +:+ " " +:+ ar_loop_kind r))
  | rel_resources k r : db_resources (tb_db t) !! k = Some r →
      related "sessions" (r_session r) "resources" (MkRelatedRef "resources" (r_id r) (resource_label r))
  | rel_events e : e ∈ db_events (tb_db t) →
      related "sessions" (ev_session e) "events" (MkRelatedRef "events" (event_id e) (ev_kind e))
  | rel_memory k m : db_memory (tb_db t) !! k = Some m →
      related "sessions" (me_session m) "memory" (MkRelatedRef "memory" (me_session m +:+ ":" +:+ me_key m) (me_key m))
  | rel_steps x : x ∈ db_steps (tb_db t) →
      related "runs" (rs_run x) "steps"
        (MkRelatedRef "run_steps" (rs_run x +:+ ":" +:+ pretty (rs_step_index x)) ("step " +:+ pretty (rs_step_index x)))
  | rel_children k r id : db_runs (tb_db t) !! k = Some r → ar_parent r = Some id →
      related "runs" id "children" (MkRelatedRef "runs" (ar_id r) (run_state_name (ar_state r)))
  | rel_waits k w : db_waits (tb_db t) !! k = Some w →
      related "runs" (rw_parent w) "waits" (MkRelatedRef "waits" (rw_id w) (wait_state_name (Some (rw_state w))))
  | rel_owned k r : db_resources (tb_db t) !! k = Some r →
      related "providers" (r_provider r) "resources" (MkRelatedRef "resources" (r_id r) (resource_label r))
  | rel_provider k r p : db_resources (tb_db t) !! k = Some r → db_providers (tb_db t) !! r_provider r = Some p →
      related "resources" (r_id r) "provider" (MkRelatedRef "providers" (pi_id p) (pi_name p)).

(** An edge holds what its condition keeps. *)
Lemma edge_elem {R} (keep : R → bool) key order ref (l : list R) x :
  x ∈ edge keep key order ref l ↔ ∃ r, r ∈ l ∧ keep r = true ∧ x = ref r.
Proof.
  unfold edge. rewrite list_elem_of_fmap. setoid_rewrite order_by_perm. setoid_rewrite elem_of_bool_filter. naive_solver.
Qed.

Lemma edge_rows {K R} `{Countable K} (keep : R → bool) key order ref (m : gmap K R) x :
  x ∈ edge keep key order ref (rows m) ↔ ∃ k r, m !! k = Some r ∧ keep r = true ∧ x = ref r.
Proof. rewrite edge_elem. setoid_rewrite rows_elem. naive_solver. Qed.

Lemma provider_edge id x : x ∈ (λ y : Resource * ProviderInstance, MkRelatedRef "providers" (pi_id y.2) (pi_name y.2)) <$>
    bool_filter (λ y : Resource * ProviderInstance, bool_decide (r_id y.1 = id))
      (join r_provider (db_providers (tb_db t)) (rows (db_resources (tb_db t)))) ↔
  ∃ k r p, db_resources (tb_db t) !! k = Some r ∧ db_providers (tb_db t) !! r_provider r = Some p ∧ r_id r = id ∧
           x = MkRelatedRef "providers" (pi_id p) (pi_name p).
Proof.
  rewrite list_elem_of_fmap. split.
  - intros ([r p] & -> & [Hid (Hr & Hp)%join_elem]%elem_of_bool_filter). apply rows_elem in Hr as [k Hk].
    apply bool_decide_eq_true in Hid. by exists k, r, p.
  - intros (k & r & p & Hk & Hp & Hid & ->). exists (r, p). split; [done|]. apply elem_of_bool_filter.
    split; [by apply bool_decide_eq_true|]. apply join_elem. split; [|done]. apply rows_elem. by exists k.
Qed.

Definition edge_has (edges : list (string * list RelatedRef)) (relation : string) (ref : RelatedRef) : Prop :=
  ∃ l, (relation, l) ∈ edges ∧ ref ∈ l.

Lemma edge_has_cons name l edges relation ref :
  edge_has ((name, l) :: edges) relation ref ↔ (relation = name ∧ ref ∈ l) ∨ edge_has edges relation ref.
Proof.
  unfold edge_has. setoid_rewrite elem_of_cons. split.
  - intros (l' & [[= -> ->]|Hin] & Hr); [by left|right; eauto].
  - intros [[-> Hr]|(l' & Hin & Hr)]; eauto.
Qed.
Lemma edge_has_nil relation ref : edge_has [] relation ref ↔ False.
Proof. split; [|done]. by intros (l & Hl%elem_of_nil & _). Qed.

Ltac open_hyps :=
  repeat match goal with
  | Hx : _ ∨ _ |- _ => destruct Hx
  | Hx : _ ∧ _ |- _ => destruct Hx
  | Hx : ∃ _, _ |- _ => destruct Hx
  | Hx : False |- _ => destruct Hx
  | Hx : bool_decide _ = true |- _ => apply bool_decide_eq_true in Hx
  end.

Ltac pick_edge := first [left; split; [reflexivity|] | right; pick_edge].

(** The edges of a collection hold what is related along them. *)
Lemma edges_related collection id edges relation ref : edges_of t collection id = Some edges →
  edge_has edges relation ref ↔ related collection id relation ref.
Proof.
  unfold edges_of. intros He.
  repeat (case_bool_decide; [subst; injection He as <-;
    unfold tenant_edges, session_edges, run_edges, provider_edges, resource_edges, resource_edge;
    rewrite !edge_has_cons, edge_has_nil, ?edge_rows, ?edge_elem, ?provider_edge|]); [..|done];
    (split; [intros Hx; open_hyps; subst; by econstructor|inversion 1; subst; pick_edge;
       repeat eexists; eauto using bool_decide_eq_true_2]).
Qed.

(** Cutting every part of a concatenation beyond the limit changes neither its
    first elements nor whether it exceeds the limit. *)
Lemma take_bind_take {A} (n m : nat) (l : list (list A)) : n < m →
  take n (l ≫= take m) = take n (mjoin l) ∧ (n < length (l ≫= take m) ↔ n < length (mjoin l)).
Proof.
  revert n. induction l as [|x l IH]; intros n Hn; [done|]. change (mjoin (x :: l)) with (x ++ mjoin l).
  rewrite bind_cons, !take_app, !length_app, take_take, Nat.min_l, !length_take by lia.
  destruct (decide (length x < m)) as [Hx|Hx].
  - rewrite Nat.min_r by lia. destruct (IH (n - length x)) as [-> Hl]; [lia|]. split; [done|]. lia.
  - rewrite Nat.min_l by lia. replace (n - m) with 0 by lia. replace (n - length x) with 0 by lia. split; [done|lia].
Qed.
Definition effective_limit (page : Page) : Z := if bool_decide (pgLimit page = 0%Z) then DefaultLimit else pgLimit page.

Lemma chosen_elem relation edges ref :
  ref ∈ mjoin (chosen relation edges).*2 ↔ ∃ rel, (relation = "" ∨ relation = rel) ∧ edge_has edges rel ref.
Proof.
  unfold edge_has, chosen. rewrite list_elem_of_join. split.
  - intros (l & Hr & ([rel l'] & -> & [Hb Hin]%elem_of_bool_filter)%list_elem_of_fmap). exists rel.
    apply orb_true_iff in Hb. rewrite !bool_decide_eq_true in Hb. split; [done|by exists l'].
  - intros (rel & Hrel & l & Hin & Hr). exists l. split; [done|]. apply list_elem_of_fmap. exists (rel, l). split; [done|].
    apply elem_of_bool_filter. split; [|done]. apply orb_true_iff. by rewrite !bool_decide_eq_true.
Qed.

(** The related objects of a thing.  An answer of [ListRelated] is the start
    of a list of exactly the references related to the object along the requested
    relation, or along every relation when none is named: the first ones up to the
    limit, and it says there is more exactly when some were left out.  A request
    with a cursor or beyond the largest limit has no answer. *)
Theorem related_complete collection id relation page items info :
  (0 ≤ pgLimit page)%Z → ListRelated t collection id relation page = QOk (items, info) →
  pgCursor page = "" ∧ (effective_limit page ≤ MaxLimit)%Z ∧ piNextCursor info = "" ∧
  ∃ all, items = take (Z.to_nat (effective_limit page)) all ∧
    (piHasMore info = true ↔ (effective_limit page < Z.of_nat (length all))%Z) ∧
    ∀ ref, ref ∈ all ↔ ∃ rel, (relation = "" ∨ relation = rel) ∧ related collection id rel ref.
Proof.
  intros Hunsigned. assert (0 ≤ effective_limit page)%Z as Hpos
    by (unfold effective_limit, DefaultLimit; case_bool_decide; lia).
  unfold ListRelated.
  assert (page_limit page = if bool_decide (MaxLimit < effective_limit page)%Z then QErr ErrInvalidLimit else QOk (effective_limit page))
    as -> by done.
  destruct (bool_decide_reflect (MaxLimit < effective_limit page)%Z) as [|Hl]; [done|]. cbn [mbind qres_bind].
  case_bool_decide as Hc; cbn [negb]; [|done]. destruct (edges_of t collection id) as [edges|] eqn:He; [|done].
  destruct (chosen relation edges) as [|e0 es0] eqn:Hch; [done|]. rewrite <-Hch. clear Hch e0 es0.
  change (list_bind (string * list RelatedRef)%type RelatedRef) with (@mbind list _ (string * list RelatedRef)%type RelatedRef).
  assert ((chosen relation edges ≫= λ e, take (Z.to_nat (effective_limit page + 1)) e.2) =
          (chosen relation edges).*2 ≫= take (Z.to_nat (effective_limit page + 1))) as -> by (symmetry; apply list_fmap_bind).
  set (parts := (chosen relation edges).*2). set (n := Z.to_nat (effective_limit page)).
  assert (Z.to_nat (effective_limit page + 1) = S n) as -> by lia.
  destruct (take_bind_take n (S n) parts) as [Ht Hn]; [lia|]. intros Hok. split; [done|]. split; [lia|].
  assert (∀ ref, ref ∈ mjoin parts ↔ ∃ rel, (relation = "" ∨ relation = rel) ∧ related collection id rel ref) as Hall.
  { intros ref. unfold parts. rewrite chosen_elem. by setoid_rewrite (edges_related _ _ _ _ _ He). }
  revert Hok. case_bool_decide as Hmore; intros [= <- <-]; (split; [done|]); exists (mjoin parts); (split; [|split; [|done]]).
  - done.
  - simpl. split; [|done]. intros _. lia.
  - rewrite <-Ht. symmetry. apply take_ge. lia.
  - simpl. split; [done|]. lia.
Qed.

End related.

(** ** Concrete reads

    Tables with a row in each, on which the theorems of [ReadSpec] and of this file
    apply, with every parameter of the reads instantiated. *)

Module ReadDemo.
Import Registry.Demo.

#[global] Instance row_text : RowText :=
  {| payload_text := λ p, match p with RawPayload b => b | _ => "{}" end; history_text := λ _, "[]"; doc_text := λ _, "{}";
     policy_text := λ _, "{}"; model_text := λ _, "{}"; capabilities_text := λ _, "{}"; array_text := Join "," |}.
#[global] Instance go_fmt : GoFmt := {| time_String := λ t, pretty t; any_String := λ _, "map[]" |}.
#[global] Instance structs : Structpb := {| NewStruct := Some; unmarshal_object := λ _, None |}.

(** Ids of a UUID's length. *)
Definition uuid (c : Z) : string := of_bytes (replicate 36 c).
Definition tenant_id : string := uuid 97.
Definition session_id : string := uuid 98.
Definition run_id : string := uuid 99.
Definition wait_id : string := uuid 100.

Definition alice : Actor := MkActor "user" "alice" "Alice".
Definition demo_run : AgentRun :=
  MkAgentRun run_id session_id tenant_id None "" "" 0 DefaultRunPolicy alice None RunPending "default" 1
    (MkModelConfig "" "" "" []) "go" RawEmpty "" "" None 20 20.
Definition demo_db : DB :=
  MkDB 50 {[ session_id := MkSession session_id tenant_id "notes" {[ "team" := "x" ]} 2 10 None ]}
    [MkEvent session_id 1 11 alice "note" (RawPayload "hello"); MkEvent session_id 2 30 alice "note" (RawPayload "again")]
    {[ run_id := demo_run ]} [MkRunStep run_id 0 1 5 6 "stop" 21]
    {[ wait_id := MkRunWait wait_id run_id 0 "call" "wait" WaitOpen "resolve" 90 None None ]} [MkRunWaitMember wait_id run_id 0]
    {[ (session_id, "k") := MkMemoryEntry session_id "k" "1" alice 12 ]}
    {[ "res" := MkResource "res" tenant_id session_id "dev_env" "prov" ResourceReady None None "http://e" "hash" "sealed" 3 "" None 13 14
                  (Some 14%Z) None ]}
    {[ "prov" := MkProviderInstance "prov" tenant_id "null" "p" (JObj []) "active" (MkCapabilities "null" [] ∅) None 9 ]} [].
Definition demo_accounts : Accounts :=
  MkAccounts {[ tenant_id := MkTenant tenant_id "acme" 1 ]}
    {[ "key" := MkAPIKey "key" tenant_id "ci" "owner" "ulk_ab" [1; 2; 3; 4; 5]%Z [9]%Z 2 None ]}
    {[ (tenant_id, "inference", "openai") := MkCredential tenant_id "inference" "openai" [1; 2; 3]%Z 3 3 ]}
    {[ "pp" := MkPeriodicRow "pp" tenant_id session_id None "1h" "ping" true 60 4 ]}.
Definition demo_job : RiverJob :=
  MkRiverJob 7 "run_step" "available" 0 5 "default" 1 20 20 None None "{}" "{}" None [].
Definition demo_audit : AuditRow :=
  MkAuditRow "au1" 40 "op" "admin" "rq" "CancelRun" ∅ "why" "hash" None None "succeeded" "" "10.0.0.1" "v1" (Some "idem").
Definition demo : Tables :=
  MkTables (MkWorld demo_db demo_accounts []) [demo_audit] (Some [demo_job]) {[ wait_id := (25%Z, None) ]} 12.

Lemma demo_keyed : keyed demo.
Proof.
  split; try (apply map_Forall_singleton; done).
  all: by apply (bool_decide_eq_true_1 (NoDup _)).
Qed.

Example demo_events_listed :
  ListEvents (Some signer) 0 demo (MkRequest "" [] [] (MkPage 1 "")) ≠ QOk ([], MkPageInfo "" false) ∧
  GetRuntimeHealth 0 "v1" demo = MkRuntimeHealth "v1" 0 12 true 1 1 2 1 1 1 1 1 0 0 0 0 0 ∅.
Proof. split; vm_compute; [discriminate|reflexivity]. Qed.

Lemma details_match_listings_witness :
  ∃ d, GetRun demo run_id = ROk d ∧ ud_summary d = with_steps 0 (listed_run demo demo_run).
Proof. apply (proj1 (details_match_listings demo demo_keyed)). reflexivity. Defined.

Lemma keyed_reads_witness :
  GetTenant (Some signer) 0 demo tenant_id = ROk (MkTenantSummary tenant_id "acme" (Some 1%Z) 1 1 1) ∧
  GetTenant (Some signer) 0 demo "x" = RErr (QueryError ErrBadValue).
Proof.
  destruct (keyed_reads (Some signer) 0 demo demo_keyed) as (Hid & _ & Hbad). split.
  - destruct (Hid tenant_id) as [-> _]; [done|]. vm_compute. reflexivity.
  - apply (proj1 (Hbad "x" ltac:(done))).
Defined.

Lemma timeline_complete_witness : ∃ l,
  timeline_pages signer demo (λ i, Z.of_nat i) session_id 2 (S (length (timeline_rows demo session_id))) 0 "" =
    ROk (entry_of <$> l) ∧
  l ≡ₚ timeline_rows demo session_id ∧ NoDup l ∧ StronglySorted (row_le timeline_cols timeline_order) l.
Proof.
  apply (timeline_complete signer demo (λ i, Z.of_nat i) session_id 2).
  - done.
  - eexists. reflexivity.
  - reflexivity.
  - intros i. unfold Unix, sgttl, signer, DefaultCursorTTL. simpl. apply Z.div_le_mono; lia.
  - apply demo_keyed.
  - by apply (bool_decide_eq_true_1 (Forall (λ r, ParseTime (FormatTime (tr_ts r)) = Some (tr_ts r) ∧
      Forall (λ x, valid_utf8 x = true) (timeline_sort r)) (timeline_rows demo session_id))).
  - unfold MaxLimit. lia.
Defined.

Definition demo_related : list RelatedRef :=
  [MkRelatedRef "runs" run_id "pending default"; MkRelatedRef "resources" "res" "dev_env ready"].

Lemma related_complete_witness : ∃ all, demo_related = take 2 all ∧
  ∀ ref, ref ∈ all ↔ ∃ rel, ("" = "" ∨ "" = rel) ∧ related demo "sessions" session_id rel ref.
Proof.
  destruct (related_complete demo "sessions" session_id "" (MkPage 2 "") demo_related (MkPageInfo "" true)) as (_ & _ & _ & all & Ht & _ & Ha).
  - done.
  - vm_compute. reflexivity.
  - by exists all.
Defined.

End ReadDemo.
