(* ===== verification/AdminHttp.v ===== *)
(** * The operator's API (package [adminhttp])

    [adminhttp/server.go], [handler.go] and [command.go] and the conversion of
    messages in [admin/query/proto.go]: the routing of a request, the
    authentication interceptor with the context it builds, the read service and
    the command service.

    A message is the record of its fields; a nil message is [None].  An RPC
    answers with a reply or fails with a Connect code; the text of an error is not
    modelled.  The descriptions in a collection descriptor are left out, as in
    [AdminQuery].  The clock and the id of the audit row are arguments. *)
From S2P Require Import Prelude Policy Domain Text Store StoreRuns EventLog Loop Waits Tools Api ResourceStore OperatorTx ResourceWork Strings Redact AdminQuery QuerySpec Plans Paging Descriptors AdminAuthz Accounts AdminCommands CommandSpec AdminReads.

(** ** Messages of a search *)

(** The operators are strings in the program. *)
Definition op_names : list (string * Op) :=
  [("eq", OpEq); ("ne", OpNe); ("lt", OpLt); ("lte", OpLte); ("gt", OpGt); ("gte", OpGte); ("in", OpIn); ("not_in", OpNotIn);
   ("contains", OpContains); ("prefix", OpPrefix); ("is_null", OpIsNull); ("is_not_null", OpIsNotNull)].
(** [Op(s)] *)
Definition Op_of (s : string) : Op := from_option snd (OpUnknown s) (head (bool_filter (λ x : string * Op, bool_decide (x.1 = s)) op_names)).

Record FilterMsg := MkFilterMsg { fmField : string; fmOp : string; fmValue : string; fmValues : list string }.
Record PageMsg := MkPageMsg { pmLimit : Z; pmCursor : string }.
Record SearchMsg := MkSearchMsg { smQuery : string; smFilters : list FilterMsg; smSorts : list Sort; smPage : option PageMsg }.

(** The page of a request that carries one, and the zero page. *)
Definition page_from (p : option PageMsg) : Page := from_option (λ m, MkPage (pmLimit m) (pmCursor m)) (MkPage 0 "") p.

Definition SearchFromProto (s : option SearchMsg) : Request :=
  match s with
  | None => MkRequest "" [] [] (MkPage 0 "")
  | Some m =>
      MkRequest (smQuery m) ((λ f, MkFilter (fmField f) (Op_of (fmOp f)) (fmValue f) (fmValues f)) <$> smFilters m) (smSorts m)
        (page_from (smPage m))
  end.

(** ** Descriptors on the wire *)

Inductive FieldTypeMsg :=
  | FIELD_TYPE_UNSPECIFIED | FIELD_TYPE_STRING | FIELD_TYPE_UUID | FIELD_TYPE_INT | FIELD_TYPE_BOOL | FIELD_TYPE_TIMESTAMP
  | FIELD_TYPE_JSON.
Inductive FilterOpMsg :=
  | FILTER_OP_UNSPECIFIED | FILTER_OP_EQ | FILTER_OP_NE | FILTER_OP_LT | FILTER_OP_LTE | FILTER_OP_GT | FILTER_OP_GTE
  | FILTER_OP_IN | FILTER_OP_NOT_IN | FILTER_OP_CONTAINS | FILTER_OP_PREFIX | FILTER_OP_IS_NULL | FILTER_OP_IS_NOT_NULL.

Definition fieldTypeToProto (t : FieldType) : FieldTypeMsg :=
  match t with
  | TypeString => FIELD_TYPE_STRING | TypeUUID => FIELD_TYPE_UUID | TypeInt => FIELD_TYPE_INT | TypeBool => FIELD_TYPE_BOOL
  | TypeTimestamp => FIELD_TYPE_TIMESTAMP | TypeJSON => FIELD_TYPE_JSON | TypeUnknown => FIELD_TYPE_UNSPECIFIED
  end.

Definition opToProto (op : Op) : FilterOpMsg :=
  match op with
  | OpEq => FILTER_OP_EQ | OpNe => FILTER_OP_NE | OpLt => FILTER_OP_LT | OpLte => FILTER_OP_LTE | OpGt => FILTER_OP_GT
  | OpGte => FILTER_OP_GTE | OpIn => FILTER_OP_IN | OpNotIn => FILTER_OP_NOT_IN | OpContains => FILTER_OP_CONTAINS
  | OpPrefix => FILTER_OP_PREFIX | OpIsNull => FILTER_OP_IS_NULL | OpIsNotNull => FILTER_OP_IS_NOT_NULL
  | OpUnknown _ => FILTER_OP_UNSPECIFIED
  end.

Record FieldDescriptor := MkFieldDescriptor {
  fdName : string; fdType : FieldTypeMsg; fdSortable : bool; fdSearchable : bool; fdFilterOps : list FilterOpMsg;
}.
Record CollectionDescriptor := MkCollectionDescriptor {
  cdName : string; cdHasDetail : bool; cdHasBlob : bool; cdPrimaryKey : string; cdFields : list FieldDescriptor;
  cdDefaultSorts : list Sort;
}.

(** The loop over the fields that collects the names of the primary key. *)
Definition primary_key (fields : list Field) : string :=
  foldl (λ pk f, if fPK f && bool_decide (pk = "") then fName f else if fPK f then pk +:+ "," +:+ fName f else pk) "" fields.

Definition CollectionToProto (c : Collection) : CollectionDescriptor :=
  MkCollectionDescriptor (cName c) (cHasDetail c) (cHasBlob c) (primary_key (cFields c))
    ((λ f, MkFieldDescriptor (fName f) (fieldTypeToProto (fType f)) (fSortable f) (fSearchable f) (opToProto <$> fFilterOps f)) <$>
     cFields c)
    (cDefaultSorts c).

(** ** Answers *)

Inductive answered (A : Type) := Reply (a : A) | Fails (code : string).
Arguments Reply {A} a.
Arguments Fails {A} code.

Definition CodeInvalidArgument : string := "invalid_argument".
Definition CodeNotFound : string := "not_found".
Definition CodeInternal : string := "internal".
Definition CodeUnauthenticated : string := "unauthenticated".
Definition CodePermissionDenied : string := "permission_denied".
Definition CodeFailedPrecondition : string := "failed_precondition".
Definition CodeResourceExhausted : string := "resource_exhausted".
Definition CodeUnimplemented : string := "unimplemented".

(** A sentinel of package [query], alone or in a [ValidationError], is the
    caller's mistake. *)
Definition mapErr (e : read_err) : string :=
  match e with
  | QueryError (QueryErr _) => CodeInternal
  | QueryError _ => CodeInvalidArgument
  | StoreError ErrNotFound => CodeNotFound
  | StoreError _ => CodeInternal
  end.

Definition answer_of {A} (r : rres A) : answered A := match r with ROk a => Reply a | RErr e => Fails (mapErr e) end.

(** ** The read service *)

(** The RPCs of [AdminReadService] that read the store, with their arguments. *)
Inductive read_rpc :=
  | RpcDescribeCollection (name : string)
  | RpcListTenants (s : option SearchMsg) | RpcGetTenant (id : string)
  | RpcListAPIKeys (s : option SearchMsg) | RpcGetAPIKey (id : string)
  | RpcListSessions (s : option SearchMsg) | RpcGetSession (id : string)
  | RpcListEvents (s : option SearchMsg) | RpcGetEvent (session : string) (seq : Z)
  | RpcListRuns (s : option SearchMsg) | RpcGetRun (id : string) | RpcGetRunHistory (id : string)
  | RpcListRunSteps (s : option SearchMsg)
  | RpcListResources (s : option SearchMsg) | RpcGetResource (id : string)
  | RpcListProviders (s : option SearchMsg) | RpcGetProvider (id : string)
  | RpcListCredentials (s : option SearchMsg) | RpcGetCredential (tenant kind name : string)
  | RpcListPeriodicPrompts (s : option SearchMsg) | RpcGetPeriodicPrompt (id : string)
  | RpcListMemory (s : option SearchMsg) | RpcGetMemory (session key : string)
  | RpcListWaits (s : option SearchMsg) | RpcGetWait (id : string)
  | RpcListJobs (s : option SearchMsg) | RpcGetJob (id : Z)
  | RpcGetRuntimeHealth
  | RpcGetSessionTimeline (session : string) (page : option PageMsg)
  | RpcListRelated (collection id relation : string) (page : option PageMsg)
  | RpcListAuditEvents (s : option SearchMsg) | RpcGetAuditEvent (id : string).

Inductive read_reply :=
  | Descriptors_ (l : list CollectionDescriptor)
  | Tenants_ (l : list TenantSummary) (p : PageInfo) | Tenant_ (x : TenantSummary)
  | APIKeys_ (l : list APIKeySummary) (p : PageInfo) | APIKey_ (x : APIKeySummary)
  | Sessions_ (l : list SessionSummary) (p : PageInfo) | Session_ (x : SessionDetail)
  | Events_ (l : list EventSummary) (p : PageInfo) | Event_ (x : EventDetail)
  | Runs_ (l : list RunSummary) (p : PageInfo) | Run_ (x : RunDetail) | RunHistory_ (x : RunHistoryBlob)
  | RunSteps_ (l : list RunStepSummary) (p : PageInfo)
  | Resources_ (l : list ResourceSummary) (p : PageInfo) | Resource_ (x : ResourceDetail)
  | Providers_ (l : list ProviderSummary) (p : PageInfo) | Provider_ (x : ProviderDetail)
  | Credentials_ (l : list CredentialSummary) (p : PageInfo) | Credential_ (x : CredentialSummary)
  | Periodics_ (l : list PeriodicPromptSummary) (p : PageInfo) | Periodic_ (x : PeriodicPromptDetail)
  | Memories_ (l : list MemorySummary) (p : PageInfo) | Memory_ (x : MemoryDetail)
  | Waits_ (l : list WaitSummary) (p : PageInfo) | Wait_ (x : WaitDetail)
  | Jobs_ (l : list JobSummary) (p : PageInfo) | Job_ (x : JobDetail)
  | Health_ (x : RuntimeHealth)
  | Timeline_ (l : list TimelineEntry) (p : PageInfo)
  | Related_ (l : list RelatedRef) (p : PageInfo)
  | Audits_ (l : list AuditEventSummary) (p : PageInfo) | Audit_ (x : AuditEventSummary).

(** [items, page, err := s.store.List...; if err != nil { return nil, mapErr(err) }] *)
Definition listed {A} (mk : list A → PageInfo → read_reply) (r : qres (list A * PageInfo)) : answered read_reply :=
  match r with QOk (items, p) => Reply (mk items p) | QErr e => Fails (mapErr (QueryError e)) end.
Definition found {A} (mk : A → read_reply) (r : rres A) : answered read_reply :=
  match r with ROk x => Reply (mk x) | RErr e => Fails (mapErr e) end.

Definition DescribeCollection (name : string) : answered read_reply :=
  if bool_decide (name = "") then Reply (Descriptors_ (CollectionToProto <$> RegistryAll))
  else match RegistryGet name with
       | None => Fails CodeNotFound
       | Some c => Reply (Descriptors_ [CollectionToProto c])
       end.

Section services.
Context `{GoTime} `{Mac} `{CursorCodec} `{Digest} `{SqlOrder} `{CaseFold} `{RowText} `{GoFmt} `{Structpb}.

Context (signer : option Signer) (now : time) (build : string) (t : Tables).

(** One handler per RPC. *)
Definition readListTenants (s : option SearchMsg) : answered read_reply :=
  listed Tenants_ (ListTenants signer now t (SearchFromProto s)).
Definition readGetTenant (id : string) : answered read_reply := found Tenant_ (GetTenant signer now t id).
Definition readListAPIKeys (s : option SearchMsg) : answered read_reply :=
  listed APIKeys_ (ListAPIKeys signer now t (SearchFromProto s)).
Definition readGetAPIKey (id : string) : answered read_reply := found APIKey_ (GetAPIKey signer now t id).
Definition readListSessions (s : option SearchMsg) : answered read_reply :=
  listed Sessions_ (ListSessions signer now t (SearchFromProto s)).
Definition readGetSession (id : string) : answered read_reply := found Session_ (GetSession signer now t id).
Definition readListEvents (s : option SearchMsg) : answered read_reply :=
  listed Events_ (ListEvents signer now t (SearchFromProto s)).
Definition readGetEvent (session : string) (seq : Z) : answered read_reply := found Event_ (GetEvent t session seq).
Definition readListRuns (s : option SearchMsg) : answered read_reply := listed Runs_ (ListRuns signer now t (SearchFromProto s)).
Definition readGetRun (id : string) : answered read_reply := found Run_ (GetRun t id).
Definition readGetRunHistory (id : string) : answered read_reply := found RunHistory_ (GetRunHistory t id).
Definition readListRunSteps (s : option SearchMsg) : answered read_reply :=
  listed RunSteps_ (ListRunSteps signer now t (SearchFromProto s)).
Definition readListResources (s : option SearchMsg) : answered read_reply :=
  listed Resources_ (ListResources signer now t (SearchFromProto s)).
Definition readGetResource (id : string) : answered read_reply := found Resource_ (GetResource t id).
Definition readListProviders (s : option SearchMsg) : answered read_reply :=
  listed Providers_ (ListProviders signer now t (SearchFromProto s)).
Definition readGetProvider (id : string) : answered read_reply := found Provider_ (GetProvider t id).
Definition readListCredentials (s : option SearchMsg) : answered read_reply :=
  listed Credentials_ (ListCredentials signer now t (SearchFromProto s)).
Definition readGetCredential (tenant : string) (kind : string) (name : string) : answered read_reply :=
  found Credential_ (GetCredential signer now t tenant kind name).
Definition readListPeriodicPrompts (s : option SearchMsg) : answered read_reply :=
  listed Periodics_ (ListPeriodicPrompts signer now t (SearchFromProto s)).
Definition readGetPeriodicPrompt (id : string) : answered read_reply := found Periodic_ (GetPeriodicPrompt t id).
Definition readListMemory (s : option SearchMsg) : answered read_reply :=
  listed Memories_ (ListMemory signer now t (SearchFromProto s)).
Definition readGetMemory (session : string) (key : string) : answered read_reply := found Memory_ (GetMemory t session key).
Definition readListWaits (s : option SearchMsg) : answered read_reply :=
  listed Waits_ (ListWaits signer now t (SearchFromProto s)).
Definition readGetWait (id : string) : answered read_reply := found Wait_ (GetWait signer now t id).
Definition readListJobs (s : option SearchMsg) : answered read_reply := listed Jobs_ (ListJobs signer now t (SearchFromProto s)).
Definition readGetJob (id : Z) : answered read_reply := found Job_ (GetJob t id).
Definition readGetRuntimeHealth : answered read_reply := Reply (Health_ (GetRuntimeHealth now build t)).
Definition readGetSessionTimeline (session : string) (page : option PageMsg) : answered read_reply :=
  found (λ x, Timeline_ x.1 x.2) (GetSessionTimeline signer now t session (page_from page)).
Definition readListRelated (collection : string) (id : string) (relation : string) (page : option PageMsg) : answered read_reply :=
  listed Related_ (ListRelated t collection id relation (page_from page)).
Definition readListAuditEvents (s : option SearchMsg) : answered read_reply :=
  listed Audits_ (ListAuditEvents signer now t (SearchFromProto s)).
Definition readGetAuditEvent (id : string) : answered read_reply := found Audit_ (GetAuditEvent t id).

Definition read_service (rpc : read_rpc) : answered read_reply :=
  match rpc with
  | RpcDescribeCollection name => DescribeCollection name
  | RpcListTenants s => readListTenants s
  | RpcGetTenant id => readGetTenant id
  | RpcListAPIKeys s => readListAPIKeys s
  | RpcGetAPIKey id => readGetAPIKey id
  | RpcListSessions s => readListSessions s
  | RpcGetSession id => readGetSession id
  | RpcListEvents s => readListEvents s
  | RpcGetEvent session seq => readGetEvent session seq
  | RpcListRuns s => readListRuns s
  | RpcGetRun id => readGetRun id
  | RpcGetRunHistory id => readGetRunHistory id
  | RpcListRunSteps s => readListRunSteps s
  | RpcListResources s => readListResources s
  | RpcGetResource id => readGetResource id
  | RpcListProviders s => readListProviders s
  | RpcGetProvider id => readGetProvider id
  | RpcListCredentials s => readListCredentials s
  | RpcGetCredential tenant kind name => readGetCredential tenant kind name
  | RpcListPeriodicPrompts s => readListPeriodicPrompts s
  | RpcGetPeriodicPrompt id => readGetPeriodicPrompt id
  | RpcListMemory s => readListMemory s
  | RpcGetMemory session key => readGetMemory session key
  | RpcListWaits s => readListWaits s
  | RpcGetWait id => readGetWait id
  | RpcListJobs s => readListJobs s
  | RpcGetJob id => readGetJob id
  | RpcGetRuntimeHealth => readGetRuntimeHealth
  | RpcGetSessionTimeline session page => readGetSessionTimeline session page
  | RpcListRelated collection id relation page => readListRelated collection id relation page
  | RpcListAuditEvents s => readListAuditEvents s
  | RpcGetAuditEvent id => readGetAuditEvent id
  end.

End services.

(** ** The interceptor *)

(** The headers and the peer address of a request. *)
Record rpc_headers := MkHeaders { hdAuthorization : string; hdReauth : string; hdRequestID : string; hdPeer : string }.

(** The values the context carries. *)
Record rpc_ctx := MkCtx { cxOperator : option Operator; cxReauthOK : bool; cxRequestID : string; cxSourceIP : string }.

Definition colon : Ascii.ascii := of_byte 58.
Definition open_bracket : Ascii.ascii := of_byte 91.
Definition close_bracket : Ascii.ascii := of_byte 93.

(** [strings.IndexByte] and [LastIndexByte]. *)
Fixpoint index_byte (c : Ascii.ascii) (l : list Ascii.ascii) : option nat :=
  match l with [] => None | x :: rest => if Ascii.eqb x c then Some 0 else S <$> index_byte c rest end.
Definition last_index_byte (c : Ascii.ascii) (l : list Ascii.ascii) : option nat :=
  (λ i, length l - 1 - i) <$> index_byte c (reverse l).

(** [net.SplitHostPort]; [None] is its error. *)
Definition SplitHostPort (hostport : string) : option (string * string) :=
  let l := chars_of hostport in
  let text := String.string_of_list_ascii in
  let no_brackets j k := bool_decide (index_byte open_bracket (drop j l) = None) &&
                         bool_decide (index_byte close_bracket (drop k l) = None) in
  i ← last_index_byte colon l;
  if bool_decide (head l = Some open_bracket) then
    stop ← index_byte close_bracket l;
    if bool_decide (stop + 1 = i) && no_brackets 1 (stop + 1)
    then Some (text (take (stop - 1) (drop 1 l)), text (drop (i + 1) l)) else None
  else if bool_decide (index_byte colon (take i l) = None) && no_brackets 0 0
       then Some (text (take i l), text (drop (i + 1) l)) else None.

Definition source_ip (peer : string) : string :=
  if bool_decide (peer = "") then "" else from_option fst peer (SplitHostPort peer).

Definition newAuthInterceptor (dir : TokenDirectory) (h : rpc_headers) : answered rpc_ctx :=
  match authenticate_operator dir (hdAuthorization h) (hdReauth h) with
  | None => Fails CodeUnauthenticated
  | Some (op, reauth) => Reply (MkCtx (Some op) reauth (hdRequestID h) (source_ip (hdPeer h)))
  end.

(** ** The identity of the caller *)

Record OperatorIdentity := MkIdentity {
  oiID : string; oiName : string; oiRole : string; oiPermissions : list string; oiRevealEnabled : bool;
}.

Definition WhoAmI (revealEnabled : bool) (ctx : rpc_ctx) : answered OperatorIdentity :=
  match cxOperator ctx with
  | None => Fails CodeUnauthenticated
  | Some op =>
      Reply (MkIdentity (opID op) (opName op) (opRole op) (Permissions (opRole op))
               (revealEnabled && Can (opRole op) CmdRevealSecret))
  end.

(** ** The command service *)

Definition meta_of (ctx : rpc_ctx) : answered Meta :=
  match cxOperator ctx with
  | None => Fails CodeUnauthenticated
  | Some op => Reply (MkMeta op (cxRequestID ctx) (cxSourceIP ctx) (cxReauthOK ctx))
  end.

Definition mapCmdErr (er : cmd_err) : string :=
  let '(code, msg) := MapError (Some er) in
  if bool_decide (code = "permission_denied") then CodePermissionDenied
  else if bool_decide (code = "failed_precondition") then CodeFailedPrecondition
  else if bool_decide (code = "resource_exhausted") then CodeResourceExhausted
  else if bool_decide (code = "unauthenticated") then CodeUnauthenticated
  else if bool_decide (code = "not_found") then CodeNotFound
  else if bool_decide (code = "invalid_argument") then
    if Contains msg "unavailable" || Contains msg "audit failed" then CodeInternal else CodeInvalidArgument
  else CodeInternal.

(** [OutcomeProto]: everything but the plain text and the evidence; the preview
    is computed [now]. *)
Record CommandOutcome := MkOutcome {
  cuDryRun : bool; cuPreviewHash : string; cuBefore : option summary; cuEffects : list string; cuComputedAt : time;
  cuResult : string; cuAfter : option summary; cuAuditID : string; cuReplay : bool; cuMessage : string;
}.
Definition no_outcome : CommandOutcome := MkOutcome false "" None [] 0 "" None "" false "".
Definition OutcomeProto (now : time) (r : option Result) : CommandOutcome :=
  match r with
  | None => no_outcome
  | Some r => MkOutcome (rsDryRun r) (rsPreviewHash r) (rsBefore r) (rsEffects r) now (rsOutcome r) (rsAfter r) (rsAuditID r)
                (rsReplay r) (rsMessage r)
  end.

Record CommandReply := MkCommandReply {
  crOutcome : CommandOutcome; crEvidence : string; crPlaintext : string; crExpiresAt : option time;
}.

Section command_service.
Context {Q : Type} `{River Q} `{PreviewDigest} `{GoTime} `{EvidenceText} `{Aead}.
Notation AW := (AdminWorld Q).

(** [mapResult] and the response of the seventeen commands that carry an
    outcome only. *)
Definition mapResult (now : time) (r : option Result * option cmd_err) : answered CommandReply :=
  match r.2 with
  | Some er => Fails (mapCmdErr er)
  | None => Reply (MkCommandReply (OutcomeProto now r.1) "" "" None)
  end.

Definition export_reply (now : time) (r : option Result * option cmd_err) : answered CommandReply :=
  match r.2 with
  | Some er => Fails (mapCmdErr er)
  | None => Reply (MkCommandReply (OutcomeProto now r.1) (from_option rsEvidence "" r.1) "" None)
  end.

(** The plain text is attached to an executed command only. *)
Definition reveal_reply (now : time) (r : option Result * option cmd_err) : answered CommandReply :=
  match r.2 with
  | Some er => Fails (mapCmdErr er)
  | None =>
      match r.1 with
      | None => Reply (MkCommandReply no_outcome "" "" None)
      | Some res =>
          if negb (rsDryRun res) && negb (bool_decide (rsPlaintext res = "")) && succeeded (rsOutcome res)
          then Reply (MkCommandReply (OutcomeProto now (Some res)) "" (rsPlaintext res) (ts (rsExpires res)))
          else Reply (MkCommandReply (OutcomeProto now (Some res)) "" "" None)
      end
  end.

Definition command_service (e : Deps) (revealEnabled : bool) (ctx : rpc_ctx) (now : time) (aid : string)
    (opts : option CommandOptions) (c : command) (a : AW) : AW * answered CommandReply :=
  match c with
  | CReveal _ _ _ _ _ =>
      if negb revealEnabled then (a, Fails CodeUnimplemented)
      else match meta_of ctx with
           | Fails code => (a, Fails code)
           | Reply meta => let '(a', r) := run_command e meta now aid opts c a in (a', reveal_reply now r)
           end
  | _ =>
      match meta_of ctx with
      | Fails code => (a, Fails code)
      | Reply meta =>
          let '(a', r) := run_command e meta now aid opts c a in
          (a', match c with CExport _ _ _ _ => export_reply now r | _ => mapResult now r end)
      end
  end.

End command_service.

(** ** A call of the API *)

Record Config := MkConfig {
  cfTokens : option TokenDirectory; cfToken : string; cfDevMode : bool; cfCORSOrigin : string; cfEngine : bool;
  cfRevealEnabled : bool; cfReady : option bool; cfSPA : option (string → bool);
}.

(** [DirectoryFromEntries] is the record itself. *)
Definition directory (cfg : Config) : TokenDirectory :=
  match cfTokens cfg with
  | Some d => MkTokenDirectory (tdEntries d) (cfDevMode cfg || tdDevMode d)
  | None =>
      if negb (bool_decide (cfToken cfg = ""))
      then MkTokenDirectory [MkTokenEntry (cfToken cfg) RoleAdmin "default" "default"] (cfDevMode cfg)
      else MkTokenDirectory [] (cfDevMode cfg)
  end.

Inductive api_call :=
  | CallRead (rpc : read_rpc)
  | CallWhoAmI
  | CallCommand (opts : option CommandOptions) (c : command).
Inductive api_reply :=
  | ReadReply (r : read_reply)
  | IdentityReply (i : OperatorIdentity)
  | CommandReplied (r : CommandReply).

Definition map_answer {A B} (f : A → B) (r : answered A) : answered B := match r with Reply a => Reply (f a) | Fails c => Fails c end.

Section calls.
Context `{GoTime} `{Mac} `{CursorCodec} `{Digest} `{SqlOrder} `{CaseFold} `{RowText} `{GoFmt} `{Structpb}.
Context {Q : Type} `{River Q} `{PreviewDigest} `{EvidenceText} `{Aead}.
Notation AW := (AdminWorld Q).

(** The tables the read service sees: the queue's rows, the times of the waits
    and the schema version are columns the engine does not touch. *)
Definition tables_of (jobs : Q → option (list RiverJob)) (times : gmap string (time * option time)) (schema : Z) (a : AW) : Tables :=
  MkTables (aw_world a) (aw_audit a) (jobs (aw_river a)) times schema.

(** The interceptor in front of both services. *)
Definition serve_call (cfg : Config) (e : Deps) (signer : option Signer) (view : AW → Tables) (h : rpc_headers) (now : time)
    (aid : string) (call : api_call) (a : AW) : AW * answered api_reply :=
  match newAuthInterceptor (directory cfg) h with
  | Fails code => (a, Fails code)
  | Reply ctx =>
      match call with
      | CallRead rpc => (a, map_answer ReadReply (read_service signer now (dpBuild e) (view a) rpc))
      | CallWhoAmI => (a, map_answer IdentityReply (WhoAmI (cfRevealEnabled cfg) ctx))
      | CallCommand opts c =>
          if cfEngine cfg then
            let '(a', r) := command_service e (cfRevealEnabled cfg) ctx now aid opts c a in (a', map_answer CommandReplied r)
          else (a, Fails CodeUnimplemented)
      end
  end.

End calls.

(** ** Routing ([NewHandler]) *)

Inductive served :=
  | Rpc (service rest : string) | HealthOK | ReadyOK | NotReady | MethodNotAllowed | AddSlash (path : string) | PathNotFound
  | Preflight | Asset (path : string).

(** [http.ServeMux] with one subtree pattern per service and the two [GET]
    patterns, which match [HEAD] too; the path is clean. *)
Fixpoint mux_services (services : list string) (path : string) : option served :=
  match services with
  | [] => None
  | s :: rest =>
      match cut_prefix ("/" +:+ s +:+ "/") path with
      | Some tail => Some (Rpc s tail)
      | None => if bool_decide (path = "/" +:+ s) then Some (AddSlash path) else mux_services rest path
      end
  end.

Definition is_get (method : string) : bool := bool_decide (method = "GET") || bool_decide (method = "HEAD").

Definition mux (services : list string) (ready : option bool) (method path : string) : served :=
  match mux_services services path with
  | Some r => r
  | None =>
      if bool_decide (path = "/healthz") then if is_get method then HealthOK else MethodNotAllowed
      else if bool_decide (path = "/readyz")
           then if is_get method then match ready with Some false => NotReady | _ => ReadyOK end else MethodNotAllowed
           else PathNotFound
  end.

(** [spa] says which paths the file system has. *)
Definition withSPA (spa : string → bool) (api : string → string → served) (method path : string) : served :=
  if negb (is_get method) then api method path
  else if bool_decide (path = "/healthz") || bool_decide (path = "/readyz") || bool_decide (is_Some (cut_prefix "/admin.v1." path))
       then api method path
       else if negb (bool_decide (path = "/")) && spa path then Asset path else Asset "/".

Definition cors (next : string → string → served) (method path : string) : served :=
  if bool_decide (method = "OPTIONS") then Preflight else next method path.

Definition AdminReadServiceName : string := "admin.v1.AdminReadService".
Definition AdminCommandServiceName : string := "admin.v1.AdminCommandService".

Definition NewHandler (cfg : Config) : string → string → served :=
  let services := AdminReadServiceName :: (if cfEngine cfg then [AdminCommandServiceName] else []) in
  let api := mux services (cfReady cfg) in
  let handler := match cfSPA cfg with Some spa => withSPA spa api | None => api end in
  if negb (bool_decide (cfCORSOrigin cfg = "")) then cors handler else handler.
