(* ===== verification/ReadSecrecy.v ===== *)
(** * No read returns a secret

    The read service of [AdminHttp] over two databases that differ in their
    secrets only gives the same answers.  A secret here is what the columns of
    [api_keys], [credentials] and [resources] hold of a key, a credential or a
    token: its hash beyond the four bytes a listing shows, and its encrypted form
    beyond its presence or its length. *)
From stdpp Require Import sorting.
From S2P Require Import Prelude Policy Domain Text Store StoreRuns EventLog Waits Strings Redact AdminQuery QuerySpec Plans Paging Descriptors Registry Accounts AdminCommands AdminReads ReadSpec TimelineSpec AdminHttp.

(** ** Tables without their secrets *)

Definition blank_key (k : APIKey) : APIKey :=
  MkAPIKey (ak_id k) (ak_tenant k) (ak_name k) (ak_scope k) (ak_prefix k) (take 4 (ak_hash k))
    (if bool_decide (ak_enc k = []) then [] else [0%Z]) (ak_created_at k) (ak_revoked_at k).
Definition blank_credential (c : Credential) : Credential :=
  MkCredential (cr_tenant c) (cr_kind c) (cr_name c) (replicate (length (cr_enc c)) 0%Z) (cr_created_at c) (cr_rotated_at c).
Definition blank_resource (r : Resource) : Resource :=
  MkResource (r_id r) (r_tenant r) (r_session r) (r_kind r) (r_provider r) (r_state r) (r_spec r) (r_handle r) (r_endpoint r)
    (String.substring 0 4 (r_token_hash r)) (if bool_decide (r_token_enc r = "") then "" else "x") (r_epoch r)
    (r_failure_message r) (r_created_by r) (r_created_at r) (r_updated_at r) (r_ready_at r) (r_terminated_at r).

Definition blank_db (d : DB) : DB :=
  MkDB (db_now d) (db_sessions d) (db_events d) (db_runs d) (db_steps d) (db_waits d) (db_members d) (db_memory d)
    (blank_resource <$> db_resources d) (db_providers d) (db_jobs d).
Definition blank_accounts (a : Accounts) : Accounts :=
  MkAccounts (ac_tenants a) (blank_key <$> ac_keys a) (blank_credential <$> ac_credentials a) (ac_periodic a).
(** The redactor keeps the decrypted values; it is not a table. *)
Definition blank_tables (t : Tables) : Tables :=
  MkTables (MkWorld (blank_db (tb_db t)) (blank_accounts (tb_acc t)) []) (tb_audit t) (tb_jobs t) (tb_wait_times t) (tb_schema t).

(** Two databases an operator cannot tell apart by reading. *)
Definition indistinguishable (t1 t2 : Tables) : Prop := blank_tables t1 = blank_tables t2.
#[export] Instance indistinguishable_equiv : Equivalence indistinguishable.
Proof. split; repeat intro; unfold indistinguishable in *; congruence. Qed.

(** ** Maps over rows *)

Section fmaps.
Context {A B : Type} (f : A → B).
Notation on_stack := (fmap (M:=list) (fmap (M:=option) (fmap (M:=list) f))).

Lemma list_merge_fmap (R1 : relation A) (R2 : relation B) `{∀ x y, Decision (R1 x y)} `{∀ x y, Decision (R2 x y)} l1 l2 :
  (∀ x y, R1 x y ↔ R2 (f x) (f y)) → list_merge R2 (f <$> l1) (f <$> l2) = f <$> list_merge R1 l1 l2.
Proof.
  intros HR. revert l2. induction l1 as [|x l1 IH1]; intros l2; [by destruct l2|].
  induction l2 as [|y l2 IH2]; [done|]. simpl. destruct (decide (R1 x y)) as [Hr|Hr].
  - rewrite decide_True by by apply HR. simpl. f_equal. apply (IH1 (y :: l2)).
  - rewrite decide_False by (intros Hx; by apply Hr, HR). simpl. f_equal. apply IH2.
Qed.

Lemma merge_stack_fmap (R1 : relation A) (R2 : relation B) `{∀ x y, Decision (R1 x y)} `{∀ x y, Decision (R2 x y)} st :
  (∀ x y, R1 x y ↔ R2 (f x) (f y)) → merge_stack R2 (on_stack st) = f <$> merge_stack R1 st.
Proof.
  intros HR. induction st as [|[l|] st IH]; simpl; [done| |done].
  by rewrite <-(list_merge_fmap R1 R2), <-IH by done.
Qed.

Lemma merge_list_to_stack_fmap (R1 : relation A) (R2 : relation B) `{∀ x y, Decision (R1 x y)} `{∀ x y, Decision (R2 x y)} st l :
  (∀ x y, R1 x y ↔ R2 (f x) (f y)) →
  merge_list_to_stack R2 (on_stack st) (f <$> l) = on_stack (merge_list_to_stack R1 st l).
Proof.
  intros HR. revert l. induction st as [|[l'|] st IH]; intros l; simpl; [done| |done].
  by rewrite <-IH, <-(list_merge_fmap R1 R2) by done.
Qed.

(** Sorting by a relation on images is sorting the originals. *)
Lemma merge_sort_fmap (R1 : relation A) (R2 : relation B) `{∀ x y, Decision (R1 x y)} `{∀ x y, Decision (R2 x y)} l :
  (∀ x y, R1 x y ↔ R2 (f x) (f y)) → merge_sort R2 (f <$> l) = f <$> merge_sort R1 l.
Proof.
  intros HR. unfold merge_sort. change (@nil (option (list B))) with (on_stack []).
  generalize (@nil (option (list A))) as st. induction l as [|x l IH]; intros st; simpl.
  - by apply merge_stack_fmap.
  - rewrite <-IH. f_equal. by apply (merge_list_to_stack_fmap R1 R2 st [x]).
Qed.

Lemma bool_filter_fmap (p : B → bool) (q : A → bool) l : (∀ x, p (f x) = q x) → bool_filter p (f <$> l) = f <$> bool_filter q l.
Proof.
  intros Hpq. unfold bool_filter. induction l as [|x l IH]; [done|].
  rewrite fmap_cons, !filter_cons, IH, Hpq. by case_decide.
Qed.

Lemma count_fmap (p : B → bool) (q : A → bool) l : (∀ x, p (f x) = q x) → count p (f <$> l) = count q l.
Proof. intros Hpq. unfold count. by rewrite (bool_filter_fmap p q), length_fmap. Qed.

Lemma order_by_fmap `{SqlOrder} (val : A → row) (val' : B → row) order l :
  (∀ x, val' (f x) = val x) → Paging.order_by val' order (f <$> l) = f <$> Paging.order_by val order l.
Proof. intros Hv. apply merge_sort_fmap. intros x y. unfold row_le. by rewrite !Hv. Qed.

End fmaps.

Lemma rows_fmap {K A B} `{Countable K} (f : A → B) (m : gmap K A) : rows (f <$> m) = f <$> rows m.
Proof. unfold rows. rewrite map_to_list_fmap, <-!list_fmap_compose. apply list_fmap_ext. by intros _ [k x] _. Qed.

(** ** Views over indistinguishable tables *)

Section secrecy.
Context `{GoTime} `{Mac} `{CursorCodec} `{Digest} `{SqlOrder} `{CaseFold} `{RowText} `{GoFmt} `{Structpb}.
Context (signer : option Signer) (now : time) (t : Tables).

(** Rows that show the same, one by one. *)
Definition same_view {R R'} (f : R → R') (v : View R) (v' : View R') : Prop :=
  vw_rows v' = f <$> vw_rows v ∧ ∀ r, vw_row v' (f r) = vw_row v r ∧ vw_data v' (f r) = vw_data v r.

Lemma same_answer {R R'} (f : R → R') v v' col req c : same_view f v v' → answer v' col req c = answer v col req c.
Proof.
  intros [Hrows Hr]. unfold answer. destruct (where_of col req (cmCursor c)) as [w|]; [|done]. f_equal. unfold exec.
  rewrite Hrows, (bool_filter_fmap f _ (λ r, selected no_search_expr w (vw_row v r))) by (intros r; by rewrite (proj1 (Hr r))).
  rewrite (order_by_fmap f (vw_row v)) by (intros r; apply Hr). rewrite <-fmap_take, <-list_fmap_compose.
  apply list_fmap_ext. intros _ r _. unfold compose. by destruct (Hr r) as [-> ->].
Qed.

Lemma same_list {R R' A} (f : R → R') v v' name req n (handle : list dbval → A) :
  same_view f v v' → list_ signer now (blank_tables t) v' name req n handle = list_ signer now t v name req n handle.
Proof.
  intros Hv. unfold list_. destruct (RegistryGet name) as [col|]; [|done].
  change (RiverAvailable (blank_tables t)) with (RiverAvailable t). destruct (_ && _); [done|].
  destruct (Compile signer now col req) as [c|e]; [|done]. cbn [mbind qres_bind].
  destruct (injectSortSelect c). by rewrite (same_answer f v v').
Qed.

Lemma same_id {R} (v v' : View R) : vw_rows v' = vw_rows v → (∀ r, vw_row v' r = vw_row v r) → (∀ r, vw_data v' r = vw_data v r) →
  same_view id v v'.
Proof. intros Hr Hrow Hd. split; [by rewrite list_fmap_id|]. intros r. by rewrite Hrow, Hd. Qed.

Lemma substring_bytes n s : bytes_of (String.substring 0 n s) = take n (bytes_of s).
Proof. revert n. induction s as [|c s IH]; intros [|n]; simpl; try done. by rewrite IH. Qed.

Lemma blank_presence {A} (P : Prop) `{Decision P} (e y : A) : y ≠ e → (if bool_decide P then e else y) = e ↔ P.
Proof. intros Hy. case_bool_decide; naive_solver. Qed.
Lemma blank_key_enc k : bool_decide (ak_enc (blank_key k) = []) = bool_decide (ak_enc k = []).
Proof. by apply bool_decide_ext, blank_presence. Qed.
Lemma blank_token_enc r : bool_decide (r_token_enc (blank_resource r) = "") = bool_decide (r_token_enc r = "").
Proof. by apply bool_decide_ext, blank_presence. Qed.
Lemma blank_key_hash k : hash_prefix (ak_hash (blank_key k)) = hash_prefix (ak_hash k).
Proof. unfold hash_prefix. cbn [ak_hash blank_key]. by rewrite take_take. Qed.
Lemma blank_token_hash r : hash_prefix (bytes_of (r_token_hash (blank_resource r))) = hash_prefix (bytes_of (r_token_hash r)).
Proof. unfold hash_prefix. cbn [r_token_hash blank_resource]. by rewrite substring_bytes, take_take. Qed.

Lemma blank_tenants : same_view id (tenants_view t) (tenants_view (blank_tables t)).
Proof.
  apply same_id; [done|done|]. intros x. cbn [vw_data tenants_view]. change (tb_db (blank_tables t)) with (blank_db (tb_db t)).
  change (tb_acc (blank_tables t)) with (blank_accounts (tb_acc t)). cbn [ac_keys blank_accounts].
  by rewrite rows_fmap, (count_fmap blank_key _ (λ k, bool_decide (ak_tenant k = tn_id x))).
Qed.
Lemma blank_keys : same_view blank_key (api_keys_view t) (api_keys_view (blank_tables t)).
Proof.
  split; [apply rows_fmap|]. intros k. split; [done|]. cbn [vw_data api_keys_view]. by rewrite blank_key_hash, blank_key_enc.
Qed.
Lemma blank_sessions : same_view id (sessions_view t) (sessions_view (blank_tables t)).
Proof.
  apply same_id; [done|done|]. intros x. cbn [vw_data sessions_view]. change (tb_db (blank_tables t)) with (blank_db (tb_db t)).
  cbn [db_resources blank_db db_events db_runs].
  by rewrite rows_fmap, (count_fmap blank_resource _ (λ r, bool_decide (r_session r = se_id x))).
Qed.
Lemma blank_resources : same_view blank_resource (resources_view t) (resources_view (blank_tables t)).
Proof.
  split; [apply rows_fmap|]. intros r. split; [done|]. cbn [vw_data resources_view]. by rewrite blank_token_enc.
Qed.
Lemma blank_providers : same_view id (providers_view t) (providers_view (blank_tables t)).
Proof.
  apply same_id; [done|done|]. intros x. cbn [vw_data providers_view]. change (tb_db (blank_tables t)) with (blank_db (tb_db t)).
  cbn [db_resources blank_db].
  by rewrite rows_fmap, (count_fmap blank_resource _ (λ r, bool_decide (r_provider r = pi_id x))).
Qed.
Lemma blank_credentials : same_view blank_credential (credentials_view t) (credentials_view (blank_tables t)).
Proof.
  split; [apply rows_fmap|]. intros c. split; [done|]. cbn [vw_data credentials_view cr_enc blank_credential].
  by rewrite length_replicate.
Qed.

Lemma blank_ListTenants req : ListTenants signer now (blank_tables t) req = ListTenants signer now t req.
Proof. apply same_list with id, blank_tenants. Qed.
Lemma blank_ListAPIKeys req : ListAPIKeys signer now (blank_tables t) req = ListAPIKeys signer now t req.
Proof. apply same_list with blank_key, blank_keys. Qed.
Lemma blank_ListSessions req : ListSessions signer now (blank_tables t) req = ListSessions signer now t req.
Proof. apply same_list with id, blank_sessions. Qed.
Lemma blank_ListResources req : ListResources signer now (blank_tables t) req = ListResources signer now t req.
Proof. apply same_list with blank_resource, blank_resources. Qed.
Lemma blank_ListProviders req : ListProviders signer now (blank_tables t) req = ListProviders signer now t req.
Proof. apply same_list with id, blank_providers. Qed.
Lemma blank_ListCredentials req : ListCredentials signer now (blank_tables t) req = ListCredentials signer now t req.
Proof. apply same_list with blank_credential, blank_credentials. Qed.

Lemma blank_GetResource id : GetResource (blank_tables t) id = GetResource t id.
Proof.
  unfold GetResource. change (db_resources (tb_db (blank_tables t))) with (blank_resource <$> db_resources (tb_db t)).
  rewrite lookup_fmap. destruct (db_resources (tb_db t) !! id) as [r|]; [|done]. cbn [fmap option_fmap option_map or_not_found mbind rres_bind].
  by rewrite blank_token_enc, blank_token_hash.
Qed.

Lemma blank_timeline session : timeline_rows (blank_tables t) session = timeline_rows t session.
Proof.
  unfold timeline_rows. do 2 f_equal. change (db_resources (tb_db (blank_tables t))) with (blank_resource <$> db_resources (tb_db t)).
  by rewrite rows_fmap, (bool_filter_fmap blank_resource _ (λ r, bool_decide (r_session r = session))), <-list_fmap_compose.
Qed.

Lemma edge_fmap {R} (f : R → R) keep key order ref l : (∀ r, keep (f r) = keep r) → (∀ r, key (f r) = key r) → (∀ r, ref (f r) = ref r) →
  edge keep key order ref (f <$> l) = edge keep key order ref l.
Proof.
  intros Hk Hy Hr. unfold edge. rewrite (bool_filter_fmap f _ keep), (order_by_fmap f key), <-list_fmap_compose by done.
  apply list_fmap_ext. intros _ r _. apply Hr.
Qed.

Lemma join_fmap {A B} (f : A → A) key (m : gmap string B) l :
  (∀ a, key (f a) = key a) → join key m (f <$> l) = (λ x, (f x.1, x.2)) <$> join key m l.
Proof.
  intros Hk. induction l as [|a l IH]; [done|]. rewrite fmap_cons, !join_cons, fmap_app, IH, Hk. by destruct (m !! key a).
Qed.

Lemma blank_edges collection id : edges_of (blank_tables t) collection id = edges_of t collection id.
Proof.
  assert (rows (db_resources (tb_db (blank_tables t))) = blank_resource <$> rows (db_resources (tb_db t))) as Er by apply rows_fmap.
  assert (rows (ac_keys (tb_acc (blank_tables t))) = blank_key <$> rows (ac_keys (tb_acc t))) as Ek by apply rows_fmap.
  unfold edges_of, tenant_edges, session_edges, run_edges, provider_edges, resource_edges, resource_edge. rewrite Ek, Er.
  rewrite !(edge_fmap blank_resource), (edge_fmap blank_key) by done.
  do 5 (case_bool_decide; [try done|]); [|done]. do 3 f_equal.
  rewrite join_fmap by done.
  by rewrite (bool_filter_fmap (λ x, (blank_resource x.1, x.2)) _ (λ x, bool_decide (r_id x.1 = id))), <-list_fmap_compose.
Qed.

Lemma blank_GetSessionTimeline session page : GetSessionTimeline signer now (blank_tables t) session page = GetSessionTimeline signer now t session page.
Proof. unfold GetSessionTimeline. by rewrite blank_timeline. Qed.
Lemma blank_ListRelated collection id relation page :
  ListRelated (blank_tables t) collection id relation page = ListRelated t collection id relation page.
Proof. unfold ListRelated. by rewrite blank_edges. Qed.
Lemma blank_health build : GetRuntimeHealth now build (blank_tables t) = GetRuntimeHealth now build t.
Proof.
  unfold GetRuntimeHealth. f_equal. change (db_resources (tb_db (blank_tables t))) with (blank_resource <$> db_resources (tb_db t)).
  unfold table_size. by rewrite rows_fmap, length_fmap.
Qed.

Lemma blank_reads build rpc : read_service signer now build (blank_tables t) rpc = read_service signer now build t rpc.
Proof.
  destruct rpc; cbn [read_service]; try reflexivity.
  all: cbv delta [readListTenants readGetTenant readListAPIKeys readGetAPIKey readListSessions readGetSession readListResources
         readGetResource readListProviders readListCredentials readGetCredential readGetRuntimeHealth readGetSessionTimeline
         readListRelated]; cbv beta; unfold GetTenant, GetAPIKey, GetSession, GetCredential;
    rewrite ?blank_ListTenants, ?blank_ListAPIKeys, ?blank_ListSessions, ?blank_ListResources, ?blank_ListProviders,
      ?blank_ListCredentials, ?blank_GetResource, ?blank_GetSessionTimeline, ?blank_ListRelated, ?blank_health; reflexivity.
Qed.

End secrecy.

(** C19: no read shows a secret.  Whatever an operator asks the read service, the
    answer is the same over two databases that differ only in the encrypted
    credentials (of equal length), in the encrypted API keys and resource tokens
    and in their hashes beyond the first four bytes: so nothing else about a key, a
    credential or a token can be learned by reading, searching or sorting. *)
Theorem reads_hide_secrets `{GoTime} `{Mac} `{CursorCodec} `{Digest} `{SqlOrder} `{CaseFold} `{RowText} `{GoFmt} `{Structpb}
    signer now build t1 t2 rpc :
  indistinguishable t1 t2 → read_service signer now build t1 rpc = read_service signer now build t2 rpc.
Proof. intros Ht. by rewrite <-(blank_reads signer now t1), <-(blank_reads signer now t2), Ht. Qed.

Module SecrecyDemo.
Import Registry.Demo TimelineSpec.ReadDemo.

(** The same tenant with another key and another credential of equal length. *)
Definition other_accounts : Accounts :=
  MkAccounts (ac_tenants demo_accounts)
    {[ "key" := MkAPIKey "key" tenant_id "ci" "owner" "ulk_ab" [1; 2; 3; 4; 77]%Z [5; 6]%Z 2 None ]}
    {[ (tenant_id, "inference", "openai") := MkCredential tenant_id "inference" "openai" [7; 8; 9]%Z 3 3 ]}
    (ac_periodic demo_accounts).
Definition other : Tables :=
  MkTables (MkWorld demo_db other_accounts []) (tb_audit demo) (tb_jobs demo) (tb_wait_times demo) (tb_schema demo).

Lemma reads_hide_secrets_witness : ac_keys (tb_acc demo) !! "key" ≠ ac_keys (tb_acc other) !! "key" ∧
  read_service (Some signer) 0 "v1" demo (RpcListAPIKeys None) = read_service (Some signer) 0 "v1" other (RpcListAPIKeys None).
Proof.
  split; [done|]. apply reads_hide_secrets. reflexivity.
Defined.

End SecrecyDemo.
