(* ===== verification/AdminHttpSpec.v ===== *)
(** * What the operator's API lets through

    Theorems about [AdminHttp] ([adminhttp/server.go], [handler.go],
    [command.go]): who can make a call do anything, when a reply carries a
    secret, and which requests reach which handler. *)
From S2P Require Import Prelude Policy Domain Text Store StoreRuns EventLog Waits Strings Redact AdminQuery QuerySpec Plans Paging Descriptors Registry AdminAuthz Accounts AdminCommands CommandSpec AdminReads TimelineSpec AdminHttp.

Section calls.
Context `{GoTime} `{Mac} `{CursorCodec} `{Digest} `{SqlOrder} `{CaseFold} `{RowText} `{GoFmt} `{Structpb}.
Context {Q : Type} `{RiverOk Q} `{PreviewDigest} `{EvidenceText} `{ring : Aead}.
Notation AW := (AdminWorld Q).

(** ** Who is calling *)

(** The bearer token is that of an entry of the directory, or the directory is
    empty and the server runs in development mode. *)
Definition known_bearer (d : TokenDirectory) (token : string) (op : Operator) : Prop :=
  token ≠ "" ∧
  ((∃ x, x ∈ tdEntries d ∧ teToken x = token ∧ opRole op = teRole x) ∨
   (tdEntries d = [] ∧ tdDevMode d = true ∧ op = MkOperator "dev" "dev" RoleAdmin)).

Lemma Lookup_known d token op : Lookup d token = Some op → known_bearer d token op.
Proof.
  unfold Lookup, known_bearer. case_bool_decide as Ht; [done|]. intros Hop. split; [done|].
  destruct (find_token token (tdEntries d)) as [op'|] eqn:Hf.
  - injection Hop as ->. left. by apply find_token_Some.
  - right. destruct (tdDevMode d); [|done]. revert Hop. case_bool_decide; [|done]. simpl.
    by intros [= <-].
Qed.

Lemma interceptor_ok d h ctx : newAuthInterceptor d h = Reply ctx → ∃ op token,
  cxOperator ctx = Some op ∧ known_bearer d token op ∧ hdAuthorization h = "Bearer " +:+ token ∧
  cxReauthOK ctx = bool_decide (hdReauth h = token).
Proof.
  unfold newAuthInterceptor, authenticate_operator, bearer. destruct (cut_prefix "Bearer " (hdAuthorization h)) as [token|] eqn:Hc; [|done].
  simpl. destruct (Lookup d token) as [op|] eqn:Hl; [|done]. intros [= <-]. exists op, token. cbn [cxOperator cxReauthOK].
  pose proof (Lookup_known _ _ _ Hl) as Hk. split_and!; [done|done|by apply cut_prefix_Some|].
  apply eq_bool_prop_intro. rewrite bool_decide_spec, Is_true_true, andb_true_iff, negb_true_iff, bool_decide_eq_false, subtle_eq.
  destruct Hk as [Hne _]. naive_solver.
Qed.

(** ** Secrets *)

(** The stored secret a reveal command names, decrypted. *)
Inductive stored_secret (acc : Accounts) : command → string → Prop :=
  | StoredKey id k t kind name plain : ac_keys acc !! id = Some k → Decrypt (ak_enc k) = Ok plain →
      stored_secret acc (CReveal "api_key" id t kind name) (of_bytes plain)
  | StoredCredential id t kind name c plain : ac_credentials acc !! (t, kind, name) = Some c → Decrypt (cr_enc c) = Ok plain →
      stored_secret acc (CReveal "credential" id t kind name) (of_bytes plain).

Lemma reveal_plain_ok now before enc (b : AW) : let y := (run_exec (reveal_plain now before enc false) b).2 in
  xErr y = None → ∃ plain, Decrypt enc = Ok plain ∧ from_option xoPlaintext "" (xExtra y) = of_bytes plain.
Proof. unfold reveal_plain, run_exec. simpl. destruct (Decrypt enc) as [plain|]; simpl; [|done]. by exists plain. Qed.

Lemma run_exec_bind {A} (m : M AW A) (k : A → M AW Exec) b b' r : m b = (b', r) →
  run_exec (m ≫= k) b =
  match r with Ok x => run_exec (k x) b' | Err er => (b', MkExec None None [] None (Some (errOther er))) end.
Proof. intros E. unfold run_exec, mbind, M_bind. rewrite E. by destruct r. Qed.
Lemma on_world_get {A} (o : Accounts → option A) (b : AW) :
  on_world (a ← get_acc; of_option ErrNotFound (o a)) b =
  (with_world (aw_world b) b, match o (w_acc (aw_world b)) with Some x => Ok x | None => Err ErrNotFound end).
Proof. unfold on_world, mbind, M_bind. simpl. by destruct (o _). Qed.

Lemma reveal_body_ok e meta opts now sk id t kind name (b : AW) :
  let y := (run_exec (reveal_body e meta opts now sk id t kind name false) b).2 in
  xErr y = None →
  flReveal (dpFlags e) = true ∧ mtReauthOK meta = true ∧
  stored_secret (w_acc (aw_world b)) (CReveal sk id t kind name) (from_option xoPlaintext "" (xExtra y)).
Proof.
  cbv zeta. unfold reveal_body.
  destruct (flReveal (dpFlags e)); [|done]. destruct (mtReauthOK meta); [|done]. destruct (dpKeyring e); [|done]. cbn [negb].
  destruct (bool_decide (TrimSpace _ = "") && _); [done|]. intros Hy. split; [done|]. split; [done|]. revert Hy.
  destruct (bool_decide_reflect (sk = "api_key")) as [->|_]; [|destruct (bool_decide_reflect (sk = "credential")) as [->|_]; [|done]].
  - case_bool_decide; [done|]. unfold APIKeyGet. rewrite (run_exec_bind _ _ _ _ _ (on_world_get (λ a, ac_keys a !! id) b)).
    destruct (ac_keys (w_acc (aw_world b)) !! id) as [k|] eqn:Hk; [|done]. intros Hy.
    destruct (reveal_plain_ok _ _ _ _ Hy) as (plain & Hd & ->). by eapply StoredKey.
  - destruct (_ || _); [done|]. unfold CredentialGet.
    rewrite (run_exec_bind _ _ _ _ _ (on_world_get (λ a, ac_credentials a !! (t, kind, name)) b)).
    destruct (ac_credentials (w_acc (aw_world b)) !! (t, kind, name)) as [c|] eqn:Hc; [|done]. intros Hy.
    destruct (reveal_plain_ok _ _ _ _ Hy) as (plain & Hd & ->). by eapply StoredCredential.
Qed.

Lemma revealed_outcome e meta now aid opts sk id t kind name (a : AW) res : audit_wf (aw_audit a) →
  let c := CReveal sk id t kind name in
  (run_command e meta now aid opts c a).2 = (Some res, None) → rsPlaintext res ≠ "" →
  ∃ o row, opts = Some o ∧ Can (opRole (mtOperator meta)) CmdRevealSecret = true ∧ coDryRun o = false ∧ TrimSpace (coReason o) ≠ "" ∧
    flReveal (dpFlags e) = true ∧ mtReauthOK meta = true ∧ stored_secret (w_acc (aw_world a)) c (rsPlaintext res) ∧
    aw_audit (run_command e meta now aid opts c a).1 = aw_audit a ++ [row] ∧ auCommand row = CmdRevealSecret ∧
    auOperatorID row = opID (mtOperator meta) ∧ auTargets row = cmd_targets c ∧ succeeded (auResult row) = true.
Proof.
  intros Hwf c Hr Hp. pose proof (run_command_outcome e meta now aid opts c a Hwf) as Ho. rewrite Hr in Ho. cbn [fst snd] in Ho.
  inversion Ho as [|p E _ _ _ r _ _ _ Hnone|row r er _ _ _ _ _ _ _ Hnone _|b y row r er Hc Hb Hy _ Haud Hop Hcmd Htg _ _ Hm]; subst;
    [done|by simpl in Hnone|].
  destruct Hc as (Hcan & Hdry & Hreason & _). destruct opts as [o|]; [|by vm_compute in Hreason].
  destruct (xErr (run_exec (cmd_body e meta now (Some o) c false) b).2) eqn:Hx; [by destruct Hm|].
  destruct Hm as (res' & [= <-] & _ & Hs & _ & _ & _ & Hpl & _).
  destruct (reveal_body_ok e meta (Some o) now sk id t kind name b Hx) as (Hfl & Hre & Hst).
  destruct Hb as (Hw & _). rewrite Hw in Hst. exists o, row. rewrite Hpl. by split_and!.
Qed.


(** C18: nothing happens without an operator.  A call that is answered, or that
    changes anything, carries the bearer token of a known operator; only a command
    changes anything, and one that changes the store, the accounts or the queue is
    allowed to the operator's role.  Any other call fails as unauthenticated and
    leaves everything as it was. *)
Theorem calls_need_operator cfg e signer (view : AW → Tables) h now aid call (a : AW) : audit_wf (aw_audit a) →
  let '(a', reply) := serve_call cfg e signer view h now aid call a in
  (a' = a ∧ reply = Fails CodeUnauthenticated) ∨
  ∃ op token, known_bearer (directory cfg) token op ∧ hdAuthorization h = "Bearer " +:+ token ∧
    (a' ≠ a → ∃ opts c, call = CallCommand opts c ∧ cfEngine cfg = true ∧
       (aw_world a' ≠ aw_world a ∨ aw_river a' ≠ aw_river a → Can (opRole op) (cmd_name c) = true)).
Proof.
  intros Hwf. unfold serve_call. destruct (newAuthInterceptor (directory cfg) h) as [ctx|code] eqn:Hi.
  2:{ left. split; [done|]. unfold newAuthInterceptor in Hi. destruct (authenticate_operator _ _ _) as [[]|]; [done|].
      by injection Hi as <-. }
  destruct (interceptor_ok _ _ _ Hi) as (op & token & Hop & Hk & Hauth & _).
  destruct call as [rpc| |opts c]; [right; by exists op, token|right; by exists op, token|].
  destruct (cfEngine cfg); [|right; by exists op, token].
  destruct (command_service e (cfRevealEnabled cfg) ctx now aid opts c a) as [b r] eqn:Hc. right. exists op, token.
  split; [done|]. split; [done|]. intros _. exists opts, c. split; [done|]. split; [done|]. intros Hch.
  assert (b = a ∨ b = (run_command e (MkMeta op (cxRequestID ctx) (cxSourceIP ctx) (cxReauthOK ctx)) now aid opts c a).1) as [->|Hb].
  { revert Hc. unfold command_service, meta_of. rewrite Hop. destruct c; try (destruct (negb _));
      try (destruct (run_command _ _ _ _ _ _ _) as [? ?]); intros [= <- <-]; auto. }
  { by destruct Hch. }
  pose proof (run_command_outcome e (MkMeta op (cxRequestID ctx) (cxSourceIP ctx) (cxReauthOK ctx)) now aid opts c a Hwf) as Ho.
  rewrite <-Hb in Ho. inversion Ho as [? [Hw Hq]|? E|? ? ? [Hw Hq]|? ? ? ? ? Hconf]; subst.
  - by rewrite Hw, Hq in Hch; destruct Hch.
  - rewrite E in Hch. by destruct Hch.
  - by rewrite Hw, Hq in Hch; destruct Hch.
  - apply Hconf.
Qed.

End calls.

(** ** Routing *)

Definition services (cfg : Config) : list string :=
  AdminReadServiceName :: (if cfEngine cfg then [AdminCommandServiceName] else []).
Definition service_path (s rest : string) : string := "/" +:+ s +:+ "/" +:+ rest.
Definition preflight (cfg : Config) (method : string) : Prop := method = "OPTIONS" ∧ cfCORSOrigin cfg ≠ "".

Lemma mux_services_path ss path s rest : mux_services ss path = Some (Rpc s rest) → s ∈ ss ∧ path = service_path s rest.
Proof.
  induction ss as [|x ss IH]; [done|]. cbn [mux_services]. destruct (cut_prefix _ path) as [tail|] eqn:Hc.
  - intros [= <- <-]. split; [left|]. apply cut_prefix_Some in Hc as ->. unfold service_path. by rewrite !append_assoc.
  - case_bool_decide; [done|]. intros [? ?]%IH. split; [by right|done].
Qed.
(** The name of a service has no slash, so a path names at most one. *)
Definition slash_free (s : string) : bool := forallb (λ b, negb (b =? 47)%Z) (bytes_of s).

Lemma slash_split s1 s2 r1 r2 : slash_free s1 = true → slash_free s2 = true →
  s1 +:+ "/" +:+ r1 = s2 +:+ "/" +:+ r2 → s1 = s2 ∧ r1 = r2.
Proof.
  unfold slash_free. revert s2. induction s1 as [|c s1 IH]; intros [|c' s2] H1 H2 E.
  - split; [done|]. by injection E.
  - injection E as <- _. done.
  - injection E as -> _. done.
  - cbn [bytes_of forallb] in H1, H2. apply andb_true_iff in H1 as [_ H1], H2 as [_ H2]. injection E as -> E.
    destruct (IH s2 H1 H2 E) as [-> ->]. done.
Qed.
Lemma slash_none s x r : slash_free x = true → x ≠ s +:+ "/" +:+ r.
Proof.
  unfold slash_free. revert x. induction s as [|c s IH]; intros [|c' x] Hx E; try done.
  - injection E as -> _. done.
  - cbn [bytes_of forallb] in Hx. apply andb_true_iff in Hx as [_ Hx]. injection E as _ E. by apply (IH x).
Qed.

Lemma mux_services_Rpc ss path s rest : forallb slash_free ss = true →
  mux_services ss path = Some (Rpc s rest) ↔ s ∈ ss ∧ path = service_path s rest.
Proof.
  intros Hss. split; [apply mux_services_path|]. intros [Hs ->]. revert Hss. unfold service_path.
  induction ss as [|x ss IH]; [by apply elem_of_nil in Hs|]. cbn [forallb]. intros [Hx Hss]%andb_true_iff.
  assert (slash_free s = true) as Hfree.
  { apply elem_of_cons in Hs as [->|Hs]; [done|]. rewrite forallb_elem in Hss. by apply Hss. }
  cbn [mux_services]. destruct (cut_prefix _ _) as [tail|] eqn:Hc.
  - apply cut_prefix_Some in Hc. rewrite !append_assoc in Hc. injection Hc as Hc.
    by destruct (slash_split s x rest tail Hfree Hx Hc) as [-> ->].
  - rewrite bool_decide_eq_false_2 by (intros [= E]; by eapply slash_none, eq_sym, E).
    apply elem_of_cons in Hs as [->|Hs]; [|by apply IH].
    assert (cut_prefix ("/" +:+ x +:+ "/") ("/" +:+ x +:+ "/" +:+ rest) = Some rest) as Hx'
      by (apply cut_prefix_Some; by rewrite !append_assoc). congruence.
Qed.
Lemma mux_services_plain ss x : slash_free x = true → x ∉ ss → mux_services ss ("/" +:+ x) = None.
Proof.
  intros Hx. induction ss as [|s ss IH]; [done|]. intros [Hne Hss]%not_elem_of_cons. cbn [mux_services].
  destruct (cut_prefix _ _) as [tail|] eqn:Hc.
  - apply cut_prefix_Some in Hc. rewrite !append_assoc in Hc. injection Hc as Hc. by apply slash_none in Hc.
  - rewrite bool_decide_eq_false_2 by (intros [= E]; exact (Hne E)). by apply IH.
Qed.
Lemma mux_services_other ss path r : mux_services ss path = Some r → (∃ s rest, r = Rpc s rest) ∨ r = AddSlash path.
Proof.
  induction ss as [|s ss IH]; [done|]. cbn [mux_services]. destruct (cut_prefix _ path); [intros [= <-]; eauto|].
  case_bool_decide; [intros [= <-]; eauto|done].
Qed.

(** Services that do not hide the health endpoints. *)
Definition mountable (ss : list string) : bool :=
  forallb slash_free ss && negb (bool_decide ("healthz" ∈ ss)) && negb (bool_decide ("readyz" ∈ ss)).

(** The API alone: what the mux does with a request. *)
Lemma mux_spec ss ready method path : mountable ss = true → let out := mux ss ready method path in
  out ≠ Preflight ∧ (∀ f, out ≠ Asset f) ∧
  (∀ s rest, out = Rpc s rest ↔ s ∈ ss ∧ path = service_path s rest) ∧
  (out = HealthOK ↔ is_get method = true ∧ path = "/healthz") ∧
  (out = ReadyOK ↔ is_get method = true ∧ path = "/readyz" ∧ ready ≠ Some false) ∧
  (out = NotReady ↔ is_get method = true ∧ path = "/readyz" ∧ ready = Some false).
Proof.
  unfold mountable. rewrite !andb_true_iff, !negb_true_iff, !bool_decide_eq_false. intros [[Hss Hh] Hr]. cbv zeta. unfold mux.
  setoid_rewrite <-(mux_services_Rpc ss path _ _ Hss). destruct (mux_services ss path) as [r|] eqn:Hm.
  - assert (path ≠ "/healthz") by (intros ->; pose proof (mux_services_plain ss "healthz" eq_refl ltac:(done)) as Hn; change ("/" +:+ "healthz") with "/healthz" in Hn; congruence).
    assert (path ≠ "/readyz") by (intros ->; pose proof (mux_services_plain ss "readyz" eq_refl ltac:(done)) as Hn; change ("/" +:+ "readyz") with "/readyz" in Hn; congruence).
    destruct (mux_services_other _ _ _ Hm) as [(s & rest & ->)| ->]; naive_solver.
  - destruct (bool_decide_reflect (path = "/healthz")) as [->|]; [destruct (is_get method); naive_solver|].
    destruct (bool_decide_reflect (path = "/readyz")) as [->|]; [|naive_solver].
    destruct (is_get method); [|naive_solver]. destruct ready as [[]|]; naive_solver.
Qed.
Lemma services_mountable cfg : mountable (services cfg) = true.
Proof. unfold services. by destruct (cfEngine cfg). Qed.

(** An RPC is only ever answered by a mounted service. *)
Lemma NewHandler_Rpc cfg method path s rest :
  NewHandler cfg method path = Rpc s rest → s ∈ services cfg ∧ path = service_path s rest.
Proof.
  intros E. apply (mux_spec (services cfg) (cfReady cfg) method path (services_mountable cfg)). revert E.
  unfold NewHandler. fold (services cfg). unfold cors, withSPA. destruct (cfSPA cfg) as [spa|]; repeat case_match; done.
Qed.

(** Routing.  The handler answers a preflight exactly to [OPTIONS] when an
    origin is configured; every other request to a mounted service reaches it, and
    no request reaches a service that is not mounted; the health and readiness
    endpoints answer whether or not the single-page application is mounted, and the
    application serves only what is none of these, a file it has or its index. *)
Theorem routing cfg method path : let out := NewHandler cfg method path in
  (out = Preflight ↔ preflight cfg method) ∧
  (∀ s rest, out = Rpc s rest ↔ ¬ preflight cfg method ∧ s ∈ services cfg ∧ path = service_path s rest) ∧
  (out = HealthOK ↔ is_get method = true ∧ path = "/healthz") ∧
  (out = ReadyOK ↔ is_get method = true ∧ path = "/readyz" ∧ cfReady cfg ≠ Some false) ∧
  (out = NotReady ↔ is_get method = true ∧ path = "/readyz" ∧ cfReady cfg = Some false) ∧
  (∀ f, out = Asset f → is_get method = true ∧ ∃ spa, cfSPA cfg = Some spa ∧ (f = "/" ∨ (f = path ∧ spa path = true))).
Proof.
  cbv zeta. pose proof (mux_spec (services cfg) (cfReady cfg) method path (services_mountable cfg)) as Hm. cbv zeta in Hm. set (api := mux (services cfg) (cfReady cfg)) in *.
  set (inner := match cfSPA cfg with Some spa => withSPA spa api | None => api end).
  assert (inner method path = api method path ∨
          (is_get method = true ∧ (∃ spa f, cfSPA cfg = Some spa ∧ inner method path = Asset f ∧ (f = "/" ∨ (f = path ∧ spa path = true))) ∧
           path ≠ "/healthz" ∧ path ≠ "/readyz" ∧ ∀ s rest, s ∈ services cfg → path ≠ service_path s rest)) as Hin.
  { unfold inner. destruct (cfSPA cfg) as [spa|]; [|by left]. unfold withSPA. destruct (is_get method); [|by left]. cbn [negb].
    destruct (bool_decide_reflect (path = "/healthz")); [by left|]. destruct (bool_decide_reflect (path = "/readyz")); [by left|].
    cbn [orb]. destruct (bool_decide_reflect (is_Some (cut_prefix "/admin.v1." path))) as [|Hn]; [by left|]. right.
    split; [done|]. split.
    - destruct (spa path) eqn:Hs; [|rewrite andb_false_r; eauto 7]. rewrite andb_true_r. case_bool_decide; eauto 8.
    - split_and!; [done|done|]. intros s rest Hs ->. apply Hn. unfold services in Hs. apply elem_of_cons in Hs as [->|Hs].
      + eexists. reflexivity.
      + destruct (cfEngine cfg); [|by apply elem_of_nil in Hs]. apply list_elem_of_singleton in Hs as ->. eexists. reflexivity. }
  assert (NewHandler cfg method path = if bool_decide (preflight cfg method) then Preflight else inner method path) as ->.
  { unfold NewHandler. fold (services cfg). fold api. fold inner. unfold preflight. case_bool_decide as Hc; cbn [negb].
    - rewrite bool_decide_eq_false_2 by naive_solver. done.
    - unfold cors. destruct (bool_decide_reflect (method = "OPTIONS")); [by rewrite bool_decide_eq_true_2|].
      by rewrite bool_decide_eq_false_2 by naive_solver. }
  destruct (bool_decide_reflect (preflight cfg method)) as [Hp|Hp].
  - assert (is_get method = false) as Hg by by destruct Hp as [-> _].
    rewrite Hg. naive_solver.
  - destruct Hin as [->|(Hg & (spa & f & Hspa & -> & Hf) & Hh & Hr & Hs)]; naive_solver.
Qed.

Module HttpDemo.
Import Registry.Demo TimelineSpec.ReadDemo CommandDemo.
#[local] Existing Instances CommandDemo.river CommandDemo.river_ok CommandDemo.preview_text CommandDemo.evidence CommandDemo.ring
  CommandDemo.clock_format.

Definition config : Config := MkConfig None "s3cret" false "" true true None None.
Definition headers : rpc_headers := MkHeaders "Bearer s3cret" "s3cret" "req-1" "10.0.0.1:999".
Definition view : AdminWorld (gmap Z JobInfo) → Tables := tables_of (λ _, None) ∅ 1.
Definition serve : api_call → AdminWorld (gmap Z JobInfo) → AdminWorld (gmap Z JobInfo) * answered api_reply :=
  serve_call config deps None view headers 1 "a1".

Definition http_reveal : api_call :=
  CallCommand (Some (MkOptions false "stuck" "key-2"
    match (serve (CallCommand (Some dry) reveal) start).2 with
    | Reply (CommandReplied r) => cuPreviewHash (crOutcome r)
    | _ => ""
    end)) reveal.
Definition revealed : CommandReply :=
  match (serve http_reveal start).2 with Reply (CommandReplied r) => r | _ => MkCommandReply no_outcome "" "" None end.

Example revealed_text : crPlaintext revealed = "SEC" ∧
  (serve_call config deps None view (MkHeaders "Bearer s3cret" "" "" "") 1 "a1" http_reveal start).2 = Fails CodeUnauthenticated ∧
  (serve_call config deps None view (MkHeaders "Bearer other" "other" "" "") 1 "a1" http_reveal start).2 = Fails CodeUnauthenticated ∧
  source_ip "10.0.0.1:999" = "10.0.0.1" ∧ source_ip "[::1]:80" = "::1" ∧ source_ip "unix" = "unix".
Proof. vm_compute. by split_and!. Qed.


Lemma calls_need_operator_witness :
  ∃ op token, known_bearer (directory config) token op ∧ hdAuthorization headers = "Bearer " +:+ token.
Proof.
  pose proof (calls_need_operator config deps None view headers 1 "a1" http_reveal start audit_wf_nil) as Hc.
  destruct (serve_call config deps None view headers 1 "a1" http_reveal start) as [a' reply] eqn:E.
  destruct Hc as [[_ Hr]|(op & token & Hk & Ha & _)]; [|by exists op, token].
  exfalso. apply (f_equal snd) in E. rewrite Hr in E. vm_compute in E. discriminate E.
Defined.

End HttpDemo.
