(* ===== verification/Environment.v ===== *)
(** * Configuration from the environment (package [config])

    [config/config.go]: the known [CORE_*] variables, the fence against unknown
    ones and the typed readers.  The environment is the list of its [name=value]
    entries; of several entries with one name the first is read.
    [time.ParseDuration] is the parameter [Durations] of [Tools]. *)
From S2P Require Import Prelude Policy Domain Text Store StoreRuns EventLog Loop Waits Tools Strings Redact AdminQuery.

Definition environ : Type := list string.

(** [strings.Cut(kv, "=")] *)
Definition cut_entry (kv : string) : string * option string :=
  match split_on "=" kv with Some (name, v) => (name, Some v) | None => (kv, None) end.

(** [os.Getenv]; an entry without [=] defines nothing. *)
Fixpoint Getenv (env : environ) (name : string) : string :=
  match env with
  | [] => ""
  | kv :: rest =>
      match cut_entry kv with
      | (n, Some v) => if bool_decide (n = name) then v else Getenv rest name
      | (_, None) => Getenv rest name
      end
  end.

Definition known : list string :=
  ["CORE_ADDR"; "CORE_MASTER_KEY"; "CORE_MIGRATE"; "CORE_DEFAULT_PROVIDER"; "CORE_DEFAULT_MODEL"; "CORE_JOB_TIMEOUT";
   "CORE_RESCUE_AFTER"; "CORE_MAX_WORKERS"; "CORE_RECONCILE_INTERVAL"; "CORE_PROVISION_TIMEOUT"; "CORE_BEZALEL_IMAGE";
   "CORE_BEZALEL_BINARY"; "CORE_K8S_ENDPOINT_MODE"; "CORE_K8S_ENDPOINT_HOST"; "CORE_PROVIDER_KINDS"; "CORE_K8S_NODEPORT_LOW";
   "CORE_K8S_NODEPORT_HIGH"; "CORE_OTLP_ENDPOINT"; "CORE_LOG_LEVEL"; "CORE_URL"; "CORE_TOKEN"; "CORE_TENANT";
   "CORE_ADMIN_ADDR"; "CORE_ADMIN_TOKEN"; "CORE_ADMIN_DEV_MODE"; "CORE_ADMIN_CORS_ORIGIN"; "CORE_ADMIN_CURSOR_SECRET";
   "CORE_ADMIN_TOKEN_ROLE"; "CORE_ADMIN_TOKENS"; "CORE_ADMIN_REVEAL_ENABLED"; "CORE_ADMIN_CMD_RATE_LIMIT";
   "CORE_ADMIN_CMD_CONCURRENCY"; "CORE_ADMIN_ENABLE_TERMINATE"; "CORE_ADMIN_ENABLE_SUSPEND";
   "CORE_ADMIN_ENABLE_DISCONNECT_SUBSCRIBER"].

(** [sort.Strings] *)
Definition sort_strings (l : list string) : list string := order_by_text id l.

(** The loop of [RefuseUnknown], with the names found so far. *)
Fixpoint unknown_names (env : environ) (unknown : list string) : list string :=
  match env with
  | [] => unknown
  | kv :: rest =>
      let name := (cut_entry kv).1 in
      if negb (bool_decide (is_Some (cut_prefix "CORE_" name))) then unknown_names rest unknown
      else if negb (bool_decide (name ∈ known)) then unknown_names rest (unknown ++ [name])
      else unknown_names rest unknown
  end.

(** [ErrUnknownEnv.Error] *)
Definition ErrUnknownEnv (names : list string) : string :=
  "unknown CORE_* environment variable(s): " +:+ Join ", " (sort_strings names).

(** [Some names] is the error. *)
Definition RefuseUnknown (env : environ) : option (list string) :=
  match unknown_names env [] with [] => None | names => Some names end.

Definition KnownNames : list string := sort_strings known.

(** ** Readers *)

Section readers.
Context (env : environ).

Definition String_ (name def : string) : string :=
  let v := Getenv env name in if negb (bool_decide (v = "")) then v else def.

Definition Bool (name : string) (def : bool) : bool :=
  let v := Getenv env name in if bool_decide (v = "") then def else default def (ParseBool v).

(** [strconv.Atoi] reads a 64-bit integer. *)
Definition Int (name : string) (def : Z) : Z :=
  let v := Getenv env name in if bool_decide (v = "") then def else default def (ParseInt v).

(** [strconv.ParseInt(v, 10, 32)] *)
Definition ParseInt32 (v : string) : option Z :=
  n ← ParseInt v; if bool_decide (- 2 ^ 31 ≤ n < 2 ^ 31)%Z then Some n else None.
Definition Int32 (name : string) : Z :=
  let v := Getenv env name in if bool_decide (v = "") then 0%Z else default 0%Z (ParseInt32 v).

Definition Duration `{Durations} (name : string) (def : Z) : Z :=
  let v := Getenv env name in if bool_decide (v = "") then def else default def (ParseDuration v).

(** [strings.Split(v, ",")] *)
Fixpoint split_comma (s : string) : list string :=
  match s with
  | EmptyString => [""]
  | String c rest =>
      if (byte_of c =? 44)%Z then "" :: split_comma rest
      else match split_comma rest with p :: ps => String c p :: ps | [] => [String c ""] end
  end.

Definition CSV (name : string) : list string :=
  let v := Getenv env name in
  if bool_decide (v = "") then []
  else bool_filter (λ p, negb (bool_decide (p = ""))) (TrimSpace <$> split_comma v).

End readers.

(** ** The fence *)

(** The [CORE_*] names an environment sets. *)
Definition sets_core (env : environ) (name : string) : Prop :=
  (∃ kv, kv ∈ env ∧ (cut_entry kv).1 = name) ∧ ∃ rest, name = "CORE_" +:+ rest.

Lemma sets_core_cons kv env name : sets_core (kv :: env) name ↔
  (name = (cut_entry kv).1 ∧ is_Some (cut_prefix "CORE_" name)) ∨ sets_core env name.
Proof.
  unfold sets_core.
  assert (is_Some (cut_prefix "CORE_" name) ↔ ∃ rest, name = "CORE_" +:+ rest) as ->.
  { split; intros [r Hr]; exists r; by apply cut_prefix_Some. }
  split.
  - intros [(kv' & [->|Hin]%elem_of_cons & E) Hr]; [by left|right; eauto].
  - intros [[-> Hr]|[(kv' & Hin & E) Hr]]; (split; [|done]); [exists kv; split; [left|done]|exists kv'; split; [by right|done]].
Qed.

Lemma unknown_names_elem env acc name :
  name ∈ unknown_names env acc ↔ name ∈ acc ∨ (sets_core env name ∧ name ∉ known).
Proof.
  revert acc. induction env as [|kv env IH]; intros acc; cbn [unknown_names].
  { split; [by left|]. intros [?|[((kv & Hkv & _) & _) _]]; [done|]. by apply elem_of_nil in Hkv. }
  rewrite sets_core_cons. generalize (cut_entry kv).1 as n. intros n.
  destruct (bool_decide_reflect (is_Some (cut_prefix "CORE_" n))) as [Hc|Hc]; cbn [negb].
  - destruct (bool_decide_reflect (n ∈ known)) as [Hk|Hk]; cbn [negb]; rewrite IH; [clear IH; naive_solver|].
    rewrite elem_of_app, list_elem_of_singleton. clear IH. naive_solver.
  - rewrite IH. clear IH. naive_solver.
Qed.

(** An environment passes exactly when every [CORE_*] name it sets is known. *)
Lemma RefuseUnknown_passes env : RefuseUnknown env = None ↔ ∀ name, sets_core env name → name ∈ known.
Proof.
  unfold RefuseUnknown. pose proof (unknown_names_elem env []) as Hn. destruct (unknown_names env []) as [|n ns].
  - split; [|done]. intros _ name Hs. destruct (decide (name ∈ known)) as [|Hk]; [done|].
    assert (name ∈ @nil string) as Hx by (apply Hn; by right). by apply elem_of_nil in Hx.
  - split; [done|]. intros Hall. destruct (proj1 (Hn n)) as [Hx|[Hs Hk]]; [by left|by apply elem_of_nil in Hx|].
    by destruct Hk; apply Hall.
Qed.

(** The error names the unknown ones and no others. *)
Lemma RefuseUnknown_names env names : RefuseUnknown env = Some names →
  ∀ name, name ∈ names ↔ sets_core env name ∧ name ∉ known.
Proof.
  unfold RefuseUnknown. pose proof (unknown_names_elem env []) as Hn. destruct (unknown_names env []) as [|n ns]; [done|].
  intros [= <-] name. rewrite Hn, elem_of_nil. naive_solver.
Qed.

Lemma Getenv_sets env name : Getenv env name ≠ "" → ∃ kv, kv ∈ env ∧ cut_entry kv = (name, Some (Getenv env name)).
Proof.
  induction env as [|kv env IH]; [done|]. simpl. destruct (cut_entry kv) as [n [v|]] eqn:E.
  - case_bool_decide as Hn; [subst|]; intros Hx; [exists kv; split; [left|done]|].
    destruct (IH Hx) as (kv' & ? & ?). exists kv'. split; [by right|done].
  - intros Hx. destruct (IH Hx) as (kv' & ? & ?). exists kv'. split; [by right|done].
Qed.
