(* ===== verification/Processes.v ===== *)
(** * The processes: [cored], [coreworker], [coreadmin], [ultra-env-agent]

    What the main packages under [cmd] make of the environment before they open a
    socket, the queue they configure ([jobqueue/river/river.go]) and the routing of
    the core API ([http/server.go]).  Connecting to the database, migrating it and
    serving are not modelled; a start that gets that far is [Ok] with the settings
    it goes on with.  The cursor secret drawn at random, the embedded application
    and whether the database answers a ping are arguments. *)
From S2P Require Import Prelude Policy Domain Text Store StoreRuns EventLog Loop Waits Tools Strings Redact AdminQuery Descriptors AdminAuthz Accounts Wiring AdminCommands CommandSpec AdminReads AdminHttp Environment.

(** ** The master key ([secrets/secrets.go]) *)

Definition hex_value (b : Z) : option Z :=
  if between 48 b 57 then Some (b - 48)%Z
  else if between 97 b 102 then Some (b - 87)%Z
  else if between 65 b 70 then Some (b - 55)%Z else None.

(** [hex.DecodeString] *)
Fixpoint hex_decode (l : list Z) : option (list Z) :=
  match l with
  | [] => Some []
  | [_] => None
  | a :: b :: rest => x ← hex_value a; y ← hex_value b; xs ← hex_decode rest; Some (x * 16 + y :: xs)%Z
  end.

(** The key of the cipher. *)
Definition NewAESKeyring (hexKey : string) : result (list Z) :=
  match hex_decode (bytes_of hexKey) with
  | None => Err (ErrorText "secrets: master key is not hex")
  | Some key =>
      if negb (length key =? 32)%nat then Err (ErrorText "secrets: master key must be 32 bytes (64 hex chars)") else Ok key
  end.

(** ** The queue of River *)

Definition second : Z := 1000000000.
Definition minute : Z := 60 * second.

Record QueueConfig := MkQueueConfig { qcMaxWorkers : Z; qcRetryDelay : Z; qcJobTimeout : Z; qcRescueAfter : Z }.

(** What River's client is configured with; [None] leaves its default. *)
Record RiverConfig := MkRiverConfig {
  rcMaxWorkers : Z; rcRetryDelay : Z; rcJobTimeout : option Z; rcRescueStuckJobsAfter : option Z;
}.

(** Durations are 64-bit: a sum wraps around. *)
Definition add64 (a b : Z) : Z := ((a + b + 2 ^ 63) mod 2 ^ 64 - 2 ^ 63)%Z.

Definition river_config (cfg : QueueConfig) : RiverConfig :=
  MkRiverConfig (if bool_decide (qcMaxWorkers cfg ≤ 0)%Z then 10%Z else qcMaxWorkers cfg)
    (if bool_decide (qcRetryDelay cfg ≤ 0)%Z then second else qcRetryDelay cfg)
    (if bool_decide (0 < qcJobTimeout cfg)%Z then Some (qcJobTimeout cfg) else None)
    (if bool_decide (0 < qcRescueAfter cfg)%Z then Some (qcRescueAfter cfg)
     else if bool_decide (0 < qcJobTimeout cfg)%Z then Some (add64 (qcJobTimeout cfg) (30 * second)) else None).

(** The envelope every job travels in, and the dispatch of its kind. *)
Record envelope := MkJobEnvelope { ejKind : string; ejPayload : string }.
Definition river_handlers (A : Type) : Type := gmap string (string → A + err).
Definition river_register {A} (kind : string) (h : string → A + err) (hs : river_handlers A) : river_handlers A := <[kind := h]> hs.
Definition envelope_work {A} (hs : river_handlers A) (job : envelope) : A + err :=
  match hs !! ejKind job with
  | None => inr (ErrorText ("river: no handler for kind " +:+ ejKind job))
  | Some h => h (ejPayload job)
  end.

(** [EnqueueTx]: the envelope and the options that are set. *)
Record InsertOpts := MkInsertOpts { ioMaxAttempts : option Z; ioScheduledAt : option time }.
Definition insert_job (Encode : option string) (kind : string) (maxAttempts : Z) (scheduledAt : option time) : result (envelope * InsertOpts) :=
  match Encode with
  | None => Err (ErrorText ("jobqueue: encode " +:+ kind))
  | Some payload =>
      Ok (MkJobEnvelope kind payload, MkInsertOpts (if bool_decide (0 < maxAttempts)%Z then Some maxAttempts else None) scheduledAt)
  end.

(** ** The provider seam ([providerDeployment] of [cored] and [coreworker]) *)

Definition providerDeployment (env : environ) : Deployment :=
  let low := Int32 env "CORE_K8S_NODEPORT_LOW" in
  let high := Int32 env "CORE_K8S_NODEPORT_HIGH" in
  MkDeployment (String_ env "CORE_BEZALEL_IMAGE" "ultracore/bezalel:local") (Getenv env "CORE_BEZALEL_BINARY")
    (CSV env "CORE_PROVIDER_KINDS") (String_ env "CORE_K8S_ENDPOINT_MODE" "") (String_ env "CORE_K8S_ENDPOINT_HOST" "")
    (if bool_decide (0 < high)%Z then (low, high) else (0, 0)%Z).

(** ** Starting *)

(** The checks all three begin with; [k] gets the database URL. *)
Definition fenced {A} (env : environ) (k : string → result A) : result A :=
  match RefuseUnknown env with
  | Some names => Err (ErrorText (ErrUnknownEnv names))
  | None =>
      let databaseURL := Getenv env "DATABASE_URL" in
      if bool_decide (databaseURL = "") then Err (ErrorText "DATABASE_URL is required") else k databaseURL
  end.

Definition migrates (env : environ) : bool := negb (bool_decide (String_ env "CORE_MIGRATE" "true" = "false")).

Record CoredSettings := MkCored {
  sdDatabase : string; sdAddr : string; sdKey : list Z; sdMigrate : bool; sdModel : ModelConfig; sdProviders : Deployment;
}.
Definition cored_run (env : environ) : result CoredSettings :=
  fenced env (λ url,
    match NewAESKeyring (Getenv env "CORE_MASTER_KEY") with
    | Err e => Err e
    | Ok key =>
        Ok (MkCored url (String_ env "CORE_ADDR" ":8080") key (migrates env)
              (MkModelConfig (String_ env "CORE_DEFAULT_PROVIDER" "openai") (String_ env "CORE_DEFAULT_MODEL" "gpt-4.1-mini") "default" [])
              (providerDeployment env))
    end).

Section worker.
Context `{Durations}.

Record WorkerSettings := MkWorker {
  swDatabase : string; swKey : list Z; swHealth : option string; swQueue : QueueConfig; swReconcileInterval : Z;
  swProvisionTimeout : Z; swProviders : Deployment;
}.
Definition coreworker_run (env : environ) : result WorkerSettings :=
  fenced env (λ url,
    match NewAESKeyring (Getenv env "CORE_MASTER_KEY") with
    | Err e => Err e
    | Ok key =>
        let healthAddr := Getenv env "CORE_ADDR" in
        let jobTimeout := Duration env "CORE_JOB_TIMEOUT" (2 * minute) in
        let rescueAfter := Duration env "CORE_RESCUE_AFTER" 0 in
        if bool_decide (0 < rescueAfter)%Z && bool_decide (rescueAfter ≤ jobTimeout)%Z
        then Err (ErrorText "CORE_RESCUE_AFTER must be greater than CORE_JOB_TIMEOUT")
        else Ok (MkWorker url key (if bool_decide (healthAddr = "") then None else Some healthAddr)
                   (MkQueueConfig (Int env "CORE_MAX_WORKERS" 10) 0 jobTimeout rescueAfter)
                   (Duration env "CORE_RECONCILE_INTERVAL" (5 * second)) (Duration env "CORE_PROVISION_TIMEOUT" minute)
                   (providerDeployment env))
    end).

(** The kinds a worker registers handlers for. *)
Definition worker_kinds : list string :=
  ["agent.step"; "wait.timeout"; "resource.provision"; "resource.terminate"; "resource.reconcile"; "resource.restart"].

End worker.

Section admin.
Context (Unmarshal : string → option (gmap string token_meta)) (build random : string) (spa : option (string → bool)) (ping : bool).

Record AdminSettings := MkAdmin {
  saDatabase : string; saAddr : string; saConfig : Config; saDeps : Deps; saCursorSecret : string; saMigrate : bool;
  saKey : option (list Z);
}.

Definition coreadmin_run (env : environ) : result AdminSettings :=
  fenced env (λ url,
    let devMode := Bool env "CORE_ADMIN_DEV_MODE" false in
    match LoadTokens Unmarshal (Getenv env "CORE_ADMIN_TOKENS") (Getenv env "CORE_ADMIN_TOKEN") (Getenv env "CORE_ADMIN_TOKEN_ROLE") with
    | Err e => Err e
    | Ok loaded =>
        let tokens := MkTokenDirectory (tdEntries loaded) devMode in
        if negb (HasTokens tokens) && negb devMode
        then Err (ErrorText "CORE_ADMIN_TOKEN or CORE_ADMIN_TOKENS is required outside CORE_ADMIN_DEV_MODE")
        else
          let secret := Getenv env "CORE_ADMIN_CURSOR_SECRET" in
          let cursorSecret := if bool_decide (secret = "") then random else secret in
          let mk := Getenv env "CORE_MASTER_KEY" in
          match (if bool_decide (mk = "") then Ok None
                 else match NewAESKeyring mk with Ok k => Ok (Some k) | Err e => Err (ErrorText ("CORE_MASTER_KEY: " +:+ err_text e)) end) with
          | Err e => Err e
          | Ok keyring =>
              let revealEnabled := Bool env "CORE_ADMIN_REVEAL_ENABLED" false in
              let flags := MkFlags revealEnabled (Bool env "CORE_ADMIN_ENABLE_TERMINATE" false)
                             (Bool env "CORE_ADMIN_ENABLE_SUSPEND" false) (Bool env "CORE_ADMIN_ENABLE_DISCONNECT_SUBSCRIBER" false) in
              Ok (MkAdmin url (String_ env "CORE_ADMIN_ADDR" "127.0.0.1:8082")
                    (MkConfig (Some tokens) "" devMode (Getenv env "CORE_ADMIN_CORS_ORIGIN") true revealEnabled (Some ping) spa)
                    (MkDeps true true false (bool_decide (is_Some keyring)) build flags (Int env "CORE_ADMIN_CMD_RATE_LIMIT" 20)
                       (Int env "CORE_ADMIN_CMD_CONCURRENCY" 8))
                    cursorSecret (migrates env) keyring)
          end
    end).

End admin.

(** [ultra-env-agent]: the two flags without which it does not start, and the
    address the platform is given for a local endpoint. *)
Definition agent_run (token secret : string) : result unit :=
  if bool_decide (token = "") then Err (ErrorText "--token is required")
  else if bool_decide (secret = "")
       then Err (ErrorText "--secret is required; an unsigned control API would make a leaked tunnel URL sufficient to run commands")
       else Ok ().

(** [strings.TrimSuffix(s, "/")] *)
Fixpoint trim_slash (s : string) : string :=
  match s with
  | EmptyString => ""
  | String c rest => if bool_decide (String c rest = "/") then "" else String c (trim_slash rest)
  end.

Definition rewriteEndpoint (advertise : string) : option (string → string) :=
  if bool_decide (advertise = "") then None
  else
    let base := trim_slash advertise in
    Some (λ local,
      match split_on "://" local with
      | Some (_, rest) => match split_on "/" rest with Some (_, path) => base +:+ "/" +:+ path | None => base end
      | None => base
      end).

(** ** The core API ([http/server.go]) *)

Definition core_services (resources : bool) : list string :=
  ["core.v1.TenantService"; "core.v1.CredentialService"; "core.v1.ProviderService"; "core.v1.SessionService"; "core.v1.RunService";
   "core.v1.AutomationService"] ++ (if resources then ["core.v1.ResourceService"] else []) ++ ["core.v1.EventService"].

Definition CoreHandler (resources : bool) (ready : option bool) : string → string → served :=
  cors (mux (core_services resources) ready).
