(* ===== verification/ProcessSpec.v ===== *)
(** * Starting and serving

    Theorems about [Environment] and [Processes]: which environments the
    processes start in, what the worker's queue is configured with, what an admin
    server started from an environment lets through, and that the two APIs share
    no route. *)
From S2P Require Import Prelude Policy Domain Text Store StoreRuns EventLog Loop Waits Tools Strings Redact AdminQuery QuerySpec Plans Paging Descriptors Registry AdminAuthz Accounts Wiring AdminCommands CommandSpec AdminReads TimelineSpec AdminHttp AdminHttpSpec Environment Processes.

(** ** Starting *)

Lemma hex_decode_length l key : hex_decode l = Some key → length l = 2 * length key.
Proof.
  revert l key. fix IH 1. intros [|a [|b l]] key; simpl; [by intros [= <-]|done|].
  destruct (hex_value a); [|done]. destruct (hex_value b); [|done]. simpl.
  destruct (hex_decode l) as [xs|] eqn:E; [|done]. intros [= <-]. apply IH in E. simpl. lia.
Qed.

Lemma hex_value_range b x : hex_value b = Some x → (0 ≤ x < 16)%Z.
Proof.
  unfold hex_value, between.
  repeat match goal with |- context [(?a <=? ?b)%Z] => destruct (Z.leb_spec a b) end; simpl; intros [= <-]; lia.
Qed.

Lemma hex_decode_bytes l key : hex_decode l = Some key → Forall (λ x, 0 ≤ x < 256)%Z key.
Proof.
  revert l key. fix IH 1. intros [|a [|b l]] key; simpl; [by intros [= <-]|done|].
  destruct (hex_value a) as [x|] eqn:Ha; [|done]. destruct (hex_value b) as [y|] eqn:Hb; [|done]. simpl.
  destruct (hex_decode l) as [xs|] eqn:E; [|done]. intros [= <-]. apply hex_value_range in Ha, Hb. constructor; [lia|].
  by apply (IH l).
Qed.

(** A master key is 64 hexadecimal digits. *)
Lemma NewAESKeyring_ok h key : NewAESKeyring h = Ok key →
  slen h = 64%Z ∧ length key = 32 ∧ Forall (λ x, 0 ≤ x < 256)%Z key.
Proof.
  unfold NewAESKeyring. destruct (hex_decode (bytes_of h)) as [k|] eqn:E; [|done].
  destruct (Nat.eqb_spec (length k) 32) as [Hl|]; [|done]. intros [= <-].
  pose proof (hex_decode_length _ _ E) as Hn. rewrite length_bytes_of in Hn. unfold slen.
  split_and!; [lia|done|by eapply hex_decode_bytes].
Qed.

(** The environment passes the fence and names a database. *)
Definition admissible (env : environ) : Prop :=
  (∀ name, sets_core env name → name ∈ known) ∧ Getenv env "DATABASE_URL" ≠ "".

Lemma fenced_Ok {A} env (k : string → result A) s :
  fenced env k = Ok s ↔ admissible env ∧ k (Getenv env "DATABASE_URL") = Ok s.
Proof.
  unfold fenced, admissible. rewrite <-RefuseUnknown_passes. destruct (RefuseUnknown env); [naive_solver|].
  case_bool_decide; naive_solver.
Qed.

Section starting.
Context `{Durations} (Unmarshal : string → option (gmap string token_meta)) (build random : string) (spa : option (string → bool)) (ping : bool).

Definition has_key (env : environ) : Prop := ∃ key, NewAESKeyring (Getenv env "CORE_MASTER_KEY") = Ok key.
Definition loaded_tokens (env : environ) : result TokenDirectory :=
  LoadTokens Unmarshal (Getenv env "CORE_ADMIN_TOKENS") (Getenv env "CORE_ADMIN_TOKEN") (Getenv env "CORE_ADMIN_TOKEN_ROLE").

Lemma cored_starts env : (∃ s, cored_run env = Ok s) ↔ admissible env ∧ has_key env.
Proof.
  unfold cored_run, has_key. setoid_rewrite fenced_Ok. destruct (NewAESKeyring _) as [key|e]; naive_solver.
Qed.
Lemma worker_starts env : (∃ s, coreworker_run env = Ok s) ↔ admissible env ∧ has_key env ∧
  ¬ (0 < Duration env "CORE_RESCUE_AFTER" 0 ≤ Duration env "CORE_JOB_TIMEOUT" (2 * minute))%Z.
Proof.
  unfold coreworker_run, has_key. setoid_rewrite fenced_Ok. destruct (NewAESKeyring _) as [key|e]; [|naive_solver].
  rewrite <-bool_decide_and. case_bool_decide; naive_solver.
Qed.
Lemma admin_starts env : (∃ s, coreadmin_run Unmarshal build random spa ping env = Ok s) ↔ admissible env ∧
  (∃ d, loaded_tokens env = Ok d ∧ (tdEntries d ≠ [] ∨ Bool env "CORE_ADMIN_DEV_MODE" false = true)) ∧
  (Getenv env "CORE_MASTER_KEY" = "" ∨ has_key env).
Proof.
  unfold coreadmin_run, has_key, loaded_tokens. setoid_rewrite fenced_Ok.
  destruct (LoadTokens _ _ _ _) as [d|e]; [|naive_solver]. unfold HasTokens. cbn [tdEntries].
  rewrite negb_involutive. destruct (bool_decide_reflect (tdEntries d = [])) as [Hd|Hd]; cbn [andb].
  - destruct (Bool env "CORE_ADMIN_DEV_MODE" false); cbn [negb]; [|naive_solver].
    destruct (bool_decide_reflect (Getenv env "CORE_MASTER_KEY" = "")); [naive_solver|].
    destruct (NewAESKeyring _); naive_solver.
  - destruct (bool_decide_reflect (Getenv env "CORE_MASTER_KEY" = "")); [naive_solver|].
    destruct (NewAESKeyring _); naive_solver.
Qed.

(** C34: which environments the processes start in.  Each starts exactly when
    every [CORE_] variable set is a known one, a database is named and the rest
    of what it needs is there: a master key of 64 hexadecimal digits for [cored]
    and [coreworker]; for the worker a rescue time that, when set, exceeds the job
    timeout; for [coreadmin] operator tokens that load and are not empty unless
    development mode is on, and a master key that is valid or absent. *)
Theorem startup_fenced env :
  ((∃ s, cored_run env = Ok s) ↔ admissible env ∧ has_key env) ∧
  ((∃ s, coreworker_run env = Ok s) ↔ admissible env ∧ has_key env ∧
     ¬ (0 < Duration env "CORE_RESCUE_AFTER" 0 ≤ Duration env "CORE_JOB_TIMEOUT" (2 * minute))%Z) ∧
  ((∃ s, coreadmin_run Unmarshal build random spa ping env = Ok s) ↔ admissible env ∧
     (∃ d, loaded_tokens env = Ok d ∧ (tdEntries d ≠ [] ∨ Bool env "CORE_ADMIN_DEV_MODE" false = true)) ∧
     (Getenv env "CORE_MASTER_KEY" = "" ∨ has_key env)) ∧
  (has_key env → slen (Getenv env "CORE_MASTER_KEY") = 64%Z).
Proof.
  split; [apply cored_starts|]. split; [apply worker_starts|]. split; [apply admin_starts|].
  intros [key Hk]. by destruct (NewAESKeyring_ok _ _ Hk).
Qed.

(** A worker that starts with a positive job timeout gives River that
    timeout and a rescue time beyond it, so a job is only rescued once its worker
    has given it up; the timeout must leave room for the thirty seconds added to
    it in 64 bits. *)
Theorem rescue_after_timeout env s : coreworker_run env = Ok s →
  (0 < qcJobTimeout (swQueue s) ≤ 2 ^ 63 - 1 - 30 * second)%Z →
  ∃ t r, rcJobTimeout (river_config (swQueue s)) = Some t ∧ rcRescueStuckJobsAfter (river_config (swQueue s)) = Some r ∧ (t < r)%Z.
Proof.
  unfold coreworker_run. rewrite fenced_Ok. intros [_ Hrun] Ht. destruct (NewAESKeyring _); [|done].
  revert Hrun. destruct (_ && _) eqn:Hg; [done|]. intros [= <-]. revert Ht. cbn [swQueue river_config qcJobTimeout qcRescueAfter]. intros Ht.
  unfold river_config. cbn [rcJobTimeout rcRescueStuckJobsAfter qcJobTimeout qcRescueAfter].
  rewrite (bool_decide_eq_true_2 (0 < Duration env "CORE_JOB_TIMEOUT" (2 * minute))%Z) by lia. eexists. revert Hg.
  destruct (bool_decide_reflect (0 < Duration env "CORE_RESCUE_AFTER" 0)%Z) as [Hr|Hr]; cbn [andb].
  - intros Hg%bool_decide_eq_false_1. eexists. split_and!; [done|done|lia].
  - intros _. eexists. split_and!; [done|done|]. unfold add64, second in *. rewrite Z.mod_small; lia.
Qed.

End starting.

(** ** Serving what was started *)

Section serving.
Context `{GoTime} `{Mac} `{CursorCodec} `{Digest} `{SqlOrder} `{CaseFold} `{RowText} `{GoFmt} `{Structpb}.
Context {Q : Type} `{RiverOk Q} `{PreviewDigest} `{EvidenceText} `{ring : Aead}.
Context (Unmarshal : string → option (gmap string token_meta)) (build random : string) (spa : option (string → bool)) (ping : bool).
Notation AW := (AdminWorld Q).

(** Without the flag the command service has no reveal. *)
Lemma reveal_disabled cfg e signer (view : AW → Tables) h now aid call (a a' : AW) r : cfRevealEnabled cfg = false →
  serve_call cfg e signer view h now aid call a = (a', Reply (CommandReplied r)) → crPlaintext r = "".
Proof.
  intros Hf. unfold serve_call. destruct (newAuthInterceptor _ h) as [ctx|]; [|done].
  destruct call as [rpc| |opts c]; [by destruct (read_service _ _ _ _ _)|by destruct (WhoAmI _ _)|].
  destruct (cfEngine cfg); [|done]. unfold command_service. rewrite Hf.
  destruct (meta_of ctx) as [meta|code]; destruct c; try done;
    destruct (run_command _ _ _ _ _ _ _) as [b [r' [er|]]]; simpl; try done; by intros [= <- <-].
Qed.

Lemma admin_settings env s : coreadmin_run Unmarshal build random spa ping env = Ok s → ∃ d, loaded_tokens Unmarshal env = Ok d ∧
  cfTokens (saConfig s) = Some (MkTokenDirectory (tdEntries d) (Bool env "CORE_ADMIN_DEV_MODE" false)) ∧
  cfDevMode (saConfig s) = Bool env "CORE_ADMIN_DEV_MODE" false ∧
  cfRevealEnabled (saConfig s) = Bool env "CORE_ADMIN_REVEAL_ENABLED" false ∧
  dpFlags (saDeps s) = MkFlags (Bool env "CORE_ADMIN_REVEAL_ENABLED" false) (Bool env "CORE_ADMIN_ENABLE_TERMINATE" false)
    (Bool env "CORE_ADMIN_ENABLE_SUSPEND" false) (Bool env "CORE_ADMIN_ENABLE_DISCONNECT_SUBSCRIBER" false).
Proof.
  unfold coreadmin_run, loaded_tokens. rewrite fenced_Ok. intros [_ Hrun]. destruct (LoadTokens _ _ _ _) as [d|]; [|done].
  exists d. split; [done|]. revert Hrun. destruct (_ && _); [done|].
  destruct (if bool_decide (Getenv env "CORE_MASTER_KEY" = "") then _ else _) as [keyring|]; [|done]. by intros [= <-].
Qed.

(** An admin server is closed unless its environment opens it.  When
    [coreadmin] was started without development mode, a call that is answered
    carries a bearer token that was loaded from the environment; unless reveals
    were enabled no reply carries a secret, and unless they were enabled neither
    do terminating and suspending a resource and disconnecting a subscriber have
    their flag. *)
Theorem admin_closed_by_default env s signer (view : AW → Tables) h now aid call (a a' : AW) r :
  coreadmin_run Unmarshal build random spa ping env = Ok s →
  serve_call (saConfig s) (saDeps s) signer view h now aid call a = (a', Reply r) →
  (Bool env "CORE_ADMIN_DEV_MODE" false = false →
     ∃ d x, loaded_tokens Unmarshal env = Ok d ∧ x ∈ tdEntries d ∧ hdAuthorization h = "Bearer " +:+ teToken x) ∧
  (Bool env "CORE_ADMIN_REVEAL_ENABLED" false = false → ∀ cr, r = CommandReplied cr → crPlaintext cr = "") ∧
  (Getenv env "CORE_ADMIN_ENABLE_TERMINATE" = "" → flTerminate (dpFlags (saDeps s)) = false) ∧
  (Getenv env "CORE_ADMIN_ENABLE_SUSPEND" = "" → flSuspend (dpFlags (saDeps s)) = false) ∧
  (Getenv env "CORE_ADMIN_ENABLE_DISCONNECT_SUBSCRIBER" = "" → flDisconnect (dpFlags (saDeps s)) = false).
Proof.
  intros Hs Hcall. destruct (admin_settings _ _ Hs) as (d & Hd & Htok & Hdev & Hrev & Hfl). rewrite Hfl.
  split; [|split; [|unfold Bool; split_and!; by intros ->]].
  - intros Hoff. exists d. revert Hcall. unfold serve_call. destruct (newAuthInterceptor _ h) as [ctx|] eqn:Hi; [|done]. intros _.
    destruct (interceptor_ok _ _ _ Hi) as (op & token & _ & [_ Hk] & Hauth & _). unfold directory in Hk. rewrite Htok, Hdev, Hoff in Hk.
    cbn [tdEntries tdDevMode orb] in Hk. destruct Hk as [(x & Hx & <- & _)|(_ & ? & _)]; [|done]. by exists x.
  - intros Hoff cr ->. eapply reveal_disabled; [|exact Hcall]. by rewrite Hrev.
Qed.

End serving.

(** ** The two APIs *)

Lemma core_mountable resources : mountable (core_services resources) = true.
Proof. by destruct resources. Qed.

Lemma apis_disjoint resources cfg s rest s' rest' : s ∈ core_services resources → s' ∈ services cfg →
  service_path s rest ≠ service_path s' rest'.
Proof.
  intros Hs Hs' E. pose proof (core_mountable resources) as Hc. pose proof (services_mountable cfg) as Ha. unfold mountable in Hc, Ha.
  apply andb_true_iff in Hc as [[Hc _]%andb_true_iff _], Ha as [[Ha _]%andb_true_iff _].
  rewrite forallb_elem in Hc. rewrite forallb_elem in Ha. unfold service_path in E. injection E as E.
  destruct (slash_split s s' rest rest' (Hc s Hs) (Ha s' Hs') E) as [-> _]. clear -Hs Hs'.
  unfold services in Hs'. destruct resources, (cfEngine cfg); set_solver.
Qed.

(** The core API.  Its handler answers a preflight exactly to [OPTIONS],
    every other request to a mounted service reaches it, the health endpoints
    answer, and no other service is reachable: no request reaches a service both
    here and on the admin server. *)
Theorem core_routing resources ready method path : let out := CoreHandler resources ready method path in
  (out = Preflight ↔ method = "OPTIONS") ∧
  (∀ s rest, out = Rpc s rest ↔ method ≠ "OPTIONS" ∧ s ∈ core_services resources ∧ path = service_path s rest) ∧
  (out = HealthOK ↔ is_get method = true ∧ path = "/healthz") ∧
  (out = ReadyOK ↔ is_get method = true ∧ path = "/readyz" ∧ ready ≠ Some false) ∧
  (out = NotReady ↔ is_get method = true ∧ path = "/readyz" ∧ ready = Some false) ∧
  (∀ cfg s rest s' rest', out = Rpc s rest → NewHandler cfg method path ≠ Rpc s' rest').
Proof.
  cbv zeta. destruct (mux_spec _ ready method path (core_mountable resources)) as (Hp & _ & Hrpc & Hh & Hr & Hn).
  unfold CoreHandler, cors. destruct (bool_decide_reflect (method = "OPTIONS")) as [->|Ho].
  - assert (is_get "OPTIONS" = false) as -> by done. clear. repeat split; (done || (intros []; done)).
  - split; [done|]. split; [intros s rest; rewrite Hrpc; split; [done|by intros [_ ?]]|]. do 3 (split; [done|]).
    intros cfg s rest s' rest' [Hs Hpath]%Hrpc E. apply NewHandler_Rpc in E as [Hs' Hpath'].
    apply (apis_disjoint resources cfg s rest s' rest' Hs Hs'). congruence.
Qed.

Module ProcessDemo.
Import Registry.Demo TimelineSpec.ReadDemo CommandDemo HttpDemo.
#[local] Existing Instances CommandDemo.river CommandDemo.river_ok CommandDemo.preview_text CommandDemo.evidence CommandDemo.ring
  CommandDemo.clock_format.
#[local] Instance durations : Durations := ParseInt.

Definition key_text : string := of_bytes (replicate 64 97%Z).
Definition env : environ :=
  ["PATH=/bin"; "DATABASE_URL=postgres://x"; "CORE_MASTER_KEY=" +:+ key_text; "CORE_ADMIN_TOKEN= s3cret "; "CORE_JOB_TIMEOUT=60";
   "CORE_PROVIDER_KINDS= static, ,null"].

Example env_read : cored_run env =
    Ok (MkCored "postgres://x" ":8080" (replicate 32 170%Z) true (MkModelConfig "openai" "gpt-4.1-mini" "default" [])
          (MkDeployment "ultracore/bezalel:local" "" ["static"; "null"] "" "" (0, 0)%Z)) ∧
  cored_run ("CORE_TYPO=1" :: "CORE_A=1" :: env) = Err (ErrorText "unknown CORE_* environment variable(s): CORE_A, CORE_TYPO") ∧
  cored_run ["CORE_ADDR=:1"] = Err (ErrorText "DATABASE_URL is required") ∧
  (∃ f, rewriteEndpoint "https://t.example/" = Some f ∧ f "http://127.0.0.1:9000/mcp" = "https://t.example/mcp" ∧
        f "http://127.0.0.1:9000" = "https://t.example").
Proof. split_and!; [vm_compute; reflexivity..|]. eexists. split; [reflexivity|]. vm_compute. done. Qed.

Definition worker : WorkerSettings :=
  match coreworker_run env with Ok s => s | Err _ => MkWorker "" [] None (MkQueueConfig 0 0 0 0) 0 0 (MkDeployment "" "" [] "" "" (0, 0)%Z) end.

Lemma rescue_after_timeout_witness :
  ∃ t r, rcJobTimeout (river_config (swQueue worker)) = Some t ∧ rcRescueStuckJobsAfter (river_config (swQueue worker)) = Some r ∧ (t < r)%Z.
Proof.
  apply (rescue_after_timeout env worker).
  - vm_compute. reflexivity.
  - vm_compute. by split; [|discriminate].
Defined.

Definition no_tokens : string → option (gmap string token_meta) := λ _, None.
Definition admin : AdminSettings :=
  match coreadmin_run no_tokens "v1" "r" None true env with
  | Ok s => s
  | Err _ => MkAdmin "" "" config deps "" false None
  end.

Lemma admin_closed_by_default_witness :
  ∃ d x, loaded_tokens no_tokens env = Ok d ∧ x ∈ tdEntries d ∧ hdAuthorization headers = "Bearer " +:+ teToken x.
Proof.
  destruct (admin_closed_by_default no_tokens "v1" "r" None true env admin None view headers 1 "a1" CallWhoAmI start start
    (IdentityReply (MkIdentity "default" "default" RoleAdmin (Permissions RoleAdmin) false))) as [Hd _].
  - vm_compute. reflexivity.
  - reflexivity.
  - apply Hd. vm_compute. reflexivity.
Defined.

End ProcessDemo.
