(* ===== verification/DevStack.v ===== *)
(** * Seeding a development stack ([cmd/devstack])

    [seed] and [ensureAdminAPIKey] of [cmd/devstack/main.go]: the first tenant or a
    new one, an administrator's key that is kept, a provider named [default] and a
    credential for the local model.  What the random sources return is the
    argument [SeedFresh]. *)
From S2P Require Import Prelude Policy Domain Text Store StoreRuns EventLog Loop Waits Tools Api ResourceStore Strings Redact AdminQuery Accounts AccountSpec Wiring.

Record SeedFresh := MkSeedFresh {
  sfTenant : string; sfKeyID : string; sfKey : option (list Z); sfKeyNonce : option (list Z); sfProvider : string;
  sfNonce : option (list Z);
}.

Section seed.
Context `{Aead} `{Sha256} `{CredentialJSON}.

(** The loop over the tenant's keys: the first that is live, an administrator's
    and stored encrypted. *)
Fixpoint stored_admin_key (infos : list APIKeyInfo) : M World (option string) :=
  match infos with
  | [] => mret None
  | info :: rest =>
      if negb (bool_decide (ki_revoked_at info = None)) || negb (bool_decide (ki_scope info = KeyScopeAdmin))
      then stored_admin_key rest
      else
        full ← APIKeyGet (ki_id info);
        if bool_decide (ak_enc full = []) then stored_admin_key rest
        else
          raw ← mapped (λ e, ErrorText ("decrypt existing admin api key: " +:+ err_text e)) (of_result (Decrypt (ak_enc full)));
          mret (Some (of_bytes raw))
  end.

Definition ensureAdminAPIKey (fr : SeedFresh) (tenant : TenantID) : M World string :=
  keys ← APIKeyList tenant;
  found ← stored_admin_key keys;
  match found with
  | Some raw => mret raw
  | None =>
      '(raw, prefix) ← of_result (GenerateAPIKey (sfKey fr));
      enc ← of_result (Encrypt (sfKeyNonce fr) (bytes_of raw));
      _ ← APIKeyCreate (MkAPIKey (sfKeyID fr) tenant "dev" KeyScopeAdmin prefix (HashAPIKey raw) enc 0 None);
      mret raw
  end.

(** [scope.Providers().GetByName]: created when it is missing. *)
Definition ensure_provider (fr : SeedFresh) (tenant : TenantID) : M World unit :=
  r ← attempt (core (ProviderGetByName tenant "default"));
  match r with
  | Ok _ => mret ()
  | Err ErrNotFound =>
      core (ProviderCreate tenant (MkProviderInstance (sfProvider fr) tenant ProviderKindLocalDocker "default" JNull "ready"
              (MkCapabilities "" [] ∅) None 0))
  | Err e => throw e
  end.

Definition put_model (fr : SeedFresh) (tenant : TenantID) (modelURL : string) : M World unit :=
  if bool_decide (modelURL = "") then mret ()
  else
    enc ← of_result (Encrypt (sfNonce fr) (marshalPayload (MkInferencePayload "dev-local-model-key" modelURL ∅)));
    CredentialPut tenant CredentialKindOpenAI "default" enc.

(** The tenant and the key are printed. *)
Definition seed (fr : SeedFresh) (modelURL : string) : M World (TenantID * string) :=
  tenants ← TenantList;
  tenant ← match tenants with
           | t :: _ => mret (tn_id t)
           | [] => _ ← TenantCreate (sfTenant fr) "dev"; mret (sfTenant fr)
           end;
  apiKey ← ensureAdminAPIKey fr tenant;
  _ ← register [apiKey];
  _ ← ensure_provider fr tenant;
  _ ← put_model fr tenant modelURL;
  mret (tenant, apiKey).

End seed.

(** ** Seeding again *)

Section stable.
Context `{Aead} `{!AeadOk} `{Sha256} `{CredentialJSON}.

(** A key the loop stops at. *)
Definition usable (k : APIKey) : bool :=
  bool_decide (ak_revoked_at k = None) && bool_decide (ak_scope k = KeyScopeAdmin) && negb (bool_decide (ak_enc k = [])).

Definition decrypted (k : APIKey) : result (option string) :=
  match Decrypt (ak_enc k) with
  | Ok raw => Ok (Some (of_bytes raw))
  | Err e => Err (ErrorText ("decrypt existing admin api key: " +:+ err_text e))
  end.

Lemma filter_usable k ks : bool_filter usable (k :: ks) = if usable k then k :: bool_filter usable ks else bool_filter usable ks.
Proof. unfold bool_filter. rewrite filter_cons. case_decide as Hu; [by rewrite Hu|by destruct (usable k)]. Qed.

Lemma stored_admin_key_eq ks w : Forall (λ k, ac_keys (w_acc w) !! ak_id k = Some k) ks →
  stored_admin_key (Info <$> ks) w = (w, match head (bool_filter usable ks) with Some k => decrypted k | None => Ok None end).
Proof.
  induction 1 as [|k ks Hk _ IH]; [done|]. rewrite fmap_cons. cbn [stored_admin_key]. rewrite filter_usable.
  unfold usable at 1. cbn [Info ki_revoked_at ki_scope ki_id].
  destruct (bool_decide_reflect (ak_revoked_at k = None)); cbn [negb orb andb]; [|exact IH].
  destruct (bool_decide_reflect (ak_scope k = KeyScopeAdmin)); cbn [negb orb andb]; [|exact IH].
  unfold mbind, M_bind, APIKeyGet, get_acc, gets, mbind, M_bind, of_option. cbn. rewrite Hk. cbn.
  destruct (bool_decide_reflect (ak_enc k = [])); cbn [negb]; [exact IH|]. simpl. unfold decrypted, mapped, attempt, of_result, mbind, M_bind.
  by destruct (Decrypt (ak_enc k)).
Qed.

Definition keyed_keys (a : Accounts) : Prop := map_Forall (λ id k, ak_id k = id) (ac_keys a).

Definition tenant_keys (a : Accounts) (tenant : TenantID) : list APIKey :=
  Store.order_by ak_created_at (bool_filter (λ k, bool_decide (ak_tenant k = tenant)) (rows (ac_keys a))).

(** The key found, if any. *)
Definition admin_key (a : Accounts) (tenant : TenantID) : option APIKey := head (bool_filter usable (tenant_keys a tenant)).

Lemma tenant_keys_elem a tenant k : k ∈ tenant_keys a tenant ↔ (∃ id, ac_keys a !! id = Some k) ∧ ak_tenant k = tenant.
Proof.
  unfold tenant_keys, Store.order_by. rewrite merge_sort_Permutation, elem_of_bool_filter, bool_decide_eq_true. unfold rows.
  rewrite list_elem_of_fmap. split.
  - intros [Ht ([id k'] & -> & Hin)]. apply elem_of_map_to_list in Hin. split; [by exists id|done].
  - intros [[id Hid] Ht]. split; [done|]. exists (id, k). split; [done|]. by apply elem_of_map_to_list.
Qed.

Lemma ensure_found fr tenant w k : keyed_keys (w_acc w) → admin_key (w_acc w) tenant = Some k →
  ensureAdminAPIKey fr tenant w =
  (w, match Decrypt (ak_enc k) with
      | Ok raw => Ok (of_bytes raw)
      | Err e => Err (ErrorText ("decrypt existing admin api key: " +:+ err_text e))
      end).
Proof.
  intros Hk Hf. unfold ensureAdminAPIKey, mbind, M_bind.
  change (APIKeyList tenant w) with (w, Ok (Info <$> tenant_keys (w_acc w) tenant)). cbv beta iota. rewrite stored_admin_key_eq.
  - fold (admin_key (w_acc w) tenant). rewrite Hf. unfold decrypted. by destruct (Decrypt (ak_enc k)).
  - apply Forall_forall. intros x [[id Hid] _]%tenant_keys_elem. by rewrite (Hk _ _ Hid).
Qed.

(** A freshly stored key is the only one the loop stops at, when it stopped at
    none before. *)
Lemma admin_key_insert a tenant k : keyed_keys a → ac_keys a !! ak_id k = None → ak_tenant k = tenant → usable k = true →
  admin_key a tenant = None → admin_key (with_keys (<[ak_id k := k]> (ac_keys a)) a) tenant = Some k.
Proof.
  intros Hk Hid Ht Hu Hn. unfold admin_key.
  assert (bool_filter usable (tenant_keys (with_keys (<[ak_id k := k]> (ac_keys a)) a) tenant) = [k]) as ->; [|done].
  apply Permutation_singleton_r. unfold tenant_keys, Store.order_by, bool_filter. rewrite merge_sort_Permutation.
  cbn [ac_keys with_keys]. unfold rows. rewrite map_to_list_insert by done. rewrite fmap_cons. cbn [snd].
  rewrite filter_cons_True by by apply bool_decide_eq_true. rewrite filter_cons_True by done. f_equiv.
  apply Permutation_nil_r, elem_of_nil_inv. intros x [Hx [Hxt Hin]%list_elem_of_filter]%list_elem_of_filter.
  unfold admin_key in Hn. apply head_None in Hn. assert (x ∈ bool_filter usable (tenant_keys a tenant)) as Hxx; [|by rewrite Hn in Hxx; apply elem_of_nil in Hxx].
  apply elem_of_bool_filter. split; [done|]. apply tenant_keys_elem. apply bool_decide_eq_true in Hxt. split; [|done].
  apply list_elem_of_fmap in Hin as ([id y] & -> & Hin). apply elem_of_map_to_list in Hin. by exists id.
Qed.

Lemma ensure_ok fr tenant w w1 raw : 0 < NonceSize → (∀ n, sfKeyNonce fr = Some n → length n = NonceSize) → keyed_keys (w_acc w) →
  ensureAdminAPIKey fr tenant w = (w1, Ok raw) →
  w_db w1 = w_db w ∧ ac_tenants (w_acc w1) = ac_tenants (w_acc w) ∧ keyed_keys (w_acc w1) ∧
  ∃ k bs, admin_key (w_acc w1) tenant = Some k ∧ Decrypt (ak_enc k) = Ok bs ∧ of_bytes bs = raw.
Proof.
  intros Hpos Hnonce Hk. destruct (admin_key (w_acc w) tenant) as [k|] eqn:Hf.
  { rewrite (ensure_found fr tenant w k Hk Hf). destruct (Decrypt (ak_enc k)) as [bs|] eqn:Hd; [|done]. intros [= <- <-].
    split_and!; [done|done|done|]. by exists k, bs. }
  unfold ensureAdminAPIKey. intros (w' & infos & [= <- <-] & Hs)%bind_Ok. fold (tenant_keys (w_acc w) tenant) in Hs.
  apply bind_Ok in Hs as (w' & found & Hs & Hr). rewrite stored_admin_key_eq in Hs.
  2:{ apply Forall_forall. intros x [[id Hid] _]%tenant_keys_elem. by rewrite (Hk _ _ Hid). }
  fold (admin_key (w_acc w) tenant) in Hs. rewrite Hf in Hs. injection Hs as <- <-.
  apply bind_Ok in Hr as (w' & [raw' prefix] & Hgen & Hr). injection Hgen as <- Hgen.
  apply bind_Ok in Hr as (w' & enc & Henc & Hr). injection Henc as <- Henc.
  apply bind_Ok in Hr as (w' & [] & Hcr & Hr). injection Hr as <- <-.
  destruct (sfKeyNonce fr) as [n|] eqn:En; [|done]. specialize (Hnonce n eq_refl).
  pose proof (Decrypt_Encrypt n _ _ Hnonce Henc) as Hd.
  revert Hcr. unfold APIKeyCreate, get_acc, now_, put_acc, gets, modify, mbind, M_bind, mret, M_ret, throw.
  cbn [ak_id ak_hash ak_tenant ak_name ak_scope ak_prefix ak_enc].
  destruct (key_taken _ _ _) eqn:Htaken; [done|]. destruct (ac_tenants (w_acc w) !! tenant); [|done]. intros [= <-]. cbn [w_acc w_db].
  set (k := MkAPIKey _ _ _ _ _ _ _ _ _). unfold key_taken in Htaken. apply orb_false_iff in Htaken as [Hid _].
  apply bool_decide_eq_false in Hid. apply eq_None_not_Some in Hid.
  split; [done|]. split; [done|]. split.
  - cbn [ac_keys with_keys]. apply map_Forall_insert_2; [done|exact Hk].
  - exists k, (bytes_of raw'). split; [|split; [exact Hd|apply of_bytes_bytes_of]].
    apply (admin_key_insert (w_acc w) tenant k); [done|done|done| |done]. unfold usable. cbn [ak_revoked_at ak_scope ak_enc k].
    rewrite !bool_decide_eq_true_2 by done. cbn [andb]. rewrite bool_decide_eq_false_2; [done|].
    intros ->. injection Henc as E. apply app_eq_nil in E as [-> _]. simpl in Hnonce. lia.
Qed.

Definition has_default (d : DB) (tenant : TenantID) : Prop :=
  ∃ p, head (bool_filter (λ p, bool_decide (pi_name p = "default") && bool_decide (pi_tenant p = tenant)) (rows (db_providers d))) = Some p.

Lemma ensure_provider_noop fr tenant w : has_default (w_db w) tenant → ensure_provider fr tenant w = (w, Ok ()).
Proof.
  intros [p Hp]. unfold ensure_provider, attempt, core, ProviderGetByName, get, of_option, mbind, M_bind. rewrite Hp. by destruct w.
Qed.

Lemma ensure_provider_ok fr tenant w w1 : ensure_provider fr tenant w = (w1, Ok ()) →
  w_acc w1 = w_acc w ∧ has_default (w_db w1) tenant.
Proof.
  unfold ensure_provider. intros (w' & r & Hr & Hw)%bind_Ok. unfold attempt, core, ProviderGetByName, get, of_option, mbind, M_bind in Hr.
  destruct (head _) as [p|] eqn:Hp; cbn in Hr; injection Hr as <- <-; [injection Hw as <-; split; [done|by exists p]|].
  revert Hw. unfold core, ProviderCreate, get, put, throw, mbind, M_bind. cbn.
  destruct (provider_taken _ _ _) eqn:Ht; [done|]. intros [= <-]. split; [done|]. unfold has_default. cbn.
  apply orb_false_iff in Ht as [Hid _]. apply bool_decide_eq_false in Hid. apply eq_None_not_Some in Hid. cbn in Hid.
  clear Hp. match goal with |- ∃ p, ?h = Some p => destruct h as [p|] eqn:Hh; [by exists p|] end. apply head_None in Hh. exfalso.
  set (q := MkProviderInstance _ _ _ _ _ _ _ _ _) in Hh.
  assert (q ∈ @nil ProviderInstance) as Hin; [|by apply elem_of_nil in Hin]. rewrite <-Hh. apply elem_of_bool_filter.
  split; [by rewrite !bool_decide_eq_true_2|]. unfold rows. apply list_elem_of_fmap. exists (sfProvider fr, q). split; [done|].
  apply elem_of_map_to_list, lookup_insert_eq.
Qed.

Lemma put_model_ok fr tenant url w : is_Some (ac_tenants (w_acc w) !! tenant) → (url = "" ∨ is_Some (sfNonce fr)) →
  ∃ w1, put_model fr tenant url w = (w1, Ok ()).
Proof.
  intros [tn Ht] Hn. unfold put_model. case_bool_decide; [by exists w|]. destruct Hn as [?|[n ->]]; [done|].
  unfold of_result, Encrypt, CredentialPut, get_acc, now_, put_acc, gets, modify, mbind, M_bind. cbn. rewrite Ht. by eexists.
Qed.
Lemma put_model_frame fr tenant url w w1 r : put_model fr tenant url w = (w1, r) →
  w_db w1 = w_db w ∧ ac_tenants (w_acc w1) = ac_tenants (w_acc w) ∧ ac_keys (w_acc w1) = ac_keys (w_acc w).
Proof.
  unfold put_model. case_bool_decide; [by intros [= <- _]|]. destruct (sfNonce fr) as [n|]; [|by intros [= <- _]].
  unfold of_result, Encrypt, CredentialPut, get_acc, now_, put_acc, gets, modify, throw, mbind, M_bind. cbn.
  destruct (ac_tenants (w_acc w) !! tenant); by intros [= <- _].
Qed.

Definition keyed_tenants (a : Accounts) : Prop := map_Forall (λ id t, tn_id t = id) (ac_tenants a).
Definition first_tenant (a : Accounts) : option TenantID := tn_id <$> head (Store.order_by tn_created_at (rows (ac_tenants a))).

Lemma first_tenant_stored a t : keyed_tenants a → first_tenant a = Some t → is_Some (ac_tenants a !! t).
Proof.
  intros Hk. unfold first_tenant. destruct (head _) as [x|] eqn:Hx; [|done]. intros [= <-]. apply head_Some_elem_of in Hx.
  unfold Store.order_by in Hx. rewrite merge_sort_Permutation in Hx. unfold rows in Hx.
  apply list_elem_of_fmap in Hx as ([id y] & -> & Hin). apply elem_of_map_to_list in Hin. cbn [snd]. pose proof (Hk _ _ Hin) as E. cbn in E. rewrite E. by exists y.
Qed.
Lemma no_tenants a : first_tenant a = None → ac_tenants a = ∅.
Proof.
  unfold first_tenant. intros Hn%fmap_None%head_None. unfold Store.order_by in Hn.
  pose proof (merge_sort_Permutation (Store.key_le tn_created_at) (rows (ac_tenants a))) as Hp. rewrite Hn in Hp.
  symmetry in Hp. apply Permutation_nil_r in Hp. unfold rows in Hp. apply fmap_nil_inv in Hp. by apply map_to_list_empty_iff in Hp.
Qed.

(** The tenant [seed] works in. *)
Definition seed_tenant (fr : SeedFresh) : M World TenantID :=
  tenants ← TenantList;
  match tenants with
  | t :: _ => mret (tn_id t)
  | [] => _ ← TenantCreate (sfTenant fr) "dev"; mret (sfTenant fr)
  end.

Lemma seed_tenant_known fr w t : first_tenant (w_acc w) = Some t → seed_tenant fr w = (w, Ok t).
Proof.
  unfold first_tenant, seed_tenant, TenantList, get_acc, gets, mbind, M_bind. cbn.
  destruct (Store.order_by tn_created_at (rows (ac_tenants (w_acc w)))) as [|x l]; [done|]. by intros [= <-].
Qed.
Lemma seed_tenant_ok fr w w1 t : keyed_tenants (w_acc w) → seed_tenant fr w = (w1, Ok t) →
  first_tenant (w_acc w1) = Some t ∧ keyed_tenants (w_acc w1) ∧ ac_keys (w_acc w1) = ac_keys (w_acc w).
Proof.
  intros Hk. destruct (first_tenant (w_acc w)) as [t'|] eqn:Hf.
  { rewrite (seed_tenant_known fr w t' Hf). by intros [= <- <-]. }
  pose proof (no_tenants _ Hf) as He. unfold first_tenant in Hf. apply fmap_None, head_None in Hf.
  unfold seed_tenant, TenantList, TenantCreate, get_acc, now_, put_acc, gets, modify, mbind, M_bind. cbn. rewrite Hf. cbn.
  rewrite He, lookup_empty. intros [= <- <-]. unfold first_tenant, keyed_tenants. cbn.
  rewrite insert_empty. unfold rows. rewrite map_to_list_singleton. split_and!; [done|by apply map_Forall_singleton|done].
Qed.

Lemma seed_eq fr url w :
  seed fr url w = (t ← seed_tenant fr; apiKey ← ensureAdminAPIKey fr t; _ ← register [apiKey]; _ ← ensure_provider fr t;
                   _ ← put_model fr t url; mret (t, apiKey)) w.
Proof. unfold seed, seed_tenant, mbind, M_bind. by destruct (TenantList w) as [w' [tenants|e]]. Qed.

(** Seeding is stable.  Once [seed] has printed a tenant and a key, running
    it again prints the same two, whatever the random sources return and whatever
    model endpoint is given, and leaves the tenants, the keys and every table of
    the core as they are.  The tables are keyed by their ids and nonces have the
    cipher's size. *)
Theorem seed_stable fr url w w1 tenant key fr' url' : 0 < NonceSize → (∀ n, sfKeyNonce fr = Some n → length n = NonceSize) →
  (url' = "" ∨ is_Some (sfNonce fr')) → keyed_tenants (w_acc w) → keyed_keys (w_acc w) →
  seed fr url w = (w1, Ok (tenant, key)) →
  ∃ w2, seed fr' url' w1 = (w2, Ok (tenant, key)) ∧ w_db w2 = w_db w1 ∧
    ac_tenants (w_acc w2) = ac_tenants (w_acc w1) ∧ ac_keys (w_acc w2) = ac_keys (w_acc w1).
Proof.
  intros Hpos Hnonce Hn' Hkt Hkk. rewrite seed_eq. intros (wa & t & Ht & Hs)%bind_Ok.
  destruct (seed_tenant_ok _ _ _ _ Hkt Ht) as (Hft & Hkta & Ekeys).
  assert (keyed_keys (w_acc wa)) as Hkka by (unfold keyed_keys; by rewrite Ekeys).
  apply bind_Ok in Hs as (wb & raw & Hb & Hs).
  destruct (ensure_ok _ _ _ _ _ Hpos Hnonce Hkka Hb) as (_ & Etb & Hkkb & k & bs & Hk & Hd & Hbs).
  apply bind_Ok in Hs as (wc & [] & [= <-] & Hs). apply bind_Ok in Hs as (wd & [] & Hp & Hs).
  destruct (ensure_provider_ok _ _ _ _ Hp) as [Eacc Hdef]. cbn [w_acc] in Eacc.
  apply bind_Ok in Hs as (we & [] & Hm & Hs). injection Hs as -> <- <-.
  destruct (put_model_frame _ _ _ _ _ _ Hm) as (Edb & Et1 & Ek1). rewrite Eacc in Et1, Ek1.
  rewrite seed_eq. unfold mbind, M_bind.
  rewrite (seed_tenant_known fr' w1 t) by (unfold first_tenant; by rewrite Et1, Etb).
  rewrite (ensure_found fr' t w1 k); [|unfold keyed_keys; by rewrite Ek1|unfold admin_key, tenant_keys; rewrite Ek1; exact Hk].
  rewrite Hd, Hbs. cbn [register modify].
  set (w1' := MkWorld _ _ _). rewrite (ensure_provider_noop fr' t w1') by (unfold w1'; cbn [w_db]; by rewrite Edb).
  destruct (put_model_ok fr' t url' w1') as [w2 Hm2]; [|done|].
  { cbn [w1' w_acc]. rewrite Et1, Etb. by apply first_tenant_stored. }
  rewrite Hm2. destruct (put_model_frame _ _ _ _ _ _ Hm2) as (Edb2 & Et2 & Ek2). by exists w2.
Qed.

End stable.

Module SeedDemo.
Import AccountDemo.

Definition fresh1 : SeedFresh := MkSeedFresh "t1" "k1" (Some (replicate 32 7%Z)) (Some [1%Z]) "p1" (Some [2%Z]).
Definition fresh2 : SeedFresh := MkSeedFresh "t2" "k2" (Some (replicate 32 8%Z)) (Some [3%Z]) "p2" (Some [4%Z]).
Definition seeded : World * result (TenantID * string) := seed fresh1 "http://m" empty_world.
Definition printed : TenantID * string := match seeded.2 with Ok x => x | Err _ => ("", "") end.

Lemma seed_stable_witness : seeded.2 = Ok printed ∧ printed.1 = "t1" ∧ ∃ w2, seed fresh2 "http://n" seeded.1 = (w2, Ok (printed.1, printed.2)).
Proof.
  split; [vm_compute; reflexivity|]. split; [vm_compute; reflexivity|].
  destruct (seed_stable fresh1 "http://m" empty_world seeded.1 printed.1 printed.2 fresh2 "http://n") as (w2 & Hw & _).
  - simpl. lia.
  - by intros n [= <-].
  - right. by eexists.
  - apply map_Forall_empty.
  - apply map_Forall_empty.
  - change (seeded = (seeded.1, Ok (printed.1, printed.2))). rewrite (surjective_pairing seeded) at 1. f_equal.
  - by exists w2.
Defined.

End SeedDemo.
