(* ===== verification/EventBus.v ===== *)
(** * The event bus ([postgres/eventbus.go])

    The waiter table, the listening connection and the subscription goroutines as
    interleaving steps: commits that grow the log and notify in the same
    transaction, notifications handed to the waiters of a session or lost while
    the connection is down, batches read, wake-ups taken and ticks of the poll
    timer, in any order.

    A subscription has a channel with room for one wake-up ([bu_full]).
    [bus_delivers]: whatever the order, a subscription has delivered a contiguous
    piece of the log, each event once; and a wake-up is never missed: when a
    subscription rests, no notification is under way or was lost, and its channel
    is empty, it has delivered the whole log.  [poll_recovers]: a tick makes up for
    notifications that were lost. *)
From S2P Require Import Prelude Policy Domain Text Store Strings EventLog.

Record reader := MkReader {
  rd_tenant : TenantID; rd_session : SessionID; rd_from : Z; rd_next : Z; rd_waiting : bool; rd_out : list Event;
}.

(** [bu_lost] records the notifications that nobody was listening for. *)
Record Bus := MkBus {
  bu_db : DB; bu_subs : gmap SessionID (gset nat); bu_full : gset nat; bu_readers : gmap nat reader;
  bu_listening : bool; bu_queue : list string; bu_lost : list string;
}.

Definition NewEventBus (d : DB) : Bus := MkBus d ∅ ∅ ∅ false [] [].
Definition poll_tick (configured : Z) : Z := if bool_decide (configured ≤ 0)%Z then (2 * 10 ^ 9)%Z else configured.

(** ** Waiters *)

Definition waiters (b : Bus) (session : SessionID) : gset nat := default ∅ (bu_subs b !! session).

Definition addWaiter (session : SessionID) (ch : nat) (b : Bus) : Bus :=
  MkBus (bu_db b) (<[session := {[ch]} ∪ waiters b session]> (bu_subs b)) (bu_full b) (bu_readers b)
    (bu_listening b) (bu_queue b) (bu_lost b).

Definition removeWaiter (session : SessionID) (ch : nat) (b : Bus) : Bus :=
  let rest := waiters b session ∖ {[ch]} in
  MkBus (bu_db b) (if bool_decide (rest = ∅) then delete session (bu_subs b) else <[session := rest]> (bu_subs b))
    (bu_full b) (bu_readers b) (bu_listening b) (bu_queue b) (bu_lost b).

(** A full channel keeps its one wake-up. *)
Definition wakeSession (session : SessionID) (b : Bus) : Bus :=
  MkBus (bu_db b) (bu_subs b) (waiters b session ∪ bu_full b) (bu_readers b) (bu_listening b) (bu_queue b) (bu_lost b).

(** ** Notifications *)

(** [pg_notify] of [eventStore.Append]: the session, a colon, the number. *)
Definition notification (e : Event) : string := ev_session e +:+ ":" +:+ pretty (ev_seq e).

(** [strings.Cut(payload, ":")] *)
Fixpoint cut_colon (s : string) : option string :=
  match s with
  | EmptyString => None
  | String c rest => if (byte_of c =? 58)%Z then Some "" else String c <$> cut_colon rest
  end.

Definition on_notification (payload : string) (b : Bus) : Bus :=
  match cut_colon payload with Some id => wakeSession id b | None => b end.

(** ** The subscription goroutine *)

Definition read_batch (d : DB) (r : reader) : reader :=
  match (Range (rd_tenant r) (rd_session r) (rd_next r) 256 d).2 with
  | Err _ | Ok [] => MkReader (rd_tenant r) (rd_session r) (rd_from r) (rd_next r) true (rd_out r)
  | Ok batch =>
      MkReader (rd_tenant r) (rd_session r) (rd_from r) (last_seq_of (rd_next r) batch) false (rd_out r ++ batch)
  end.

Definition awake (r : reader) : reader :=
  MkReader (rd_tenant r) (rd_session r) (rd_from r) (rd_next r) false (rd_out r).

Definition set_reader (ch : nat) (r : reader) (b : Bus) : Bus :=
  MkBus (bu_db b) (bu_subs b) (bu_full b) (<[ch := r]> (bu_readers b)) (bu_listening b) (bu_queue b) (bu_lost b).
Definition empty_channel (ch : nat) (b : Bus) : Bus :=
  MkBus (bu_db b) (bu_subs b) (bu_full b ∖ {[ch]}) (bu_readers b) (bu_listening b) (bu_queue b) (bu_lost b).
Definition drop_reader (ch : nat) (b : Bus) : Bus :=
  MkBus (bu_db b) (bu_subs b) (bu_full b) (delete ch (bu_readers b)) (bu_listening b) (bu_queue b) (bu_lost b).
Definition with_listener (on : bool) (queue lost : list string) (b : Bus) : Bus :=
  MkBus (bu_db b) (bu_subs b) (bu_full b) (bu_readers b) on queue lost.
Definition committed (d : DB) (b : Bus) : Bus :=
  MkBus d (bu_subs b) (bu_full b) (bu_readers b) (bu_listening b) (bu_queue b) (bu_lost b).

(** ** Steps *)

(** A commit appends to the log and leaves a session with its tenant. *)
Definition grows (d d' : DB) (new : list Event) : Prop :=
  gapless d' ∧ db_events d' = db_events d ++ new ∧
  ∀ sid s, db_sessions d !! sid = Some s → ∃ s', db_sessions d' !! sid = Some s' ∧ se_tenant s' = se_tenant s.

Inductive bus_step : Bus → Bus → Prop :=
  | BusSubscribe b ch tenant session from :
      bu_readers b !! ch = None → (0 ≤ from)%Z →
      bus_step b (set_reader ch (MkReader tenant session from from false []) (addWaiter session ch (empty_channel ch b)))
  | BusCommit b d' new :
      grows (bu_db b) d' new →
      bus_step b (let b' := committed d' b in
                  if bu_listening b then with_listener true (bu_queue b ++ (notification <$> new)) (bu_lost b) b'
                  else with_listener false (bu_queue b) (bu_lost b ++ (notification <$> new)) b')
  | BusListen b : bus_step b (with_listener true (bu_queue b) (bu_lost b) b)
  | BusDisconnect b : bus_step b (with_listener false [] (bu_lost b ++ bu_queue b) b)
  | BusNotify b payload rest :
      bu_listening b = true → bu_queue b = payload :: rest →
      bus_step b (on_notification payload (with_listener true rest (bu_lost b) b))
  | BusRead b ch r :
      bu_readers b !! ch = Some r → rd_waiting r = false → bus_step b (set_reader ch (read_batch (bu_db b) r) b)
  | BusWake b ch r :
      bu_readers b !! ch = Some r → rd_waiting r = true → ch ∈ bu_full b →
      bus_step b (set_reader ch (awake r) (empty_channel ch b))
  | BusTick b ch r :
      bu_readers b !! ch = Some r → rd_waiting r = true → bus_step b (set_reader ch (awake r) b)
  | BusCancel b ch r :
      bu_readers b !! ch = Some r → bus_step b (drop_reader ch (removeWaiter (rd_session r) ch b)).

(** ** The invariant *)

Definition log_of (b : Bus) (r : reader) : list Event := session_log (bu_db b) (rd_session r).

(** Somebody has been told, or would have been. *)
Definition told (b : Bus) (session : SessionID) : Prop :=
  ∃ e, ev_session e = session ∧ (notification e ∈ bu_queue b ∨ notification e ∈ bu_lost b).

Definition reader_ok (b : Bus) (ch : nat) (r : reader) : Prop :=
  ch ∈ waiters b (rd_session r) ∧ (0 ≤ rd_from r ≤ rd_next r)%Z ∧
  rd_out r = take (Z.to_nat (rd_next r - rd_from r)) (drop (Z.to_nat (rd_from r)) (log_of b r)) ∧
  (rd_next r ≤ Z.max (rd_from r) (Z.of_nat (length (log_of b r))))%Z ∧
  (rd_waiting r = true → cut_colon (rd_session r) = None →
   (∃ n, owns_log (bu_db b) (rd_tenant r) (rd_session r) n) → (rd_next r < Z.of_nat (length (log_of b r)))%Z →
   ch ∈ bu_full b ∨ told b (rd_session r)).

Definition bus_inv (b : Bus) : Prop := gapless (bu_db b) ∧ ∀ ch r, bu_readers b !! ch = Some r → reader_ok b ch r.

Lemma cut_colon_notification e : cut_colon (ev_session e) = None → cut_colon (notification e) = Some (ev_session e).
Proof.
  unfold notification. induction (ev_session e) as [|c s IH]; intros Hs; [done|].
  change (String c s +:+ ":" +:+ pretty (ev_seq e)) with (String c (s +:+ ":" +:+ pretty (ev_seq e))).
  cbn [cut_colon] in *. destruct (byte_of c =? 58)%Z; [done|]. destruct (cut_colon s); [done|]. by rewrite IH.
Qed.

Lemma grows_log d d' new session :
  grows d d' new → session_log d' session = session_log d session ++ bool_filter (λ e, bool_decide (ev_session e = session)) new.
Proof. intros (_ & E & _). unfold session_log. by rewrite E, bool_filter_app. Qed.

(** Steps that leave the log, a reader, its channel and what it was told. *)
Lemma reader_ok_mono b b' ch r :
  bu_db b' = bu_db b → (ch ∈ waiters b (rd_session r) → ch ∈ waiters b' (rd_session r)) → (ch ∈ bu_full b → ch ∈ bu_full b') →
  (cut_colon (rd_session r) = None → told b (rd_session r) → ch ∈ bu_full b' ∨ told b' (rd_session r)) →
  reader_ok b ch r → reader_ok b' ch r.
Proof.
  intros Hd Hw Hf Ht (H1 & H2 & H3 & H4 & H5). unfold reader_ok, log_of in *. rewrite Hd.
  split_and!; [by apply Hw|lia..|done|lia|]. intros Hwait Hc Ho Hn. destruct (H5 Hwait Hc Ho Hn); auto.
Qed.

Lemma read_batch_ok b ch r : gapless (bu_db b) → reader_ok b ch r → reader_ok b ch (read_batch (bu_db b) r).
Proof.
  intros Hg Hr. pose proof Hr as (H1 & H2 & H3 & H4 & H5). unfold read_batch.
  assert (reader_ok b ch r → ∀ w, (w = true → cut_colon (rd_session r) = None →
     (∃ n, owns_log (bu_db b) (rd_tenant r) (rd_session r) n) → (rd_next r < Z.of_nat (length (log_of b r)))%Z →
     ch ∈ bu_full b ∨ told b (rd_session r)) →
     reader_ok b ch (MkReader (rd_tenant r) (rd_session r) (rd_from r) (rd_next r) w (rd_out r))) as Hsame.
  { intros _ w Hw. unfold reader_ok, log_of in *. simpl. by split_and!; try lia. }
  destruct (session_of (bu_db b) (rd_tenant r) (rd_session r)) as [s|] eqn:Es.
  - assert (owns_log (bu_db b) (rd_tenant r) (rd_session r) (se_last_seq s)) as Ho by (by exists s).
    rewrite (Range_slice _ _ _ (se_last_seq s)) by (done || lia). cbn [snd]. change (Z.to_nat 256) with (S 255).
    destruct (take (S 255) _) as [|e batch] eqn:E.
    + eapply empty_page in E as [E1 E2]; [|done|done|lia]. apply Hsame; [done|].
      intros _ _ _ Hlt. destruct (gapless_log _ _ _ _ Hg Ho) as (_ & Hn & Hlen). unfold log_of in Hlt. lia.
    + rewrite <-E. edestruct (page_step (bu_db b) _ _ _ (rd_next r) (S 255) Hg Ho) as (P1 & P2 & P3); [lia|by rewrite E|].
      rewrite P1. destruct (gapless_log _ _ _ _ Hg Ho) as (_ & Hn & Hlen).
      set (bt := take (S 255) (drop (Z.to_nat (rd_next r)) (session_log (bu_db b) (rd_session r)))) in *.
      unfold reader_ok, log_of. simpl. split_and!; [done|lia|lia| |lia|done].
      rewrite H3. unfold log_of.
      replace (Z.to_nat (rd_next r + Z.of_nat (length bt) - rd_from r)) with
        (Z.to_nat (rd_next r - rd_from r) + length bt) by lia.
      rewrite <-take_take_drop, drop_drop. f_equal.
      replace (Z.to_nat (rd_from r) + Z.to_nat (rd_next r - rd_from r)) with (Z.to_nat (rd_next r)) by lia.
      unfold bt. by rewrite take_length_take.
  - assert ((Range (rd_tenant r) (rd_session r) (rd_next r) 256 (bu_db b)).2 = Ok []) as ->.
    { unfold Range, mbind, M_bind, get. simpl. by rewrite Es. }
    apply Hsame; [done|]. intros _ _ (n & s & Hs & _). congruence.
Qed.

Lemma waiters_add b session ch s : waiters b s ⊆ waiters (addWaiter session ch b) s.
Proof. unfold waiters, addWaiter. simpl. rewrite lookup_insert. case_decide; subst; set_solver. Qed.
Lemma waiters_added b session ch : ch ∈ waiters (addWaiter session ch b) session.
Proof. unfold waiters, addWaiter. simpl. rewrite lookup_insert_eq. set_solver. Qed.
Lemma waiters_remove b session ch s : waiters b s ∖ {[ch]} ⊆ waiters (removeWaiter session ch b) s.
Proof.
  unfold waiters, removeWaiter. simpl. case_bool_decide as E.
  - rewrite lookup_delete. case_decide; subst; [|set_solver]. unfold waiters in E. by rewrite E.
  - rewrite lookup_insert. case_decide; subst; set_solver.
Qed.

(** A commit that adds to a session's log tells its waiters. *)
Lemma commit_tells b d' new session :
  grows (bu_db b) d' new → length (session_log (bu_db b) session) ≠ length (session_log d' session) →
  ∃ e, e ∈ new ∧ ev_session e = session.
Proof.
  intros Hgr Hne. rewrite (grows_log _ _ _ session Hgr), length_app in Hne.
  destruct (bool_filter _ new) as [|e l] eqn:E; [simpl in Hne; lia|].
  assert (e ∈ bool_filter (λ e, bool_decide (ev_session e = session)) new) as He by (rewrite E; apply elem_of_cons; by left).
  apply elem_of_bool_filter in He as [H1%bool_decide_eq_true H2]. by exists e.
Qed.

(** The log of a session that already had events belonged to the same tenant. *)
Lemma grows_owner d d' new tenant session n : gapless d → grows d d' new → session_log d session ≠ [] →
  owns_log d' tenant session n → ∃ m, owns_log d tenant session m.
Proof.
  intros Hg (_ & _ & Hs) Hne (s' & Hs' & _). apply session_of_Some in Hs' as [Hs' Ht].
  specialize (Hg session). destruct (db_sessions d !! session) as [s|] eqn:E; [|done].
  destruct (Hs _ _ E) as (s'' & E'' & Ht''). simplify_eq. exists (se_last_seq s), s. split; [|done].
  apply session_of_Some. split; [done|congruence].
Qed.

Lemma commit_reader b d' new ch r : bus_inv b → grows (bu_db b) d' new → bu_readers b !! ch = Some r →
  ∀ b', bu_db b' = d' → bu_subs b' = bu_subs b → bu_full b' = bu_full b →
  (∀ session, told b session ∨ (∃ e, e ∈ new ∧ ev_session e = session) → told b' session) → reader_ok b' ch r.
Proof.
  intros [Hg Hb] Hgr Hr b' Hd Hsubs Hfull Htold. destruct (Hb ch r Hr) as (H1 & H2 & H3 & H4 & H5).
  pose proof (grows_log _ _ _ (rd_session r) Hgr) as Hl. unfold reader_ok, log_of, waiters in *. rewrite Hd, Hsubs, Hl, Hfull.
  rewrite length_app. split_and!; [done|lia|lia| |lia|].
  - rewrite H3. destruct (decide (rd_next r ≤ rd_from r)%Z).
    { replace (Z.to_nat (rd_next r - rd_from r)) with 0 by lia. by rewrite !take_0. }
    rewrite drop_app_le by lia. rewrite take_app_le; [done|]. rewrite length_drop. lia.
  - intros Hw Hc (n & Ho) Hlt. destruct (bool_filter _ new) as [|e l] eqn:E.
    + simpl in Hlt. rewrite Nat.add_0_r in Hlt. rewrite <-Hd in Ho. destruct (grows_owner (bu_db b) d' new (rd_tenant r) (rd_session r) n) as [m Hm];
        [done|done|intros En; rewrite En in Hlt; simpl in Hlt; lia|by rewrite <-Hd|].
      destruct H5 as [?|Ht]; [done|done|by exists m|lia|by left|right; auto].
    + right. apply Htold. right. apply (commit_tells b d'); [done|]. rewrite Hl, length_app. simpl. lia.
Qed.

(** Readers other than the one a step is about. *)
Lemma set_reader_inv b b' ch r :
  bus_inv b → bu_db b' = bu_db b → bu_readers b' = <[ch := r]> (bu_readers b) →
  (∀ ch' r', ch' ≠ ch → bu_readers b !! ch' = Some r' → reader_ok b ch' r' → reader_ok b' ch' r') →
  reader_ok b' ch r → bus_inv b'.
Proof.
  intros [Hg Hb] Hd Hr Hother Hch. split; [by rewrite Hd|]. intros ch' r'. rewrite Hr, lookup_insert. case_decide.
  - intros [= <-]. by subst.
  - intros E. apply Hother; auto.
Qed.

Lemma awake_ok b b' ch r :
  reader_ok b ch r → bu_db b' = bu_db b → bu_subs b' = bu_subs b → reader_ok b' ch (awake r).
Proof.
  intros (H1 & H2 & H3 & H4 & _) Hd Hs. unfold reader_ok, log_of, waiters in *. rewrite Hd, Hs. simpl. by split_and!; try lia.
Qed.

Lemma told_eq b b' session : bu_queue b' = bu_queue b → bu_lost b' = bu_lost b → told b session → told b' session.
Proof. unfold told. by intros -> ->. Qed.

Lemma bus_step_inv b b' : bus_inv b → bus_step b b' → bus_inv b'.
Proof.
  intros Hb Hstep. pose proof Hb as [Hg Hr].
  destruct Hstep as [b ch tenant session from Hch Hf|b d' new Hgr|b|b|b payload rest Hlis Hq|b ch r Hch Hw|b ch r Hch Hw Hfull|b ch r Hch Hw|b ch r Hch].
  - eapply (set_reader_inv b); [done|done|done| |].
    + intros ch' r' Hne _. apply reader_ok_mono; [done| | |].
      * intros Hx. by apply (waiters_add (empty_channel ch b)).
      * simpl. set_solver.
      * intros. right. by eapply told_eq.
    + split_and!; simpl; [apply (waiters_added (empty_channel ch b))|lia|lia| |lia|done].
      by rewrite Z.sub_diag, take_0.
  - assert (∀ b', bu_db b' = d' → bu_subs b' = bu_subs b → bu_full b' = bu_full b → bu_readers b' = bu_readers b →
      (∀ session, told b session ∨ (∃ e, e ∈ new ∧ ev_session e = session) → told b' session) → bus_inv b') as Hc.
    { intros b' Hd H1 H2 H3 H4. split; [rewrite Hd; apply Hgr|]. intros ch r. rewrite H3. intros E. by eapply commit_reader. }
    destruct (bu_listening b); apply Hc; try done; intros session [(e & He & Ht)|(e & He & Hs)];
      exists e; (split; [done|]); simpl; rewrite elem_of_app; try tauto;
      [left|right]; right; apply list_elem_of_fmap; eauto.
  - split; [done|]. intros ch r E. apply (reader_ok_mono b); [done|done|done| |by apply Hr]. intros. right. by eapply told_eq.
  - split; [done|]. intros ch r E. apply (reader_ok_mono b); [done|done|done| |by apply Hr].
    intros _ (e & He & Ht). right. exists e. split; [done|]. simpl. rewrite elem_of_app. tauto.
  - split; [unfold on_notification; by destruct (cut_colon payload)|]. intros ch r E.
    assert (bu_readers b !! ch = Some r) as Er by (unfold on_notification in E; by destruct (cut_colon payload)).
    pose proof (Hr ch r Er) as Hok. pose proof Hok as (Hin & _). revert Hok. apply reader_ok_mono.
    + unfold on_notification. by destruct (cut_colon payload).
    + unfold on_notification. by destruct (cut_colon payload).
    + unfold on_notification. destruct (cut_colon payload); simpl; set_solver.
    + intros Hc (e & He & Ht). rewrite Hq, elem_of_cons in Ht. destruct Ht as [[Hp|Ht]|Ht].
      * left. unfold on_notification. rewrite <-Hp, cut_colon_notification by (by rewrite He). rewrite He. simpl.
        apply elem_of_union. by left.
      * right. exists e. split; [done|]. left. unfold on_notification. by destruct (cut_colon payload).
      * right. exists e. split; [done|]. right. unfold on_notification. by destruct (cut_colon payload).
  - eapply (set_reader_inv b); [done|done|done| |].
    + intros ch' r' Hne _. apply reader_ok_mono; [done|done|done|intros; right; by eapply told_eq].
    + by apply (read_batch_ok b), Hr.
  - eapply (set_reader_inv b); [done|done|done| |].
    + intros ch' r' Hne _. apply reader_ok_mono; [done|done|simpl; set_solver|intros; right; by eapply told_eq].
    + by apply (awake_ok b); [apply Hr|..].
  - eapply (set_reader_inv b); [done|done|done| |].
    + intros ch' r' Hne _. apply reader_ok_mono; [done|done|done|intros; right; by eapply told_eq].
    + by apply (awake_ok b); [apply Hr|..].
  - split; [done|]. intros ch' r'. simpl. rewrite lookup_delete. case_decide; [done|]. intros E.
    apply (reader_ok_mono b); [done| |done|intros; right; by eapply told_eq|by apply Hr].
    intros Hin. apply (waiters_remove b (rd_session r) ch). set_solver.
Qed.

Lemma bus_inv_reachable d b : gapless d → rtc bus_step (NewEventBus d) b → bus_inv b.
Proof.
  intros Hg Hs. assert (bus_inv (NewEventBus d)) as Hi by (split; [done|]; intros ch r E; cbn in E; by rewrite lookup_empty in E).
  revert Hi. induction Hs as [|x y z Hxy _ IH]; [done|]. intros Hi. apply IH. by eapply bus_step_inv.
Qed.

(** An append is a commit of the bus. *)
Lemma Append_grows h tenant session e d : gapless d → ∃ new, grows d (Append h tenant session e d).1 new.
Proof.
  intros Hg. pose proof (Append_gapless h tenant session e d Hg) as Hg'.
  assert ((Append h tenant session e d).1 = d ∨ ∃ s, session_of d tenant session = Some s ∧
          (Append h tenant session e d).1 = appended d session s e) as Hcase.
  { destruct h; simpl; unfold Tx, atomically; rewrite append_body_eq by done;
      destruct (session_of d tenant session) as [s|]; try (by left); case_bool_decide; (by left) || (right; by exists s). }
  destruct Hcase as [E|(s & Hs & E)]; rewrite E in *.
  - exists []. split_and!; [done|by rewrite app_nil_r|]. intros sid s Hs. by exists s.
  - eexists. split_and!; [done|unfold appended; reflexivity|]. apply session_of_Some in Hs as [Hs _].
    intros sid s0 H0. unfold appended. simpl. rewrite lookup_insert. case_decide; [|by exists s0].
    subst. simplify_eq. by eexists.
Qed.

(** C9: the event bus loses nothing.  Whatever the order of commits,
    notifications, lost connections, reads, wake-ups and ticks, a subscription has
    delivered a contiguous piece of its session's log, from the number it asked
    for, each event once and in order.  And no wake-up is missed: a subscription
    of the session's tenant that rests with nothing in its channel, while no
    notification of its session is queued or was lost in an outage, has delivered
    the whole log. *)
Theorem bus_delivers d b ch r :
  gapless d → rtc bus_step (NewEventBus d) b → bu_readers b !! ch = Some r →
  let log := session_log (bu_db b) (rd_session r) in
  rd_out r = take (Z.to_nat (rd_next r - rd_from r)) (drop (Z.to_nat (rd_from r)) log) ∧
  (rd_from r ≤ rd_next r ≤ Z.max (rd_from r) (Z.of_nat (length log)))%Z ∧
  (rd_waiting r = true → cut_colon (rd_session r) = None →
   (∃ n, owns_log (bu_db b) (rd_tenant r) (rd_session r) n) → ch ∉ bu_full b → ¬ told b (rd_session r) →
   rd_out r = drop (Z.to_nat (rd_from r)) log).
Proof.
  intros Hg Hs Hr log. destruct (bus_inv_reachable d b Hg Hs) as [_ Hb].
  destruct (Hb ch r Hr) as (_ & H2 & H3 & H4 & H5). unfold log_of in *. fold log in H3, H4, H5.
  split; [done|]. split; [lia|]. intros Hw Hc Ho Hf Ht.
  assert (¬ (rd_next r < Z.of_nat (length log))%Z) as Hn by (intros Hlt; by destruct (H5 Hw Hc Ho Hlt)).
  rewrite H3. apply take_ge. rewrite length_drop. lia.
Qed.

(** The poll makes up for a lost notification.  From any reachable state of
    the bus, a tick of a resting subscription followed by its own reads, however
    many batches they are, brings it to rest again with the whole log delivered. *)
Theorem poll_recovers d b ch r n :
  gapless d → rtc bus_step (NewEventBus d) b → bu_readers b !! ch = Some r → rd_waiting r = true →
  owns_log (bu_db b) (rd_tenant r) (rd_session r) n →
  ∃ b' r', rtc bus_step b b' ∧ bu_readers b' !! ch = Some r' ∧ rd_waiting r' = true ∧ bu_db b' = bu_db b ∧
    rd_out r' = drop (Z.to_nat (rd_from r)) (session_log (bu_db b) (rd_session r)).
Proof.
  intros Hg Hs Hr Hw Ho.
  assert (∀ k b r, bus_inv b → bu_readers b !! ch = Some r → rd_waiting r = false →
    owns_log (bu_db b) (rd_tenant r) (rd_session r) n → (Z.to_nat (n - rd_next r) < k)%nat →
    ∃ b' r', rtc bus_step b b' ∧ bu_readers b' !! ch = Some r' ∧ rd_waiting r' = true ∧ bu_db b' = bu_db b ∧
      rd_out r' = drop (Z.to_nat (rd_from r)) (session_log (bu_db b) (rd_session r))) as Hread.
  { clear. induction k as [|k IH]; intros b r Hb Hr Hw Ho Hk; [lia|].
    pose proof (BusRead b ch r Hr Hw) as Hstep. pose proof (bus_step_inv _ _ Hb Hstep) as Hb'.
    destruct Hb as [Hg Hb]. destruct (Hb ch r Hr) as (_ & H2 & H3 & H4 & _). unfold log_of in *.
    destruct (gapless_log _ _ _ _ Hg Ho) as (_ & Hn & Hlen).
    unfold read_batch in *. rewrite (Range_slice _ _ _ n) in * by (done || lia). cbn [snd] in *.
    change (Z.to_nat 256) with (S 255) in *. destruct (take (S 255) _) as [|e batch] eqn:E.
    - eapply empty_page in E as [E1 E2]; [|done|done|lia].
      eexists _, _. split; [by apply rtc_once|]. simpl. rewrite lookup_insert_eq. split_and!; try done. simpl.
      rewrite H3. apply take_ge. rewrite length_drop. lia.
    - rewrite <-E in *. edestruct (page_step (bu_db b) _ _ n (rd_next r) (S 255) Hg Ho) as (P1 & P2 & P3); [lia|by rewrite E|].
      edestruct IH as (b' & r' & Hsteps & Hrest); [exact Hb'|apply lookup_insert_eq|done|done|simpl; rewrite P1; lia|].
      exists b', r'. split; [by eapply rtc_l|done]. }
  pose proof (bus_inv_reachable d b Hg Hs) as Hb. pose proof (BusTick b ch r Hr Hw) as Htick.
  edestruct (Hread (S (Z.to_nat (n - rd_next r))) _ (awake r) (bus_step_inv _ _ Hb Htick)) as (b' & r' & Hsteps & Hrest);
    [apply lookup_insert_eq|done|done|simpl; lia|].
  exists b', r'. split; [by eapply rtc_l|done].
Qed.

(** ** A subscription that misses a notification *)

Module BusDemo.

Definition note : Event := NewEvent ActorSystem EventKindAnnotation (AnnotationPayload "x").
Definition later : DB := (Append Pool "t1" "s1" note (demo_log 2)).1.

Definition started : Bus := set_reader 0 (MkReader "t1" "s1" 0 0 false []) (addWaiter "s1" 0 (empty_channel 0 (NewEventBus (demo_log 2)))).
Definition first_read : reader := read_batch (demo_log 2) (MkReader "t1" "s1" 0 0 false []).
Definition at_rest : reader := read_batch (demo_log 2) first_read.
Definition resting : Bus := set_reader 0 at_rest (set_reader 0 first_read started).

Lemma resting_reachable : rtc bus_step (NewEventBus (demo_log 2)) resting.
Proof.
  eapply rtc_l; [apply (BusSubscribe _ 0 "t1" "s1" 0); [apply lookup_empty|done]|]. fold started.
  eapply rtc_l; [apply (BusRead _ 0 (MkReader "t1" "s1" 0 0 false [])); [apply lookup_insert_eq|done]|].
  apply rtc_once. apply (BusRead (set_reader 0 first_read started) 0 first_read); [apply lookup_insert_eq|vm_compute; reflexivity].
Qed.

Lemma bus_delivers_witness :
  rd_out at_rest = session_log (demo_log 2) "s1" ∧ length (rd_out at_rest) = 2%nat.
Proof.
  split; [|vm_compute; reflexivity].
  destruct (bus_delivers (demo_log 2) resting 0 at_rest) as (_ & _ & H);
    [apply demo_gapless|apply resting_reachable|apply lookup_insert_eq|].
  apply H; [vm_compute; reflexivity|reflexivity|exists 2%Z; eexists; by split|vm_compute; by inversion 1|].
  intros (e & _ & [He|He]); by apply elem_of_nil in He.
Defined.

(** The note is committed while nobody listens. *)
Lemma poll_recovers_witness :
  ∃ b b' r', rtc bus_step (NewEventBus (demo_log 2)) b ∧ bu_db b = later ∧ rtc bus_step b b' ∧
    bu_readers b' !! 0 = Some r' ∧ rd_out r' = session_log later "s1".
Proof.
  destruct (Append_grows Pool "t1" "s1" note (demo_log 2) (demo_gapless 2)) as [new Hnew].
  pose proof (BusCommit resting later new Hnew) as Hstep. cbn [bu_listening resting set_reader started addWaiter empty_channel NewEventBus] in Hstep.
  match type of Hstep with bus_step _ ?x => set (b := x) in Hstep end.
  assert (rtc bus_step (NewEventBus (demo_log 2)) b) as Hb by (eapply rtc_r; [apply resting_reachable|exact Hstep]).
  destruct (poll_recovers (demo_log 2) b 0 at_rest 3) as (b' & r' & Hs & Hr' & _ & _ & Hout);
    [apply demo_gapless|exact Hb|apply lookup_insert_eq|vm_compute; reflexivity|eexists; split; vm_compute; reflexivity|].
  exists b, b', r'. split; [exact Hb|]. split; [reflexivity|]. split; [exact Hs|]. split; [exact Hr'|exact Hout].
Defined.

End BusDemo.
