(* ===== verification/Wire.v ===== *)
(** * Conversion to the wire ([http/convert.go], [proto/core/v1])

    The messages of the session, run and event services and their conversion
    from the domain: tenants, sessions, runs, policies, waits, credentials,
    memory entries, and the events of the log with the thirty variants of their
    payload.

    A message of [event.proto] is the list of its fields, in the order of its
    descriptor, with their values.  [protojson] is a parameter ([Protojson]): the
    law [Unmarshal_object] is the JSON mapping of protocol buffers for an object
    whose members are fields of the message, each with a value of the JSON kind
    of its field.  The stored payload is what [json.Marshal] makes of the typed
    payload ([payload_json], from the tags of [event.go]).

    [policyToProto] narrows the number of children to 32 bits, and
    [policyFromProto] (Api.v) gives a policy that names tools and no children the
    default number.

    [wire_faithful]: every event the program writes reaches a client under its
    own variant with every field of the payload, as long as its 32-bit fields are
    in range; [append_reads_back]: a message appended through the API comes back
    as it was sent; [policy_roundtrip]: which policies survive the wire. *)
From S2P Require Import Prelude Policy Domain Text Store Strings GoJson EventLog Loop Waits Api ResourceApi Accounts.

(** ** Descriptors *)

Inductive ptype :=
  | TString | TInt32 | TInt64 | TBool | TStrings | TMap
  | TMessage (fields : list (string * ptype)).

Inductive pvalue :=
  | PString (s : string) | PInt (z : Z) | PBool (b : bool) | PStrings (l : list string)
  | PMap (m : gmap string string)
  | PUnset
  | PMessage (fields : list (string * pvalue)).

Definition descriptor : Type := list (string * ptype).
Definition message_value : Type := list (string * pvalue).

Definition pzero (t : ptype) : pvalue :=
  match t with
  | TString => PString "" | TInt32 | TInt64 => PInt 0 | TBool => PBool false | TStrings => PStrings []
  | TMap => PMap ∅ | TMessage _ => PUnset
  end.

Definition UserMessage_fields : descriptor := [("text", TString)].
Definition Annotation_fields : descriptor := [("text", TString)].
Definition RunStarted_fields : descriptor := [("run_id", TString); ("prompt", TString)].
Definition StepStarted_fields : descriptor := [("run_id", TString); ("step_index", TInt32); ("attempt", TInt32)].
Definition TextDelta_fields : descriptor :=
  [("run_id", TString); ("step_index", TInt32); ("attempt", TInt32); ("delta_index", TInt32); ("text", TString)].
Definition ReasoningDelta_fields : descriptor :=
  [("run_id", TString); ("step_index", TInt32); ("attempt", TInt32); ("delta_index", TInt32); ("text", TString)].
Definition ToolCallStarted_fields : descriptor :=
  [("run_id", TString); ("step_index", TInt32); ("tool_call_id", TString); ("name", TString); ("input", TString)].
Definition ToolResult_fields : descriptor :=
  [("run_id", TString); ("step_index", TInt32); ("tool_call_id", TString); ("name", TString); ("content", TString);
   ("is_error", TBool)].
Definition StepFinished_fields : descriptor :=
  [("run_id", TString); ("step_index", TInt32); ("tokens_in", TInt64); ("tokens_out", TInt64); ("finish_reason", TString)].
Definition Question_fields : descriptor := [("text", TString); ("choices", TStrings)].
Definition RunAwaiting_fields : descriptor := [("run_id", TString); ("question", TMessage Question_fields)].
Definition RunCompleted_fields : descriptor := [("run_id", TString); ("final_text", TString)].
Definition RunFailed_fields : descriptor := [("run_id", TString); ("reason", TString); ("message", TString)].
Definition RunCancelled_fields : descriptor := [("run_id", TString)].
Definition ResourceLifecycle_fields : descriptor :=
  [("resource_id", TString); ("kind", TString); ("name", TString); ("provider_instance_id", TString);
   ("endpoint", TString); ("message", TString); ("epoch", TInt32)].
Definition ExecPreviewRan_fields : descriptor :=
  [("resource_id", TString); ("command", TString); ("output", TString); ("is_error", TBool)].
Definition RunSpawned_fields : descriptor := [("parent_run_id", TString); ("child_run_id", TString)].
Definition MemoryChanged_fields : descriptor :=
  [("key", TString); ("updated_by_type", TString); ("updated_by_id", TString); ("value_json", TString)].
Definition HistoryCompacted_fields : descriptor :=
  [("run_id", TString); ("covered_messages", TInt32); ("summary_tokens", TInt64)].
Definition ModelFallback_fields : descriptor :=
  [("run_id", TString); ("from", TString); ("to", TString); ("reason", TString)].
Definition HookFired_fields : descriptor := [("hook", TString); ("run_id", TString)].
Definition PeriodicPromptFired_fields : descriptor := [("run_id", TString); ("prompt", TString)].
Definition PermissionDenied_fields : descriptor :=
  [("run_id", TString); ("tool", TString); ("resource_id", TString); ("reason", TString)].
Definition SessionLabelsChanged_fields : descriptor := [("labels", TMap)].

(** ** The JSON mapping *)

Definition fits32 (z : Z) : bool := bool_decide (- 2 ^ 31 ≤ z < 2 ^ 31)%Z.
Definition fits64 (z : Z) : bool := bool_decide (int64_min ≤ z ≤ int64_max)%Z.

Definition member (k : string) (obj : list (string * json)) : option json :=
  snd <$> head (bool_filter (λ f, bool_decide (f.1 = k)) obj).

Definition json_string (j : json) : option string := match j with JStr s => Some s | _ => None end.

Definition strings_of (l : list json) : option (list string) := mapM json_string l.
Definition entries_of (o : list (string * json)) : option (list (string * string)) :=
  mapM (λ f, pair f.1 <$> json_string f.2) o.

(** A value of the JSON kind of its field: a number that does not fit is an
    error, a member that is absent or null leaves the field at its zero. *)
Fixpoint proto_value (t : ptype) (v : json) : option pvalue :=
  match t, v with
  | _, JNull => Some (pzero t)
  | TString, JStr s => Some (PString s)
  | TInt32, JNum z => if fits32 z then Some (PInt z) else None
  | TInt64, JNum z => if fits64 z then Some (PInt z) else None
  | TBool, JBool b => Some (PBool b)
  | TStrings, JArr l => PStrings <$> strings_of l
  | TMap, JObj o => PMap ∘ list_to_map <$> entries_of o
  | TMessage fields, JObj obj =>
      PMessage <$> mapM (λ f, pair f.1 <$> (match member f.1 obj with
                                            | Some x => proto_value f.2 x
                                            | None => Some (pzero f.2)
                                            end)) fields
  | _, _ => None
  end.

Definition proto_message (fields : descriptor) (obj : list (string * json)) : option message_value :=
  match proto_value (TMessage fields) (JObj obj) with Some (PMessage m) => Some m | _ => None end.

Definition all_strings (l : list json) : bool := forallb (λ x, bool_decide (is_Some (json_string x))) l.
Definition string_entries (o : list (string * json)) : bool := bool_decide (NoDup o.*1) && all_strings o.*2.

(** The members are fields of the message, each once, with a value of the right
    kind. *)
Fixpoint kind_ok (t : ptype) (v : json) : bool :=
  match t, v with
  | TString, JStr _ | TInt32, JNum _ | TInt64, JNum _ | TBool, JBool _ => true
  | TStrings, JArr l => all_strings l
  | TMap, JObj o => string_entries o
  | TMessage fields, JObj obj =>
      bool_decide (NoDup obj.*1) && forallb (λ o, existsb (λ f, bool_decide (f.1 = o.1)) fields) obj &&
      forallb (λ f, match member f.1 obj with Some x => kind_ok f.2 x | None => true end) fields
  | _, _ => false
  end.

(** [protojson.UnmarshalOptions{DiscardUnknown: true}] and [protojson.Marshal]. *)
Class Protojson := {
  Unmarshal : descriptor → json → option message_value;
  Marshal : message_value → option json;
}.
Class ProtojsonOk `{Protojson} : Prop := {
  Unmarshal_object fields obj :
    plain_json (JObj obj) = true → kind_ok (TMessage fields) (JObj obj) = true →
    Unmarshal fields (JObj obj) = proto_message fields obj;
  (** A message of one string field is written as an object that reads back. *)
  Marshal_text k s :
    valid_utf8 k = true → valid_utf8 s = true →
    ∃ obj, Marshal [(k, PString s)] = Some (JObj obj) ∧ plain_json (JObj obj) = true ∧
           kind_ok (TMessage [(k, TString)]) (JObj obj) = true ∧ proto_message [(k, TString)] obj = Some [(k, PString s)];
}.

(** ** The stored payload *)

Section wire.
Context `{JsonText}.

(** [ToolResultPayload.Content] *)
Definition content_text (c : content) : string := match c with ContentText s => s | ContentJSON j => marshal j end.

Definition opt_int (k : string) (z : Z) : list (string * json) := if bool_decide (z = 0%Z) then [] else [(k, JNum z)].
Definition opt_strings (k : string) (l : list string) : list (string * json) :=
  if bool_decide (l = []) then [] else [(k, JArr (JStr <$> l))].

(** The members [json.Marshal] writes for a payload struct. *)
Definition payload_members (p : payload) : list (string * json) :=
  match p with
  | UserMessagePayload text | AnnotationPayload text => [("text", JStr text)]
  | RunStartedPayload run prompt | PeriodicPromptFiredPayload run prompt => [("run_id", JStr run); ("prompt", JStr prompt)]
  | StepStartedPayload run i a => [("run_id", JStr run); ("step_index", JNum i); ("attempt", JNum a)]
  | TextDeltaPayload run i a d text | ReasoningDeltaPayload run i a d text =>
      [("run_id", JStr run); ("step_index", JNum i); ("attempt", JNum a); ("delta_index", JNum d); ("text", JStr text)]
  | ToolCallStartedPayload run i id name input =>
      [("run_id", JStr run); ("step_index", JNum i); ("tool_call_id", JStr id); ("name", JStr name); ("input", JStr input)]
  | ToolResultPayload run i id name c e =>
      [("run_id", JStr run); ("step_index", JNum i); ("tool_call_id", JStr id); ("name", JStr name);
       ("content", JStr (content_text c)); ("is_error", JBool e)]
  | StepFinishedPayload run i tin tout reason =>
      [("run_id", JStr run); ("step_index", JNum i); ("tokens_in", JNum tin); ("tokens_out", JNum tout);
       ("finish_reason", JStr reason)]
  | RunAwaitingPayload run q =>
      [("run_id", JStr run); ("question", JObj ([("text", JStr (qText q))] ++ opt_strings "choices" (qChoices q)))]
  | RunCompletedPayload run text => [("run_id", JStr run); ("final_text", JStr text)]
  | RunFailedPayload run reason msg => [("run_id", JStr run); ("reason", JStr reason); ("message", JStr msg)]
  | RunCancelledPayload run => [("run_id", JStr run)]
  | ResourcePayload r =>
      [("resource_id", JStr (rep_resource r))] ++ opt_field "kind" (rep_kind r) ++ opt_field "name" (rep_name r) ++
      opt_field "provider_instance_id" (rep_provider r) ++ opt_field "endpoint" (rep_endpoint r) ++
      opt_field "message" (rep_message r) ++ opt_int "epoch" (rep_epoch r)
  | ExecPreviewRanPayload id command output e =>
      [("resource_id", JStr id); ("command", JStr command); ("output", JStr output); ("is_error", JBool e)]
  | RunSpawnedPayload parent child => [("parent_run_id", JStr parent); ("child_run_id", JStr child)]
  | MemoryPayload m =>
      [("key", JStr (mep_key m)); ("updated_by_type", JStr (mep_updated_by_type m));
       ("updated_by_id", JStr (mep_updated_by_id m))] ++ opt_field "value_json" (mep_value_json m)
  | HistoryCompactedPayload run n t => [("run_id", JStr run); ("covered_messages", JNum n); ("summary_tokens", JNum t)]
  | ModelFallbackPayload run from to reason =>
      [("run_id", JStr run); ("from", JStr from); ("to", JStr to); ("reason", JStr reason)]
  | HookFiredPayload hook run => [("hook", JStr hook)] ++ opt_field "run_id" run
  | PermissionDeniedPayload run tool resource reason =>
      [("run_id", JStr run); ("tool", JStr tool)] ++
      match resource with Some r => [("resource_id", JStr r)] | None => [] end ++ [("reason", JStr reason)]
  | SessionLabelsChangedPayload labels =>
      [("labels", JObj ((λ kv, (kv.1, JStr kv.2)) <$> order_by_text fst (map_to_list labels)))]
  | RawPayload _ => []
  end.

(** The document in the payload column; bytes that are no JSON have none. *)
Definition stored_json (p : payload) : option json :=
  match p with RawPayload b => unmarshal b | _ => Some (JObj (payload_members p)) end.

(** ** The payload of an event *)

Inductive EventPayload :=
  | EventPayload_UserMessage (m : message_value)
  | EventPayload_Annotation (m : message_value)
  | EventPayload_RunStarted (m : message_value)
  | EventPayload_StepStarted (m : message_value)
  | EventPayload_TextDelta (m : message_value)
  | EventPayload_ReasoningDelta (m : message_value)
  | EventPayload_ToolCallStarted (m : message_value)
  | EventPayload_ToolResult (m : message_value)
  | EventPayload_StepFinished (m : message_value)
  | EventPayload_RunAwaiting (m : message_value)
  | EventPayload_RunCompleted (m : message_value)
  | EventPayload_RunFailed (m : message_value)
  | EventPayload_RunCancelled (m : message_value)
  | EventPayload_ResourceRequested (m : message_value)
  | EventPayload_ResourceProvisioning (m : message_value)
  | EventPayload_ResourceReady (m : message_value)
  | EventPayload_ResourceFailed (m : message_value)
  | EventPayload_ResourceSuspended (m : message_value)
  | EventPayload_ResourceTerminating (m : message_value)
  | EventPayload_ResourceTerminated (m : message_value)
  | EventPayload_ExecPreviewRan (m : message_value)
  | EventPayload_RunSpawned (m : message_value)
  | EventPayload_MemorySet (m : message_value)
  | EventPayload_MemoryDeleted (m : message_value)
  | EventPayload_PermissionDenied (m : message_value)
  | EventPayload_HistoryCompacted (m : message_value)
  | EventPayload_ModelFallback (m : message_value)
  | EventPayload_HookFired (m : message_value)
  | EventPayload_PeriodicPromptFired (m : message_value)
  | EventPayload_SessionLabelsChanged (m : message_value).

Context `{Protojson}.

Definition decodeAs (p : payload) (fields : descriptor) (wrap : message_value → EventPayload) : option EventPayload :=
  match stored_json p with
  | None => None
  | Some j => match Unmarshal fields j with Some m => Some (wrap m) | None => None end
  end.

(** [None] is the error: an unknown kind, or JSON that does not decode. *)
Definition payloadFromDomain (kind : string) (p : payload) : option EventPayload :=
  if bool_decide (kind = EventKindUserMessage) then decodeAs p UserMessage_fields EventPayload_UserMessage
  else if bool_decide (kind = EventKindAnnotation) then decodeAs p Annotation_fields EventPayload_Annotation
  else if bool_decide (kind = EventKindRunStarted) then decodeAs p RunStarted_fields EventPayload_RunStarted
  else if bool_decide (kind = EventKindStepStarted) then decodeAs p StepStarted_fields EventPayload_StepStarted
  else if bool_decide (kind = EventKindTextDelta) then decodeAs p TextDelta_fields EventPayload_TextDelta
  else if bool_decide (kind = EventKindReasoningDelta) then decodeAs p ReasoningDelta_fields EventPayload_ReasoningDelta
  else if bool_decide (kind = EventKindToolCallStart) then decodeAs p ToolCallStarted_fields EventPayload_ToolCallStarted
  else if bool_decide (kind = EventKindToolResult) then decodeAs p ToolResult_fields EventPayload_ToolResult
  else if bool_decide (kind = EventKindStepFinished) then decodeAs p StepFinished_fields EventPayload_StepFinished
  else if bool_decide (kind = EventKindRunAwaiting) then decodeAs p RunAwaiting_fields EventPayload_RunAwaiting
  else if bool_decide (kind = EventKindRunCompleted) then decodeAs p RunCompleted_fields EventPayload_RunCompleted
  else if bool_decide (kind = EventKindRunFailed) then decodeAs p RunFailed_fields EventPayload_RunFailed
  else if bool_decide (kind = EventKindRunCancelled) then decodeAs p RunCancelled_fields EventPayload_RunCancelled
  else if bool_decide (kind = EventKindResourceRequested) then
    decodeAs p ResourceLifecycle_fields EventPayload_ResourceRequested
  else if bool_decide (kind = EventKindResourceProvisioning) then
    decodeAs p ResourceLifecycle_fields EventPayload_ResourceProvisioning
  else if bool_decide (kind = EventKindResourceReady) then decodeAs p ResourceLifecycle_fields EventPayload_ResourceReady
  else if bool_decide (kind = EventKindResourceSuspended) then
    decodeAs p ResourceLifecycle_fields EventPayload_ResourceSuspended
  else if bool_decide (kind = EventKindResourceFailed) then decodeAs p ResourceLifecycle_fields EventPayload_ResourceFailed
  else if bool_decide (kind = EventKindResourceTerminating) then
    decodeAs p ResourceLifecycle_fields EventPayload_ResourceTerminating
  else if bool_decide (kind = EventKindResourceTerminated) then
    decodeAs p ResourceLifecycle_fields EventPayload_ResourceTerminated
  else if bool_decide (kind = EventKindExecPreviewRan) then decodeAs p ExecPreviewRan_fields EventPayload_ExecPreviewRan
  else if bool_decide (kind = EventKindRunSpawned) then decodeAs p RunSpawned_fields EventPayload_RunSpawned
  else if bool_decide (kind = EventKindMemorySet) then decodeAs p MemoryChanged_fields EventPayload_MemorySet
  else if bool_decide (kind = EventKindMemoryDeleted) then decodeAs p MemoryChanged_fields EventPayload_MemoryDeleted
  else if bool_decide (kind = EventKindHistoryCompacted) then decodeAs p HistoryCompacted_fields EventPayload_HistoryCompacted
  else if bool_decide (kind = EventKindModelFallback) then decodeAs p ModelFallback_fields EventPayload_ModelFallback
  else if bool_decide (kind = EventKindHookFired) then decodeAs p HookFired_fields EventPayload_HookFired
  else if bool_decide (kind = EventKindPeriodicPromptFired) then
    decodeAs p PeriodicPromptFired_fields EventPayload_PeriodicPromptFired
  else if bool_decide (kind = EventKindSessionLabelsChanged) then
    decodeAs p SessionLabelsChanged_fields EventPayload_SessionLabelsChanged
  else if bool_decide (kind = EventKindPermissionDenied) then decodeAs p PermissionDenied_fields EventPayload_PermissionDenied
  else None.

(** [protojson.Marshal] of a message, as the payload column holds it. *)
Definition stored_message (kind : string) (m : message_value) : result (string * payload) :=
  match Marshal m with
  | Some j => Ok (kind, RawPayload (marshal j))
  | None => Err (ErrorText "proto: invalid UTF-8")
  end.

(** A user message or an annotation; the outer option is the message, the inner
    one its oneof. *)
Definition payloadToDomain (p : option (option EventPayload)) : result (string * payload) :=
  match p with
  | None => Err (ErrorText "missing payload")
  | Some (Some (EventPayload_UserMessage m)) => stored_message EventKindUserMessage m
  | Some (Some (EventPayload_Annotation m)) => stored_message EventKindAnnotation m
  | Some _ => Err (ErrorText "unknown payload variant")
  end.

Record SessionEvent := MkSessionEvent {
  sv_session : string; sv_seq : Z; sv_ts : time; sv_actor : Actor; sv_payload : EventPayload;
}.

Definition eventToProto (e : Event) : option SessionEvent :=
  match payloadFromDomain (ev_kind e) (ev_payload e) with
  | None => None
  | Some p => Some (MkSessionEvent (ev_session e) (ev_seq e) (ev_ts e) (ev_actor e) p)
  end.

(** ** Plain data *)

Definition raw_text (j : option json) : string := match j with Some j => marshal j | None => "" end.

(** A timestamp of the wire is the time; a missing one is [None]. *)
Record TenantProto := MkTenantProto { tp_id : string; tp_name : string; tp_created_at : time }.
Definition tenantToProto (o : Tenant) : TenantProto := MkTenantProto (tn_id o) (tn_name o) (tn_created_at o).

Record SessionProto := MkSessionProto {
  sp_id : string; sp_tenant : string; sp_title : string; sp_created_at : time; sp_labels : gmap string string;
  sp_archived_at : option time;
}.
Definition sessionToProto (s : Session) : SessionProto :=
  MkSessionProto (se_id s) (se_tenant s) (se_title s) (se_created_at s) (se_labels s) (se_archived_at s).

Inductive RunStateProto :=
  | RUN_STATE_UNSPECIFIED | RUN_STATE_PENDING | RUN_STATE_RUNNING | RUN_STATE_AWAITING | RUN_STATE_COMPLETED
  | RUN_STATE_FAILED | RUN_STATE_CANCELLED.
#[export] Instance RunStateProto_eq_dec : EqDecision RunStateProto.
Proof. solve_decision. Defined.

Definition runStateToProto (s : RunState) : RunStateProto :=
  match s with
  | RunPending => RUN_STATE_PENDING
  | RunRunning => RUN_STATE_RUNNING
  | RunAwaiting => RUN_STATE_AWAITING
  | RunCompleted => RUN_STATE_COMPLETED
  | RunFailed => RUN_STATE_FAILED
  | RunCancelled => RUN_STATE_CANCELLED
  end.

(** [policyToProto]; the message has the fields of the policy, with a 32-bit
    number of children. *)
Definition policyToProto (p : RunPolicy) : RunPolicy :=
  {| AllowTools := AllowTools p; DenyTools := DenyTools p; ResourceKinds := ResourceKinds p;
     MaxChildren := int32 (MaxChildren p); ChildInherit := ChildInherit p |}.

(** The model of the message: provider, model and credential. *)
Record RunProto := MkRunProto {
  rp_id : string; rp_session : string; rp_state : RunStateProto; rp_loop_kind : string; rp_loop_version : Z;
  rp_model : string * string * string; rp_prompt : string; rp_failure_reason : string; rp_failure_message : string;
  rp_created_at : time; rp_updated_at : time; rp_policy : RunPolicy; rp_result_json : string; rp_cohort_id : string;
  rp_cohort_ordinal : Z; rp_actor_kind : string; rp_actor_id : string; rp_actor_display : string; rp_parent : string;
}.
Definition runToProto (r : AgentRun) : RunProto :=
  let '(MkModelConfig provider model credential _) := ar_model r in
  MkRunProto (ar_id r) (ar_session r) (runStateToProto (ar_state r)) (ar_loop_kind r) (int32 (ar_loop_version r))
    (provider, model, credential) (ar_prompt r) (ar_failure_reason r) (ar_failure_message r) (ar_created_at r)
    (ar_updated_at r) (policyToProto (ar_policy r)) (raw_text (ar_result r)) (ar_cohort_id r)
    (int32 (ar_cohort_ordinal r)) (actKind (ar_actor r)) (actID (ar_actor r)) (actDisplay (ar_actor r))
    (match ar_parent r with Some p => p | None => "" end).

Record RunWaitProto := MkRunWaitProto {
  wp_id : string; wp_parent : string; wp_step_index : Z; wp_tool_call_id : string; wp_kind : string; wp_state : string;
  wp_timeout_policy : string; wp_deadline : time; wp_result_json : string; wp_members : list string;
}.
Definition waitToProto (w : RunWait) (members : list RunWaitMember) : RunWaitProto :=
  MkRunWaitProto (rw_id w) (rw_parent w) (int32 (rw_step_index w)) (rw_tool_call_id w) (rw_kind w)
    (wait_state_name (Some (rw_state w))) (rw_timeout_policy w) (rw_deadline w) (raw_text (rw_result w)) (wm_run <$> members).

Record CredentialInfoProto := MkCredentialInfoProto {
  cp_kind : string; cp_name : string; cp_created_at : time; cp_rotated_at : time;
}.
Definition credentialInfoToProto (c : CredentialInfo) : CredentialInfoProto :=
  MkCredentialInfoProto (ci_kind c) (ci_name c) (ci_created_at c) (ci_rotated_at c).

Record MemoryEntryProto := MkMemoryEntryProto {
  mp_key : string; mp_value_json : string; mp_updated_by_type : string; mp_updated_by_id : string; mp_updated_at : time;
}.
Definition memoryToProto (e : SessionMemoryEntry) : MemoryEntryProto :=
  MkMemoryEntryProto (me_key e) (me_value e) (actKind (me_updated_by e)) (actID (me_updated_by e)) (me_updated_at e).

(** ** Resources, keys and providers *)

Inductive ResourceStateProto :=
  | RESOURCE_STATE_UNSPECIFIED | RESOURCE_STATE_REQUESTED | RESOURCE_STATE_PROVISIONING | RESOURCE_STATE_READY
  | RESOURCE_STATE_SUSPENDED | RESOURCE_STATE_TERMINATING | RESOURCE_STATE_TERMINATED | RESOURCE_STATE_FAILED.

Definition resourceStateToProto (s : ResourceState) : ResourceStateProto :=
  match s with
  | ResourceRequested => RESOURCE_STATE_REQUESTED
  | ResourceProvisioning => RESOURCE_STATE_PROVISIONING
  | ResourceReady => RESOURCE_STATE_READY
  | ResourceSuspended => RESOURCE_STATE_SUSPENDED
  | ResourceTerminating => RESOURCE_STATE_TERMINATING
  | ResourceTerminated => RESOURCE_STATE_TERMINATED
  | ResourceFailed => RESOURCE_STATE_FAILED
  end.

(** The specification has the fields of [DevEnvSpec]. *)
Record ResourceProto := MkResourceProto {
  op_id : string; op_session : string; op_provider : string; op_state : ResourceStateProto; op_spec : DevEnvSpec;
  op_endpoint : string; op_epoch : Z; op_failure_message : string; op_created_at : time; op_updated_at : time;
  op_ready_at : option time; op_terminated_at : option time; op_provider_name : string; op_provider_kind : string;
  op_provider_state : string; op_kind : string;
}.
Definition resourceToProto (r : Resource) : ResourceProto :=
  MkResourceProto (r_id r) (r_session r) (r_provider r) (resourceStateToProto (r_state r))
    (match ParseDevEnvSpec (r_spec r) with Ok s => s | Err _ => no_spec end)
    (r_endpoint r) (int32 (r_epoch r)) (r_failure_message r) (r_created_at r) (r_updated_at r) (r_ready_at r)
    (r_terminated_at r) "" "" "" (r_kind r).

(** The provider that was not found is the zero value. *)
Definition resourceToProtoWith (r : Resource) (provider : option ProviderInstance) : ResourceProto :=
  let out := resourceToProto r in
  let named f := match provider with Some p => f p | None => "" end in
  MkResourceProto (op_id out) (op_session out) (op_provider out) (op_state out) (op_spec out) (op_endpoint out)
    (op_epoch out) (op_failure_message out) (op_created_at out) (op_updated_at out) (op_ready_at out)
    (op_terminated_at out) (named pi_name) (named pi_kind) (named pi_state) (op_kind out).

(** The replies of [GetResource] and [ListResources]. *)
Definition GetResourceReply (who : option authContext) (id : ResourceID) : M DB ResourceProto :=
  '(r, provider) ← GetResource who id; mret (resourceToProtoWith r provider).
Definition ListResourcesReply (who : option authContext) (session : SessionID) (kind : string) : M DB (list ResourceProto) :=
  items ← ListResources who session kind;
  mret ((λ item, resourceToProtoWith item.1 item.2) <$> items).

(** [None] is the unspecified scope, as in [keyScopeFromProto]. *)
Definition keyScopeToProto (s : string) : option bool :=
  if bool_decide (s = KeyScopeAdmin) then Some true
  else if bool_decide (s = KeyScopeSessions) then Some false
  else None.

Record APIKeyInfoProto := MkAPIKeyInfoProto {
  kp_id : string; kp_tenant : string; kp_name : string; kp_scope : option bool; kp_prefix : string;
  kp_created_at : time; kp_revoked_at : option time;
}.
Definition apiKeyInfoToProto (k : APIKeyInfo) : APIKeyInfoProto :=
  MkAPIKeyInfoProto (ki_id k) (ki_tenant k) (ki_name k) (keyScopeToProto (ki_scope k)) (ki_prefix k) (ki_created_at k)
    (ki_revoked_at k).

Definition OptionalProviderCapabilities : list string :=
  ["restart_preserves_state"; "tolerates_disconnect"; "adopts_orphans"; "enumerates_resources"; CapabilityServesToolEndpoint].

Record ProviderCapabilityProto := MkProviderCapabilityProto { yp_name : string; yp_supported : bool; yp_reason : string }.
Record ProviderProto := MkProviderProto {
  vp_id : string; vp_tenant : string; vp_kind : string; vp_name : string; vp_state : string;
  vp_last_healthy_at : option time; vp_created_at : time; vp_capabilities : list ProviderCapabilityProto;
}.
Definition providerToProto (p : ProviderInstance) : ProviderProto :=
  MkProviderProto (pi_id p) (pi_tenant p) (pi_kind p) (pi_name p) (pi_state p) (pi_last_healthy_at p) (pi_created_at p)
    ((λ c, MkProviderCapabilityProto c (Has (pi_capabilities p) c) (Reason (pi_capabilities p) c)) <$> OptionalProviderCapabilities).

(** [eventHandler.Append] with the message of the request. *)
Definition AppendPayload (who : option authContext) (id : SessionID) (p : option (option EventPayload)) : M DB Z :=
  '(org, a) ← resolveSessionTenant who id;
  match payloadToDomain p with
  | Err e => throw (invalidArgument e)
  | Ok (kind, stored_payload) => stored mapStoreErr (Append Pool org id (NewEvent (auActor a) kind stored_payload))
  end.
End wire.

(** ** The variants by name ([sdk/events.go]) *)

Definition EventKind (p : EventPayload) : string :=
  match p with
  | EventPayload_UserMessage _ => "user_message"
  | EventPayload_Annotation _ => "annotation"
  | EventPayload_RunStarted _ => "run_started"
  | EventPayload_StepStarted _ => "step_started"
  | EventPayload_TextDelta _ => "text_delta"
  | EventPayload_ReasoningDelta _ => "reasoning_delta"
  | EventPayload_ToolCallStarted _ => "tool_call_started"
  | EventPayload_ToolResult _ => "tool_result"
  | EventPayload_StepFinished _ => "step_finished"
  | EventPayload_RunAwaiting _ => "run_awaiting"
  | EventPayload_RunCompleted _ => "run_completed"
  | EventPayload_RunFailed _ => "run_failed"
  | EventPayload_RunCancelled _ => "run_cancelled"
  | EventPayload_ResourceRequested _ => "resource_requested"
  | EventPayload_ResourceProvisioning _ => "resource_provisioning"
  | EventPayload_ResourceReady _ => "resource_ready"
  | EventPayload_ResourceFailed _ => "resource_failed"
  | EventPayload_ResourceSuspended _ => "resource_suspended"
  | EventPayload_ResourceTerminating _ => "resource_terminating"
  | EventPayload_ResourceTerminated _ => "resource_terminated"
  | EventPayload_ExecPreviewRan _ => "exec_preview_ran"
  | EventPayload_RunSpawned _ => "run_spawned"
  | EventPayload_MemorySet _ => "memory_set"
  | EventPayload_MemoryDeleted _ => "memory_deleted"
  | EventPayload_PermissionDenied _ => "permission_denied"
  | EventPayload_HistoryCompacted _ => "history_compacted"
  | EventPayload_ModelFallback _ => "model_fallback"
  | EventPayload_HookFired _ => "hook_fired"
  | EventPayload_PeriodicPromptFired _ => "periodic_prompt_fired"
  | EventPayload_SessionLabelsChanged _ => "session_labels_changed"
  end.

(** The message of a variant, whichever it is. *)
Definition variant_message (p : EventPayload) : message_value :=
  match p with
  | EventPayload_UserMessage m | EventPayload_Annotation m | EventPayload_RunStarted m | EventPayload_StepStarted m
  | EventPayload_TextDelta m | EventPayload_ReasoningDelta m | EventPayload_ToolCallStarted m | EventPayload_ToolResult m
  | EventPayload_StepFinished m | EventPayload_RunAwaiting m | EventPayload_RunCompleted m | EventPayload_RunFailed m
  | EventPayload_RunCancelled m | EventPayload_ResourceRequested m | EventPayload_ResourceProvisioning m
  | EventPayload_ResourceReady m | EventPayload_ResourceFailed m | EventPayload_ResourceSuspended m
  | EventPayload_ResourceTerminating m | EventPayload_ResourceTerminated m | EventPayload_ExecPreviewRan m
  | EventPayload_RunSpawned m | EventPayload_MemorySet m | EventPayload_MemoryDeleted m
  | EventPayload_PermissionDenied m | EventPayload_HistoryCompacted m | EventPayload_ModelFallback m
  | EventPayload_HookFired m | EventPayload_PeriodicPromptFired m | EventPayload_SessionLabelsChanged m => m
  end.

(** ** What a client should see *)

(** The kinds a payload is written under. *)
Definition payload_kinds (p : payload) : list string :=
  match p with
  | UserMessagePayload _ => [EventKindUserMessage] | AnnotationPayload _ => [EventKindAnnotation]
  | RunStartedPayload _ _ => [EventKindRunStarted] | StepStartedPayload _ _ _ => [EventKindStepStarted]
  | TextDeltaPayload _ _ _ _ _ => [EventKindTextDelta] | ReasoningDeltaPayload _ _ _ _ _ => [EventKindReasoningDelta]
  | ToolCallStartedPayload _ _ _ _ _ => [EventKindToolCallStart] | ToolResultPayload _ _ _ _ _ _ => [EventKindToolResult]
  | StepFinishedPayload _ _ _ _ _ => [EventKindStepFinished] | RunAwaitingPayload _ _ => [EventKindRunAwaiting]
  | RunCompletedPayload _ _ => [EventKindRunCompleted] | RunFailedPayload _ _ _ => [EventKindRunFailed]
  | RunCancelledPayload _ => [EventKindRunCancelled]
  | ResourcePayload _ =>
      [EventKindResourceRequested; EventKindResourceProvisioning; EventKindResourceReady; EventKindResourceFailed;
       EventKindResourceSuspended; EventKindResourceTerminating; EventKindResourceTerminated]
  | ExecPreviewRanPayload _ _ _ _ => [EventKindExecPreviewRan] | RunSpawnedPayload _ _ => [EventKindRunSpawned]
  | MemoryPayload _ => [EventKindMemorySet; EventKindMemoryDeleted]
  | HistoryCompactedPayload _ _ _ => [EventKindHistoryCompacted] | ModelFallbackPayload _ _ _ _ => [EventKindModelFallback]
  | HookFiredPayload _ _ => [EventKindHookFired] | PeriodicPromptFiredPayload _ _ => [EventKindPeriodicPromptFired]
  | PermissionDeniedPayload _ _ _ _ => [EventKindPermissionDenied]
  | SessionLabelsChangedPayload _ => [EventKindSessionLabelsChanged]
  | RawPayload _ => []
  end.

(** The integers of a payload, by the width of their field on the wire. *)
Definition ints32 (p : payload) : list Z :=
  match p with
  | StepStartedPayload _ i a => [i; a]
  | TextDeltaPayload _ i a d _ | ReasoningDeltaPayload _ i a d _ => [i; a; d]
  | ToolCallStartedPayload _ i _ _ _ | ToolResultPayload _ i _ _ _ _ | StepFinishedPayload _ i _ _ _ => [i]
  | ResourcePayload r => [rep_epoch r]
  | HistoryCompactedPayload _ n _ => [n]
  | _ => []
  end.
Definition ints64 (p : payload) : list Z :=
  match p with StepFinishedPayload _ _ x y _ => [x; y] | HistoryCompactedPayload _ _ t => [t] | _ => [] end.

(** The fields of the payload. *)
Definition message_of `{JsonText} (p : payload) : message_value :=
  match p with
  | UserMessagePayload text | AnnotationPayload text => [("text", PString text)]
  | RunStartedPayload run prompt | PeriodicPromptFiredPayload run prompt => [("run_id", PString run); ("prompt", PString prompt)]
  | StepStartedPayload run i a => [("run_id", PString run); ("step_index", PInt i); ("attempt", PInt a)]
  | TextDeltaPayload run i a d text | ReasoningDeltaPayload run i a d text =>
      [("run_id", PString run); ("step_index", PInt i); ("attempt", PInt a); ("delta_index", PInt d); ("text", PString text)]
  | ToolCallStartedPayload run i id name input =>
      [("run_id", PString run); ("step_index", PInt i); ("tool_call_id", PString id); ("name", PString name);
       ("input", PString input)]
  | ToolResultPayload run i id name c e =>
      [("run_id", PString run); ("step_index", PInt i); ("tool_call_id", PString id); ("name", PString name);
       ("content", PString (content_text c)); ("is_error", PBool e)]
  | StepFinishedPayload run i x y reason =>
      [("run_id", PString run); ("step_index", PInt i); ("tokens_in", PInt x); ("tokens_out", PInt y);
       ("finish_reason", PString reason)]
  | RunAwaitingPayload run q =>
      [("run_id", PString run);
       ("question", PMessage [("text", PString (qText q)); ("choices", PStrings (qChoices q))])]
  | RunCompletedPayload run text => [("run_id", PString run); ("final_text", PString text)]
  | RunFailedPayload run reason msg => [("run_id", PString run); ("reason", PString reason); ("message", PString msg)]
  | RunCancelledPayload run => [("run_id", PString run)]
  | ResourcePayload r =>
      [("resource_id", PString (rep_resource r)); ("kind", PString (rep_kind r)); ("name", PString (rep_name r));
       ("provider_instance_id", PString (rep_provider r)); ("endpoint", PString (rep_endpoint r));
       ("message", PString (rep_message r)); ("epoch", PInt (rep_epoch r))]
  | ExecPreviewRanPayload id command output e =>
      [("resource_id", PString id); ("command", PString command); ("output", PString output); ("is_error", PBool e)]
  | RunSpawnedPayload parent child => [("parent_run_id", PString parent); ("child_run_id", PString child)]
  | MemoryPayload m =>
      [("key", PString (mep_key m)); ("updated_by_type", PString (mep_updated_by_type m));
       ("updated_by_id", PString (mep_updated_by_id m)); ("value_json", PString (mep_value_json m))]
  | HistoryCompactedPayload run n t =>
      [("run_id", PString run); ("covered_messages", PInt n); ("summary_tokens", PInt t)]
  | ModelFallbackPayload run from to reason =>
      [("run_id", PString run); ("from", PString from); ("to", PString to); ("reason", PString reason)]
  | HookFiredPayload hook run => [("hook", PString hook); ("run_id", PString run)]
  | PermissionDeniedPayload run tool resource reason =>
      [("run_id", PString run); ("tool", PString tool); ("resource_id", PString (default "" resource));
       ("reason", PString reason)]
  | SessionLabelsChangedPayload labels => [("labels", PMap labels)]
  | RawPayload _ => []
  end.

(** The descriptor of the message a payload is decoded as. *)
Definition descriptor_of (p : payload) : descriptor :=
  match p with
  | UserMessagePayload _ => UserMessage_fields | AnnotationPayload _ => Annotation_fields
  | RunStartedPayload _ _ => RunStarted_fields | StepStartedPayload _ _ _ => StepStarted_fields
  | TextDeltaPayload _ _ _ _ _ => TextDelta_fields | ReasoningDeltaPayload _ _ _ _ _ => ReasoningDelta_fields
  | ToolCallStartedPayload _ _ _ _ _ => ToolCallStarted_fields | ToolResultPayload _ _ _ _ _ _ => ToolResult_fields
  | StepFinishedPayload _ _ _ _ _ => StepFinished_fields | RunAwaitingPayload _ _ => RunAwaiting_fields
  | RunCompletedPayload _ _ => RunCompleted_fields | RunFailedPayload _ _ _ => RunFailed_fields
  | RunCancelledPayload _ => RunCancelled_fields | ResourcePayload _ => ResourceLifecycle_fields
  | ExecPreviewRanPayload _ _ _ _ => ExecPreviewRan_fields | RunSpawnedPayload _ _ => RunSpawned_fields
  | MemoryPayload _ => MemoryChanged_fields | HistoryCompactedPayload _ _ _ => HistoryCompacted_fields
  | ModelFallbackPayload _ _ _ _ => ModelFallback_fields | HookFiredPayload _ _ => HookFired_fields
  | PeriodicPromptFiredPayload _ _ => PeriodicPromptFired_fields
  | PermissionDeniedPayload _ _ _ _ => PermissionDenied_fields
  | SessionLabelsChangedPayload _ => SessionLabelsChanged_fields | RawPayload _ => []
  end.

(** ** Decoding *)

Section decoding.
Context `{JsonText}.

Lemma strings_value l : strings_of (JStr <$> l) = Some l.
Proof. unfold strings_of. induction l as [|x l IH]; [done|]. by rewrite fmap_cons; cbn [mapM]; simpl; rewrite IH. Qed.

Lemma map_value (l : list (string * string)) :
  entries_of ((λ kv, (kv.1, JStr kv.2)) <$> l) = Some l.
Proof. unfold entries_of. induction l as [|[k x] l IH]; [done|]. by rewrite fmap_cons; cbn [mapM]; simpl; rewrite IH. Qed.

Lemma ordered_entries (m : gmap string string) :
  NoDup (order_by_text fst (map_to_list m)).*1 ∧ list_to_map (order_by_text fst (map_to_list m)) = m.
Proof.
  assert (order_by_text fst (map_to_list m) ≡ₚ map_to_list m) as Hp by (unfold order_by_text; apply merge_sort_Permutation).
  assert (NoDup (order_by_text fst (map_to_list m)).*1) as Hnd by (rewrite Hp; apply NoDup_fst_map_to_list).
  split; [done|]. rewrite (list_to_map_proper _ (map_to_list m)) by done. apply list_to_map_to_list.
Qed.

(** Evaluates everything but the widths of integers. *)
Ltac eval_wire := cbv -[fits32 fits64 content_text strings_of entries_of all_strings string_entries list_to_map order_by_text map_to_list list_fmap].
Ltac split_members :=
  unfold payload_members, opt_strings, opt_field, opt_int;
  repeat match goal with
  | |- context [bool_decide (?x = ?y)] =>
      is_var x; destruct (bool_decide_reflect (x = y)); [subst x|]
  end.

Lemma labels_message o l : entries_of o = Some l →
  proto_message SessionLabelsChanged_fields [("labels", JObj o)] = Some [("labels", PMap (list_to_map l))].
Proof. intros E. cbv -[entries_of list_to_map]. by rewrite E. Qed.

Lemma proto_payload p : (∀ b, p ≠ RawPayload b) →
  proto_message (descriptor_of p) (payload_members p) =
  if forallb fits32 (ints32 p) && forallb fits64 (ints64 p) then Some (message_of p) else None.
Proof.
  destruct p as [| | | | | | | | |? [text choices]| | | |[res kind name prov ep msg epoch]| | |[key ty id val]| | | | |? ? [|] ?|labels|b];
    intros Hraw; try (by destruct (Hraw b)).
  all: cbn [qText qChoices rep_resource rep_kind rep_name rep_provider rep_endpoint rep_message rep_epoch
            mep_key mep_updated_by_type mep_updated_by_id mep_value_json payload_members] in *.
  24: { etransitivity; [apply labels_message, map_value|]. by rewrite (proj2 (ordered_entries labels)). }
  all: split_members; eval_wire; try reflexivity.
  all: try (repeat match goal with |- context [if ?b then _ else _] => destruct b eqn:? end; done).
  - change (list_fmap string json JStr choices) with (JStr <$> choices). by rewrite strings_value.
Qed.

Lemma all_strings_map l : all_strings (JStr <$> l) = true.
Proof. apply forallb_forall. intros x Hx. apply list_elem_of_In, list_elem_of_fmap in Hx as (s & -> & _). done. Qed.
Lemma string_entries_map (m : gmap string string) :
  string_entries ((λ kv, (kv.1, JStr kv.2)) <$> order_by_text fst (map_to_list m)) = true.
Proof.
  unfold string_entries. apply andb_true_iff. split.
  - apply bool_decide_eq_true. rewrite <-list_fmap_compose. apply (proj1 (ordered_entries m)).
  - replace (_.*2) with (JStr <$> (order_by_text fst (map_to_list m)).*2); [apply all_strings_map|].
    by rewrite <-!list_fmap_compose.
Qed.

Lemma member_kinds p : (∀ b, p ≠ RawPayload b) → kind_ok (TMessage (descriptor_of p)) (JObj (payload_members p)) = true.
Proof.
  destruct p as [| | | | | | | | |? [text choices]| | | |[res kind name prov ep msg epoch]| | |[key ty id val]| | | | |? ? [|] ?|labels|b];
    intros Hraw; try (by destruct (Hraw b)).
  all: cbn [qText qChoices rep_resource rep_kind rep_name rep_provider rep_endpoint rep_message rep_epoch
            mep_key mep_updated_by_type mep_updated_by_id mep_value_json payload_members] in *.
  all: split_members; try (vm_compute; reflexivity).
  - transitivity (all_strings (JStr <$> choices) && true && true); [reflexivity|]. by rewrite all_strings_map.
  - transitivity (string_entries ((λ kv, (kv.1, JStr kv.2)) <$> order_by_text fst (map_to_list labels)) && true);
      [reflexivity|]. by rewrite string_entries_map.
Qed.

Context `{ProtojsonOk}.

(** A stored payload decodes as the message of its type. *)
Lemma decodeAs_stored p wrap : (∀ b, p ≠ RawPayload b) → plain_json (JObj (payload_members p)) = true →
  decodeAs p (descriptor_of p) wrap =
  if forallb fits32 (ints32 p) && forallb fits64 (ints64 p) then Some (wrap (message_of p)) else None.
Proof.
  intros Hraw Hp. assert (stored_json p = Some (JObj (payload_members p))) as E by (destruct p; try done; by destruct (Hraw bytes)).
  unfold decodeAs. rewrite E, Unmarshal_object, proto_payload by (done || by apply member_kinds). by destruct (_ && _).
Qed.

(** The variant of a kind, and only it, carries the payload. *)
Lemma payloadFromDomain_stored kind p : kind ∈ payload_kinds p → plain_json (JObj (payload_members p)) = true →
  if forallb fits32 (ints32 p) && forallb fits64 (ints64 p)
  then ∃ v, payloadFromDomain kind p = Some v ∧ EventKind v = kind ∧ variant_message v = message_of p
  else payloadFromDomain kind p = None.
Proof.
  intros Hk Hp. assert (∀ b, p ≠ RawPayload b) as Hraw by (intros b ->; inversion Hk).
  assert (∃ wrap, payloadFromDomain kind p = decodeAs p (descriptor_of p) wrap ∧
                  ∀ m, EventKind (wrap m) = kind ∧ variant_message (wrap m) = m) as (wrap & -> & Hw).
  { destruct p; simpl in Hk; repeat (apply elem_of_cons in Hk as [->|Hk]);
      try (by apply elem_of_nil in Hk); eexists; (split; [reflexivity|]); intros m; by split. }
  rewrite decodeAs_stored by done. destruct (_ && _); [|done]. eexists. split; [done|]. apply Hw.
Qed.

(** Kinds outside the thirty are refused. *)
Definition known_kinds : list string :=
  [EventKindUserMessage; EventKindAnnotation; EventKindRunStarted; EventKindStepStarted; EventKindTextDelta;
   EventKindReasoningDelta; EventKindToolCallStart; EventKindToolResult; EventKindStepFinished; EventKindRunAwaiting;
   EventKindRunCompleted; EventKindRunFailed; EventKindRunCancelled; EventKindResourceRequested;
   EventKindResourceProvisioning; EventKindResourceReady; EventKindResourceFailed; EventKindResourceSuspended;
   EventKindResourceTerminating; EventKindResourceTerminated; EventKindExecPreviewRan; EventKindRunSpawned;
   EventKindMemorySet; EventKindMemoryDeleted; EventKindPermissionDenied; EventKindHistoryCompacted;
   EventKindModelFallback; EventKindHookFired; EventKindPeriodicPromptFired; EventKindSessionLabelsChanged].

Lemma payloadFromDomain_unknown kind p : kind ∉ known_kinds → payloadFromDomain kind p = None.
Proof.
  intros Hk. assert (∀ k, k ∈ known_kinds → bool_decide (kind = k) = false) as E
    by (intros k ?; apply bool_decide_eq_false_2; congruence).
  unfold payloadFromDomain. by rewrite !E by (apply (bool_decide_eq_true_1 _); reflexivity).
Qed.

(** C33: what a client is told of an event.  Whatever the program writes to the
    log, under the kind of its payload, reaches a client as the variant of that
    name with the value of every field of the payload, whether the stored JSON
    carries the field or leaves a zero value out; the event keeps its session,
    number, time and actor.  A number that does not fit the 32-bit field of its
    message, and a kind that is none of the thirty, is an error and not a
    shortened event. *)
Theorem wire_faithful e :
  plain_json (JObj (payload_members (ev_payload e))) = true →
  Forall (λ z, fits64 z = true) (ints64 (ev_payload e)) →
  (ev_kind e ∈ payload_kinds (ev_payload e) →
     (Forall (λ z, - 2 ^ 31 ≤ z < 2 ^ 31)%Z (ints32 (ev_payload e)) →
        ∃ v, eventToProto e = Some (MkSessionEvent (ev_session e) (ev_seq e) (ev_ts e) (ev_actor e) v) ∧
             EventKind v = ev_kind e ∧ variant_message v = message_of (ev_payload e)) ∧
     (Exists (λ z, ¬ (- 2 ^ 31 ≤ z < 2 ^ 31))%Z (ints32 (ev_payload e)) → eventToProto e = None)) ∧
  (ev_kind e ∉ known_kinds → eventToProto e = None).
Proof.
  intros Hp H64. unfold eventToProto. split; [|by intros Hk; rewrite payloadFromDomain_unknown].
  intros Hk. pose proof (payloadFromDomain_stored _ _ Hk Hp) as Hd.
  assert (forallb fits64 (ints64 (ev_payload e)) = true) as E64.
  { apply forallb_forall. intros z Hz%list_elem_of_In. by rewrite Forall_forall in H64; apply H64. }
  rewrite E64, andb_true_r in Hd. split.
  - intros H32. replace (forallb fits32 _) with true in Hd.
    + destruct Hd as (v & -> & ? & ?). by exists v.
    + symmetry. apply forallb_forall. intros z Hz%list_elem_of_In. rewrite Forall_forall in H32.
      apply bool_decide_eq_true. auto.
  - intros Hx. replace (forallb fits32 _) with false in Hd; [by rewrite Hd|].
    symmetry. apply not_true_iff_false. rewrite forallb_forall. intros Hall.
    apply Exists_exists in Hx as (z & Hz & Hn). apply list_elem_of_In, Hall, bool_decide_eq_true in Hz. done.
Qed.

(** What the API stores of a message reads back as that message. *)
Lemma payload_roundtrip text : valid_utf8 text = true → JsonTextOk →
  (∃ p, payloadToDomain (Some (Some (EventPayload_UserMessage [("text", PString text)]))) = Ok (EventKindUserMessage, p) ∧
        payloadFromDomain EventKindUserMessage p = Some (EventPayload_UserMessage [("text", PString text)])) ∧
  (∃ p, payloadToDomain (Some (Some (EventPayload_Annotation [("text", PString text)]))) = Ok (EventKindAnnotation, p) ∧
        payloadFromDomain EventKindAnnotation p = Some (EventPayload_Annotation [("text", PString text)])).
Proof.
  intros Ht Hj. destruct (Marshal_text "text" text) as (obj & Hm & Hp & Hk & Hd); [done..|].
  assert (∀ wrap, decodeAs (RawPayload (marshal (JObj obj))) [("text", TString)] wrap = Some (wrap [("text", PString text)])) as E.
  { intros wrap. unfold decodeAs, stored_json. by rewrite unmarshal_marshal_json, Unmarshal_object, Hd. }
  split; eexists; (split; [cbn [payloadToDomain]; unfold stored_message; by rewrite Hm|]); apply (E _).
Qed.

(** A message comes back as it was sent.  When a caller appends a user
    message or an annotation to a session of its tenant, the log gains exactly
    one event, and what a client is sent for it is the message itself, under the
    returned number and the caller's actor; a payload of another variant, or
    none, is refused and the store stays as it was. *)
Theorem append_reads_back who a id s text p d :
  JsonTextOk → gapless d → who = Some a → session_of d (auTenant a) id = Some s → (se_last_seq s < int64_max)%Z →
  valid_utf8 text = true →
  (p = EventPayload_UserMessage [("text", PString text)] ∨ p = EventPayload_Annotation [("text", PString text)] →
   ∃ d' e, AppendPayload who id (Some (Some p)) d = (d', Ok (se_last_seq s + 1)%Z) ∧
     session_log d' id = session_log d id ++ [e] ∧
     eventToProto e = Some (MkSessionEvent id (se_last_seq s + 1) (ev_ts e) (auActor a) p)) ∧
  (EventKind p ∉ [EventKindUserMessage; EventKindAnnotation] →
   AppendPayload who id (Some (Some p)) d = (d, Err (CodeError "invalid_argument" "unknown payload variant"))) ∧
  AppendPayload who id (Some None) d = (d, Err (CodeError "invalid_argument" "unknown payload variant")) ∧
  AppendPayload who id None d = (d, Err (CodeError "invalid_argument" "missing payload")).
Proof.
  intros Hj Hg -> Hs Hlt Ht.
  assert (resolveSessionTenant (Some a) id d = (d, Ok (auTenant a, a))) as Hr.
  { apply session_of_Some in Hs as [Hs Et].
    unfold resolveSessionTenant, identityFrom, of_option, stored, attempt, SessionTenant, mbind, M_bind, get, of_option, mret, M_ret.
    simpl. rewrite Hs. simpl. rewrite Et. by rewrite bool_decide_eq_true_2. }
  unfold AppendPayload, mbind, M_bind. rewrite Hr. split_and!; [|intros Hk; destruct p; try done; simpl in Hk; set_solver|done..].
  intros Hp. assert (∃ k q, payloadToDomain (Some (Some p)) = Ok (k, q) ∧ payloadFromDomain k q = Some p) as (k & q & -> & Hq).
  { destruct (payload_roundtrip text Ht Hj) as [(q & H1' & H2') (q' & H3' & H4')]. destruct Hp as [->| ->]; eauto. }
  pose proof (Append_spec Pool (auTenant a) id (NewEvent (auActor a) k q) d Hg) as Ha. rewrite Hs in Ha.
  specialize (Ha Hlt). unfold stored, attempt, mbind, M_bind. destruct (Append _ _ _ _ _) as [d' r] eqn:E.
  destruct Ha as (-> & _ & Hlog & _). eexists _, _. split; [done|]. split; [done|].
  unfold eventToProto, event_row, NewEvent. simpl. by rewrite Hq.
Qed.
End decoding.

(** ** Policies *)

Lemma int32_id z : (- 2 ^ 31 ≤ z < 2 ^ 31)%Z → int32 z = z.
Proof. intros Hz. unfold int32. rewrite Z.mod_small by lia. lia. Qed.
Lemma int32_range z : (- 2 ^ 31 ≤ int32 z < 2 ^ 31)%Z.
Proof. unfold int32. pose proof (Z.mod_pos_bound (z + 2 ^ 31) (2 ^ 32)). lia. Qed.

(** Policies on the wire.  The policy a run is shown with, sent back as the
    policy of a new run, is that policy exactly when its number of children fits
    32 bits and it is not zero beside a non-empty list of allowed tools; in the
    remaining case it comes back with the default number of children and is
    otherwise unchanged.  Tools and kinds of resources always survive. *)
Theorem policy_roundtrip p :
  let q := policyFromProto (Some (policyToProto p)) in
  (q = p ↔ (- 2 ^ 31 ≤ MaxChildren p < 2 ^ 31)%Z ∧ (AllowTools p = [] ∨ MaxChildren p ≠ 0%Z)) ∧
  AllowTools q = AllowTools p ∧ DenyTools q = DenyTools p ∧ ResourceKinds q = ResourceKinds p ∧
  ChildInherit q = ChildInherit p ∧
  (AllowTools p ≠ [] → int32 (MaxChildren p) = 0%Z → MaxChildren q = MaxChildren DefaultRunPolicy).
Proof.
  destruct p as [allow deny kinds n inherit]. unfold policyToProto. cbn [policyFromProto AllowTools MaxChildren].
  pose proof (int32_range n) as Hr. pose proof (int32_id n) as Hid.
  destruct (bool_decide_reflect (allow = [])) as [->|Ha]; [|destruct (bool_decide_reflect (int32 n = 0%Z)) as [Hz|Hz]];
    cbn [AllowTools DenyTools ResourceKinds MaxChildren ChildInherit].
  - split; [split|done]; [intros [= E]; split; [lia|by left]|intros [Hn _]; by rewrite Hid].
  - split; [split|done]; [intros [= E]; subst n; done|intros [Hn [?|?]]; [done|]; by rewrite Hid in Hz].
  - split; [split|by split_and!]; [intros [= E]; split; [lia|right; congruence]|intros [Hn _]; by rewrite Hid].
Qed.
