(* ===== verification/Sdk.v ===== *)
(** * Event streams and the Go client ([http/session_handler.go], [sdk])

    The streaming end of the API and its consumer.  On the server,
    [eventHandler.Subscribe]: authenticate, resolve the session, flush a
    keepalive, then forward what the bus delivers, checking the key again before
    every event and on every tick.  In the client, [Subscription] with its
    reconnecting [Next], the paged [GetEvents], [AwaitRun], the label builder and
    the transport that puts the credentials on a request.

    Time and the network are inputs.  A [moment] is one turn of the server's
    [select]: what arrived, the tables at that time and whether the frame could
    be sent.  A [dial] is one attempt of the client to open a stream, answered by
    a refusal or by the frames the server will send before the stream ends.  The
    context of the subscription is cancelled when the dials are used up. *)
From S2P Require Import Prelude Policy Domain Text Store Strings GoJson EventLog Loop Waits Api Accounts Wire.

(** ** [eventHandler.Subscribe] *)

(** [SubscribeResponse]; no event is a keepalive. *)
Definition frame : Type := option SessionEvent.

Inductive stream_input := InEvent (e : Event) | InClosed | InRecheck | InDone.
Record moment := MkMoment { mo_input : stream_input; mo_world : World; mo_sent : bool }.

Definition errCanceled : err := ErrorText "context canceled".
Definition errSend : err := ErrorText "send failed".

Section server.
Context `{Sha256} `{JsonText} `{Protojson}.

Definition authenticated (token : string) (w : World) : bool :=
  match (Authenticate token w).2 with Ok _ => true | Err _ => false end.

Fixpoint subscribe_loop (token : string) (ms : list moment) : list frame * err :=
  match ms with
  | [] => ([], errCanceled)
  | m :: rest =>
      match mo_input m with
      | InClosed | InDone => ([], errCanceled)
      | InRecheck => if authenticated token (mo_world m) then subscribe_loop token rest else ([], errUnauthenticated)
      | InEvent e =>
          if negb (authenticated token (mo_world m)) then ([], errUnauthenticated)
          else match eventToProto e with
               | None => ([], CodeError "internal" "event encoding failed")
               | Some msg =>
                   if mo_sent m then let '(fs, end_) := subscribe_loop token rest in (Some msg :: fs, end_)
                   else ([], errSend)
               end
      end
  end.

(** [bus] is what the subscription at the event bus delivers; [flushed] says
    whether the keepalive could be sent. *)
Definition SubscribeEvents (authorization actorHeader : string) (session : SessionID) (from : Z) (w : World)
    (bus : TenantID → SessionID → Z → result (list moment)) (flushed : bool) : list frame * err :=
  match (authenticate authorization actorHeader w).2 with
  | Err e => ([], e)
  | Ok who =>
      match (resolveSessionTenant (Some who) session (w_db w)).2 with
      | Err e => ([], e)
      | Ok (org, _) =>
          match bus org session from with
          | Err e => ([], mapStoreErr e)
          | Ok ms =>
              if flushed then let '(fs, end_) := subscribe_loop (http_bearer authorization) ms in (None :: fs, end_)
              else ([], errSend)
          end
      end
  end.

(** ** [eventHandler.Get] *)

(** A page of messages; one event that does not convert fails the page. *)
Definition GetPage (tenant : TenantID) (session : SessionID) (fromSeq : Z) (pageToken : string) (pageSize toSeq : Z) (d : DB)
  : result (list SessionEvent * string) :=
  match GetEvents tenant session fromSeq pageToken pageSize toSeq d with
  | Err e => Err e
  | Ok (page, next) =>
      match mapM eventToProto page with
      | None => Err (CodeError "unknown" "")
      | Some events => Ok (events, next)
      end
  end.

(** [Client.GetEvents]: follow the tokens; [None] is out of fuel. *)
Fixpoint get_pages (fuel : nat) (tenant : TenantID) (session : SessionID) (fromSeq toSeq pageSize : Z) (token : string) (d : DB)
  : option (result (list SessionEvent)) :=
  match fuel with
  | O => None
  | S fuel' =>
      match GetPage tenant session fromSeq token pageSize toSeq d with
      | Err e => Some (Err e)
      | Ok (page, next) =>
          if bool_decide (next = "") then Some (Ok page)
          else match get_pages fuel' tenant session fromSeq toSeq pageSize next d with
               | Some (Ok rest) => Some (Ok (page ++ rest))
               | Some (Err e) => Some (Err e)
               | None => None
               end
      end
  end.
End server.

(** ** [Subscription] *)

(** A stream is the frames still to be received and its final error. *)
Definition stream : Type := list frame * option err.

Record Subscription := MkSubscription {
  su_session : SessionID; su_last : Z; su_reconnect : bool; su_stream : option stream;
}.

Inductive dial := Refused (e : err) | Connected (serve : Z → stream).

(** [Subscription.open] *)
Definition open (serve : Z → stream) (s : Subscription) : Subscription :=
  MkSubscription (su_session s) (su_last s) (su_reconnect s) (Some (serve (su_last s))).

(** [Client.Subscribe]; the first dial is not repeated. *)
Definition SdkSubscribe (session : SessionID) (fromSeq : Z) (reconnect : option bool) (dials : list dial)
  : result Subscription * list dial :=
  let s := MkSubscription session fromSeq (default true reconnect) None in
  match dials with
  | [] => (Err errCanceled, [])
  | Refused e :: rest => (Err e, rest)
  | Connected serve :: rest => (Ok (open serve s), rest)
  end.

Definition LastSeq (s : Subscription) : Z := su_last s.
Definition CloseSubscription (s : Subscription) : Subscription :=
  MkSubscription (su_session s) (su_last s) (su_reconnect s) None.

(** [for s.stream.Receive() { ... }]: keepalives are skipped. *)
Fixpoint receive (fs : list frame) : option (SessionEvent * list frame) :=
  match fs with
  | [] => None
  | Some ev :: rest => Some (ev, rest)
  | None :: rest => receive rest
  end.

(** One stream of [Next]: an event, an error, or [None] to dial again. *)
Definition read_stream (st : stream) (s : Subscription) : Subscription * option (result SessionEvent) :=
  match receive st.1 with
  | Some (ev, rest) =>
      (MkSubscription (su_session s) (sv_seq ev) (su_reconnect s) (Some (rest, st.2)), Some (Ok ev))
  | None =>
      let s' := MkSubscription (su_session s) (su_last s) (su_reconnect s) None in
      (s', if su_reconnect s then None
           else Some (Err (match st.2 with Some e => e | None => ErrorText "stream closed" end)))
  end.

Fixpoint redial (s : Subscription) (dials : list dial) : Subscription * list dial * result SessionEvent :=
  match dials with
  | [] => (s, [], Err errCanceled)
  | Refused e :: rest => if su_reconnect s then redial s rest else (s, rest, Err e)
  | Connected serve :: rest =>
      match read_stream (serve (su_last s)) s with
      | (s', Some r) => (s', rest, r)
      | (s', None) => redial s' rest
      end
  end.

Definition Next (s : Subscription) (dials : list dial) : Subscription * list dial * result SessionEvent :=
  match su_stream s with
  | None => redial s dials
  | Some st =>
      match read_stream st s with
      | (s', Some r) => (s', dials, r)
      | (s', None) => redial s' dials
      end
  end.

(** A consumer that calls [Next] up to [n] times and stops at an error. *)
Fixpoint consume (n : nat) (s : Subscription) (dials : list dial) : list SessionEvent * Subscription * list dial * option err :=
  match n with
  | O => ([], s, dials, None)
  | S n' =>
      match Next s dials with
      | (s', dials', Ok ev) => let '(evs, s'', dials'', e) := consume n' s' dials' in (ev :: evs, s'', dials'', e)
      | (s', dials', Err e) => ([], s', dials', Some e)
      end
  end.

(** ** [AwaitRun] *)

Record AwaitRunOptions := MkAwaitRunOptions {
  ao_timeout : Z; ao_states : list RunStateProto; ao_interval : Z;
}.
Definition await_timeout (o : AwaitRunOptions) : Z :=
  if bool_decide (ao_timeout o ≤ 0)%Z then (2 * 60 * 10 ^ 9)%Z else ao_timeout o.
Definition await_interval (o : AwaitRunOptions) : Z :=
  if bool_decide (ao_interval o ≤ 0)%Z then (50 * 10 ^ 6)%Z else ao_interval o.
Definition await_states (o : AwaitRunOptions) : list RunStateProto :=
  if bool_decide (ao_states o = [])
  then [RUN_STATE_COMPLETED; RUN_STATE_FAILED; RUN_STATE_CANCELLED; RUN_STATE_AWAITING]
  else ao_states o.

(** One turn of the loop: the clock, the context before the call, the answer of
    [GetRun], and the context after the pause. *)
Record poll := MkPoll { po_now : time; po_before : option err; po_answer : option RunProto; po_after : option err }.

Definition await_expired (id : RunID) (last : option RunProto) : option RunProto * option err :=
  match last with
  | None => (None, Some (ErrorText ("run " +:+ id +:+ ": timed out waiting (no read)")))
  | Some r => (Some r, Some (ErrorText ("run " +:+ id +:+ ": timed out waiting for terminal state")))
  end.

(** [None] is a loop still going when the polls are used up. *)
Fixpoint await_loop (id : RunID) (deadline : time) (want : list RunStateProto) (last : option RunProto) (polls : list poll)
  : option (option RunProto * option err) :=
  match polls with
  | [] => None
  | p :: rest =>
      if bool_decide (deadline ≤ po_now p)%Z then Some (await_expired id last)
      else
        match po_before p with
        | Some e => Some (last, Some e)
        | None =>
            let last' := match po_answer p with Some r => Some r | None => last end in
            if match po_answer p with Some r => bool_decide (rp_state r ∈ want) | None => false end
            then Some (last', None)
            else match po_after p with
                 | Some e => Some (last', Some e)
                 | None => await_loop id deadline want last' rest
                 end
        end
  end.

Definition AwaitRun (id : RunID) (o : AwaitRunOptions) (start : time) (polls : list poll)
  : option (option RunProto * option err) :=
  await_loop id (start + await_timeout o) (await_states o) None polls.

(** ** Labels *)

Definition LabelEq (key value : string) : LabelSelector := MkLabelSelector key "=" [value].
Definition LabelIn (key : string) (values : list string) : LabelSelector := MkLabelSelector key "in" values.

(** The builder holds a Go slice: a window of a backing array that other slices
    may share.  [append] writes into the array while there is room behind the
    window and copies it into one of twice the size otherwise. *)
Record slice := MkSlice { sl_array : nat; sl_len : nat }.
Notation arrays := (gmap nat (list LabelSelector * nat)) (only parsing).
Definition nil_slice : slice := MkSlice 0 0.

Definition slice_items (h : arrays) (s : slice) : list LabelSelector :=
  match h !! sl_array s with Some (a, _) => take (sl_len s) a | None => [] end.

Definition append_slice (h : arrays) (s : slice) (x : LabelSelector) : arrays * slice :=
  match h !! sl_array s with
  | Some (a, cap) =>
      if (sl_len s <? cap)%nat
      then (<[sl_array s := (take (sl_len s) a ++ [x] ++ drop (S (sl_len s)) a, cap)]> h, MkSlice (sl_array s) (S (sl_len s)))
      else let i := fresh (dom h ∪ {[0]}) in
           (<[i := (take (sl_len s) a ++ [x], (2 * cap)%nat)]> h, MkSlice i (S (sl_len s)))
  | None => let i := fresh (dom h ∪ {[0]}) in (<[i := ([x], 1%nat)]> h, MkSlice i 1)
  end.

(** [Labels.Eq], [Labels.In] and [Labels.Build] *)
Definition LabelsEq (h : arrays) (l : slice) (key value : string) : arrays * slice := append_slice h l (LabelEq key value).
Definition LabelsIn (h : arrays) (l : slice) (key : string) (values : list string) : arrays * slice :=
  append_slice h l (LabelIn key values).
Definition LabelsBuild (h : arrays) (l : slice) : list LabelSelector := slice_items h l.

(** ** The client *)

Record authTransport := MkAuthTransport { at_token : string; at_actor : string; at_base : string }.

(** [RoundTrip]: the headers of the cloned request and the transport it goes to. *)
Definition RoundTrip (t : authTransport) (headers : gmap string string) : gmap string string * string :=
  let h := if bool_decide (at_token t = "") then headers
           else <["Authorization" := "Bearer " +:+ at_token t]> headers in
  let h := if bool_decide (at_actor t = "") then h else <["X-Core-Actor" := at_actor t]> h in
  (h, at_base t).

(** The parts of an [http.Client] the SDK copies; [""] is a nil transport. *)
Record http_client := MkHttpClient { hc_transport : string; hc_timeout : Z; hc_redirect : string; hc_jar : string }.
Definition DefaultClient : http_client := MkHttpClient "" 0 "" "".
Definition DefaultTransport : string := "http.DefaultTransport".

Record SdkOptions := MkSdkOptions { so_url : string; so_key : string; so_actor : string; so_http : option http_client }.
Record Client := MkClient {
  cl_url : string; cl_key : string; cl_actor : string; cl_auth : authTransport; cl_timeout : Z; cl_redirect : string; cl_jar : string;
}.

Definition SdkNew (o : SdkOptions) : Client :=
  let base := default DefaultClient (so_http o) in
  let rt := if bool_decide (hc_transport base = "") then DefaultTransport else hc_transport base in
  MkClient (so_url o) (so_key o) (so_actor o) (MkAuthTransport (so_key o) (so_actor o) rt) (hc_timeout base)
    (hc_redirect base) (hc_jar base).

Definition WithActor (c : Client) (actor : string) : Client :=
  SdkNew (MkSdkOptions (cl_url c) (cl_key c) actor (Some (MkHttpClient "" (cl_timeout c) "" ""))).
