(* ===== verification/SdkSpec.v ===== *)
(** * What a client sees of a session

    [EventFeed] is what a stream promises the client: the events it carries are a
    prefix of the log behind the number that was asked for.  The client's theorem
    is proved against it ([next_exactly_once]), the server's handler discharges it
    ([server_feed]), and [client_sees_log] puts bus, handler, conversion and
    client together.

    [stream_authority]: a stream is opened, and kept, only with a key that is
    valid; [get_events_range]: the paged read returns the range that was asked
    for; [await_run_returns]: [AwaitRun] ends, and what it reports; [client_identity]:
    who the server takes a client for. *)
From S2P Require Import Prelude Policy Domain Text Store Strings GoJson EventLog Loop Waits Api Accounts AccountSpec TunnelGuarantees Wire Sdk.

(** ** The promise of a stream *)

Definition frame_events (fs : list frame) : list SessionEvent := omap id fs.

(** The log as a client counts it. *)
Definition numbered (log : list SessionEvent) : Prop := sv_seq <$> log = seqZ 1 (Z.of_nat (length log)).

Class EventFeed (log : list SessionEvent) (serve : Z → stream) : Prop :=
  feed_prefix from : (0 ≤ from)%Z → frame_events (serve from).1 `prefix_of` drop (Z.to_nat from) log.

(** A stream that is up: it carries an event whenever there is one. *)
Definition live (log : list SessionEvent) (serve : Z → stream) : Prop :=
  ∀ from, (0 ≤ from < Z.of_nat (length log))%Z → frame_events (serve from).1 ≠ [].

Definition feeds (log : list SessionEvent) (d : dial) : Prop :=
  match d with Refused _ => True | Connected serve => EventFeed log serve end.

Section client.
Context (log : list SessionEvent) (Hnum : numbered log).

Definition sub_ok (s : Subscription) : Prop :=
  (0 ≤ su_last s)%Z ∧
  match su_stream s with
  | Some st => frame_events st.1 `prefix_of` drop (Z.to_nat (su_last s)) log
  | None => True
  end.

Lemma receive_events fs :
  match receive fs with
  | Some (ev, rest) => frame_events fs = ev :: frame_events rest
  | None => frame_events fs = []
  end.
Proof. induction fs as [|[ev|] fs IH]; done. Qed.

Lemma numbered_at (n : Z) ev rest : (0 ≤ n)%Z → drop (Z.to_nat n) log = ev :: rest →
  sv_seq ev = (n + 1)%Z ∧ rest = drop (Z.to_nat (n + 1)) log.
Proof.
  intros Hn Hd. assert (log !! Z.to_nat n = Some ev) as Hl.
  { rewrite <-(Nat.add_0_r (Z.to_nat n)), <-lookup_drop, Hd. done. }
  split.
  - pose proof (list_lookup_fmap sv_seq log (Z.to_nat n)) as Hs. rewrite Hl, Hnum in Hs.
    apply lookup_seqZ in Hs as [Hs _]. lia.
  - rewrite (drop_S _ _ _ Hl) in Hd. injection Hd as <-. f_equal. lia.
Qed.

(** One stream of [Next]. *)
Lemma read_stream_ok st s s' r :
  (0 ≤ su_last s)%Z → frame_events st.1 `prefix_of` drop (Z.to_nat (su_last s)) log →
  read_stream st s = (s', r) → sub_ok s' ∧ su_reconnect s' = su_reconnect s ∧
  match r with
  | Some (Ok ev) => log !! Z.to_nat (su_last s) = Some ev ∧ su_last s' = (su_last s + 1)%Z
  | _ => su_last s' = su_last s ∧ frame_events st.1 = [] ∧ su_stream s' = None ∧
         (su_reconnect s = true → r = None)
  end.
Proof.
  intros Hl Hp. unfold read_stream. pose proof (receive_events st.1) as Hr.
  destruct (receive st.1) as [[ev rest]|]; intros [= <- <-].
  - rewrite Hr in Hp. destruct Hp as [k Hk].
    destruct (numbered_at _ _ _ Hl Hk) as [Hs Hrest].
    unfold sub_ok. simpl. rewrite Hs. split_and!; [lia| |done| |done].
    + rewrite <-Hrest. by exists k.
    + rewrite <-(Nat.add_0_r (Z.to_nat _)), <-lookup_drop. by rewrite Hk.
  - unfold sub_ok. simpl. destruct (su_reconnect s); by split_and!.
Qed.

(** What one [Next] does, whichever streams it goes through. *)
Definition next_ok (s : Subscription) (out : Subscription * list dial * result SessionEvent) : Prop :=
  let '(s', dials', r) := out in
  sub_ok s' ∧ Forall (feeds log) dials' ∧ su_reconnect s' = su_reconnect s ∧
  match r with
  | Ok ev => log !! Z.to_nat (su_last s) = Some ev ∧ su_last s' = (su_last s + 1)%Z
  | Err _ => su_last s' = su_last s
  end.

Lemma next_ok_same s s' out :
  su_last s' = su_last s → su_reconnect s' = su_reconnect s → next_ok s' out → next_ok s out.
Proof. unfold next_ok. intros -> ->. done. Qed.

Lemma redial_ok s dials : sub_ok s → Forall (feeds log) dials → next_ok s (redial s dials).
Proof.
  revert s. induction dials as [|[e|serve] dials IH]; intros s Hs Hd; simpl; [by unfold next_ok; split_and!|..];
    apply Forall_cons in Hd as [Hf Hd].
  - destruct (su_reconnect s) eqn:E; [by apply IH|by unfold next_ok; split_and!].
  - destruct (read_stream _ s) as [s' r] eqn:E.
    apply read_stream_ok in E as (Hs' & Hr & Hout); [|apply Hs|apply Hf, Hs].
    destruct r as [[ev|e]|]; [by unfold next_ok; split_and!; destruct Hout|by unfold next_ok; split_and!; destruct Hout|].
    destruct Hout as (Hl & _). eapply next_ok_same; [done..|]. by apply IH.
Qed.

Lemma Next_ok s dials : sub_ok s → Forall (feeds log) dials → next_ok s (Next s dials).
Proof.
  intros Hs Hd. unfold Next. destruct (su_stream s) as [st|] eqn:Est; [|by apply redial_ok].
  destruct (read_stream st s) as [s' r] eqn:E. destruct Hs as [Hl Hst]. rewrite Est in Hst.
  apply read_stream_ok in E as (Hs' & Hr & Hout); [|done..].
  destruct r as [[ev|e]|]; [by unfold next_ok; split_and!; destruct Hout|by unfold next_ok; split_and!; destruct Hout|].
  destruct Hout as (Hl' & _). eapply next_ok_same; [done..|]. by apply redial_ok.
Qed.

(** Sooner or later a stream that is up answers. *)
Lemma redial_progress s dials serve :
  sub_ok s → Forall (feeds log) dials → su_reconnect s = true → (su_last s < Z.of_nat (length log))%Z →
  Connected serve ∈ dials → live log serve → ∃ ev, (redial s dials).2 = Ok ev.
Proof.
  revert s. induction dials as [|d dials IH]; intros s Hs Hd Hr Hlt Hin Hlive; [by apply elem_of_nil in Hin|].
  apply Forall_cons in Hd as [Hf Hd]. destruct d as [e|serve']; simpl.
  { rewrite Hr. apply elem_of_cons in Hin as [|Hin]; [done|]. by apply IH. }
  destruct (read_stream _ s) as [s' r] eqn:E.
  apply read_stream_ok in E as (Hs' & Hr' & Hout); [|apply Hs|apply Hf, Hs].
  destruct r as [[ev|e]|]; [by eexists|naive_solver|]. destruct Hout as (Hl & He & _).
  apply elem_of_cons in Hin as [[= <-]|Hin].
  - destruct (Hlive (su_last s)); [by split; [apply Hs|]|done].
  - apply IH; congruence || done.
Qed.

Lemma Next_progress s dials serve :
  sub_ok s → Forall (feeds log) dials → su_reconnect s = true → (su_last s < Z.of_nat (length log))%Z →
  Connected serve ∈ dials → live log serve → ∃ ev, (Next s dials).2 = Ok ev ∧ log !! Z.to_nat (su_last s) = Some ev.
Proof.
  intros Hs Hd Hr Hlt Hin Hlive. assert (∃ ev, (Next s dials).2 = Ok ev) as [ev Hev].
  { unfold Next. destruct (su_stream s) as [st|] eqn:Est; [|by eapply redial_progress].
    destruct (read_stream st s) as [s' r] eqn:E. pose proof Hs as [Hl Hst]. rewrite Est in Hst.
    apply read_stream_ok in E as (Hs' & Hr' & Hout); [|done..].
    destruct r as [[ev|e]|]; [by eexists|naive_solver|]. eapply redial_progress; try done; naive_solver congruence. }
  exists ev. split; [done|]. pose proof (Next_ok s dials Hs Hd) as Hn. destruct (Next s dials) as [[? ?] ?]. simpl in *. subst. apply Hn.
Qed.

Lemma consume_ok n s dials : sub_ok s → Forall (feeds log) dials →
  let '(evs, s', dials', e) := consume n s dials in
  evs = take (length evs) (drop (Z.to_nat (su_last s)) log) ∧ su_last s' = (su_last s + Z.of_nat (length evs))%Z ∧
  (e = None → length evs = n) ∧ sub_ok s' ∧ Forall (feeds log) dials' ∧ su_reconnect s' = su_reconnect s.
Proof.
  revert s dials. induction n as [|n IH]; intros s dials Hs Hd; simpl; [split_and!; by (done || lia)|].
  pose proof (Next_ok s dials Hs Hd) as Hn. destruct (Next s dials) as [[s' dials'] [ev|e]]; simpl in Hn.
  - destruct Hn as (Hs' & Hd' & Hr & Hev & Hl). specialize (IH s' dials' Hs' Hd').
    destruct (consume n s' dials') as [[[evs s''] dials''] e]. destruct IH as (IH1 & IH2 & IH3 & IH4 & IH5 & IH6).
    split_and!; [|simpl; lia|intros He; simpl; f_equal; auto|done|done|congruence].
    rewrite (drop_S _ _ _ Hev). simpl. f_equal. rewrite IH1 at 1. do 2 f_equal. destruct Hs. lia.
  - destruct Hn as (? & ? & ? & Hl). split_and!; try done. simpl. lia.
Qed.
End client.

(** ** The server's side *)

Section server.
Context `{Sha256} `{JsonText} `{Protojson}.

Definition moment_events (ms : list moment) : list Event :=
  omap (λ m, match mo_input m with InEvent e => Some e | _ => None end) ms.

(** The handler sends the events it is given, in order, until it stops. *)
Lemma loop_prefix token ms evs log :
  moment_events ms `prefix_of` evs → mapM eventToProto evs = Some log →
  frame_events (subscribe_loop token ms).1 `prefix_of` log.
Proof.
  revert evs log. induction ms as [|[inp w sent] ms IH]; intros evs log Hp Hm; [apply prefix_nil|].
  destruct inp as [e| | |]; cbn [subscribe_loop mo_input mo_world mo_sent]; try apply prefix_nil.
  - change (moment_events _) with (e :: moment_events ms) in Hp. destruct Hp as [k ->]. cbn in Hm.
    destruct (negb _); [apply prefix_nil|]. destruct (eventToProto e) as [msg|]; [|done].
    destruct sent; [|apply prefix_nil]. cbn in Hm.
    destruct (mapM eventToProto (moment_events ms ++ k)) as [rest|] eqn:E; [|done]. injection Hm as <-.
    specialize (IH _ rest (prefix_app_r _ _ k (reflexivity _)) E).
    destruct (subscribe_loop token ms) as [fs end_]. by apply prefix_cons.
  - destruct (authenticated token w); [|apply prefix_nil]. by eapply IH.
Qed.

(** What the bus delivers: the events of a subscription over a log that grows
    towards [final], cut anywhere. *)
Definition bus_ok (final : DB) (tenant : TenantID) (session : SessionID)
    (bus : TenantID → SessionID → Z → result (list moment)) : Prop :=
  ∀ from ms, (0 ≤ from)%Z → bus tenant session from = Ok ms →
  ∃ fuel wakes d out n,
    Forall (λ d, gapless d ∧ (∃ n, owns_log d tenant session n) ∧ (length (session_log d session) < fuel)%nat) wakes ∧
    StronglySorted (λ d d', session_log d session `prefix_of` session_log d' session) wakes ∧ last wakes = Some d ∧
    session_log d session `prefix_of` session_log final session ∧
    subscribe fuel tenant session from wakes = Some (out, n) ∧ moment_events ms `prefix_of` out.

(** One request of the client as the handler gets it. *)
Record request := MkRequest {
  rq_authorization : string; rq_actor : string; rq_world : World;
  rq_bus : TenantID → SessionID → Z → result (list moment); rq_flushed : bool;
}.
Definition serve (session : SessionID) (c : Z → request) (from : Z) : stream :=
  let '(fs, e) := SubscribeEvents (rq_authorization (c from)) (rq_actor (c from)) session from (rq_world (c from))
                    (rq_bus (c from)) (rq_flushed (c from)) in (fs, Some e).

(** The session belongs to [tenant] whenever it is there. *)
Definition request_ok (final : DB) (tenant : TenantID) (session : SessionID) (r : request) : Prop :=
  (∀ s, db_sessions (w_db (rq_world r)) !! session = Some s → se_tenant s = tenant) ∧ bus_ok final tenant session (rq_bus r).

Lemma mapM_prefix (l k : list Event) log : l `prefix_of` k → mapM eventToProto k = Some log →
  ∃ log', mapM eventToProto l = Some log' ∧ log' `prefix_of` log.
Proof.
  revert k log. induction l as [|e l IH]; intros k log [x ->] Hm; [by exists []; split; [|apply prefix_nil]|].
  cbn in *. destruct (eventToProto e) as [m|]; [|done]. cbn in *.
  destruct (mapM eventToProto (l ++ x)) as [rest|] eqn:E; [|done]. injection Hm as <-.
  destruct (IH (l ++ x) rest) as (log' & -> & Hp); [by apply prefix_app_r|done|].
  exists (m :: log'). split; [done|by apply prefix_cons].
Qed.
Lemma mapM_drop n (l : list Event) log : mapM eventToProto l = Some log → mapM eventToProto (drop n l) = Some (drop n log).
Proof.
  revert n log. induction l as [|e l IH]; intros n log Hm; cbn in Hm; [by injection Hm as <-; rewrite !drop_nil|].
  destruct (eventToProto e) as [m|] eqn:E; [|done]. cbn in Hm. destruct (mapM eventToProto l) as [rest|] eqn:El; [|done].
  injection Hm as <-. destruct n as [|n]; cbn; [by rewrite E; cbn; rewrite El|]. by apply IH.
Qed.

(** The handler keeps the promise. *)
Lemma server_feed final tenant session log c :
  mapM eventToProto (session_log final session) = Some log → (∀ from, request_ok final tenant session (c from)) →
  EventFeed log (serve session c).
Proof.
  intros Hlog Hc from Hf. unfold serve, SubscribeEvents. destruct (Hc from) as [Hten Hbus].
  destruct (c from) as [auth actor w bus flushed]. cbn [rq_authorization rq_actor rq_world rq_bus rq_flushed] in *.
  destruct (authenticate auth actor w).2 as [who|e]; [|apply prefix_nil].
  destruct (resolveSessionTenant (Some who) session (w_db w)).2 as [[org a]|e] eqn:Hr; [|apply prefix_nil].
  assert (org = tenant) as ->.
  { revert Hr. unfold resolveSessionTenant, identityFrom, of_option, stored, attempt, SessionTenant, mbind, M_bind, get, mret, M_ret.
    simpl. destruct (db_sessions (w_db w) !! session) as [s|] eqn:Es; simpl; [|done].
    case_bool_decide; simpl; [|done]. intros [= <- <-]. by apply Hten. }
  destruct (bus tenant session from) as [ms|e] eqn:Eb; [|apply prefix_nil]. destruct flushed; [|apply prefix_nil].
  destruct (Hbus from ms Hf Eb) as (fuel & wakes & d & out & n & Hw & Hsorted & Hlast & Hpre & Hsub & Hms).
  pose proof (subscribe_spec fuel tenant session from wakes d Hw Hsorted Hf Hlast) as Hout. rewrite Hsub in Hout.
  injection Hout as ->. destruct (mapM_prefix _ _ _ Hpre Hlog) as (log' & Hlog' & Hp').
  pose proof (loop_prefix (http_bearer auth) ms _ _ Hms (mapM_drop (Z.to_nat from) _ _ Hlog')) as Hl.
  destruct (subscribe_loop _ ms) as [fs e]. cbn [fst] in *. change (frame_events (None :: fs)) with (frame_events fs).
  etrans; [done|]. destruct Hp' as [k ->]. rewrite drop_app. by apply prefix_app_r.
Qed.

Lemma mapM_seqs (l : list Event) log : mapM eventToProto l = Some log → sv_seq <$> log = ev_seq <$> l ∧ length log = length l.
Proof.
  revert log. induction l as [|e l IH]; intros log Hm; cbn in Hm; [by injection Hm as <-|].
  destruct (eventToProto e) as [m|] eqn:E; [|done]. cbn in Hm. destruct (mapM eventToProto l) as [rest|]; [|done].
  injection Hm as <-. destruct (IH rest eq_refl) as [IH1 IH2]. rewrite !fmap_cons, IH1. simpl. rewrite IH2. split; [|done].
  f_equal. unfold eventToProto in E. destruct (payloadFromDomain _ _); [|done]. by injection E as <-.
Qed.

Lemma wire_numbered final tenant session n log :
  gapless final → owns_log final tenant session n → mapM eventToProto (session_log final session) = Some log → numbered log.
Proof.
  intros Hg Ho Hm. destruct (gapless_log final tenant session n Hg Ho) as (Hs & Hn & Hl).
  destruct (mapM_seqs _ _ Hm) as [Hq Hlen]. unfold numbered. rewrite Hq, Hs, Hlen, Hl. f_equal. lia.
Qed.

(** A dial that is refused, or that the server answers. *)
Definition server_dial (final : DB) (tenant : TenantID) (session : SessionID) (d : dial) : Prop :=
  match d with
  | Refused _ => True
  | Connected f => ∃ c, f = serve session c ∧ ∀ from, request_ok final tenant session (c from)
  end.

(** C8: what a client of the SDK sees of a session, from the table of events to
    the calls of [Next].  However often the connection drops, is refused, or is
    ended by the server, and whatever is appended meanwhile, the events the client
    gets are those of the log behind the number it started from: the first is the
    next one, none is left out, none comes twice, and the number it resumes from is
    that of the last one it got.  While a connection comes that carries an event
    when there is one, the next event of the log is returned. *)
Theorem client_sees_log final tenant session m log from dials0 s dials n :
  gapless final → owns_log final tenant session m → mapM eventToProto (session_log final session) = Some log →
  Forall (server_dial final tenant session) dials0 → (0 ≤ from)%Z →
  SdkSubscribe session from None dials0 = (Ok s, dials) →
  let '(evs, s', rest, e) := consume n s dials in
  evs = take (length evs) (drop (Z.to_nat from) log) ∧ LastSeq s' = (from + Z.of_nat (length evs))%Z ∧
  (e = None → length evs = n) ∧
  (∀ f, Connected f ∈ rest → live log f → (LastSeq s' < Z.of_nat (length log))%Z →
        ∃ ev, (Next s' rest).2 = Ok ev ∧ log !! Z.to_nat (LastSeq s') = Some ev).
Proof.
  intros Hg Ho Hm Hd Hf Hsub. pose proof (wire_numbered _ _ _ _ _ Hg Ho Hm) as Hnum.
  assert (Forall (feeds log) dials0) as Hfeeds.
  { eapply Forall_impl; [done|]. intros [e|f]; [done|]. intros (c & -> & Hc). by eapply server_feed. }
  destruct dials0 as [|[e|f] dials0]; [done..|]. injection Hsub as <- <-. apply Forall_cons in Hfeeds as [Hfd Hfeeds].
  pose proof (consume_ok log Hnum n (open f (MkSubscription session from true None)) dials0) as Hc.
  destruct (consume _ _ _) as [[[evs s'] rest] e]. destruct Hc as (H1' & H2' & H3' & H4' & H5' & H6'); [|done|].
  { split; [done|]. by apply Hfd. }
  unfold LastSeq in *. split_and!; [done..|]. intros f' Hin Hlive Hlt. by eapply Next_progress.
Qed.

(** C24: a stream lives no longer than its key.  A request is sent frames only if
    its bearer key is valid and the session is of the key's tenant; once an event
    or a tick of the clock finds the key revoked, nothing more is sent, whatever
    the bus still delivers, and the stream ends unauthenticated; and every event
    that is sent was sent at a moment at which the key was valid. *)
Theorem stream_authority authorization actorHeader session from w bus flushed :
  let out := SubscribeEvents authorization actorHeader session from w bus flushed in
  (out.1 ≠ [] →
     ∃ id s, (Authenticate (http_bearer authorization) w).2 = Ok id ∧
             db_sessions (w_db w) !! session = Some s ∧ se_tenant s = aiTenant id) ∧
  (∀ token before m after,
     authenticated token (mo_world m) = false → (mo_input m = InRecheck ∨ ∃ e, mo_input m = InEvent e) →
     subscribe_loop token (before ++ m :: after) = subscribe_loop token (before ++ [m]) ∧
     (subscribe_loop token (before ++ m :: after)).1 = (subscribe_loop token before).1) ∧
  (∀ token ms, (length (subscribe_loop token ms).1 ≤
     length (bool_filter (λ m, authenticated token (mo_world m)) ms))%nat).
Proof.
  split_and!.
  - unfold SubscribeEvents, authenticate. case_bool_decide; [done|].
    unfold mapped, mbind, M_bind, attempt. destruct (Authenticate (http_bearer authorization) w) as [w' [id|e]] eqn:Ea; [|done].
    simpl. unfold resolveSessionTenant, identityFrom, of_option, stored, attempt, SessionTenant, mbind, M_bind, get, mret, M_ret.
    simpl. destruct (db_sessions (w_db w) !! session) as [s|] eqn:Es; simpl; [|done].
    case_bool_decide; simpl; [|done]. intros _. by exists id, s.
  - intros token before m after Hrev Hin. induction before as [|[inp w' sent] before [IH1 IH2]]; cbn [app subscribe_loop].
    + destruct Hin as [-> |[e ->]]; by rewrite Hrev.
    + cbn [mo_input mo_world mo_sent]. destruct inp; [|done| |done].
      * destruct (negb _); [done|]. destruct (eventToProto e); [|done]. destruct sent; [|done]. rewrite <-IH1.
        destruct (subscribe_loop token (before ++ m :: after)) as [fs x]. destruct (subscribe_loop token before) as [fs' x'].
        simpl in *. by subst.
      * by destruct (authenticated token w').
  - intros token ms. induction ms as [|[inp w' sent] ms IH]; cbn [subscribe_loop mo_input mo_world mo_sent]; [simpl; lia|].
    unfold bool_filter in *. rewrite filter_cons. cbn [mo_world]. destruct inp; [|simpl; lia| |simpl; lia].
    + destruct (authenticated token w') eqn:Ea; cbn [negb]; [|simpl; lia]. rewrite decide_True by done.
      destruct (eventToProto e); [|simpl; lia]. destruct sent; [|simpl; lia].
      destruct (subscribe_loop token ms) as [fs x]. simpl in *. lia.
    + destruct (authenticated token w'); [|simpl; lia]. rewrite decide_True by done. simpl. lia.
Qed.

(** ** Ranges *)

(** The upper bound of a read: none when it is not positive. *)
Definition upto (to a : Z) (l : list Event) : list Event :=
  if bool_decide (0 < to)%Z then take (Z.to_nat (to + 1 - a)) l else l.

Lemma get_loop_upto to limit page (l : list Event) a n :
  ev_seq <$> l = seqZ a n → get_loop to limit page l = get_loop 0 limit page (upto to a l).
Proof.
  unfold upto. destruct (bool_decide_reflect (0 < to)%Z) as [Ht|Ht].
  - revert page a n. induction l as [|e l IH]; intros page a n Hl; [by destruct (Z.to_nat _)|].
    apply consecutive_cons in Hl as (He & Hl & Hn). cbn [get_loop]. rewrite bool_decide_eq_true_2, andb_true_l by done.
    destruct (bool_decide_reflect (to < ev_seq e)%Z) as [Hlt|Hlt].
    + by replace (Z.to_nat (to + 1 - a)) with 0 by lia.
    + replace (Z.to_nat (to + 1 - a)) with (S (Z.to_nat (to + 1 - (a + 1)))) by lia. cbn [take get_loop].
      rewrite (bool_decide_eq_false_2 (0 < 0)%Z) by lia. rewrite andb_false_l. case_bool_decide; [done|]. by eapply IH.
  - intros _. revert page. induction l as [|e l IH]; intros page; [done|]. cbn [get_loop].
    rewrite (bool_decide_eq_false_2 (0 < to)%Z), (bool_decide_eq_false_2 (0 < 0)%Z) by lia. rewrite !andb_false_l.
    case_bool_decide; [done|]. apply IH.
Qed.

Lemma upto_slice to from k (l : list Event) : (0 ≤ from)%Z →
  upto to (from + 1) (take k (drop (Z.to_nat from) l)) = take k (drop (Z.to_nat from) (upto to 1 l)).
Proof.
  intros Hf. unfold upto. case_bool_decide; [|done]. replace (to + 1 - 1)%Z with to by lia.
  rewrite take_take, Nat.min_comm, <-take_take. f_equal. destruct (decide (to ≤ from)%Z).
  - replace (Z.to_nat (to + 1 - (from + 1))) with 0 by lia. rewrite take_0. symmetry. apply drop_ge. rewrite length_take. lia.
  - rewrite take_drop_commute. do 2 f_equal. lia.
Qed.

Lemma upto_prefix to a (l : list Event) : upto to a l `prefix_of` l.
Proof. unfold upto. case_bool_decide; [apply prefix_take|done]. Qed.

Lemma upto_subset k to a (l : list Event) : drop k (upto to a l) ⊆ l.
Proof.
  etrans; [apply subseteq_drop|]. destruct (upto_prefix to a l) as [x Hx]. rewrite Hx at 2.
  intros e He. apply elem_of_app. by left.
Qed.

(** The bounded read is the pair of bounds on the numbers. *)
Lemma upto_filter to (l : list Event) a n : ev_seq <$> l = seqZ a n →
  bool_filter (λ e, bool_decide (to ≤ 0)%Z || bool_decide (ev_seq e ≤ to)%Z) l = upto to a l.
Proof.
  unfold upto, bool_filter. destruct (bool_decide_reflect (0 < to)%Z) as [Ht|Ht].
  - revert a n. induction l as [|e l IH]; intros a n Hl; [by destruct (Z.to_nat _)|].
    apply consecutive_cons in Hl as (He & Hl & Hn). specialize (IH _ _ Hl).
    rewrite (bool_decide_eq_false_2 (to ≤ 0)%Z) in * by lia. cbn [orb] in *. destruct (decide (a ≤ to)%Z).
    + rewrite filter_cons_True by (apply bool_decide_eq_true; lia). rewrite IH.
      by replace (Z.to_nat (to + 1 - a)) with (S (Z.to_nat (to + 1 - (a + 1)))) by lia.
    + rewrite filter_cons_False by (rewrite bool_decide_eq_true; lia). rewrite IH.
      replace (Z.to_nat (to + 1 - (a + 1))) with 0 by lia. by replace (Z.to_nat (to + 1 - a)) with 0 by lia.
  - intros _. rewrite (bool_decide_eq_true_2 (to ≤ 0)%Z) by lia. apply (bool_filter_all (λ _, true)). done.
Qed.

Lemma mapM_app_Some (l k : list Event) x y :
  mapM eventToProto l = Some x → mapM eventToProto k = Some y → mapM eventToProto (l ++ k) = Some (x ++ y).
Proof. rewrite !mapM_Some. apply Forall2_app. Qed.

Lemma mapM_sub (l k : list Event) log : l ⊆ k → mapM eventToProto k = Some log → is_Some (mapM eventToProto l).
Proof.
  intros Hs Hk. apply mapM_is_Some. apply mk_is_Some, mapM_is_Some in Hk. rewrite Forall_forall in *. intros x Hx. auto.
Qed.

Lemma consecutive_prefix (k l : list Event) a n :
  k `prefix_of` l → ev_seq <$> l = seqZ a n → ev_seq <$> k = seqZ a (Z.of_nat (length k)).
Proof.
  revert l a n. induction k as [|e k IH]; intros l a n [x ->] Hl; [done|].
  apply consecutive_cons in Hl as (He & Hl & Hn). rewrite fmap_cons, seqZ_cons by (simpl; lia).
  rewrite (IH (k ++ x) (a + 1)%Z (n - 1)%Z) by (by apply prefix_app_r || done). f_equal; [done|]. unfold Z.succ. f_equal. simpl. lia.
Qed.

Lemma bool_filter_ext_and (f g : Event → bool) (l : list Event) :
  bool_filter (λ x, f x && g x) l = bool_filter f (bool_filter g l).
Proof. rewrite <-bool_filter_and. unfold bool_filter. apply list_filter_iff. intros x. rewrite andb_comm. done. Qed.

(** One page of [Get]. *)
Lemma GetEvents_page d tenant session n fromSeq token size to from (limit := if bool_decide (size ≤ 0)%Z || bool_decide (256 < size)%Z then 256%Z else size)
    (l := drop (Z.to_nat from) (upto to 1 (session_log d session))) :
  gapless d → owns_log d tenant session n → (0 ≤ from)%Z →
  (if bool_decide (token = "") then from = fromSeq else parse_token 0 token = Some from) →
  GetEvents tenant session fromSeq token size to d =
  Ok (if bool_decide (Z.of_nat (length l) ≤ limit)%Z then (l, "")
      else (take (Z.to_nat limit) l, pretty (from + limit)%Z)) ∧ (1 ≤ limit)%Z.
Proof.
  intros Hg Ho Hf Htok. unfold GetEvents.
  replace (if bool_decide (token = "") then Some fromSeq else parse_token 0 token) with (Some from)
    by (case_bool_decide; naive_solver). fold limit.
  assert (1 ≤ limit)%Z as Hlim by (unfold limit; repeat case_bool_decide; simpl; lia). clearbody limit. split; [|done].
  rewrite (Range_slice d tenant session n) by (done || lia). cbn [snd]. f_equal.
  destruct (gapless_log d tenant session n) as (Hlog & Hn & Hlen); [done..|].
  assert (ev_seq <$> take (Z.to_nat (limit + 1)) (drop (Z.to_nat from) (session_log d session)) =
          seqZ (from + 1) (Z.of_nat (min (Z.to_nat (limit + 1)) (Z.to_nat (n - from))))) as Hs.
  { rewrite fmap_take, (consecutive_drop _ _ _ (Z.to_nat from) Hlog) by lia.
    apply list_eq. intros i. apply option_eq. intros x.
    rewrite lookup_take_Some, !lookup_seqZ. lia. }
  rewrite (get_loop_upto _ _ _ _ _ _ Hs), upto_slice by done. fold l.
  rewrite get_loop_spec by (simpl; lia). simpl app. rewrite length_take. simpl length.
  assert (ev_seq <$> l = seqZ (from + 1) (Z.of_nat (length l))) as Hl.
  { unfold l. pose proof (consecutive_prefix _ _ _ _ (upto_prefix to 1 (session_log d session)) Hlog) as Hu.
    apply (consecutive_drop _ _ _ (Z.to_nat from)) in Hu; [|lia]. rewrite Hu, length_drop.
    destruct (decide (Z.to_nat from ≤ length (upto to 1 (session_log d session)))%nat); [f_equal; lia|].
    by rewrite !seqZ_nil by lia. }
  clearbody l. destruct (bool_decide_reflect (Z.of_nat (length l) ≤ limit)%Z) as [Hfit|Hfit].
  - rewrite bool_decide_eq_true_2 by lia. by rewrite take_ge by lia.
  - rewrite bool_decide_eq_false_2 by lia. rewrite take_take, Nat.min_l by lia. f_equal.
    rewrite last_lookup, length_take, Nat.min_l, lookup_take_lt by lia.
    pose proof (list_lookup_fmap ev_seq l (pred (Z.to_nat limit))) as He. rewrite Hl in He.
    destruct (l !! pred (Z.to_nat limit)) as [e|] eqn:El; [|apply lookup_ge_None in El; lia].
    apply lookup_seqZ in He as [He _]. f_equal. lia.
Qed.

Lemma get_pages_spec fuel d tenant session n log fromSeq token size to from :
  gapless d → owns_log d tenant session n → mapM eventToProto (session_log d session) = Some log → (0 ≤ from)%Z →
  (if bool_decide (token = "") then from = fromSeq else parse_token 0 token = Some from) →
  (Z.to_nat (n - from) < fuel)%nat →
  get_pages fuel tenant session fromSeq to size token d =
  Ok <$> mapM eventToProto (drop (Z.to_nat from) (upto to 1 (session_log d session))).
Proof.
  intros Hg Ho Hm. revert token from. induction fuel as [|fuel IH]; intros token from Hf Htok Hfuel; [lia|].
  cbn [get_pages]. unfold GetPage.
  destruct (GetEvents_page d tenant session n fromSeq token size to from Hg Ho Hf Htok) as [-> Hlim]. revert Hlim.
  generalize (if bool_decide (size ≤ 0)%Z || bool_decide (256 < size)%Z then 256%Z else size). intros limit Hlim.
  destruct (gapless_log d tenant session n) as (Hlog & Hn & Hlen); [done..|].
  set (u := upto to 1 (session_log d session)).
  assert (u `prefix_of` session_log d session) as Hu by apply upto_prefix.
  assert (length u ≤ Z.to_nat n)%nat as Hul by (apply prefix_length in Hu; lia).
  assert (∀ k, is_Some (mapM eventToProto (drop k u))) as Hconv.
  { intros k. eapply mapM_sub; [apply upto_subset|done]. }
  destruct (bool_decide_reflect (Z.of_nat (length (drop (Z.to_nat from) u)) ≤ limit)%Z) as [Hfit|Hfit].
  - destruct (Hconv (Z.to_nat from)) as [evs ->]. cbn. by rewrite bool_decide_eq_true_2.
  - rewrite length_drop in Hfit. destruct (parse_token_pretty (from + limit)) as [Hne Hparse]; [lia|].
    pose proof (Hconv (Z.to_nat (from + limit))) as [rest Hrest].
    assert (drop (Z.to_nat from) u = take (Z.to_nat limit) (drop (Z.to_nat from) u) ++ drop (Z.to_nat (from + limit)) u) as Hsplit.
    { rewrite Z2Nat.inj_add, <-drop_drop by lia. by rewrite take_drop. }
    assert (is_Some (mapM eventToProto (take (Z.to_nat limit) (drop (Z.to_nat from) u)))) as [page Ep].
    { destruct (Hconv (Z.to_nat from)) as [evs Hevs]. eapply mapM_sub; [|done]. apply subseteq_take. }
    rewrite Ep. cbn. rewrite bool_decide_eq_false_2 by done.
    rewrite (IH _ (from + limit)%Z); [|lia|by rewrite bool_decide_eq_false_2|lia].
    fold u. rewrite Hrest. cbn. by rewrite Hsplit, (mapM_app_Some _ _ page rest).
Qed.

(** The SDK's [GetEvents].  It returns, after finitely many pages, the
    events of the session with a number above [fromSeq] and, when [toSeq] is
    positive, not above [toSeq]: each once, in order, and converted, whatever page
    size is asked for. *)
Theorem get_events_range d tenant session s log fromSeq toSeq size :
  gapless d → session_of d tenant session = Some s → (0 ≤ fromSeq)%Z →
  mapM eventToProto (session_log d session) = Some log →
  ∃ evs, get_pages (S (Z.to_nat (se_last_seq s))) tenant session fromSeq toSeq size "" d = Some (Ok evs) ∧
    mapM eventToProto
      (bool_filter (λ e, bool_decide (fromSeq < ev_seq e)%Z && (bool_decide (toSeq ≤ 0)%Z || bool_decide (ev_seq e ≤ toSeq)%Z))
         (session_log d session)) = Some evs.
Proof.
  intros Hg Hs Hf Hm. assert (owns_log d tenant session (se_last_seq s)) as Ho by (by exists s).
  destruct (gapless_log d tenant session _ Hg Ho) as (Hlog & Hn & Hlen).
  rewrite (get_pages_spec _ d tenant session (se_last_seq s) log fromSeq "" size toSeq fromSeq);
    [|done|done|done|done|by rewrite bool_decide_eq_true_2|lia].
  pose proof (upto_prefix toSeq 1 (session_log d session)) as Hp.
  destruct (mapM_sub (drop (Z.to_nat fromSeq) (upto toSeq 1 (session_log d session))) (session_log d session) log) as [evs He];
    [apply upto_subset|done|].
  exists evs. rewrite He. split; [done|]. rewrite <-He. f_equal.
  rewrite (bool_filter_ext_and (λ e, bool_decide (fromSeq < ev_seq e)%Z)).
  rewrite (upto_filter _ _ _ _ Hlog), (consecutive_filter _ 1 (Z.of_nat (length (upto toSeq 1 (session_log d session)))));
    [|by eapply consecutive_prefix]. do 2 f_equal. lia.
Qed.
End server.

(** ** Waiting for a run *)

(** Between two polls at least the interval passes. *)
Definition paced (start interval : Z) (polls : list poll) : Prop :=
  ∀ i p, polls !! i = Some p → (start + Z.of_nat i * interval ≤ po_now p)%Z.

(** What [AwaitRun] may report. *)
Definition await_report (id : RunID) (deadline : time) (want : list RunStateProto) (last : option RunProto)
    (polls : list poll) (out : option RunProto * option err) : Prop :=
  (∀ run, out.1 = Some run → last = Some run ∨ ∃ p, p ∈ polls ∧ po_answer p = Some run) ∧
  match out.2 with
  | None => ∃ p run, p ∈ polls ∧ out.1 = Some run ∧ po_answer p = Some run ∧ rp_state run ∈ want ∧ (po_now p < deadline)%Z
  | Some e => (∃ p, p ∈ polls ∧ (po_before p = Some e ∨ po_after p = Some e)) ∨
              (out = await_expired id out.1 ∧ ∃ p, p ∈ polls ∧ (deadline ≤ po_now p)%Z)
  end.

Lemma await_report_cons id deadline want last last' p polls out :
  (∀ run, last' = Some run → last = Some run ∨ po_answer p = Some run) →
  await_report id deadline want last' polls out → await_report id deadline want last (p :: polls) out.
Proof.
  intros Hl [H1 H2]. split.
  - intros run Hrun. destruct (H1 run Hrun) as [E|(q & Hq & E)].
    + destruct (Hl run E); [by left|]. right. exists p. split; [apply elem_of_cons; by left|done].
    + right. exists q. split; [apply elem_of_cons; by right|done].
  - destruct out.2 as [e|].
    + destruct H2 as [(q & Hq & E)|(E & q & Hq & Hd)]; [left|right; split; [done|]]; exists q; (split; [apply elem_of_cons; by right|done]).
    + destruct H2 as (q & run & Hq & E). exists q, run. split; [apply elem_of_cons; by right|done].
Qed.

Lemma await_loop_report id deadline want last polls out :
  await_loop id deadline want last polls = Some out → await_report id deadline want last polls out.
Proof.
  revert last. induction polls as [|p polls IH]; intros last; cbn [await_loop]; [done|].
  assert (p ∈ p :: polls) as Hp by (apply elem_of_cons; by left).
  destruct (bool_decide_reflect (deadline ≤ po_now p)%Z) as [Hd|Hd].
  { intros [= <-]. unfold await_report, await_expired. destruct last; simpl; (split; [naive_solver|]); right; (split; [done|]); eauto. }
  destruct (po_before p) as [e|] eqn:Eb.
  { intros [= <-]. split; simpl; [naive_solver|]. left. eauto. }
  set (last' := match po_answer p with Some r => Some r | None => last end).
  assert (∀ run, last' = Some run → last = Some run ∨ po_answer p = Some run) as Hl
    by (intros run; unfold last'; destruct (po_answer p); auto).
  destruct (match po_answer p with Some r => bool_decide (rp_state r ∈ want) | None => false end) eqn:Ew.
  { intros [= <-]. destruct (po_answer p) as [r|] eqn:Ea; [|done]. apply bool_decide_eq_true in Ew. split; simpl.
    - intros run [= ->]. right. eauto.
    - exists p, r. split_and!; try done. lia. }
  destruct (po_after p) as [e|] eqn:Ea'; [|intros E; eapply await_report_cons; [exact Hl|by apply IH]].
  intros [= <-]. split; simpl; [|left; eauto]. intros run Hr. destruct (Hl run Hr); [by left|right; eauto].
Qed.

Lemma await_loop_ends id deadline want l polls p :
  p ∈ polls → (deadline ≤ po_now p)%Z → is_Some (await_loop id deadline want l polls).
Proof.
  revert l. induction polls as [|q polls IH]; intros l Hp Hd; [by apply elem_of_nil in Hp|]. cbn [await_loop].
  destruct (bool_decide_reflect (deadline ≤ po_now q)%Z) as [|Hq]; [by eexists|].
  destruct (po_before q); [by eexists|]. destruct (match po_answer q with Some _ => _ | None => _ end); [by eexists|].
  destruct (po_after q); [by eexists|]. apply IH; [|done]. apply elem_of_cons in Hp as [->|]; [done|done].
Qed.

Lemma await_loop_finds id deadline want l polls i p run :
  polls !! i = Some p →
  (∀ j q, (j ≤ i)%nat → polls !! j = Some q → (po_now q < deadline)%Z ∧ po_before q = None ∧ po_after q = None) →
  po_answer p = Some run → rp_state run ∈ want → ∃ run', await_loop id deadline want l polls = Some (Some run', None).
Proof.
  revert l i. induction polls as [|q polls IH]; intros l i Hp Hup Ha Hw; [done|]. cbn [await_loop].
  destruct (Hup 0 q) as (Hn & Hb & Haf); [lia|done|]. rewrite bool_decide_eq_false_2, Hb by lia.
  destruct i as [|i].
  - injection Hp as ->. rewrite Ha, bool_decide_eq_true_2 by done. by eexists.
  - destruct (match po_answer q with Some _ => _ | None => _ end) eqn:E; [destruct (po_answer q); [by eexists|done]|].
    rewrite Haf. eapply IH; [done| |done|done]. intros j r Hj Hr. apply (Hup (S j)); [lia|done].
Qed.

(** [AwaitRun] ends and says what happened.  With at least the poll interval
    between two polls it returns after at most timeout / interval + 1 polls.  A
    run it returns was read by one of them; without an error it is in one of the
    states that were asked for (completed, failed, cancelled or awaiting by
    default) and was read before the deadline; an error is that of the context or
    the timeout, which is reported only after the deadline; and a wanted state
    that is read in time is returned. *)
Theorem await_run_returns id o start polls :
  paced start (await_interval o) polls → (await_timeout o ≤ (Z.of_nat (length polls) - 1) * await_interval o)%Z →
  let deadline := (start + await_timeout o)%Z in
  ∃ out, AwaitRun id o start polls = Some out ∧ await_report id deadline (await_states o) None polls out ∧
    (∀ i p run, polls !! i = Some p →
       (∀ j q, (j ≤ i)%nat → polls !! j = Some q → (po_now q < deadline)%Z ∧ po_before q = None ∧ po_after q = None) →
       po_answer p = Some run → rp_state run ∈ await_states o → out.2 = None).
Proof.
  intros Hpace Hlen deadline.
  assert (0 < await_timeout o)%Z as Ht by (unfold await_timeout; case_bool_decide; lia).
  assert (0 < await_interval o)%Z as Hi by (unfold await_interval; case_bool_decide; lia).
  destruct (polls !! pred (length polls)) as [p|] eqn:Ep.
  2: { apply lookup_ge_None in Ep. destruct polls; simpl in *; lia. }
  pose proof (Hpace _ _ Ep) as Hnow.
  destruct (await_loop_ends id deadline (await_states o) None polls p) as [out Hout];
    [by eapply list_elem_of_lookup_2|unfold deadline; destruct polls; simpl in *; nia|].
  exists out. split_and!; [done|by apply await_loop_report|].
  intros i q run Hq Hup Ha Hw. destruct (await_loop_finds id deadline _ None _ _ _ _ Hq Hup Ha Hw) as [run' E].
  by simplify_eq.
Qed.

(** ** Credentials of a client *)

Lemma bearer_header key : http_bearer ("Bearer " +:+ key) = key.
Proof. unfold http_bearer. by rewrite (proj2 (cut_prefix_Some "Bearer " _ key)). Qed.

(** Who the server takes a client for.  The requests of a client carry its
    key and its actor: while the key is valid the server acts for the key's tenant
    and scope and, when the client names an actor, in that actor's name, otherwise
    in the name of the key.  [WithActor] changes nothing but the actor the server
    sees. *)
Theorem client_identity `{Sha256} o headers w id :
  so_key o ≠ "" → headers !! "X-Core-Actor" = None → (Authenticate (so_key o) w).2 = Ok id →
  let identity (c : Client) :=
    let h := (RoundTrip (cl_auth c) headers).1 in
    (authenticate (default "" (h !! "Authorization")) (default "" (h !! "X-Core-Actor")) w).2 in
  let named (actor : string) :=
    let a := ParseActorHeader actor in
    if bool_decide (actKind a = "") && bool_decide (actID a = "") then MkActor "service" (aiKey id) "" else a in
  identity (SdkNew o) = Ok (MkAuthContext (aiTenant id) (aiKey id) (aiScope id) (named (so_actor o))) ∧
  ∀ actor, identity (WithActor (SdkNew o) actor) = Ok (MkAuthContext (aiTenant id) (aiKey id) (aiScope id) (named actor)).
Proof.
  intros Hk Hh Ha identity named.
  assert (∀ c actor, at_token (cl_auth c) = so_key o → at_actor (cl_auth c) = actor →
    identity c = Ok (MkAuthContext (aiTenant id) (aiKey id) (aiScope id) (named actor))) as Hc.
  { intros c actor Ht <-. unfold identity, RoundTrip. rewrite Ht, (bool_decide_eq_false_2 (so_key o = "")) by done.
    assert (∀ h : gmap string string, h !! "Authorization" = Some ("Bearer " +:+ so_key o) →
      default "" (h !! "X-Core-Actor") = at_actor (cl_auth c) →
      (authenticate (default "" (h !! "Authorization")) (default "" (h !! "X-Core-Actor")) w).2 =
      Ok (MkAuthContext (aiTenant id) (aiKey id) (aiScope id) (named (at_actor (cl_auth c))))) as Hsrv.
    { intros h -> ->. unfold authenticate. cbn [from_option Datatypes.id]. rewrite bearer_header, (bool_decide_eq_false_2 (so_key o = "")) by done.
      unfold mapped, mbind, M_bind, attempt. destruct (Authenticate (so_key o) w) as [w' r]. simpl in Ha. subst r. reflexivity. }
    case_bool_decide as Hact; cbn [fst]; apply Hsrv.
    - by rewrite lookup_insert_eq.
    - by rewrite lookup_insert_ne, Hh, Hact.
    - by rewrite lookup_insert_ne, lookup_insert_eq.
    - by rewrite lookup_insert_eq. }
  split; [by apply Hc|]. intros actor. by apply Hc.
Qed.

(** ** Label selectors *)

Definition slice_wf (h : arrays) (s : slice) : Prop :=
  match h !! sl_array s with Some (a, cap) => (sl_len s ≤ length a ≤ cap)%nat ∧ (0 < cap)%nat | None => sl_len s = 0 end.

(** A builder that is used once at every stage collects what it is given. *)
Lemma append_slice_items h s x : slice_wf h s →
  let '(h', s') := append_slice h s x in slice_items h' s' = slice_items h s ++ [x] ∧ slice_wf h' s'.
Proof.
  unfold slice_wf, append_slice, slice_items. destruct (h !! sl_array s) as [[a cap]|] eqn:E.
  - intros [Hle Hc]. destruct (Nat.ltb_spec (sl_len s) cap); simpl; rewrite lookup_insert_eq.
    + split; [|rewrite length_app, length_take; cbn [length]; rewrite length_drop; lia].
      rewrite (cons_middle x), app_assoc, take_app_length'; [done|]. rewrite length_app, length_take. simpl. lia.
    + split; [|rewrite length_app, length_take; simpl; lia].
      rewrite take_ge; [done|]. rewrite length_app, length_take. simpl. lia.
  - intros Hl. simpl. rewrite lookup_insert_eq. split; [done|simpl; lia].
Qed.

Lemma labels_build sels :
  let '(h, s) := foldl (λ '(h, s) x, append_slice h s x) (∅, nil_slice) sels in LabelsBuild h s = sels.
Proof.
  assert (∀ h s, slice_wf h s → let '(h', s') := foldl (λ '(h, s) x, append_slice h s x) (h, s) sels in
    slice_items h' s' = slice_items h s ++ sels) as Hgen.
  { induction sels as [|x sels IH]; intros h s Hw; simpl; [by rewrite app_nil_r|].
    pose proof (append_slice_items h s x Hw) as Ha. destruct (append_slice h s x) as [h1 s1]. destruct Ha as [Hi Hw1].
    specialize (IH h1 s1 Hw1). destruct (foldl _ (h1, s1) sels) as [h2 s2]. by rewrite IH, Hi, <-app_assoc. }
  pose proof (Hgen ∅ nil_slice) as Hx. destruct (foldl _ _ sels) as [h s]. unfold LabelsBuild. rewrite Hx; [done|].
  unfold slice_wf. by rewrite lookup_empty.
Qed.

(** Two builders that branch from one share its array: the second overwrites the
    selector of the first. *)
Example label_branches_share :
  let '(h, l) := LabelsEq ∅ nil_slice "a" "1" in
  let '(h, l) := LabelsEq h l "b" "2" in
  let '(h, base) := LabelsEq h l "c" "3" in
  let '(h, x) := LabelsEq h base "team" "red" in
  let '(h, y) := LabelsEq h base "team" "blue" in
  LabelsBuild h x = LabelsBuild h base ++ [LabelEq "team" "blue"] ∧ LabelsBuild h y = LabelsBuild h x.
Proof. vm_compute. done. Qed.

(** [WithActor] forgets the transport, the redirect policy and the cookies of the
    client it derives from. *)
Example with_actor_drops_transport :
  let c := SdkNew (MkSdkOptions "https://core" "k" "user/1" (Some (MkHttpClient "mtls" 30 "never" "jar"))) in
  at_base (cl_auth c) = "mtls" ∧ at_base (cl_auth (WithActor c "user/2")) = DefaultTransport ∧
  cl_redirect (WithActor c "user/2") = "" ∧ cl_jar (WithActor c "user/2") = "".
Proof. vm_compute. done. Qed.

(** ** A session watched through the SDK

    Instances of the theorems of [Wire] and of this file: a log of three steps, a
    tenant's key, and a client whose first connection breaks after one event and
    whose second attempt is refused.  The JSON mapping is instantiated by the
    field-by-field decoder of [Wire], JSON text by the encoding of
    [TunnelGuarantees]. *)

Module SdkDemo.

#[local] Existing Instance Laptop.text.
#[local] Existing Instance Laptop.text_ok.
#[local] Existing Instance AccountDemo.sha.

(** ** Messages as JSON objects *)

#[global] Instance protojson : Protojson := {|
  Unmarshal := λ fields j, match j with JObj obj => proto_message fields obj | _ => None end;
  Marshal := λ m, match m with [(k, PString s)] => Some (JObj [(k, JStr s)]) | _ => None end;
|}.
Lemma one_member k v : member k [(k, v)] = Some v.
Proof. unfold member, bool_filter. rewrite filter_cons_True by (by apply bool_decide_eq_true). done. Qed.
#[global] Instance protojson_ok : ProtojsonOk.
Proof.
  split; [done|]. intros k s Hk Hs. exists [(k, JStr s)]. split_and!; [done|by simpl; rewrite Hk, Hs| |].
  - cbn [kind_ok forallb existsb fst]. rewrite one_member, !bool_decide_eq_true_2; [done|done|apply NoDup_singleton].
  - unfold proto_message. cbn [proto_value mapM fst snd]. by rewrite one_member.
Qed.

(** ** The log *)

Definition alice : authContext := MkAuthContext "t1" "k1" "sessions" (MkActor "user" "alice" "").
Definition hello : EventPayload := EventPayload_UserMessage [("text", PString "hello")].
Definition said : DB := (AppendPayload (Some alice) "s1" (Some (Some hello)) (demo_log 3)).1.

Definition resized : Event :=
  MkEvent "s1" 9 5 ActorSystem EventKindResourceReady (ResourcePayload (MkResourceEventPayload "r1" "dev_env" "" "p1" "" "" 7)).

Lemma wire_faithful_witness :
  (∃ v, eventToProto resized = Some (MkSessionEvent "s1" 9 5 ActorSystem v) ∧ EventKind v = "resource_ready" ∧
        variant_message v = message_of (ev_payload resized)) ∧
  length (payload_members (ev_payload resized)) = 4.
Proof.
  split; [|reflexivity].
  apply (wire_faithful resized); [vm_compute; reflexivity|constructor| |].
  - simpl. set_solver.
  - repeat constructor; simpl; lia.
Defined.

Lemma append_reads_back_witness :
  ∃ d' e, AppendPayload (Some alice) "s1" (Some (Some hello)) (demo_log 3) = (d', Ok 4%Z) ∧
    session_log d' "s1" = session_log (demo_log 3) "s1" ++ [e] ∧
    eventToProto e = Some (MkSessionEvent "s1" 4 (ev_ts e) (MkActor "user" "alice" "") hello).
Proof.
  apply (append_reads_back (Some alice) alice "s1" (set_last_seq 3 demo_session) "hello" hello (demo_log 3));
    [apply _|apply demo_gapless|reflexivity|reflexivity|reflexivity|reflexivity|by left].
Defined.

(** ** The client *)

Definition wire_log : list SessionEvent := default [] (mapM eventToProto (session_log (demo_log 3) "s1")).
Definition key : APIKey := MkAPIKey "k1" "t1" "ci" "sessions" "uck" (bytes_of "sesame") [] 0 None.
Definition w : World := MkWorld (demo_log 3) (MkAccounts ∅ {["k1" := key]} ∅ ∅) [].

(** A bus that is cut off after [k] events. *)
Definition bus (k : nat) (t : TenantID) (s : SessionID) (from : Z) : result (list moment) :=
  Ok (take k ((λ e, MkMoment (InEvent e) w true) <$> drop (Z.to_nat from) (session_log (demo_log 3) s))).
Definition req (k : nat) : request := MkRequest "Bearer sesame" "user/alice" w (bus k) true.

Lemma moments_of l k : moment_events (take k ((λ e, MkMoment (InEvent e) w true) <$> l)) `prefix_of` l.
Proof.
  revert k. induction l as [|e l IH]; intros [|k]; try apply prefix_nil. rewrite fmap_cons. cbn. by apply prefix_cons, IH.
Qed.

Lemma req_ok k : request_ok (demo_log 3) "t1" "s1" (req k).
Proof.
  split.
  - intros s Hs. vm_compute in Hs. by injection Hs as <-.
  - intros from ms Hf [= <-].
    assert (Forall (λ d, gapless d ∧ (∃ n, owns_log d "t1" "s1" n) ∧ (length (session_log d "s1") < 10)%nat) [demo_log 3]) as Hw.
    { constructor; [|constructor]. split_and!; [apply demo_gapless|exists 3%Z; eexists; by split|vm_compute; lia]. }
    pose proof (subscribe_spec 10 "t1" "s1" from [demo_log 3] (demo_log 3) Hw ltac:(repeat constructor) Hf eq_refl) as Hs.
    destruct (subscribe 10 "t1" "s1" from [demo_log 3]) as [[out n]|] eqn:E; [|done]. injection Hs as ->.
    eexists 10, [demo_log 3], (demo_log 3), _, n. split_and!; [done|repeat constructor|done|done|done|apply moments_of].
Qed.

Definition broken : dial := Connected (serve "s1" (λ _, req 1)).
Definition whole : dial := Connected (serve "s1" (λ _, req 10)).
Definition dials : list dial := [broken; Refused (ErrorText "connection refused"); whole].
Definition watching : Subscription :=
  match (SdkSubscribe "s1" 0 None dials).1 with Ok s => s | Err _ => MkSubscription "" 0 true None end.
Definition seen : list SessionEvent * Subscription * list dial * option err :=
  consume 3 watching [Refused (ErrorText "connection refused"); whole].

Lemma client_sees_log_witness :
  let '(evs, s', rest, e) := seen in
  evs = take (length evs) wire_log ∧ LastSeq s' = Z.of_nat (length evs) ∧ (sv_seq <$> evs) = [1; 2; 3]%Z.
Proof.
  pose proof (client_sees_log (demo_log 3) "t1" "s1" 3 wire_log 0 dials watching
    [Refused (ErrorText "connection refused"); whole] 3) as Hc.
  assert ((sv_seq <$> seen.1.1.1) = [1; 2; 3]%Z) as Hseq by (vm_compute; reflexivity). fold seen in Hc.
  destruct seen as [[[evs s'] rest] e]. destruct Hc as (H1 & H2 & _).
  - apply demo_gapless.
  - eexists; by split.
  - vm_compute; reflexivity.
  - repeat constructor; eexists; (split; [reflexivity|]); intros; apply req_ok.
  - done.
  - reflexivity.
  - split_and!; [exact H1|exact H2|exact Hseq].
Defined.

Lemma get_events_range_witness :
  ∃ evs, get_pages 4 "t1" "s1" 1 2 1 "" (demo_log 3) = Some (Ok evs) ∧ (sv_seq <$> evs) = [2]%Z.
Proof.
  destruct (get_events_range (demo_log 3) "t1" "s1" (set_last_seq 3 demo_session) wire_log 1 2 1) as (evs & H1 & H2);
    [apply demo_gapless|reflexivity|done|vm_compute; reflexivity|].
  exists evs. split; [exact H1|]. vm_compute in H2. injection H2 as <-. reflexivity.
Defined.

(** ** Waiting *)

Definition at_state (st : RunStateProto) : RunProto :=
  MkRunProto "r1" "s1" st "default" 1 ("openai", "gpt", "") "go" "" "" 0 0 DefaultRunPolicy "" "" 0 "user" "alice" "" "".
Definition polls : list poll :=
  [MkPoll 0 None (Some (at_state RUN_STATE_RUNNING)) None; MkPoll 10 None None None;
   MkPoll 20 None (Some (at_state RUN_STATE_COMPLETED)) None; MkPoll 31 None (Some (at_state RUN_STATE_COMPLETED)) None].
Definition patience : AwaitRunOptions := MkAwaitRunOptions 30 [] 10.

Lemma await_run_returns_witness :
  ∃ out, AwaitRun "r1" patience 0 polls = Some out ∧ out.2 = None ∧ out.1 = Some (at_state RUN_STATE_COMPLETED).
Proof.
  destruct (await_run_returns "r1" patience 0 polls) as (out & H1 & _ & _).
  - intros i p Hp. repeat (destruct i as [|i]; [injection Hp as <-; vm_compute; done|]). done.
  - vm_compute. done.
  - exists out. vm_compute in H1. injection H1 as <-. by split_and!.
Defined.

(** ** Identity *)

Definition options : SdkOptions := MkSdkOptions "http://core" "sesame" "" None.

Lemma client_identity_witness :
  let h := (RoundTrip (cl_auth (SdkNew options)) ∅).1 in
  (authenticate (default "" (h !! "Authorization")) (default "" (h !! "X-Core-Actor")) w).2 =
  Ok (MkAuthContext "t1" "k1" "sessions" (MkActor "service" "k1" "")).
Proof.
  destruct (client_identity options ∅ w (MkAuthIdentity "t1" "k1" "sessions")) as [H _];
    [done|done|vm_compute; reflexivity|]. exact H.
Defined.

End SdkDemo.
