(* ===== verification/Findings.v ===== *)
(** * Where the code and its comments part

    Concrete histories that show behaviour the comments of the source exclude.
    Each is an evaluation of the model: of the core on the scenario, then of the
    redactor, the tool cache, the admin queries and reads, the account handlers
    and the command engine. *)
From S2P Require Import Prelude Policy Domain Text Store StoreRuns EventLog Loop Waits Batcher Tools Step Api.
From S2P Require Import ResourceStore OperatorTx ResourceWork Frames Invariants RunStates System WorkSteps Scenario Redelivery WaitSpec ResourceSpec ToolCache ResourceApi ResourceToolSpec.

(** The child of the scenario asks its user a question and is parked. *)
Definition ask_recorder : stepRecorder := set_question (MkQuestion "which one?" []) new_recorder.
Definition d_child_asks : DB :=
  run_ops [OpCommit 150 (child_job 0) 1 (demo_envelope "look") (one_step "stop" "") ask_recorder] d_parked.

(** Cancelling a parked child leaves its parent parked and the wait open,
    although the child is terminal: only the deadline will resume the parent.
    [loop/waits.go] says that every terminal path funnels through
    [resolveChildWaits]; [CancelRun] does not. *)
Example cancel_parked_child_strands_parent :
  let d := run_ops [OpCancelRun alice "c1"] d_child_asks in
  (ar_state (row_of d "c1"), ar_state (row_of d "r1"), is_open (wait_at d)) = (RunCancelled, RunAwaiting, true).
Proof. vm_compute. reflexivity. Qed.

(** The operator's cancel and expire leave the parent parked in the same way. *)
Example operator_ends_child_strands_parent :
  let c := row_of d_child_asks "c1" in
  (λ o, let d := run_ops [o] d_child_asks in (ar_state (row_of d "c1"), ar_state (row_of d "r1"), is_open (wait_at d)))
    <$> [OpOperatorCancel c; OpOperatorExpire c] =
  [(RunCancelled, RunAwaiting, true); (RunCancelled, RunAwaiting, true)].
Proof. vm_compute. reflexivity. Qed.

(** Answering a run that is parked on children sets it running and leaves its
    wait open; when the child ends the run is resumed again, and a job for the
    same step is queued a second time. *)
Example answer_parked_parent_resumes_twice :
  let d := run_ops ([OpAnswerRun alice "r1" "never mind"] ++ demo_resume) d_parked in
  (is_open (wait_at (run_ops [OpAnswerRun alice "r1" "never mind"] d_parked)),
   length (bool_filter (λ q, bool_decide (qj_job q = StepJob "r1" "acme" "s1" 1)) (db_jobs d))) = (true, 2%nat).
Proof. vm_compute. reflexivity. Qed.

(** A second open wait of a parent is reported as [ErrNotFound]: [ON CONFLICT DO
    NOTHING] hides the unique violation the comment expects. *)
Example second_wait_not_found :
  (WaitCreate "acme" (MkRunWait "w2" "r1" 1 "call-9" WaitKindWait WaitOpen TimeoutPolicyResolve 5000 None None)
     [] d_parked).2 = Err ErrNotFound.
Proof. vm_compute. reflexivity. Qed.

(** [completed] is terminal, and a completed run that is answered runs again. *)
Example completed_runs_again :
  Terminal (ar_state (row_of d_resumed "c1")) = true ∧
  ar_state (row_of (run_ops [OpAnswerRun alice "c1" "and now?"] d_resumed) "c1") = RunRunning.
Proof. vm_compute. split; reflexivity. Qed.

(** A pending run that is cancelled stays pending until its first step is
    delivered. *)
Example cancelled_pending_stays_pending :
  ar_state (row_of (run_ops [OpCancelRun alice "c1"] d_spawned) "c1") = RunPending.
Proof. vm_compute. reflexivity. Qed.

(** A failed run whose worker saw the request is moved on to [cancelled]. *)
Example failed_becomes_cancelled :
  ar_state (row_of (run_ops [OpCancelRun alice "c1"; OpFail (child_job 0) FailureProviderError "boom";
                             OpCancelStream (child_job 0)] d_parked) "c1") = RunCancelled.
Proof. vm_compute. reflexivity. Qed.

(** A run whose policy denies [wait_for_agents] is offered it all the same. *)
Definition no_wait_policy : RunPolicy := MkRunPolicy ["*"] ["wait_for_agents"] ["*"] 16 false.
Example denied_wait_tool_offered :
  AllowsTool no_wait_policy "wait_for_agents" = false ∧ "wait_for_agents" ∈ step_tools no_wait_policy [].
Proof. split; [reflexivity|]. apply (bool_decide_unpack _). vm_compute. exact I. Qed.

(** A terminated resource becomes failed, and one that is being terminated goes
    back to provisioning, when an older job goes on. *)
Example terminated_becomes_failed :
  r_state (resource_at (run_ops [OpResource (RoTerminated "acme" (resource_at d_ready));
                                 OpResource (RoFail "acme" (resource_at d_ready) "late")] d_ready)) = ResourceFailed ∧
  r_state (resource_at (run_ops [OpResource (RoRequestTerminate "acme" "e1");
                                 OpResource (RoSetProvisioning "acme" "e1")] d_ready)) = ResourceProvisioning.
Proof. vm_compute. split; reflexivity. Qed.

(** A registration whose resources are all terminal passes the guard of the
    delete and is refused by the foreign key. *)
Example terminal_resources_pin_provider :
  (ProviderDelete "acme" "p1" (run_ops [OpResource (RoTerminated "acme" (resource_at d_ready))] d_ready)).2 =
  Err (ErrorText "postgres: delete provider: foreign key violation").
Proof. vm_compute. reflexivity. Qed.

(** The tool that says it terminates a session resource terminates a resource of
    another session of the tenant: only the tenant is compared. *)
Definition d_two_sessions : DB := run_ops [
  OpCreateSession alice "s2" "acme" "other" ∅;
  OpStartRun alice "r2" demo_model "s2" "hi" None None ] d_ready.
Example tool_terminates_other_session :
  let run := row_of d_two_sessions "r2" in
  (ar_session run, r_session (resource_at d_two_sessions)) = ("s2", "s1") ∧
  r_state (resource_at (call_rtool demo_service open_net None run (ToolTerminate "terminate_resource")
                          (InTerminate "e1" "") (d_two_sessions, NewCache)).1.1) = ResourceTerminating.
Proof. vm_compute. split; reflexivity. Qed.

(** The provisioning tool looks for ready or failed only: once the resource is
    terminated it goes on looking until its context ends. *)
Example provision_polls_terminated n :
  poll_provision "acme" "e1" (replicate n (run_ops [OpResource (RoTerminated "acme" (resource_at d_ready))] d_ready)) =
  ReplyCancelled.
Proof.
  set (d := run_ops _ _).
  assert (resource_of d "acme" "e1" = Some (resource_at d) ∧ r_state (resource_at d) = ResourceTerminated) as [Hd Hs]
    by (vm_compute; split; reflexivity).
  clearbody d. induction n as [|n IH]; [done|]. cbn [replicate poll_provision]. rewrite Hd, Hs. exact IH.
Qed.

(** ** The services around the core *)

From S2P Require Import Prelude Policy Domain Text Store StoreRuns EventLog Loop Waits Batcher Tools Step Api.
From S2P Require Import ResourceStore OperatorTx ResourceWork System Scenario Strings Redact ToolCache AdminAuthz AdminQuery Descriptors QuerySpec Plans Paging Registry Accounts AccountSpec AdminCommands CommandSpec AdminReads.

(** The handler scrubs string attributes and renders those of kind any, and
    passes groups on as they are. *)
Example group_attribute_not_redacted :
  Handle (Register [canary] []) (MkLogRecord "request" [MkAttr "req" (KindGroup [("token", canary)])]) =
  MkLogRecord "request" [MkAttr "req" (KindGroup [("token", canary)])].
Proof. vm_compute. reflexivity. Qed.

(** Forms are replaced in the order they were registered: a secret that begins
    with an earlier one leaves its tail. *)
Example longer_secret_leaves_tail :
  Redact (Register ["sk-abc123"; "sk-abc123-prod-77"] []) "key sk-abc123-prod-77" = "key [redacted]-prod-77".
Proof. vm_compute. reflexivity. Qed.

(** After an environment is invalidated the cache knows no epoch of it, and a
    late caller with an old epoch gets a live client again. *)
Example invalidated_epoch_resurrected :
  let c := run_cache [CoClient "env" 1 "http://a" "old"; CoClient "env" 2 "http://a" "new"; CoInvalidate "env"] NewCache in
  (CacheClient "env" 1 "http://a" "old" c).2 = Ok 2 ∧
  (CacheClient "env" 1 "http://a" "old" (run_cache [CoClient "env" 2 "http://a" "new"] NewCache)).2 = Err ErrRevoked.
Proof. vm_compute. split; reflexivity. Qed.

(** ** Paging over a column with nulls *)

Module Nulls.
Import Registry.Demo.

(** API keys: id and time of revocation. *)
Definition key_row (r : string * option time) : row :=
  λ c, if bool_decide (c = "k.id") then Some (VStr r.1)
       else if bool_decide (c = "k.revoked_at") then VTime <$> r.2 else None.
Definition key_scan (r : string * option time) : string → goval :=
  λ c, if bool_decide (c = "k.id") then GoString r.1
       else if bool_decide (c = "k.revoked_at") then GoTimePtr r.2 else GoNil.
Definition by_revocation : Request := MkRequest "" [] [MkSort "revoked_at" false] (MkPage 1 "").

(** The keys that are not revoked sort last, and the keyset predicate of the
    next page excludes them: the listing ends without them. *)
Example null_rows_skipped :
  pages no_raw key_row key_scan 9 (Some signer) (λ i, Z.of_nat i) 0 apiKeysCollection
    [("u1", Some 5%Z); ("u2", Some 7%Z); ("u3", None); ("u4", None)] by_revocation "" =
  QOk [("u1", Some 5%Z); ("u2", Some 7%Z)].
Proof. vm_compute. reflexivity. Qed.

(** When a page ends in such a row its cursor is refused. *)
Example null_cursor_refused :
  pages no_raw key_row key_scan 9 (Some signer) (λ i, Z.of_nat i) 0 apiKeysCollection
    [("u3", None); ("u4", None)] by_revocation "" = QErr ErrBadCursor.
Proof. vm_compute. reflexivity. Qed.

End Nulls.

(** ** Periodic prompts *)

Module Demos.
Import AccountDemo.

(** A periodic prompt for a run is answered with the run and stored without it. *)
Example periodic_run_dropped :
  let w := MkWorld (run_op demo_service (OpCreateSession owner "s1" "acme" "t" ∅) empty_db) (w_acc w_acme) [] in
  let p := PutPeriodicPrompt (H0:=durations) owner "p1" 0 "s1" "r1" "2000000000" "go" w in
  ((pr_run <$> match p.2 with Ok x => Some x | Err _ => None end), (pp_run <$> ac_periodic (w_acc p.1) !! "p1")) =
  (Some "r1", Some None).
Proof. vm_compute. reflexivity. Qed.

End Demos.

(** ** Previews *)

(** A preview is cut after 256 bytes, in the middle of a character of two. *)
Example preview_splits_character :
  let s := of_bytes (repeat 120%Z 255 ++ [195; 169]%Z) in
  valid_utf8 s = true ∧ valid_utf8 (cut_preview s) = false.
Proof. vm_compute. done. Qed.
